(* ===== verification/_CoqProject ===== *)
-Q . S2P
Prelude.v
StateLogic.v
PyDecimal.v
EventModel.v
RunModel.v
Sessions.v
RunSpec.v
RunStore.v
RunRows.v
RunQueue.v
Budgets.v
Cancellation.v
PolicyModel.v
Hardline.v
Policy.v
PolicyLoader.v
Approvals.v
Messages.v
Attachments.v
ToolInvocations.v
ModelStream.v
ResponseText.v
Checkpoints.v
Compaction.v
Events.v
LoopGuards.v
Artifacts.v
LoopPorts.v
Recall.v
RunLoop.v
RunLoopSpec.v
LoopWorld.v
LoopFrame.v
Executor.v
ExecutorFrame.v
ExecutorSpec.v
Execution.v
Resume.v
ExecutorWorld.v
ToolTrust.v
ToolSpecs.v
ToolOutput.v
ToolPipeline.v
ToolDispatch.v
PipelineSpec.v
ToolGuarantees.v
PipelineWorld.v
Calendar.v
Recurrence.v
RecurrenceSpec.v
RecurrenceCount.v
RecurrenceWorld.v
CanonicalJson.v
ToolRegistry.v
ToolRegistrySpec.v
McpMapping.v
ProcessEvents.v
Schedules.v
ScheduleStore.v
ScheduleStoreSpec.v
CallPlans.v
Materializer.v
ScheduleAccounting.v
MaterializerSpec.v
ScheduleSafety.v
ScheduleOutcomes.v
FeedRefresh.v
ScheduleWorker.v
ScheduleService.v
ScheduleServiceSpec.v
ScheduleWorld.v
