(* ===== verification/Prelude.v ===== *)
(** * Veetbot: a verified model of the durable agent runtime

    Veetbot is a personal agent service. A _run_ answers one message of a session: a
    worker claims it from a durable queue, builds a context, calls a model, dispatches
    the tools the model asks for (policy and approvals in between), and records every
    step in an event log and a checkpoint, so that another worker can take over after a
    crash. This development models that core - the data, the stores, the decisions and
    the loop - from the Python sources under [src/src/agent_core/], and proves what makes
    it correct. File and function names in the comments are relative to that directory.

    ** Parts, and where they are

    Foundations.
    - [Prelude]: identifiers, instants, the exceptions, the error and state monads,
      JSON, and the list, string and map lemmas the components share;
      [StateLogic]: frames ([keeps]), weakest preconditions ([wp]) and result predicates
      ([yields]) of stateful computations;
      [PyDecimal]: Python's [decimal.Decimal] at a context precision.
    - [EventModel], [RunModel], [Messages]: the data of [domain/events.py],
      [domain/runs.py] with [runtime/state_machine.py], and [domain/messages.py].

    Stores. Each in-memory repository of [adapters/persistence/memory.py] is a Module
    with its state as a record and one definition per method.
    - [Sessions]; [RunSpec] (what any run repository promises: a class of operations with
      its laws), [RunStore] and [RunRows] (the in-memory and the PostgreSQL repository,
      both proved to keep it); [RunQueue] (leases, fencing epochs and reclaim of
      [adapters/persistence/queue.py]); [Events]; [Checkpoints]; [Approvals];
      [ToolInvocations].

    Decisions.
    - [Budgets] ([runtime/budgets.py]: checks and the two ledgers), [Cancellation],
      [PolicyModel], [Hardline], [Policy] and [PolicyLoader] ([policy/]).

    The model call and the context.
    - [ModelStream] ([model/streaming.py]), [ResponseText] ([runtime/response_text.py]),
      [Attachments] ([model/attachments.py]), [Compaction] ([context/history.py],
      [context/compactor.py], [context/estimator.py]), [Artifacts] (the files of a reply).

    The run.
    - [LoopGuards] (the pure guards of [runtime/loop.py]), [LoopPorts] (what the loop
      reads and calls: classes of ports with the laws the loop relies on), [Recall]
      ([prepare_recall]), [RunLoop] (the rest of [runtime/loop.py]), [RunLoopSpec] (its
      theorems), [LoopWorld] (a scripted world in which they are evaluated).
    - [Executor] ([runtime/executor.py]: a claimed run from its checkpoint to the
      transaction that settles it), [LoopFrame] and [ExecutorFrame] (what every port keeps,
      kept by the loop and by an execution), [ExecutorSpec] (what a finalization makes
      durable), [Execution] (a whole execution), [Resume] (a batch that was pending),
      [ExecutorWorld] (a journalled world that satisfies their laws).

    The tools.
    - [ToolTrust] (whose authority a call and its arguments carry), [ToolSpecs] (what tools
      declare and return, the recovery table, approval cards), [ToolOutput] (excerpts),
      [ToolPipeline] and [ToolDispatch] ([tools/executor.py]: a batch from its calls to its
      results), [PipelineSpec] (the laws of its ports and the invariant of rows and
      executions), [ToolGuarantees] (its theorems), [PipelineWorld] (the in-memory
      repositories behind the ports, and whole dispatches evaluated).
    - [CanonicalJson] ([tools/validation.py]: defaults, normalisation and the hash of
      arguments), [ToolRegistry] and [ToolRegistrySpec] ([tools/registry.py]), [McpMapping]
      ([mcp/mapping.py]: from what a server announces to registered tools).

    Schedules.
    - [Calendar] (dates, weekdays and civil days as numbers) and [Recurrence]
      ([domain/recurrence.py] with the cadences of [domain/schedules.py]);
      [RecurrenceSpec] (the instants of a cadence, and that the searches find the nearest),
      [RecurrenceCount] (the closed-form counts), [RecurrenceWorld] (zones, and cadences
      evaluated across clock changes).
    - [Schedules] (the data and validators of [domain/schedules.py]), [ScheduleStore]
      ([InMemoryScheduleRepository] of [adapters/persistence/schedules.py]),
      [ScheduleStoreSpec] (its invariant and histories), [ProcessEvents] (the log of what no
      session owns), [CallPlans] ([domain/call_plans.py]).
    - [Materializer] ([scheduling/materializer.py]: a due schedule, a run on request and a
      Cockpit refresh, each one transaction of a [Uow]), [MaterializerSpec] and
      [ScheduleSafety] (its theorems; the class [ScheduleLaws] says which ports may launch a
      run), [FeedRefresh] (which schedules a refresh visits), [ScheduleAccounting]
      ([scheduling/accounting.py]) and [ScheduleOutcomes], [ScheduleWorker]
      ([scheduling/worker.py]: a scan and its sleep), [ScheduleService]
      ([application/schedule_service.py]) and [ScheduleServiceSpec], [ScheduleWorld] (a world
      in which they are evaluated).

    ** How the model corresponds to the code

    A pydantic model is a record and a [StrEnum] an inductive type with its wire
    values; a validator is a function to [result]. A method of an object with state is a
    function from the state (and the clock readings and ids it draws) to a result and
    the state: an exception is [Raise], with the state as the code had left it. Objects
    that are passed around and mutated (the run, the checkpoint, the step) are fields of
    one state, so an alias sees the change. An [await] that other tasks may run behind
    is a step of its own where the source does not hold a lock over it: the queue and
    the repositories are step relations or histories over arbitrary interleavings.
    Instants are microseconds; integers are unbounded, as Python's are; decimals are
    rounded as the default context rounds.

    ** What the theorems show

    - The run loop ends, whatever its ports do; it counts no step and no tool call past
      its limits; every tool call gets exactly one result; every outcome carries what its
      caller acts on (theorems of [RunLoopSpec], [LoopGuards], [Recall]).
    - A run's status follows the state machine and its outcome is final, in both storage
      tiers and over every history ([RunSpec], [RunStore], [RunRows]); a worker whose
      lease was taken over can write nothing ([RunQueue]); an expired lease is reclaimed
      and the number of expirations is bounded.
    - Policy: a hardline match is denied whatever the profile, scope or approval says;
      untrusted content authorizes nothing; a loaded profile is total ([Policy],
      [PolicyLoader]). The protected-path rule matches exactly the strings that lead into
      a protected path, however they are spelled, two leading slashes excepted
      ([Hardline]).
    - Accounting is all or nothing and equals the recorded attempts ([Budgets]).
    - Approvals settle once and by their owner; invocations, events and checkpoints keep
      their histories ([Approvals], [ToolInvocations], [Events], [Checkpoints]).
    - The streaming filter shows the same text however the provider cuts it; compaction
      keeps tool calls with their results and copies no untrusted text ([ModelStream],
      [ResponseText], [Compaction], [Attachments]).

    - The registry shows a principal no tool of another and lets no name change hands;
      arguments have one hash exactly when they are the same JSON; discovery accounts for
      every tool a server announces ([ToolRegistrySpec], [CanonicalJson], [McpMapping]).
    - Schedules: the next and the latest instant of a cadence are the nearest ones, across
      leap years and clock changes, and the counts are exact ([RecurrenceSpec],
      [RecurrenceCount], [RecurrenceWorld]). A due schedule is decided once, for the last
      instant that has been reached, and moves to the first to come ([MaterializerSpec]);
      every run a schedule starts is one its owner may start, when no other is going as far
      as the latest occurrence tells ([ScheduleSafety]); its outcome is counted once, by a
      rule stated case by case ([ScheduleOutcomes]); nothing is recorded twice over any
      history ([ScheduleStoreSpec]); a lifecycle operation stays within the authority of its
      caller and a creation may be repeated ([ScheduleServiceSpec]); a call plan places a
      bounded number of calls ([CallPlans]).
      [ScheduleWorld] evaluates two histories in which a run
      is blocked by an event written too early, and in which two runs of a schedule go on
      side by side.

    ** Interfaces and parameters

    Classes with laws stand between components: [RunRepository] ([RunSpec]),
    [BudgetLedger] and [CheckpointWriter] ([LoopPorts]) are discharged by the files that
    implement them; [LoopPorts] is the rest of what the loop calls, and [ToolDispatchLaws]
    is what it relies on of the dispatcher, which is what [ToolGuarantees] proves of the
    pipeline. [PipelinePorts] is what the pipeline is constructed with; its laws
    ([PipelineLaws], [Naming]) are those of the invocation repository, proved of it in
    [PipelineWorld], and the silence of the other ports about rows. Section variables stand for code that is not
    under [src/] (regular expressions, URL and address parsing, SHA-256, Unicode
    normalisation, the text of a float, the JSON Schema validator, the time-zone database,
    [uuid5] and the text of a UUID, pydantic's dump and decoding of a model, the database's
    commit) or that the modelled code only calls for a value; no theorem assumes more of
    them than its statement says. [SchedulePorts] and [ServicePorts] are the stores, the
    clock, the authority and the admission that scheduling reads; what of them
    [ScheduleSafety] relies on is [ScheduleLaws], kept by the world of [ScheduleWorld].

    ** Fuel

    A loop of the source whose bound is in its data is structural. Otherwise it takes
    fuel, its result is an option, and a theorem shows that the fuel a caller gives is
    enough: one iteration of the run loop per step left plus one, one model attempt per
    attempt left, one compaction per compaction left. [execute] starts with the run as the
    repository returned it. The recursion of the pipeline through an approval takes a
    bound of one round, and [one_approval_round] shows that any larger bound is the same.
    The searches of [Recurrence] take the number of steps the source writes (the seconds
    left of a day, 24 months, ten years, windows of two and eight days): [nearest_instants]
    and [next_run_exists] show that what they miss is not there. [inspect_loop] takes the size of
    its JSON, enough by [inspect_exact]; [feed_pages] takes a page per schedule and one
    more, enough by [feeds_exact].

    ** Not modelled

    Calls that the pipeline gathers run one after the other here, and the calls a sandbox
    script makes back into it are left out. The HTTP API, the command line, the clients,
    the surfaces (Telegram, WhatsApp, devices, calls), e-mail, memory formation, people, the
    cockpit, the browser control plane, skills, the MCP client, the sandbox, schedule drafts
    and the sweep that runs a call plan, notifications, metrics and the SQL of the remaining
    repositories are listed one by one in the manifest: they are I/O
    around the core above, or subsystems of their own that a run only calls through a
    port. *)
From Stdlib Require Export ZArith Lia ZifyBool ZifyN Ascii.
From stdpp Require Export base list gmap strings option sorting relations.

#[export] Set Default Goal Selector "!".
Open Scope Z_scope.

(** ** Identifiers, instants and exceptions

    A [UUID] is the number Python reads as [uuid.int]; an aware UTC
    [datetime] and a [timedelta] are microseconds. *)
Abbreviation UUID := N (only parsing).
Abbreviation datetime := Z (only parsing).
Abbreviation timedelta := Z (only parsing).

Definition seconds (n : Z) : timedelta := n * 1000000.
Definition minutes (n : Z) : timedelta := n * 60000000.

(** The exceptions the modelled code raises, with the message (and the
    stable reason code, where the class carries one). *)
Inductive exn :=
| ConflictError (msg : string)
| NotFoundError (msg : string)
| WorkerFencedError (msg : string)
| BudgetExceededError (reason msg : string)
| RunCancelledError (msg : string)
| ContextOverflow (msg : string)
| ModelStreamError (msg : string)
| ToolValidationError (msg : string)
| ValueError (msg : string)
| TypeError (msg : string)
| KeyError (key : string)
| IndexError
| RuntimeError (msg : string)
| NotImplementedError (msg : string)
| AttributeError (msg : string)
| IntegrityError (constraint : string)
| ApprovalRequiredError (approval_id : UUID)
| ChildRunRequiredError (delegation_id invocation_id : UUID) (child_run_ids : list UUID)
| UserInputRequiredError (question_id invocation_id : UUID)
| ScheduledBrowserUnavailableError (reason_code : string)
| ProviderPinUnavailableError (msg : string)
| DatabaseCapacityError (msg : string)
| DelegationValidationError (reason msg : string)
| OverflowError (msg : string)
| TimeoutError
| ToolTrustRejectedError (msg : string)
| ToolStatementNotGroundedError (msg : string)
| WorkspaceEscape (msg : string)
| AssertionError (msg : string)
(** [ConflictError(msg, reason=reason)] *)
| ConflictFor (reason msg : string)
| RateLimitedError (reason msg : string)
| ScheduleValidationError (reason msg : string)
| AuthorizationError (msg : string).

#[export] Instance exn_eq_dec : EqDecision exn.
Proof. solve_decision. Defined.

(** ** The error monad: a Python call returns a value or raises *)
Inductive result (A : Type) :=
| Ok (a : A)
| Raise (e : exn).
Arguments Ok {A} a.
Arguments Raise {A} e.

#[export] Instance result_ret : MRet result := λ A a, Ok a.
#[export] Instance result_bind : MBind result := λ A B f m,
  match m with Ok a => f a | Raise e => Raise e end.
#[export] Instance result_fmap : FMap result := λ A B f m,
  match m with Ok a => Ok (f a) | Raise e => Raise e end.

#[export] Instance result_eq_dec `{EqDecision A} : EqDecision (result A).
Proof. solve_decision. Defined.

(** [if b: raise e], then the rest of the body. *)
Declare Scope py_scope.
Delimit Scope py_scope with py.
Notation "'raise_if' b 'with' e ; k" := (if b then Raise e else k)
  (at level 10, b at level 100, e at level 100, k at level 200,
   format "'[v' 'raise_if'  b  'with'  e ; '/' k ']'") : py_scope.
Open Scope py_scope.

Lemma raise_if_ok {A} (b : bool) e (k : result A) a :
  (if b then Raise e else k) = Ok a ↔ b = false ∧ k = Ok a.
Proof. destruct b; naive_solver. Qed.

Definition is_ok {A} (m : result A) : bool :=
  match m with Ok _ => true | Raise _ => false end.

(** ** State with exceptions

    A method that mutates its object and may raise afterwards: the state it
    leaves is the one at the raise. *)
Definition stateM (S A : Type) : Type := S → result A * S.

#[export] Instance stateM_ret {S} : MRet (stateM S) := λ A a s, (Ok a, s).
#[export] Instance stateM_bind {S} : MBind (stateM S) := λ A B f m s,
  match m s with
  | (Ok a, s') => f a s'
  | (Raise e, s') => (Raise e, s')
  end.
Definition raise {S A} (e : exn) : stateM S A := λ s, (Raise e, s).
Definition get_state {S} : stateM S S := λ s, (Ok s, s).
Definition modify {S} (f : S → S) : stateM S unit := λ s, (Ok tt, f s).
Definition lift {S A} (m : result A) : stateM S A := λ s, (m, s).
Definition gets {S A} (f : S → A) : stateM S A := λ s, (Ok (f s), s).

(** ** Record update: [r <| f := v |>] is Python's [model_copy(update={"f": v})]

    A record declares its eta-expansion once; the setter of a field is the
    eta-expansion with that field's occurrence replaced. *)
Class Eta (R : Type) := eta : R → R.
Class Setter {R T} (proj : R → T) := setter : (T → T) → R → R.
Ltac build_setter R T proj :=
  let g := constr:(λ (f : T → T) (r : R), ltac:(
    let e := eval cbv beta delta [eta] in (@eta R _ r) in
    let e := eval hnf in e in
    let p := eval pattern (proj r) in e in
    lazymatch p with
    | ?h _ => let b := eval cbv beta in (h (f (proj r))) in exact b
    end)) in
  exact g.
#[export] Hint Extern 1 (@Setter ?R ?T ?proj) => build_setter R T proj : typeclass_instances.
Arguments setter {R T} proj {_} / f r.
Notation "r <| f := v |>" := (setter f (λ _, v) r)
  (at level 1, left associativity, f at next level, v at level 200) : py_scope.


(** ** JSON values ([Any] fields: tool arguments, metadata, payloads) *)
Inductive json :=
| JNull
| JBool (b : bool)
| JInt (z : Z)
| JFloat (mantissa exponent : Z)
| JStr (s : string)
| JArr (l : list json)
| JObj (o : list (string * json)).

(** [isinstance(v, str)] and the string. *)
Definition as_str (v : option json) : option string :=
  match v with Some (JStr s) => Some s | _ => None end.
(** [v is True] *)
Definition is_True_value (v : option json) : bool :=
  match v with Some (JBool true) => true | _ => false end.

(** ** Sort keys: an instant (or number), then [UUID.int] *)
Definition key_leb (a b : Z * N) : bool :=
  (a.1 <? b.1) || ((a.1 =? b.1) && (a.2 <=? b.2)%N).
Definition key_ltb (a b : Z * N) : bool :=
  (a.1 <? b.1) || ((a.1 =? b.1) && (a.2 <? b.2)%N).

Lemma key_leb_refl a : key_leb a a = true.
Proof. unfold key_leb. destruct a; simpl. lia. Qed.
Lemma key_leb_trans a b c : key_leb a b = true → key_leb b c = true → key_leb a c = true.
Proof. unfold key_leb. destruct a, b, c; simpl. lia. Qed.
Lemma key_leb_antisym a b : key_leb a b = true → key_leb b a = true → a = b.
Proof. unfold key_leb. destruct a, b; simpl. intros. f_equal; lia. Qed.
Lemma key_ltb_leb a b : key_ltb a b = negb (key_leb b a).
Proof.
  unfold key_leb, key_ltb. destruct a, b; simpl. apply eq_bool_prop_intro.
  rewrite negb_True, !Is_true_true. lia.
Qed.
Lemma key_ltb_le a b : key_ltb a b = true → key_leb a b = true.
Proof. unfold key_leb, key_ltb. destruct a, b; simpl. lia. Qed.

Section keyed_sort.
Context {A : Type} (key : A → Z * N).

Definition asc (a b : A) : Prop := key_leb (key a) (key b) = true.
Definition desc (a b : A) : Prop := key_leb (key b) (key a) = true.
#[global] Instance asc_dec a b : Decision (asc a b) := decide (_ = _).
#[global] Instance desc_dec a b : Decision (desc a b) := decide (_ = _).

(** [sorted(l, key=key)] and [sorted(l, key=key, reverse=True)]; every key is distinct. *)
Definition sort_asc (l : list A) : list A := merge_sort asc l.
Definition sort_desc (l : list A) : list A := merge_sort desc l.

#[global] Instance asc_total : Total asc.
Proof. intros a b. unfold asc, key_leb. destruct (key a), (key b); simpl.
  lia. Qed.
#[global] Instance asc_trans : Transitive asc.
Proof. intros a b c. unfold asc, key_leb. destruct (key a), (key b), (key c); simpl. lia. Qed.
#[global] Instance desc_total : Total desc.
Proof. intros a b. apply (asc_total b a). Qed.
#[global] Instance desc_trans : Transitive desc.
Proof. intros a b c Hab Hbc. exact (asc_trans c b a Hbc Hab). Qed.

Lemma sort_asc_perm l : sort_asc l ≡ₚ l.
Proof. apply merge_sort_Permutation. Qed.
Lemma sort_desc_perm l : sort_desc l ≡ₚ l.
Proof. apply merge_sort_Permutation. Qed.
Lemma sort_asc_sorted l : StronglySorted asc (sort_asc l).
Proof. apply StronglySorted_merge_sort; apply _. Qed.
Lemma sort_desc_sorted l : StronglySorted desc (sort_desc l).
Proof. apply StronglySorted_merge_sort; apply _. Qed.

Lemma StronglySorted_filter (R : A → A → Prop) (P : A → Prop) `{∀ x, Decision (P x)} (l : list A) :
  StronglySorted R l → StronglySorted R (filter P l).
Proof.
  induction 1 as [|x l Hl IH Hx]; [constructor|]. rewrite filter_cons. case_decide; [|done].
  constructor; [done|]. rewrite !Forall_forall in *. intros y [_ Hy]%list_elem_of_filter. auto.
Qed.

Lemma filter_all (P : A → Prop) `{∀ x, Decision (P x)} (l : list A) :
  (∀ x, x ∈ l → P x) → filter P l = l.
Proof.
  induction l as [|x l IH]; intros Hall; [done|].
  rewrite filter_cons_True by set_solver. f_equal. apply IH. set_solver.
Qed.

(** Keys that tell the elements apart make the sorted list unique. *)
Lemma sort_desc_filter (P : A → Prop) `{∀ x, Decision (P x)} (l : list A) :
  (∀ x y, x ∈ l → y ∈ l → key x = key y → x = y) →
  sort_desc (filter P l) = filter P (sort_desc l).
Proof.
  intros Hinj. apply (StronglySorted_unique_strong desc).
  - intros x y Hx Hy Hxy Hyx.
    assert (x ∈ l) by (rewrite sort_desc_perm in Hx; by apply list_elem_of_filter in Hx as []).
    assert (y ∈ l).
    { apply list_elem_of_filter in Hy as [_ Hy]. by rewrite sort_desc_perm in Hy. }
    apply Hinj; [done..|]. by apply key_leb_antisym.
  - apply sort_desc_sorted.
  - apply StronglySorted_filter, sort_desc_sorted.
  - rewrite sort_desc_perm. by rewrite (sort_desc_perm l).
Qed.

(** Keyset pagination: what lies strictly below the [n]-th key is the rest. *)
Lemma keyset_page (l : list A) n x :
  StronglySorted desc l → (∀ a b, a ∈ l → b ∈ l → key a = key b → a = b) → NoDup l →
  l !! n = Some x →
  filter (λ y, key_ltb (key y) (key x) = true) l = drop (S n) l.
Proof.
  intros Hs. revert n. induction Hs as [|y l Hs IH Hy]; intros n Hinj Hnd Hx; [done|].
  apply NoDup_cons in Hnd as [Hny Hnd].
  assert (Hall : ∀ z, z ∈ l → desc y z) by (by rewrite <- Forall_forall).
  rewrite filter_cons. destruct n as [|n]; simpl in Hx.
  - injection Hx as <-. rewrite decide_False.
    + simpl. rewrite drop_0. apply filter_all. intros z Hz.
      rewrite key_ltb_leb, negb_true_iff. destruct (key_leb _ _) eqn:E; [|done].
      pose proof (Hall z Hz) as Hd. unfold desc in Hd.
      assert (y = z) as ->; [|done].
      apply Hinj; [set_solver..|]. by apply key_leb_antisym.
    + rewrite key_ltb_leb. unfold key_leb. simpl. destruct (key y); simpl. lia.
  - rewrite decide_False.
    + simpl. apply IH; [set_solver|done|done].
    + rewrite key_ltb_leb. rewrite (Hall x); [done|]. by apply list_elem_of_lookup_2 in Hx.
Qed.
End keyed_sort.

(** ** Rows of a table

    The values of a map whose keys are the rows' own ids. *)
Definition table_rows {A} (m : gmap UUID A) : list A := (map_to_list m).*2.

Section table.
Context {A : Type} (id : A → UUID) (m : gmap UUID A).
Hypothesis keyed : ∀ i x, m !! i = Some x → id x = i.

Lemma elem_of_table x : x ∈ table_rows m ↔ m !! id x = Some x.
Proof.
  unfold table_rows. split.
  - intros ([i y] & -> & Hy%elem_of_map_to_list)%list_elem_of_fmap. simpl.
    by rewrite (keyed _ _ Hy).
  - intros Hx. apply list_elem_of_fmap. exists (id x, x). by rewrite elem_of_map_to_list.
Qed.
Lemma table_inj x y : x ∈ table_rows m → y ∈ table_rows m → id x = id y → x = y.
Proof. rewrite !elem_of_table. intros Hx Hy He. rewrite He in Hx. congruence. Qed.
Lemma table_NoDup : NoDup (table_rows m).
Proof.
  unfold table_rows. apply (NoDup_fmap_1 id).
  replace (id <$> (map_to_list m).*2) with (map_to_list m).*1.
  - apply NoDup_fst_map_to_list.
  - rewrite <- list_fmap_compose. apply list_fmap_ext. intros n [i x] H. simpl.
    apply list_elem_of_lookup_2, elem_of_map_to_list in H. symmetry. by apply keyed.
Qed.

(** One page of a filtered index: what lies strictly below the [n]-th row is the rest. *)
Lemma table_page (key : A → Z * N) (P : A → Prop) `{∀ x, Decision (P x)} n x :
  (∀ x y, key x = key y → id x = id y) →
  sort_desc key (filter P (table_rows m)) !! n = Some x →
  sort_desc key (filter (λ y, key_ltb (key y) (key x) = true) (filter P (table_rows m))) =
  drop (S n) (sort_desc key (filter P (table_rows m))).
Proof.
  intros Hkey Hx.
  assert (Hinj : ∀ a b, a ∈ filter P (table_rows m) → b ∈ filter P (table_rows m) → key a = key b → a = b).
  { intros a b [_ Ha]%list_elem_of_filter [_ Hb]%list_elem_of_filter He. by apply table_inj, Hkey. }
  rewrite sort_desc_filter by done. apply keyset_page.
  - apply sort_desc_sorted.
  - intros a b. rewrite !(sort_desc_perm key). apply Hinj.
  - rewrite sort_desc_perm. apply NoDup_filter, table_NoDup.
  - done.
Qed.
End table.

(** ** Python strings

    A [str] is modelled on the code points below 256 ([string] is a list of
    them); the modelled code never depends on a larger one. *)
Definition py_isspace (c : Ascii.ascii) : bool :=
  let n := Ascii.N_of_ascii c in
  ((9 <=? n) && (n <=? 13) || (28 <=? n) && (n <=? 32) || (n =? 133) || (n =? 160))%N.

Definition flush (cur : string) : list string :=
  match cur with EmptyString => [] | _ => [cur] end.

(** [str.split()] *)
Fixpoint py_split_go (cur s : string) : list string :=
  match s with
  | EmptyString => flush cur
  | String c s' =>
      if py_isspace c then flush cur ++ py_split_go EmptyString s'
      else py_split_go (cur +:+ String c EmptyString) s'
  end.
Definition py_split (s : string) : list string := py_split_go EmptyString s.

(** [s.startswith(p)], [s.endswith(p)], [s.removeprefix(p)] *)
Fixpoint py_startswith (p s : string) : bool :=
  match p, s with
  | EmptyString, _ => true
  | String a p', String b s' => Ascii.eqb a b && py_startswith p' s'
  | _, EmptyString => false
  end.
Fixpoint str_drop (n : nat) (s : string) : string :=
  match n, s with
  | O, _ => s
  | _, EmptyString => EmptyString
  | S n', String _ s' => str_drop n' s'
  end.
Definition py_removeprefix (p s : string) : string :=
  if py_startswith p s then str_drop (String.length p) s else s.
Definition py_endswith (p s : string) : bool :=
  (String.length p <=? String.length s)%nat &&
  String.eqb (str_drop (String.length s - String.length p) s) p.

(** [s.split(c)] for a one-character separator: always at least one part. *)
Fixpoint py_split_char (c : Ascii.ascii) (s : string) : list string :=
  match s with
  | EmptyString => [EmptyString]
  | String a s' =>
      match py_split_char c s' with
      | [] => [EmptyString]
      | w :: ws => if Ascii.eqb a c then EmptyString :: w :: ws else String a w :: ws
      end
  end.
(** [s.replace(a, b)] for one-character strings. *)
Fixpoint py_replace_char (a b : Ascii.ascii) (s : string) : string :=
  match s with
  | EmptyString => EmptyString
  | String x s' => String (if Ascii.eqb x a then b else x) (py_replace_char a b s')
  end.
(** [c in s] *)
Fixpoint str_has (c : Ascii.ascii) (s : string) : bool :=
  match s with
  | EmptyString => false
  | String x s' => Ascii.eqb x c || str_has c s'
  end.

(** Concatenation, and ["".join(l)]; [+:+] does not compute under [simpl]. *)
Lemma str_app_assoc (a b c : string) : (a +:+ b) +:+ c = a +:+ (b +:+ c).
Proof. induction a as [|x a IH]; [done|]. exact (f_equal (String x) IH). Qed.
Lemma str_app_String a b c : String a b +:+ c = String a (b +:+ c).
Proof. done. Qed.
Lemma str_app_nil_r s : s +:+ "" = s.
Proof. induction s as [|c s IH]; [done|]. exact (f_equal (String c) IH). Qed.
Lemma str_length_app a b : String.length (a +:+ b) = (String.length a + String.length b)%nat.
Proof. induction a as [|x a IH]; [done|]. exact (f_equal S IH). Qed.

Definition joined (l : list string) : string := foldr String.append "" l.
Lemma joined_cons s l : joined (s :: l) = s +:+ joined l.
Proof. done. Qed.
Lemma joined_app l k : joined (l ++ k)%list = joined l +:+ joined k.
Proof.
  induction l as [|s l IH]; [done|]. change (joined ((s :: l) ++ k)%list) with (s +:+ joined (l ++ k)%list).
  rewrite IH. symmetry. apply str_app_assoc.
Qed.
Lemma joined_single s : joined [s] = s.
Proof. apply str_app_nil_r. Qed.
Lemma joined_snoc l s : joined (l ++ [s])%list = joined l +:+ s.
Proof. by rewrite joined_app, joined_single. Qed.

(** A [dict[str, Any]] in insertion order, and [d.get(key)]. *)
Definition dict : Type := list (string * json).
Fixpoint dict_get (key : string) (d : dict) : option json :=
  match d with
  | [] => None
  | (k, v) :: d' => if String.eqb k key then Some v else dict_get key d'
  end.

(** [d[key] = v] and [d.update({...})] *)
Fixpoint dict_set (key : string) (v : json) (d : dict) : dict :=
  match d with
  | [] => [(key, v)]
  | (k, w) :: d' => if String.eqb k key then (k, v) :: d' else (k, w) :: dict_set key v d'
  end.
Definition dict_update (kvs : dict) (d : dict) : dict := foldl (λ d kv, dict_set kv.1 kv.2 d) d kvs.

Lemma dict_get_set k key v d :
  dict_get k (dict_set key v d) = if String.eqb key k then Some v else dict_get k d.
Proof.
  induction d as [|[k' w] d IH]; [done|]. simpl.
  destruct (String.eqb_spec k' key) as [->|Hne]; simpl.
  - by destruct (String.eqb_spec key k).
  - destruct (String.eqb_spec k' k) as [->|]; [|done].
    destruct (String.eqb_spec key k) as [->|]; [done|done].
Qed.
Lemma dict_get_set_eq key v d : dict_get key (dict_set key v d) = Some v.
Proof. by rewrite dict_get_set, String.eqb_refl. Qed.
Lemma dict_get_set_ne k key v d : key ≠ k → dict_get k (dict_set key v d) = dict_get k d.
Proof. intros Hne. rewrite dict_get_set. by destruct (String.eqb_spec key k). Qed.
Lemma dict_get_app k d d' :
  dict_get k (d ++ d')%list = match dict_get k d with Some v => Some v | None => dict_get k d' end.
Proof. induction d as [|[k' w] d IH]; [done|]. simpl. by destruct (String.eqb k' k). Qed.

(** ** Induction over JSON *)
Lemma json_nested_ind (P : json → Prop) :
  P JNull → (∀ b, P (JBool b)) → (∀ z, P (JInt z)) → (∀ m e, P (JFloat m e)) → (∀ s, P (JStr s)) →
  (∀ l, Forall P l → P (JArr l)) → (∀ o, Forall (λ kv, P kv.2) o → P (JObj o)) → ∀ v, P v.
Proof.
  intros H1 H2 H3 H4 H5 Ha Ho. fix IH 1. intros [| | | | |l|o]; [done..| |].
  - apply Ha. induction l; constructor; auto.
  - apply Ho. induction o as [|[k v] o IHo]; constructor; auto.
Qed.

(** Splitting what was joined, when no part contains the separator. *)
Lemma split_no_sep c s : str_has c s = false → py_split_char c s = [s].
Proof.
  induction s as [|a s IH]; [done|]. simpl. intros [Ha Hs]%orb_false_iff.
  by rewrite (IH Hs), Ha.
Qed.
Lemma split_app_sep c s t :
  str_has c s = false → py_split_char c (s +:+ String c t) = s :: py_split_char c t.
Proof.
  induction s as [|a s IH]; simpl.
  - intros _. rewrite Ascii.eqb_refl. destruct (py_split_char c t) eqn:E; [|done].
    destruct t; simpl in E; [done|]. by repeat case_match.
  - intros [Ha Hs]%orb_false_iff. by rewrite (IH Hs), Ha.
Qed.
Lemma split_concat c ws :
  ws ≠ [] → Forall (λ w, str_has c w = false) ws →
  py_split_char c (String.concat (String c EmptyString) ws) = ws.
Proof.
  induction ws as [|w [|w' ws] IH]; intros Hne Hall; [done|..];
    apply Forall_cons in Hall as [Hw Hws]; [by apply split_no_sep|].
  cbn [String.concat]. change (String c EmptyString +:+ ?x) with (String c x).
  rewrite split_app_sep by done. f_equal. by apply IH.
Qed.
Lemma split_parts c s : Forall (λ w, str_has c w = false) (py_split_char c s).
Proof.
  induction s as [|a s IH]; simpl; [by repeat constructor|].
  destruct (py_split_char c s) as [|w ws]; [by repeat constructor|].
  apply Forall_cons in IH as [Hw Hws]. destruct (Ascii.eqb a c) eqn:E.
  - by repeat constructor.
  - constructor; [|done]. simpl. by rewrite E.
Qed.

(** ** Boolean filters and concatenations of lists *)
Lemma NoDup_List_filter {A} (f : A → bool) l : NoDup l → NoDup (List.filter f l).
Proof.
  induction 1 as [|x l Hx Hl IH]; cbn; [constructor|]. destruct (f x); [|done]. constructor; [|done].
  rewrite list_elem_of_In, List.filter_In, <- list_elem_of_In. tauto.
Qed.
Lemma elem_List_filter {A} (f : A → bool) l x : x ∈ List.filter f l ↔ x ∈ l ∧ f x = true.
Proof. by rewrite !list_elem_of_In, List.filter_In. Qed.
Lemma List_filter_true {A} (l : list A) : List.filter (λ _, true) l = l.
Proof. induction l as [|x l IH]; cbn; [done|by rewrite IH]. Qed.
Lemma elem_concat_map {A B} (L : A → list B) l x : x ∈ concat (map L l) ↔ ∃ i, i ∈ l ∧ x ∈ L i.
Proof. induction l as [|i l IH]; cbn [map concat]; [set_solver|]. rewrite elem_of_app, IH. set_solver. Qed.

(** ** Shared automation *)
Create HintDb veetbot.

(** ** Shared tactics *)

(** Split every [if] and [match] in the goal or a hypothesis and simplify. *)
Ltac split_cases :=
  repeat (case_match || case_decide || case_bool_decide); simplify_eq/=.
