(* ===== verification/StateLogic.v ===== *)
(** * Reasoning about stateful computations

    Two views of a [stateM] computation that the component files share: a relation
    every execution keeps between the state before and the state after, however it
    ends, and the weakest precondition of a condition on how it ends. *)
From S2P Require Import Prelude.

Section logic.
Context {S : Type}.

(** ** Frames: [keeps R m] relates the states around every execution of [m]. *)
Definition keeps {A} (R : S → S → Prop) (m : stateM S A) : Prop := ∀ s, R s (m s).2.

(** ** [wp m Q s]: run from [s], [m] ends in [Q]. *)
Definition wp {A} (m : stateM S A) (Q : result A → S → Prop) (s : S) : Prop := Q (m s).1 (m s).2.

Lemma wp_ret {A} (a : A) Q s : Q (Ok a) s → wp (mret a) Q s.
Proof. done. Qed.
Lemma wp_raise {A} e Q s : Q (Raise e) s → wp (raise e : stateM S A) Q s.
Proof. done. Qed.
Lemma wp_gets {A} (f : S → A) Q s : Q (Ok (f s)) s → wp (gets f) Q s.
Proof. done. Qed.
Lemma wp_get_state (Q : result S → S → Prop) s : Q (Ok s) s → wp get_state Q s.
Proof. done. Qed.
Lemma wp_modify (f : S → S) Q s : Q (Ok tt) (f s) → wp (modify f) Q s.
Proof. done. Qed.
Lemma wp_lift {A} (r : result A) Q s : Q r s → wp (lift r) Q s.
Proof. done. Qed.
Lemma wp_bind {A B} (m : stateM S A) (f : A → stateM S B) Q s :
  wp m (λ r s', match r with Ok a => wp (f a) Q s' | Raise e => Q (Raise e) s' end) s →
  wp (m ≫= f) Q s.
Proof. unfold wp, mbind, stateM_bind. destruct (m s) as [[a|e] s']; done. Qed.
Lemma wp_mono {A} (m : stateM S A) (P Q : result A → S → Prop) s :
  wp m P s → (∀ r s', P r s' → Q r s') → wp m Q s.
Proof. unfold wp. auto. Qed.
Lemma wp_conj {A} (m : stateM S A) (P Q : result A → S → Prop) s :
  wp m P s → wp m Q s → wp m (λ r s', P r s' ∧ Q r s') s.
Proof. by split. Qed.
Lemma wp_keeps {A} (R : S → S → Prop) (m : stateM S A) (Q : result A → S → Prop) s :
  keeps R m → (∀ r s', R s s' → Q r s') → wp m Q s.
Proof. intros Hm HQ. apply HQ, Hm. Qed.
Lemma wp_keeps_bind {A B} (R : S → S → Prop) (m : stateM S A) (f : A → stateM S B) Q s :
  keeps R m → (∀ a s', R s s' → wp (f a) Q s') → (∀ e s', R s s' → Q (Raise e) s') →
  wp (m ≫= f) Q s.
Proof.
  intros Hm Hf He. apply wp_bind. apply (wp_keeps R); [done|]. intros [a|e] s' HR; auto.
Qed.

Lemma keeps_wp {A} (R : S → S → Prop) (m : stateM S A) :
  (∀ s, wp m (λ _ s', R s s') s) → keeps R m.
Proof. done. Qed.

Section frame.
Context (R : S → S → Prop) `{!PreOrder R}.

Lemma keeps_ret {A} (a : A) : keeps R (mret a).
Proof. intros s. reflexivity. Qed.
Lemma keeps_raise {A} e : keeps R (raise e : stateM S A).
Proof. intros s. reflexivity. Qed.
Lemma keeps_gets {A} (f : S → A) : keeps R (gets f).
Proof. intros s. reflexivity. Qed.
Lemma keeps_lift {A} (r : result A) : keeps R (lift r).
Proof. intros s. reflexivity. Qed.
Lemma keeps_modify (f : S → S) : (∀ s, R s (f s)) → keeps R (modify f).
Proof. intros Hf s. apply Hf. Qed.
Lemma keeps_bind {A B} (m : stateM S A) (f : A → stateM S B) :
  keeps R m → (∀ a, keeps R (f a)) → keeps R (m ≫= f).
Proof.
  intros Hm Hf s. specialize (Hm s). unfold mbind, stateM_bind.
  destruct (m s) as [[a|e] s'] eqn:E; [|done]. etrans; [apply Hm|apply Hf].
Qed.
Lemma keeps_weaken {A} (R' : S → S → Prop) (m : stateM S A) :
  keeps R' m → (∀ s s', R' s s' → R s s') → keeps R m.
Proof. unfold keeps. auto. Qed.
End frame.
End logic.

#[export] Hint Resolve keeps_ret keeps_raise keeps_gets keeps_lift : keeps.

(** Take a computation apart: binds, branches and matches, then the leaves by hints.
    [keeps_rule] is extended by the files that declare combinators. *)
Ltac keeps_rule := fail.
Ltac keeps :=
  repeat match goal with
  | |- keeps _ _ => keeps_rule
  | |- keeps _ (mbind _ _) => apply (keeps_bind _); [|intros ?]
  | |- keeps _ (if ?b then _ else _) => destruct b
  | |- keeps _ (match ?x with _ => _ end) => destruct x
  | |- keeps _ (let '(_, _) := ?x in _) => destruct x
  | |- keeps _ _ => solve [eauto with keeps typeclass_instances]
  end.

(** ** Values: [yields P m] when whatever [m] returns satisfies [P] *)
Section values.
Context {S : Type}.
Definition yields {A} (P : A → Prop) (m : stateM S A) : Prop := ∀ s a s', m s = (Ok a, s') → P a.

Lemma yields_ret {A} (P : A → Prop) a : P a → yields P (mret a : stateM S A).
Proof. by intros Ha s b s' [= <- _]. Qed.
Lemma yields_raise {A} (P : A → Prop) e : yields P (raise e : stateM S A).
Proof. by intros s b s'. Qed.
Lemma yields_bind {A B} (P : A → Prop) (Q : B → Prop) (m : stateM S A) (f : A → stateM S B) :
  yields P m → (∀ a, P a → yields Q (f a)) → yields Q (m ≫= f).
Proof.
  intros Hm Hf s b s'. unfold mbind, stateM_bind. destruct (m s) as [[a|e] s1] eqn:E; [|done].
  apply Hf. by eapply Hm.
Qed.
Lemma yields_bind_any {A B} (Q : B → Prop) (m : stateM S A) (f : A → stateM S B) :
  (∀ a, yields Q (f a)) → yields Q (m ≫= f).
Proof. intros Hf. by apply (yields_bind (λ _, True)). Qed.
Lemma wp_value {A} (P : A → Prop) (m : stateM S A) s :
  yields P m → wp m (λ r _, ∀ a, r = Ok a → P a) s.
Proof. intros Hy. unfold wp. destruct (m s) as [r s'] eqn:E. cbn. intros a ->. by eapply Hy. Qed.
Lemma wp_yields {A} (R : S → S → Prop) (P : A → Prop) (m : stateM S A) s :
  keeps R m → yields P m → wp m (λ r s', R s s' ∧ ∀ a, r = Ok a → P a) s.
Proof.
  intros Hk Hy. split; [apply Hk|]. destruct (m s) as [r s'] eqn:E. cbn. intros a ->. by eapply Hy.
Qed.
End values.

(** A transitive relation along the states of a proof. *)
Ltac chain := solve [repeat first [reflexivity | eassumption | etrans; [|eassumption]]].
