(* ===== verification/PyDecimal.v ===== *)
(** * Python's [decimal.Decimal], as far as run accounting uses it

    A finite [Decimal] is [coef * 10 ^ expo]. The arithmetic below is the one of
    the default context: the exact result rounded half-even to [prec] digits
    ([prec = 28] unless a component sets its own). Comparison is exact and by
    value, so [Decimal("1.0") == Decimal("1")]. The sign of zero, the infinities
    and NaN are left out: no modelled comparison or sum can tell them apart from
    the values here (Python traps the operations that would create them). *)
From S2P Require Import Prelude.

Record decimal := Dec { coef : Z; expo : Z }.
#[export] Instance decimal_eta : Eta decimal := λ d, Dec (coef d) (expo d).
#[export] Instance decimal_eq_dec : EqDecision decimal.
Proof. solve_decision. Defined.

Definition default_prec : Z := 28.

Definition dec_of_Z (n : Z) : decimal := Dec n 0.

(** The integer [d] is at the (lower) exponent [e]. *)
Definition scale (e : Z) (d : decimal) : Z := coef d * 10 ^ (expo d - e).

Definition common (a b : decimal) : Z := Z.min (expo a) (expo b).

Definition dec_leb (a b : decimal) : bool := scale (common a b) a <=? scale (common a b) b.
Definition dec_ltb (a b : decimal) : bool := scale (common a b) a <? scale (common a b) b.
Definition dec_eqb (a b : decimal) : bool := scale (common a b) a =? scale (common a b) b.

(** [len(str(n))] of a nonnegative coefficient. *)
Fixpoint ndigits_fuel (fuel : nat) (n : Z) : Z :=
  match fuel with
  | O => 1
  | S f => if n <? 10 then 1 else 1 + ndigits_fuel f (n / 10)
  end.
Definition ndigits (n : Z) : Z := ndigits_fuel (Z.to_nat (Z.log2 n)) n.

(** Keep [prec] significant digits, ROUND_HALF_EVEN ([Decimal._fix]). *)
Definition dec_fix (prec : Z) (d : decimal) : decimal :=
  let n := Z.abs (coef d) in
  let k := ndigits n - prec in
  if k <=? 0 then d
  else
    let q := n / 10 ^ k in
    let r := n mod 10 ^ k in
    let q' := if (10 ^ k <? 2 * r) || ((2 * r =? 10 ^ k) && Z.odd q) then q + 1 else q in
    Dec (Z.sgn (coef d) * q') (expo d + k).

Definition dec_add_exact (a b : decimal) : decimal :=
  Dec (scale (common a b) a + scale (common a b) b) (common a b).
Definition dec_neg (a : decimal) : decimal := Dec (- coef a) (expo a).

Definition dec_add (prec : Z) (a b : decimal) : decimal := dec_fix prec (dec_add_exact a b).
Definition dec_sub (prec : Z) (a b : decimal) : decimal := dec_add prec a (dec_neg b).
Definition dec_mul (prec : Z) (a b : decimal) : decimal :=
  dec_fix prec (Dec (coef a * coef b) (expo a + expo b)).
(** [d / Decimal(1_000_000)]: the exact quotient, rounded. *)
Definition dec_div_million (prec : Z) (a : decimal) : decimal :=
  dec_fix prec (Dec (coef a) (expo a - 6)).

(** At most [prec] significant digits: what every result of the context has. *)
Definition representable (prec : Z) (d : decimal) : Prop := Z.abs (coef d) < 10 ^ prec.

(** ** Order by value *)
Definition dec_le (a b : decimal) : Prop := scale (common a b) a ≤ scale (common a b) b.

Lemma scale_shift e e' d : e' ≤ e ≤ expo d → scale e' d = scale e d * 10 ^ (e - e').
Proof.
  intros H. unfold scale. rewrite <- Z.mul_assoc, <- Z.pow_add_r by lia.
  do 2 f_equal. lia.
Qed.

Lemma pow10_pos k : 0 ≤ k → 0 < 10 ^ k.
Proof. intros. apply Z.pow_pos_nonneg; lia. Qed.

Lemma dec_le_at e a b : e ≤ expo a → e ≤ expo b → dec_le a b ↔ scale e a ≤ scale e b.
Proof.
  intros Ha Hb. unfold dec_le, common.
  rewrite (scale_shift (Z.min (expo a) (expo b)) e a) by lia.
  rewrite (scale_shift (Z.min (expo a) (expo b)) e b) by lia.
  pose proof (pow10_pos (Z.min (expo a) (expo b) - e) ltac:(lia)). nia.
Qed.

Lemma dec_leb_le a b : dec_leb a b = true ↔ dec_le a b.
Proof. unfold dec_leb, dec_le. lia. Qed.
Lemma dec_ltb_nle a b : dec_ltb a b = true ↔ ¬ dec_le b a.
Proof.
  rewrite (dec_le_at (common a b) b a) by (unfold common; lia).
  unfold dec_ltb. lia.
Qed.
Lemma dec_leb_ltb a b : dec_leb a b = negb (dec_ltb b a).
Proof.
  unfold dec_leb, dec_ltb, common. rewrite (Z.min_comm (expo b)).
  apply eq_bool_prop_intro. rewrite negb_True, !Is_true_true. lia.
Qed.

#[export] Instance dec_le_refl : Reflexive dec_le.
Proof. intros a. unfold dec_le. lia. Qed.
#[export] Instance dec_le_trans : Transitive dec_le.
Proof.
  intros a b c. set (e := Z.min (expo a) (Z.min (expo b) (expo c))).
  rewrite !(dec_le_at e) by lia. lia.
Qed.
#[export] Instance dec_le_preorder : PreOrder dec_le.
Proof. split; apply _. Qed.

Lemma dec_le_total a b : dec_le a b ∨ dec_le b a.
Proof. rewrite !(dec_le_at (common a b)) by (unfold common; lia). lia. Qed.

(** ** Rounding *)
Lemma ndigits_fuel_spec f n :
  0 < n < 10 * 2 ^ (Z.of_nat f) →
  10 ^ (ndigits_fuel f n - 1) ≤ n < 10 ^ ndigits_fuel f n ∧ 1 ≤ ndigits_fuel f n.
Proof.
  revert n. induction f as [|f IH]; intros n Hn; cbn [ndigits_fuel].
  { cbn in *. lia. }
  rewrite Nat2Z.inj_succ, Z.pow_succ_r in Hn by lia.
  destruct (Z.ltb_spec n 10) as [Hlt|Hge].
  { cbn. lia. }
  assert (Hq : 0 < n / 10 < 10 * 2 ^ Z.of_nat f).
  { split; [apply Z.div_str_pos; lia|]. apply Z.div_lt_upper_bound; lia. }
  destruct (IH _ Hq) as [[Hlo Hhi] Hone]. set (m := ndigits_fuel f (n / 10)) in *.
  split; [|lia]. replace (1 + m - 1) with m by lia.
  replace (1 + m) with (Z.succ m) by lia. rewrite Z.pow_succ_r by lia.
  assert (10 * 10 ^ (m - 1) = 10 ^ m) as Hm.
  { rewrite <- Z.pow_succ_r by lia. f_equal. lia. }
  pose proof (Z.div_mod n 10 ltac:(lia)). pose proof (Z.mod_pos_bound n 10 ltac:(lia)).
  lia.
Qed.

Lemma ndigits_spec n : 0 < n → 10 ^ (ndigits n - 1) ≤ n < 10 ^ ndigits n ∧ 1 ≤ ndigits n.
Proof.
  intros Hn. apply ndigits_fuel_spec. split; [lia|].
  pose proof (Z.log2_spec n Hn) as [_ Hl]. pose proof (Z.log2_nonneg n).
  rewrite Z2Nat.id by lia. rewrite Z.pow_succ_r in Hl by lia. lia.
Qed.

Lemma dec_fix_representable prec d : 0 < prec → representable prec d → dec_fix prec d = d.
Proof.
  intros Hp Hr. unfold dec_fix. destruct (decide (coef d = 0)) as [Hz|Hz].
  { rewrite Hz. change (ndigits (Z.abs 0)) with 1.
    rewrite (proj2 (Z.leb_le _ _)); [done|lia]. }
  pose proof (ndigits_spec (Z.abs (coef d)) ltac:(lia)) as [[Hlo _] _].
  rewrite (proj2 (Z.leb_le _ _)); [done|]. unfold representable in Hr.
  destruct (Z.le_gt_cases (ndigits (Z.abs (coef d))) prec) as [|Hgt]; [lia|].
  pose proof (Z.pow_le_mono_r 10 prec (ndigits (Z.abs (coef d)) - 1) ltac:(lia) ltac:(lia)). lia.
Qed.

(** A representable lower bound survives rounding: on the rounded grid nothing
    lies strictly between the truncated value and the exact one. *)
Lemma grid_floor prec k n c j :
  0 < prec → 0 < k → 10 ^ (prec - 1 + k) ≤ n → 0 ≤ c < 10 ^ prec → 0 ≤ j →
  c * 10 ^ j ≤ n → c * 10 ^ j ≤ n / 10 ^ k * 10 ^ k.
Proof.
  intros Hp Hk Hn Hc Hj Hle.
  pose proof (pow10_pos k ltac:(lia)) as Hpk. pose proof (pow10_pos j Hj) as Hpj.
  destruct (Z.le_gt_cases k j) as [Hkj|Hjk].
  - assert (10 ^ j = 10 ^ (j - k) * 10 ^ k) as Hsplit.
    { rewrite <- Z.pow_add_r by lia. f_equal. lia. }
    rewrite Hsplit, Z.mul_assoc. apply Z.mul_le_mono_nonneg_r; [lia|].
    apply Z.div_le_lower_bound; [lia|]. rewrite Hsplit in Hle. lia.
  - assert (10 ^ prec * 10 ^ j ≤ 10 ^ (prec - 1 + k)) as Hsmall.
    { rewrite <- Z.pow_add_r by lia. apply Z.pow_le_mono_r; lia. }
    assert (10 ^ (prec - 1) ≤ n / 10 ^ k) as Hq.
    { apply Z.div_le_lower_bound; [lia|]. rewrite <- Z.pow_add_r by lia.
      replace (k + (prec - 1)) with (prec - 1 + k) by lia. done. }
    rewrite Z.pow_add_r in Hsmall by lia. nia.
Qed.

Lemma dec_fix_lower prec a d :
  0 < prec → representable prec a → 0 ≤ coef a → dec_le a d → dec_le a (dec_fix prec d).
Proof.
  intros Hp Hr Ha Hle. unfold dec_fix.
  destruct (Z.leb_spec (ndigits (Z.abs (coef d)) - prec) 0) as [_|Hk]; [done|].
  set (k := ndigits (Z.abs (coef d)) - prec) in *.
  assert (Hd0 : 0 ≤ coef d).
  { unfold dec_le, scale, common in Hle.
    pose proof (pow10_pos (expo a - Z.min (expo a) (expo d)) ltac:(lia)).
    pose proof (pow10_pos (expo d - Z.min (expo a) (expo d)) ltac:(lia)). nia. }
  assert (Hdpos : 0 < coef d).
  { destruct (decide (coef d = 0)) as [Hz|]; [|lia].
    subst k. rewrite Hz in Hk. change (ndigits (Z.abs 0)) with 1 in Hk. lia. }
  assert (Hkk : k = ndigits (coef d) - prec) by (subst k; by rewrite Z.abs_eq by lia).
  clearbody k. rewrite Z.sgn_pos, Z.mul_1_l, Z.abs_eq by lia.
  pose proof (ndigits_spec (coef d) Hdpos) as [[Hlo _] _].
  replace (ndigits (coef d) - 1) with (prec - 1 + k) in Hlo by lia.
  pose proof (pow10_pos k ltac:(lia)) as Hpk.
  set (q := coef d / 10 ^ k). set (q' := if (10 ^ k <? _) || _ then q + 1 else q).
  assert (Hqq : q ≤ q') by (subst q'; case_match; lia).
  set (e := common a d).
  rewrite (dec_le_at e) in Hle |- * by (subst e; unfold common; cbn; lia).
  assert (Hs : scale e (Dec q' (expo d + k)) = q' * 10 ^ k * 10 ^ (expo d - e)).
  { unfold scale. cbn. rewrite <- Z.mul_assoc, <- Z.pow_add_r by (subst e; unfold common; lia).
    do 2 f_equal. lia. }
  rewrite Hs.
  assert (Hje : 0 ≤ expo a - e) by (subst e; unfold common; lia).
  assert (Hde : 0 ≤ expo d - e) by (subst e; unfold common; lia).
  assert (Hfl : scale e a ≤ q * 10 ^ k * 10 ^ (expo d - e)).
  { unfold scale in Hle |- *. destruct (decide (expo a ≤ expo d)) as [Hmin|Hmin].
    - assert (e = expo a) as He by (subst e; unfold common; lia).
      rewrite He, Z.sub_diag, Z.pow_0_r, Z.mul_1_r in *.
      assert (Hbig : 10 ^ prec ≤ q * 10 ^ k).
      { pose proof (grid_floor prec k (coef d) 1 (prec - 1 + k)) as Hg.
        rewrite !Z.mul_1_l in Hg.
        pose proof (proj1 (Z.pow_gt_1 10 prec ltac:(lia)) Hp).
        etransitivity; [|apply Hg; lia]. apply Z.pow_le_mono_r; lia. }
      pose proof (pow10_pos (expo d - expo a) ltac:(lia)). unfold representable in Hr. nia.
    - assert (e = expo d) as He by (subst e; unfold common; lia).
      rewrite He, Z.sub_diag, Z.pow_0_r, !Z.mul_1_r in *.
      unfold representable in Hr. apply (grid_floor prec); lia. }
  pose proof (pow10_pos (expo d - e) Hde). etransitivity; [exact Hfl|].
  repeat (apply Z.mul_le_mono_nonneg_r; [lia|]). done.
Qed.

(** Adding a nonnegative amount never lowers a representable total, in spite of
    the rounding to [prec] digits. *)
Lemma dec_add_nonneg prec a b :
  0 < prec → representable prec a → 0 ≤ coef a → 0 ≤ coef b → dec_le a (dec_add prec a b).
Proof.
  intros Hp Hr Ha Hb. apply dec_fix_lower; try done.
  rewrite (dec_le_at (common a b))
    by (unfold dec_add_exact; cbn [expo]; unfold common; lia).
  unfold scale at 2. cbn [coef expo dec_add_exact]. rewrite Z.sub_diag, Z.pow_0_r, Z.mul_1_r.
  unfold scale at 3, common.
  pose proof (pow10_pos (expo b - Z.min (expo a) (expo b)) ltac:(lia)). nia.
Qed.

Lemma dec_fix_nonneg prec d : 0 ≤ coef d → 0 ≤ coef (dec_fix prec d).
Proof.
  intros Hd. unfold dec_fix.
  destruct (Z.leb_spec (ndigits (Z.abs (coef d)) - prec) 0) as [_|Hk]; [done|]. cbn.
  pose proof (pow10_pos (ndigits (Z.abs (coef d)) - prec) ltac:(lia)).
  assert (0 ≤ Z.abs (coef d) / 10 ^ (ndigits (Z.abs (coef d)) - prec))
    by (apply Z.div_pos; lia).
  case_match; nia.
Qed.

Lemma dec_add_coef_nonneg prec a b : 0 ≤ coef a → 0 ≤ coef b → 0 ≤ coef (dec_add prec a b).
Proof.
  intros Ha Hb. apply dec_fix_nonneg. cbn. unfold scale.
  pose proof (pow10_pos (expo a - common a b) ltac:(unfold common; lia)).
  pose proof (pow10_pos (expo b - common a b) ltac:(unfold common; lia)). nia.
Qed.

#[export] Hint Resolve dec_add_coef_nonneg dec_add_nonneg : veetbot.
