(* ===== verification/EventModel.v ===== *)
(** * Events ([domain/events.py]) and their redaction ([people_erasure.py: redact]) *)
From S2P Require Import Prelude.

Record NewEvent := {
  ev_session_id : UUID;
  ev_run_id : option UUID;
  ev_event_type : string;
  ev_payload_schema_version : Z;
  ev_actor_type : string;
  ev_actor_id : option string;
  ev_payload : dict;
  ev_trace_id : option string;
  ev_derivation_key : option string;
}.

(** [EventEnvelope]: the event as appended, with its id, sequence and time. *)
Record EventEnvelope := {
  env_id : Z;
  env_sequence : Z;
  env_event : NewEvent;
  env_created_at : datetime;
}.

Definition SCHEDULE_INSTRUCTION_EVENT_TYPE : string := "user.message.created".
Definition SCHEDULE_INSTRUCTION_ACTOR_TYPE : string := "scheduler".
Definition CONVERSATION_MESSAGE_EVENTS : list string :=
  ["user.message.created"; "assistant.message.completed"].
Definition TOOL_RESULT_EVENTS : list string :=
  ["tool.call.completed"; "tool.call.failed"; "tool.call.denied"; "tool.call.uncertain"].

Definition advances_session_activity (e : NewEvent) : bool :=
  negb (bool_decide (ev_event_type e ∈ ["memory.decayed"; "memory.retired"]) &&
        String.eqb (ev_actor_type e) "memory" && bool_decide (ev_run_id e = None)).

Definition is_schedule_instruction_event (e : EventEnvelope) : bool :=
  String.eqb (ev_event_type (env_event e)) SCHEDULE_INSTRUCTION_EVENT_TYPE &&
  String.eqb (ev_actor_type (env_event e)) SCHEDULE_INSTRUCTION_ACTOR_TYPE.

(** ** Redaction *)
Definition MARKER : string := "[People memory erased]".
Definition ORIGINAL_EVENTS : list string := ["user.message.created"; "people.owner_assertion"].
Definition ARGUMENT_KEYS : list string :=
  ["arguments"; "normalized_arguments"; "modified_arguments"; "structured"; "structured_result";
   "data"; "working_state"; "details"].
Definition TEXT_KEYS : list string :=
  ["content"; "text"; "statement"; "subject"; "display_name"; "narrative"; "final_message";
   "summary"; "compacted_summary"; "memory_snapshot"; "reason"; "explanation"; "message"; "error";
   "rendered"].
Definition marker_part : json := JObj [("type", JStr "text"); ("text", JStr MARKER)].

Fixpoint redact (v : json) : json :=
  match v with
  | JArr l => JArr (List.map redact l)
  | JObj o => JObj (List.map (λ kv,
      let key := kv.1 in
      (key,
       if String.eqb key "raw_arguments" then JStr "{}"
       else if bool_decide (key ∈ ARGUMENT_KEYS) then
         match kv.2 with JNull => JNull | _ => JObj [] end
       else if bool_decide (key ∈ TEXT_KEYS) then
         match kv.2 with
         | JArr _ => JArr [marker_part]
         | JObj _ => redact kv.2
         | JNull => JNull
         | _ => JStr MARKER
         end
       else redact kv.2)) o)
  | _ => v
  end.
Definition redact_payload (p : dict) : dict :=
  match redact (JObj p) with JObj o => o | _ => [] end.
