(* ===== verification/RunModel.v ===== *)
(** * Runs: the data of [domain/runs.py] and the edges of [runtime/state_machine.py]

    [RunStatus], [RunLimits], [RunUsage], [Run] and the failure and outcome
    types, with the validators pydantic runs on construction, the seven-state
    transition table, and the theory of the status graph: what a run can still
    become, and that the three terminal states are final. *)
From S2P Require Import Prelude PyDecimal.

Inductive RunStatus :=
| QUEUED | RUNNING | WAITING_FOR_APPROVAL | WAITING_FOR_USER
| COMPLETED | FAILED | CANCELLED.
#[export] Instance RunStatus_eq_dec : EqDecision RunStatus.
Proof. solve_decision. Defined.

Definition RunStatus_value (s : RunStatus) : string :=
  match s with
  | QUEUED => "QUEUED"
  | RUNNING => "RUNNING"
  | WAITING_FOR_APPROVAL => "WAITING_FOR_APPROVAL"
  | WAITING_FOR_USER => "WAITING_FOR_USER"
  | COMPLETED => "COMPLETED"
  | FAILED => "FAILED"
  | CANCELLED => "CANCELLED"
  end.

Inductive RunKind := INTERACTIVE | JOB | SKILL_REVIEW | DELEGATED.
#[export] Instance RunKind_eq_dec : EqDecision RunKind.
Proof. solve_decision. Defined.

Inductive CancelReason := REQUESTED | DEADLINE | FENCED.
#[export] Instance CancelReason_eq_dec : EqDecision CancelReason.
Proof. solve_decision. Defined.

Inductive BudgetScope := ADMISSION | STEP | ATTEMPT | TOOL_CALL.
#[export] Instance BudgetScope_eq_dec : EqDecision BudgetScope.
Proof. solve_decision. Defined.

Definition TERMINAL_RUN_STATUSES : list RunStatus := [COMPLETED; FAILED; CANCELLED].
Definition is_terminal (s : RunStatus) : bool := bool_decide (s ∈ TERMINAL_RUN_STATUSES).

Record RunLimits := {
  max_steps : Z;
  max_model_calls : Z;
  max_tool_calls : Z;
  max_input_tokens : option Z;
  max_output_tokens : option Z;
  max_cost : option decimal;
  deadline_at : option datetime;
  synthesis_reserve_steps : Z;
  synthesis_reserve_model_calls : Z;
  synthesis_reserve_tool_calls : Z;
  synthesis_reserve_cost : decimal;
  execution_seconds : option Z;
}.
#[export] Instance RunLimits_eta : Eta RunLimits := λ l,
  {| max_steps := max_steps l; max_model_calls := max_model_calls l;
     max_tool_calls := max_tool_calls l; max_input_tokens := max_input_tokens l;
     max_output_tokens := max_output_tokens l; max_cost := max_cost l;
     deadline_at := deadline_at l; synthesis_reserve_steps := synthesis_reserve_steps l;
     synthesis_reserve_model_calls := synthesis_reserve_model_calls l;
     synthesis_reserve_tool_calls := synthesis_reserve_tool_calls l;
     synthesis_reserve_cost := synthesis_reserve_cost l;
     execution_seconds := execution_seconds l |}.

(** [RunLimits()] with the defaults of the class. *)
Definition RunLimits_default : RunLimits :=
  {| max_steps := 12; max_model_calls := 12; max_tool_calls := 24;
     max_input_tokens := None; max_output_tokens := None; max_cost := None;
     deadline_at := None; synthesis_reserve_steps := 0;
     synthesis_reserve_model_calls := 0; synthesis_reserve_tool_calls := 0;
     synthesis_reserve_cost := Dec 0 0; execution_seconds := None |}.

(** The field constraints ([ge=0]; [gt=0, le=86_400]). *)
Definition RunLimits_fields (l : RunLimits) : bool :=
  (0 <=? synthesis_reserve_steps l) && (0 <=? synthesis_reserve_model_calls l) &&
  (0 <=? synthesis_reserve_tool_calls l) && dec_leb (Dec 0 0) (synthesis_reserve_cost l) &&
  match execution_seconds l with
  | None => true
  | Some n => (0 <? n) && (n <=? 86400)
  end.

(** [RunLimits.synthesis_reserve_fits] *)
Definition synthesis_reserve_fits (l : RunLimits) : result RunLimits :=
  raise_if (0 <? synthesis_reserve_steps l) && (max_steps l <=? synthesis_reserve_steps l)
    with ValueError "the synthesis step reserve must be below max_steps";
  raise_if (0 <? synthesis_reserve_model_calls l) &&
           (max_model_calls l <=? synthesis_reserve_model_calls l)
    with ValueError "the synthesis model-call reserve must be below max_model_calls";
  raise_if (0 <? synthesis_reserve_tool_calls l) &&
           (max_tool_calls l <=? synthesis_reserve_tool_calls l)
    with ValueError "the synthesis tool-call reserve must be below max_tool_calls";
  match max_cost l with
  | None =>
      raise_if negb (dec_eqb (synthesis_reserve_cost l) (Dec 0 0))
        with ValueError "a synthesis cost reserve requires max_cost";
      Ok l
  | Some c =>
      raise_if dec_ltb (Dec 0 0) (synthesis_reserve_cost l) &&
               dec_leb c (synthesis_reserve_cost l)
        with ValueError "the synthesis cost reserve must be below max_cost";
      Ok l
  end.

(** [RunLimits(...)]: the field constraints, then the model validator. *)
Definition RunLimits_validate (l : RunLimits) : result RunLimits :=
  raise_if negb (RunLimits_fields l) with ValueError "RunLimits field constraint";
  synthesis_reserve_fits l.

Record RunUsage := {
  input_tokens : Z;
  cached_input_tokens : Z;
  cache_write_input_tokens : Z;
  output_tokens : Z;
  reasoning_tokens : option Z;
  model_calls : Z;
  tool_calls : Z;
  cost : decimal;
}.
#[export] Instance RunUsage_eta : Eta RunUsage := λ u,
  {| input_tokens := input_tokens u; cached_input_tokens := cached_input_tokens u;
     cache_write_input_tokens := cache_write_input_tokens u;
     output_tokens := output_tokens u; reasoning_tokens := reasoning_tokens u;
     model_calls := model_calls u; tool_calls := tool_calls u; cost := cost u |}.
Definition RunUsage_default : RunUsage :=
  {| input_tokens := 0; cached_input_tokens := 0; cache_write_input_tokens := 0;
     output_tokens := 0; reasoning_tokens := None; model_calls := 0; tool_calls := 0;
     cost := Dec 0 0 |}.

Inductive FailureReason :=
| MAX_ATTEMPTS_EXCEEDED | BUDGET_EXCEEDED | DEADLINE_EXCEEDED | MAX_STEPS_EXCEEDED
| TOOL_LOOP_DETECTED | REPEATED_DENIAL | APPROVAL_EXPIRED | INPUT_DEADLINE_EXCEEDED
| CONTEXT_OVERFLOW | MODEL_PERMANENT_ERROR | EMPTY_MODEL_TURN | AUTHORIZATION_ERROR
| CHILD_RUN_FAILED | INTERNAL_ERROR | DEPENDENCY_UNAVAILABLE.
#[export] Instance FailureReason_eq_dec : EqDecision FailureReason.
Proof. solve_decision. Defined.

Definition FailureReason_value (r : FailureReason) : string :=
  match r with
  | MAX_ATTEMPTS_EXCEEDED => "max_attempts_exceeded"
  | BUDGET_EXCEEDED => "budget_exceeded"
  | DEADLINE_EXCEEDED => "deadline_exceeded"
  | MAX_STEPS_EXCEEDED => "max_steps_exceeded"
  | TOOL_LOOP_DETECTED => "tool_loop_detected"
  | REPEATED_DENIAL => "repeated_denial"
  | APPROVAL_EXPIRED => "approval_expired"
  | INPUT_DEADLINE_EXCEEDED => "input_deadline_exceeded"
  | CONTEXT_OVERFLOW => "context_overflow"
  | MODEL_PERMANENT_ERROR => "model_permanent_error"
  | EMPTY_MODEL_TURN => "empty_model_turn"
  | AUTHORIZATION_ERROR => "authorization_error"
  | CHILD_RUN_FAILED => "child_run_failed"
  | INTERNAL_ERROR => "internal_error"
  | DEPENDENCY_UNAVAILABLE => "dependency_unavailable"
  end.

(** [details: dict[str, Any]]: every writer of the runtime stores strings and integers. *)
Inductive detail := DStr (s : string) | DInt (z : Z).
#[export] Instance detail_eq_dec : EqDecision detail.
Proof. solve_decision. Defined.

Record RunFailure := {
  reason : FailureReason;
  error_class : string;
  message : string;
  step_number : option Z;
  attempt_number : option Z;
  occurred_at : datetime;
  details : gmap string detail;
}.
#[export] Instance RunFailure_eq_dec : EqDecision RunFailure.
Proof. solve_decision. Defined.

Record ProviderPin := {
  pin_run_id : UUID; pin_provider : string; pin_model : string;
  pin_registry_version : string; pinned_at : datetime;
}.
#[export] Instance ProviderPin_eq_dec : EqDecision ProviderPin.
Proof. solve_decision. Defined.

Record Run := {
  id : UUID;
  session_id : UUID;
  parent_run_id : option UUID;
  kind : RunKind;
  tenant_id : string;
  principal_scopes : gset string;
  agent_id : UUID;
  agent_version : string;
  status : RunStatus;
  step_count : Z;
  model_call_count : Z;
  tool_call_count : Z;
  limits : RunLimits;
  usage : RunUsage;
  lease_owner : option string;
  lease_expires_at : option datetime;
  lease_epoch : Z;
  attempts : Z;
  lease_expirations : Z;
  priority : Z;
  scheduled_for : option datetime;
  run_deadline_at : option datetime;
  cancel_requested_at : option datetime;
  failure : option RunFailure;
  final_message : option string;
  export_consent : bool;
  provider_pin : option ProviderPin;
  seed_event_sequence : Z;
  created_at : datetime;
  updated_at : datetime;
}.
#[export] Instance Run_eta : Eta Run := λ r,
  {| id := id r; session_id := session_id r; parent_run_id := parent_run_id r;
     kind := kind r; tenant_id := tenant_id r; principal_scopes := principal_scopes r;
     agent_id := agent_id r; agent_version := agent_version r; status := status r;
     step_count := step_count r; model_call_count := model_call_count r;
     tool_call_count := tool_call_count r; limits := limits r; usage := usage r;
     lease_owner := lease_owner r; lease_expires_at := lease_expires_at r;
     lease_epoch := lease_epoch r; attempts := attempts r;
     lease_expirations := lease_expirations r; priority := priority r;
     scheduled_for := scheduled_for r; run_deadline_at := run_deadline_at r;
     cancel_requested_at := cancel_requested_at r; failure := failure r;
     final_message := final_message r; export_consent := export_consent r;
     provider_pin := provider_pin r; seed_event_sequence := seed_event_sequence r;
     created_at := created_at r; updated_at := updated_at r |}.

(** [Run.deadline_matches_limits] *)
Definition deadline_matches_limits (r : Run) : result Run :=
  raise_if negb (bool_decide (run_deadline_at r = deadline_at (limits r)))
    with ValueError "run.deadline_at must equal run.limits.deadline_at";
  Ok r.

(** Equality of the models ([==]): field by field, amounts by value. *)
Definition opt_dec_eqb (a b : option decimal) : bool :=
  match a, b with
  | None, None => true
  | Some x, Some y => dec_eqb x y
  | _, _ => false
  end.

Definition RunLimits_eqb (a b : RunLimits) : bool :=
  (max_steps a =? max_steps b) && (max_model_calls a =? max_model_calls b) &&
  (max_tool_calls a =? max_tool_calls b) &&
  bool_decide (max_input_tokens a = max_input_tokens b) &&
  bool_decide (max_output_tokens a = max_output_tokens b) &&
  opt_dec_eqb (max_cost a) (max_cost b) &&
  bool_decide (deadline_at a = deadline_at b) &&
  (synthesis_reserve_steps a =? synthesis_reserve_steps b) &&
  (synthesis_reserve_model_calls a =? synthesis_reserve_model_calls b) &&
  (synthesis_reserve_tool_calls a =? synthesis_reserve_tool_calls b) &&
  dec_eqb (synthesis_reserve_cost a) (synthesis_reserve_cost b) &&
  bool_decide (execution_seconds a = execution_seconds b).

Definition RunUsage_eqb (a b : RunUsage) : bool :=
  (input_tokens a =? input_tokens b) && (cached_input_tokens a =? cached_input_tokens b) &&
  (cache_write_input_tokens a =? cache_write_input_tokens b) &&
  (output_tokens a =? output_tokens b) &&
  bool_decide (reasoning_tokens a = reasoning_tokens b) &&
  (model_calls a =? model_calls b) && (tool_calls a =? tool_calls b) &&
  dec_eqb (cost a) (cost b).

Definition Run_eqb (a b : Run) : bool :=
  bool_decide (id a = id b) && bool_decide (session_id a = session_id b) &&
  bool_decide (parent_run_id a = parent_run_id b) && bool_decide (kind a = kind b) &&
  bool_decide (tenant_id a = tenant_id b) &&
  bool_decide (principal_scopes a = principal_scopes b) &&
  bool_decide (agent_id a = agent_id b) && bool_decide (agent_version a = agent_version b) &&
  bool_decide (status a = status b) && (step_count a =? step_count b) &&
  (model_call_count a =? model_call_count b) && (tool_call_count a =? tool_call_count b) &&
  RunLimits_eqb (limits a) (limits b) && RunUsage_eqb (usage a) (usage b) &&
  bool_decide (lease_owner a = lease_owner b) &&
  bool_decide (lease_expires_at a = lease_expires_at b) &&
  (lease_epoch a =? lease_epoch b) && (attempts a =? attempts b) &&
  (lease_expirations a =? lease_expirations b) && (priority a =? priority b) &&
  bool_decide (scheduled_for a = scheduled_for b) &&
  bool_decide (run_deadline_at a = run_deadline_at b) &&
  bool_decide (cancel_requested_at a = cancel_requested_at b) &&
  bool_decide (failure a = failure b) && bool_decide (final_message a = final_message b) &&
  Bool.eqb (export_consent a) (export_consent b) &&
  bool_decide (provider_pin a = provider_pin b) &&
  (seed_event_sequence a =? seed_event_sequence b) &&
  (created_at a =? created_at b) && (updated_at a =? updated_at b).

Inductive OutcomeKind :=
| OUTCOME_COMPLETED | OUTCOME_FAILED | OUTCOME_CANCELLED | OUTCOME_SUSPENDED | OUTCOME_FENCED.
#[export] Instance OutcomeKind_eq_dec : EqDecision OutcomeKind.
Proof. solve_decision. Defined.

(** ** [runtime/state_machine.py] *)
Definition ALLOWED_TRANSITIONS (s : RunStatus) : list RunStatus :=
  match s with
  | QUEUED => [RUNNING; CANCELLED; FAILED]
  | RUNNING =>
      [WAITING_FOR_APPROVAL; WAITING_FOR_USER; QUEUED; COMPLETED; FAILED; CANCELLED]
  | WAITING_FOR_APPROVAL => [QUEUED; CANCELLED; FAILED]
  | WAITING_FOR_USER => [QUEUED; CANCELLED; FAILED]
  | COMPLETED => []
  | FAILED => []
  | CANCELLED => []
  end.

Definition require_transition (current requested : RunStatus) : result unit :=
  raise_if bool_decide (requested ∉ ALLOWED_TRANSITIONS current)
    with ConflictError ("invalid run transition " +:+ RunStatus_value current +:+
                        "->" +:+ RunStatus_value requested);
  Ok tt.

(** ** The status graph *)
Definition edge (a b : RunStatus) : Prop := b ∈ ALLOWED_TRANSITIONS a.

Lemma is_terminal_iff s : is_terminal s = true ↔ s = COMPLETED ∨ s = FAILED ∨ s = CANCELLED.
Proof.
  unfold is_terminal, TERMINAL_RUN_STATUSES. rewrite bool_decide_eq_true. set_solver.
Qed.

Lemma require_transition_ok a b : require_transition a b = Ok tt ↔ edge a b.
Proof. unfold require_transition, edge. split_cases; naive_solver. Qed.

Lemma edge_from_live a b : edge a b → is_terminal a = false.
Proof. destruct a; cbn; intros H; (reflexivity || (unfold edge in H; set_solver)). Qed.

Lemma edge_from_terminal a b : is_terminal a = true → ¬ edge a b.
Proof. intros H He%edge_from_live. congruence. Qed.

Lemma reach_from_terminal a b : is_terminal a = true → rtc edge a b → b = a.
Proof. intros Ht [->|(y & He & _)]%rtc_inv; [done|]. by apply edge_from_terminal in He. Qed.

Lemma live_can_fail_or_cancel s : is_terminal s = false → edge s FAILED ∧ edge s CANCELLED.
Proof. destruct s; try done; intros _; unfold edge; cbn; set_solver. Qed.

Lemma completed_only_from_running a : edge a COMPLETED → a = RUNNING.
Proof. unfold edge. destruct a; cbn; set_solver. Qed.

Lemma running_only_from_queued a : edge a RUNNING → a = QUEUED.
Proof. unfold edge. destruct a; cbn; set_solver. Qed.

#[export] Hint Resolve edge_from_live : veetbot.

(** A plain run, for the witnesses. *)
Definition sample_run (i sid : UUID) (st : RunStatus) : Run :=
  {| id := i; session_id := sid; parent_run_id := None; kind := INTERACTIVE; tenant_id := "t1";
     principal_scopes := ∅; agent_id := 7%N; agent_version := "1"; status := st;
     step_count := 0; model_call_count := 0; tool_call_count := 0;
     limits := RunLimits_default; usage := RunUsage_default; lease_owner := None;
     lease_expires_at := None; lease_epoch := 0; attempts := 0; lease_expirations := 0;
     priority := 0; scheduled_for := None; run_deadline_at := None; cancel_requested_at := None;
     failure := None; final_message := None; export_consent := false; provider_pin := None;
     seed_event_sequence := 0; created_at := 5; updated_at := 5 |}.
