(* ===== verification/Sessions.v ===== *)
(** * Sessions: [domain/sessions.py] and [InMemorySessionRepository]

    A conversation session, its derived title, and the in-memory repository of
    [adapters/persistence/memory.py]. Every method runs under the repository's
    [asyncio.Lock], so an operation is one atomic step on the state [t]; the
    clock readings and request instants are arguments. [list] is called
    [list_sessions] here. *)
From S2P Require Import Prelude.

Module Principal.
Record t := {
  tenant_id : string;
  principal_id : string;
  roles : gset string;
  scopes : gset string;
}.
End Principal.
Abbreviation Principal := Principal.t (only parsing).

(** [domain/agents.py: owned_by], on the two ownership fields of a record. *)
Definition owned_by (record_tenant record_principal : string) (p : Principal) : bool :=
  bool_decide (record_tenant = Principal.tenant_id p) &&
  bool_decide (record_principal = Principal.principal_id p).

Inductive SessionStatus := ACTIVE | CLOSED.
#[export] Instance SessionStatus_eq_dec : EqDecision SessionStatus.
Proof. solve_decision. Defined.

Inductive SessionTitleSource := FIRST_MESSAGE | GENERATED | FIXED.
#[export] Instance SessionTitleSource_eq_dec : EqDecision SessionTitleSource.
Proof. solve_decision. Defined.

Definition REGENERABLE_TITLE_SOURCES : list SessionTitleSource := [FIRST_MESSAGE; GENERATED].

Module Session.
Record t := {
  id : UUID;
  tenant_id : string;
  principal_id : string;
  agent_id : UUID;
  agent_version : string;
  status : SessionStatus;
  title : option string;
  metadata : gmap string json;
  created_at : datetime;
  updated_at : datetime;
}.
#[global] Instance eta_t : Eta t := λ s,
  {| id := id s; tenant_id := tenant_id s; principal_id := principal_id s;
     agent_id := agent_id s; agent_version := agent_version s; status := status s;
     title := title s; metadata := metadata s; created_at := created_at s;
     updated_at := updated_at s |}.
(** The keyset order of the index: [(session.updated_at, session.id.int)]. *)
Definition key (s : t) : datetime * UUID := (updated_at s, id s).
End Session.

Record TitleRequest := {
  request_session_id : UUID;
  request_title_text : string;
  request_title_source : SessionTitleSource;
  requested_at : datetime;
}.
Definition TitleRequest_key (q : TitleRequest) : datetime * UUID :=
  (requested_at q, request_session_id q).

Definition SESSION_TITLE_MAX_LENGTH : nat := 64.
Definition SESSION_BROWSER_PROFILE_METADATA_KEY : string := "browser_profile_id".
Definition SESSION_COCKPIT_REFRESH_METADATA_KEY : string := "cockpit_refresh".
Definition SESSION_PROJECT_SCOPE_METADATA_KEY : string := "project_scope".
Definition SESSION_EMAIL_OPERATIONAL_METADATA_KEY : string := "email_operational".
Definition SESSION_EMAIL_THREAD_ID_METADATA_KEY : string := "email_thread_id".
Definition SESSION_PURPOSE_METADATA_KEY : string := "purpose".
Definition DEFAULT_PROJECT_SCOPE : string := "general".
Definition PEOPLE_OPERATIONAL_SESSION_PURPOSES : list string :=
  ["people-management"; "people-import"]%string.

(** [conversation_title] *)
Definition conversation_title (text : string) : option string :=
  let collapsed := String.concat " " (py_split text) in
  if bool_decide (collapsed = EmptyString) then None
  else Some (String.substring 0 SESSION_TITLE_MAX_LENGTH collapsed).

(** A word as [str.split] returns it: not empty, no white space. *)
Fixpoint nonspace (s : string) : bool :=
  match s with
  | EmptyString => true
  | String c s' => negb (py_isspace c) && nonspace s'
  end.

Lemma nonspace_app s c : nonspace s = true → py_isspace c = false →
  nonspace (s +:+ String c EmptyString) = true.
Proof.
  intros Hs Hc. induction s as [|a s IH]; simpl in *; [by rewrite Hc|].
  apply andb_true_iff in Hs as [-> Hs]. simpl. auto.
Qed.

Lemma flush_words cur :
  nonspace cur = true → Forall (λ w, w ≠ EmptyString ∧ nonspace w = true) (flush cur).
Proof. destruct cur; simpl; intros H; [constructor|]. by repeat constructor. Qed.

Lemma py_split_go_words s cur :
  nonspace cur = true → Forall (λ w, w ≠ EmptyString ∧ nonspace w = true) (py_split_go cur s).
Proof.
  revert cur. induction s as [|c s IH]; intros cur Hc; simpl; [by apply flush_words|].
  destruct (py_isspace c) eqn:E.
  - apply Forall_app. split; [by apply flush_words|]. by apply IH.
  - by apply IH, nonspace_app.
Qed.

Lemma concat_first ws :
  Forall (λ w, w ≠ EmptyString ∧ nonspace w = true) ws → String.concat " " ws ≠ EmptyString →
  ∃ c s, String.concat " " ws = String c s ∧ py_isspace c = false.
Proof.
  destruct ws as [|w ws]; [done|]. intros [[Hw Hn] _]%Forall_cons _.
  destruct w as [|c w]; [done|]. simpl in Hn. apply andb_true_iff in Hn as [Hn _].
  exists c. destruct ws; simpl; eexists; (split; [done|]); by apply negb_true_iff.
Qed.

Lemma length_substring_0 n s : (String.length (String.substring 0 n s) ≤ n)%nat.
Proof. revert s. induction n as [|n IH]; intros [|c s]; simpl; try lia. specialize (IH s). lia. Qed.

(** ** The repository *)
Module SessionRepo.
Record t := {
  _sessions : gmap UUID Session.t;
  _chat_sessions : gset UUID;
  _title_sources : gmap UUID SessionTitleSource;
  _title_requests : gmap UUID datetime;
}.
#[global] Instance eta_t : Eta t := λ r,
  {| _sessions := _sessions r; _chat_sessions := _chat_sessions r;
     _title_sources := _title_sources r; _title_requests := _title_requests r |}.

(** [InMemorySessionRepository.__init__] *)
Definition init : t :=
  {| _sessions := ∅; _chat_sessions := ∅; _title_sources := ∅; _title_requests := ∅ |}.

Definition create (session : Session.t) (r : t) : result unit * t :=
  if bool_decide (is_Some (_sessions r !! Session.id session))
  then (Raise (ConflictError "session already exists"), r)
  else
    let r' := r <| _sessions := <[Session.id session := session]> (_sessions r) |> in
    match Session.title session with
    | None => (Ok tt, r')
    | Some _ =>
        (Ok tt, r' <| _title_sources := <[Session.id session := FIXED]> (_title_sources r') |>)
    end.

Definition owns (p : Principal) (s : Session.t) : bool :=
  owned_by (Session.tenant_id s) (Session.principal_id s) p.

Definition _owned (r : t) (sid : UUID) (p : Principal) : option Session.t :=
  match _sessions r !! sid with
  | None => None
  | Some s => if negb (owns p s) then None else Some s
  end.

Definition get (r : t) (sid : UUID) (p : Principal) : result Session.t :=
  match _sessions r !! sid with
  | None => Raise (NotFoundError "session not found")
  | Some s =>
      raise_if negb (owns p s) with NotFoundError "session not found";
      Ok s
  end.

Definition bind_browser_profile (sid : UUID) (p : Principal) (profile : string) (r : t)
    : result Session.t * t :=
  match _owned r sid p with
  | None => (Raise (NotFoundError "session not found"), r)
  | Some s =>
      let s' := s <| Session.metadata :=
        <[SESSION_BROWSER_PROFILE_METADATA_KEY := JStr profile]> (Session.metadata s) |> in
      (Ok s', r <| _sessions := <[sid := s']> (_sessions r) |>)
  end.

Definition set_title_if_missing (sid : UUID) (p : Principal) (title : string) (r : t)
    : result Session.t * t :=
  match conversation_title title with
  | None => (Raise (ValueError "session title must contain text"), r)
  | Some normalized =>
      match get r sid p with
      | Raise e => (Raise e, r)
      | Ok s =>
          match Session.title s with
          | Some _ => (Ok s, r)
          | None =>
              let s' := s <| Session.title := Some normalized |> in
              (Ok s', r <| _sessions := <[sid := s']> (_sessions r) |>
                        <| _title_sources := <[sid := FIRST_MESSAGE]> (_title_sources r) |>)
          end
      end
  end.

Definition regenerable (r : t) (sid : UUID) : bool :=
  match _title_sources r !! sid with
  | None => false
  | Some src => bool_decide (src ∈ REGENERABLE_TITLE_SOURCES)
  end.

Definition request_title (sid : UUID) (p : Principal) (at_ : datetime) (r : t)
    : bool * t :=
  match _owned r sid p with
  | None => (false, r)
  | Some s =>
      if bool_decide (Session.title s = None) || negb (regenerable r sid) then (false, r)
      else (true, r <| _title_requests := <[sid := at_]> (_title_requests r) |>)
  end.

(** One entry of the comprehension in [pending_title_requests]. *)
Definition pending_entry (r : t) (p : Principal) (q : UUID * datetime) : option TitleRequest :=
  s ← _owned r q.1 p;
  title ← Session.title s;
  source ← _title_sources r !! q.1;
  if bool_decide (source ∈ REGENERABLE_TITLE_SOURCES)
  then Some {| request_session_id := q.1; request_title_text := title;
               request_title_source := source; requested_at := q.2 |}
  else None.

Definition pending_title_requests (r : t) (p : Principal) (limit : nat) : list TitleRequest :=
  take limit (sort_asc TitleRequest_key
    (omap (pending_entry r p) (map_to_list (_title_requests r)))).

Definition write_generated_title (sid : UUID) (p : Principal) (expected_title title : string)
    (r : t) : result bool * t :=
  match conversation_title title with
  | None => (Raise (ValueError "session title must contain text"), r)
  | Some normalized =>
      match _owned r sid p with
      | None => (Ok false, r)
      | Some s =>
          if bool_decide (Session.title s ≠ Some expected_title) || negb (regenerable r sid)
          then (Ok false, r)
          else
            let s' := s <| Session.title := Some normalized |> in
            (Ok true, r <| _sessions := <[sid := s']> (_sessions r) |>
                        <| _title_sources := <[sid := GENERATED]> (_title_sources r) |>)
      end
  end.

Definition clear_title_request (sid : UUID) (p : Principal) (at_ : datetime) (r : t)
    : bool * t :=
  if bool_decide (_owned r sid p = None) || bool_decide (_title_requests r !! sid ≠ Some at_)
  then (false, r)
  else (true, r <| _title_requests := delete sid (_title_requests r) |>).

(** The visibility test of [list] when [exclude_operational]. *)
Definition conversational (r : t) (s : Session.t) : bool :=
  let m := Session.metadata s in
  negb (is_True_value (m !! SESSION_EMAIL_OPERATIONAL_METADATA_KEY)) &&
  negb (is_True_value (m !! SESSION_COCKPIT_REFRESH_METADATA_KEY)) &&
  match as_str (m !! SESSION_PURPOSE_METADATA_KEY) with
  | None => true
  | Some purpose => bool_decide (purpose ∉ PEOPLE_OPERATIONAL_SESSION_PURPOSES)
  end &&
  (bool_decide (m !! SESSION_EMAIL_THREAD_ID_METADATA_KEY = None) ||
   bool_decide (Session.id s ∈ _chat_sessions r)).

Definition listed (r : t) (p : Principal) (cursor : option (datetime * UUID))
    (exclude_operational : bool) (s : Session.t) : bool :=
  owns p s && (negb exclude_operational || conversational r s) &&
  match cursor with None => true | Some c => key_ltb (Session.key s) c end.

Definition list_sessions (r : t) (p : Principal) (limit : nat)
    (cursor : option (datetime * UUID)) (exclude_operational : bool) : list Session.t :=
  take limit (sort_desc Session.key
    (filter (λ s, listed r p cursor exclude_operational s = true)
            (table_rows (_sessions r)))).

Definition touch (sid : UUID) (touched_at : datetime) (r : t) : result unit * t :=
  match _sessions r !! sid with
  | None => (Raise (NotFoundError "session not found"), r)
  | Some s =>
      let s' := s <| Session.updated_at := Z.max (Session.updated_at s) touched_at |> in
      (Ok tt, r <| _sessions := <[sid := s']> (_sessions r) |>)
  end.

Definition close (sid : UUID) (p : Principal) (closed_at : datetime) (r : t)
    : result (Session.t * bool) * t :=
  match get r sid p with
  | Raise e => (Raise e, r)
  | Ok s =>
      if bool_decide (Session.status s ≠ ACTIVE) then (Ok (s, false), r)
      else
        let s' := s <| Session.status := CLOSED |> <| Session.updated_at := closed_at |> in
        (Ok (s', true), r <| _sessions := <[sid := s']> (_sessions r) |>)
  end.

(** A call of any method that can change the repository, and its answer. *)
Inductive op :=
| OpCreate (s : Session.t)
| OpBind (sid : UUID) (p : Principal) (profile : string)
| OpSetTitle (sid : UUID) (p : Principal) (title : string)
| OpRequestTitle (sid : UUID) (p : Principal) (at_ : datetime)
| OpWriteTitle (sid : UUID) (p : Principal) (expected title : string)
| OpClearRequest (sid : UUID) (p : Principal) (at_ : datetime)
| OpTouch (sid : UUID) (at_ : datetime)
| OpClose (sid : UUID) (p : Principal) (at_ : datetime).

Inductive reply :=
| RUnit (m : result unit)
| RBool (m : result bool)
| RSession (m : result Session.t)
| RClosed (m : result (Session.t * bool)).

Definition run_op (o : op) (r : t) : reply * t :=
  match o with
  | OpCreate s => let (a, r') := create s r in (RUnit a, r')
  | OpBind sid p x => let (a, r') := bind_browser_profile sid p x r in (RSession a, r')
  | OpSetTitle sid p x => let (a, r') := set_title_if_missing sid p x r in (RSession a, r')
  | OpRequestTitle sid p x => let (a, r') := request_title sid p x r in (RBool (Ok a), r')
  | OpWriteTitle sid p e x => let (a, r') := write_generated_title sid p e x r in (RBool a, r')
  | OpClearRequest sid p x => let (a, r') := clear_title_request sid p x r in (RBool (Ok a), r')
  | OpTouch sid x => let (a, r') := touch sid x r in (RUnit a, r')
  | OpClose sid p x => let (a, r') := close sid p x r in (RClosed a, r')
  end.

(** The principal and session a call names ([create] and [touch] are internal: no principal). *)
Definition op_target (o : op) : option (UUID * Principal) :=
  match o with
  | OpCreate _ | OpTouch _ _ => None
  | OpBind sid p _ | OpSetTitle sid p _ | OpRequestTitle sid p _
  | OpWriteTitle sid p _ _ | OpClearRequest sid p _ | OpClose sid p _ => Some (sid, p)
  end.
Definition run_ops (os : list op) (r : t) : t := foldl (λ r o, (run_op o r).2) r os.

(** ** Invariant: records sit under their own id; exactly the titled sessions
    have a title source; a requested title is a regenerable one. *)
Record wf (r : t) : Prop := {
  wf_id : ∀ i s, _sessions r !! i = Some s → Session.id s = i;
  wf_source : ∀ i, is_Some (_title_sources r !! i) ↔
                   ∃ s, _sessions r !! i = Some s ∧ is_Some (Session.title s);
  wf_request : ∀ i, is_Some (_title_requests r !! i) → regenerable r i = true;
}.

(** A step leaves every other session alone, and of the target either nothing
    changes or a titled session stays titled. *)
Lemma owned_Some r sid p s :
  _owned r sid p = Some s ↔ _sessions r !! sid = Some s ∧ owns p s = true.
Proof.
  unfold _owned. destruct (_sessions r !! sid) as [x|]; [|naive_solver].
  destruct (owns p x) eqn:Ho; simpl; naive_solver congruence.
Qed.

Lemma get_Ok r sid p s : get r sid p = Ok s ↔ _sessions r !! sid = Some s ∧ owns p s = true.
Proof.
  unfold get. destruct (_sessions r !! sid) as [x|]; [|naive_solver].
  destruct (owns p x) eqn:Ho; simpl; naive_solver congruence.
Qed.

Lemma owned_None_get r sid p :
  _owned r sid p = None ↔ get r sid p = Raise (NotFoundError "session not found").
Proof. unfold _owned, get. split_cases; naive_solver. Qed.

Lemma regenerable_Some r sid :
  regenerable r sid = true ↔ ∃ src, _title_sources r !! sid = Some src ∧ src ≠ FIXED.
Proof.
  unfold regenerable, REGENERABLE_TITLE_SOURCES.
  destruct (_title_sources r !! sid) as [[]|];
    [rewrite bool_decide_true by set_solver|rewrite bool_decide_true by set_solver
    |rewrite bool_decide_false by set_solver|]; naive_solver.
Qed.

(** Writing back a session of the same id with the same titledness, sources untouched. *)
Lemma wf_update r sid s s' :
  wf r → _sessions r !! sid = Some s → Session.id s' = Session.id s →
  (is_Some (Session.title s') ↔ is_Some (Session.title s)) →
  wf (r <| _sessions := <[sid := s']> (_sessions r) |>).
Proof.
  intros [Hid Hsrc Hreq] Hs He Ht. split; simpl; [|intros i; rewrite Hsrc|done].
  - intros i x. rewrite lookup_insert_Some. intros [[<- <-]|[_ H]]; [by rewrite He; apply Hid|auto].
  - destruct (decide (sid = i)) as [<-|Hne].
    + rewrite lookup_insert_eq, Hs. naive_solver.
    + by rewrite lookup_insert_ne.
Qed.

(** Giving the session a title and a source that is not [FIXED]. *)
Lemma wf_retitle r sid s title src :
  wf r → _sessions r !! sid = Some s → src ≠ FIXED →
  wf (r <| _sessions := <[sid := s <| Session.title := Some title |>]> (_sessions r) |>
        <| _title_sources := <[sid := src]> (_title_sources r) |>).
Proof.
  intros [Hid Hsrc Hreq] Hs Hf. split; simpl.
  - intros i x. rewrite lookup_insert_Some. intros [[<- <-]|[_ H]]; [simpl; by apply Hid|auto].
  - intros i. destruct (decide (sid = i)) as [<-|Hne].
    + rewrite !lookup_insert_eq. split; [intros _|done]. eexists. split; [done|]. by eexists.
    + rewrite !lookup_insert_ne by done. apply Hsrc.
  - intros i Hi. apply regenerable_Some. simpl. destruct (decide (sid = i)) as [<-|Hne].
    + rewrite lookup_insert_eq. eauto.
    + rewrite lookup_insert_ne by done. apply regenerable_Some. auto.
Qed.

Lemma wf_requests r m :
  wf r → (∀ i, is_Some (m !! i) → regenerable r i = true) →
  wf (r <| _title_requests := m |>).
Proof. intros [Hid Hsrc Hreq] Hm. by split. Qed.

Lemma create_wf s r : wf r → wf (create s r).2.
Proof.
  intros Hwf. unfold create. case_bool_decide as Hn; [done|].
  assert (Hnew : _sessions r !! Session.id s = None)
    by (by apply eq_None_not_Some).
  destruct Hwf as [Hid Hsrc Hreq].
  assert (Hns : _title_sources r !! Session.id s = None).
  { apply eq_None_not_Some. rewrite Hsrc. naive_solver. }
  assert (Hnr : ∀ i, is_Some (_title_requests r !! i) → Session.id s ≠ i).
  { intros i Hi%Hreq <-. apply regenerable_Some in Hi. naive_solver. }
  destruct (Session.title s) as [title|] eqn:Ht; split; simpl.
  - intros i x. rewrite lookup_insert_Some. naive_solver.
  - intros i. destruct (decide (Session.id s = i)) as [<-|Hne].
    + rewrite !lookup_insert_eq. split; [|done]. intros _. eauto.
    + rewrite !lookup_insert_ne by done. apply Hsrc.
  - intros i Hi. unfold regenerable. simpl. rewrite lookup_insert_ne by auto. by apply Hreq.
  - intros i x. rewrite lookup_insert_Some. naive_solver.
  - intros i. destruct (decide (Session.id s = i)) as [<-|Hne].
    + rewrite lookup_insert_eq, Hns. split; [by intros []|].
      intros (x & [= <-] & []). congruence.
    + rewrite lookup_insert_ne by done. apply Hsrc.
  - apply Hreq.
Qed.

Lemma run_op_wf o r : wf r → wf (run_op o r).2.
Proof.
  intros Hwf. destruct o; simpl.
  - unfold run_op. pose proof (create_wf s r Hwf). by destruct (create s r).
  - unfold bind_browser_profile. destruct (_owned r sid p) eqn:Ho; [|done].
    apply owned_Some in Ho as [Hs _]. by eapply wf_update.
  - unfold set_title_if_missing. destruct (conversation_title title); [|done].
    destruct (get r sid p) eqn:Hg; [|done]. apply get_Ok in Hg as [Hs _].
    destruct (Session.title a) eqn:Ht; [done|]. by apply wf_retitle.
  - unfold request_title. destruct (_owned r sid p) eqn:Ho; [|done].
    destruct (bool_decide _ || _) eqn:Hc; [done|].
    apply orb_false_iff in Hc as [_ Hreg%negb_false_iff]. apply wf_requests; [done|].
    intros i. rewrite lookup_insert_is_Some. intros [<-|[_ Hi]]; [done|]. by apply Hwf.
  - unfold write_generated_title. destruct (conversation_title title); [|done].
    destruct (_owned r sid p) eqn:Ho; [|done]. apply owned_Some in Ho as [Hs _].
    destruct (bool_decide _ || _); [done|]. by apply wf_retitle.
  - unfold clear_title_request. destruct (bool_decide _ || _); [done|].
    apply wf_requests; [done|]. intros i. rewrite lookup_delete_is_Some.
    intros [_ Hi]. by apply Hwf.
  - unfold touch. destruct (_sessions r !! sid) eqn:Hs; [|done]. by eapply wf_update.
  - unfold close. destruct (get r sid p) as [s|] eqn:Hg; [|done].
    apply get_Ok in Hg as [Hs _]. case_bool_decide; [done|]. by eapply wf_update.
Qed.

Lemma run_ops_wf os r : wf r → wf (run_ops os r).
Proof. revert r. induction os as [|o os IH]; intros r Hr; [done|]. by apply IH, run_op_wf. Qed.

Lemma init_wf : wf init.
Proof.
  split; [done| |by intros i []]. intros i. split; [by intros []|]. by intros (s & ? & _).
Qed.

(** ** Isolation *)
Definition forget (sid : UUID) (r : t) : t := r <| _sessions := delete sid (_sessions r) |>.

Lemma get_forget r sid p : get (forget sid r) sid p = Raise (NotFoundError "session not found").
Proof. unfold get. simpl. by rewrite lookup_delete_eq. Qed.
Lemma owned_forget r sid p : _owned (forget sid r) sid p = None.
Proof. unfold _owned. simpl. by rewrite lookup_delete_eq. Qed.

(** ** Title sources *)
Lemma regenerable_not_fixed r sid : _title_sources r !! sid = Some FIXED → regenerable r sid = false.
Proof.
  intros H. destruct (regenerable r sid) eqn:E; [|done].
  apply regenerable_Some in E. naive_solver.
Qed.

(** The title a session would show, with its source; [None] when there is no such session. *)
Definition titled (r : t) (sid : UUID) : option (option string * option SessionTitleSource) :=
  s ← _sessions r !! sid; Some (Session.title s, _title_sources r !! sid).

Lemma titled_update r sid s s' i :
  _sessions r !! sid = Some s → Session.title s' = Session.title s →
  titled (r <| _sessions := <[sid := s']> (_sessions r) |>) i = titled r i.
Proof.
  intros Hs Ht. unfold titled. simpl. destruct (decide (sid = i)) as [<-|Hne].
  - rewrite lookup_insert_eq, Hs. simpl. by rewrite Ht.
  - by rewrite lookup_insert_ne.
Qed.

Lemma titled_other r sid x src i :
  sid ≠ i →
  titled (r <| _sessions := <[sid := x]> (_sessions r) |>
            <| _title_sources := <[sid := src]> (_title_sources r) |>) i = titled r i.
Proof. intros Hne. unfold titled. simpl. by rewrite !lookup_insert_ne. Qed.

Lemma run_op_fixed o r i title :
  titled r i = Some (Some title, Some FIXED) →
  titled (run_op o r).2 i = Some (Some title, Some FIXED).
Proof.
  intros Ht. pose proof Ht as (s & Hs & [= Hst Hf])%bind_Some.
  destruct o; simpl; try (case_match; done).
  - unfold create. case_bool_decide as Hn; [done|]. destruct (Session.title s0); simpl.
    + trans (titled r i); [apply titled_other|done]. intros <-. rewrite Hs in Hn. by apply Hn.
    + unfold titled. simpl. rewrite lookup_insert_ne; [done|]. intros <-.
      rewrite Hs in Hn. by apply Hn.
  - unfold bind_browser_profile. destruct (_owned r sid p) eqn:Ho; [|done].
    apply owned_Some in Ho as [Hs' _]. trans (titled r i); [by eapply titled_update|done].
  - unfold set_title_if_missing. destruct (conversation_title _); [|done].
    destruct (get r sid p) eqn:Hg; [|done]. apply get_Ok in Hg as [Hs' _].
    destruct (Session.title a) eqn:Ha; [done|]. simpl.
    trans (titled r i); [apply titled_other|done]. intros <-. congruence.
  - unfold request_title. destruct (_owned r sid p); [|done]. by destruct (bool_decide _ || _).
  - unfold write_generated_title. destruct (conversation_title _); [|done].
    destruct (_owned r sid p) eqn:Ho; [|done].
    destruct (bool_decide _ || _) eqn:Hc; [done|]. simpl.
    apply orb_false_iff in Hc as [_ Hreg%negb_false_iff].
    trans (titled r i); [apply titled_other|done]. intros <-.
    by rewrite regenerable_not_fixed in Hreg.
  - unfold clear_title_request. by destruct (bool_decide _ || _).
  - unfold touch. destruct (_sessions r !! sid) eqn:Hs'; [|done]. trans (titled r i); [by eapply titled_update|done].
  - unfold close. destruct (get r sid p) eqn:Hg; [|done]. apply get_Ok in Hg as [Hs' _].
    case_bool_decide; [done|]. trans (titled r i); [by eapply titled_update|done].
Qed.

(** ** Keyset pagination *)
Definition index (r : t) (p : Principal) (cursor : option (datetime * UUID)) (ex : bool)
    : list Session.t :=
  sort_desc Session.key
    (filter (λ s, listed r p cursor ex s = true) (table_rows (_sessions r))).

Lemma session_rows_inj r x y :
  wf r → x ∈ table_rows (_sessions r) → y ∈ table_rows (_sessions r) →
  Session.key x = Session.key y → x = y.
Proof. intros Hwf Hx Hy [= _ He]. by apply (table_inj Session.id _ (wf_id r Hwf)). Qed.

Lemma index_cursor r p c ex n s :
  wf r → index r p c ex !! n = Some s →
  index r p (Some (Session.key s)) ex = drop (S n) (index r p c ex).
Proof.
  intros Hwf Hs. set (rows := table_rows (_sessions r)).
  assert (Hin : ∀ x, x ∈ index r p c ex → x ∈ rows ∧ listed r p c ex x = true).
  { intros x. unfold index. rewrite sort_desc_perm, list_elem_of_filter. tauto. }
  rewrite <- (keyset_page Session.key _ n s).
  - unfold index. rewrite <- (sort_desc_filter Session.key (λ y, key_ltb _ _ = true)).
    + f_equal. rewrite list_filter_filter. apply list_filter_iff. intros x.
      destruct (Hin s (list_elem_of_lookup_2 _ _ _ Hs)) as [_ Hls].
      unfold listed in *. rewrite !andb_true_iff in *. destruct c as [c|]; [|tauto].
      destruct Hls as [_ Hls]. split; [|tauto]. intros [H1 H2]. repeat split; try apply H1; auto.
      unfold key_ltb in *. destruct (Session.key x), (Session.key s), c; simpl in *. lia.
    + intros x y [_ Hx]%list_elem_of_filter [_ Hy]%list_elem_of_filter.
      by apply (session_rows_inj r).
  - apply sort_desc_sorted.
  - intros x y [Hx _]%Hin [Hy _]%Hin. by apply (session_rows_inj r).
  - unfold index. rewrite sort_desc_perm. by apply NoDup_filter, (table_NoDup Session.id), wf_id.
  - done.
Qed.
End SessionRepo.

(** ** Properties *)

(** A call made by a principal about a session it does not own (of another
    tenant, of another principal, or missing) changes nothing, and is answered
    exactly as if the session did not exist: the repository leaks neither the
    record nor its existence. *)
Theorem foreign_session_indistinguishable o r sid p :
  SessionRepo.op_target o = Some (sid, p) → SessionRepo._owned r sid p = None →
  SessionRepo.run_op o r = ((SessionRepo.run_op o (SessionRepo.forget sid r)).1, r) ∧
  SessionRepo.get r sid p = SessionRepo.get (SessionRepo.forget sid r) sid p.
Proof.
  intros Ht Ho. pose proof Ho as Hg. apply SessionRepo.owned_None_get in Hg.
  rewrite SessionRepo.get_forget. split; [|done].
  destruct o; simplify_eq/=;
    unfold SessionRepo.bind_browser_profile, SessionRepo.set_title_if_missing,
      SessionRepo.request_title, SessionRepo.write_generated_title,
      SessionRepo.clear_title_request, SessionRepo.close;
    rewrite ?SessionRepo.get_forget, ?SessionRepo.owned_forget, ?Hg, ?Ho; try done;
    by destruct (conversation_title title).
Qed.

(** The index pages compose. Under the invariant every reachable repository
    satisfies, continuing from the key of the last row of a page returns exactly
    the rows that follow it: a page of [n] then a page of [m] is the page of
    [n + m], nothing skipped and nothing repeated. *)
Theorem list_pages_compose os p n m cursor ex last_row :
  let r := SessionRepo.run_ops os SessionRepo.init in
  last (SessionRepo.list_sessions r p n cursor ex) = Some last_row →
  SessionRepo.list_sessions r p n cursor ex ++
    SessionRepo.list_sessions r p m (Some (Session.key last_row)) ex =
  SessionRepo.list_sessions r p (n + m) cursor ex.
Proof.
  intros r Hl. assert (Hwf : SessionRepo.wf r)
    by apply SessionRepo.run_ops_wf, SessionRepo.init_wf.
  change (SessionRepo.list_sessions r p n cursor ex)
    with (take n (SessionRepo.index r p cursor ex)) in *.
  change (SessionRepo.list_sessions r p (n + m) cursor ex)
    with (take (n + m) (SessionRepo.index r p cursor ex)).
  change (SessionRepo.list_sessions r p m (Some (Session.key last_row)) ex)
    with (take m (SessionRepo.index r p (Some (Session.key last_row)) ex)).
  set (l := SessionRepo.index r p cursor ex) in *.
  rewrite last_lookup in Hl. set (k := Nat.pred (length (take n l))) in Hl.
  assert (Hk : l !! k = Some last_row ∧ (k < n)%nat) by (by apply lookup_take_Some in Hl).
  destruct Hk as [Hk Hkn].
  rewrite (SessionRepo.index_cursor r p cursor ex k last_row Hwf Hk).
  pose proof (lookup_lt_Some _ _ _ Hl). pose proof (lookup_lt_Some _ _ _ Hk).
  assert (Hlen : length (take n l) = S k) by (subst k; lia).
  rewrite length_take in Hlen. fold l.
  destruct (Nat.min_spec n (length l)) as [[? Hm]|[? Hm]].
  - replace n with (S k) by lia. apply take_take_drop.
  - rewrite !(take_ge l) by lia. rewrite drop_ge by lia. by rewrite take_nil, app_nil_r.
Qed.

(** A title given at creation is permanent: whatever is called afterwards, by
    whomever, the session keeps that title and stays outside the set the title
    pass regenerates. *)
Theorem fixed_title_never_changes os r sid title :
  SessionRepo.titled r sid = Some (Some title, Some FIXED) →
  SessionRepo.titled (SessionRepo.run_ops os r) sid = Some (Some title, Some FIXED).
Proof.
  revert r. induction os as [|o os IH]; intros r Ht; [done|].
  by apply IH, SessionRepo.run_op_fixed.
Qed.

(** A derived title is one to sixty-four characters and never starts with
    white space; a text of white space alone gives no title. *)
Theorem conversation_title_bounds text title :
  conversation_title text = Some title →
  ∃ c s, title = String c s ∧ py_isspace c = false ∧
         (String.length title ≤ SESSION_TITLE_MAX_LENGTH)%nat.
Proof.
  unfold conversation_title. case_bool_decide as Hn; [done|]. intros [= <-].
  destruct (concat_first (py_split text)) as (c & s & Hs & Hc); [by apply py_split_go_words|done|].
  rewrite Hs. exists c, (String.substring 0 63 s). split; [done|]. split; [done|].
  apply length_substring_0.
Qed.

(** ** Witnesses *)
Definition ada : Principal :=
  {| Principal.tenant_id := "t1"; Principal.principal_id := "ada";
     Principal.roles := ∅; Principal.scopes := ∅ |}.
Definition bob : Principal :=
  {| Principal.tenant_id := "t1"; Principal.principal_id := "bob";
     Principal.roles := ∅; Principal.scopes := ∅ |}.
Definition ada_session (i : UUID) (title : option string) (at_ : datetime) : Session.t :=
  {| Session.id := i; Session.tenant_id := "t1"; Session.principal_id := "ada";
     Session.agent_id := 7%N; Session.agent_version := "1"; Session.status := ACTIVE;
     Session.title := title; Session.metadata := ∅; Session.created_at := at_;
     Session.updated_at := at_ |}.
Definition three_sessions : list SessionRepo.op :=
  [SessionRepo.OpCreate (ada_session 1 (Some "fixed") 10);
   SessionRepo.OpCreate (ada_session 2 None 30);
   SessionRepo.OpCreate (ada_session 3 None 20);
   SessionRepo.OpSetTitle 2 ada "  hello   world "].

Lemma foreign_session_indistinguishable_witness :
  let r := SessionRepo.run_ops three_sessions SessionRepo.init in
  SessionRepo.run_op (SessionRepo.OpClose 1 bob 99) r =
    (SessionRepo.RClosed (Raise (NotFoundError "session not found")), r).
Proof.
  pose proof (foreign_session_indistinguishable (SessionRepo.OpClose 1 bob 99)
    (SessionRepo.run_ops three_sessions SessionRepo.init) 1 bob eq_refl ltac:(by vm_compute))
    as [H _].
  exact H.
Defined.

Lemma list_pages_compose_witness :
  let r := SessionRepo.run_ops three_sessions SessionRepo.init in
  map Session.id (SessionRepo.list_sessions r ada 2 None true ++
    SessionRepo.list_sessions r ada 2 (Some (Session.key (ada_session 3 None 20))) true) =
  [2; 3; 1]%N.
Proof.
  cbv zeta. rewrite (list_pages_compose three_sessions ada 2 2 None true (ada_session 3 None 20)
    ltac:(by vm_compute)).
  by vm_compute.
Defined.

Lemma fixed_title_never_changes_witness :
  SessionRepo.titled (SessionRepo.run_ops
    [SessionRepo.OpWriteTitle 1 ada "fixed" "other"; SessionRepo.OpClose 1 ada 50]
    (SessionRepo.run_ops three_sessions SessionRepo.init)) 1 = Some (Some "fixed"%string, Some FIXED).
Proof. apply fixed_title_never_changes. by vm_compute. Defined.

Lemma conversation_title_bounds_witness :
  ∃ c s, "hello world"%string = String c s ∧ py_isspace c = false ∧
         (String.length "hello world" ≤ SESSION_TITLE_MAX_LENGTH)%nat.
Proof. apply (conversation_title_bounds "  hello   world "). by vm_compute. Defined.
