(* ===== verification/RunSpec.v ===== *)
(** * The contract of a run repository

    [ports/repositories.py: RunRepository] has two implementations: the
    in-memory one ([RunStore.v]) and the PostgreSQL one ([RunRows.v]). A [call]
    is one mutating method call; [spec_step] says what a successful call may do
    to the map of runs a caller can read; [RunRepositoryLaws] is the promise
    both implementations keep. The theory at the end is proved from the promise
    alone: the status of a run only ever follows the edges of the state machine,
    a finished run keeps its outcome, a session has at most one live run. *)
From S2P Require Import Prelude PyDecimal RunModel.

Record WorkerLease := {
  lease_run_id : UUID;
  worker_id : string;
  lease_epoch_held : Z;
}.
#[export] Instance WorkerLease_eq_dec : EqDecision WorkerLease.
Proof. solve_decision. Defined.

(** A mutating method call; [now] is what the clock reads during it. *)
Inductive call :=
| Create (run : Run)
| RequestCancellation (run_id : UUID) (expected_status : RunStatus) (now : datetime)
| Transition (run_id : UUID) (expected_status new_status : RunStatus)
    (failure : option RunFailure) (final_message : option string)
    (lease : option WorkerLease) (now : datetime)
| UpdateCounters (run : Run) (lease : option WorkerLease)
| SetWaitingLimits (run_id : UUID) (limits : RunLimits) (now : datetime)
| SetSeedEventSequence (run_id : UUID) (sequence : Z) (now : datetime)
| SetProviderPin (run_id : UUID) (pin : ProviderPin) (now : datetime).

(** The run a call is about. *)
Definition target (c : call) : UUID :=
  match c with
  | Create r | UpdateCounters r _ => id r
  | RequestCancellation i _ _ | Transition i _ _ _ _ _ _ | SetWaitingLimits i _ _
  | SetSeedEventSequence i _ _ | SetProviderPin i _ _ => i
  end.

(** ** What a successful call may do to the run it is about *)

(** The result fields a finished run shows. *)
Definition outcome (r : Run) : RunStatus * option RunFailure * option string :=
  (status r, failure r, final_message r).

(** Everything a call other than [create] must leave alone: what the run is, and
    what belongs to the queue. *)
Definition same_frame (a b : Run) : Prop :=
  id b = id a ∧ session_id b = session_id a ∧ parent_run_id b = parent_run_id a ∧
  kind b = kind a ∧ tenant_id b = tenant_id a ∧ principal_scopes b = principal_scopes a ∧
  agent_id b = agent_id a ∧ agent_version b = agent_version a ∧
  run_deadline_at b = run_deadline_at a ∧ priority b = priority a ∧
  export_consent b = export_consent a ∧ created_at b = created_at a ∧
  lease_owner b = lease_owner a ∧ lease_expires_at b = lease_expires_at a ∧
  lease_epoch b = lease_epoch a ∧ attempts b = attempts a ∧
  lease_expirations b = lease_expirations a ∧ scheduled_for b = scheduled_for a.

(** The accounting fields. *)
Definition same_counters (a b : Run) : Prop :=
  step_count b = step_count a ∧ model_call_count b = model_call_count a ∧
  tool_call_count b = tool_call_count a ∧ usage b = usage a.

Definition spec_change (c : call) (cur new : Run) : Prop :=
  same_frame cur new ∧
  match c with UpdateCounters _ _ => True | _ => same_counters cur new end ∧
  match c with SetWaitingLimits _ _ _ => True | _ => limits new = limits cur end ∧
  match c with
  | RequestCancellation _ _ now =>
      cancel_requested_at new = Some (default now (cancel_requested_at cur))
  | _ => cancel_requested_at new = cancel_requested_at cur
  end ∧
  match c with
  | SetProviderPin _ pin _ =>
      (provider_pin cur = None ∨ provider_pin cur = Some pin) ∧ provider_pin new = Some pin
  | _ => provider_pin new = provider_pin cur
  end ∧
  match c with
  | SetSeedEventSequence _ n _ => seed_event_sequence cur = 0 ∧ seed_event_sequence new = n
  | _ => seed_event_sequence new = seed_event_sequence cur
  end ∧
  match c with Transition _ _ _ _ _ _ _ => True | _ => outcome new = outcome cur end ∧
  match c with
  | Create _ => False
  | RequestCancellation _ expected _ => status cur = expected
  | Transition _ expected requested fl msg _ _ =>
      status cur = expected ∧ edge expected requested ∧ status new = requested ∧
      (failure new = fl ∨ fl = None ∧ failure new = failure cur ∨ failure new = None) ∧
      (final_message new = msg ∨ msg = None ∧ final_message new = final_message cur ∨
       final_message new = None)
  | UpdateCounters r _ =>
      status cur = status r ∧
      step_count new = step_count r ∧ model_call_count new = model_call_count r ∧
      tool_call_count new = tool_call_count r ∧ usage new = usage r
  | SetWaitingLimits _ l _ =>
      status cur = WAITING_FOR_USER ∧ limits new = l ∧ deadline_at l = run_deadline_at cur
  | SetSeedEventSequence _ _ _ | SetProviderPin _ _ _ => True
  end.

Definition live_in (s : UUID) (r : Run) : Prop :=
  session_id r = s ∧ is_terminal (status r) = false.
Definition review_of (p : UUID) (r : Run) : Prop :=
  parent_run_id r = Some p ∧ kind r = SKILL_REVIEW.

Definition spec_create (runs : gmap UUID Run) (r : Run) : Prop :=
  runs !! id r = None ∧
  (is_terminal (status r) = false → ∀ i x, runs !! i = Some x → ¬ live_in (session_id r) x) ∧
  (∀ p, review_of p r → ∀ i x, runs !! i = Some x → ¬ review_of p x).

Definition spec_step (c : call) (runs runs' : gmap UUID Run) : Prop :=
  match c with
  | Create r => spec_create runs r ∧ runs' = <[id r := r]> runs
  | _ => ∃ cur new, runs !! target c = Some cur ∧ spec_change c cur new ∧
                    runs' = <[target c := new]> runs
  end.

(** ** The interface *)
Class RunRepository (S : Type) := {
  (** what readers see *)
  runs_of : S → gmap UUID Run;
  (** one method call: the answer and the state after it *)
  perform : call → S → result (option Run) * S;
  (** states the constructor and the methods can produce *)
  repo_ok : S → Prop;
}.

Class RunRepositoryLaws (S : Type) `{RunRepository S} := {
  perform_raise : ∀ c s e s', perform c s = (Raise e, s') → s' = s;
  perform_ok : ∀ c s v s', repo_ok s → perform c s = (Ok v, s') →
    repo_ok s' ∧ spec_step c (runs_of s) (runs_of s') ∧
    (∀ r, v = Some r → runs_of s' !! target c = Some r);
}.

(** ** Consequences of the contract *)
Lemma spec_change_status c cur new :
  spec_change c cur new → status new = status cur ∨ edge (status cur) (status new).
Proof.
  intros (_ & _ & _ & _ & _ & _ & Ho & H). unfold outcome in Ho.
  destruct c; try (injection Ho; auto; fail). destruct H as (-> & ? & -> & _). auto.
Qed.

Lemma spec_change_terminal c cur new :
  spec_change c cur new → is_terminal (status cur) = true → outcome new = outcome cur.
Proof.
  intros (_ & _ & _ & _ & _ & _ & Ho & H) Ht. destruct c; try done.
  destruct H as (<- & He & _). by apply edge_from_terminal in He.
Qed.

(** At most one live run per session, at most one skill review per parent,
    every record under its own id. *)
Record store_inv (runs : gmap UUID Run) : Prop := {
  inv_id : ∀ i r, runs !! i = Some r → id r = i;
  inv_live : ∀ s i j a b, runs !! i = Some a → runs !! j = Some b →
    live_in s a → live_in s b → i = j;
  inv_review : ∀ p i j a b, runs !! i = Some a → runs !! j = Some b →
    review_of p a → review_of p b → i = j;
}.

Lemma store_inv_empty : store_inv ∅.
Proof. by split. Qed.

Lemma store_inv_change c runs cur new :
  store_inv runs → runs !! target c = Some cur → spec_change c cur new →
  store_inv (<[target c := new]> runs).
Proof.
  intros Hinv Hc Hs. pose proof (spec_change_status _ _ _ Hs) as Hst.
  destruct Hs as [(Hi & Hse & Hp & Hk & _) _].
  assert (Hlive : ∀ s, live_in s new → live_in s cur).
  { intros s [<- Hn]. split; [done|]. destruct Hst as [<-|He]; [done|].
    by apply edge_from_live in He. }
  assert (Hrev : ∀ p, review_of p new → review_of p cur)
    by (intros p [? ?]; split; congruence).
  assert (Hback : ∀ i a, <[target c := new]> runs !! i = Some a →
    ∃ a', runs !! i = Some a' ∧ (∀ s, live_in s a → live_in s a') ∧
          (∀ p, review_of p a → review_of p a') ∧ id a = id a').
  { intros i a. rewrite lookup_insert_Some. intros [[<- <-]|[_ Ha]]; eauto 6. }
  split.
  - intros i r (a & Ha & _ & _ & ->)%Hback. by apply (inv_id _ Hinv).
  - intros s i j a b (a' & Ha & Hla & _)%Hback (b' & Hb & Hlb & _)%Hback Hsa Hsb.
    eapply (inv_live _ Hinv); eauto.
  - intros p i j a b (a' & Ha & _ & Hra & _)%Hback (b' & Hb & _ & Hrb & _)%Hback Hpa Hpb.
    eapply (inv_review _ Hinv); eauto.
Qed.

Lemma store_inv_create runs r :
  store_inv runs → spec_create runs r → store_inv (<[id r := r]> runs).
Proof.
  intros Hinv (Hnew & Hlive & Hrev).
  assert (Hno : ∀ s i x, runs !! i = Some x → live_in s x → live_in s r → False)
    by (intros s i x Hx Hlx [<- Hlr]; by eapply Hlive).
  assert (Hnr : ∀ p i x, runs !! i = Some x → review_of p x → review_of p r → False)
    by (intros p i x Hx Hrx Hr; by eapply Hrev).
  split.
  - intros i x. rewrite lookup_insert_Some. intros [[<- <-]|[_ Hx]]; [done|].
    by apply (inv_id _ Hinv).
  - intros s i j a b. rewrite !lookup_insert_Some.
    intros [[<- <-]|[? Ha]] [[<- <-]|[? Hb]] Hla Hlb; try done;
      [by exfalso; eapply Hno..|]. by eapply (inv_live _ Hinv).
  - intros p i j a b. rewrite !lookup_insert_Some.
    intros [[<- <-]|[? Ha]] [[<- <-]|[? Hb]] Hla Hlb; try done;
      [by exfalso; eapply Hnr..|]. by eapply (inv_review _ Hinv).
Qed.

Definition spec_update (c : call) (runs runs' : gmap UUID Run) : Prop :=
  ∃ cur new, runs !! target c = Some cur ∧ spec_change c cur new ∧
             runs' = <[target c := new]> runs.

Lemma spec_step_cases c runs runs' :
  spec_step c runs runs' →
  spec_update c runs runs' ∨
  ∃ r, c = Create r ∧ spec_create runs r ∧ runs' = <[id r := r]> runs.
Proof. destruct c; intros Hs; try (left; exact Hs). right. by exists run. Qed.

Lemma spec_step_inv c runs runs' : store_inv runs → spec_step c runs runs' → store_inv runs'.
Proof.
  intros Hinv [(cur & new & Hc & Hs & ->)|(r & -> & Hc & ->)]%spec_step_cases.
  - by eapply store_inv_change.
  - by apply store_inv_create.
Qed.

(** The write-once fields: a cancellation request and a provider pin, once there,
    stay as they are; a seed sequence once assigned too. *)
Definition write_once_kept (a b : Run) : Prop :=
  (∀ at_, cancel_requested_at a = Some at_ → cancel_requested_at b = Some at_) ∧
  (∀ pin, provider_pin a = Some pin → provider_pin b = Some pin) ∧
  (seed_event_sequence a ≠ 0 → seed_event_sequence b = seed_event_sequence a).

(** How one run may evolve. *)
Record evolves (a b : Run) : Prop := {
  evolves_status : rtc edge (status a) (status b);
  evolves_outcome : is_terminal (status a) = true → outcome b = outcome a;
  evolves_once : write_once_kept a b;
  evolves_frame : same_frame a b;
}.

#[export] Instance evolves_preorder : PreOrder evolves.
Proof.
  split.
  - intros a. split; [reflexivity|done|by repeat split|by repeat split].
  - intros a b c [Hs Ho (Hc & Hp & Hn) Hf] [Hs' Ho' (Hc' & Hp' & Hn') Hf']. split.
    + by etrans.
    + intros Ht. pose proof (Ho Ht) as Heq. rewrite <- Heq. apply Ho'.
      unfold outcome in Heq. injection Heq as -> _ _. done.
    + split; [naive_solver|]. split; [naive_solver|]. intros Hz. rewrite Hn'; [auto|].
      by rewrite Hn.
    + unfold same_frame in *. destruct_and!. repeat split; by etrans.
Qed.

Lemma spec_change_evolves c cur new : spec_change c cur new → evolves cur new.
Proof.
  intros Hs. split.
  - destruct (spec_change_status _ _ _ Hs) as [->|He]; [reflexivity|by apply rtc_once].
  - by eapply spec_change_terminal.
  - destruct Hs as (_ & _ & _ & Hc & Hp & Hn & _). split; [|split].
    + intros at_ Ha. destruct c; rewrite Hc, Ha; done.
    + intros pin Ha. destruct c; try (by rewrite Hp). naive_solver.
    + intros Hz. destruct c; try done. naive_solver.
  - by destruct Hs.
Qed.

Lemma spec_step_run c runs runs' i a :
  spec_step c runs runs' → runs !! i = Some a → ∃ b, runs' !! i = Some b ∧ evolves a b.
Proof.
  intros [(cur & new & Hc & Hs & ->)|(r & -> & Hc & ->)]%spec_step_cases Ha.
  - destruct (decide (target c = i)) as [<-|Hne].
    + rewrite lookup_insert_eq. simplify_map_eq. eauto using spec_change_evolves.
    + rewrite lookup_insert_ne by done. by exists a.
  - destruct (decide (id r = i)) as [<-|Hne].
    + destruct Hc as [Hn _]. congruence.
    + rewrite lookup_insert_ne by done. by exists a.
Qed.

(** Every readable run satisfies the validator of [Run]: [deadline_at] is the one
    of its limits ([model_copy] does not re-run the validator). *)
Definition deadlines_match (runs : gmap UUID Run) : Prop :=
  ∀ i r, runs !! i = Some r → run_deadline_at r = deadline_at (limits r).
Definition call_valid (c : call) : Prop :=
  match c with Create r => deadline_matches_limits r = Ok r | _ => True end.

Lemma spec_step_deadlines c runs runs' :
  call_valid c → deadlines_match runs → spec_step c runs runs' → deadlines_match runs'.
Proof.
  intros Hv Hm [(cur & new & Hc & Hs & ->)|(r & -> & Hc & ->)]%spec_step_cases i x.
  - rewrite lookup_insert_Some. intros [[<- <-]|[_ Hx]]; [|by eapply Hm].
    destruct Hs as (Hf & _ & Hl & _ & _ & _ & _ & Hx).
    assert (run_deadline_at new = run_deadline_at cur) as -> by apply Hf.
    pose proof (Hm _ _ Hc). destruct c; try congruence.
    destruct Hx as (_ & -> & ->). done.
  - rewrite lookup_insert_Some. intros [[<- <-]|[_ Hx]]; [|by eapply Hm].
    unfold call_valid, deadline_matches_limits in Hv. case_bool_decide; [done|].
    by destruct (decide (run_deadline_at r = deadline_at (limits r))).
Qed.

Section client.
Context {S : Type} `{RunRepositoryLaws S}.

(** A history of calls, whether they succeed or raise. *)
Definition run_calls (cs : list call) (s : S) : S := foldl (λ s c, (perform c s).2) s cs.

Lemma perform_step c s :
  repo_ok s → repo_ok (perform c s).2 ∧
  (runs_of (perform c s).2 = runs_of s ∨ spec_step c (runs_of s) (runs_of (perform c s).2)).
Proof.
  intros Hok. destruct (perform c s) as [[v|e] s'] eqn:E; simpl.
  - apply perform_ok in E as (? & ? & _); auto.
  - apply perform_raise in E as ->. auto.
Qed.

Lemma run_calls_inv cs s :
  repo_ok s → store_inv (runs_of s) →
  repo_ok (run_calls cs s) ∧ store_inv (runs_of (run_calls cs s)).
Proof.
  revert s. induction cs as [|c cs IH]; intros s Hok Hinv; [done|].
  destruct (perform_step c s Hok) as [Hok' [Heq|Hstep]]; apply IH; try done.
  - by rewrite Heq.
  - by eapply spec_step_inv.
Qed.

Lemma run_calls_run cs s i a :
  repo_ok s → runs_of s !! i = Some a →
  ∃ b, runs_of (run_calls cs s) !! i = Some b ∧ evolves a b.
Proof.
  revert s a. induction cs as [|c cs IH]; intros s a Hok Ha; [by exists a|].
  destruct (perform_step c s Hok) as [Hok' Hst].
  assert (∃ a', runs_of (perform c s).2 !! i = Some a' ∧ evolves a a') as (a' & Ha' & He).
  { destruct Hst as [->|Hst]; [by exists a|]. by eapply spec_step_run. }
  destruct (IH _ a' Hok' Ha') as (b & Hb & Hr). exists b. split; [done|]. by etrans.
Qed.

Lemma run_calls_deadlines cs s :
  repo_ok s → Forall call_valid cs → deadlines_match (runs_of s) →
  deadlines_match (runs_of (run_calls cs s)).
Proof.
  revert s. induction cs as [|c cs IH]; intros s Hok Hv Hm; [done|].
  apply Forall_cons in Hv as [Hc Hv].
  destruct (perform_step c s Hok) as [Hok' [Heq|Hst]]; apply IH; try done.
  - by rewrite Heq.
  - by eapply spec_step_deadlines.
Qed.
End client.

(** ** Properties of every implementation *)

(** C26: Over any history of repository calls, successful or not, against any
    implementation of the contract, a run stays readable; its status only follows
    edges of the state machine; once it is completed, failed or cancelled its
    status, failure and final message never change again; the first cancellation
    instant, the first provider pin and an assigned seed sequence are kept; and
    its identity, deadline and lease fields are untouched. *)
Theorem run_history_evolves {S : Type} `{RunRepositoryLaws S} cs (s : S) i a :
  repo_ok s → runs_of s !! i = Some a →
  ∃ b, runs_of (run_calls cs s) !! i = Some b ∧ evolves a b.
Proof. apply run_calls_run. Qed.

(** Over any history of repository calls a session has at most one live run
    and a parent at most one skill review, whatever the callers attempt. *)
Theorem one_live_run_per_session {S : Type} `{RunRepositoryLaws S} cs (s : S) :
  repo_ok s → store_inv (runs_of s) → store_inv (runs_of (run_calls cs s)).
Proof. intros Hok Hinv. by apply run_calls_inv. Qed.

(** The instant in [run.deadline_at] and the one in [run.limits.deadline_at]
    never come apart, although the updates bypass the validator of [Run]: it is
    enough that the runs submitted to [create] passed it. *)
Theorem deadline_consistent {S : Type} `{RunRepositoryLaws S} cs (s : S) :
  repo_ok s → Forall call_valid cs → deadlines_match (runs_of s) →
  deadlines_match (runs_of (run_calls cs s)).
Proof. apply run_calls_deadlines. Qed.
