(* ===== verification/RunStore.v ===== *)
(** * The in-memory run repository ([adapters/persistence/memory.py])

    [InMemoryRunRepository]: a dictionary of runs under an [asyncio.Lock], so a
    method is one atomic step on the state [t]. The session repository it asks
    for ownership is the one of [Sessions.v]; clock readings are arguments. The
    mutating methods are proved to keep the contract of [RunSpec.v]; the readers
    are proved to return what they promise. *)
From S2P Require Import Prelude PyDecimal RunModel Sessions RunSpec.

Module RunStore.
Record t := {
  _runs : gmap UUID Run;
  _people_erased_runs : gmap UUID datetime;
}.
#[global] Instance eta_t : Eta t := λ s,
  {| _runs := _runs s; _people_erased_runs := _people_erased_runs s |}.

Definition rows (s : t) : list Run := (map_to_list (_runs s)).*2.
Definition any (f : Run → bool) (s : t) : bool := existsb f (rows s).
Definition set_run (i : UUID) (r : Run) (s : t) : t := s <| _runs := <[i := r]> (_runs s) |>.

Definition create (run : Run) (s : t) : result unit * t :=
  if bool_decide (is_Some (_runs s !! id run)) then
    (Raise (ConflictError "run already exists"), s)
  else if negb (is_terminal (status run)) &&
          any (λ c, bool_decide (session_id c = session_id run) &&
                    negb (is_terminal (status c))) s then
    (Raise (ConflictError "session already has an active run"), s)
  else if bool_decide (is_Some (parent_run_id run)) && bool_decide (kind run = SKILL_REVIEW) &&
          any (λ c, bool_decide (parent_run_id c = parent_run_id run) &&
                    bool_decide (kind c = kind run)) s then
    (Raise (ConflictError "parent already has a child run of this kind"), s)
  else (Ok tt, set_run (id run) run s).

Definition get (sess : SessionRepo.t) (run_id : UUID) (p : Principal) (s : t) : result Run :=
  match _runs s !! run_id with
  | None => Raise (NotFoundError "run not found")
  | Some run => _ ← SessionRepo.get sess (session_id run) p; Ok run
  end.

Definition session_ok (sess : SessionRepo.t) (p : Principal) (sid : UUID) : bool :=
  is_ok (SessionRepo.get sess sid p).

Definition has_higher_priority_work (sess : SessionRepo.t) (p : Principal) (prio : Z)
    (now : datetime) (s : t) : bool :=
  let sessions := map session_id (filter (λ r,
    (priority r <? prio) && bool_decide (status r ∈ [QUEUED; RUNNING]) &&
    match scheduled_for r with None => true | Some at_ => at_ <=? now end = true) (rows s)) in
  existsb (session_ok sess p) sessions.

Definition active_for_session (sess : SessionRepo.t) (sid : UUID) (p : Principal) (s : t)
    : result (option Run) :=
  _ ← SessionRepo.get sess sid p;
  let rs := filter (λ r, session_id r = sid ∧ is_terminal (status r) = false) (rows s) in
  raise_if (1 <? Z.of_nat (length rs)) with ConflictError "session has multiple active runs";
  Ok (head rs).

(** [(run.created_at, run.id.int)] *)
Definition run_key (r : Run) : datetime * UUID := (created_at r, id r).

(** The larger of the best run so far and the next one. *)
Definition newer (best : option Run) (r : Run) : option Run :=
  match best with
  | None => Some r
  | Some c => if key_ltb (run_key c) (run_key r) then Some r else Some c
  end.

(** [max(rows, key=..., default=None)] *)
Definition latest (rs : list Run) : option Run := foldl newer None rs.

Definition latest_for_session (sess : SessionRepo.t) (sid : UUID) (p : Principal) (s : t)
    : result (option Run) :=
  _ ← SessionRepo.get sess sid p;
  Ok (latest (filter (λ r, session_id r = sid) (rows s))).

(** The body of the loop of [latest_for_sessions]. *)
Definition latest_step (authorized_ids : gset UUID) (latest : gmap UUID Run) (r : Run)
    : gmap UUID Run :=
  if bool_decide (session_id r ∉ authorized_ids) then latest
  else
    match latest !! session_id r with
    | None => <[session_id r := r]> latest
    | Some current =>
        if key_ltb (run_key current) (run_key r) then <[session_id r := r]> latest
        else latest
    end.

Definition latest_for_sessions (sess : SessionRepo.t) (sids : list UUID) (p : Principal) (s : t)
    : gmap UUID Run :=
  let authorized_ids : gset UUID :=
    list_to_set (filter (λ sid, session_ok sess p sid = true) sids) in
  foldl (latest_step authorized_ids) ∅ (rows s).

Definition child_for_parent (sess : SessionRepo.t) (parent : UUID) (k : RunKind)
    (p : Principal) (s : t) : result (option Run) :=
  let matching := filter (λ r, parent_run_id r = Some parent ∧ kind r = k) (rows s) in
  match matching with
  | [] => Ok None
  | first :: _ =>
      raise_if (1 <? Z.of_nat (length matching))
        with ConflictError "parent has multiple child runs of one kind";
      _ ← SessionRepo.get sess (session_id first) p;
      Ok (Some first)
  end.

(** The loop of [waiting_for_user]: skip foreign sessions, stop at [limit]. *)
Fixpoint collect_owned (sess : SessionRepo.t) (p : Principal) (limit : nat) (rs : list Run)
    : list Run :=
  match limit, rs with
  | O, _ | _, [] => []
  | S n, r :: rest =>
      if session_ok sess p (session_id r) then r :: collect_owned sess p n rest
      else collect_owned sess p limit rest
  end.

Definition waiting_for_user (sess : SessionRepo.t) (p : Principal) (limit : nat)
    (after_id : option UUID) (s : t) : list Run :=
  let candidates := sort_asc (λ r, (0, id r)) (filter (λ r,
    status r = WAITING_FOR_USER ∧
    match after_id with None => true | Some a => (a <? id r)%N end = true) (rows s)) in
  collect_owned sess p limit candidates.

Definition request_cancellation (run_id : UUID) (expected_status : RunStatus) (now : datetime)
    (s : t) : result Run * t :=
  match _runs s !! run_id with
  | None => (Raise (NotFoundError "run not found"), s)
  | Some current =>
      if bool_decide (status current ≠ expected_status) then
        (Raise (ConflictError ("cancellation request expected " +:+ RunStatus_value expected_status
           +:+ ", found " +:+ RunStatus_value (status current))), s)
      else
        let updated := current
          <| cancel_requested_at := Some (default now (cancel_requested_at current)) |>
          <| updated_at := now |> in
        (Ok updated, set_run run_id updated s)
  end.

Definition transition (run_id : UUID) (expected_status new_status : RunStatus)
    (fl : option RunFailure) (msg : option string) (lease : option WorkerLease)
    (now : datetime) (s : t) : result Run * t :=
  if bool_decide (is_Some lease) then
    (Raise (NotImplementedError "the in-memory repository does not support worker leases"), s)
  else
  match _runs s !! run_id with
  | None => (Raise (NotFoundError "run not found"), s)
  | Some current =>
      if bool_decide (status current ≠ expected_status) then
        (Raise (ConflictError ("expected " +:+ RunStatus_value expected_status +:+ ", found " +:+
           RunStatus_value (status current))), s)
      else
      match require_transition (status current) new_status with
      | Raise e => (Raise e, s)
      | Ok _ =>
          let erased := bool_decide (is_Some (_people_erased_runs s !! run_id)) in
          let final_message' := if erased then None else msg in
          let typed_failure := if erased then None else fl in
          let updated := current <| status := new_status |> <| failure := typed_failure |>
            <| final_message := final_message' |> <| updated_at := now |> in
          (Ok updated, set_run run_id updated s)
      end
  end.

Definition update_counters (run : Run) (lease : option WorkerLease) (s : t) : result unit * t :=
  if bool_decide (is_Some lease) then
    (Raise (NotImplementedError "the in-memory repository does not support worker leases"), s)
  else
  match _runs s !! id run with
  | None => (Raise (NotFoundError "run not found"), s)
  | Some current =>
      if bool_decide (status current ≠ status run) then
        (Raise (ConflictError "counter update may not change run status"), s)
      else
        let updated := current <| step_count := step_count run |>
          <| model_call_count := model_call_count run |>
          <| tool_call_count := tool_call_count run |>
          <| usage := usage run |> <| updated_at := updated_at run |> in
        let supplied :=
          if bool_decide (cancel_requested_at run = None) &&
             bool_decide (cancel_requested_at current ≠ None)
          then run <| cancel_requested_at := cancel_requested_at current |> else run in
        if negb (Run_eqb supplied updated) then
          (Raise (ConflictError "counter update may change only counters and usage"), s)
        else (Ok tt, set_run (id run) updated s)
  end.

Definition set_waiting_limits (run_id : UUID) (l : RunLimits) (now : datetime) (s : t)
    : result Run * t :=
  match _runs s !! run_id with
  | None => (Raise (NotFoundError "run not found"), s)
  | Some current =>
      if bool_decide (status current ≠ WAITING_FOR_USER) then
        (Raise (ConflictError "only a run waiting for its owner takes new limits"), s)
      else if bool_decide (deadline_at l ≠ run_deadline_at current) then
        (Raise (ConflictError "new limits cannot move the run's deadline"), s)
      else
        let updated := current <| limits := l |> <| updated_at := now |> in
        (Ok updated, set_run run_id updated s)
  end.

Definition set_seed_event_sequence (run_id : UUID) (sequence : Z) (now : datetime) (s : t)
    : result unit * t :=
  match _runs s !! run_id with
  | None => (Raise (NotFoundError "run not found"), s)
  | Some current =>
      if negb (seed_event_sequence current =? 0) then
        (Raise (ConflictError "run seed sequence was already assigned"), s)
      else (Ok tt, set_run run_id
             (current <| seed_event_sequence := sequence |> <| updated_at := now |>) s)
  end.

Definition set_provider_pin (run_id : UUID) (pin : ProviderPin) (now : datetime) (s : t)
    : result unit * t :=
  match _runs s !! run_id with
  | None => (Raise (NotFoundError "run not found"), s)
  | Some current =>
      if bool_decide (provider_pin current ≠ None) &&
         bool_decide (provider_pin current ≠ Some pin) then
        (Raise (ConflictError "run provider pin is immutable"), s)
      else (Ok tt, set_run run_id
             (current <| provider_pin := Some pin |> <| updated_at := now |>) s)
  end.

Definition with_run (x : result Run * t) : result (option Run) * t := (Some <$> x.1, x.2).
Definition without_run (x : result unit * t) : result (option Run) * t :=
  ((λ _, None) <$> x.1, x.2).

Definition perform_memory (c : call) (s : t) : result (option Run) * t :=
  match c with
  | Create r => without_run (create r s)
  | RequestCancellation i e now => with_run (request_cancellation i e now s)
  | Transition i e n fl msg l now => with_run (transition i e n fl msg l now s)
  | UpdateCounters r l => without_run (update_counters r l s)
  | SetWaitingLimits i l now => with_run (set_waiting_limits i l now s)
  | SetSeedEventSequence i n now => without_run (set_seed_event_sequence i n now s)
  | SetProviderPin i pin now => without_run (set_provider_pin i pin now s)
  end.

#[global] Instance repository : RunRepository t :=
  {| runs_of := _runs; perform := perform_memory; repo_ok := λ _, True |}.

(** ** The mutating methods keep the contract *)
Lemma perform_memory_raise c s e s' : perform_memory c s = (Raise e, s') → s' = s.
Proof.
  destruct c; unfold perform_memory, with_run, without_run, create, request_cancellation,
    transition, update_counters, set_waiting_limits, set_seed_event_sequence, set_provider_pin;
    repeat (case_match; cbn [fst snd]); intros Hp; by inversion Hp.
Qed.

Lemma elem_of_rows s r : r ∈ rows s ↔ ∃ i, _runs s !! i = Some r.
Proof.
  unfold rows. rewrite list_elem_of_fmap. setoid_rewrite elem_of_map_to_list'.
  split; [intros ([i a] & -> & H); eauto|]. intros [i H]. by exists (i, r).
Qed.

Lemma any_false f s : any f s = false ↔ ∀ i r, _runs s !! i = Some r → f r = false.
Proof.
  unfold any. rewrite <- not_true_iff_false, existsb_exists. split.
  - intros Hno i r Hr. apply not_true_iff_false. intros Hf. apply Hno. exists r.
    rewrite <- list_elem_of_In, elem_of_rows. eauto.
  - intros Hall (r & Hr & Hf). apply list_elem_of_In, elem_of_rows in Hr as [i Hr].
    by rewrite (Hall i r Hr) in Hf.
Qed.

Lemma mem_create_spec r s s' :
  create r s = (Ok tt, s') → spec_create (_runs s) r ∧ s' = set_run (id r) r s.
Proof.
  unfold create. case_bool_decide as Hn; [done|].
  destruct (negb _ && _) eqn:Hl; [done|].
  destruct (bool_decide _ && _ && _) eqn:Hk; [done|]. intros [= <-]. split; [|done].
  split; [by apply eq_None_not_Some|]. split.
  - intros Ht i x Hx [Hsx Htx]. rewrite Ht in Hl. simpl in Hl. rewrite any_false in Hl.
    specialize (Hl i x Hx). rewrite bool_decide_true, Htx in Hl by done. done.
  - intros p [Hp Hkr] i x Hx [Hpx Hkx]. rewrite Hp, Hkr in Hk. simpl in Hk.
    rewrite any_false in Hk. specialize (Hk i x Hx).
    rewrite !bool_decide_true in Hk by congruence. done.
Qed.

Ltac frame := unfold same_frame, same_counters; by repeat split.

(** A method that replaced the run [i] it found. *)
Lemma mem_replaced_spec c i cur new s :
  target c = i → _runs s !! i = Some cur → (∀ r, c ≠ Create r) → spec_change c cur new →
  spec_step c (_runs s) (_runs (set_run i new s)) ∧
  ∀ r, Some new = Some r → _runs (set_run i new s) !! target c = Some r.
Proof.
  intros <- Hc Hn Hs. split.
  - destruct c; try (by exists cur, new). by destruct (Hn run).
  - intros r [= <-]. apply lookup_insert_eq.
Qed.

Lemma mem_request_cancellation_ok i e now s r s' :
  request_cancellation i e now s = (Ok r, s') →
  ∃ cur, _runs s !! i = Some cur ∧ s' = set_run i r s ∧
         spec_change (RequestCancellation i e now) cur r.
Proof.
  unfold request_cancellation. destruct (_runs s !! i) as [cur|]; [|done].
  case_bool_decide as Hst; [done|]. intros [= <- <-]. exists cur. do 2 (split; [done|]).
  split; [frame|]. by repeat split.
Qed.

Lemma mem_transition_ok i e n fl msg l now s r s' :
  transition i e n fl msg l now s = (Ok r, s') →
  ∃ cur, _runs s !! i = Some cur ∧ s' = set_run i r s ∧
         spec_change (Transition i e n fl msg l now) cur r.
Proof.
  unfold transition. case_bool_decide; [done|]. destruct (_runs s !! i) as [cur|]; [|done].
  case_bool_decide as Hst; [done|].
  destruct (require_transition _ _) as [[]|] eqn:He; [|done].
  apply require_transition_ok in He. intros [= <- <-]. exists cur. do 2 (split; [done|]).
  split; [frame|]. rewrite <- Hst. repeat split; try done; simpl; case_bool_decide; auto.
Qed.

Lemma mem_update_counters_ok run l s s' :
  update_counters run l s = (Ok tt, s') →
  ∃ cur new, _runs s !! id run = Some cur ∧ s' = set_run (id run) new s ∧
             spec_change (UpdateCounters run l) cur new.
Proof.
  unfold update_counters. case_bool_decide; [done|].
  destruct (_runs s !! id run) as [cur|]; [|done]. case_bool_decide as Hst; [done|].
  destruct (negb _); [done|]. intros [= <-]. eexists cur, _. do 2 (split; [done|]).
  split; [frame|]. by repeat split.
Qed.

Lemma mem_set_waiting_limits_ok i l now s r s' :
  set_waiting_limits i l now s = (Ok r, s') →
  ∃ cur, _runs s !! i = Some cur ∧ s' = set_run i r s ∧
         spec_change (SetWaitingLimits i l now) cur r.
Proof.
  unfold set_waiting_limits. destruct (_runs s !! i) as [cur|]; [|done].
  case_bool_decide as Hst; [done|]. case_bool_decide; [done|].
  intros [= <- <-]. exists cur. do 2 (split; [done|]). split; [frame|]. by repeat split.
Qed.

Lemma mem_set_seed_event_sequence_ok i n now s s' :
  set_seed_event_sequence i n now s = (Ok tt, s') →
  ∃ cur new, _runs s !! i = Some cur ∧ s' = set_run i new s ∧
             spec_change (SetSeedEventSequence i n now) cur new.
Proof.
  unfold set_seed_event_sequence. destruct (_runs s !! i) as [cur|]; [|done].
  destruct (negb _) eqn:Hz; [done|]. intros [= <-]. eexists cur, _. do 2 (split; [done|]).
  split; [frame|]. apply negb_false_iff, Z.eqb_eq in Hz. by repeat split.
Qed.

Lemma mem_set_provider_pin_ok i pin now s s' :
  set_provider_pin i pin now s = (Ok tt, s') →
  ∃ cur new, _runs s !! i = Some cur ∧ s' = set_run i new s ∧
             spec_change (SetProviderPin i pin now) cur new.
Proof.
  unfold set_provider_pin. destruct (_runs s !! i) as [cur|]; [|done].
  destruct (bool_decide _ && _) eqn:Hz; [done|]. intros [= <-]. eexists cur, _.
  do 2 (split; [done|]). split; [frame|]. repeat split.
  apply andb_false_iff in Hz as [Hz%bool_decide_eq_false|Hz%bool_decide_eq_false];
    apply dec_stable in Hz; auto.
Qed.

Lemma perform_memory_ok c s v s' :
  perform_memory c s = (Ok v, s') →
  spec_step c (_runs s) (_runs s') ∧ ∀ r, v = Some r → _runs s' !! target c = Some r.
Proof.
  intros Hp. destruct c; unfold perform_memory, with_run, without_run in Hp;
    lazymatch type of Hp with context [fst ?x] => destruct x as [[u|] s''] eqn:Hc end;
    try done; injection Hp as <- <-; try destruct u.
  - apply mem_create_spec in Hc as [Hc ->]. done.
  - apply mem_request_cancellation_ok in Hc as (cur & Hc & -> & Hs). by eapply mem_replaced_spec.
  - apply mem_transition_ok in Hc as (cur & Hc & -> & Hs). by eapply mem_replaced_spec.
  - apply mem_update_counters_ok in Hc as (cur & new & Hc & -> & Hs).
    split; [|done]. by eapply mem_replaced_spec.
  - apply mem_set_waiting_limits_ok in Hc as (cur & Hc & -> & Hs). by eapply mem_replaced_spec.
  - apply mem_set_seed_event_sequence_ok in Hc as (cur & new & Hc & -> & Hs).
    split; [|done]. by eapply mem_replaced_spec.
  - apply mem_set_provider_pin_ok in Hc as (cur & new & Hc & -> & Hs).
    split; [|done]. by eapply mem_replaced_spec.
Qed.

#[global] Instance repository_laws : RunRepositoryLaws t.
Proof.
  split.
  - exact perform_memory_raise.
  - intros c s v s' _ Hp. split; [done|]. by apply perform_memory_ok.
Qed.

(** ** Readers *)
Lemma newer_spec best r :
  ∃ c, newer best r = Some c ∧ (best = Some c ∨ c = r) ∧ key_leb (run_key r) (run_key c) = true ∧
       ∀ b, best = Some b → key_leb (run_key b) (run_key c) = true.
Proof.
  destruct best as [b|]; simpl;
    [|exists r; split; [done|]; split; [auto|]; split; [apply key_leb_refl|done]].
  destruct (key_ltb _ _) eqn:E.
  - apply key_ltb_le in E. exists r. split; [done|]. split; [auto|].
    split; [apply key_leb_refl|]. by intros ? [= <-].
  - rewrite key_ltb_leb in E. apply negb_false_iff in E. exists b. split; [done|].
    split; [auto|]. split; [done|]. intros ? [= <-]. apply key_leb_refl.
Qed.

(** The fold keeps a greatest element of what it has seen. *)
Lemma fold_newer_spec rs best :
  (best ≠ None ∨ rs ≠ []) →
  ∃ c, foldl newer best rs = Some c ∧ (best = Some c ∨ c ∈ rs) ∧
       (∀ r, r ∈ rs → key_leb (run_key r) (run_key c) = true) ∧
       ∀ b, best = Some b → key_leb (run_key b) (run_key c) = true.
Proof.
  revert best. induction rs as [|r rs IH]; intros best Hne; simpl.
  - destruct best as [b|]; [|naive_solver]. exists b. split; [done|]. split; [auto|].
    split; [set_solver|]. intros ? [= <-]. apply key_leb_refl.
  - destruct (newer_spec best r) as (c & -> & Hc & Hr & Hb).
    destruct (IH (Some c)) as (d & -> & Hd & Hall & Hcd); [by left|].
    specialize (Hcd c eq_refl). exists d. split; [done|]. split.
    + destruct Hd as [[= <-]|Hd]; [|set_solver]. destruct Hc as [->| ->]; set_solver.
    + split.
      * intros x [->|Hx]%elem_of_cons; [by eapply key_leb_trans|auto].
      * intros b Hbb. eapply key_leb_trans; eauto.
Qed.

Lemma latest_None rs : latest rs = None ↔ rs = [].
Proof.
  split; [|by intros ->]. intros H. destruct rs as [|r rs]; [done|].
  destruct (fold_newer_spec (r :: rs) None) as (c & Hc & _); [by right|].
  unfold latest in H. congruence.
Qed.

Lemma latest_Some rs r :
  latest rs = Some r → r ∈ rs ∧ ∀ x, x ∈ rs → key_leb (run_key x) (run_key r) = true.
Proof.
  intros H. destruct (decide (rs = [])) as [->|Hne]; [done|].
  destruct (fold_newer_spec rs None) as (c & Hc & Hin & Hall & _); [by right|].
  unfold latest in H. rewrite Hc in H. injection H as ->. split; [|done].
  by destruct Hin.
Qed.

(** The batched reader keeps, per authorised session, the fold of the single one. *)
Lemma latest_fold_lookup (ids : gset UUID) rs m sid :
  foldl (latest_step ids) m rs !! sid =
  if bool_decide (sid ∈ ids) then foldl newer (m !! sid) (filter (λ r, session_id r = sid) rs)
  else m !! sid.
Proof.
  revert m. induction rs as [|r rs IH]; intros m; simpl; [by case_bool_decide|].
  rewrite IH, filter_cons. unfold latest_step. case_bool_decide as Hin.
  - destruct (decide (session_id r = sid)) as [<-|Hne]; simpl.
    + rewrite bool_decide_false by tauto. f_equal. destruct (m !! session_id r) eqn:E; simpl.
      * destruct (key_ltb _ _); [apply lookup_insert_eq|done].
      * apply lookup_insert_eq.
    + f_equal. repeat case_match; try done; by apply lookup_insert_ne.
  - case_bool_decide as Hr; [done|]. repeat case_match; try done;
      apply lookup_insert_ne; set_solver.
Qed.

Lemma collect_owned_take sess p limit rs :
  collect_owned sess p limit rs =
  take limit (filter (λ r, session_ok sess p (session_id r) = true) rs).
Proof.
  revert limit. induction rs as [|r rs IH]; intros [|n]; simpl; try done.
  rewrite filter_cons. destruct (session_ok _ _ _) eqn:E; simpl.
  - by rewrite IH.
  - apply (IH (S n)).
Qed.

Lemma rows_live_unique s sid :
  store_inv (_runs s) →
  (length (filter (λ r, session_id r = sid ∧ is_terminal (status r) = false) (rows s)) ≤ 1)%nat.
Proof.
  intros Hinv.
  destruct (filter _ _) as [|a [|b l]] eqn:E; simpl; try lia. exfalso.
  assert (Hnd : NoDup (rows s)).
  { apply (table_NoDup id), inv_id, Hinv. }
  assert (Ha : a ∈ filter (λ r, session_id r = sid ∧ is_terminal (status r) = false) (rows s))
    by (rewrite E; set_solver).
  assert (Hb : b ∈ filter (λ r, session_id r = sid ∧ is_terminal (status r) = false) (rows s))
    by (rewrite E; set_solver).
  apply (NoDup_filter (λ r, session_id r = sid ∧ is_terminal (status r) = false)) in Hnd.
  rewrite E in Hnd. apply list_elem_of_filter in Ha as [Hla [i Hi]%elem_of_rows].
  apply list_elem_of_filter in Hb as [Hlb [j Hj]%elem_of_rows].
  assert (i = j) as <- by (by eapply (inv_live _ Hinv)).
  assert (a = b) as <- by congruence. apply NoDup_cons in Hnd as [Hnd _]. set_solver.
Qed.
End RunStore.

(** ** Properties *)
Import RunStore.

(** C30: The in-memory repository implements the contract: a call that raises
    leaves the store as it was, and a call that returns has made a change the
    contract allows, and answers with the run as it is now stored. *)
Theorem memory_refines_contract c (s : RunStore.t) :
  match perform c s with
  | (Raise _, s') => s' = s
  | (Ok v, s') => spec_step c (runs_of s) (runs_of s') ∧
                  ∀ r, v = Some r → runs_of s' !! target c = Some r
  end.
Proof.
  destruct (perform c s) as [[v|e] s'] eqn:E.
  - by apply perform_memory_ok.
  - by eapply perform_memory_raise.
Qed.

(** [transition] succeeds exactly when the run exists, is in the status the
    caller expects and the edge is one of the state machine (and no worker lease
    is presented, which this tier refuses); nobody can move a run the caller's
    view of which is stale. *)
Theorem transition_succeeds_iff i expected new fl msg lease now s :
  is_ok (transition i expected new fl msg lease now s).1 = true ↔
  lease = None ∧ ∃ cur, _runs s !! i = Some cur ∧ status cur = expected ∧ edge expected new.
Proof.
  unfold transition. case_bool_decide as Hl.
  { split; [done|]. intros [-> _]. by destruct Hl. }
  assert (lease = None) as -> by (by apply eq_None_not_Some).
  destruct (_runs s !! i) as [cur|]; [|naive_solver].
  case_bool_decide as Hs; [naive_solver|].
  destruct (require_transition _ _) as [[]|] eqn:He; simpl.
  - apply require_transition_ok in He. split; [|done]. intros _. split; [done|].
    exists cur. by rewrite <- Hs.
  - split; [done|]. intros (_ & c & [= <-] & _ & Hed).
    rewrite <- Hs in Hed. apply require_transition_ok in Hed. congruence.
Qed.

(** The batched reader is the single one, session by session: an owned session
    asked for maps to its newest run (the greatest by creation instant, then id),
    and sessions not asked for, not owned or without runs are absent. *)
Theorem latest_for_sessions_agrees sess sids p s sid :
  latest_for_sessions sess sids p s !! sid =
  if bool_decide (sid ∈ sids) then
    match latest_for_session sess sid p s with Ok r => r | Raise _ => None end
  else None.
Proof.
  unfold latest_for_sessions, latest_for_session. rewrite latest_fold_lookup, lookup_empty.
  case_bool_decide as Hin.
  - apply elem_of_list_to_set, list_elem_of_filter in Hin as [Hok Hin].
    rewrite bool_decide_true by done. unfold session_ok in Hok.
    by destruct (SessionRepo.get sess sid p).
  - case_bool_decide as Hs; [|done].
    destruct (SessionRepo.get sess sid p) eqn:E; [|done]. destruct Hin.
    apply elem_of_list_to_set, list_elem_of_filter. unfold session_ok. by rewrite E.
Qed.

(** On every store the repository can reach, the live run of a session is
    unique and [active_for_session] returns it: the caller learns of no other
    session's run, and the [multiple active runs] error is unreachable. *)
Theorem active_for_session_exact cs sess sid p :
  let s := run_calls cs {| _runs := ∅; _people_erased_runs := ∅ |} in
  match active_for_session sess sid p s with
  | Raise e => SessionRepo.get sess sid p = Raise e
  | Ok None => is_ok (SessionRepo.get sess sid p) = true ∧
               ∀ i r, _runs s !! i = Some r → ¬ live_in sid r
  | Ok (Some r) => is_ok (SessionRepo.get sess sid p) = true ∧ live_in sid r ∧
               ∀ i x, _runs s !! i = Some x → live_in sid x → x = r
  end.
Proof.
  intros s. assert (Hinv : store_inv (_runs s))
    by exact (proj2 (run_calls_inv cs
      {| _runs := ∅; _people_erased_runs := ∅ |} I store_inv_empty)).
  unfold active_for_session. destruct (SessionRepo.get sess sid p); simpl; [|done].
  pose proof (rows_live_unique s sid Hinv) as Hlen.
  assert (Hin : ∀ r, r ∈ filter (λ r, session_id r = sid ∧ is_terminal (status r) = false) (rows s)
                ↔ live_in sid r ∧ ∃ i, _runs s !! i = Some r)
    by (intros r; by rewrite list_elem_of_filter, elem_of_rows).
  rewrite (proj2 (Z.ltb_ge _ _)) by lia.
  destruct (filter _ _) as [|r [|r' l]]; simpl in *; [| |lia]; split; try done.
  - intros i r Hr Hl. apply (not_elem_of_nil r), Hin. eauto.
  - assert (r ∈ [r]) as [Hl _]%Hin by set_solver. split; [done|]. intros i x Hx Hlx.
    assert (x ∈ [r]) by (apply Hin; eauto). set_solver.
Qed.

(** ** Witnesses *)
Definition empty_store : RunStore.t := {| _runs := ∅; _people_erased_runs := ∅ |}.
Definition sample_calls : list call :=
  [Create (sample_run 1 9 QUEUED); Create (sample_run 2 9 QUEUED);
   Transition 1 QUEUED RUNNING None None None 6;
   RequestCancellation 1 RUNNING 7;
   Transition 1 RUNNING COMPLETED None (Some "done"%string) None 8;
   Transition 1 COMPLETED QUEUED None None None 9;
   RequestCancellation 1 COMPLETED 10].
Definition one_run_store : RunStore.t :=
  {| _runs := {[ 1%N := sample_run 1 9 QUEUED ]}; _people_erased_runs := ∅ |}.

Lemma memory_ok (s : RunStore.t) : repo_ok s.
Proof. exact I. Qed.

Lemma run_history_evolves_witness :
  ∃ b, runs_of (run_calls sample_calls one_run_store) !! 1%N = Some b ∧
       evolves (sample_run 1 9 QUEUED) b ∧ status b = COMPLETED ∧
       cancel_requested_at b = Some 7.
Proof.
  destruct (run_history_evolves (S:=RunStore.t) sample_calls one_run_store 1%N (sample_run 1 9 QUEUED)
    (memory_ok _) eq_refl)
    as (b & Hb & He).
  exists b. split; [exact Hb|]. split; [exact He|].
  vm_compute in Hb. injection Hb as <-. split; reflexivity.
Defined.

Lemma one_live_run_per_session_witness :
  store_inv (runs_of (run_calls sample_calls empty_store)).
Proof. apply (one_live_run_per_session (S:=RunStore.t)); [apply memory_ok|apply store_inv_empty]. Defined.

Lemma deadline_consistent_witness :
  deadlines_match (runs_of (run_calls sample_calls empty_store)).
Proof.
  apply (deadline_consistent (S:=RunStore.t)); [apply memory_ok|by repeat constructor|]. intros i r H. done.
Defined.
