(* ===== verification/RunRows.v ===== *)
(** * The PostgreSQL run repository ([adapters/persistence/repositories.py])

    [PostgresRunRepository] over the [runs] table of [sqlalchemy_models.py], with
    its partial unique indexes. One SQL statement is one atomic step: an UPDATE
    with its WHERE guard and RETURNING reads and writes the row under its lock.
    [_raise_guard_failure] reads the row in the same transaction. A row holds the
    run as stored; [run_to_domain] hides the result of an erased run. The JSON
    columns are modelled by the values they encode. *)
From S2P Require Import Prelude PyDecimal RunModel Sessions RunSpec.

Module RunRows.
Record RunRow := {
  columns : Run;
  people_erased_at : option datetime;
}.
#[global] Instance RunRow_eta : Eta RunRow := λ r,
  {| columns := columns r; people_erased_at := people_erased_at r |}.

(** [runs] and the sessions it references. *)
Record t := {
  runs : gmap UUID RunRow;
  sessions : gmap UUID Session.t;
}.
#[global] Instance eta_t : Eta t := λ d, {| runs := runs d; sessions := sessions d |}.

(** [mappers.run_to_domain] *)
Definition run_to_domain (r : RunRow) : Run :=
  match people_erased_at r with
  | None => columns r
  | Some _ => (columns r) <| failure := None |> <| final_message := None |>
  end.

Definition set_row (i : UUID) (c : Run) (r : RunRow) (d : t) : t :=
  d <| runs := <[i := r <| columns := c |>]> (runs d) |>.
Definition stored (d : t) : list RunRow := (map_to_list (runs d)).*2.
Definition any_row (f : Run → bool) (d : t) : bool :=
  existsb (λ r, f (columns r)) (stored d).

(** INSERT ... ON CONFLICT (id) DO NOTHING under [execute_run_insert]: the
    partial unique indexes [uq_runs_one_active_per_session] and
    [uq_runs_parent_skill_review], then the foreign keys. The answer is the
    row count. *)
Definition execute_run_insert (run : Run) (d : t) : result bool * t :=
  if bool_decide (is_Some (runs d !! id run)) then (Ok false, d)
  else if negb (is_terminal (status run)) &&
          any_row (λ c, bool_decide (session_id c = session_id run) &&
                        negb (is_terminal (status c))) d then
    (Raise (ConflictError "session already has a non-terminal run"), d)
  else if bool_decide (is_Some (parent_run_id run)) && bool_decide (kind run = SKILL_REVIEW) &&
          any_row (λ c, bool_decide (parent_run_id c = parent_run_id run) &&
                        bool_decide (kind c = SKILL_REVIEW)) d then
    (Raise (ConflictError "parent run already has a skill review"), d)
  else if bool_decide (sessions d !! session_id run = None) then
    (Raise (IntegrityError "runs.session_id"), d)
  else if match parent_run_id run with
          | None => false
          | Some p => bool_decide (runs d !! p = None) && bool_decide (p ≠ id run)
          end then
    (Raise (IntegrityError "runs.parent_run_id"), d)
  else (Ok true, d <| runs := <[id run := {| columns := run; people_erased_at := None |}]>
                              (runs d) |>).

Definition create (run : Run) (d : t) : result unit * t :=
  match execute_run_insert run d with
  | (Raise e, d') => (Raise e, d')
  | (Ok inserted, d') =>
      if inserted then (Ok tt, d') else (Raise (ConflictError "run already exists"), d')
  end.

(** [_lease_predicates] on a row. *)
Definition _lease_predicates (lease : option WorkerLease) (c : Run) : bool :=
  match lease with
  | None => true
  | Some l => bool_decide (lease_owner c = Some (worker_id l)) &&
              (lease_epoch c =? lease_epoch_held l)
  end.

Definition _raise_guard_failure (run_id : UUID) (expected_status : RunStatus)
    (lease : option WorkerLease) (operation : string) (d : t) : exn :=
  match runs d !! run_id with
  | None => NotFoundError "run not found"
  | Some r =>
      if negb (_lease_predicates lease (columns r)) then
        WorkerFencedError (operation +:+ " guard failed; worker was fenced")
      else ConflictError (operation +:+ " expected " +:+ RunStatus_value expected_status +:+
                          ", found " +:+ RunStatus_value (status (columns r)))
  end.

(** The row an UPDATE with the guard [id = run_id AND status = expected AND lease] finds. *)
Definition guarded (run_id : UUID) (expected_status : RunStatus) (lease : option WorkerLease)
    (d : t) : option RunRow :=
  r ← runs d !! run_id;
  if bool_decide (status (columns r) = expected_status) && _lease_predicates lease (columns r)
  then Some r else None.

Definition request_cancellation (run_id : UUID) (expected_status : RunStatus) (now : datetime)
    (d : t) : result Run * t :=
  match guarded run_id expected_status None d with
  | None => (Raise (_raise_guard_failure run_id expected_status None "cancellation request" d), d)
  | Some r =>
      let c := (columns r)
        <| cancel_requested_at := Some (default now (cancel_requested_at (columns r))) |>
        <| updated_at := now |> in
      (Ok (run_to_domain (r <| columns := c |>)), set_row run_id c r d)
  end.

Definition transition (run_id : UUID) (expected_status new_status : RunStatus)
    (fl : option RunFailure) (msg : option string) (lease : option WorkerLease)
    (now : datetime) (d : t) : result Run * t :=
  match require_transition expected_status new_status with
  | Raise e => (Raise e, d)
  | Ok _ =>
      let erased := match runs d !! run_id with
                    | None => false
                    | Some r => bool_decide (is_Some (people_erased_at r))
                    end in
      let final_message' := if erased then None else msg in
      let typed_failure := if erased then None else fl in
      match guarded run_id expected_status lease d with
      | None => (Raise (_raise_guard_failure run_id expected_status lease "run transition" d), d)
      | Some r =>
          let c := (columns r) <| status := new_status |> <| updated_at := now |> in
          let c := match typed_failure with None => c | Some f => c <| failure := Some f |> end in
          let c := match final_message' with
                   | None => c
                   | Some m => c <| final_message := Some m |>
                   end in
          (Ok (run_to_domain (r <| columns := c |>)), set_row run_id c r d)
      end
  end.

Definition update_counters (run : Run) (lease : option WorkerLease) (d : t) : result unit * t :=
  match guarded (id run) (status run) lease d with
  | None => (Raise (_raise_guard_failure (id run) (status run) lease "counter update" d), d)
  | Some r =>
      (Ok tt, set_row (id run)
        ((columns r) <| step_count := step_count run |>
           <| model_call_count := model_call_count run |>
           <| tool_call_count := tool_call_count run |>
           <| usage := usage run |> <| updated_at := updated_at run |>) r d)
  end.

Definition set_waiting_limits (run_id : UUID) (l : RunLimits) (now : datetime) (d : t)
    : result Run * t :=
  match runs d !! run_id with
  | None => (Raise (NotFoundError "run not found"), d)
  | Some r =>
      if bool_decide (status (columns r) ≠ WAITING_FOR_USER) then
        (Raise (ConflictError "only a run waiting for its owner takes new limits"), d)
      else if bool_decide (deadline_at l ≠ run_deadline_at (columns r)) then
        (Raise (ConflictError "new limits cannot move the run's deadline"), d)
      else
        let c := (columns r) <| limits := l |> <| updated_at := now |> in
        (Ok (run_to_domain (r <| columns := c |>)), set_row run_id c r d)
  end.

Definition set_seed_event_sequence (run_id : UUID) (sequence : Z) (now : datetime) (d : t)
    : result unit * t :=
  match runs d !! run_id with
  | None => (Raise (NotFoundError "run not found"), d)
  | Some r =>
      if seed_event_sequence (columns r) =? 0 then
        (Ok tt, set_row run_id
          ((columns r) <| seed_event_sequence := sequence |> <| updated_at := now |>) r d)
      else (Raise (ConflictError "run seed sequence was already assigned"), d)
  end.

Definition set_provider_pin (run_id : UUID) (pin : ProviderPin) (now : datetime) (d : t)
    : result unit * t :=
  match runs d !! run_id with
  | None => (Raise (NotFoundError "run not found"), d)
  | Some r =>
      match provider_pin (columns r) with
      | None =>
          (Ok tt, set_row run_id
            ((columns r) <| provider_pin := Some pin |> <| updated_at := now |>) r d)
      | Some existing =>
          if bool_decide (existing ≠ pin) then
            (Raise (ConflictError "run provider pin is immutable"), d)
          else (Ok tt, d)
      end
  end.

(** ** Readers: the joins with the owner's sessions *)
Definition owned_session (d : t) (p : Principal) (sid : UUID) : bool :=
  match sessions d !! sid with
  | None => false
  | Some s => owned_by (Session.tenant_id s) (Session.principal_id s) p
  end.
Definition joined (d : t) (p : Principal) : list Run :=
  columns <$> filter (λ r, owned_session d p (session_id (columns r)) = true) (stored d).

Definition get (run_id : UUID) (p : Principal) (d : t) : result Run :=
  match runs d !! run_id with
  | None => Raise (NotFoundError "run not found")
  | Some r =>
      raise_if negb (owned_session d p (session_id (columns r)))
        with NotFoundError "run not found";
      Ok (run_to_domain r)
  end.

Definition has_higher_priority_work (p : Principal) (prio : Z) (now : datetime) (d : t) : bool :=
  existsb (λ r, (priority r <? prio) && bool_decide (status r ∈ [QUEUED; RUNNING]) &&
    match scheduled_for r with None => true | Some at_ => at_ <=? now end) (joined d p).

Definition active_for_session (sid : UUID) (p : Principal) (d : t) : result (option Run) :=
  let rs := filter (λ r, owned_session d p sid = true ∧ session_id (columns r) = sid ∧
                         is_terminal (status (columns r)) = false) (stored d) in
  raise_if (1 <? Z.of_nat (length (take 2 rs)))
    with ConflictError "session has multiple active runs";
  Ok (run_to_domain <$> head rs).

Definition perform_rows (c : call) (d : t) : result (option Run) * t :=
  match c with
  | Create r => let (a, d') := create r d in ((λ _, None) <$> a, d')
  | RequestCancellation i e now =>
      let (a, d') := request_cancellation i e now d in (Some <$> a, d')
  | Transition i e n fl msg l now =>
      let (a, d') := transition i e n fl msg l now d in (Some <$> a, d')
  | UpdateCounters r l => let (a, d') := update_counters r l d in ((λ _, None) <$> a, d')
  | SetWaitingLimits i l now =>
      let (a, d') := set_waiting_limits i l now d in (Some <$> a, d')
  | SetSeedEventSequence i n now =>
      let (a, d') := set_seed_event_sequence i n now d in ((λ _, None) <$> a, d')
  | SetProviderPin i pin now =>
      let (a, d') := set_provider_pin i pin now d in ((λ _, None) <$> a, d')
  end.

(** ** The contract *)
Lemma perform_rows_raise c d e d' : perform_rows c d = (Raise e, d') → d' = d.
Proof.
  destruct c; unfold perform_rows, create, execute_run_insert, request_cancellation,
    transition, update_counters, set_waiting_limits, set_seed_event_sequence, set_provider_pin;
    repeat (case_match; cbn [fst snd]); intros Hp; simplify_eq; done.
Qed.

#[global] Instance repository : RunRepository t :=
  {| runs_of := λ d, run_to_domain <$> runs d; perform := perform_rows;
     repo_ok := λ _, True |}.

Lemma to_domain_fields r :
  run_to_domain r = columns r ∨
  run_to_domain r = (columns r) <| failure := None |> <| final_message := None |>.
Proof. unfold run_to_domain. destruct (people_erased_at r); auto. Qed.

(** Hiding an erased result keeps the contract. *)
Lemma to_domain_change c r new :
  spec_change c (columns r) new →
  spec_change c (run_to_domain r) (run_to_domain (r <| columns := new |>)).
Proof.
  unfold run_to_domain. simpl. destruct (people_erased_at r); [|done].
  intros (Hf & Hc & Hl & Hx & Hp & Hn & Ho & Hs).
  split; [exact Hf|]. split; [destruct c; exact Hc|]. split; [exact Hl|].
  split; [exact Hx|]. split; [exact Hp|]. split; [exact Hn|]. split.
  - destruct c; try done; unfold outcome in *; simpl; by injection Ho as ->.
  - destruct c; try done. destruct Hs as (? & ? & ? & _). simpl. auto 8.
Qed.

Ltac frame := unfold same_frame, same_counters; by repeat split.

Lemma guarded_Some i e l d r :
  guarded i e l d = Some r ↔
  runs d !! i = Some r ∧ status (columns r) = e ∧ _lease_predicates l (columns r) = true.
Proof.
  unfold guarded. rewrite bind_Some. split.
  - intros (x & Hx & Hg). destruct (bool_decide _ && _) eqn:E; [|done].
    injection Hg as ->. apply andb_true_iff in E as [E%bool_decide_eq_true ?]. done.
  - intros (Hr & He & Hl). exists r. by rewrite Hr, Hl, bool_decide_true.
Qed.

Lemma row_request_cancellation_ok i e now d v d' :
  request_cancellation i e now d = (Ok v, d') →
  ∃ r new, runs d !! i = Some r ∧ d' = set_row i new r d ∧
    v = run_to_domain (r <| columns := new |>) ∧
    spec_change (RequestCancellation i e now) (columns r) new.
Proof.
  unfold request_cancellation. destruct (guarded i e None d) as [r|] eqn:E; [|done].
  apply guarded_Some in E as (Hr & <- & _). intros [= <- <-].
  eexists r, _. do 3 (split; [done|]). split; [frame|]. by repeat split.
Qed.

Lemma row_transition_ok i e n fl msg l now d v d' :
  transition i e n fl msg l now d = (Ok v, d') →
  ∃ r new, runs d !! i = Some r ∧ d' = set_row i new r d ∧
    v = run_to_domain (r <| columns := new |>) ∧
    (people_erased_at r = None → spec_change (Transition i e n fl msg l now) (columns r) new) ∧
    spec_change (Transition i e n fl msg l now) (run_to_domain r)
      (run_to_domain (r <| columns := new |>)).
Proof.
  unfold transition. destruct (require_transition e n) as [[]|] eqn:He; [|done].
  apply require_transition_ok in He.
  destruct (guarded i e l d) as [r|] eqn:E; [|done].
  apply guarded_Some in E as (Hr & <- & _). rewrite Hr. intros [= <- <-].
  eexists r, _. do 3 (split; [done|]). unfold run_to_domain. simpl.
  destruct (people_erased_at r); simpl.
  - split; [done|]. split; [frame|]. repeat split; auto.
  - split; [intros _|]; (split; [destruct fl, msg; frame|]); destruct fl, msg;
      repeat split; simpl; auto.
Qed.

Lemma row_update_counters_ok run l d d' :
  update_counters run l d = (Ok tt, d') →
  ∃ r new, runs d !! id run = Some r ∧ d' = set_row (id run) new r d ∧
    spec_change (UpdateCounters run l) (columns r) new.
Proof.
  unfold update_counters. destruct (guarded _ _ l d) as [r|] eqn:E; [|done].
  apply guarded_Some in E as (Hr & He & _). intros [= <-].
  eexists r, _. do 2 (split; [done|]). split; [frame|]. by repeat split.
Qed.

Lemma row_set_waiting_limits_ok i l now d v d' :
  set_waiting_limits i l now d = (Ok v, d') →
  ∃ r new, runs d !! i = Some r ∧ d' = set_row i new r d ∧
    v = run_to_domain (r <| columns := new |>) ∧
    spec_change (SetWaitingLimits i l now) (columns r) new.
Proof.
  unfold set_waiting_limits. destruct (runs d !! i) as [r|]; [|done].
  case_bool_decide; [done|]. case_bool_decide; [done|]. intros [= <- <-].
  eexists r, _. do 3 (split; [done|]). split; [frame|]. by repeat split.
Qed.

Lemma row_set_seed_event_sequence_ok i n now d d' :
  set_seed_event_sequence i n now d = (Ok tt, d') →
  ∃ r new, runs d !! i = Some r ∧ d' = set_row i new r d ∧
    spec_change (SetSeedEventSequence i n now) (columns r) new.
Proof.
  unfold set_seed_event_sequence. destruct (runs d !! i) as [r|]; [|done].
  destruct (Z.eqb_spec (seed_event_sequence (columns r)) 0); [|done]. intros [= <-].
  eexists r, _. do 2 (split; [done|]). split; [frame|]. by repeat split.
Qed.

Lemma row_set_provider_pin_ok i pin now d d' :
  set_provider_pin i pin now d = (Ok tt, d') →
  ∃ r new, runs d !! i = Some r ∧ d' = set_row i new r d ∧
    spec_change (SetProviderPin i pin now) (columns r) new.
Proof.
  unfold set_provider_pin. destruct (runs d !! i) as [r|] eqn:Hr; [|done].
  destruct (provider_pin (columns r)) as [x|] eqn:Hx.
  - case_bool_decide as Hp; [done|]. subst x. intros [= <-].
    exists r, (columns r). split; [done|]. split.
    { unfold set_row. destruct d; simpl in *. rewrite insert_id; [done|]. rewrite Hr.
      by destruct r. }
    split; [frame|]. repeat split; auto.
  - intros [= <-]. eexists r, _. do 2 (split; [done|]). split; [frame|]. repeat split; auto.
Qed.

Lemma elem_of_stored d r : r ∈ stored d ↔ ∃ i, runs d !! i = Some r.
Proof.
  unfold stored. rewrite list_elem_of_fmap. setoid_rewrite elem_of_map_to_list'.
  split; [intros ([i a] & -> & H); eauto|]. intros [i H]. by exists (i, r).
Qed.

Lemma any_row_false f d :
  any_row f d = false ↔ ∀ i r, runs d !! i = Some r → f (columns r) = false.
Proof.
  unfold any_row. rewrite <- not_true_iff_false, existsb_exists. split.
  - intros Hno i r Hr. apply not_true_iff_false. intros Hf. apply Hno. exists r.
    rewrite <- list_elem_of_In, elem_of_stored. eauto.
  - intros Hall (r & Hr & Hf). apply list_elem_of_In, elem_of_stored in Hr as [i Hr].
    by rewrite (Hall i r Hr) in Hf.
Qed.

(** What the view shows of a row, apart from the result. *)
Lemma to_domain_same r :
  session_id (run_to_domain r) = session_id (columns r) ∧
  status (run_to_domain r) = status (columns r) ∧
  parent_run_id (run_to_domain r) = parent_run_id (columns r) ∧
  kind (run_to_domain r) = kind (columns r).
Proof. unfold run_to_domain. by destruct (people_erased_at r). Qed.

Lemma row_create_spec run d d' :
  create run d = (Ok tt, d') →
  spec_create (run_to_domain <$> runs d) run ∧
  run_to_domain <$> runs d' = <[id run := run]> (run_to_domain <$> runs d).
Proof.
  unfold create, execute_run_insert. case_bool_decide as Hn; [done|].
  destruct (negb _ && _) eqn:Hl; [done|].
  destruct (bool_decide _ && _ && _) eqn:Hk; [done|].
  do 2 lazymatch goal with
  | |- context [if ?b then (Raise (IntegrityError _), _) else _] => destruct b; [done|]
  end.
  intros [= <-]. simpl. split; [|by rewrite fmap_insert]. split.
  { rewrite lookup_fmap. apply eq_None_not_Some in Hn. by rewrite Hn. }
  split.
  - intros Ht i x. rewrite lookup_fmap. intros (r & Hr & ->)%fmap_Some [Hsx Htx].
    destruct (to_domain_same r) as (Es & Et & _). rewrite Es in Hsx. rewrite Et in Htx.
    rewrite Ht in Hl. simpl in Hl. rewrite any_row_false in Hl.
    specialize (Hl i r Hr). rewrite bool_decide_true, Htx in Hl by done. done.
  - intros p [Hp Hkr] i x. rewrite lookup_fmap. intros (r & Hr & ->)%fmap_Some [Hpx Hkx].
    destruct (to_domain_same r) as (_ & _ & Ep & Ek). rewrite Ep in Hpx. rewrite Ek in Hkx.
    rewrite Hp, Hkr in Hk. simpl in Hk. rewrite any_row_false in Hk.
    specialize (Hk i r Hr). rewrite !bool_decide_true in Hk by congruence. done.
Qed.

(** A call that returns either inserted a new row or replaced the columns of one. *)
Lemma perform_rows_shape c d v d' :
  perform_rows c d = (Ok v, d') →
  (∃ run, c = Create run ∧ v = None ∧ runs d !! id run = None ∧
     d' = d <| runs := <[id run := {| columns := run; people_erased_at := None |}]> (runs d) |>) ∨
  ∃ r new, runs d !! target c = Some r ∧ d' = set_row (target c) new r d ∧
    spec_change c (run_to_domain r) (run_to_domain (r <| columns := new |>)) ∧
    (v = None ∨ v = Some (run_to_domain (r <| columns := new |>))).
Proof.
  intros Hp. destruct c; unfold perform_rows in Hp;
    lazymatch type of Hp with context [let (_, _) := ?x in _] =>
      destruct x as [[u|] d''] eqn:Hc end;
    try done; injection Hp as <- <-; repeat match goal with x : unit |- _ => destruct x end.
  - left. exists run. split; [done|]. split; [done|]. revert Hc.
    unfold create, execute_run_insert.
    repeat lazymatch goal with
      | |- context [if ?b then (Ok false, _) else _] => destruct b eqn:Hn; [done|]
      | |- context [if ?b then (Raise _, _) else _] => destruct b; [done|]
      end.
    intros [= <-]. split; [|done]. apply eq_None_not_Some.
    by apply bool_decide_eq_false in Hn.
  - apply row_request_cancellation_ok in Hc as (r & new & ? & -> & -> & Hs%to_domain_change); eauto 10.
  - apply row_transition_ok in Hc as (r & new & ? & -> & -> & _ & Hs); eauto 10.
  - apply row_update_counters_ok in Hc as (r & new & ? & -> & Hs%to_domain_change); eauto 10.
  - apply row_set_waiting_limits_ok in Hc as (r & new & ? & -> & -> & Hs%to_domain_change); eauto 10.
  - apply row_set_seed_event_sequence_ok in Hc as (r & new & ? & -> & Hs%to_domain_change); eauto 10.
  - apply row_set_provider_pin_ok in Hc as (r & new & ? & -> & Hs%to_domain_change); eauto 10.
Qed.

Lemma perform_rows_ok c d v d' :
  perform_rows c d = (Ok v, d') →
  spec_step c (run_to_domain <$> runs d) (run_to_domain <$> runs d') ∧
  ∀ r, v = Some r → (run_to_domain <$> runs d') !! target c = Some r.
Proof.
  intros Hp. destruct (perform_rows_shape _ _ _ _ Hp)
    as [(run & -> & -> & _ & _)|(r & new & Hr & -> & Hs & Hv)].
  - split; [|done]. unfold perform_rows in Hp. destruct (create run d) as [[[]|] d''] eqn:Hc;
      simplify_eq/=. by apply row_create_spec in Hc as [Hc ->].
  - unfold set_row. simpl. rewrite fmap_insert. split.
    + assert (Hu : spec_update c (run_to_domain <$> runs d)
        (<[target c := run_to_domain (r <| columns := new |>)]> (run_to_domain <$> runs d))).
      { eexists _, _. rewrite lookup_fmap, Hr. split; [done|]. split; [exact Hs|done]. }
      destruct c; try exact Hu. by destruct Hs as (_ & _ & _ & _ & _ & _ & _ & []).
    + intros x ->. destruct Hv as [|[= <-]]; [done|]. apply lookup_insert_eq.
Qed.

#[global] Instance repository_laws : RunRepositoryLaws t.
Proof.
  split.
  - exact perform_rows_raise.
  - intros c d v d' _ Hp. split; [done|]. by apply perform_rows_ok.
Qed.
End RunRows.

(** ** Properties *)
Import RunRows.

