(* ===== verification/RunQueue.v ===== *)
(** * The durable run queue ([adapters/persistence/queue.py])

    [PostgresRunQueue] over the rows of [RunRows.v]: leases, fencing epochs and
    the reclaim of expired leases. Rows a concurrent transaction holds are the
    [locked] argument (FOR UPDATE SKIP LOCKED); [tie] is the order in which the
    database happens to return rows that its ORDER BY leaves tied, so a theorem
    for every [tie] holds for every order. The step relation at the end
    interleaves workers, the repository and maintenance freely. *)
From S2P Require Import Prelude PyDecimal RunModel Sessions RunSpec RunRows EventModel.

Record ClaimedRun := { claimed_run : Run; claimed_lease : WorkerLease }.

Module RunQueue.
(** [lease_seconds] (as a [timedelta]) and [max_attempts] of the constructor. *)
Record config := { lease_duration : timedelta; max_attempts : Z }.

Section queue.
Context (cfg : config) (tie : Run → N) (isoformat : datetime → string).

(** [enqueue]: the insert of [RunRows] for the copy with its place in the queue. *)
Definition enqueue (run : Run) (prio : Z) (sched : option datetime) (d : RunRows.t)
    : result unit * RunRows.t :=
  match RunRows.execute_run_insert (run <| priority := prio |> <| scheduled_for := sched |>) d with
  | (Raise e, d') => (Raise e, d')
  | (Ok inserted, d') =>
      if inserted then (Ok tt, d') else (Raise (ConflictError "run already exists"), d')
  end.

(** The WHERE clause of the candidate subquery. *)
Definition claimable (classes : list Z) (now : datetime) (c : Run) : bool :=
  bool_decide (status c = QUEUED) && bool_decide (priority c ∈ classes) &&
  match scheduled_for c with None => true | Some at_ => at_ <=? now end &&
  (lease_expirations c <? max_attempts cfg).

(** [ORDER BY priority, created_at], ties broken by the database. *)
Definition before (a b : Run) : bool :=
  (priority a <? priority b) ||
  ((priority a =? priority b) && key_leb (created_at a, tie a) (created_at b, tie b)).
Definition first_of (best : option RunRows.RunRow) (r : RunRows.RunRow) : option RunRows.RunRow :=
  match best with
  | None => Some r
  | Some b => if before (RunRows.columns b) (RunRows.columns r) then Some b else Some r
  end.
Definition candidate (classes : list Z) (locked : gset UUID) (now : datetime) (d : RunRows.t)
    : option RunRows.RunRow :=
  foldl first_of None (filter (λ r,
    claimable classes now (RunRows.columns r) = true ∧ id (RunRows.columns r) ∉ locked)
    (RunRows.stored d)).

(** [RunLimits(...).model_copy(update=...)] of the claim. *)
Definition _start_execution_window (c : Run) (now : datetime) : Run :=
  match execution_seconds (limits c) with
  | None => c
  | Some n =>
      let deadline := now + seconds n in
      let deadline := match run_deadline_at c with
                      | None => deadline
                      | Some at_ => Z.min deadline at_
                      end in
      c <| limits := (limits c) <| deadline_at := Some deadline |> <| execution_seconds := None |> |>
        <| run_deadline_at := Some deadline |>
  end.

Definition claimed_columns (worker : string) (now : datetime) (c : Run) : Run :=
  c <| status := RUNNING |> <| lease_owner := Some worker |>
    <| lease_epoch := lease_epoch c + 1 |>
    <| lease_expires_at := Some (now + lease_duration cfg) |>
    <| attempts := attempts c + 1 |> <| scheduled_for := None |> <| failure := None |>
    <| updated_at := now |>.

Definition claim (worker : string) (eligible_classes : list Z) (locked : gset UUID)
    (now : datetime) (d : RunRows.t) : option ClaimedRun * RunRows.t :=
  if bool_decide (eligible_classes = []) then (None, d)
  else
    match candidate eligible_classes locked now d with
    | None => (None, d)
    | Some r =>
        let i := id (RunRows.columns r) in
        let c := _start_execution_window (claimed_columns worker now (RunRows.columns r)) now in
        let run := RunRows.run_to_domain (r <| RunRows.columns := c |>) in
        (Some {| claimed_run := run;
                 claimed_lease := {| lease_run_id := i; worker_id := worker;
                                     lease_epoch_held := lease_epoch run |} |},
         RunRows.set_row i c r d)
    end.

Definition heartbeat (l : WorkerLease) (now : datetime) (d : RunRows.t)
    : bool * bool * RunRows.t :=
  match RunRows.guarded (lease_run_id l) RUNNING (Some l) d with
  | None => (false, false, d)
  | Some r =>
      (true, bool_decide (is_Some (cancel_requested_at (RunRows.columns r))),
       RunRows.set_row (lease_run_id l)
         ((RunRows.columns r) <| lease_expires_at := Some (now + lease_duration cfg) |>
            <| updated_at := now |>) r d)
  end.

Definition release (l : WorkerLease) (st : RunStatus) (now : datetime) (d : RunRows.t)
    : result unit * RunRows.t :=
  match RunRows.guarded (lease_run_id l) st (Some l) d with
  | Some r =>
      (Ok tt, RunRows.set_row (lease_run_id l)
         ((RunRows.columns r) <| lease_owner := None |> <| lease_expires_at := None |>
            <| updated_at := now |>) r d)
  | None =>
      (Raise match RunRows.runs d !! lease_run_id l with
             | None => ConflictError "lease release run does not exist"
             | Some r =>
                 if negb (RunRows._lease_predicates (Some l) (RunRows.columns r)) then
                   WorkerFencedError "lease release guard failed; worker was fenced"
                 else ConflictError ("lease release expected run status " +:+ RunStatus_value st
                        +:+ ", found " +:+ RunStatus_value (status (RunRows.columns r)))
             end, d)
  end.

(** The WHERE clause of the reclaim. *)
Definition reclaimable (now : datetime) (c : Run) : bool :=
  (bool_decide (status c = RUNNING) &&
   match lease_expires_at c with None => false | Some at_ => at_ <=? now end) ||
  (bool_decide (status c = QUEUED) && (max_attempts cfg <=? lease_expirations c)).

(** [2 ** max(0, n - 1)] seconds *)
Definition backoff (expirations : Z) : timedelta := seconds (2 ^ Z.max 0 (expirations - 1)).

Definition max_attempts_failure (n : Z) (now : datetime) : RunFailure :=
  {| reason := MAX_ATTEMPTS_EXCEEDED; error_class := "MaxAttemptsExceeded";
     message := "the durable worker lease-expiration limit was reached"; step_number := None;
     attempt_number := Some n; occurred_at := now; details := ∅ |}.

(** [failure.model_dump(mode="json")] of that failure; an instant is dumped as
    the text [isoformat] gives. *)
Definition max_attempts_json (n : Z) (now : datetime) : json :=
  let f := max_attempts_failure n now in
  JObj [("reason", JStr (FailureReason_value (reason f)));
        ("error_class", JStr (error_class f)); ("message", JStr (message f));
        ("step_number", JNull); ("attempt_number", JInt n);
        ("occurred_at", JStr (isoformat (occurred_at f))); ("details", JObj [])]%string.

(** The loop body: the row's new columns and the event it appends. *)
Definition reclaim_columns (now : datetime) (c : Run) : result (Run * NewEvent) :=
  let previous_epoch := lease_epoch c in
  let previous_status := status c in
  let expirations := if bool_decide (previous_status = RUNNING)
                     then lease_expirations c + 1 else lease_expirations c in
  let event ty payload :=
    {| ev_session_id := session_id c; ev_run_id := Some (id c); ev_event_type := ty;
       ev_payload_schema_version := 1; ev_actor_type := "maintenance"; ev_actor_id := None;
       ev_payload := payload; ev_trace_id := None; ev_derivation_key := None |} in
  let c := c <| lease_expirations := expirations |> in
  let cleared := λ c : Run, c <| lease_owner := None |> <| lease_expires_at := None |>
                              <| updated_at := now |> in
  if max_attempts cfg <=? expirations then
    _ ← require_transition previous_status FAILED;
    Ok (cleared (c <| status := FAILED |>
                   <| failure := Some (max_attempts_failure expirations now) |>),
        event "run.failed"%string
          ([("failure"%string, max_attempts_json expirations now);
            ("lease_expirations"%string, JInt expirations)] ++
           if bool_decide (previous_status = RUNNING)
           then [("reclaimed_epoch"%string, JInt previous_epoch)] else []))
  else
    _ ← require_transition RUNNING QUEUED;
    Ok (cleared (c <| status := QUEUED |>
                   <| scheduled_for := Some (now + backoff expirations) |>),
        event "run.requeued"%string
          [("reclaimed_epoch"%string, JInt previous_epoch);
           ("attempts"%string, JInt (attempts c));
           ("lease_expirations"%string, JInt expirations)]).

(** [ORDER BY lease_expires_at] (NULLS LAST), SKIP LOCKED, LIMIT. *)
Definition expiry_key (r : RunRows.RunRow) : datetime * N :=
  (default 0 (lease_expires_at (RunRows.columns r)), tie (RunRows.columns r)).
Definition reclaim_set (locked : gset UUID) (now : datetime) (d : RunRows.t)
    : list RunRows.RunRow :=
  filter (λ r, reclaimable now (RunRows.columns r) = true ∧
               id (RunRows.columns r) ∉ locked) (RunRows.stored d).
Definition reclaim_rows (limit : nat) (locked : gset UUID) (now : datetime) (d : RunRows.t)
    : list RunRows.RunRow :=
  let rows := reclaim_set locked now d in
  take limit
    (sort_asc expiry_key
       (filter (λ r, is_Some (lease_expires_at (RunRows.columns r))) rows) ++
     filter (λ r, lease_expires_at (RunRows.columns r) = None) rows).

Fixpoint reclaim_loop (rows : list RunRows.RunRow) (now : datetime) (n : Z)
    (d : RunRows.t) (events : list NewEvent) : result Z * RunRows.t * list NewEvent :=
  match rows with
  | [] => (Ok n, d, events)
  | r :: rest =>
      match reclaim_columns now (RunRows.columns r) with
      | Raise e => (Raise e, d, events)
      | Ok (c, ev) =>
          reclaim_loop rest now (n + 1)
            (RunRows.set_row (id (RunRows.columns r)) c r d) (events ++ [ev])
      end
  end.

(** [acquired]: whether the advisory lock of the maintenance pass was free. *)
Definition reclaim_expired (limit : nat) (acquired : bool) (locked : gset UUID)
    (now : datetime) (d : RunRows.t) : result Z * RunRows.t * list NewEvent :=
  if negb acquired then (Ok 0, d, [])
  else reclaim_loop (reclaim_rows limit locked now d) now 0 d [].

(** ** Interleavings: workers, the repository and maintenance, in any order *)
Inductive op :=
| Enqueue (run : Run) (prio : Z) (sched : option datetime)
| Claim (worker : string) (classes : list Z) (locked : gset UUID) (now : datetime)
| Heartbeat (l : WorkerLease) (now : datetime)
| Release (l : WorkerLease) (st : RunStatus) (now : datetime)
| Reclaim (limit : nat) (acquired : bool) (locked : gset UUID) (now : datetime)
| Repository (c : call).

Definition step (d : RunRows.t) (o : op) : RunRows.t :=
  match o with
  | Enqueue run prio sched => (enqueue run prio sched d).2
  | Claim w cl locked now => (claim w cl locked now d).2
  | Heartbeat l now => (heartbeat l now d).2
  | Release l st now => (release l st now d).2
  | Reclaim limit acq locked now => (reclaim_expired limit acq locked now d).1.2
  | Repository c => (RunRows.perform_rows c d).2
  end.
Definition steps (os : list op) (d : RunRows.t) : RunRows.t := foldl step d os.

(** What an operation may do to the columns of one row. *)
Inductive row_change (c c' : Run) : Prop :=
| by_repository :
    lease_owner c' = lease_owner c → lease_expires_at c' = lease_expires_at c →
    lease_epoch c' = lease_epoch c → lease_expirations c' = lease_expirations c →
    id c' = id c → (status c' = status c ∨ edge (status c) (status c')) → row_change c c'
| by_claim w cl now :
    claimable cl now c = true →
    c' = _start_execution_window (claimed_columns w now c) now → row_change c c'
| by_heartbeat l now :
    status c = RUNNING → RunRows._lease_predicates (Some l) c = true →
    c' = c <| lease_expires_at := Some (now + lease_duration cfg) |> <| updated_at := now |> →
    row_change c c'
| by_release l now :
    RunRows._lease_predicates (Some l) c = true →
    c' = c <| lease_owner := None |> <| lease_expires_at := None |> <| updated_at := now |> →
    row_change c c'
| by_reclaim now ev :
    reclaimable now c = true → reclaim_columns now c = Ok (c', ev) → row_change c c'.

(** A row sits under its own id. *)
Definition keyed (d : RunRows.t) : Prop :=
  ∀ i r, RunRows.runs d !! i = Some r → id (RunRows.columns r) = i.

Lemma window_fields c now :
  let c' := _start_execution_window c now in
  id c' = id c ∧ lease_owner c' = lease_owner c ∧ lease_expires_at c' = lease_expires_at c ∧
  lease_epoch c' = lease_epoch c ∧ lease_expirations c' = lease_expirations c ∧
  status c' = status c ∧ attempts c' = attempts c.
Proof. unfold _start_execution_window. destruct (execution_seconds _); by repeat split. Qed.

Lemma reclaim_columns_ok now c c' ev :
  reclaim_columns now c = Ok (c', ev) →
  id c' = id c ∧ lease_owner c' = None ∧ lease_expires_at c' = None ∧
  lease_epoch c' = lease_epoch c ∧ run_deadline_at c' = run_deadline_at c ∧
  limits c' = limits c ∧
  lease_expirations c' = (if bool_decide (status c = RUNNING)
                          then lease_expirations c + 1 else lease_expirations c) ∧
  (status c' = FAILED ∧ max_attempts cfg ≤ lease_expirations c' ∧
     failure c' = Some (max_attempts_failure (lease_expirations c') now) ∨
   status c' = QUEUED ∧ lease_expirations c' < max_attempts cfg ∧
     scheduled_for c' = Some (now + backoff (lease_expirations c'))).
Proof.
  unfold reclaim_columns.
  destruct (Z.leb_spec (max_attempts cfg)
    (if bool_decide (status c = RUNNING) then lease_expirations c + 1 else lease_expirations c)).
  - destruct (require_transition (status c) FAILED); [|done]. intros [= <- <-]. simpl.
    do 7 (split; [done|]). by left.
  - intros [= <- <-]. simpl. do 7 (split; [done|]). by right.
Qed.

(** No candidate row makes the loop raise. *)
Lemma reclaim_columns_total now c :
  reclaimable now c = true → ∃ c' ev, reclaim_columns now c = Ok (c', ev).
Proof.
  unfold reclaimable. intros Hr.
  assert (Hs : status c = RUNNING ∨ status c = QUEUED).
  { apply orb_true_iff in Hr as [Hr|Hr]; apply andb_true_iff in Hr as [Hr%bool_decide_eq_true _];
      auto. }
  clear Hr. unfold reclaim_columns.
  destruct (max_attempts cfg <=? _); [|eexists _, _; reflexivity].
  destruct Hs as [-> | ->]; eexists _, _; reflexivity.
Qed.

Lemma reclaimable_done now c c' ev :
  reclaimable now c = true → reclaim_columns now c = Ok (c', ev) → reclaimable now c' = false.
Proof.
  intros _ (_ & _ & He & _ & _ & _ & _ & Hs)%reclaim_columns_ok. unfold reclaimable.
  destruct Hs as [(-> & _)|(-> & Hlt & _)]; [done|]. simpl. lia.
Qed.

Lemma reclaimable_row_change now c c' ev :
  reclaimable now c = true → reclaim_columns now c = Ok (c', ev) → row_change c c'.
Proof. intros. by eapply by_reclaim. Qed.

(** The loop over distinct stored rows rewrites exactly those rows. *)
Lemma reclaim_loop_spec rows now n d evs :
  keyed d → NoDup ((λ r, id (RunRows.columns r)) <$> rows) →
  (∀ r, r ∈ rows → RunRows.runs d !! id (RunRows.columns r) = Some r ∧
                   reclaimable now (RunRows.columns r) = true) →
  ∃ d' evs', reclaim_loop rows now n d evs = (Ok (n + Z.of_nat (length rows)), d', evs') ∧
    length evs' = (length evs + length rows)%nat ∧
    (∀ i r, RunRows.runs d !! i = Some r →
       (r ∈ rows ∧ ∃ c' ev, reclaim_columns now (RunRows.columns r) = Ok (c', ev) ∧
          RunRows.runs d' !! i = Some (r <| RunRows.columns := c' |>)) ∨
       (r ∉ rows ∧ RunRows.runs d' !! i = Some r)) ∧
    dom (RunRows.runs d') = dom (RunRows.runs d).
Proof.
  revert n d evs. induction rows as [|r rows IH]; intros n d evs Hk Hnd Hin; simpl.
  { exists d, evs. rewrite Z.add_0_r. repeat split; [lia|]. intros i x Hx. right.
    split; [set_solver|done]. }
  apply NoDup_cons in Hnd as [Hr Hnd].
  destruct (Hin r) as [Hrd Hrc]; [set_solver|].
  destruct (reclaim_columns_total _ _ Hrc) as (c & ev & Hc). rewrite Hc.
  assert (Hidc : id c = id (RunRows.columns r)) by (by apply reclaim_columns_ok in Hc as [-> _]).
  set (d1 := RunRows.set_row (id (RunRows.columns r)) c r d).
  assert (Hd1 : RunRows.runs d1 =
    <[id (RunRows.columns r) := r <| RunRows.columns := c |>]> (RunRows.runs d)) by done.
  assert (Hother : ∀ x, x ∈ rows → id (RunRows.columns x) ≠ id (RunRows.columns r)).
  { intros x Hx He. apply Hr. rewrite <- He.
    apply (list_elem_of_fmap_2 (λ r, id (RunRows.columns r))). done. }
  destruct (IH (n + 1) d1 (evs ++ [ev])) as (d' & evs' & -> & Hlen & Hrows & Hdom).
  - intros i x. rewrite Hd1, lookup_insert_Some. intros [[<- <-]|[_ Hx]]; [exact Hidc|by apply Hk].
  - done.
  - intros x Hx. rewrite Hd1, lookup_insert_ne by (symmetry; auto). apply Hin. set_solver.
  - exists d', evs'. split; [do 2 f_equal; f_equal; lia|].
    rewrite length_app in Hlen. simpl in Hlen. split; [lia|]. split.
    + intros i x Hx. destruct (decide (i = id (RunRows.columns r))) as [->|Hne].
      * rewrite Hrd in Hx. injection Hx as <-. left. split; [set_solver|].
        exists c, ev. split; [done|].
        destruct (Hrows (id (RunRows.columns r)) (r <| RunRows.columns := c |>))
          as [[Hb _]|[_ Hb]]; [by rewrite Hd1, lookup_insert_eq| |done].
        exfalso. apply (Hother _ Hb). by simpl.
      * assert (Hxi : id (RunRows.columns x) = i) by (by apply Hk).
        destruct (Hrows i x) as [[Hb Hd]|[Hb Hd]].
        -- rewrite Hd1, lookup_insert_ne; done.
        -- left. split; [set_solver|done].
        -- right. split; [|done]. intros [->|?]%elem_of_cons; [done|done].
    + rewrite Hdom, Hd1, dom_insert_lookup_L by (by rewrite Hrd). done.
Qed.

(** ** One step, one row *)
Definition kept (d' : RunRows.t) (i : UUID) (r : RunRows.RunRow) : Prop :=
  ∃ r', RunRows.runs d' !! i = Some r' ∧
        RunRows.people_erased_at r' = RunRows.people_erased_at r ∧
        (RunRows.columns r' = RunRows.columns r ∨
         row_change (RunRows.columns r) (RunRows.columns r')).

Lemma kept_same d i r : RunRows.runs d !! i = Some r → kept d i r.
Proof. intros Hr. exists r. auto. Qed.

Lemma kept_set_row d i0 r0 c i r :
  RunRows.runs d !! i0 = Some r0 → row_change (RunRows.columns r0) c →
  RunRows.runs d !! i = Some r → kept (RunRows.set_row i0 c r0 d) i r.
Proof.
  intros H0 Hc Hr. unfold kept, RunRows.set_row. simpl.
  destruct (decide (i0 = i)) as [<-|Hne].
  - rewrite lookup_insert_eq. eexists. split; [done|]. simpl.
    rewrite H0 in Hr. injection Hr as ->. auto.
  - rewrite lookup_insert_ne by done. exists r. auto.
Qed.

Lemma row_change_id c c' : row_change c c' → id c' = id c.
Proof.
  intros [|w cl now _ ->|l now _ _ ->|l now _ ->|now ev _ H]; try done.
  - by destruct (window_fields (claimed_columns w now c) now) as (-> & _).
  - by apply reclaim_columns_ok in H as [-> _].
Qed.

Lemma candidate_Some classes locked now d r :
  candidate classes locked now d = Some r →
  ∃ i, RunRows.runs d !! i = Some r ∧ claimable classes now (RunRows.columns r) = true ∧
       id (RunRows.columns r) ∉ locked.
Proof.
  unfold candidate. set (rs := filter _ _).
  assert (Hf : ∀ rs best r, foldl first_of best rs = Some r → best = Some r ∨ r ∈ rs).
  { clear. induction rs as [|x rs IH]; intros best r H; [by left|]. simpl in H.
    apply IH in H as [H|H]; [|set_solver]. unfold first_of in H.
    destruct best as [b|]; [destruct (before _ _)|]; set_solver. }
  intros [|Hr]%Hf; [done|]. apply list_elem_of_filter in Hr as [[? ?] [i Hi]%RunRows.elem_of_stored].
  eauto.
Qed.

Lemma perform_rows_row c d i r :
  RunRows.runs d !! i = Some r → kept (RunRows.perform_rows c d).2 i r.
Proof.
  intros Hr. destruct (RunRows.perform_rows c d) as [[v|e] d'] eqn:E; simpl.
  - apply RunRows.perform_rows_shape in E
      as [(run & _ & _ & Hn & ->)|(x & new & Hx & -> & Hs & _)].
    + exists r. simpl. rewrite lookup_insert_ne by congruence. auto.
    + apply kept_set_row; [done| |done].
      pose proof (spec_change_status _ _ _ Hs) as Hst.
      destruct Hs as [Hf _]. unfold same_frame in Hf. unfold RunRows.run_to_domain in *.
      simpl in *. destruct (RunRows.people_erased_at x); destruct_and!; by apply by_repository.
  - apply RunRows.perform_rows_raise in E as ->. by apply kept_same.
Qed.

Lemma insert_row run d i r x d' :
  RunRows.runs d !! i = Some r → RunRows.execute_run_insert run d = (x, d') → kept d' i r.
Proof.
  intros Hr. unfold RunRows.execute_run_insert.
  repeat lazymatch goal with
    | |- context [if ?b then (_, d) else _] => destruct b eqn:?; [intros [= _ <-]; by apply kept_same|]
    end.
  intros [= _ <-]. exists r. simpl. rewrite lookup_insert_ne; [auto|]. intros <-.
  match goal with H : bool_decide (is_Some _) = false |- _ => apply bool_decide_eq_false in H end.
  rewrite Hr in *. naive_solver.
Qed.

Lemma split_expiry (rows : list RunRows.RunRow) :
  sort_asc expiry_key (filter (λ r, is_Some (lease_expires_at (RunRows.columns r))) rows) ++
  filter (λ r, lease_expires_at (RunRows.columns r) = None) rows ≡ₚ rows.
Proof.
  rewrite (sort_asc_perm expiry_key). induction rows as [|r l IH]; [done|].
  rewrite !filter_cons. destruct (lease_expires_at (RunRows.columns r)) eqn:E.
  - rewrite decide_True by eauto. rewrite decide_False by done. simpl. by f_equiv.
  - rewrite decide_False by (by intros []). rewrite decide_True by done.
    by rewrite <- Permutation_middle, IH.
Qed.

Lemma reclaim_rows_spec limit locked now d :
  keyed d →
  let rows := reclaim_rows limit locked now d in
  NoDup ((λ r, id (RunRows.columns r)) <$> rows) ∧
  ∀ r, r ∈ rows → RunRows.runs d !! id (RunRows.columns r) = Some r ∧
                  reclaimable now (RunRows.columns r) = true.
Proof.
  intros Hk rows. set (all := reclaim_set locked now d).
  assert (Hin : ∀ r, r ∈ all → RunRows.runs d !! id (RunRows.columns r) = Some r ∧
                               reclaimable now (RunRows.columns r) = true).
  { intros r [[Hr _] [i Hi]%RunRows.elem_of_stored]%list_elem_of_filter.
    by rewrite (Hk i r Hi). }
  assert (Hnd : NoDup ((λ r, id (RunRows.columns r)) <$> all)).
  { apply NoDup_fmap_2_strong.
    - intros x y [Hx _]%Hin [Hy _]%Hin He. congruence.
    - by apply NoDup_filter, (table_NoDup (λ r, id (RunRows.columns r))). }
  pose proof (split_expiry all) as Hperm.
  rewrite <- Hperm in Hnd. split.
  - unfold rows, reclaim_rows. rewrite fmap_take. by eapply sublist_NoDup; [exact Hnd|apply sublist_take].
  - intros r Hr. apply Hin. rewrite <- Hperm.
    by apply (subseteq_take limit).
Qed.

Lemma reclaim_rows_all limit now d r i :
  (size (RunRows.runs d) ≤ limit)%nat → RunRows.runs d !! i = Some r →
  reclaimable now (RunRows.columns r) = true → r ∈ reclaim_rows limit ∅ now d.
Proof.
  intros Hlim Hr Hrc. unfold reclaim_rows. rewrite take_ge.
  - assert (Hin : r ∈ reclaim_set ∅ now d).
    { apply list_elem_of_filter. rewrite RunRows.elem_of_stored. set_solver. }
    rewrite split_expiry. done.
  - etransitivity; [|exact Hlim]. rewrite split_expiry.
    rewrite <- (length_map_to_list (RunRows.runs d)).
    rewrite <- (length_fmap snd (map_to_list (RunRows.runs d))).
    apply length_filter.
Qed.

Lemma step_kept d o i r : keyed d → RunRows.runs d !! i = Some r → kept (step d o) i r.
Proof.
  intros Hk Hr. destruct o; simpl.
  - unfold enqueue. destruct (RunRows.execute_run_insert _ d) as [[[]|] d'] eqn:E; simpl;
      by eapply insert_row.
  - unfold claim. case_bool_decide; [by apply kept_same|].
    destruct (candidate _ _ _ _) as [x|] eqn:E; [|by apply kept_same]. simpl.
    apply candidate_Some in E as (j & Hj & Hc & _).
    apply kept_set_row; [by rewrite (Hk j x Hj)| |done]. by eapply by_claim.
  - unfold heartbeat. destruct (RunRows.guarded _ _ _ _) as [x|] eqn:E; [|by apply kept_same].
    apply RunRows.guarded_Some in E as (Hx & Hs & Hl). simpl.
    apply kept_set_row; [done| |done]. by eapply by_heartbeat.
  - unfold release. destruct (RunRows.guarded _ _ _ _) as [x|] eqn:E; [|by apply kept_same].
    apply RunRows.guarded_Some in E as (Hx & Hs & Hl). simpl.
    apply kept_set_row; [done| |done]. by eapply by_release.
  - unfold reclaim_expired. destruct acquired; [|by apply kept_same]. simpl.
    destruct (reclaim_rows_spec limit locked now d Hk) as [Hnd Hin].
    destruct (reclaim_loop_spec _ now 0 d [] Hk Hnd Hin) as (d' & evs & -> & _ & Hrows & _).
    simpl. destruct (Hrows i r Hr) as [(Hi & c & ev & Hc & Hd)|[_ Hd]]; [|by apply kept_same].
    exists (r <| RunRows.columns := c |>). do 2 (split; [done|]). right. simpl.
    eapply by_reclaim; [by apply Hin|done].
  - by apply perform_rows_row.
Qed.

(** The run an operation may insert. *)
Definition inserts (o : op) : option Run :=
  match o with
  | Enqueue run prio sched => Some (run <| priority := prio |> <| scheduled_for := sched |>)
  | Repository (Create run) => Some run
  | _ => None
  end.

Lemma insert_new run d i r x d' :
  RunRows.execute_run_insert run d = (x, d') → RunRows.runs d' !! i = Some r →
  is_Some (RunRows.runs d !! i) ∨ RunRows.columns r = run ∧ id run = i.
Proof.
  unfold RunRows.execute_run_insert.
  repeat lazymatch goal with
    | |- context [if ?b then (_, d) else _] => destruct b; [intros [= _ <-]; by left|]
    end.
  intros [= _ <-]. simpl. rewrite lookup_insert_Some. intros [[<- <-]|[_ Hr]]; [by right|by left].
Qed.

Lemma set_row_known i0 c r0 d i r :
  RunRows.runs d !! i0 = Some r0 → RunRows.runs (RunRows.set_row i0 c r0 d) !! i = Some r →
  is_Some (RunRows.runs d !! i).
Proof.
  intros H0. unfold RunRows.set_row. simpl. rewrite lookup_insert_Some.
  intros [[<- _]|[_ H]]; by eexists.
Qed.

Lemma step_new d o i r :
  keyed d → RunRows.runs (step d o) !! i = Some r →
  is_Some (RunRows.runs d !! i) ∨ (inserts o = Some (RunRows.columns r) ∧ id (RunRows.columns r) = i).
Proof.
  intros Hk. destruct o; simpl.
  - unfold enqueue. destruct (RunRows.execute_run_insert _ d) as [[[]|] d'] eqn:E; simpl;
      intros Hr; destruct (insert_new _ _ _ _ _ _ E Hr) as [?|[-> ?]]; auto.
  - unfold claim. case_bool_decide; [by left|].
    destruct (candidate _ _ _ _) as [x|] eqn:E; [|by left]. simpl.
    apply candidate_Some in E as (j & Hj & Hc & _). rewrite (Hk j x Hj).
    intros Hr. left. exact (set_row_known _ _ _ _ _ _ Hj Hr).
  - unfold heartbeat. destruct (RunRows.guarded _ _ _ _) as [x|] eqn:E; [|by left].
    apply RunRows.guarded_Some in E as (Hx & _). intros Hr. left.
    exact (set_row_known _ _ _ _ _ _ Hx Hr).
  - unfold release. destruct (RunRows.guarded _ _ _ _) as [x|] eqn:E; [|by left].
    apply RunRows.guarded_Some in E as (Hx & _). intros Hr. left.
    exact (set_row_known _ _ _ _ _ _ Hx Hr).
  - unfold reclaim_expired. destruct acquired; [|by left]. simpl.
    destruct (reclaim_rows_spec limit locked now d Hk) as [Hnd Hin].
    destruct (reclaim_loop_spec _ now 0 d [] Hk Hnd Hin) as (d' & evs & -> & _ & _ & Hdom).
    simpl. intros Hr. left. apply elem_of_dom. rewrite <- Hdom. by apply elem_of_dom.
  - destruct (RunRows.perform_rows c d) as [[v|e] d'] eqn:E; simpl.
    + apply RunRows.perform_rows_shape in E as [(run & -> & _ & _ & ->)|(x & new & Hx & -> & _)].
      * simpl. rewrite lookup_insert_Some. intros [[<- <-]|[_ ?]]; [by right|by left].
      * intros Hr. left.
    exact (set_row_known _ _ _ _ _ _ Hx Hr).
    + apply RunRows.perform_rows_raise in E as ->. by left.
Qed.

(** What holds of every inserted run and survives every change holds everywhere. *)
Lemma steps_all (P : Run → Prop) os d :
  (∀ c c', row_change c c' → P c → P c') →
  Forall (λ o, ∀ run, inserts o = Some run → P run) os →
  keyed d → (∀ i r, RunRows.runs d !! i = Some r → P (RunRows.columns r)) →
  keyed (steps os d) ∧ ∀ i r, RunRows.runs (steps os d) !! i = Some r → P (RunRows.columns r).
Proof.
  intros Hch. revert d. induction os as [|o os IH]; intros d Ho Hk Hp; [done|].
  apply Forall_cons in Ho as [Ho Hos].
  assert (Hnew : ∀ i r', RunRows.runs (step d o) !! i = Some r' →
    id (RunRows.columns r') = i ∧ P (RunRows.columns r')).
  { intros i r' Hr'. destruct (step_new d o i r' Hk Hr') as [[r Hr]|[Hi Hid]]; [|by auto].
    destruct (step_kept d o i r Hk Hr) as (x & Hx & _ & Hc). rewrite Hr' in Hx.
    injection Hx as <-. pose proof (Hk i r Hr). pose proof (Hp i r Hr).
    destruct Hc as [->|Hc]; [done|]. split; [by rewrite (row_change_id _ _ Hc)|eauto]. }
  apply IH; [done| |].
  - intros i r Hr. by apply Hnew.
  - intros i r Hr. by apply (Hnew i).
Qed.

Lemma steps_row (P : Run → Prop) os d i r :
  (∀ c c', row_change c c' → P c → P c') → keyed d →
  RunRows.runs d !! i = Some r → P (RunRows.columns r) →
  ∃ r', RunRows.runs (steps os d) !! i = Some r' ∧ P (RunRows.columns r').
Proof.
  intros Hch. revert d r. induction os as [|o os IH]; intros d r Hk Hr Hp; [by exists r|].
  assert (Hk' : keyed (step d o)).
  { by apply (steps_all (λ _, True) [o] d); try done; repeat constructor. }
  destruct (step_kept d o i r Hk Hr) as (r' & Hr' & _ & Hc).
  apply (IH _ r' Hk' Hr'). destruct Hc as [->|Hc]; eauto.
Qed.

(** ** Fencing *)
Definition stale (l : WorkerLease) (c : Run) : Prop :=
  lease_epoch_held l ≤ lease_epoch c ∧ RunRows._lease_predicates (Some l) c = false.

Lemma holds_iff l c :
  RunRows._lease_predicates (Some l) c = true ↔
  lease_owner c = Some (worker_id l) ∧ lease_epoch c = lease_epoch_held l.
Proof. simpl. rewrite andb_true_iff, bool_decide_eq_true, Z.eqb_eq. done. Qed.
Lemma stale_iff l c :
  stale l c ↔ lease_epoch_held l ≤ lease_epoch c ∧
    ¬ (lease_owner c = Some (worker_id l) ∧ lease_epoch c = lease_epoch_held l).
Proof. unfold stale. rewrite <- not_true_iff_false, holds_iff. done. Qed.

Lemma claim_columns_lease w now c :
  lease_owner (_start_execution_window (claimed_columns w now c) now) = Some w ∧
  lease_epoch (_start_execution_window (claimed_columns w now c) now) = lease_epoch c + 1.
Proof.
  by destruct (window_fields (claimed_columns w now c) now) as (_ & -> & _ & -> & _).
Qed.

Lemma row_change_stale l c c' : row_change c c' → stale l c → stale l c'.
Proof.
  rewrite !stale_iff. intros [Ho _ He _ _ _|w cl now _ ->|l' now _ _ ->|l' now _ ->|now ev _ H] Hs.
  - by rewrite Ho, He.
  - destruct (claim_columns_lease w now c) as [_ ->]. lia.
  - done.
  - simpl. naive_solver.
  - apply reclaim_columns_ok in H as (_ & -> & _ & -> & _). naive_solver.
Qed.

(** A worker whose lease is stale is refused by every leased write. *)
Definition fenced (l : WorkerLease) (d : RunRows.t) : Prop :=
  (∀ now, heartbeat l now d = (false, false, d)) ∧
  (∀ st now, release l st now d =
     (Raise (WorkerFencedError "lease release guard failed; worker was fenced"), d)) ∧
  (∀ expected new fl msg now, edge expected new →
     RunRows.transition (lease_run_id l) expected new fl msg (Some l) now d =
     (Raise (WorkerFencedError "run transition guard failed; worker was fenced"), d)) ∧
  (∀ run, id run = lease_run_id l → RunRows.update_counters run (Some l) d =
     (Raise (WorkerFencedError "counter update guard failed; worker was fenced"), d)).

Lemma stale_fenced l d r :
  RunRows.runs d !! lease_run_id l = Some r → stale l (RunRows.columns r) → fenced l d.
Proof.
  intros Hr [_ Hs].
  assert (Hg : ∀ st, RunRows.guarded (lease_run_id l) st (Some l) d = None).
  { intros st. unfold RunRows.guarded. rewrite Hr. cbn [mbind option_bind].
    by rewrite Hs, andb_false_r. }
  assert (Hf : ∀ st op_, RunRows._raise_guard_failure (lease_run_id l) st (Some l) op_ d =
    WorkerFencedError (op_ +:+ " guard failed; worker was fenced")).
  { intros st op_. unfold RunRows._raise_guard_failure. by rewrite Hr, Hs. }
  split; [|split; [|split]].
  - intros now. unfold heartbeat. by rewrite Hg.
  - intros st now. unfold release. by rewrite Hg, Hr, Hs.
  - intros e n fl msg now He. unfold RunRows.transition.
    apply require_transition_ok in He. by rewrite He, Hg, Hf.
  - intros run Hi. unfold RunRows.update_counters. by rewrite Hi, Hg, Hf.
Qed.

Lemma to_domain_epoch r : lease_epoch (RunRows.run_to_domain r) = lease_epoch (RunRows.columns r).
Proof. unfold RunRows.run_to_domain. by destruct (RunRows.people_erased_at r). Qed.

Lemma claim_spec w cl locked now d cr d' :
  keyed d → claim w cl locked now d = (Some cr, d') →
  ∃ r, candidate cl locked now d = Some r ∧
    RunRows.runs d !! id (RunRows.columns r) = Some r ∧
    claimable cl now (RunRows.columns r) = true ∧
    let c := _start_execution_window (claimed_columns w now (RunRows.columns r)) now in
    d' = RunRows.set_row (id (RunRows.columns r)) c r d ∧
    claimed_run cr = RunRows.run_to_domain (r <| RunRows.columns := c |>) ∧
    claimed_lease cr = {| lease_run_id := id (RunRows.columns r); worker_id := w;
                          lease_epoch_held := lease_epoch (RunRows.columns r) + 1 |}.
Proof.
  intros Hk. unfold claim. case_bool_decide; [done|].
  destruct (candidate cl locked now d) as [r|] eqn:E; [|done]. intros [= <- <-].
  pose proof (candidate_Some _ _ _ _ _ E) as (i & Hi & Hc & _).
  exists r. split; [done|]. split; [by rewrite (Hk i r Hi)|]. split; [done|].
  cbv zeta. split; [reflexivity|]. split; [reflexivity|].
  cbn [claimed_lease]. f_equal. etransitivity; [apply to_domain_epoch|].
  apply claim_columns_lease.
Qed.

Lemma before_trans a b c : before a b = true → before b c = true → before a c = true.
Proof.
  unfold before, key_leb. simpl. rewrite !orb_true_iff, !andb_true_iff, !orb_true_iff,
    !andb_true_iff. lia.
Qed.
Lemma before_total a b : before a b = false → before b a = true.
Proof. unfold before, key_leb. simpl. lia. Qed.
Lemma before_refl a : before a a = true.
Proof. unfold before, key_leb. simpl. lia. Qed.

Lemma fold_first_of rs best r :
  foldl first_of best rs = Some r →
  (∀ x, x ∈ rs → before (RunRows.columns r) (RunRows.columns x) = true) ∧
  (∀ b, best = Some b → before (RunRows.columns r) (RunRows.columns b) = true).
Proof.
  revert best. induction rs as [|x rs IH]; intros best H; simpl in H.
  - split; [set_solver|]. intros b ->. injection H as ->. apply before_refl.
  - apply IH in H as [Hall Hb]. assert (Hf : ∃ y, first_of best x = Some y ∧
      before (RunRows.columns y) (RunRows.columns x) = true ∧
      ∀ b, best = Some b → before (RunRows.columns y) (RunRows.columns b) = true).
    { destruct best as [b|]; simpl;
        [|exists x; split; [done|]; split; [apply before_refl|done]].
      destruct (before _ _) eqn:E.
      - exists b. split; [done|]. split; [done|]. intros ? [= <-]. apply before_refl.
      - exists x. split; [done|]. split; [apply before_refl|]. intros ? [= <-].
        by apply before_total. }
    destruct Hf as (y & Hy & Hyx & Hyb). specialize (Hb y Hy). split.
    + intros z [->|Hz]%elem_of_cons; [by eapply before_trans|auto].
    + intros b Hbb. eapply before_trans; eauto.
Qed.

Lemma candidate_first classes locked now d r i x :
  candidate classes locked now d = Some r →
  RunRows.runs d !! i = Some x → claimable classes now (RunRows.columns x) = true →
  id (RunRows.columns x) ∉ locked → before (RunRows.columns r) (RunRows.columns x) = true.
Proof.
  intros Hc Hx Hcx Hnl. apply fold_first_of in Hc as [Hall _]. apply Hall.
  apply list_elem_of_filter. rewrite RunRows.elem_of_stored. eauto.
Qed.

Lemma claimed_fields w now c r :
  let run := RunRows.run_to_domain
    (r <| RunRows.columns := _start_execution_window (claimed_columns w now c) now |>) in
  id run = id c ∧ status run = RUNNING ∧ lease_epoch run = lease_epoch c + 1 ∧
  attempts run = attempts c + 1 ∧ failure run = None ∧
  execution_seconds (limits run) = None ∧
  (run_deadline_at c = deadline_at (limits c) → run_deadline_at run = deadline_at (limits run)) ∧
  run_deadline_at run =
    match execution_seconds (limits c) with
    | None => run_deadline_at c
    | Some n => Some (Z.min (now + seconds n) (default (now + seconds n) (run_deadline_at c)))
    end.
Proof.
  clear tie isoformat.
  unfold RunRows.run_to_domain, _start_execution_window. simpl.
  destruct (execution_seconds (limits c)) eqn:E, (RunRows.people_erased_at r); simpl;
    repeat split; try done; destruct (run_deadline_at c); simpl; auto; f_equal; lia.
Qed.

(** ** The bound on lease expirations *)
Definition attempts_inv (c : Run) : Prop :=
  (lease_owner c = None ↔ lease_expires_at c = None) ∧
  0 ≤ lease_expirations c ≤ max_attempts cfg ∧
  (lease_owner c ≠ None → lease_expirations c < max_attempts cfg).

(** A run as it is submitted: no lease yet, no expiration counted. *)
Definition unleased (run : Run) : Prop :=
  lease_owner run = None ∧ lease_expires_at run = None ∧ lease_expirations run = 0.

Lemma row_change_attempts c c' :
  0 < max_attempts cfg → row_change c c' → attempts_inv c → attempts_inv c'.
Proof.
  unfold attempts_inv.
  intros Hm [Ho He _ Hx _ _|w cl now Hcl ->|l now _ Hl ->|l now _ ->|now ev Hr H] (Hi & Hb & Hlt).
  - by rewrite Ho, He, Hx.
  - destruct (window_fields (claimed_columns w now c) now)
      as (_ & -> & -> & _ & -> & _). simpl.
    unfold claimable in Hcl. rewrite !andb_true_iff in Hcl. repeat split; [done|done|lia..].
  - apply holds_iff in Hl as [Hown _]. simpl. rewrite Hown in *. repeat split; [done|done|lia|lia|].
    intros _. by apply Hlt.
  - simpl. repeat split; [lia|lia|done].
  - apply reclaim_columns_ok in H as (_ & -> & -> & _ & _ & _ & Hx & Hs). split; [done|].
    split; [|done]. rewrite Hx. case_bool_decide as Hrun; [|done].
    unfold reclaimable in Hr. rewrite Hrun in Hr.
    rewrite (bool_decide_false (RUNNING = QUEUED)) in Hr by done.
    rewrite bool_decide_true in Hr by done. simpl in Hr. rewrite orb_false_r in Hr.
    destruct (lease_expires_at c) eqn:El; [|done].
    assert (lease_owner c ≠ None) as Hne%Hlt by (intros Hc%Hi; congruence). lia.
Qed.
End queue.
End RunQueue.

(** ** Properties *)
Import RunQueue.


(** The number of lease expirations of a run is bounded by [max_attempts], and
    a run somebody still holds a lease on is strictly below the bound, over every
    interleaving of workers, repository calls and maintenance passes, provided
    runs are submitted without a lease; a table row stays under its own id. *)
Theorem expirations_bounded cfg tie iso os d :
  0 < max_attempts cfg →
  Forall (λ o, ∀ run, inserts o = Some run → unleased run) os →
  keyed d → (∀ i r, RunRows.runs d !! i = Some r → attempts_inv cfg (RunRows.columns r)) →
  keyed (steps cfg tie iso os d) ∧
  ∀ i r, RunRows.runs (steps cfg tie iso os d) !! i = Some r →
         attempts_inv cfg (RunRows.columns r).
Proof.
  intros Hm Ho. apply steps_all.
  - intros c c' Hc Hi. by eapply row_change_attempts.
  - eapply Forall_impl; [exact Ho|]. simpl. intros o Hu run Hr.
    unfold attempts_inv. destruct (Hu run Hr) as (-> & -> & ->).
    split; [done|]. split; [lia|done].
Qed.


(** A claim starts work on a ready run and never lends it more time. It takes
    a queued run of the worker's classes that is due and below the expiration
    limit, ahead of which (in priority, then age) no such unlocked run stands;
    the run it returns is RUNNING under a fresh epoch, its execution window has
    been counted once (now plus the window, never past the deadline it had) and
    is cleared, so that a later claim keeps the deadline. *)
Theorem claim_picks_first cfg tie w classes locked now d cr d' :
  keyed d → claim cfg tie w classes locked now d = (Some cr, d') →
  ∃ r, RunRows.runs d !! id (RunRows.columns r) = Some r ∧
    claimable cfg classes now (RunRows.columns r) = true ∧
    (∀ i x, RunRows.runs d !! i = Some x → claimable cfg classes now (RunRows.columns x) = true →
       i ∉ locked → before tie (RunRows.columns r) (RunRows.columns x) = true) ∧
    let c := RunRows.columns r in let run := claimed_run cr in
    id run = id c ∧ status run = RUNNING ∧ lease_epoch run = lease_epoch c + 1 ∧
    attempts run = attempts c + 1 ∧ failure run = None ∧
    execution_seconds (limits run) = None ∧
    (run_deadline_at c = deadline_at (limits c) → run_deadline_at run = deadline_at (limits run)) ∧
    run_deadline_at run =
      match execution_seconds (limits c) with
      | None => run_deadline_at c
      | Some n => Some (Z.min (now + seconds n) (default (now + seconds n) (run_deadline_at c)))
      end.
Proof.
  intros Hk Hcl. apply claim_spec in Hcl as (r & Hcand & Hr & Hc & _ & Hrun & _); [|done].
  exists r. split; [done|]. split; [done|]. split.
  { intros i x Hx Hcx Hnl. eapply candidate_first; [exact Hcand|exact Hx|exact Hcx|].
    by rewrite (Hk i x Hx). }
  cbv zeta. rewrite Hrun. exact (claimed_fields cfg w now (RunRows.columns r) r).
Qed.

(** ** Witnesses *)
Definition sample_cfg : config := {| lease_duration := seconds 30; max_attempts := 3 |}.
Definition sample_tie (r : Run) : N := id r.
Definition sample_iso (at_ : datetime) : string := "t".
Definition sample_db : RunRows.t :=
  {| RunRows.runs := {[ 1%N := {| RunRows.columns := (sample_run 1 9 QUEUED)
                                    <| limits := RunLimits_default <| execution_seconds := Some 60 |> |>;
                                  RunRows.people_erased_at := None |} ]};
     RunRows.sessions := ∅ |}.
Definition claimed_db : RunRows.t := (claim sample_cfg sample_tie "w1" [0] ∅ 100 sample_db).2.
Definition lost_lease : WorkerLease :=
  {| lease_run_id := 1; worker_id := "w1"; lease_epoch_held := 1 |}.
Definition reclaimed_db : RunRows.t :=
  (reclaim_expired sample_cfg sample_tie sample_iso 10 true ∅ (seconds 40) claimed_db).1.2.

Lemma keyed_singleton i r ss :
  id (RunRows.columns r) = i → keyed {| RunRows.runs := {[ i := r ]}; RunRows.sessions := ss |}.
Proof. intros Hi j x Hx. simpl in Hx. by apply lookup_singleton_Some in Hx as [<- <-]. Qed.

Lemma steps_keyed os : keyed (steps sample_cfg sample_tie sample_iso os sample_db).
Proof.
  apply (steps_all sample_cfg sample_tie sample_iso (λ _, True)); try done.
  - by apply Forall_forall.
  - by apply keyed_singleton.
Qed.


Lemma expirations_bounded_witness :
  attempts_inv sample_cfg (RunRows.columns
    (default {| RunRows.columns := sample_run 1 9 QUEUED; RunRows.people_erased_at := None |}
       (RunRows.runs (steps sample_cfg sample_tie sample_iso
          [Claim "w1" [0] ∅ 100; Reclaim 10 true ∅ (seconds 40)] sample_db) !! 1%N))).
Proof.
  destruct (expirations_bounded sample_cfg sample_tie sample_iso
    [Claim "w1" [0] ∅ 100; Reclaim 10 true ∅ (seconds 40)] sample_db) as [_ Hall].
  - reflexivity.
  - by repeat constructor.
  - by apply keyed_singleton.
  - intros i r Hr. unfold sample_db in Hr. simpl in Hr.
    apply lookup_singleton_Some in Hr as [<- <-]. split; [done|]. split; [done|]. by intros [].
  - destruct (RunRows.runs (steps _ _ _ _ sample_db) !! 1%N) as [r|] eqn:E.
    + exact (Hall 1%N r E).
    + split; [done|]. split; [done|]. by intros [].
Defined.


Lemma claim_picks_first_witness :
  match claim sample_cfg sample_tie "w1" [0] ∅ 100 sample_db with
  | (Some cr, _) => execution_seconds (limits (claimed_run cr)) = None ∧
                    run_deadline_at (claimed_run cr) = Some (100 + seconds 60)
  | (None, _) => False
  end.
Proof.
  destruct (claim sample_cfg sample_tie "w1" [0] ∅ 100 sample_db) as [o d'] eqn:E.
  destruct o as [cr|]; [|vm_compute in E; discriminate E].
  destruct (claim_picks_first sample_cfg sample_tie "w1" [0] ∅ 100 sample_db cr d')
    as (r & Hr & _ & _ & _ & _ & _ & _ & _ & Hw & _ & Hd); [by apply keyed_singleton|exact E|].
  split; [exact Hw|]. rewrite Hd.
  unfold sample_db in Hr. simpl in Hr. apply lookup_singleton_Some in Hr as [_ <-]. reflexivity.
Defined.
