(* ===== verification/Budgets.v ===== *)
(** * Budgets: the pre-operation checks and the two ledgers ([runtime/budgets.py])

    The run object the runtime mutates is passed in and handed back; the stored
    runs are any implementation of the repository contract. [UnitOfWorkBudgetLedger]
    writes through a unit of work: the attempt record and the counters become
    durable together, or neither does ([PostgresUnitOfWork.__aexit__]). What the
    database decides at commit is the [commit] parameter. *)
From S2P Require Import Prelude PyDecimal RunModel RunSpec RunStore.

Inductive CostSource :=
| PROVIDER_COST_API | GENERATION_USAGE | MODEL_CATALOG | DOCS_SNAPSHOT | CONFIG_OVERRIDE.
Inductive StopReason :=
| END_TURN | TOOL_USE | MAX_TOKENS | STOP_SEQUENCE | CONTENT_FILTER | INCOMPLETE | STOP_CANCELLED.
#[export] Instance StopReason_eq_dec : EqDecision StopReason.
Proof. solve_decision. Defined.
Inductive ModelErrorKind := TRANSIENT | PERMANENT | PROTOCOL.
#[export] Instance ModelErrorKind_eq_dec : EqDecision ModelErrorKind.
Proof. solve_decision. Defined.

Record ModelUsage := {
  u_input_tokens : Z;
  u_cached_input_tokens : Z;
  u_cache_write_input_tokens : Z;
  u_cache_write_1h_input_tokens : Z;
  u_output_tokens : Z;
  u_reasoning_tokens : option Z;
  u_cost : decimal;
  u_cost_source : CostSource;
  u_provider : string;
  u_model : string;
}.

(** [Field(ge=0)] on the token counts. *)
Definition ModelUsage_valid (u : ModelUsage) : bool :=
  (0 <=? u_input_tokens u) && (0 <=? u_cached_input_tokens u) &&
  (0 <=? u_cache_write_input_tokens u) && (0 <=? u_cache_write_1h_input_tokens u) &&
  (0 <=? u_output_tokens u) &&
  match u_reasoning_tokens u with None => true | Some n => 0 <=? n end.

Record ModelAttempt := {
  attempt_id : UUID;
  attempt_run_id : UUID;
  attempt_step_number : Z;
  attempt_number_ : Z;
  attempt_started_at : datetime;
}.

(** The part of [ResolvedModel] the ledger reads. *)
Record ResolvedModel := { rm_provider : string; rm_model : string; rm_policy_name : string }.

Record ModelCallRecord := {
  call_attempt_id : UUID;
  call_run_id : UUID;
  call_session_id : UUID;
  call_tenant_id : string;
  call_step_number : Z;
  call_attempt_number : Z;
  call_provider : string;
  call_model : string;
  call_model_policy : string;
  call_registry_version : string;
  call_prefix_sha256 : string;
  call_usage : ModelUsage;
  call_cost : decimal;
  call_cost_source : CostSource;
  call_stop_reason : option StopReason;
  call_error_kind : option ModelErrorKind;
  call_started_at : datetime;
  call_finished_at : option datetime;
}.

Definition FAKE_MODEL_REGISTRY_VERSION : string := "fake-model-catalog@1".

(** [_check_before_operation] *)
Definition _check_before_operation (run : Run) (scope : BudgetScope) (now : datetime)
    : result unit :=
  raise_if match run_deadline_at run with None => false | Some d => d <=? now end
    with BudgetExceededError "deadline_exceeded" "the run deadline elapsed";
  raise_if (negb (bool_decide (kind run = JOB)) || bool_decide (scope = ATTEMPT)) &&
           match max_cost (limits run) with
           | None => false
           | Some c => dec_leb c (cost (usage run))
           end
    with BudgetExceededError "budget_exceeded" "the run cost limit was reached";
  raise_if bool_decide (scope = STEP) && (max_steps (limits run) <=? step_count run)
    with BudgetExceededError "max_steps_exceeded" "the run step limit was reached";
  raise_if bool_decide (scope = TOOL_CALL) && (max_tool_calls (limits run) <=? tool_call_count run)
    with BudgetExceededError "budget_exceeded" "the run tool-call limit was reached";
  if bool_decide (scope = ATTEMPT) then
    raise_if max_model_calls (limits run) <=? model_call_count run
      with BudgetExceededError "budget_exceeded" "the run model-call limit was reached";
    raise_if match max_input_tokens (limits run) with
             | None => false
             | Some n => n <=? input_tokens (usage run)
             end
      with BudgetExceededError "budget_exceeded" "the run input-token limit was reached";
    raise_if match max_output_tokens (limits run) with
             | None => false
             | Some n => n <=? output_tokens (usage run)
             end
      with BudgetExceededError "budget_exceeded" "the run output-token limit was reached";
    Ok tt
  else Ok tt.

(** [_check_after_record] *)
Definition _check_after_record (run : Run) : result unit :=
  raise_if max_model_calls (limits run) <? model_call_count run
    with BudgetExceededError "budget_exceeded" "model-call budget exceeded";
  raise_if max_tool_calls (limits run) <? tool_call_count run
    with BudgetExceededError "budget_exceeded" "tool-call budget exceeded";
  raise_if match max_input_tokens (limits run) with
           | None => false
           | Some n => n <? input_tokens (usage run)
           end
    with BudgetExceededError "budget_exceeded" "input-token budget exceeded";
  raise_if match max_output_tokens (limits run) with
           | None => false
           | Some n => n <? output_tokens (usage run)
           end
    with BudgetExceededError "budget_exceeded" "output-token budget exceeded";
  raise_if match max_cost (limits run) with
           | None => false
           | Some c => dec_ltb c (cost (usage run))
           end
    with BudgetExceededError "budget_exceeded" "cost budget exceeded";
  Ok tt.

(** [int(s, 16)] accepts what it accepts: white space around, a sign, a [0x]
    prefix, and digits separated by single underscores. *)
Definition hex_digit (c : Ascii.ascii) : bool :=
  let n := Ascii.N_of_ascii c in
  ((48 <=? n) && (n <=? 57) || (65 <=? n) && (n <=? 70) || (97 <=? n) && (n <=? 102))%N.
Definition underscore : Ascii.ascii := "_"%char.
(** Digits with single underscores between them; [after] says a digit came just before. *)
Fixpoint hex_digits (after : bool) (s : string) : bool :=
  match s with
  | EmptyString => after
  | String c s' =>
      if hex_digit c then hex_digits true s'
      else if Ascii.eqb c underscore then after && hex_digits false s'
      else false
  end.
Fixpoint lstrip (s : string) : string :=
  match s with
  | EmptyString => EmptyString
  | String c s' => if py_isspace c then lstrip s' else s
  end.
Fixpoint rstrip (s : string) : string :=
  match s with
  | EmptyString => EmptyString
  | String c s' =>
      match rstrip s' with
      | EmptyString => if py_isspace c then EmptyString else String c EmptyString
      | r => String c r
      end
  end.
Definition int16_parses (s : string) : bool :=
  let s := rstrip (lstrip s) in
  let s := match s with
           | String c s' => if Ascii.eqb c "+"%char || Ascii.eqb c "-"%char then s' else s
           | EmptyString => s
           end in
  match s with
  | String "0"%char (String x s') =>
      if Ascii.eqb x "x"%char || Ascii.eqb x "X"%char then
        match s' with
        | String u s'' => if Ascii.eqb u underscore then hex_digits false s'' else hex_digits false s'
        | EmptyString => false
        end
      else hex_digits false s
  | _ => hex_digits false s
  end.

(** [_require_prefix_hash], on [request.metadata.get("prefix_sha256")]. *)
Definition _require_prefix_hash (prefix_sha256 : option string) : result string :=
  match prefix_sha256 with
  | None => Raise (RuntimeError "durable model usage requires a 64-character prefix_sha256")
  | Some s =>
      raise_if negb (Nat.eqb (String.length s) 64)
        with RuntimeError "durable model usage requires a 64-character prefix_sha256";
      raise_if negb (int16_parses s)
        with RuntimeError "durable model usage requires a hexadecimal prefix_sha256";
      Ok s
  end.

(** [(reasoning or 0) + usage.reasoning_tokens], when the attempt reports any. *)
Definition add_reasoning (total reported : option Z) : option Z :=
  match reported with
  | None => total
  | Some n => Some (default 0 total + n)
  end.

(** The new [RunUsage] both ledgers compute. *)
Definition add_model_usage (u : RunUsage) (x : ModelUsage) : RunUsage :=
  {| input_tokens := input_tokens u + u_input_tokens x;
     cached_input_tokens := cached_input_tokens u + u_cached_input_tokens x;
     cache_write_input_tokens := cache_write_input_tokens u + u_cache_write_input_tokens x;
     output_tokens := output_tokens u + u_output_tokens x;
     reasoning_tokens := add_reasoning (reasoning_tokens u) (u_reasoning_tokens x);
     model_calls := model_calls u + 1;
     tool_calls := tool_calls u;
     cost := dec_add default_prec (cost u) (u_cost x) |}.

(** The mutations of the run object. *)
Definition with_model_usage (x : ModelUsage) (now : datetime) (run : Run) : Run :=
  run <| usage := add_model_usage (usage run) x |>
      <| model_call_count := model_call_count run + 1 |> <| updated_at := now |>.
Definition with_tool_usage (count : Z) (now : datetime) (run : Run) : Run :=
  run <| tool_call_count := tool_call_count run + count |>
      <| usage := (usage run) <| tool_calls := tool_calls (usage run) + count |> |>
      <| updated_at := now |>.
Definition with_refund (now : datetime) (run : Run) : Run :=
  run <| step_count := if 0 <? step_count run then step_count run - 1 else step_count run |>
      <| model_call_count :=
           if 0 <? model_call_count run then model_call_count run - 1 else model_call_count run |>
      <| updated_at := now |>.

(** [_restore_run_accounting] *)
Definition _restore_run_accounting (run snapshot : Run) : Run :=
  run <| usage := usage snapshot |> <| step_count := step_count snapshot |>
      <| model_call_count := model_call_count snapshot |>
      <| tool_call_count := tool_call_count snapshot |> <| updated_at := updated_at snapshot |>.

Section ledgers.
Context {R : Type} `{RunRepositoryLaws R}.

(** [uow.runs.update_counters(run, lease=...)] *)
Definition store_counters (run : Run) (lease : option WorkerLease) (r : R) : result unit * R :=
  match perform (UpdateCounters run lease) r with
  | (Raise e, r') => (Raise e, r')
  | (Ok _, r') => (Ok tt, r')
  end.

(** ** [InMemoryBudgetLedger] *)

Definition memory_record (changed : Run) (check : bool) (r : R) : result unit * Run * R :=
  match store_counters changed None r with
  | (Raise e, r') => (Raise e, changed, r')
  | (Ok _, r') => (if check then _check_after_record changed else Ok tt, changed, r')
  end.
Definition memory_record_model_usage (run : Run) (x : ModelUsage) (now : datetime) (r : R) :=
  memory_record (with_model_usage x now run) true r.
Definition memory_record_tool_usage (run : Run) (count : Z) (now : datetime) (r : R) :=
  memory_record (with_tool_usage count now run) true r.
Definition memory_refund_orchestration_turn (run : Run) (now : datetime) (r : R) :=
  memory_record (with_refund now run) false r.

(** ** The unit of work: the repositories a transaction writes *)
Record tier := { stored_runs : R; _calls : list ModelCallRecord }.

(** [record_attempt]: keep the first record of an attempt id. *)
Definition record_attempt (call : ModelCallRecord) (s : tier) : tier :=
  if bool_decide (call_attempt_id call ∈ map call_attempt_id (_calls s)) then s
  else {| stored_runs := stored_runs s; _calls := _calls s ++ [call] |}.

(** [async with uow]: the body, then commit; any exception rolls back. *)
Definition unit_of_work (commit : tier → result unit) (body : stateM tier unit)
    (s : tier) : result unit * tier :=
  match body s with
  | (Raise e, _) => (Raise e, s)
  | (Ok _, s') => match commit s' with Ok _ => (Ok tt, s') | Raise e => (Raise e, s) end
  end.

Definition update_counters_in (run : Run) (lease : option WorkerLease) : stateM tier unit :=
  λ s, match store_counters run lease (stored_runs s) with
       | (a, r') => (a, {| stored_runs := r'; _calls := _calls s |})
       end.

(** ** [UnitOfWorkBudgetLedger] *)
Context (commit : tier → result unit) (lease : option WorkerLease).

(** Persist, or put the run object back and re-raise; then [_check_after_record]. *)
Definition persisted (snapshot changed : Run) (body : stateM tier unit) (check : bool) (s : tier)
    : result unit * Run * tier :=
  match unit_of_work commit body s with
  | (Raise e, s') => (Raise e, _restore_run_accounting changed snapshot, s')
  | (Ok _, s') => (if check then _check_after_record changed else Ok tt, changed, s')
  end.

Definition model_call_record (run : Run) (x : ModelUsage) (step_number : Z)
    (attempt : ModelAttempt) (resolved : ResolvedModel) (registry_version : option string)
    (prefix : string) (stop : option StopReason) (err : option ModelErrorKind) (now : datetime)
    : ModelCallRecord :=
  {| call_attempt_id := attempt_id attempt; call_run_id := id run;
     call_session_id := session_id run; call_tenant_id := tenant_id run;
     call_step_number := step_number; call_attempt_number := attempt_number_ attempt;
     call_provider := rm_provider resolved; call_model := rm_model resolved;
     call_model_policy := rm_policy_name resolved;
     call_registry_version :=
       match registry_version with
       | None | Some EmptyString => FAKE_MODEL_REGISTRY_VERSION
       | Some v => v
       end;
     call_prefix_sha256 := prefix; call_usage := x; call_cost := u_cost x;
     call_cost_source := u_cost_source x; call_stop_reason := stop; call_error_kind := err;
     call_started_at := attempt_started_at attempt; call_finished_at := Some now |}.

Definition record_model_usage (run : Run) (x : ModelUsage) (step_number : Z)
    (attempt : option ModelAttempt) (prefix_sha256 : option (option string))
    (resolved : option ResolvedModel) (registry_version : option string)
    (stop : option StopReason) (err : option ModelErrorKind) (now : datetime) (s : tier)
    : result unit * Run * tier :=
  match attempt, prefix_sha256, resolved with
  | Some attempt, Some prefix_sha256, Some resolved =>
      let changed := with_model_usage x now run in
      persisted run changed
        (λ s, match _require_prefix_hash prefix_sha256 with
              | Raise e => (Raise e, s)
              | Ok prefix =>
                  let call := model_call_record changed x step_number attempt resolved
                                registry_version prefix stop err now in
                  update_counters_in changed lease (record_attempt call s)
              end) true s
  | _, _, _ =>
      (Raise (RuntimeError "durable model usage requires attempt, request, and resolution"), run, s)
  end.

Definition record_tool_usage (run : Run) (count : Z) (now : datetime) (s : tier)
    : result unit * Run * tier :=
  let changed := with_tool_usage count now run in
  persisted run changed (update_counters_in changed lease) true s.

Definition refund_orchestration_turn (run : Run) (now : datetime) (s : tier)
    : result unit * Run * tier :=
  let changed := with_refund now run in
  persisted run changed (update_counters_in changed lease) false s.

(** ** [InMemoryUsageRepository.run_usage]: the rollup of the recorded attempts *)
Definition zsum (l : list Z) : Z := foldl Z.add 0 l.
Definition run_usage (calls : list ModelCallRecord) (run_id : UUID) : RunUsage :=
  let calls := filter (λ c, call_run_id c = run_id) calls in
  let reasoning := omap (λ c, u_reasoning_tokens (call_usage c)) calls in
  {| input_tokens := zsum (map (λ c, u_input_tokens (call_usage c)) calls);
     cached_input_tokens := zsum (map (λ c, u_cached_input_tokens (call_usage c)) calls);
     cache_write_input_tokens :=
       zsum (map (λ c, u_cache_write_input_tokens (call_usage c)) calls);
     output_tokens := zsum (map (λ c, u_output_tokens (call_usage c)) calls);
     reasoning_tokens := match reasoning with [] => None | _ => Some (zsum reasoning) end;
     model_calls := Z.of_nat (length calls);
     tool_calls := 0;
     cost := foldl (dec_add default_prec) (Dec 0 0) (map call_cost calls) |}.

(** ** Lemmas *)
Lemma restore_model_usage x now run :
  _restore_run_accounting (with_model_usage x now run) run = run.
Proof. by destruct run. Qed.
Lemma restore_tool_usage n now run :
  _restore_run_accounting (with_tool_usage n now run) run = run.
Proof. by destruct run. Qed.
Lemma restore_refund now run : _restore_run_accounting (with_refund now run) run = run.
Proof. by destruct run. Qed.

(** The stored run carries the counters of the run object. *)
Definition synced (run : Run) (r : R) : Prop :=
  ∃ x, runs_of r !! id run = Some x ∧ same_counters run x.

Lemma store_counters_ok run l r r' :
  repo_ok r → store_counters run l r = (Ok tt, r') → repo_ok r' ∧ synced run r'.
Proof.
  intros Hok. unfold store_counters.
  destruct (perform (UpdateCounters run l) r) as [[v|e] r''] eqn:E; [|done]. intros [= <-].
  apply perform_ok in E as (Hok' & (cur & new & Hc & Hs & Hr) & _); [|done]. split; [done|].
  exists new. rewrite Hr. split; [apply lookup_insert_eq|].
  destruct Hs as (_ & _ & _ & _ & _ & _ & _ & _ & Hs). unfold same_counters. tauto.
Qed.
Lemma store_counters_raise run l r e r' : store_counters run l r = (Raise e, r') → r' = r.
Proof.
  unfold store_counters. destruct (perform _ r) as [[v|e'] r''] eqn:E; [done|].
  intros [= _ <-]. by eapply perform_raise.
Qed.

Lemma persisted_cases run changed body check s a run' s' :
  _restore_run_accounting changed run = run →
  persisted run changed body check s = (a, run', s') →
  (is_ok a = false ∧ run' = run ∧ s' = s) ∨
  (run' = changed ∧ a = (if check then _check_after_record changed else Ok tt) ∧
   body s = (Ok tt, s')).
Proof.
  intros Hres. unfold persisted, unit_of_work.
  destruct (body s) as [[[]|e] s1]; [destruct (commit s1)|]; intros [= <- <- <-]; auto.
Qed.

(** ** Sequences of ledger calls *)
Inductive ledger_op :=
| RecordModel (x : ModelUsage) (step_number : Z) (attempt : ModelAttempt)
    (prefix_sha256 : option string) (resolved : ResolvedModel) (registry : option string)
    (stop : option StopReason) (err : option ModelErrorKind) (now : datetime)
| RecordTool (count : Z) (now : datetime)
| Refund (now : datetime).

Definition ledger_step (o : ledger_op) (run : Run) (s : tier) : result unit * Run * tier :=
  match o with
  | RecordModel x n att pre res reg stop err now =>
      record_model_usage run x n (Some att) (Some pre) (Some res) reg stop err now s
  | RecordTool n now => record_tool_usage run n now s
  | Refund now => refund_orchestration_turn run now s
  end.
Definition ledger_run (os : list ledger_op) (run : Run) (s : tier) : Run * tier :=
  foldl (λ st o, let '(_, run', s') := ledger_step o st.1 st.2 in (run', s')) (run, s) os.

Definition op_attempt (o : ledger_op) : option UUID :=
  match o with RecordModel _ _ att _ _ _ _ _ _ => Some (attempt_id att) | _ => None end.

Lemma update_counters_in_ok run s s' :
  update_counters_in run lease s = (Ok tt, s') →
  _calls s' = _calls s ∧
  (repo_ok (stored_runs s) → repo_ok (stored_runs s') ∧ synced run (stored_runs s')).
Proof.
  unfold update_counters_in.
  destruct (store_counters run lease (stored_runs s)) as [a r'] eqn:E. intros [= -> <-].
  split; [done|]. intros Hok. by eapply store_counters_ok.
Qed.

(** What one call does, whatever its outcome. *)
Lemma ledger_step_cases o run s a run' s' :
  ledger_step o run s = (a, run', s') →
  (is_ok a = false ∧ run' = run ∧ s' = s) ∨
  (repo_ok (stored_runs s) → repo_ok (stored_runs s') ∧ synced run' (stored_runs s')) ∧
  match o with
  | RecordModel x n att pre res reg stop err now =>
      run' = with_model_usage x now run ∧ a = _check_after_record run' ∧
      ∃ prefix, _calls s' = _calls (record_attempt
        (model_call_record run' x n att res reg prefix stop err now) s)
  | RecordTool n now =>
      run' = with_tool_usage n now run ∧ a = _check_after_record run' ∧ _calls s' = _calls s
  | Refund now => run' = with_refund now run ∧ a = Ok tt ∧ _calls s' = _calls s
  end.
Proof.
  destruct o; unfold ledger_step, record_model_usage, record_tool_usage,
    refund_orchestration_turn; intros Hp.
  - apply persisted_cases in Hp as [?|(-> & -> & Hb)]; [by left|right|apply restore_model_usage].
    destruct (_require_prefix_hash prefix_sha256) as [prefix|]; [|done].
    apply update_counters_in_ok in Hb as [Hc Hs]. split.
    + intros Hok. apply Hs. unfold record_attempt. by case_bool_decide.
    + split; [done|]. split; [done|]. by exists prefix.
  - apply persisted_cases in Hp as [?|(-> & -> & Hb)]; [by left|right|apply restore_tool_usage].
    apply update_counters_in_ok in Hb as [Hc Hs]. auto.
  - apply persisted_cases in Hp as [?|(-> & -> & Hb)]; [by left|right|apply restore_refund].
    apply update_counters_in_ok in Hb as [Hc Hs]. auto.
Qed.

(** ** The rollup *)
Lemma zsum_snoc l x : zsum (l ++ [x]) = zsum l + x.
Proof. unfold zsum. by rewrite foldl_app. Qed.

Lemma run_usage_snoc calls call :
  call_cost call = u_cost (call_usage call) →
  run_usage (calls ++ [call]) (call_run_id call) =
  (add_model_usage (run_usage calls (call_run_id call)) (call_usage call)) <| tool_calls := 0 |>.
Proof.
  intros Hcost. unfold run_usage, add_model_usage. rewrite filter_app, filter_cons_True by done.
  rewrite filter_nil, !map_app, omap_app, length_app. simpl. rewrite !zsum_snoc.
  rewrite foldl_app. simpl. rewrite Hcost. f_equal; [|lia].
  set (rs := omap _ (filter _ calls)). unfold add_reasoning.
  destruct (u_reasoning_tokens (call_usage call)) as [n|]; simpl; [|by rewrite app_nil_r].
  destruct rs as [|r rs]; simpl; [done|].
  change (r :: rs ++ [n]) with ((r :: rs) ++ [n]). by rewrite zsum_snoc.
Qed.

Lemma run_usage_other calls call i :
  call_run_id call ≠ i → run_usage (calls ++ [call]) i = run_usage calls i.
Proof.
  intros Hne. unfold run_usage. by rewrite filter_app, filter_cons_False, filter_nil, app_nil_r.
Qed.

(** The rollup of the run's attempts is its usage, tool calls aside. *)
Definition rolled_up (run : Run) (s : tier) : Prop :=
  run_usage (_calls s) (id run) = (usage run) <| tool_calls := 0 |>.

Lemma ledger_step_rolled_up o run s a run' s' :
  ledger_step o run s = (a, run', s') → rolled_up run s →
  (∀ i, op_attempt o = Some i → i ∉ map call_attempt_id (_calls s)) →
  rolled_up run' s' ∧ ∀ i, i ∈ map call_attempt_id (_calls s') →
    i ∈ map call_attempt_id (_calls s) ∨ op_attempt o = Some i.
Proof.
  intros Hst Hr Hn. apply ledger_step_cases in Hst as [(_ & -> & ->)|[_ Hst]]; [by auto|].
  destruct o; destruct Hst as (-> & _ & Hst).
  - destruct Hst as [prefix Hc]. unfold rolled_up. rewrite Hc.
    unfold record_attempt. rewrite bool_decide_false by (by apply Hn).
    cbn [_calls]. split.
    + set (call := model_call_record _ _ _ _ _ _ _ _ _ _).
      transitivity ((add_model_usage (run_usage (_calls s) (id run)) x) <| tool_calls := 0 |>).
      { exact (run_usage_snoc (_calls s) call eq_refl). }
      rewrite Hr. done.
    + intros i. rewrite map_app, elem_of_app. simpl. intros [?|Hi]; [by left|right].
      by apply list_elem_of_singleton in Hi as ->.
  - split; [|rewrite Hst; auto]. unfold rolled_up in *. rewrite Hst. exact Hr.
  - split; [|rewrite Hst; auto]. unfold rolled_up in *. rewrite Hst. exact Hr.
Qed.
End ledgers.

(** ** Limits *)
Lemma over_limit (m : option Z) n :
  match m with None => false | Some l => l <? n end = false ↔ ∀ l, m = Some l → n ≤ l.
Proof. destruct m; [rewrite Z.ltb_ge|]; naive_solver. Qed.
Lemma over_cost (m : option decimal) d :
  match m with None => false | Some c => dec_ltb c d end = false ↔ ∀ c, m = Some c → dec_le d c.
Proof.
  destruct m as [c|]; [|naive_solver].
  rewrite <- negb_true_iff, <- dec_leb_ltb, dec_leb_le. naive_solver.
Qed.

(** ** Properties *)

(** A ledger call made in a unit of work is all or nothing. Either it raises
    and neither the run object, the stored counters nor the attempt records have
    changed (a fenced worker, a failed commit, a missing prefix hash), or it took
    effect everywhere: the run object carries the new counters, the stored run
    carries the same ones, a model attempt is recorded, and the only error left to
    raise is the budget check on the new totals. *)
Theorem ledger_all_or_nothing {R} `{RunRepositoryLaws R} commit lease o run (s : tier (R:=R)) a run' s' :
  ledger_step commit lease o run s = (a, run', s') →
  (is_ok a = false ∧ run' = run ∧ s' = s) ∨
  (repo_ok (stored_runs s) → repo_ok (stored_runs s') ∧ synced run' (stored_runs s')) ∧
  match o with
  | RecordModel x n att pre res reg stop err now =>
      run' = with_model_usage x now run ∧ a = _check_after_record run' ∧
      attempt_id att ∈ map call_attempt_id (_calls s')
  | RecordTool n now =>
      run' = with_tool_usage n now run ∧ a = _check_after_record run' ∧ _calls s' = _calls s
  | Refund now => run' = with_refund now run ∧ a = Ok tt ∧ _calls s' = _calls s
  end.
Proof.
  intros [?|[Hs Ho]]%ledger_step_cases; [by left|right]. split; [done|].
  destruct o; try done. destruct Ho as (? & ? & prefix & ->). split; [done|]. split; [done|].
  unfold record_attempt. case_bool_decide as Hin; [exact Hin|]. cbn [_calls].
  rewrite map_app, elem_of_app. right. by apply list_elem_of_singleton.
Qed.

(** The run object and its stored counters stay equal over any sequence of
    ledger calls, whatever each of them raises. *)
Theorem ledger_synced {R} `{RunRepositoryLaws R} commit lease os run (s : tier (R:=R)) :
  repo_ok (stored_runs s) → synced run (stored_runs s) →
  let '(run', s') := ledger_run commit lease os run s in
  repo_ok (stored_runs s') ∧ synced run' (stored_runs s').
Proof.
  unfold ledger_run. revert run s. induction os as [|o os IH]; intros run s Hok Hs; [done|].
  cbn [foldl fst snd]. destruct (ledger_step commit lease o run s) as [[a run'] s'] eqn:E.
  apply ledger_step_cases in E as [(_ & -> & ->)|[Hk _]]; [by apply IH|].
  destruct (Hk Hok). by apply IH.
Qed.

(** The counters of a run are the rollup of its recorded attempts: over any
    sequence of ledger calls with distinct attempt ids (failed, refused and rolled
    back ones included) the token totals, the cost, the reasoning total and the
    number of attempts in [run.usage] are those [run_usage] computes from the
    attempt records. *)
Theorem ledger_matches_attempts {R} `{RunRepositoryLaws R} commit lease os run (s : tier (R:=R)) :
  rolled_up run s → NoDup (omap op_attempt os) →
  (∀ i, i ∈ omap op_attempt os → i ∉ map call_attempt_id (_calls s)) →
  let '(run', s') := ledger_run commit lease os run s in rolled_up run' s'.
Proof.
  unfold ledger_run. revert run s. induction os as [|o os IH]; intros run s Hr Hnd Hni; [done|].
  cbn [foldl fst snd]. destruct (ledger_step commit lease o run s) as [[a run'] s'] eqn:E.
  simpl in Hnd, Hni. destruct (op_attempt o) as [j|] eqn:Ho.
  - apply NoDup_cons in Hnd as [Hj Hnd].
    destruct (ledger_step_rolled_up commit lease o run s a run' s' E Hr) as [Hr' Hin].
    { rewrite Ho. intros i [= <-]. apply Hni. set_solver. }
    apply IH; [done|done|]. intros i Hi [?|He]%Hin; [set_solver|]. rewrite Ho in He. naive_solver.
  - destruct (ledger_step_rolled_up commit lease o run s a run' s' E Hr) as [Hr' Hin].
    { by rewrite Ho. }
    apply IH; [done|done|]. intros i Hi [?|He]%Hin; [set_solver|]. congruence.
Qed.

(** The check before an attempt is enough to keep the model-call limit: an
    attempt it allows never pushes the count past the limit, and recording it
    raises exactly when the tokens or the cost of this very attempt went over. *)
Theorem checked_attempt_within_limit run x now now' :
  _check_before_operation run ATTEMPT now = Ok tt →
  tool_call_count run ≤ max_tool_calls (limits run) →
  let run' := with_model_usage x now' run in
  model_call_count run' ≤ max_model_calls (limits run) ∧
  (_check_after_record run' = Ok tt ↔
   (∀ n, max_input_tokens (limits run) = Some n → input_tokens (usage run') ≤ n) ∧
   (∀ n, max_output_tokens (limits run) = Some n → output_tokens (usage run') ≤ n) ∧
   (∀ c, max_cost (limits run) = Some c → dec_le (cost (usage run')) c)).
Proof.
  unfold _check_before_operation. intros Hc Ht. cbv zeta.
  rewrite !raise_if_ok in Hc. destruct Hc as (_ & _ & _ & _ & Hc).
  rewrite bool_decide_true in Hc by done. rewrite !raise_if_ok, Z.leb_gt in Hc.
  destruct Hc as [Hm _]. unfold with_model_usage. simpl. split; [lia|].
  unfold _check_after_record. simpl. rewrite !raise_if_ok, !over_limit, over_cost, !Z.ltb_ge.
  split; [naive_solver|]. intros (? & ? & ?). repeat split; try done; lia.
Qed.

(** ** Witnesses *)
Definition sample_usage : ModelUsage :=
  {| u_input_tokens := 100; u_cached_input_tokens := 40; u_cache_write_input_tokens := 0;
     u_cache_write_1h_input_tokens := 0; u_output_tokens := 7; u_reasoning_tokens := Some 3;
     u_cost := Dec 125 (-4); u_cost_source := MODEL_CATALOG; u_provider := "fake";
     u_model := "scripted" |}.
Definition sample_attempt (i : UUID) : ModelAttempt :=
  {| attempt_id := i; attempt_run_id := 1; attempt_step_number := 1; attempt_number_ := 1;
     attempt_started_at := 6 |}.
Definition sample_prefix : string :=
  "0123456789abcdef0123456789abcdef0123456789abcdef0123456789ABCDEF".
Definition record_op (i : UUID) (prefix : string) (now : datetime) : ledger_op :=
  RecordModel sample_usage 1 (sample_attempt i) (Some prefix)
    {| rm_provider := "fake"; rm_model := "m"; rm_policy_name := "balanced" |} None
    (Some END_TURN) None now.
Definition sample_tier : tier (R:=RunStore.t) :=
  {| stored_runs := one_run_store; _calls := [] |}.
Definition commits : tier (R:=RunStore.t) → result unit := λ _, Ok tt.
(** Two attempts recorded, one refused for its prefix hash, a tool batch and a refund. *)
Definition sample_ledger : list ledger_op :=
  [record_op 11 sample_prefix 7; record_op 12 "not a hash" 8; RecordTool 2 9;
   record_op 13 sample_prefix 10; Refund 11].

Lemma ledger_all_or_nothing_witness :
  ∃ a run' s', ledger_step commits None (record_op 12 "not a hash" 8)
                 (sample_run 1 9 QUEUED) sample_tier = (a, run', s') ∧
    is_ok a = false ∧ run' = sample_run 1 9 QUEUED ∧ s' = sample_tier.
Proof.
  destruct (ledger_step commits None (record_op 12 "not a hash" 8)
              (sample_run 1 9 QUEUED) sample_tier) as [[a run'] s'] eqn:E.
  exists a, run', s'. split; [reflexivity|].
  destruct (ledger_all_or_nothing _ _ _ _ _ _ _ _ E) as [H|[_ (_ & _ & H)]]; [exact H|].
  exfalso. assert (Hc : map call_attempt_id (_calls (ledger_step commits None
    (record_op 12 "not a hash" 8) (sample_run 1 9 QUEUED) sample_tier).2) = [])
    by (vm_compute; reflexivity).
  rewrite E in Hc. cbn [snd] in Hc. rewrite Hc in H. inversion H.
Defined.

Lemma ledger_synced_witness :
  let '(run', s') := ledger_run commits None sample_ledger (sample_run 1 9 QUEUED) sample_tier in
  repo_ok (stored_runs s') ∧ synced run' (stored_runs s').
Proof.
  apply (ledger_synced commits None sample_ledger (sample_run 1 9 QUEUED) sample_tier).
  - apply memory_ok.
  - exists (sample_run 1 9 QUEUED). split; [reflexivity|]. by repeat split.
Defined.

Lemma ledger_matches_attempts_witness :
  let '(run', s') := ledger_run commits None sample_ledger (sample_run 1 9 QUEUED) sample_tier in
  rolled_up run' s' ∧ input_tokens (usage run') = 200 ∧ cost (usage run') = Dec 250 (-4) ∧
  model_calls (usage run') = 2.
Proof.
  pose proof (ledger_matches_attempts commits None sample_ledger (sample_run 1 9 QUEUED)
    sample_tier eq_refl) as H.
  assert (Hu : let u := usage (ledger_run commits None sample_ledger (sample_run 1 9 QUEUED)
                 sample_tier).1 in
    input_tokens u = 200 ∧ cost u = Dec 250 (-4) ∧ model_calls u = 2)
    by (vm_compute; repeat split).
  cbv zeta in Hu. revert H Hu.
  destruct (ledger_run commits None sample_ledger (sample_run 1 9 QUEUED) sample_tier)
    as [run' s']. intros H Hu. split.
  - apply H.
    + apply (bool_decide_unpack _). vm_compute. exact I.
    + intros i _ Hi. inversion Hi.
  - exact Hu.
Defined.

Lemma checked_attempt_within_limit_witness :
  model_call_count (with_model_usage sample_usage 9 (sample_run 1 9 RUNNING)) ≤ 12.
Proof.
  apply (checked_attempt_within_limit (sample_run 1 9 RUNNING) sample_usage 8 9);
    [reflexivity|]. vm_compute. discriminate.
Defined.
