(* ===== verification/Cancellation.v ===== *)
(** * Cooperative cancellation ([runtime/cancellation.py])

    [RunCancellationToken]: a one-shot reason, set by [cancel] or by the first
    observation at or after the deadline. [_event] is the [asyncio.Event]: a
    [wait] that finds no reason sleeps until it is set. *)
From S2P Require Import Prelude RunModel.

Definition CancelReason_value (r : CancelReason) : string :=
  match r with REQUESTED => "requested" | DEADLINE => "deadline" | FENCED => "fenced" end.

Module Token.
Record t := {
  _deadline_at : option datetime;
  _reason : option CancelReason;
  _event : bool;
}.
#[global] Instance eta_t : Eta t := λ k,
  {| _deadline_at := _deadline_at k; _reason := _reason k; _event := _event k |}.

(** [RunCancellationToken(clock, deadline_at)] *)
Definition init (deadline_at : option datetime) : t :=
  {| _deadline_at := deadline_at; _reason := None; _event := false |}.

Definition cancel (r : CancelReason) (k : t) : t :=
  match _reason k with
  | None => k <| _reason := Some r |> <| _event := true |>
  | Some _ => k
  end.

(** The [reason] property, which may trip the token; [now] is what the clock reads. *)
Definition reason (now : datetime) (k : t) : option CancelReason * t :=
  let k' :=
    match _reason k, _deadline_at k with
    | None, Some d => if d <=? now then cancel DEADLINE k else k
    | _, _ => k
    end in
  (_reason k', k').

Definition raise_if_cancelled (now : datetime) (k : t) : result unit * t :=
  let '(r, k') := reason now k in
  match r with
  | None => (Ok tt, k')
  | Some r => (Raise (RunCancelledError (CancelReason_value r)), k')
  end.

(** [wait]: [None] when the caller is suspended on the event. *)
Definition wait (now : datetime) (k : t) : option (result CancelReason) * t :=
  let '(r, k') := reason now k in
  match r with
  | Some r => (Some (Ok r), k')
  | None =>
      if _event k' then
        (Some match _reason k' with
              | None => Raise (RuntimeError "cancellation event set without a reason")
              | Some r => Ok r
              end, k')
      else (None, k')
  end.

Inductive op :=
| Cancel (r : CancelReason)
| Observe (now : datetime)
| Wait (now : datetime).
Definition step (k : t) (o : op) : t :=
  match o with
  | Cancel r => cancel r k
  | Observe now => (raise_if_cancelled now k).2
  | Wait now => (wait now k).2
  end.
Definition steps (os : list op) (k : t) : t := foldl step k os.

(** The event is set exactly when there is a reason. *)
Definition ok (k : t) : Prop := _event k = bool_decide (is_Some (_reason k)).

Lemma cancel_ok r k : ok k → ok (cancel r k).
Proof. unfold ok, cancel. destruct (_reason k) eqn:E; simpl; [by rewrite E|done]. Qed.
Lemma cancel_keeps r k x : _reason k = Some x → cancel r k = k.
Proof. unfold cancel. by intros ->. Qed.
Lemma cancel_deadline r k : _deadline_at (cancel r k) = _deadline_at k.
Proof. unfold cancel. by destruct (_reason k). Qed.

Lemma reason_ok now k : ok k → ok (reason now k).2.
Proof.
  intros Hk. unfold reason. simpl.
  destruct (_reason k) eqn:E, (_deadline_at k) as [d|]; try done.
  destruct (d <=? now); [by apply cancel_ok|done].
Qed.

Lemma step_observed k o :
  step k o = match o with Cancel r => cancel r k | Observe now | Wait now => (reason now k).2 end.
Proof.
  destruct o; cbn [step]; [done| |]; unfold raise_if_cancelled, wait;
    destruct (reason now k) as [[r|] k']; try done; by destruct (_event k').
Qed.

Lemma step_ok k o : ok k → ok (step k o).
Proof. rewrite step_observed. destruct o; auto using cancel_ok, reason_ok. Qed.

Lemma reason_keeps now k x : _reason k = Some x → reason now k = (Some x, k).
Proof. unfold reason. intros Hx. rewrite Hx. by rewrite Hx. Qed.

Lemma step_keeps k o x : _reason k = Some x → step k o = k.
Proof.
  intros Hx. rewrite step_observed.
  destruct o; [by eapply cancel_keeps|by rewrite (reason_keeps _ _ _ Hx)..].
Qed.

Lemma step_deadline k o : _deadline_at (step k o) = _deadline_at k.
Proof.
  rewrite step_observed. destruct o; [apply cancel_deadline| |]; unfold reason; simpl;
    destruct (_reason k), (_deadline_at k) as [d|] eqn:E; try done;
    destruct (d <=? now); try done; by rewrite cancel_deadline.
Qed.
End Token.

(** ** Properties *)

(** Cancellation is one-shot and consistent. From a fresh token, over any
    sequence of cancels, checks and waits: a waiter is never woken without a
    reason; the first reason is the one every later caller sees, whatever is
    requested or observed afterwards; and with no reason yet, a check raises
    exactly from the deadline on, with reason [deadline]. *)
Theorem cancellation_one_shot deadline os os' now :
  let k := Token.steps os (Token.init deadline) in
  let k' := Token.steps os' k in
  (Token.wait now k).1 ≠ Some (Raise (RuntimeError "cancellation event set without a reason")) ∧
  (∀ r, Token._reason k = Some r →
     k' = k ∧ (Token.raise_if_cancelled now k').1 = Raise (RunCancelledError (CancelReason_value r))) ∧
  (Token._reason k = None → (Token.raise_if_cancelled now k).1 =
     match deadline with
     | Some d => if d <=? now then Raise (RunCancelledError "deadline") else Ok tt
     | None => Ok tt
     end).
Proof.
  intros k k'.
  assert (Hok : Token.ok k ∧ Token._deadline_at k = deadline).
  { subst k. assert (∀ k, Token.ok k → Token.ok (Token.steps os k) ∧
      Token._deadline_at (Token.steps os k) = Token._deadline_at k) as Hall; [|by apply Hall].
    clear. unfold Token.steps. induction os as [|o os IH]; intros k Hk; [done|]. simpl.
    destruct (IH _ (Token.step_ok k o Hk)) as [? ->]. by rewrite Token.step_deadline. }
  destruct Hok as [Hok Hd]. split; [|split].
  - unfold Token.wait. pose proof (Token.reason_ok now k Hok) as Hr.
    destruct (Token.reason now k) as [r k1] eqn:E. simpl in Hr.
    destruct r as [r|]; [done|]. unfold Token.reason in E. injection E as Hn <-.
    rewrite Hn. rewrite Hr, Hn. done.
  - intros r Hr. assert (k' = k) as Hk'.
    { subst k'. clear -Hr. unfold Token.steps. revert Hr. generalize k.
      induction os' as [|o os' IH]; intros k0 Hr; [done|]. simpl.
      rewrite (Token.step_keeps _ _ _ Hr). by apply IH. }
    split; [done|]. rewrite Hk'. unfold Token.raise_if_cancelled.
    by rewrite (Token.reason_keeps _ _ _ Hr).
  - intros Hn. unfold Token.raise_if_cancelled, Token.reason. rewrite Hn, Hd.
    destruct deadline as [d|]; [|by rewrite Hn]. destruct (d <=? now); [|by rewrite Hn].
    unfold Token.cancel. by rewrite Hn.
Qed.
