(* ===== verification/PolicyModel.v ===== *)
(** * The policy vocabulary: [domain/policies.py] and the tool types it meets

    Enumerations with their wire values, the proposed action, the ruleset and the
    decision. [HardlineRule.pattern], CIDR texts and the like are kept as the
    strings the profile holds. *)
From S2P Require Import Prelude.

Inductive TrustLevel :=
| PLATFORM | TRUSTED_CONFIGURATION | USER | INTERNAL_TOOL | EXTERNAL_UNTRUSTED | MEMORY | KNOWLEDGE.
#[export] Instance TrustLevel_eq_dec : EqDecision TrustLevel.
Proof. solve_decision. Defined.
Definition TrustLevel_value (t : TrustLevel) : string :=
  match t with
  | PLATFORM => "platform"
  | TRUSTED_CONFIGURATION => "trusted_configuration"
  | USER => "user"
  | INTERNAL_TOOL => "internal_tool"
  | EXTERNAL_UNTRUSTED => "external_untrusted"
  | MEMORY => "memory"
  | KNOWLEDGE => "knowledge"
  end.
Definition TrustLevels : list TrustLevel :=
  [PLATFORM; TRUSTED_CONFIGURATION; USER; INTERNAL_TOOL; EXTERNAL_UNTRUSTED; MEMORY; KNOWLEDGE].

Inductive SideEffectClass :=
| SE_NONE | WORKSPACE_READ | WORKSPACE_WRITE | NETWORK_READ | CODE_EXECUTION | PACKAGE_INSTALL
| SANDBOX_NETWORK | EXTERNAL_MESSAGE | EXTERNAL_WRITE | EXTERNAL_DELETE | FINANCIAL
| SE_PUBLICATION | CREDENTIAL_ACCESS | HOST_ACCESS | PRIVILEGED.
#[export] Instance SideEffectClass_eq_dec : EqDecision SideEffectClass.
Proof. solve_decision. Defined.

Definition SideEffectClass_value (e : SideEffectClass) : string :=
  match e with
  | SE_NONE => "none"
  | WORKSPACE_READ => "workspace_read"
  | WORKSPACE_WRITE => "workspace_write"
  | NETWORK_READ => "network_read"
  | CODE_EXECUTION => "code_execution"
  | PACKAGE_INSTALL => "package_install"
  | SANDBOX_NETWORK => "sandbox_network"
  | EXTERNAL_MESSAGE => "external_message"
  | EXTERNAL_WRITE => "external_write"
  | EXTERNAL_DELETE => "external_delete"
  | FINANCIAL => "financial"
  | SE_PUBLICATION => "publication"
  | CREDENTIAL_ACCESS => "credential_access"
  | HOST_ACCESS => "host_access"
  | PRIVILEGED => "privileged"
  end.

Inductive RiskLevel := LOW | MEDIUM | HIGH | CRITICAL.
#[export] Instance RiskLevel_eq_dec : EqDecision RiskLevel.
Proof. solve_decision. Defined.

Inductive IdempotencyClass := READ_ONLY | IDEMPOTENT | CONDITIONALLY_IDEMPOTENT | NON_IDEMPOTENT.
#[export] Instance IdempotencyClass_eq_dec : EqDecision IdempotencyClass.
Proof. solve_decision. Defined.

Record ExecutionTarget := {
  target_kind : string;
  isolated : bool;
  network_enabled : bool;
  device_id : option string;
  server_id : option string;
}.

Inductive PolicyDecisionType := ALLOW | ALLOW_WITH_MODIFICATIONS | REQUIRE_APPROVAL | DENY.
#[export] Instance PolicyDecisionType_eq_dec : EqDecision PolicyDecisionType.
Proof. solve_decision. Defined.

(** [POLICY_DECISION_RANK] *)
Definition POLICY_DECISION_RANK (d : PolicyDecisionType) : Z :=
  match d with ALLOW => 0 | ALLOW_WITH_MODIFICATIONS => 1 | REQUIRE_APPROVAL => 2 | DENY => 3 end.

Inductive PolicyCondition :=
| PATH_INSIDE_WORKSPACE | HOST_ON_ALLOWLIST | TARGET_ISOLATED | BOUNDED_BROWSER_SCROLL.
#[export] Instance PolicyCondition_eq_dec : EqDecision PolicyCondition.
Proof. solve_decision. Defined.

Inductive HardlineRuleKind := SIDE_EFFECT | COMMAND_REGEX | PROTECTED_PATH | NETWORK_RANGE | TRUST_FLOW.
#[export] Instance HardlineRuleKind_eq_dec : EqDecision HardlineRuleKind.
Proof. solve_decision. Defined.

Inductive ActionKind := TOOL_CALL_ACTION | MEMORY_WRITE | SKILL_AUTHORING | ARTIFACT_EXPORT.
#[export] Instance ActionKind_eq_dec : EqDecision ActionKind.
Proof. solve_decision. Defined.

Record ProposedAction := {
  action_kind : ActionKind;
  action_id : UUID;
  action_tenant_id : string;
  action_session_id : UUID;
  action_run_id : UUID;
  action_step_number : Z;
  name : string;
  version : option string;
  summary : string;
  side_effect : SideEffectClass;
  risk : RiskLevel;
  idempotency : IdempotencyClass;
  required_scopes : gset string;
  arguments : dict;
  normalized_arguments_hash : string;
  argument_trust : gmap string TrustLevel;
  origin_trust : TrustLevel;
  newest_user_trust : option TrustLevel;
  action_target : ExecutionTarget;
  evaluated_at : datetime;
}.

Record PolicyDecision := {
  decision : PolicyDecisionType;
  reason_code : string;
  explanation : string;
  modified_arguments : option dict;
  policy_version : string;
  untrusted_escalation : bool;
}.

Inductive AdvisoryVerdictType := ABSTAIN | ADVISE_APPROVAL | ADVISE_DENY.
Record AdvisoryVerdict := {
  verdict : AdvisoryVerdictType;
  signals : list string;
  advisor_version : string;
}.

Record PolicyRule := {
  rule_side_effect : SideEffectClass;
  rule_decision : PolicyDecisionType;
  rule_condition : option PolicyCondition;
  rule_otherwise : option PolicyDecisionType;
}.

Record ToolPolicyRule := {
  tool_name : string;
  tool_decision : PolicyDecisionType;
  tool_condition : option PolicyCondition;
  tool_otherwise : option PolicyDecisionType;
  human_confirms_arguments : bool;
}.

Record HardlineRule := {
  rule_id : string;
  rule_kind : HardlineRuleKind;
  applies_to : list SideEffectClass;
  message_code : string;
  near_miss : string;
  pattern : option string;
  paths : list string;
  cidrs : list string;
  source : option string;
}.

Record LoadedRuleset := {
  ruleset_version : string;
  profile_name : string;
  profile_sha256 : string;
  hardline_sha256 : string;
  rules : list PolicyRule;
  tool_rules : list ToolPolicyRule;
  hardline : list HardlineRule;
  default_effect : PolicyDecisionType;
  unknown_tool_decision : PolicyDecisionType;
  external_untrusted_requires_approval : bool;
  self_approval_enabled : bool;
  advisory_enabled : bool;
  approval_expiry_seconds : list (RiskLevel * Z);
}.
