(* ===== verification/Hardline.v ===== *)
(** * The hardline rules ([policy/hardline.py])

    [posixpath.normpath] is modelled on the text; the regular-expression engine,
    [urllib.parse] and [ipaddress] are parameters of [hardline_matches], so its
    theorems hold for every behaviour of theirs. Where a path leads is said a second
    time, by a walk over its components that writes no text ([resolved]), and the path
    rule is proved to be containment of those. *)
From S2P Require Import Prelude PolicyModel.
Local Open Scope string_scope.

(** [_strings]: every string inside the arguments, dictionary keys included. *)
Fixpoint strings_of (v : json) : list string :=
  match v with
  | JStr s => [s]
  | JObj o => List.flat_map (λ kv, kv.1 :: strings_of kv.2) o
  | JArr l => List.flat_map strings_of l
  | _ => []
  end.
Definition _strings (arguments : dict) : list string := strings_of (JObj arguments).

Definition slash : Ascii.ascii := "/"%char.
Definition backslash : Ascii.ascii := Ascii.ascii_of_N 92.

(** One component of the loop of [posixpath.normpath], [rooted] when the path is absolute. *)
Definition norm_step (rooted : bool) (new : list string) (comp : string) : list string :=
  if bool_decide (comp ∈ [""; "."]) then new
  else if bool_decide (comp ≠ "..") || (negb rooted && bool_decide (new = [])) ||
          bool_decide (last new = Some "..")
  then (new ++ [comp])%list
  else removelast new.

Definition initial_slashes (path : string) : nat :=
  if negb (py_startswith "/" path) then 0
  else if py_startswith "//" path && negb (py_startswith "///" path) then 2 else 1.

Fixpoint repeat_slash (n : nat) (s : string) : string :=
  match n with O => s | S k => String slash (repeat_slash k s) end.

(** [posixpath.normpath] *)
Definition normpath (path : string) : string :=
  match path with
  | EmptyString => "."
  | _ =>
      let n := initial_slashes path in
      let new := foldl (norm_step (negb (n =? 0)%nat)) [] (py_split_char slash path) in
      let path := repeat_slash n (String.concat "/" new) in
      match path with EmptyString => "." | _ => path end
  end.

Definition _canonical_path (value : string) : string :=
  let normalized := normpath (py_replace_char backslash slash value) in
  let normalized :=
    if py_startswith "~/" normalized then "/home/" +:+ py_removeprefix "~/" normalized
    else normalized in
  let normalized :=
    if py_startswith "/" normalized then normalized else "/" +:+ normalized in
  normpath normalized.

Definition _is_within (candidate protected : string) : bool :=
  let normalized := _canonical_path candidate in
  let target := _canonical_path protected in
  String.eqb normalized target || py_startswith (target +:+ "/") normalized.

Section matching.
(** [re.search(pattern, value)], [IGNORECASE] when the flag is set; the host of a
    URL ([None] when [urlparse] itself raises [ValueError]); a parsed network; and whether a host is an address of it ([None] when it
    is not an address). *)
Context (re_search : bool → string → string → bool)
        (url_hostname : string → option (option string))
        {network : Type} (ip_network : string → option network)
        (address_in : string → network → option bool).

(** The [.env] clause of the path rule. *)
Definition is_env_file (components : list string) : bool :=
  let basename := default "" (last components) in
  String.eqb basename ".env" ||
  (py_startswith ".env." basename && negb (String.eqb basename ".env.example")).

Definition path_protected (value : string) (protected_paths : list string) : bool :=
  let normalized := _canonical_path value in
  let components := filter (λ part, part ≠ "") (py_split_char slash normalized) in
  existsb (λ protected,
    (String.eqb protected ".env" && is_env_file components) ||
    _is_within normalized protected ||
    (String.eqb protected "~/.ssh" && bool_decide (".ssh" ∈ components))) protected_paths.

(** The loop over the values; [urlparse] is outside the [try]. *)
Fixpoint network_loop (networks : list network) (values : list string) : result bool :=
  match values with
  | [] => Ok false
  | value :: rest =>
      match url_hostname value with
      | None => Raise (ValueError "Invalid URL")
      | Some hostname =>
          let host := match hostname with
                      | Some h => if String.eqb h "" then value else h
                      | None => value
                      end in
          if existsb (λ n, match address_in host n with Some b => b | None => false end) networks
          then Ok true else network_loop networks rest
      end
  end.

Definition CREDENTIAL_SHAPE : string :=
  "(?:api[_-]?key|secret|password|token|bearer)\s*[:=]\s*\S+".
Definition NEVER_MATCHES : string := "(?!x)x".

Definition hardline_matches (rule : HardlineRule) (action : ProposedAction) : result bool :=
  if bool_decide (side_effect action ∉ applies_to rule) then Ok false
  else
    let values := _strings (arguments action) in
    match rule_kind rule with
    | SIDE_EFFECT => Ok true
    | COMMAND_REGEX =>
        let p := match pattern rule with
                 | Some p => if String.eqb p "" then NEVER_MATCHES else p
                 | None => NEVER_MATCHES
                 end in
        Ok (existsb (re_search false p) values)
    | PROTECTED_PATH => Ok (existsb (λ v, path_protected v (paths rule)) values)
    | NETWORK_RANGE =>
        match mapM ip_network (cidrs rule) with
        | None => Raise (ValueError "invalid network")
        | Some networks => network_loop networks values
        end
    | TRUST_FLOW => Ok (existsb (re_search true CREDENTIAL_SHAPE) values)
    end.
End matching.

(** ** What a path spells *)
(** One component of a path, walked from a directory: how many levels above it the walk has gone,
    and the names below where it stands. *)
Definition walk_step (at_ : nat * list string) (part : string) : nat * list string :=
  let '(above, below) := at_ in
  if String.eqb part "" || String.eqb part "." then at_
  else if String.eqb part ".." then
    match below with [] => (S above, []) | _ => (above, removelast below) end
  else (above, below ++ [part])%list.
Definition walk (path : string) : nat * list string := foldl walk_step (0%nat, []) (py_split_char slash path).

(** Where a value leads, [\] read as [/]: two leading slashes are kept, any other number is one; a
    path that stays below its own [~] leads to a home, any other relative path to the root; and
    nothing is above the root. *)
Definition resolved (value : string) : nat * list string :=
  let path := py_replace_char backslash slash value in
  if py_startswith "/" path
  then ((if py_startswith "//" path && negb (py_startswith "///" path) then 2 else 1)%nat, (walk path).2)
  else
    let '(above, names) := walk path in
    (1%nat, if (above =? 0)%nat && bool_decide (head names = Some "~") && (1 <? length names)%nat
            then "home" :: tail names else names).

Definition join (comps : list string) : string := String.concat "/" comps.
(** A component of a path that is not empty, and one the normalisation keeps: a name. *)
Definition segment (c : string) : Prop := c ≠ "" ∧ str_has slash c = false ∧ str_has backslash c = false.
Definition plain (c : string) : Prop := c ≠ "." ∧ c ≠ ".." ∧ segment c.
Definition part (c : string) : Prop := str_has slash c = false ∧ str_has backslash c = false.

(** A string held anywhere in a value, the keys of its objects included. *)
Inductive holds_string : json → string → Prop :=
| holds_self s : holds_string (JStr s) s
| holds_key o k v : (k, v) ∈ o → holds_string (JObj o) k
| holds_field o k v s : (k, v) ∈ o → holds_string v s → holds_string (JObj o) s
| holds_element l v s : v ∈ l → holds_string v s → holds_string (JArr l) s.
(** A value leads into a protected path, and what guards it from an action. *)
Definition inside (protected value : string) : Prop :=
  (resolved value).1 = (resolved protected).1 ∧ (resolved protected).2 `prefix_of` (resolved value).2.
Definition env_file (names : list string) : Prop := ∃ base, last names = Some base ∧
  (base = ".env" ∨ (∃ suffix, base = ".env." +:+ suffix) ∧ base ≠ ".env.example").
Definition guards (protected value : string) : Prop :=
  protected = ".env" ∧ env_file (resolved value).2 ∨ inside protected value ∨
  protected = "~/.ssh" ∧ ".ssh" ∈ (resolved value).2.

Lemma removelast_Forall {A} (P : A → Prop) l : Forall P l → Forall P (removelast l).
Proof.
  induction 1 as [|x l Hx Hl IH]; [constructor|]. destruct l; [constructor|].
  simpl. constructor; [done|]. exact IH.
Qed.
Lemma last_Forall {A} (P : A → Prop) l x : Forall P l → last l = Some x → P x.
Proof. intros Hall Hl. apply last_Some_elem_of in Hl. by eapply Forall_forall in Hall. Qed.
Lemma last_cons_Some {A} (x : A) l : ∃ y, last (x :: l) = Some y.
Proof. revert x. induction l as [|y l IH]; intros x; [by exists x|]. apply IH. Qed.
Lemma removelast_app_cons {A} (a l : list A) x : removelast (a ++ x :: l) = (a ++ removelast (x :: l))%list.
Proof. by apply removelast_app. Qed.

Lemma walk_step_plain a b c : Forall plain b → part c → Forall plain (walk_step (a, b) c).2.
Proof.
  intros Hb [Hs Hk]. unfold walk_step.
  destruct (String.eqb_spec c ""), (String.eqb_spec c "."); try done. cbn [orb].
  destruct (String.eqb_spec c "..").
  - destruct b; [done|]. by apply removelast_Forall.
  - apply Forall_app. by repeat constructor.
Qed.
Lemma walk_fold_plain cs a b : Forall plain b → Forall part cs → Forall plain (foldl walk_step (a, b) cs).2.
Proof.
  revert a b. induction cs as [|c cs IH]; intros a b Hb Hc; [done|]. apply Forall_cons in Hc as [Hc Hcs]. cbn [foldl].
  pose proof (walk_step_plain a b c Hb Hc). destruct (walk_step (a, b) c). by apply IH.
Qed.

(** The loop of [normpath] walks: from the root it forgets how far above it went, elsewhere it
    writes that as leading [..] components. *)
Lemma norm_step_rooted a b c : Forall plain b → norm_step true b c = (walk_step (a, b) c).2.
Proof.
  intros Hb. unfold norm_step, walk_step.
  destruct (String.eqb_spec c ""), (String.eqb_spec c "."); subst; try done. rewrite bool_decide_false by set_solver.
  cbn [negb andb orb]. destruct (String.eqb_spec c ".."); subst; cbn.
  - destruct b as [|x b]; [done|]. rewrite (bool_decide_false (last _ = _)); [done|]. intros E.
    by destruct (last_Forall _ _ _ Hb E) as (_ & ? & _).
  - by rewrite bool_decide_true.
Qed.
Lemma norm_step_relative a b c : Forall plain b →
  let '(a', b') := walk_step (a, b) c in
  norm_step false (replicate a ".." ++ b)%list c = (replicate a' ".." ++ b')%list.
Proof.
  intros Hb. unfold norm_step, walk_step.
  destruct (String.eqb_spec c ""), (String.eqb_spec c "."); subst; try done. rewrite bool_decide_false by set_solver.
  cbn [negb andb orb]. destruct (String.eqb_spec c ".."); subst; cbn.
  - destruct b as [|x b].
    + rewrite !app_nil_r, <- replicate_S_end. destruct a as [|a]; [done|].
      rewrite (bool_decide_true (last _ = _)); [by rewrite orb_true_r|]. rewrite replicate_S_end. apply last_snoc.
    + rewrite (bool_decide_false ((_ ++ _)%list = [])) by (by destruct a).
      destruct (last_cons_Some x b) as [y Hy]. rewrite last_app_cons, Hy.
      rewrite (bool_decide_false (Some y = _)); [apply removelast_app_cons|]. intros [= ->].
      by destruct (last_Forall _ _ _ Hb Hy) as (_ & ? & _).
  - rewrite bool_decide_true by done. by rewrite <- app_assoc.
Qed.
Lemma startswith_app p s : py_startswith p s = true ↔ ∃ t, s = p +:+ t.
Proof.
  revert s. induction p as [|a p IH]; intros [|b s]; simpl.
  - split; [by exists EmptyString|done].
  - split; [by eexists|done].
  - split; [done|by intros [t [=]]].
  - rewrite andb_true_iff, Ascii.eqb_eq, IH. split.
    + intros [-> [t ->]]. by exists t.
    + intros [t [= -> ->]]. split; [done|by exists t].
Qed.

Lemma join_cons w ws : ws ≠ [] → join (w :: ws) = w +:+ String slash (join ws).
Proof. by destruct ws. Qed.

Lemma join_app a b : a ≠ [] → b ≠ [] → join (a ++ b)%list = join a +:+ String slash (join b).
Proof.
  intros Ha Hb. induction a as [|w [|w' a] IH]; [done| |].
  - simpl. by rewrite join_cons.
  - change ((w :: w' :: a) ++ b)%list with (w :: ((w' :: a) ++ b))%list.
    rewrite join_cons, IH by done. rewrite (join_cons w (w' :: a)) by done. by rewrite str_app_assoc.
Qed.

Lemma split_join_app ws t :
  ws ≠ [] → Forall (λ w, str_has slash w = false) ws →
  py_split_char slash (join ws +:+ String slash t) = (ws ++ py_split_char slash t)%list.
Proof.
  induction ws as [|w [|w' ws] IH]; intros Hne Hall; [done|..];
    apply Forall_cons in Hall as [Hw Hws].
  - apply split_app_sep. done.
  - rewrite join_cons by done. rewrite str_app_assoc, str_app_String.
    rewrite split_app_sep by done. rewrite IH by done. done.
Qed.

Lemma plain_segments comps : Forall plain comps → Forall segment comps.
Proof. intros H. eapply Forall_impl; [exact H|]. by intros y (_ & _ & ?). Qed.
Lemma segments_no_slash comps : Forall segment comps → Forall (λ w, str_has slash w = false) comps.
Proof. intros H. eapply Forall_impl; [exact H|]. by intros y (_ & ? & _). Qed.

Lemma join_head comps :
  Forall segment comps → comps ≠ [] → ∃ a s, join comps = String a s ∧ a ≠ slash.
Proof.
  intros Hall Hne. destruct comps as [|w ws]; [done|].
  apply Forall_cons in Hall as [(Hw & Hs & _) _]. destruct w as [|a w]; [done|].
  simpl in Hs. apply orb_false_iff in Hs as [Ha _]. apply Ascii.eqb_neq in Ha.
  destruct ws; [by exists a, w|]. exists a, (w +:+ String slash (join (s :: ws))). done.
Qed.

Lemma repeat_slash_inj n m a b :
  (∀ s, a ≠ String slash s) → (∀ s, b ≠ String slash s) →
  repeat_slash n a = repeat_slash m b → n = m ∧ a = b.
Proof.
  intros Ha Hb. revert m. induction n as [|n IH]; intros [|m] He; simpl in He.
  - done.
  - by destruct (Ha _ He).
  - by destruct (Hb (repeat_slash n a)).
  - injection He as He. apply IH in He as [-> ->]. done.
Qed.

Lemma repeat_slash_app n s t : repeat_slash n s +:+ t = repeat_slash n (s +:+ t).
Proof. induction n as [|n IH]; [done|]. exact (f_equal (String slash) IH). Qed.

Lemma join_not_slash comps s : Forall segment comps → join comps ≠ String slash s.
Proof.
  intros Hall He. destruct (decide (comps = [])) as [->|Hne]; [done|].
  destruct (join_head comps Hall Hne) as (a & r & Hj & Ha). congruence.
Qed.

Lemma join_inj a b : Forall segment a → Forall segment b → join a = join b → a = b.
Proof.
  intros Ha Hb He. destruct (decide (a = [])) as [->|Hna], (decide (b = [])) as [->|Hnb]; try done.
  - destruct (join_head b Hb Hnb) as (x & s & Hj & _). rewrite Hj in He. done.
  - destruct (join_head a Ha Hna) as (x & s & Hj & _). rewrite Hj in He. done.
  - rewrite <- (split_concat slash a), <- (split_concat slash b) by auto using segments_no_slash.
    unfold join in He. change (String slash EmptyString) with "/". by rewrite He.
Qed.

Lemma split_repeat_slash n s :
  ∃ k, py_split_char slash (repeat_slash n s) = (replicate k "" ++ py_split_char slash s)%list.
Proof.
  induction n as [|n [k IH]]; [by exists 0%nat|]. simpl. rewrite IH.
  destruct (replicate k "" ++ py_split_char slash s)%list as [|w ws] eqn:E.
  - apply app_eq_nil in E as [_ E]. destruct s as [|a s]; [done|].
    simpl in E. by repeat case_match.
  - exists (S k). by rewrite <- E.
Qed.

(** ** The canonical form writes what the path spells *)
Definition written (n : nat) (names : list string) : string := repeat_slash n (join names).
Definition one_or_two (n : nat) : Prop := n = 1%nat ∨ n = 2%nat.

Lemma fold_rooted a b cs : Forall plain b → Forall part cs →
  foldl (norm_step true) b cs = (foldl walk_step (a, b) cs).2.
Proof.
  revert a b. induction cs as [|c cs IH]; intros a b Hb Hc; [done|]. apply Forall_cons in Hc as [Hc Hcs]. cbn [foldl].
  rewrite (norm_step_rooted a) by done. pose proof (walk_step_plain a b c Hb Hc). destruct (walk_step (a, b) c). by apply IH.
Qed.
Lemma fold_relative a b cs : Forall plain b → Forall part cs →
  let '(a', b') := foldl walk_step (a, b) cs in
  foldl (norm_step false) (replicate a ".." ++ b)%list cs = (replicate a' ".." ++ b')%list.
Proof.
  revert a b. induction cs as [|c cs IH]; intros a b Hb Hc; [done|]. apply Forall_cons in Hc as [Hc Hcs]. cbn [foldl].
  pose proof (norm_step_relative a b c Hb) as E. pose proof (walk_step_plain a b c Hb Hc).
  destruct (walk_step (a, b) c). rewrite E. by apply IH.
Qed.
Lemma fold_names b l : Forall plain b → Forall plain l → foldl (norm_step true) b l = (b ++ l)%list.
Proof.
  revert b. induction l as [|c l IH]; intros b Hb Hl; [by rewrite app_nil_r|].
  apply Forall_cons in Hl as [Hc Hl]. cbn [foldl]. replace (norm_step true b c) with (b ++ [c])%list.
  - rewrite IH, <- app_assoc; [done| |done]. apply Forall_app. split; [done|]. by apply Forall_singleton.
  - destruct Hc as (Hd & Hdd & He & _). unfold norm_step. rewrite bool_decide_false by set_solver.
    by rewrite bool_decide_true.
Qed.
Lemma fold_above a l : foldl (norm_step true) [] (replicate a ".." ++ l)%list = foldl (norm_step true) [] l.
Proof. induction a as [|a IH]; [done|]. exact IH. Qed.

Lemma split_join l : Forall segment l → l ≠ [] → py_split_char slash (join l) = l.
Proof. intros Hl Hne. apply (split_concat slash); [done|by apply segments_no_slash]. Qed.
Lemma fold_join rooted l : Forall segment l →
  foldl (norm_step rooted) [] (py_split_char slash (join l)) = foldl (norm_step rooted) [] l.
Proof. intros Hl. destruct l as [|x l]; [done|]. by rewrite split_join. Qed.
Lemma initial_written n l : one_or_two n → Forall segment l → initial_slashes (written n l) = n.
Proof.
  intros Hn Hl. destruct (decide (l = [])) as [->|Hne]; [by destruct Hn as [->| ->]|].
  destruct (join_head l Hl Hne) as (a & s & Hj & Ha). unfold written. rewrite Hj.
  assert (Ascii.eqb slash a = false) as E by (by apply Ascii.eqb_neq; congruence).
  unfold slash in *. destruct Hn as [->| ->]; unfold initial_slashes; cbn [repeat_slash py_startswith];
    unfold slash; rewrite !Ascii.eqb_refl, ?E; done.
Qed.
Lemma normpath_rooted path n : initial_slashes path = S n →
  normpath path = repeat_slash (S n) (join (foldl (norm_step true) [] (py_split_char slash path))).
Proof. intros E. unfold normpath. destruct path; [done|]. by rewrite E. Qed.
Lemma normpath_written n l : one_or_two n → Forall segment l →
  normpath (written n l) = written n (foldl (norm_step true) [] l).
Proof.
  intros Hn Hl. pose proof (initial_written n l Hn Hl) as E.
  assert (foldl (norm_step true) [] (py_split_char slash (written n l)) = foldl (norm_step true) [] l) as Hf.
  { rewrite <- (fold_join true l) by done. unfold written. destruct (split_repeat_slash n (join l)) as [k ->].
    rewrite foldl_app. f_equal. by induction k. }
  destruct n as [|n]; [by destruct Hn|]. by rewrite (normpath_rooted _ n), Hf.
Qed.
Lemma relative_slashes path : py_startswith "/" path = false → initial_slashes path = 0%nat.
Proof. intros E. unfold initial_slashes. by rewrite E. Qed.
Lemma normpath_relative path : py_startswith "/" path = false → Forall part (py_split_char slash path) →
  let '(above, names) := walk path in
  let l := (replicate above ".." ++ names)%list in
  Forall plain names ∧ Forall segment l ∧ normpath path = match l with [] => "." | _ => join l end.
Proof.
  intros Hs Hp. unfold walk. pose proof (fold_relative 0 [] _ (Forall_nil_2 plain) Hp) as Hf.
  pose proof (walk_fold_plain _ 0 [] (Forall_nil_2 plain) Hp) as Hn. destruct (foldl walk_step _ _) as [a b]. cbn in Hn.
  cbv zeta. assert (Forall segment (replicate a ".." ++ b)%list) as Hl.
  { apply Forall_app. split; [by apply Forall_replicate|by apply plain_segments]. }
  split; [done|]. split; [done|]. unfold normpath. destruct path as [|c path].
  - cbn in Hf. by rewrite <- Hf.
  - rewrite relative_slashes by done. cbn [Nat.eqb negb repeat_slash]. cbn [replicate app] in Hf. rewrite Hf.
    change (String.concat "/" ?l) with (join l). destruct (replicate a ".." ++ b)%list as [|x l] eqn:E; [done|].
    by destruct (join_head _ Hl) as (d & r & -> & _).
Qed.

Lemma starts_home l : Forall segment l → py_startswith "~/" (join l) = bool_decide (head l = Some "~") && (1 <? length l)%nat.
Proof.
  intros Hl. destruct l as [|x [|y l]]; [done| |].
  - rewrite andb_false_r. destruct (py_startswith _ _) eqn:E; [|done].
    apply startswith_app in E as [t E]. pose proof (split_join [x] Hl ltac:(done)) as Hs. rewrite E in Hs.
    change ("~/" +:+ t) with ("~" +:+ String slash t) in Hs. rewrite split_app_sep in Hs by done.
    destruct t; cbn in Hs; [done|]. by repeat case_match.
  - rewrite andb_true_r. rewrite join_cons by done. case_bool_decide as E.
    + injection E as ->. done.
    + destruct (py_startswith _ _) eqn:Es; [|done]. apply startswith_app in Es as [t Es].
      rewrite <- join_cons in Es by done. pose proof (split_join (x :: y :: l) Hl ltac:(done)) as Hs. rewrite Es in Hs.
      change ("~/" +:+ t) with ("~" +:+ String slash t) in Hs. rewrite split_app_sep in Hs by done.
      by injection Hs as <- _.
Qed.

Lemma replace_gone a b s : a ≠ b → str_has a (py_replace_char a b s) = false.
Proof.
  intros Hne. induction s as [|x s IH]; [done|]. cbn. rewrite IH, orb_false_r. apply Ascii.eqb_neq.
  destruct (Ascii.eqb_spec x a); congruence.
Qed.
Lemma replace_absent a b s : str_has a s = false → py_replace_char a b s = s.
Proof.
  induction s as [|x s IH]; [done|]. cbn. intros [Hx Hs]%orb_false_iff. by rewrite Hx, IH.
Qed.
Lemma split_free c d s : str_has d s = false → Forall (λ w, str_has d w = false) (py_split_char c s).
Proof.
  induction s as [|x s IH]; cbn; [by repeat constructor|]. intros [Hx Hs]%orb_false_iff. specialize (IH Hs).
  destruct (py_split_char c s) as [|w ws]; [by repeat constructor|].
  apply Forall_cons in IH as [Hw Hws]. destruct (Ascii.eqb x c); [by repeat constructor|].
  constructor; [|done]. cbn. by rewrite Hx.
Qed.
Lemma parts_of value : Forall part (py_split_char slash (py_replace_char backslash slash value)).
Proof.
  apply Forall_and. split; [apply split_parts|]. by apply split_free, replace_gone.
Qed.
Lemma join_relative l : Forall segment l → py_startswith "/" (join l) = false.
Proof.
  intros Hl. destruct (py_startswith _ _) eqn:E; [|done]. apply startswith_app in E as [t E].
  by apply join_not_slash in E.
Qed.
Lemma canonical_relative l : Forall segment l →
  normpath (if py_startswith "/" (join l) then join l else "/" +:+ join l) = written 1 (foldl (norm_step true) [] l).
Proof. intros Hl. rewrite join_relative by done. apply (normpath_written 1); [by left|done]. Qed.
Lemma canonical_home names : Forall plain ("home" :: names) → (1 < S (length names))%nat →
  let home := "/home/" +:+ py_removeprefix "~/" (join ("~" :: names)) in
  normpath (if py_startswith "/" home then home else "/" +:+ home) = written 1 ("home" :: names).
Proof.
  intros Hp Hlen. assert (names ≠ []) as Hne by (destruct names; cbn in Hlen; [lia|done]).
  rewrite (join_cons "~") by done. cbv zeta.
  replace ("/home/" +:+ py_removeprefix "~/" ("~" +:+ String slash (join names))) with (written 1 ("home" :: names))
    by (unfold written; by rewrite join_cons).
  change (py_startswith "/" (written 1 ("home" :: names))) with true. cbv iota.
  rewrite normpath_written; [by rewrite fold_names|by left|by apply plain_segments].
Qed.

(** The canonical form of a value is the text of where it leads. *)
Lemma canonical_resolved value :
  let '(n, names) := resolved value in
  one_or_two n ∧ Forall plain names ∧ _canonical_path value = written n names.
Proof.
  unfold resolved, _canonical_path. pose proof (parts_of value) as Hp. set (path := py_replace_char _ _ value) in *.
  destruct (py_startswith "/" path) eqn:Hs.
  - set (n := (if py_startswith "//" path && _ then 2 else 1)%nat).
    assert (one_or_two n) as Hn by (unfold n, one_or_two; destruct (_ && _); tauto).
    assert (initial_slashes path = n) as Hi by (unfold initial_slashes; by rewrite Hs).
    pose proof (walk_fold_plain _ 0 [] (Forall_nil_2 plain) Hp) as Hw. fold (walk path) in Hw.
    split; [done|]. split; [done|]. assert (normpath path = written n (walk path).2) as ->.
    { destruct n as [|n]; [by destruct Hn|]. rewrite (normpath_rooted _ n) by done. unfold written. f_equal. f_equal.
      by apply fold_rooted. }
    assert (py_startswith "~/" (written n (walk path).2) = false ∧ py_startswith "/" (written n (walk path).2) = true)
      as [-> ->] by (by destruct Hn as [-> | ->]).
    rewrite normpath_written by auto using plain_segments. by rewrite fold_names.
  - pose proof (normpath_relative path Hs Hp) as H. destruct (walk path) as [above names]. destruct H as (Hn & Hl & ->).
    split; [by left|]. assert (Forall plain ("home" :: tail names)) as Hh.
    { constructor; [done|]. by destruct names; [|apply Forall_cons in Hn as [_ ?]]. }
    split; [by destruct (_ && _)|]. destruct above as [|above]; cbn [replicate app Nat.eqb andb] in *.
    + destruct names as [|x names]; [done|]. rewrite starts_home by done. destruct (_ && _) eqn:Eh.
      * apply andb_true_iff in Eh as [[= ->]%bool_decide_eq_true Eh]. by apply canonical_home; [|apply Nat.ltb_lt].
      * by rewrite canonical_relative, fold_names.
    + change (".." :: (replicate above ".." ++ names))%list with (replicate (S above) ".." ++ names)%list in *.
      rewrite starts_home, (bool_decide_false (head _ = _)) by done. cbn [andb].
      by rewrite canonical_relative, fold_above, fold_names.
Qed.
(** ** Containment, component by component *)
Lemma within_parts value protected :
  (resolved protected).2 ≠ [] →
  _is_within value protected = true ↔
  (resolved value).1 = (resolved protected).1 ∧
  (resolved protected).2 `prefix_of` (resolved value).2.
Proof.
  pose proof (canonical_resolved value) as Hv. pose proof (canonical_resolved protected) as Hp.
  destruct (resolved value) as [n a], (resolved protected) as [m b].
  destruct Hv as (Hn & Ha%plain_segments & Hv), Hp as (Hm & Hb%plain_segments & Hp). cbn [fst snd]. intros Hne.
  unfold _is_within, written in *. rewrite Hv, Hp, orb_true_iff, String.eqb_eq, startswith_app. split.
  - intros [He|[t He]].
    + apply repeat_slash_inj in He as [-> He%join_inj]; auto using join_not_slash. by subst.
    + rewrite str_app_assoc, repeat_slash_app in He.
      destruct (join_head b Hb Hne) as (x & s & Hj & Hx).
      apply repeat_slash_inj in He as [-> He]; auto using join_not_slash.
      2:{ intros s' Hs'. rewrite Hj in Hs'. rewrite str_app_String in Hs'. congruence. }
      split; [done|]. simpl in He. destruct (decide (a = [])) as [->|Hna].
      { rewrite Hj in He. done. }
      exists (py_split_char slash t).
      change ("/" +:+ t) with (String slash t) in He.
      rewrite <- split_join_app by auto using segments_no_slash. rewrite <- He. symmetry. apply (split_concat slash); auto using segments_no_slash.
  - intros [-> [rest ->]]. destruct (decide (rest = [])) as [->|Hr]; [left; by rewrite app_nil_r|].
    right. exists (join rest). by rewrite join_app, str_app_assoc, repeat_slash_app.
Qed.


(** ** The path rule *)
Lemma str_has_app c a b : str_has c (a +:+ b) = str_has c a || str_has c b.
Proof. induction a as [|x a IH]; [done|]. rewrite str_app_String. cbn. by rewrite IH, orb_assoc. Qed.
Lemma written_no_backslash n names : Forall segment names → str_has backslash (written n names) = false.
Proof.
  intros H. unfold written. induction n as [|n IH]; [|exact IH]. cbn [repeat_slash].
  induction H as [|x l (_ & _ & Hx) Hl IH]; [done|]. destruct l as [|y l]; [exact Hx|].
  rewrite join_cons, str_has_app by done. rewrite Hx. exact IH.
Qed.
Lemma canonical_written n names : one_or_two n → Forall plain names → _canonical_path (written n names) = written n names.
Proof.
  intros Hn Hp. pose proof (plain_segments _ Hp) as Hs. unfold _canonical_path.
  rewrite replace_absent, normpath_written, fold_names by auto using written_no_backslash.
  change ([] ++ names)%list with names.
  assert (py_startswith "~/" (written n names) = false ∧ py_startswith "/" (written n names) = true)
    as [-> ->] by (by destruct Hn as [-> | ->]).
  by rewrite normpath_written, fold_names.
Qed.
Lemma names_of_written n names : Forall plain names →
  filter (λ part, part ≠ "") (py_split_char slash (written n names)) = names.
Proof.
  intros Hp%plain_segments. unfold written. destruct (split_repeat_slash n (join names)) as [k ->].
  rewrite filter_app. replace (filter _ (replicate k "")) with (@nil string) by (by induction k).
  destruct names as [|x names]; [done|]. rewrite split_join by done. cbn [app].
  induction Hp as [|y l (Hy & _) Hl IH]; [done|]. rewrite filter_cons_True by done. by rewrite IH.
Qed.
Lemma strings_hold v s : s ∈ strings_of v ↔ holds_string v s.
Proof.
  split.
  - revert s. induction v as [| | | |t|l IH|o IH] using json_nested_ind; intros s; cbn; try by intros ?%elem_of_nil.
    + intros ->%list_elem_of_singleton. apply holds_self.
    + intros (x & Hx & Hs)%list_elem_of_In%in_flat_map. apply list_elem_of_In in Hx. rewrite Forall_forall in IH.
      eapply holds_element; [done|]. apply IH; [done|]. by apply list_elem_of_In.
    + intros ([k x] & Hx & Hs)%list_elem_of_In%in_flat_map. apply list_elem_of_In in Hx. rewrite Forall_forall in IH.
      destruct Hs as [<-|Hs]; [by eapply holds_key|]. eapply holds_field; [done|]. apply (IH (k, x)); [done|].
      by apply list_elem_of_In.
  - induction 1 as [s|o k v Hk|o k v s Hk _ IH|l v s Hv _ IH]; cbn; [by left|..];
      apply list_elem_of_In, in_flat_map.
    + exists (k, v). split; [by apply list_elem_of_In|by left].
    + exists (k, v). split; [by apply list_elem_of_In|right; by apply list_elem_of_In].
    + exists v. split; by apply list_elem_of_In.
Qed.
Lemma env_file_spec names : is_env_file names = true ↔ env_file names.
Proof.
  unfold is_env_file, env_file. destruct (last names) as [base|]; cbn -[py_startswith String.eqb].
  - rewrite orb_true_iff, andb_true_iff, negb_true_iff, !String.eqb_eq, String.eqb_neq, startswith_app. naive_solver.
  - split; [done|]. by intros (? & ? & _).
Qed.
Lemma path_protected_spec value protected_paths :
  (∀ p, p ∈ protected_paths → (resolved p).2 ≠ []) →
  path_protected value protected_paths = true ↔ ∃ protected, protected ∈ protected_paths ∧ guards protected value.
Proof.
  intros Hne. unfold path_protected. rewrite existsb_exists.
  pose proof (canonical_resolved value) as Hv. destruct (resolved value) as [n names] eqn:E. destruct Hv as (Hn & Hp & Hc).
  assert (∀ p, p ∈ protected_paths → _is_within (_canonical_path value) p = true ↔ inside p value) as Hin.
  { intros p Hp'. unfold inside. rewrite <- within_parts by auto. unfold _is_within. by rewrite Hc, canonical_written. }
  setoid_rewrite <- list_elem_of_In. rewrite Hc, names_of_written in * by done.
  apply exist_proper. intros p. split; intros [Hp' H]; (split; [done|]); unfold guards in *; rewrite E in *; cbn [snd] in *.
  - rewrite !orb_true_iff, !andb_true_iff, !String.eqb_eq, env_file_spec, bool_decide_eq_true, Hin in H by done. tauto.
  - rewrite !orb_true_iff, !andb_true_iff, !String.eqb_eq, env_file_spec, bool_decide_eq_true, Hin by done. tauto.
Qed.
(** Two leading slashes are a root of their own: nothing under it is inside a path that is
    written with one, or with none. *)
Lemma double_slash_escapes value protected :
  let two path := py_startswith "//" path && negb (py_startswith "///" path) in
  two (py_replace_char backslash slash value) = true → two (py_replace_char backslash slash protected) = false →
  ¬ inside protected value.
Proof.
  intros two Hv Hp [E _]. assert (∀ v, (resolved v).1 = if two (py_replace_char backslash slash v) then 2%nat else 1%nat) as H.
  { intros v. unfold resolved, two. set (path := py_replace_char _ _ v). destruct (py_startswith "/" path) eqn:Es; [done|].
    destruct (walk path). destruct (py_startswith "//" path) eqn:E2; [|done]. apply startswith_app in E2 as [t E2].
    rewrite E2 in Es. done. }
  by rewrite !H, Hv, Hp in E.
Qed.

(** ** Properties *)

(** C35: The protected-path rule sees through every spelling. It matches an action exactly when
    some string anywhere in its arguments, a key included, leads into one of the rule's
    paths, read with backward slashes, repeated slashes, [.] and [..] segments and the home
    directory resolved: the names of the protected path begin its own, component by
    component, and both keep the same number of leading slashes; or when it names an
    environment file, or any [.ssh] directory, where the rule protects those. The rule's
    paths must each name something: a rule that protects the root itself is left out. *)
Theorem protected_path_exact re_search url_hostname (network : Type)
    (ip_network : string → option network) address_in rule action :
  rule_kind rule = PROTECTED_PATH → side_effect action ∈ applies_to rule →
  (∀ p, p ∈ paths rule → (resolved p).2 ≠ []) →
  ∃ b, hardline_matches re_search url_hostname ip_network address_in rule action = Ok b ∧
    (b = true ↔ ∃ value protected, holds_string (JObj (arguments action)) value ∧ protected ∈ paths rule ∧
       guards protected value).
Proof.
  intros Hk Ha Hne. unfold hardline_matches. rewrite bool_decide_false by (intros H; by apply H). rewrite Hk.
  eexists. split; [done|]. rewrite existsb_exists. setoid_rewrite <- list_elem_of_In. unfold _strings.
  setoid_rewrite strings_hold. setoid_rewrite path_protected_spec; [|done]. naive_solver.
Qed.

(** ** Witnesses *)
Definition host_path_rule : HardlineRule :=
  {| rule_id := "protected_host_path"; rule_kind := PROTECTED_PATH;
     applies_to := [WORKSPACE_WRITE; CODE_EXECUTION]; message_code := "policy.hardline.host_path";
     near_miss := "./.env.example"; pattern := None;
     paths := ["/etc"; "/usr"; "~/.ssh"; ".git/config"; ".env"]; cidrs := []; source := None |}.
Definition write_action (path : string) : ProposedAction :=
  {| action_kind := TOOL_CALL_ACTION; action_id := 1; action_tenant_id := "t1";
     action_session_id := 2; action_run_id := 3; action_step_number := 1;
     name := "workspace.write"; version := None; summary := "write a file";
     side_effect := WORKSPACE_WRITE; risk := MEDIUM; idempotency := NON_IDEMPOTENT;
     required_scopes := ∅; arguments := [("path", JStr path)]; normalized_arguments_hash := "h";
     argument_trust := ∅; origin_trust := USER; newest_user_trust := Some USER;
     action_target := {| target_kind := "sandbox"; isolated := true; network_enabled := false;
                         device_id := None; server_id := None |};
     evaluated_at := 0 |}.

(** The rules of [hardline.yaml] name places, and a write elsewhere in the workspace passes. *)
Lemma host_paths_named p : p ∈ paths host_path_rule → (resolved p).2 ≠ [].
Proof.
  intros Hp E. assert (forallb (λ p, negb (bool_decide ((resolved p).2 = []))) (paths host_path_rule) = true) as H
    by by vm_compute.
  apply forallb_forall with (x := p) in H; [|by apply list_elem_of_In]. by rewrite E in H.
Qed.
Lemma protected_path_exact_witness :
  hardline_matches (λ _ _ _, false) (λ s, Some (Some s)) (λ c, Some c) (λ _ _, None)
    host_path_rule (write_action "a\..\../etc//./passwd") = Ok true.
Proof.
  destruct (protected_path_exact (λ _ _ _, false) (λ s, Some (Some s)) string (λ c, Some c) (λ _ _, None)
    host_path_rule (write_action "a\..\../etc//./passwd") eq_refl ltac:(left) host_paths_named) as (b & -> & Hb).
  f_equal. apply Hb. exists "a\..\../etc//./passwd", "/etc". split; [|split; [left|]].
  - eapply holds_field; [left|]. apply holds_self.
  - right; left. split; [reflexivity|]. by exists ["passwd"].
Defined.
