(* ===== verification/Policy.v ===== *)
(** * Policy evaluation ([policy/engine.py], [policy/advised.py], [policy/jobs.py])

    The deterministic engine decides from the action and the ruleset alone; the
    advisory layer and the job layer are engines built over another engine.
    What the hardline rules call (regular expressions, URL and address parsing)
    and the pydantic validation of a browser postcondition are parameters. *)
From S2P Require Import Prelude RunModel Sessions PolicyModel Hardline.

(** ** Names of first-party servers ([domain/mcp.py], [mcp/configuration.py]) *)
Definition is_lower (c : Ascii.ascii) : bool :=
  let n := Ascii.N_of_ascii c in ((97 <=? n) && (n <=? 122))%N.
Definition is_digit (c : Ascii.ascii) : bool :=
  let n := Ascii.N_of_ascii c in ((48 <=? n) && (n <=? 57))%N.
Definition is_word_char (c : Ascii.ascii) : bool :=
  is_lower c || is_digit c || Ascii.eqb c "_"%char.

Fixpoint str_all (p : Ascii.ascii → bool) (s : string) : bool :=
  match s with EmptyString => true | String c s' => p c && str_all p s' end.

(** [[a-z][a-z0-9_]{0,max}] *)
Definition identifier (max : nat) (s : string) : bool :=
  match s with
  | EmptyString => false
  | String c s' => is_lower c && (String.length s' <=? max)%nat && str_all is_word_char s'
  end.

Definition email_modes : list string := ["read"; "write"; "send"].

(** [_EMAIL_SERVER_ID.fullmatch] *)
Definition _EMAIL_SERVER_ID (id : string) : bool :=
  py_startswith "gmail_" id &&
  (let rest := py_removeprefix "gmail_" id in
   existsb (λ mode,
     String.eqb rest mode ||
     (py_endswith ("_" +:+ mode) rest &&
      identifier 31 (String.substring 0 (String.length rest - String.length mode - 1) rest)))
     email_modes).

Definition is_email_server_id (server_id : option string) : bool :=
  match server_id with Some id => _EMAIL_SERVER_ID id | None => false end.

Definition is_mutating_email_server_id (server_id : option string) : bool :=
  is_email_server_id server_id &&
  match server_id with
  | Some id => py_endswith "_write" id || py_endswith "_send" id
  | None => false
  end.

Definition EMAIL_FETCH_ATTACHMENT_TOOL : string := "fetch_attachment".
Definition EMAIL_SAVE_ATTACHMENT_TOOL : string := "save_attachment".

Definition is_email_attachment_tool (server_id : option string) (remote_name : string) : bool :=
  is_email_server_id server_id &&
  match server_id with Some id => py_endswith "_read" id | None => false end &&
  bool_decide (remote_name ∈ [EMAIL_FETCH_ATTACHMENT_TOOL; EMAIL_SAVE_ATTACHMENT_TOOL]).

Definition is_model_email_attachment_action (server_id : option string) (action_name : string) : bool :=
  is_email_attachment_tool server_id EMAIL_SAVE_ATTACHMENT_TOOL &&
  String.eqb action_name
    ("mcp." +:+ default "None" server_id +:+ "." +:+ EMAIL_SAVE_ATTACHMENT_TOOL).

Definition UNSUBSCRIBE_TOOL_NAME : string := "email.unsubscribe".

(** ** The pure engine ([policy/engine.py]) *)
Definition _WEB_PROVIDER_TOOLS : list string :=
  ["web.search"; "web.fetch"; "web.fetch_json"; "web.inspect_image"].
Definition _BROWSER_PROVIDER_TOOLS : list string := ["browser.navigate"; "browser.observe"].
Definition AUTHORIZING_ORIGINS : list TrustLevel := [PLATFORM; TRUSTED_CONFIGURATION; USER].

Definition combine_decision_types (deterministic : PolicyDecisionType)
    (advisory : option PolicyDecisionType) : PolicyDecisionType :=
  match advisory with
  | None => deterministic
  | Some a => if POLICY_DECISION_RANK a <=? POLICY_DECISION_RANK deterministic
              then deterministic else a
  end.

Definition workspace_kinds : list string := ["in_process"; "sandbox"].

Definition _path_inside_workspace (action : ProposedAction) : bool :=
  match as_str (dict_get "path" (arguments action)) with
  | None => false
  | Some value =>
      if py_startswith "/" value || str_has backslash value then false
      else if String.eqb value "" then bool_decide (target_kind (action_target action) ∈ workspace_kinds)
      else
        let components := py_split_char slash value in
        bool_decide (target_kind (action_target action) ∈ workspace_kinds) &&
        bool_decide (components ≠ []) &&
        forallb (λ component, bool_decide (component ∉ [""; "."; ".."])) components
  end.

(** [domain/browser.py]: the gesture's arguments validate as a [BrowserAction] of
    kind [scroll]. Only the four keys below can be present here; a [StrEnum] field
    takes its value's text, and a text field of 1 to 128 characters takes only text. *)
Definition short_text (v : option json) : bool :=
  match v with
  | Some (JStr s) => (1 <=? String.length s)%nat && (String.length s <=? 128)%nat
  | _ => false
  end.
Definition valid_scroll_action (args : dict) : bool :=
  match dict_get "kind" args, dict_get "delta_y" args with
  | Some (JStr kind), Some (JInt delta_y) =>
      String.eqb kind "scroll" &&
      short_text (dict_get "expected_revision" args) && short_text (dict_get "ref" args) &&
      (-2000 <=? delta_y) && (delta_y <=? 2000) && negb (delta_y =? 0)
  | _, _ => false
  end.

Section engine.
Context (re_search : bool → string → string → bool)
        (url_hostname : string → option (option string))
        {network : Type} (ip_network : string → option network)
        (address_in : string → network → option bool).
(** [BrowserCondition.model_validate] accepts the value. *)
Context (BrowserCondition_validates : json → bool).

Definition _bounded_browser_scroll (action : ProposedAction) : bool :=
  if negb (bool_decide (action_kind action = TOOL_CALL_ACTION) &&
           String.eqb (name action) "browser.act" &&
           String.eqb (target_kind (action_target action)) "browser_provider" &&
           isolated (action_target action) && network_enabled (action_target action) &&
           bool_decide (side_effect action = EXTERNAL_WRITE) &&
           bool_decide (risk action = HIGH) &&
           bool_decide (idempotency action = NON_IDEMPOTENT))
  then false
  else if negb (forallb (λ kv, bool_decide
      (kv.1 ∈ ["kind"; "expected_revision"; "ref"; "delta_y"; "postcondition"])) (arguments action))
  then false
  else match dict_get "delta_y" (arguments action) with
       | Some (JInt _) =>
           match dict_get "postcondition" (arguments action) with
           | Some v => BrowserCondition_validates v
           | None => true
           end && valid_scroll_action (arguments action)
       | _ => false
       end.

Definition _condition_holds (condition : option PolicyCondition) (action : ProposedAction) : bool :=
  match condition with
  | None => true
  | Some PATH_INSIDE_WORKSPACE => _path_inside_workspace action
  | Some HOST_ON_ALLOWLIST =>
      let target := action_target action in
      let fixed_provider_target :=
        (String.eqb (target_kind target) "web_provider" && network_enabled target &&
         bool_decide (name action ∈ _WEB_PROVIDER_TOOLS)) ||
        (String.eqb (target_kind target) "browser_provider" && isolated target &&
         network_enabled target && bool_decide (name action ∈ _BROWSER_PROVIDER_TOOLS)) in
      let operator_classified_mcp_read := String.eqb (target_kind target) "mcp" in
      (fixed_provider_target || operator_classified_mcp_read) &&
      bool_decide (side_effect action = NETWORK_READ) &&
      bool_decide (idempotency action = READ_ONLY)
  | Some TARGET_ISOLATED => isolated (action_target action)
  | Some BOUNDED_BROWSER_SCROLL => _bounded_browser_scroll action
  end.

(** The first hardline rule that matches, in profile order. *)
Fixpoint first_hardline (rules : list HardlineRule) (action : ProposedAction)
    : result (option HardlineRule) :=
  match rules with
  | [] => Ok None
  | r :: rest =>
      match hardline_matches re_search url_hostname ip_network address_in r action with
      | Raise e => Raise e
      | Ok true => Ok (Some r)
      | Ok false => first_hardline rest action
      end
  end.

Definition approval_floor (action : ProposedAction) : bool :=
  (String.eqb (target_kind (action_target action)) "mcp" &&
   (is_mutating_email_server_id (server_id (action_target action)) ||
    bool_decide (server_id (action_target action) = Some "bland_call") ||
    is_model_email_attachment_action (server_id (action_target action)) (name action))) ||
  String.eqb (name action) UNSUBSCRIBE_TOOL_NAME.

Definition mk_decision (d : PolicyDecisionType) (reason why version : string) (escalated : bool) :=
  {| decision := d; reason_code := reason; explanation := why; modified_arguments := None;
     policy_version := version; untrusted_escalation := escalated |}.

(** The branch taken by one classified action: the rule that decides, whether it
    came from the tool table, and the overlay. *)
Definition classified (action : ProposedAction) (ruleset : LoadedRuleset)
    (tool_rule : option ToolPolicyRule)
    (decision0 : PolicyDecisionType) (condition0 : option PolicyCondition)
    (otherwise0 : option PolicyDecisionType) : PolicyDecision :=
  let allowed := _condition_holds condition0 action in
  let decision := if allowed then decision0 else default (default_effect ruleset) otherwise0 in
  let confirmed_by_human :=
    match tool_rule with Some r => human_confirms_arguments r | None => false end in
  let permitted_scroll := bool_decide (condition0 = Some BOUNDED_BROWSER_SCROLL) && allowed in
  let origin_untrusted :=
    if permitted_scroll
    then bool_decide (default (origin_trust action) (newest_user_trust action) ∉ AUTHORIZING_ORIGINS)
    else if tool_rule then bool_decide (origin_trust action ∉ AUTHORIZING_ORIGINS)
    else bool_decide (origin_trust action = EXTERNAL_UNTRUSTED) in
  let untrusted_input :=
    origin_untrusted ||
    (negb (confirmed_by_human || permitted_scroll) &&
     bool_decide (EXTERNAL_UNTRUSTED ∈ (map_to_list (argument_trust action)).*2)) in
  let decision :=
    if approval_floor action &&
       (POLICY_DECISION_RANK decision <? POLICY_DECISION_RANK REQUIRE_APPROVAL)
    then REQUIRE_APPROVAL else decision in
  let escalated :=
    bool_decide (decision ∈ [ALLOW; ALLOW_WITH_MODIFICATIONS]) &&
    external_untrusted_requires_approval ruleset && untrusted_input &&
    bool_decide (side_effect action ∉ [SE_NONE; WORKSPACE_READ; NETWORK_READ]) in
  let decision := if escalated then REQUIRE_APPROVAL else decision in
  let reason := if tool_rule then "policy.tool." +:+ name action
                else "policy.matrix." +:+ SideEffectClass_value (side_effect action) in
  mk_decision decision reason
    ("The " +:+ profile_name ruleset +:+ " profile evaluated " +:+
     SideEffectClass_value (side_effect action) +:+ ".")
    (ruleset_version ruleset) escalated.

Definition evaluate_deterministic (action : ProposedAction) (principal : Principal.t) (run : Run)
    (ruleset : LoadedRuleset) : result PolicyDecision :=
  if bool_decide (action_kind action = SKILL_AUTHORING) && bool_decide (origin_trust action ≠ USER)
  then Ok (mk_decision DENY "policy.skill.origin_untrusted"
             "Skill authoring requires a user-trusted turn." (ruleset_version ruleset) false)
  else
    match first_hardline (hardline ruleset) action with
    | Raise e => Raise e
    | Ok (Some r) =>
        Ok (mk_decision DENY (message_code r)
              ("Hardline rule " +:+ rule_id r +:+ " denied the action.")
              (ruleset_version ruleset) false)
    | Ok None =>
        let tools := filter (λ r, tool_name r = name action) (tool_rules ruleset) in
        let matching := filter (λ r, rule_side_effect r = side_effect action) (rules ruleset) in
        match tools, matching with
        | [r], [_] =>
            Ok (classified action ruleset (Some r) (tool_decision r) (tool_condition r)
                  (tool_otherwise r))
        | [], [r] =>
            Ok (classified action ruleset None (rule_decision r) (rule_condition r)
                  (rule_otherwise r))
        | _, _ =>
            Ok (mk_decision (unknown_tool_decision ruleset) "policy.unclassifiable_action"
                  "The action could not be classified by the loaded policy profile."
                  (ruleset_version ruleset) false)
        end
    end.
End engine.

(** ** Engines over engines *)
Definition PolicyEngine : Type := ProposedAction → Principal.t → Run → result PolicyDecision.

(** What the advisor did: a verdict, a timeout, or an exception that may carry a reason code. *)
Inductive Advice :=
| Advised (v : AdvisoryVerdict)
| TimedOut
| Failed (error_reason_code : option string) (class_name : string).

(** The observer's calls. *)
Inductive Observation :=
| consulted (tool : string) (v : AdvisoryVerdictType) (enforced : bool) (sigs : list string)
    (elapsed : timedelta)
| abstained (tool cause : string).

Definition _VERDICT_DECISIONS (v : AdvisoryVerdictType) : option PolicyDecisionType :=
  match v with
  | ABSTAIN => None
  | ADVISE_APPROVAL => Some REQUIRE_APPROVAL
  | ADVISE_DENY => Some DENY
  end.

(** [_REASON_CODE.fullmatch] *)
Definition _REASON_CODE (s : string) : bool :=
  match s with
  | EmptyString => false
  | String c s' =>
      is_lower c && (String.length s' <=? 63)%nat &&
      str_all (λ c, is_word_char c || Ascii.eqb c "."%char) s'
  end.
Definition _failure_cause (error_reason_code : option string) (class_name : string) : string :=
  match error_reason_code with
  | Some code => if _REASON_CODE code then code else class_name
  | None => class_name
  end.

Definition _CONSULTED_TARGETS : list string := ["web_provider"; "browser_provider"].
Definition advisable (action : ProposedAction) : bool :=
  bool_decide (side_effect action = NETWORK_READ) &&
  bool_decide (target_kind (action_target action) ∈ _CONSULTED_TARGETS).

Definition ADVISORY_ESCALATED : string := "policy.advisory.escalated".

Module AdvisedPolicyEngine.
(** [evaluate], with the clock readings around the consultation and the observer's calls. *)
Definition evaluate (deterministic : PolicyEngine) (advise : ProposedAction → Advice)
    (enforce has_observer : bool) (started finished : datetime)
    (action : ProposedAction) (principal : Principal.t) (run : Run)
    : result PolicyDecision * list Observation :=
  let observe o := if has_observer then [o] else [] in
  match deterministic action principal run with
  | Raise e => (Raise e, [])
  | Ok d =>
      if bool_decide (decision d ≠ ALLOW) || negb (advisable action) then (Ok d, [])
      else
        match advise action with
        | TimedOut => (Ok d, observe (abstained (name action) "timeout"))
        | Failed code cls => (Ok d, observe (abstained (name action) (_failure_cause code cls)))
        | Advised v =>
            let seen :=
              observe (consulted (name action) (verdict v) enforce (signals v) (finished - started)) in
            match _VERDICT_DECISIONS (verdict v) with
            | None => (Ok d, seen)
            | Some advised =>
                if negb enforce then (Ok d, seen)
                else if bool_decide (combine_decision_types (decision d) (Some advised) = decision d)
                then (Ok d, seen)
                else
                  let listed := String.concat ", " (signals v) in
                  (Ok (mk_decision advised ADVISORY_ESCALATED
                         ("Advisory signals " +:+
                          (if String.eqb listed "" then "unspecified" else listed) +:+
                          " (" +:+ advisor_version v +:+ ").")
                         (policy_version d) false), seen)
            end
        end
  end.

Definition engine (deterministic : PolicyEngine) (advise : ProposedAction → Advice)
    (enforce : bool) : PolicyEngine :=
  λ action principal run, (evaluate deterministic advise enforce false 0 0 action principal run).1.
End AdvisedPolicyEngine.

Module JobPolicyEngine.
#[global] Instance decision_eta : Eta PolicyDecision := λ d,
  {| decision := decision d; reason_code := reason_code d; explanation := explanation d;
     modified_arguments := modified_arguments d; policy_version := policy_version d;
     untrusted_escalation := untrusted_escalation d |}.

Definition evaluate (base publication : PolicyEngine) : PolicyEngine :=
  λ action principal run,
    let engine := if bool_decide (name action ∈ ["job.manage"; "cockpit.install"])
                  then publication else base in
    match engine action principal run with
    | Raise e => Raise e
    | Ok d =>
        if String.eqb (name action) "job.manage" &&
           bool_decide (as_str (dict_get "operation" (arguments action)) = Some "trial") &&
           match dict_get "grant_id" (arguments action) with Some _ => true | None => false end &&
           bool_decide (decision d = ALLOW)
        then Ok (d <| decision := REQUIRE_APPROVAL |>
                   <| reason_code := "job.trial.execution_authority" |>
                   <| explanation := "Live trials require approval or an exact code-bound grant." |>)
        else Ok d
    end.
End JobPolicyEngine.

(** ** What an unapproved action has passed *)
Definition unapproved (d : PolicyDecision) : Prop :=
  POLICY_DECISION_RANK (decision d) < POLICY_DECISION_RANK REQUIRE_APPROVAL.

(** The side-effect classes the trust overlay leaves alone. *)
Definition overlay_exempt (action : ProposedAction) : Prop :=
  side_effect action ∈ [SE_NONE; WORKSPACE_READ; NETWORK_READ].

(** An engine whose unapproved decisions imply [G]: the promise the layers above it keep. *)
Class Guarded (e : PolicyEngine) (G : ProposedAction → Prop) : Prop :=
  guarded action principal run d :
    e action principal run = Ok d → unapproved d → G action.

Section engine_facts.
Context (re_search : bool → string → string → bool)
        (url_hostname : string → option (option string))
        {network : Type} (ip_network : string → option network)
        (address_in : string → network → option bool)
        (BrowserCondition_validates : json → bool).
Notation matches := (hardline_matches re_search url_hostname ip_network address_in).
Notation first := (first_hardline re_search url_hostname ip_network address_in).
Notation evaluate := (evaluate_deterministic re_search url_hostname ip_network address_in
  BrowserCondition_validates).
Notation scroll := (_bounded_browser_scroll BrowserCondition_validates).

Lemma first_hardline_none rs action :
  first rs action = Ok None ↔ Forall (λ r, matches r action = Ok false) rs.
Proof.
  induction rs as [|r rs IH]; cbn; [by split|]. rewrite Forall_cons, <- IH.
  destruct (matches r action) as [[]|]; split; naive_solver.
Qed.

Lemma first_hardline_some rs action r :
  first rs action = Ok (Some r) ↔
  ∃ before after, rs = (before ++ r :: after)%list ∧
    Forall (λ q, matches q action = Ok false) before ∧ matches r action = Ok true.
Proof.
  induction rs as [|q rs IH]; cbn.
  - split; [done|]. by intros ([] & ? & ? & _).
  - destruct (matches q action) as [[]|e] eqn:E.
    + split.
      * intros [= ->]. by exists [], rs.
      * intros ([|b bs] & after & [= -> ->] & Hb & Hr); [done|].
        apply Forall_cons in Hb as [Hb _]. congruence.
    + rewrite IH. split.
      * intros (before & after & -> & Hb & Hr). exists (q :: before), after.
        split; [done|]. split; [by constructor|done].
      * intros ([|b bs] & after & [= -> ->] & Hb & Hr); [congruence|].
        apply Forall_cons in Hb as [_ Hb]. eauto.
    + split; [done|].
      intros ([|b bs] & after & [= -> ->] & Hb & Hr); [congruence|].
      apply Forall_cons in Hb as [Hb _]. congruence.
Qed.

(** The rule that classifies an action: the tool's own, or its side-effect class's. *)
Definition deciding_rule (rs : LoadedRuleset) (action : ProposedAction)
    (tool : option ToolPolicyRule) (d0 : PolicyDecisionType)
    (c0 : option PolicyCondition) (o0 : option PolicyDecisionType) : Prop :=
  match tool with
  | Some r => filter (λ r, tool_name r = name action) (tool_rules rs) = [r] ∧
              d0 = tool_decision r ∧ c0 = tool_condition r ∧ o0 = tool_otherwise r
  | None => filter (λ r, tool_name r = name action) (tool_rules rs) = [] ∧
            ∃ r, filter (λ r, rule_side_effect r = side_effect action) (rules rs) = [r] ∧
                 d0 = rule_decision r ∧ c0 = rule_condition r ∧ o0 = rule_otherwise r
  end.

(** Every unapproved decision comes from the classified branch. *)
Lemma unapproved_classified action principal run rs d :
  unknown_tool_decision rs = DENY →
  evaluate action principal run rs = Ok d → unapproved d →
  Forall (λ r, matches r action = Ok false) (hardline rs) ∧
  (action_kind action = SKILL_AUTHORING → origin_trust action = USER) ∧
  ∃ tool d0 c0 o0, deciding_rule rs action tool d0 c0 o0 ∧
    d = classified BrowserCondition_validates action rs tool d0 c0 o0.
Proof.
  intros Hdeny He Hd. unfold evaluate_deterministic in He.
  destruct (bool_decide _ && bool_decide _) eqn:Eskill; [injection He as <-; by vm_compute in Hd|].
  destruct (first _ action) as [[r|]|] eqn:Ef; [injection He as <-; by vm_compute in Hd| |done].
  split; [by apply first_hardline_none|]. split.
  { intros Hk. rewrite bool_decide_eq_true_2 in Eskill by done.
    apply bool_decide_eq_false in Eskill. by apply dec_stable in Eskill. }
  assert (∀ x, Ok (mk_decision (unknown_tool_decision rs) "policy.unclassifiable_action"
      "The action could not be classified by the loaded policy profile."
      (ruleset_version rs) false) = Ok d → x) as Hno.
  { intros x [= <-]. unfold unapproved in Hd. cbn in Hd. rewrite Hdeny in Hd. done. }
  destruct (filter (λ r, tool_name r = name action) (tool_rules rs)) as [|r [|? ?]] eqn:Et;
    destruct (filter (λ r, rule_side_effect r = side_effect action) (rules rs)) as [|m [|? ?]] eqn:Em;
    try by apply (Hno _ He).
  - injection He as <-. exists None. do 3 eexists. split; [|done]. split; [done|]. by exists m.
  - injection He as <-. exists (Some r). do 3 eexists. split; [|done]. by split.
Qed.

(** A gesture the bounded-scroll rule may permit: [browser.act] on an isolated
    browser, and nothing else. *)
Lemma scroll_is_browser_act action :
  scroll action = true →
  name action = "browser.act" ∧ isolated (action_target action) = true ∧
  target_kind (action_target action) = "browser_provider" ∧ side_effect action = EXTERNAL_WRITE.
Proof.
  unfold _bounded_browser_scroll. destruct (negb _) eqn:E; [done|]. intros _.
  apply negb_false_iff in E. rewrite !andb_true_iff, !String.eqb_eq in E.
  rewrite !bool_decide_eq_true in E. naive_solver.
Qed.

Lemma rank_lt_allow d : unapproved d → decision d ∈ [ALLOW; ALLOW_WITH_MODIFICATIONS].
Proof. unfold unapproved. destruct (decision d); simpl; [set_solver|set_solver|lia|lia]. Qed.

Notation branch := (classified BrowserCondition_validates).

(** The overlay as one fact about the classified branch. *)
Lemma classified_unapproved action rs tool d0 c0 o0 :
  unapproved (branch action rs tool d0 c0 o0) →
  approval_floor action = false ∧
  (external_untrusted_requires_approval rs = true → ¬ overlay_exempt action →
   let permitted := bool_decide (c0 = Some BOUNDED_BROWSER_SCROLL) &&
                    _condition_holds BrowserCondition_validates c0 action in
   (if permitted then default (origin_trust action) (newest_user_trust action) ∈ AUTHORIZING_ORIGINS
    else match tool with
         | Some _ => origin_trust action ∈ AUTHORIZING_ORIGINS
         | None => origin_trust action ≠ EXTERNAL_UNTRUSTED
         end) ∧
   (EXTERNAL_UNTRUSTED ∈ (map_to_list (argument_trust action)).*2 →
    permitted = true ∨ ∃ r, tool = Some r ∧ human_confirms_arguments r = true)).
Proof.
  unfold classified, unapproved. cbn [decision mk_decision].
  set (allowed := _condition_holds _ c0 action).
  set (dec := if allowed then _ else _).
  set (permitted := bool_decide (c0 = _) && allowed).
  set (dec' := if approval_floor action && _ then REQUIRE_APPROVAL else dec).
  intros Hd.
  assert (approval_floor action = false) as Hfloor.
  { destruct (approval_floor action); [|done]. exfalso. subst dec'. cbn [andb] in Hd.
    clearbody dec. match type of Hd with POLICY_DECISION_RANK (if ?g then _ else _) < _ => destruct g end;
      destruct dec; cbn in Hd; lia. }
  split; [done|]. intros Hext Hclass. cbn zeta.
  assert (Hin : bool_decide (dec' ∈ [ALLOW; ALLOW_WITH_MODIFICATIONS]) = true).
  { apply bool_decide_eq_true. revert Hd.
    destruct (bool_decide _ && _ && _ && _); [cbn; lia|].
    destruct dec'; cbn; [set_solver|set_solver|lia|lia]. }
  rewrite Hin, Hext, (bool_decide_eq_true_2 (side_effect action ∉ _)), !andb_true_r in Hd by done.
  cbn [andb] in Hd.
  destruct (_ || _) eqn:Eu in Hd; [cbn in Hd; lia|].
  apply orb_false_iff in Eu as [Eo Ea]. split.
  - destruct permitted; [|destruct tool].
    + apply bool_decide_eq_false in Eo. by apply dec_stable in Eo.
    + apply bool_decide_eq_false in Eo. by apply dec_stable in Eo.
    + by apply bool_decide_eq_false in Eo.
  - intros Harg. rewrite (bool_decide_eq_true_2 (EXTERNAL_UNTRUSTED ∈ _)), andb_true_r in Ea by done.
    apply negb_false_iff, orb_true_iff in Ea as [Hc|Hp]; [right|by left].
    destruct tool as [r|]; [|done]. by exists r.
Qed.

(** C29: A hardline rule is absolute. Whatever the profile, the tool's own rule
    or the trust of the turn say, an action that is not denied has been tried
    against every hardline rule and matched none; and when rules match, the first
    one in profile order denies with its own message code. *)
Theorem hardline_absolute action principal run rs d :
  evaluate action principal run rs = Ok d →
  (decision d ≠ DENY → Forall (λ r, matches r action = Ok false) (hardline rs)) ∧
  (∀ before h after,
     hardline rs = (before ++ h :: after)%list →
     Forall (λ r, matches r action = Ok false) before → matches h action = Ok true →
     (action_kind action = SKILL_AUTHORING → origin_trust action = USER) →
     decision d = DENY ∧ reason_code d = message_code h).
Proof.
  unfold evaluate_deterministic. intros He. split.
  - intros Hd. apply first_hardline_none.
    destruct (bool_decide _ && bool_decide _); [by injection He as <-|].
    destruct (first _ action) as [[r|]|]; [by injection He as <-|done|done].
  - intros before h after Hrs Hb Hh Hskill.
    assert (first (hardline rs) action = Ok (Some h)) as Hf.
    { apply first_hardline_some. eauto. }
    rewrite Hf in He. destruct (bool_decide (action_kind action = _)) eqn:Ek; cbn [andb] in He.
    + apply bool_decide_eq_true in Ek. rewrite (bool_decide_eq_false_2 (origin_trust action ≠ _)) in He.
      * by injection He as <-.
      * intros Hn. by apply Hn, Hskill.
    + by injection He as <-.
Qed.

(** C32: Untrusted content never authorises an effect. With the trust overlay on
    and an unknown-tool decision that denies (both of which every shipped profile
    has), an action that runs without approval either belongs to a class with no
    effect outside the workspace, or comes from a turn no untrusted content has
    entered and carries no untrusted argument. The two exceptions are exactly the
    declared ones: the isolated [browser.act] scroll in a turn an authorising
    origin opened, and the arguments of a tool whose rule says a person confirms them. *)
Theorem untrusted_never_authorizes action principal run rs d :
  unknown_tool_decision rs = DENY → external_untrusted_requires_approval rs = true →
  evaluate action principal run rs = Ok d → unapproved d → ¬ overlay_exempt action →
  (origin_trust action ≠ EXTERNAL_UNTRUSTED ∨
   (scroll action = true ∧
    default (origin_trust action) (newest_user_trust action) ∈ AUTHORIZING_ORIGINS)) ∧
  (EXTERNAL_UNTRUSTED ∈ (map_to_list (argument_trust action)).*2 →
   scroll action = true ∨
   ∃ r, r ∈ tool_rules rs ∧ tool_name r = name action ∧ human_confirms_arguments r = true).
Proof.
  intros Hdeny Hext He Hd Hclass.
  destruct (unapproved_classified action principal run rs d Hdeny He Hd)
    as (_ & _ & tool & d0 & c0 & o0 & Hrule & ->).
  destruct (classified_unapproved _ _ _ _ _ _ Hd) as [_ Hov].
  destruct (Hov Hext Hclass) as [Ho Ha]. clear Hov.
  assert (Hscroll : bool_decide (c0 = Some BOUNDED_BROWSER_SCROLL) &&
    _condition_holds BrowserCondition_validates c0 action = true → scroll action = true).
  { intros [Hc Hh]%andb_true_iff. apply bool_decide_eq_true in Hc as ->. exact Hh. }
  destruct (bool_decide _ && _) eqn:Ep.
  - specialize (Hscroll eq_refl). split; [by right|by left].
  - split.
    + left. destruct tool; [|done]. intros Heq. rewrite Heq in Ho. set_solver.
    + intros [?|(r & -> & Hr)]%Ha; [done|]. right. exists r. destruct Hrule as [Hf _].
      assert (r ∈ filter (λ r, tool_name r = name action) (tool_rules rs)) as Hin by (rewrite Hf; set_solver).
      apply list_elem_of_filter in Hin as [Hn Hin]. done.
Qed.

(** No profile can turn a mailbox mutation, a telephone call, an
    attachment save or an unsubscribe request into a standing allow: whatever
    rules are loaded, such an action at least needs an approval. *)
Theorem approval_floor_holds action principal run rs d :
  unknown_tool_decision rs = DENY → approval_floor action = true →
  evaluate action principal run rs = Ok d → ¬ unapproved d.
Proof.
  intros Hdeny Hfl He Hd.
  destruct (unapproved_classified action principal run rs d Hdeny He Hd)
    as (_ & _ & tool & d0 & c0 & o0 & _ & ->).
  apply classified_unapproved in Hd as [Hf _]. congruence.
Qed.

(** What the deterministic engine guards. *)
Definition cleared (rs : LoadedRuleset) (action : ProposedAction) : Prop :=
  Forall (λ r, matches r action = Ok false) (hardline rs) ∧
  (action_kind action = SKILL_AUTHORING → origin_trust action = USER) ∧
  approval_floor action = false ∧
  (external_untrusted_requires_approval rs = true → ¬ overlay_exempt action →
   origin_trust action = EXTERNAL_UNTRUSTED → scroll action = true).

Lemma deterministic_guarded rs :
  unknown_tool_decision rs = DENY →
  Guarded (λ action principal run, evaluate action principal run rs) (cleared rs).
Proof.
  intros Hdeny action principal run d He Hd.
  destruct (unapproved_classified action principal run rs d Hdeny He Hd)
    as (Hh & Hs & tool & d0 & c0 & o0 & Hrule & ->).
  destruct (classified_unapproved _ _ _ _ _ _ Hd) as [Hf Hov].
  split; [done|]. split; [done|]. split; [done|]. intros Hext Hclass Horigin.
  destruct (Hov Hext Hclass) as [Ho _]. clear Hov.
  destruct (bool_decide _ && _) eqn:Ep.
  - apply andb_true_iff in Ep as [Hc Hh']. apply bool_decide_eq_true in Hc as ->. exact Hh'.
  - rewrite Horigin in Ho. destruct tool; [set_solver|done].
Qed.
End engine_facts.

(** ** The layers above it *)
Lemma combine_is_max d a :
  POLICY_DECISION_RANK (combine_decision_types d a) =
  match a with None => POLICY_DECISION_RANK d
             | Some a => Z.max (POLICY_DECISION_RANK d) (POLICY_DECISION_RANK a) end.
Proof. destruct d, a as [[]|]; reflexivity. Qed.

(** The advisor can only make a decision stricter. The advised engine
    raises exactly when the deterministic one does (a failing or slow advisor is
    an abstention); otherwise its decision is never less restrictive, and it
    differs only when a plainly allowed, advisable action met an enforced verdict,
    whose decision it then is. *)
Theorem advisory_only_escalates deterministic advise enforce obs started finished action principal run :
  match deterministic action principal run,
        (AdvisedPolicyEngine.evaluate deterministic advise enforce obs started finished
           action principal run).1 with
  | Raise e, r => r = Raise e
  | Ok d, Raise _ => False
  | Ok d, Ok d' =>
      POLICY_DECISION_RANK (decision d) ≤ POLICY_DECISION_RANK (decision d') ∧
      (d' = d ∨
       (decision d = ALLOW ∧ enforce = true ∧ advisable action = true ∧
        policy_version d' = policy_version d ∧
        ∃ v, advise action = Advised v ∧ _VERDICT_DECISIONS (verdict v) = Some (decision d')))
  end.
Proof.
  unfold AdvisedPolicyEngine.evaluate. destruct (deterministic action principal run) as [d|e]; [|done].
  destruct (bool_decide _ || _) eqn:E; [split; [lia|by left]|].
  apply orb_false_iff in E as [Ha Hadv]. apply bool_decide_eq_false, dec_stable in Ha.
  apply negb_false_iff in Hadv.
  destruct (advise action) as [v| |] eqn:Ev; [|split; [lia|by left]..].
  destruct (_VERDICT_DECISIONS (verdict v)) as [a|] eqn:Ed; [|split; [lia|by left]].
  destruct enforce; cbn [negb]; [|split; [lia|by left]].
  case_bool_decide as Hc; cbn [fst]; [split; [lia|by left]|]. split.
  - rewrite Ha. cbn. destruct a; simpl; lia.
  - right. repeat split; [done|done|]. by exists v.
Qed.

#[export] Instance advised_guarded e advise enforce G :
  Guarded e G → Guarded (AdvisedPolicyEngine.engine e advise enforce) G.
Proof.
  intros HG action principal run d He Hd. unfold AdvisedPolicyEngine.engine in He.
  pose proof (advisory_only_escalates e advise enforce false 0 0 action principal run) as Hadv.
  rewrite He in Hadv. destruct (e action principal run) as [d0|] eqn:E0; [|done].
  destruct Hadv as [Hrank _]. eapply HG; [exact E0|]. unfold unapproved in *. lia.
Qed.

Lemma job_evaluate base publication action principal run d :
  JobPolicyEngine.evaluate base publication action principal run = Ok d →
  ∃ d0, (if bool_decide (name action ∈ ["job.manage"; "cockpit.install"]) then publication else base)
          action principal run = Ok d0 ∧
        POLICY_DECISION_RANK (decision d0) ≤ POLICY_DECISION_RANK (decision d) ∧
        (name action = "job.manage" → as_str (dict_get "operation" (arguments action)) = Some "trial" →
         dict_get "grant_id" (arguments action) ≠ None → decision d ≠ ALLOW).
Proof.
  unfold JobPolicyEngine.evaluate.
  destruct ((if bool_decide _ then publication else base) action principal run) as [d0|]; [|done].
  intros He. exists d0. split; [done|].
  destruct (_ && _ && _ && _) eqn:E; injection He as <-.
  - rewrite !andb_true_iff in E. destruct E as [_ Ha]. apply bool_decide_eq_true in Ha.
    rewrite Ha. cbn. split; [lia|done].
  - split; [lia|]. intros Hn Ho Hg Ha.
    rewrite Hn, String.eqb_refl, Ho, Ha in E. rewrite !bool_decide_eq_true_2 in E by done.
    destruct (dict_get "grant_id" _); done.
Qed.

#[export] Instance job_guarded base publication G :
  Guarded base G → Guarded publication G →
  Guarded (JobPolicyEngine.evaluate base publication) G.
Proof.
  intros Hb Hp action principal run d He Hd.
  destruct (job_evaluate _ _ _ _ _ _ He) as (d0 & H0 & Hr & _).
  assert (unapproved d0) by (unfold unapproved in *; lia).
  case_bool_decide; [by eapply Hp|by eapply Hb].
Qed.

(** ** Witnesses: the shipped profile ([policy/default.yaml], [policy/hardline.yaml]) *)
Definition rule e d c o : PolicyRule :=
  {| rule_side_effect := e; rule_decision := d; rule_condition := c; rule_otherwise := o |}.
Definition class_rule id effect message near : HardlineRule :=
  {| rule_id := id; rule_kind := SIDE_EFFECT; applies_to := [effect]; message_code := message;
     near_miss := near; pattern := None; paths := []; cidrs := []; source := None |}.
Definition default_ruleset : LoadedRuleset :=
  {| ruleset_version := "default@0+h0"; profile_name := "default"; profile_sha256 := "0";
     hardline_sha256 := "0";
     rules := [rule SE_NONE ALLOW None None; 
               rule WORKSPACE_READ ALLOW (Some PATH_INSIDE_WORKSPACE) (Some DENY);
               rule WORKSPACE_WRITE ALLOW (Some PATH_INSIDE_WORKSPACE) (Some DENY);
               rule NETWORK_READ ALLOW (Some HOST_ON_ALLOWLIST) (Some DENY);
               rule CODE_EXECUTION ALLOW (Some TARGET_ISOLATED) (Some DENY);
               rule PACKAGE_INSTALL DENY None None; rule SANDBOX_NETWORK DENY None None;
               rule EXTERNAL_MESSAGE REQUIRE_APPROVAL None None;
               rule EXTERNAL_WRITE REQUIRE_APPROVAL None None;
               rule EXTERNAL_DELETE REQUIRE_APPROVAL None None;
               rule FINANCIAL REQUIRE_APPROVAL None None;
               rule SE_PUBLICATION REQUIRE_APPROVAL None None;
               rule CREDENTIAL_ACCESS DENY None None; rule HOST_ACCESS DENY None None;
               rule PRIVILEGED DENY None None];
     tool_rules := [
       {| tool_name := "browser.act"; tool_decision := ALLOW;
          tool_condition := Some BOUNDED_BROWSER_SCROLL; tool_otherwise := Some REQUIRE_APPROVAL;
          human_confirms_arguments := false |};
       {| tool_name := "device.sms.send"; tool_decision := ALLOW; tool_condition := None;
          tool_otherwise := None; human_confirms_arguments := true |}];
     hardline := [host_path_rule;
       class_rule "credential_class" CREDENTIAL_ACCESS "policy.hardline.credential_access"
         "read a credential reference from configuration";
       class_rule "privileged_class" PRIVILEGED "policy.hardline.privileged"
         "run as the unprivileged sandbox user"];
     default_effect := DENY; unknown_tool_decision := DENY;
     external_untrusted_requires_approval := true; self_approval_enabled := true;
     advisory_enabled := false;
     approval_expiry_seconds := [(LOW, 86400); (MEDIUM, 86400); (HIGH, 14400); (CRITICAL, 3600)] |}.

#[global] Instance action_eta : Eta ProposedAction := λ a,
  {| action_kind := action_kind a; action_id := action_id a; action_tenant_id := action_tenant_id a;
     action_session_id := action_session_id a; action_run_id := action_run_id a;
     action_step_number := action_step_number a; name := name a; version := version a;
     summary := summary a; side_effect := side_effect a; risk := risk a;
     idempotency := idempotency a; required_scopes := required_scopes a; arguments := arguments a;
     normalized_arguments_hash := normalized_arguments_hash a; argument_trust := argument_trust a;
     origin_trust := origin_trust a; newest_user_trust := newest_user_trust a;
     action_target := action_target a; evaluated_at := evaluated_at a |}.

(** A scroll in a feed the owner asked to read: the page has tainted the turn. *)
Definition scroll_action : ProposedAction :=
  (write_action "") <| name := "browser.act" |> <| side_effect := EXTERNAL_WRITE |> <| risk := HIGH |>
    <| origin_trust := EXTERNAL_UNTRUSTED |>
    <| argument_trust := {[ "ref" := EXTERNAL_UNTRUSTED ]} |>
    <| arguments := [("kind", JStr "scroll"); ("expected_revision", JStr "r1"); ("ref", JStr "e4");
                     ("delta_y", JInt 600)] |>
    <| action_target := {| target_kind := "browser_provider"; isolated := true;
                           network_enabled := true; device_id := None; server_id := None |} |>.
(** A message sent by the model through a named mailbox. *)
Definition send_action : ProposedAction :=
  (write_action "") <| name := "mcp.gmail_work_send.send_message" |>
    <| side_effect := SE_NONE |>
    <| action_target := {| target_kind := "mcp"; isolated := false; network_enabled := true;
                           device_id := None; server_id := Some "gmail_work_send" |} |>.
Definition owner : Principal.t :=
  {| Principal.tenant_id := "t1"; Principal.principal_id := "u1"; Principal.roles := ∅;
     Principal.scopes := ∅ |}.

(** No regular expression matches, every text is a host and none an address. *)
Notation sample_evaluate := (evaluate_deterministic (λ _ _ _, false) (λ s, Some (Some s))
  (λ c : string, Some c) (λ _ _, None) (λ _, true)).
Notation sample_run1 := (sample_run 7 2 RUNNING).

Lemma hardline_absolute_witness :
  ∃ d, sample_evaluate (write_action "/etc/../etc/passwd") owner sample_run1 default_ruleset = Ok d ∧
       decision d = DENY ∧ reason_code d = "policy.hardline.host_path".
Proof.
  eexists. split; [vm_compute; reflexivity|].
  refine (proj2 (hardline_absolute (λ _ _ _, false) (λ s, Some (Some s)) (λ c : string, Some c)
    (λ _ _, None) (λ _, true) (write_action "/etc/../etc/passwd") owner sample_run1 default_ruleset
    _ eq_refl) [] host_path_rule _ eq_refl _ eq_refl _); [constructor|done].
Defined.

(** The permitted scroll runs although the page tainted the turn, because the
    owner opened it; it is one of the declared exceptions. *)
Lemma untrusted_never_authorizes_witness :
  ∃ d, sample_evaluate scroll_action owner sample_run1 default_ruleset = Ok d ∧
       decision d = ALLOW ∧
       (origin_trust scroll_action ≠ EXTERNAL_UNTRUSTED ∨
        (_bounded_browser_scroll (λ _, true) scroll_action = true ∧
         default (origin_trust scroll_action) (newest_user_trust scroll_action)
           ∈ AUTHORIZING_ORIGINS)).
Proof.
  eexists. split; [reflexivity|]. split; [reflexivity|].
  refine (proj1 (untrusted_never_authorizes (λ _ _ _, false) (λ s, Some (Some s))
    (λ c : string, Some c) (λ _ _, None) (λ _, true) scroll_action owner sample_run1
    default_ruleset _ eq_refl eq_refl eq_refl _ _)); [reflexivity|].
  apply (bool_decide_unpack _). by vm_compute.
Defined.

Lemma approval_floor_holds_witness :
  ∃ d, sample_evaluate send_action owner sample_run1 default_ruleset = Ok d ∧
       decision d = REQUIRE_APPROVAL ∧ ¬ unapproved d.
Proof.
  eexists. split; [reflexivity|]. split; [reflexivity|].
  refine (approval_floor_holds (λ _ _ _, false) (λ s, Some (Some s)) (λ c : string, Some c)
    (λ _ _, None) (λ _, true) send_action owner sample_run1 default_ruleset _ eq_refl _ eq_refl).
  by vm_compute.
Defined.
