(* ===== verification/PolicyLoader.v ===== *)
(** * Loading a policy profile ([policy/loader.py], [policy/jobs.py])

    A document is the mapping YAML gives: keys are strings, and a repeated key
    counts once. The SHA-256 of a document is a parameter. Messages name the field
    that is wrong; the list of offending keys some of them end with is left out. *)
From S2P Require Import Prelude RunModel Sessions PolicyModel Hardline Policy.

(** ** Reading values *)
Definition ALL_EFFECTS : list SideEffectClass :=
  [SE_NONE; WORKSPACE_READ; WORKSPACE_WRITE; NETWORK_READ; CODE_EXECUTION; PACKAGE_INSTALL;
   SANDBOX_NETWORK; EXTERNAL_MESSAGE; EXTERNAL_WRITE; EXTERNAL_DELETE; FINANCIAL;
   SE_PUBLICATION; CREDENTIAL_ACCESS; HOST_ACCESS; PRIVILEGED].
Definition ALL_RISKS : list RiskLevel := [LOW; MEDIUM; HIGH; CRITICAL].

Definition RiskLevel_value (r : RiskLevel) : string :=
  match r with LOW => "low" | MEDIUM => "medium" | HIGH => "high" | CRITICAL => "critical" end.
Definition PolicyDecisionType_value (d : PolicyDecisionType) : string :=
  match d with
  | ALLOW => "allow" | ALLOW_WITH_MODIFICATIONS => "allow_with_modifications"
  | REQUIRE_APPROVAL => "require_approval" | DENY => "deny"
  end.
Definition PolicyCondition_value (c : PolicyCondition) : string :=
  match c with
  | PATH_INSIDE_WORKSPACE => "path_inside_workspace" | HOST_ON_ALLOWLIST => "host_on_allowlist"
  | TARGET_ISOLATED => "target_isolated" | BOUNDED_BROWSER_SCROLL => "bounded_browser_scroll"
  end.
Definition HardlineRuleKind_value (k : HardlineRuleKind) : string :=
  match k with
  | SIDE_EFFECT => "side_effect" | COMMAND_REGEX => "command_regex"
  | PROTECTED_PATH => "protected_path" | NETWORK_RANGE => "network_range"
  | TRUST_FLOW => "trust_flow"
  end.

(** [Enum(value)]: the member with that value. *)
Definition enum_of {A} (members : list A) (value : A → string) (what : string) (v : json) : result A :=
  match v with
  | JStr s =>
      match List.find (λ a, String.eqb (value a) s) members with
      | Some a => Ok a
      | None => Raise (ValueError what)
      end
  | _ => Raise (ValueError what)
  end.
Definition to_decision := enum_of [ALLOW; ALLOW_WITH_MODIFICATIONS; REQUIRE_APPROVAL; DENY]
  PolicyDecisionType_value "PolicyDecisionType".
Definition to_condition :=
  enum_of [PATH_INSIDE_WORKSPACE; HOST_ON_ALLOWLIST; TARGET_ISOLATED; BOUNDED_BROWSER_SCROLL]
    PolicyCondition_value "PolicyCondition".
Definition to_effect := enum_of ALL_EFFECTS SideEffectClass_value "SideEffectClass".
Definition to_kind :=
  enum_of [SIDE_EFFECT; COMMAND_REGEX; PROTECTED_PATH; NETWORK_RANGE; TRUST_FLOW]
    HardlineRuleKind_value "HardlineRuleKind".

(** [f(d[key]) if d.get(key) is not None else None] *)
Definition optional {A} (f : json → result A) (key : string) (d : dict) : result (option A) :=
  match dict_get key d with
  | None | Some JNull => Ok None
  | Some v => Some <$> f v
  end.

Definition to_str (v : json) : result string :=
  match v with JStr s => Ok s | _ => Raise (ValueError "str") end.
Fixpoint mapR {A B} (f : A → result B) (l : list A) : result (list B) :=
  match l with
  | [] => Ok []
  | a :: l' => b ← f a; bs ← mapR f l'; Ok (b :: bs)
  end.
Definition to_tuple {A} (f : json → result A) (v : json) : result (list A) :=
  match v with JArr l => mapR f l | _ => Raise (ValueError "tuple") end.
Definition required {A} (f : json → result A) (key : string) (d : dict) : result A :=
  match dict_get key d with Some v => f v | None => Raise (ValueError key) end.
Definition with_default {A} (f : json → result A) (key : string) (a : A) (d : dict) : result A :=
  match dict_get key d with Some v => f v | None => Ok a end.

Definition dict_keys (d : dict) : list string := remove_dups (map fst d).

(** [v == 1] *)
Definition equals_one (v : option json) : bool :=
  match v with
  | Some (JInt z) => z =? 1
  | Some (JBool b) => b
  | Some (JFloat m e) => if 0 <=? e then m * 2 ^ e =? 1 else m =? 2 ^ (- e)
  | _ => false
  end.

(** ** [loader.py] *)
Definition _PROFILE_KEYS : list string :=
  ["schema_version"; "name"; "default_effect"; "rules"; "tool_rules"; "unknown_tool";
   "trust_overlay"; "approval_expiry_seconds"; "self_approval"; "advisory"].
Definition _HARDLINE_KEYS : list string := ["schema_version"; "rules"].
Definition _RULE_KEYS : list string := ["decision"; "condition"; "otherwise"].
Definition _TOOL_RULE_KEYS : list string := _RULE_KEYS ++ ["human_confirms_arguments"].

(** [_TOOL_NAME.fullmatch] *)
Definition _TOOL_NAME (s : string) : bool :=
  let parts := py_split_char "."%char s in
  (2 <=? length parts)%nat && forallb (identifier (String.length s)) parts.

Definition _require_exact_keys (value : dict) (expected : list string) (location : string) : result unit :=
  if forallb (λ k, bool_decide (k ∈ expected)) (dict_keys value) then Ok tt
  else Raise (ValueError (location +:+ " contains unknown fields")).

Definition str_leb (a b : string) : Prop := String.leb a b = true.
#[export] Instance str_leb_dec a b : Decision (str_leb a b) := decide (_ = _).
Definition sorted (l : list string) : list string := merge_sort str_leb l.

Definition tool_rule_row (value : dict) (name : string) : result ToolPolicyRule :=
  if negb (_TOOL_NAME name) then
    Raise (ValueError ("policy tool rule " +:+ name +:+ " is not a valid tool name"))
  else match dict_get name value with
  | Some (JObj row) =>
      _ ← _require_exact_keys row _TOOL_RULE_KEYS ("policy tool rule " +:+ name);
      match dict_get "decision" row with
      | None => Raise (ValueError ("policy tool rule " +:+ name +:+ " requires a decision"))
      | Some dv =>
          match default (JBool false) (dict_get "human_confirms_arguments" row) with
          | JBool confirms =>
              d ← to_decision dv;
              c ← optional to_condition "condition" row;
              o ← optional to_decision "otherwise" row;
              if (String.length name <=? 96)%nat then
                Ok {| tool_name := name; tool_decision := d; tool_condition := c;
                      tool_otherwise := o; human_confirms_arguments := confirms |}
              else Raise (ValueError "tool_name")
          | _ => Raise (ValueError ("policy tool rule " +:+ name +:+
                                    ".human_confirms_arguments must be boolean"))
          end
      end
  | _ => Raise (ValueError ("policy tool rule " +:+ name +:+ " must be a mapping"))
  end.

Definition _tool_rules (value : option json) : result (list ToolPolicyRule) :=
  match value with
  | None | Some JNull => Ok []
  | Some (JObj value) => mapR (tool_rule_row value) (sorted (dict_keys value))
  | Some _ => Raise (ValueError "policy tool rules must be a mapping keyed on tool name")
  end.

Definition matrix_row (profile_rules : dict) (effect : SideEffectClass) : result PolicyRule :=
  match dict_get (SideEffectClass_value effect) profile_rules with
  | Some (JObj row) =>
      _ ← _require_exact_keys row _RULE_KEYS ("policy rule " +:+ SideEffectClass_value effect);
      match dict_get "decision" row with
      | None => Raise (ValueError ("policy rule " +:+ SideEffectClass_value effect +:+
                                   " requires a decision"))
      | Some dv =>
          d ← to_decision dv;
          c ← optional to_condition "condition" row;
          o ← optional to_decision "otherwise" row;
          Ok {| rule_side_effect := effect; rule_decision := d; rule_condition := c;
                rule_otherwise := o |}
      end
  | _ => Raise (ValueError ("policy rule " +:+ SideEffectClass_value effect +:+ " must be a mapping"))
  end.

(** [HardlineRule.model_validate] *)
Definition HARDLINE_FIELDS : list string :=
  ["id"; "kind"; "applies_to"; "message_code"; "near_miss"; "pattern"; "paths"; "cidrs"; "source"].
Definition HardlineRule_validate (v : json) : result HardlineRule :=
  match v with
  | JObj row =>
      _ ← _require_exact_keys row HARDLINE_FIELDS "HardlineRule";
      i ← required to_str "id" row;
      k ← required to_kind "kind" row;
      a ← required (to_tuple to_effect) "applies_to" row;
      m ← required to_str "message_code" row;
      n ← required to_str "near_miss" row;
      p ← optional to_str "pattern" row;
      ps ← with_default (to_tuple to_str) "paths" [] row;
      cs ← with_default (to_tuple to_str) "cidrs" [] row;
      s ← optional to_str "source" row;
      Ok {| rule_id := i; rule_kind := k; applies_to := a; message_code := m; near_miss := n;
            pattern := p; paths := ps; cidrs := cs; source := s |}
  | _ => Raise (ValueError "HardlineRule")
  end.

(** [not text.strip()] *)
Definition blank (s : string) : bool := str_all py_isspace s.

(** [if not b: raise ValueError(msg)] *)
Definition require (b : bool) (msg : string) : result unit :=
  if b then Ok tt else Raise (ValueError msg).
(** The value when it is a mapping (of exactly these keys), a list, a boolean; else the error. *)
Definition has_keys (o : dict) (keys : list string) : bool :=
  forallb (λ k, bool_decide (k ∈ keys)) (dict_keys o) &&
  forallb (λ k, bool_decide (k ∈ dict_keys o)) keys.
Definition as_mapping (v : option json) (msg : string) : result dict :=
  match v with Some (JObj o) => Ok o | _ => Raise (ValueError msg) end.
Definition as_exact_mapping (v : option json) (keys : list string) (msg : string) : result dict :=
  o ← as_mapping v msg; _ ← require (has_keys o keys) msg; Ok o.
Definition as_list (v : option json) (msg : string) : result (list json) :=
  match v with Some (JArr l) => Ok l | _ => Raise (ValueError msg) end.
Definition as_bool (v : option json) (msg : string) : result bool :=
  match v with Some (JBool b) => Ok b | _ => Raise (ValueError msg) end.

Definition flag_section (profile : dict) (section : string) : result bool :=
  o ← as_exact_mapping (dict_get section profile) ["enabled"]
        (section +:+ " policy has an invalid shape");
  as_bool (dict_get "enabled" o) (section +:+ ".enabled must be boolean").

Definition expiry_value (expiry : dict) (risk : RiskLevel) : result (RiskLevel * Z) :=
  match dict_get (RiskLevel_value risk) expiry with
  | Some (JInt n) => Ok (risk, n)
  | _ => Raise (ValueError "approval expiry values must be integers")
  end.

(** [str(profile["name"])] is the name itself only when it is text. *)
Definition profile_name_of (profile : dict) : result string :=
  match dict_get "name" profile with
  | None => Raise (KeyError "name")
  | Some (JStr name) =>
      _ ← require (negb (String.eqb name "")) "policy profile name must be a non-empty string";
      Ok name
  | Some _ => Raise (ValueError "policy profile name must be a non-empty string")
  end.

Definition _build_ruleset (profile hardline : dict) (profile_sha hardline_sha : string)
    : result LoadedRuleset :=
  _ ← _require_exact_keys profile _PROFILE_KEYS "policy profile";
  _ ← _require_exact_keys hardline _HARDLINE_KEYS "hardline policy";
  _ ← require (equals_one (dict_get "schema_version" profile) &&
               equals_one (dict_get "schema_version" hardline))
        "unsupported policy schema version";
  profile_rules ← as_mapping (dict_get "rules" profile) "policy profile rules must be a mapping";
  _ ← require (has_keys profile_rules (map SideEffectClass_value ALL_EFFECTS))
        "policy matrix must be total";
  rules ← mapR (matrix_row profile_rules) ALL_EFFECTS;
  tool_rules ← _tool_rules (dict_get "tool_rules" profile);
  hardline_rows ← as_list (dict_get "rules" hardline) "hardline rules must be a list";
  hardline_rules ← mapR HardlineRule_validate hardline_rows;
  _ ← require (bool_decide (NoDup (map rule_id hardline_rules))) "hardline rule ids must be unique";
  _ ← require (forallb (λ r, negb (blank (near_miss r))) hardline_rules)
        "every hardline rule requires a near_miss";
  expiry ← as_exact_mapping (Some (default (JObj []) (dict_get "approval_expiry_seconds" profile)))
             (map RiskLevel_value ALL_RISKS)
             "approval expiry must define every risk level exactly once";
  expiry_values ← mapR (expiry_value expiry) ALL_RISKS;
  _ ← require (forallb (λ rs, 0 <? rs.2) expiry_values) "approval expiry values must be positive";
  trust_overlay ← as_exact_mapping (dict_get "trust_overlay" profile)
                    ["external_untrusted_requires_approval"] "trust overlay has an invalid shape";
  external_requires_approval ←
    as_bool (dict_get "external_untrusted_requires_approval" trust_overlay)
      "external untrusted approval overlay must be boolean";
  unknown_tool ← as_exact_mapping (dict_get "unknown_tool" profile) ["decision"]
                   "unknown-tool policy has an invalid shape";
  unknown ← to_decision (default JNull (dict_get "decision" unknown_tool));
  _ ← require (bool_decide (unknown = DENY)) "unknown-tool policy must fail closed with deny";
  self_approval ← flag_section profile "self_approval";
  advisory ← flag_section profile "advisory";
  name ← profile_name_of profile;
  effect ← to_decision (default (JStr "deny") (dict_get "default_effect" profile));
  Ok {| ruleset_version :=
          name +:+ "@" +:+ String.substring 0 12 profile_sha +:+
          "+h" +:+ String.substring 0 8 hardline_sha;
        profile_name := name;
        profile_sha256 := profile_sha;
        hardline_sha256 := hardline_sha;
        PolicyModel.rules := rules;
        PolicyModel.tool_rules := tool_rules;
        PolicyModel.hardline := hardline_rules;
        default_effect := effect;
        unknown_tool_decision := unknown;
        external_untrusted_requires_approval := external_requires_approval;
        self_approval_enabled := self_approval;
        advisory_enabled := advisory;
        approval_expiry_seconds := expiry_values |}.

(** ** [policy/jobs.py]: a ruleset written back as documents *)
Definition optional_field {A} (key : string) (value : A → string) (o : option A) : dict :=
  match o with Some a => [(key, JStr (value a))] | None => [] end.
(** [rule.model_dump(mode="json", exclude={...}, exclude_none=True)] *)
Definition dump_rule (r : PolicyRule) : json :=
  JObj (("decision", JStr (PolicyDecisionType_value (rule_decision r))) ::
        optional_field "condition" PolicyCondition_value (rule_condition r) ++
        optional_field "otherwise" PolicyDecisionType_value (rule_otherwise r)).
Definition dump_tool_rule (r : ToolPolicyRule) : json :=
  JObj (("decision", JStr (PolicyDecisionType_value (tool_decision r))) ::
        optional_field "condition" PolicyCondition_value (tool_condition r) ++
        optional_field "otherwise" PolicyDecisionType_value (tool_otherwise r) ++
        [("human_confirms_arguments", JBool (human_confirms_arguments r))]).
Definition dump_hardline (r : HardlineRule) : json :=
  let text o := match o with Some s => JStr s | None => JNull end in
  JObj [("id", JStr (rule_id r)); ("kind", JStr (HardlineRuleKind_value (rule_kind r)));
        ("applies_to", JArr (map (λ e, JStr (SideEffectClass_value e)) (applies_to r)));
        ("message_code", JStr (message_code r)); ("near_miss", JStr (near_miss r));
        ("pattern", text (pattern r)); ("paths", JArr (map JStr (paths r)));
        ("cidrs", JArr (map JStr (cidrs r))); ("source", text (source r))].

(** [d.setdefault(key, value)] *)
Definition setdefault (key : string) (value : json) (d : dict) : dict :=
  match dict_get key d with Some _ => d | None => (d ++ [(key, value)])%list end.

Section documents.
Context (_document_sha256 : dict → string).

Definition load_ruleset_documents (profile hardline : dict) : result LoadedRuleset :=
  _build_ruleset profile hardline (_document_sha256 profile) (_document_sha256 hardline).

Definition job_tool_rules (base : LoadedRuleset) : dict :=
  let tool_rules := map (λ r, (tool_name r, dump_tool_rule r)) (tool_rules base) in
  let tool_rules := setdefault "job.manage" (JObj [("decision", JStr "allow")]) tool_rules in
  setdefault "cockpit.install" (JObj [("decision", JStr "require_approval")]) tool_rules.

Definition job_profile (base : LoadedRuleset) : dict :=
  [("schema_version", JInt 1);
   ("name", JStr (profile_name base +:+ "-jobs"));
   ("default_effect", JStr (PolicyDecisionType_value (default_effect base)));
   ("rules", JObj (map (λ r, (SideEffectClass_value (rule_side_effect r), dump_rule r)) (rules base)));
   ("tool_rules", JObj (job_tool_rules base));
   ("unknown_tool", JObj [("decision", JStr (PolicyDecisionType_value (unknown_tool_decision base)))]);
   ("trust_overlay", JObj [("external_untrusted_requires_approval",
                            JBool (external_untrusted_requires_approval base))]);
   ("approval_expiry_seconds",
    JObj (map (λ rs, (RiskLevel_value rs.1, JInt rs.2)) (approval_expiry_seconds base)));
   ("self_approval", JObj [("enabled", JBool (self_approval_enabled base))]);
   ("advisory", JObj [("enabled", JBool (advisory_enabled base))])].

Definition job_publication_ruleset (base : LoadedRuleset) : result LoadedRuleset :=
  load_ruleset_documents (job_profile base)
    [("schema_version", JInt 1); ("rules", JArr (map dump_hardline (hardline base)))].
End documents.

(** ** Reading back what was written *)
Lemma result_bind_ok {A B} (m : result A) (f : A → result B) b :
  m ≫= f = Ok b ↔ ∃ a, m = Ok a ∧ f a = Ok b.
Proof. destruct m; simpl; naive_solver. Qed.
Lemma require_ok b msg u : require b msg = Ok u ↔ b = true.
Proof. destruct b, u; simpl; naive_solver. Qed.
Lemma mapR_ok {A B} (f : A → result B) l bs :
  mapR f l = Ok bs ↔ Forall2 (λ a b, f a = Ok b) l bs.
Proof.
  revert bs. induction l as [|a l IH]; intros bs; simpl.
  - split; [by intros [= <-]|by intros ->%Forall2_nil_inv_l].
  - rewrite result_bind_ok. setoid_rewrite result_bind_ok. setoid_rewrite IH. split.
    + intros (b & Hb & bs' & Hbs & [= <-]). by constructor.
    + intros (b & bs' & Hb & Hbs & ->)%Forall2_cons_inv_l. eauto 6.
Qed.
Lemma mapR_map {A B C} (g : C → A) (f : A → result B) (h : C → B) l :
  Forall (λ c, f (g c) = Ok (h c)) l → mapR f (map g l) = Ok (map h l).
Proof. intros H. apply mapR_ok, Forall2_fmap. by apply Forall_Forall2_diag. Qed.
Lemma mapR_id {A C} (g : C → A) (f : A → result C) l :
  Forall (λ c, f (g c) = Ok c) l → mapR f (map g l) = Ok l.
Proof. intros H. pose proof (mapR_map g f (λ c, c) l H) as Hm. by rewrite map_id in Hm. Qed.

Lemma to_decision_value d : to_decision (JStr (PolicyDecisionType_value d)) = Ok d.
Proof. by destruct d. Qed.
Lemma to_condition_value c : to_condition (JStr (PolicyCondition_value c)) = Ok c.
Proof. by destruct c. Qed.
Lemma to_effect_value e : to_effect (JStr (SideEffectClass_value e)) = Ok e.
Proof. by destruct e. Qed.
Lemma to_kind_value k : to_kind (JStr (HardlineRuleKind_value k)) = Ok k.
Proof. by destruct k. Qed.

Lemma dict_keys_elem k d : k ∈ dict_keys d ↔ k ∈ map fst d.
Proof. apply elem_of_remove_dups. Qed.
Lemma dict_get_NoDup k v d : NoDup (map fst d) → (k, v) ∈ d → dict_get k d = Some v.
Proof.
  induction d as [|[k' v'] d IH]; simpl; [by intros _ ?%not_elem_of_nil|].
  intros [Hk Hd]%NoDup_cons [[= -> ->]|Hin]%list_elem_of_In; [by rewrite String.eqb_refl|].
  apply list_elem_of_In in Hin. destruct (String.eqb_spec k' k) as [->|]; [|by apply IH].
  destruct Hk. apply list_elem_of_fmap. by exists (k, v).
Qed.
Lemma dict_get_None k d : dict_get k d = None ↔ k ∉ map fst d.
Proof.
  induction d as [|[k' v'] d IH]; simpl; [split; [by intros _ ?%not_elem_of_nil|done]|].
  rewrite not_elem_of_cons. destruct (String.eqb_spec k' k) as [->|Hne]; naive_solver.
Qed.

Lemma matrix_row_dump profile_rules r :
  dict_get (SideEffectClass_value (rule_side_effect r)) profile_rules = Some (dump_rule r) →
  matrix_row profile_rules (rule_side_effect r) = Ok r.
Proof.
  unfold matrix_row. intros ->. by destruct r as [e [] [[]|] [[]|]].
Qed.

Lemma tool_rule_row_dump value r :
  _TOOL_NAME (tool_name r) = true → (String.length (tool_name r) ≤ 96)%nat →
  dict_get (tool_name r) value = Some (dump_tool_rule r) →
  tool_rule_row value (tool_name r) = Ok r.
Proof.
  unfold tool_rule_row. intros Hn Hl ->. rewrite Hn. apply Nat.leb_le in Hl. cbn [negb].
  destruct r as [n d c o h]. cbn [tool_name] in *. rewrite Hl. by destruct d, c as [[]|], o as [[]|].
Qed.

Lemma tuple_dump {A} (f : json → result A) (g : A → json) l :
  (∀ a, f (g a) = Ok a) → to_tuple f (JArr (map g l)) = Ok l.
Proof. intros H. apply mapR_id. by apply Forall_true. Qed.

Lemma HardlineRule_validate_dump r : HardlineRule_validate (dump_hardline r) = Ok r.
Proof.
  destruct r as [i k a m n p ps cs s]. unfold HardlineRule_validate, dump_hardline.
  cbn [rule_id rule_kind applies_to message_code near_miss pattern paths cidrs source].
  change (_require_exact_keys _ _ _) with (Ok tt). cbn [mbind result_bind].
  unfold required, optional, with_default. cbn [dict_get String.eqb Ascii.eqb Bool.eqb].
  cbn [to_str mbind result_bind]. rewrite to_kind_value.
  rewrite (tuple_dump to_effect (λ e, JStr (SideEffectClass_value e))) by apply to_effect_value.
  cbn [mbind result_bind].
  destruct p, s; cbn [to_str fmap result_fmap mbind result_bind]; by rewrite !(tuple_dump to_str JStr) by done.
Qed.

(** ** Well-formed rulesets *)
Record well_formed (rs : LoadedRuleset) : Prop := {
  wf_matrix : map rule_side_effect (rules rs) = ALL_EFFECTS;
  wf_tools : NoDup (map tool_name (tool_rules rs));
  wf_tool_names : Forall (λ r, _TOOL_NAME (tool_name r) = true ∧
                               (String.length (tool_name r) ≤ 96)%nat) (tool_rules rs);
  wf_hardline : NoDup (map rule_id (hardline rs));
  wf_near_miss : Forall (λ r, blank (near_miss r) = false) (hardline rs);
  wf_expiry : map fst (approval_expiry_seconds rs) = ALL_RISKS;
  wf_positive : Forall (λ e, 0 < e.2) (approval_expiry_seconds rs);
  wf_unknown : unknown_tool_decision rs = DENY;
  wf_name : profile_name rs ≠ "";
}.

Lemma matrix_row_effect d e r : matrix_row d e = Ok r → rule_side_effect r = e.
Proof.
  unfold matrix_row. destruct (dict_get _ d) as [[| | | | | |row]|]; try done.
  intros (_ & _ & H)%result_bind_ok. destruct (dict_get "decision" row); [|done].
  apply result_bind_ok in H as (? & _ & H). apply result_bind_ok in H as (? & _ & H).
  apply result_bind_ok in H as (? & _ & [= <-]). done.
Qed.

Lemma tool_rule_row_name d n r :
  tool_rule_row d n = Ok r →
  tool_name r = n ∧ _TOOL_NAME n = true ∧ (String.length n ≤ 96)%nat.
Proof.
  unfold tool_rule_row. destruct (_TOOL_NAME n); [cbn [negb]|done].
  destruct (dict_get n d) as [[| | | | | |row]|]; try done.
  intros (_ & _ & H)%result_bind_ok. destruct (dict_get "decision" row); [|done].
  destruct (default _ _); try done.
  apply result_bind_ok in H as (? & _ & H). apply result_bind_ok in H as (? & _ & H).
  apply result_bind_ok in H as (? & _ & H).
  destruct (_ <=? 96)%nat eqn:E; [|done]. injection H as <-. apply Nat.leb_le in E. done.
Qed.

Lemma Forall2_map_eq {A B C} (f : A → B → Prop) (g : B → C) (h : A → C) l k :
  Forall2 f l k → (∀ a b, f a b → g b = h a) → map g k = map h l.
Proof. induction 1 as [|a b l k Hab Hl IH]; intros H; [done|]. simpl. by rewrite (H a b), IH. Qed.

Lemma tool_rules_wf v rs :
  _tool_rules v = Ok rs →
  NoDup (map tool_name rs) ∧
  Forall (λ r, _TOOL_NAME (tool_name r) = true ∧ (String.length (tool_name r) ≤ 96)%nat) rs.
Proof.
  destruct v as [[| | | | | |d]|]; simpl; try done; try (intros [= <-]; split; constructor).
  intros H%mapR_ok. split.
  - rewrite (Forall2_map_eq _ tool_name (λ n, n) _ _ H) by (by intros a b (? & _)%tool_rule_row_name).
    rewrite (List.map_id (sorted _)). unfold sorted. rewrite merge_sort_Permutation.
    apply NoDup_remove_dups.
  - apply Forall_forall. intros r Hr. apply list_elem_of_lookup in Hr as [i Hi].
    destruct (Forall2_lookup_r _ _ _ _ _ H Hi) as (n & _ & Hn).
    apply tool_rule_row_name in Hn as (-> & ?). done.
Qed.

(** Split [x ← m; k = Ok r] into the value each step gave. *)
Ltac peel H := repeat (let x := fresh "x" in let Hx := fresh "Hx" in
  apply result_bind_ok in H as (x & Hx & H)).

Lemma build_well_formed profile hd sha1 sha2 rs :
  _build_ruleset profile hd sha1 sha2 = Ok rs → well_formed rs.
Proof.
  unfold _build_ruleset. intros H. peel H. injection H as <-.
  repeat match goal with
  | H : require _ _ = Ok _ |- _ => apply require_ok in H
  | H : mapR (matrix_row _) _ = Ok _ |- _ => apply mapR_ok in H
  | H : mapR (expiry_value _) _ = Ok _ |- _ => apply mapR_ok in H
  | H : _tool_rules _ = Ok _ |- _ => apply tool_rules_wf in H as [? ?]
  | H : bool_decide _ = true |- _ => apply bool_decide_eq_true in H
  end.
  constructor; cbn [rules tool_rules hardline approval_expiry_seconds unknown_tool_decision
    profile_name]; try done.
  - match goal with H : Forall2 (λ a b, matrix_row _ a = _) _ _ |- _ =>
      rewrite (Forall2_map_eq _ rule_side_effect (λ e, e) _ _ H)
        by (intros ? ?; apply matrix_row_effect) end.
    apply List.map_id.
  - match goal with H : forallb (λ r, negb (blank _)) _ = true |- _ =>
      rewrite forallb_forall in H end.
    apply Forall_forall. intros r Hr%list_elem_of_In.
    match goal with H : ∀ x, List.In x _ → negb _ = true |- _ =>
      by apply H, negb_true_iff in Hr end.
  - match goal with H : Forall2 (λ a b, expiry_value _ a = _) _ _ |- _ =>
      rewrite (Forall2_map_eq _ fst (λ e, e) _ _ H) end; [apply List.map_id|].
    intros a b Hab. unfold expiry_value in Hab.
    destruct (dict_get _ _) as [j|] in Hab; [|done]. destruct j; try done. by injection Hab as <-.
  - match goal with H : forallb (λ rs, 0 <? rs.2) _ = true |- _ =>
      rewrite forallb_forall in H end.
    apply Forall_forall. intros r Hr%list_elem_of_In.
    match goal with H : ∀ x, List.In x _ → (0 <? _) = true |- _ =>
      by apply H, Z.ltb_lt in Hr end.
  - match goal with H : profile_name_of _ = Ok ?n |- _ => rename H into Hn end.
    unfold profile_name_of in Hn. destruct (dict_get "name" profile) as [[]|]; try done.
    apply result_bind_ok in Hn as (? & Hn & [= <-]). apply require_ok, negb_true_iff in Hn.
    by apply String.eqb_neq.
Qed.

(** In a well-formed ruleset every action has exactly one deciding rule. *)
Lemma filter_NoDup_map {A B} `{EqDecision B} (f : A → B) (l : list A) b :
  NoDup (map f l) →
  filter (λ a, f a = b) l = [] ∧ b ∉ map f l ∨
  ∃ a, filter (λ a, f a = b) l = [a] ∧ a ∈ l ∧ f a = b.
Proof.
  induction l as [|a l IH]; simpl; [left; by split; [|apply not_elem_of_nil]|].
  intros [Ha Hl]%NoDup_cons. rewrite filter_cons. case_decide as Hd.
  - right. exists a. split; [|split; [by left|done]]. f_equal.
    destruct (IH Hl) as [[-> _]|(a' & _ & Hin & Hf)]; [done|].
    destruct Ha. rewrite Hd, <- Hf. by apply list_elem_of_fmap_2.
  - destruct (IH Hl) as [[-> Hn]|(a' & -> & Hin & Hf)].
    + left. split; [done|]. by apply not_elem_of_cons.
    + right. exists a'. split; [done|]. split; [by right|done].
Qed.

Lemma ALL_EFFECTS_all e : e ∈ ALL_EFFECTS.
Proof. destruct e; apply list_elem_of_In; simpl; tauto. Qed.
Lemma ALL_EFFECTS_NoDup : NoDup ALL_EFFECTS.
Proof. apply (bool_decide_unpack _). by vm_compute. Qed.

Lemma matrix_total rs action :
  well_formed rs → ∃ r, filter (λ r, rule_side_effect r = side_effect action) (rules rs) = [r].
Proof.
  intros Hwf. destruct (filter_NoDup_map rule_side_effect (rules rs) (side_effect action))
    as [[_ Hn]|(r & Hr & _)].
  - rewrite (wf_matrix _ Hwf). apply ALL_EFFECTS_NoDup.
  - destruct Hn. rewrite (wf_matrix _ Hwf). apply ALL_EFFECTS_all.
  - by exists r.
Qed.

(** ** The publication ruleset of the job layer *)
Definition job_default : ToolPolicyRule :=
  {| tool_name := "job.manage"; tool_decision := ALLOW; tool_condition := None;
     tool_otherwise := None; human_confirms_arguments := false |}.
Definition cockpit_default : ToolPolicyRule :=
  {| tool_name := "cockpit.install"; tool_decision := REQUIRE_APPROVAL; tool_condition := None;
     tool_otherwise := None; human_confirms_arguments := false |}.

(** The base's tool rules, and a default for each job tool the base does not name. *)
Definition with_job_defaults (rs : LoadedRuleset) (r : ToolPolicyRule) : Prop :=
  r ∈ tool_rules rs ∨
  (r = job_default ∧ "job.manage" ∉ map tool_name (tool_rules rs)) ∨
  (r = cockpit_default ∧ "cockpit.install" ∉ map tool_name (tool_rules rs)).

Lemma setdefault_keys key v d :
  map fst (setdefault key v d) =
  match dict_get key d with Some _ => map fst d | None => (map fst d ++ [key])%list end.
Proof. unfold setdefault. destruct (dict_get key d); [done|]. by rewrite map_app. Qed.

Lemma setdefault_NoDup key v d : NoDup (map fst d) → NoDup (map fst (setdefault key v d)).
Proof.
  intros Hd. rewrite setdefault_keys. destruct (dict_get key d) eqn:E; [done|].
  apply dict_get_None in E. apply NoDup_app. split; [done|]. split; [set_solver|apply NoDup_singleton].
Qed.

Lemma setdefault_elem key v d x :
  x ∈ setdefault key v d ↔ x ∈ d ∨ (x = (key, v) ∧ key ∉ map fst d).
Proof.
  unfold setdefault. destruct (dict_get key d) eqn:E.
  - split; [by left|]. intros [?|[_ Hn]]; [done|]. apply dict_get_None in Hn. congruence.
  - apply dict_get_None in E. rewrite elem_of_app, list_elem_of_singleton. naive_solver.
Qed.

Lemma map_fst_dump l : map fst (map (λ r, (tool_name r, dump_tool_rule r)) l) = map tool_name l.
Proof. by rewrite List.map_map. Qed.

(** Each entry of the merged mapping reads back as its rule. *)
Lemma job_tool_entries rs key v :
  (key, v) ∈ job_tool_rules rs →
  Forall (λ r, _TOOL_NAME (tool_name r) = true ∧ (String.length (tool_name r) ≤ 96)%nat) (tool_rules rs) →
  ∃ r, with_job_defaults rs r ∧ tool_name r = key ∧
    ∀ d, dict_get key d = Some v → tool_rule_row d key = Ok r.
Proof.
  unfold job_tool_rules. rewrite !setdefault_elem. intros Hin Hall.
  destruct Hin as [[Hin|[[= -> ->] Hn]]|[[= -> ->] Hn]].
  - apply list_elem_of_fmap in Hin as (r & [= -> ->] & Hr).
    exists r. split; [by left|]. split; [done|]. intros d Hd.
    rewrite Forall_forall in Hall. destruct (Hall r Hr) as [Hv Hl]. by apply tool_rule_row_dump.
  - rewrite map_fst_dump in Hn. exists job_default. split; [by right; left|]. split; [done|].
    intros d Hd. unfold tool_rule_row. by rewrite Hd.
  - exists cockpit_default. split; [|split; [done|]].
    + right; right. split; [done|]. intros Hc. apply Hn. rewrite setdefault_keys.
      destruct (dict_get _ _); rewrite map_fst_dump; set_solver.
    + intros d Hd. unfold tool_rule_row. by rewrite Hd.
Qed.

Lemma job_tool_keys rs r :
  with_job_defaults rs r → tool_name r ∈ map fst (job_tool_rules rs).
Proof.
  intros Hr. unfold job_tool_rules. apply list_elem_of_fmap.
  assert (∃ v, (tool_name r, v) ∈ setdefault "cockpit.install" (JObj [("decision", JStr "require_approval")])
      (setdefault "job.manage" (JObj [("decision", JStr "allow")])
         (map (λ r0, (tool_name r0, dump_tool_rule r0)) (tool_rules rs)))) as [v Hv].
  { setoid_rewrite setdefault_elem. setoid_rewrite setdefault_elem.
    destruct Hr as [Hr|[[-> Hn]|[-> Hn]]].
    - exists (dump_tool_rule r). left; left. apply list_elem_of_fmap. by exists r.
    - eexists. left; right. split; [done|]. by rewrite map_fst_dump.
    - eexists. right. split; [done|]. rewrite setdefault_keys.
      destruct (dict_get _ _); rewrite map_fst_dump; set_solver. }
  by exists (tool_name r, v).
Qed.

Lemma with_job_defaults_unique rs r1 r2 :
  NoDup (map tool_name (tool_rules rs)) → with_job_defaults rs r1 → with_job_defaults rs r2 →
  tool_name r1 = tool_name r2 → r1 = r2.
Proof.
  intros Hnd H1 H2 He.
  assert (∀ r, r ∈ tool_rules rs → tool_name r ∈ map tool_name (tool_rules rs)) as Hin
    by (intros; by apply list_elem_of_fmap_2).
  destruct H1 as [H1|[[-> H1]|[-> H1]]], H2 as [H2|[[-> H2]|[-> H2]]]; cbn in He; try done;
    try (exfalso; apply H1; rewrite He; by apply Hin);
    try (exfalso; apply H2; rewrite <- He; by apply Hin).
  apply list_elem_of_lookup in H1 as [i Hi], H2 as [j Hj].
  assert (i = j) as ->; [|congruence].
  eapply (NoDup_lookup _ i j (tool_name r1) Hnd).
  - change (map tool_name) with (fmap (M:=list) tool_name). by rewrite list_lookup_fmap, Hi.
  - change (map tool_name) with (fmap (M:=list) tool_name). by rewrite list_lookup_fmap, Hj, He.
Qed.

(** Reading the merged mapping succeeds and gives exactly those rules. *)
Lemma job_tool_rules_read rs :
  well_formed rs →
  ∃ out, _tool_rules (Some (JObj (job_tool_rules rs))) = Ok out ∧
         ∀ r, r ∈ out ↔ with_job_defaults rs r.
Proof.
  intros Hwf. set (d := job_tool_rules rs).
  assert (Hnd : NoDup (map fst d)).
  { apply setdefault_NoDup, setdefault_NoDup. rewrite map_fst_dump. apply wf_tools, Hwf. }
  assert (Hrow : ∀ key, key ∈ map fst d →
    ∃ r, with_job_defaults rs r ∧ tool_name r = key ∧ tool_rule_row d key = Ok r).
  { intros key ([k v] & -> & Hin)%list_elem_of_fmap. cbn [fst].
    destruct (job_tool_entries rs k v Hin (wf_tool_names _ Hwf)) as (r & Hr & Hn & Hd).
    exists r. split; [done|]. split; [done|]. apply Hd, dict_get_NoDup; done. }
  assert (∀ keys, Forall (λ k, k ∈ map fst d) keys →
    ∃ out, mapR (tool_rule_row d) keys = Ok out ∧
      Forall2 (λ k r, with_job_defaults rs r ∧ tool_name r = k) keys out) as Hmap.
  { induction keys as [|k keys IH]; intros Hk; [by exists []; split; [|constructor]|].
    apply Forall_cons in Hk as [Hk Hks]. destruct (Hrow k Hk) as (r & Hr & Hn & Hd).
    destruct (IH Hks) as (out & Ho & Hf). exists (r :: out).
    cbn. rewrite Hd. cbn. rewrite Ho. split; [done|]. by constructor. }
  destruct (Hmap (sorted (dict_keys d))) as (out & Ho & Hf).
  { apply Forall_forall. intros k. unfold sorted. rewrite merge_sort_Permutation.
    by rewrite dict_keys_elem. }
  exists out. split; [exact Ho|]. intros r. split.
  - intros [i Hi]%list_elem_of_lookup. by destruct (Forall2_lookup_r _ _ _ _ _ Hf Hi) as (k & _ & Hr & _).
  - intros Hr. assert (tool_name r ∈ sorted (dict_keys d)) as Hk.
    { unfold sorted. rewrite merge_sort_Permutation, dict_keys_elem. by apply job_tool_keys. }
    apply list_elem_of_lookup in Hk as [i Hi].
    destruct (Forall2_lookup_l _ _ _ _ _ Hf Hi) as (r' & Hr' & Hd & Hn).
    rewrite (with_job_defaults_unique rs r r' (wf_tools _ Hwf) Hr Hd (eq_sym Hn)).
    by apply list_elem_of_lookup_2 in Hr'.
Qed.

Lemma has_keys_of {A} (f : A → string) (g : A → json) l keys :
  map f l = keys → NoDup keys → has_keys (map (λ a, (f a, g a)) l) keys = true.
Proof.
  intros Hf Hnd. unfold has_keys.
  assert (∀ k, k ∈ dict_keys (map (λ a, (f a, g a)) l) ↔ k ∈ keys) as Hk.
  { intros k. assert (map fst (map (λ a, (f a, g a)) l) = keys) as He
      by (rewrite List.map_map; exact Hf). by rewrite dict_keys_elem, He. }
  apply andb_true_iff. split; apply forallb_forall; intros k Hin%list_elem_of_In;
    by apply bool_decide_eq_true, Hk.
Qed.

(** Looking up an entry of a mapping built from a list, when its keys are distinct. *)
Lemma dict_get_map {A} (f : A → string) (g : A → json) l a keys :
  map f l = keys → NoDup keys → a ∈ l → dict_get (f a) (map (λ a, (f a, g a)) l) = Some (g a).
Proof.
  intros Hf Hnd Ha. apply dict_get_NoDup.
  - rewrite List.map_map. cbn [fst]. change (NoDup (map f l)). by rewrite Hf.
  - exact (list_elem_of_fmap_2 (λ a, (f a, g a)) l a Ha).
Qed.

Lemma effect_values_NoDup : NoDup (map SideEffectClass_value ALL_EFFECTS).
Proof. apply (bool_decide_unpack _). by vm_compute. Qed.
Lemma risk_values_NoDup : NoDup (map RiskLevel_value ALL_RISKS).
Proof. apply (bool_decide_unpack _). by vm_compute. Qed.
Lemma effect_keys rs :
  well_formed rs →
  map (λ r, SideEffectClass_value (rule_side_effect r)) (rules rs) = map SideEffectClass_value ALL_EFFECTS.
Proof. intros Hwf. by rewrite <- (wf_matrix _ Hwf), List.map_map. Qed.
Lemma risk_keys rs :
  well_formed rs →
  map (λ e, RiskLevel_value e.1) (approval_expiry_seconds rs) = map RiskLevel_value ALL_RISKS.
Proof. intros Hwf. by rewrite <- (wf_expiry _ Hwf), List.map_map. Qed.

Lemma matrix_read rs :
  well_formed rs →
  mapR (matrix_row (map (λ r, (SideEffectClass_value (rule_side_effect r), dump_rule r)) (rules rs)))
    ALL_EFFECTS = Ok (rules rs).
Proof.
  intros Hwf. rewrite <- (wf_matrix _ Hwf). apply mapR_id, Forall_forall. intros r Hr.
  apply matrix_row_dump.
  exact (dict_get_map _ dump_rule _ r _ (effect_keys rs Hwf) effect_values_NoDup Hr).
Qed.

Lemma expiry_read rs :
  well_formed rs →
  mapR (expiry_value (map (λ e, (RiskLevel_value e.1, JInt e.2)) (approval_expiry_seconds rs))) ALL_RISKS
  = Ok (approval_expiry_seconds rs).
Proof.
  intros Hwf. rewrite <- (wf_expiry _ Hwf). apply mapR_id, Forall_forall. intros e Hr.
  unfold expiry_value.
  rewrite (dict_get_map (λ e, RiskLevel_value e.1) (λ e, JInt e.2) _ e _ (risk_keys rs Hwf)
             risk_values_NoDup Hr). by destruct e.
Qed.

Lemma near_miss_check rs :
  well_formed rs → forallb (λ r, negb (blank (near_miss r))) (hardline rs) = true.
Proof.
  intros Hwf. apply forallb_forall. intros r Hr%list_elem_of_In. apply negb_true_iff.
  pose proof (wf_near_miss _ Hwf) as Hall. rewrite Forall_forall in Hall. by apply Hall.
Qed.
Lemma positive_check rs :
  well_formed rs → forallb (λ e, 0 <? e.2) (approval_expiry_seconds rs) = true.
Proof.
  intros Hwf. apply forallb_forall. intros r Hr%list_elem_of_In. apply Z.ltb_lt.
  pose proof (wf_positive _ Hwf) as Hall. rewrite Forall_forall in Hall. by apply Hall.
Qed.
Lemma job_name_nonempty s : String.eqb (s +:+ "-jobs") "" = false.
Proof. by destruct s. Qed.

Lemma job_ruleset_exists sha rs :
  well_formed rs →
  ∃ pub, job_publication_ruleset sha rs = Ok pub ∧
    rules pub = rules rs ∧ hardline pub = hardline rs ∧
    (∀ r, r ∈ tool_rules pub ↔ with_job_defaults rs r) ∧
    default_effect pub = default_effect rs ∧
    unknown_tool_decision pub = unknown_tool_decision rs ∧
    external_untrusted_requires_approval pub = external_untrusted_requires_approval rs ∧
    self_approval_enabled pub = self_approval_enabled rs ∧
    advisory_enabled pub = advisory_enabled rs ∧
    approval_expiry_seconds pub = approval_expiry_seconds rs.
Proof.
  intros Hwf. destruct (job_tool_rules_read rs Hwf) as (out & Ho & Hout).
  unfold job_publication_ruleset, load_ruleset_documents. set (sha1 := sha _). set (sha2 := sha _).
  unfold _build_ruleset.
  change (_require_exact_keys (job_profile rs) _ _) with (Ok tt).
  change (_require_exact_keys _ _HARDLINE_KEYS _) with (Ok tt).
  change (dict_get "tool_rules" (job_profile rs)) with (Some (JObj (job_tool_rules rs))).
  rewrite Ho.
  cbn -[has_keys mapR ALL_EFFECTS ALL_RISKS String.substring expiry_value matrix_row
    HardlineRule_validate to_decision dump_rule dump_hardline blank job_name_nonempty].
  rewrite (has_keys_of (λ r, SideEffectClass_value (rule_side_effect r)) dump_rule).
  2:{ by apply effect_keys. }
  2:{ apply effect_values_NoDup. }
  cbn -[has_keys mapR ALL_EFFECTS ALL_RISKS String.substring expiry_value matrix_row
    HardlineRule_validate to_decision dump_rule dump_hardline blank].
  rewrite (matrix_read rs Hwf).
  rewrite (mapR_id dump_hardline HardlineRule_validate (hardline rs))
    by (apply Forall_true; apply HardlineRule_validate_dump).
  cbn [mbind result_bind].
  rewrite (bool_decide_eq_true_2 (NoDup _)) by apply Hwf. cbn [require mbind result_bind].
  rewrite near_miss_check by done. cbn [require mbind result_bind].
  rewrite (has_keys_of (λ e, RiskLevel_value e.1) (λ e, JInt e.2)) by
    (apply risk_values_NoDup || by apply risk_keys).
  cbn [require mbind result_bind]. rewrite (expiry_read rs Hwf). cbn [mbind result_bind].
  rewrite positive_check, (wf_unknown _ Hwf), job_name_nonempty by done.
  cbn -[to_decision String.substring String.append]. rewrite to_decision_value.
  cbn -[String.substring String.append]. eexists. split; [reflexivity|].
  by repeat split; try apply Hout.
Qed.

Section loaded.
Context (re_search : bool → string → string → bool)
        (url_hostname : string → option (option string))
        {network : Type} (ip_network : string → option network)
        (address_in : string → network → option bool)
        (BrowserCondition_validates : json → bool).
Notation evaluate := (evaluate_deterministic re_search url_hostname ip_network address_in
  BrowserCondition_validates).
Notation first := (first_hardline re_search url_hostname ip_network address_in).
Notation cleared := (cleared re_search url_hostname ip_network address_in BrowserCondition_validates).
Notation deterministic rs := (λ action principal run, evaluate action principal run rs).

(** C34: The loader admits only total rulesets: one rule per side-effect class in
    order, one rule per tool, unique hardline ids, a positive expiry for every
    risk, a non-empty name and an unknown-tool decision that denies. Under such a
    ruleset the unclassifiable branch is unreachable: an action no hardline rule
    denies is decided by its tool's rule or by the one rule of its class. *)
Theorem loaded_ruleset_total profile hd sha1 sha2 rs :
  _build_ruleset profile hd sha1 sha2 = Ok rs →
  well_formed rs ∧
  ∀ action principal run,
    first (hardline rs) action = Ok None →
    (action_kind action = SKILL_AUTHORING → origin_trust action = USER) →
    ∃ tool d0 c0 o0, deciding_rule rs action tool d0 c0 o0 ∧
      evaluate action principal run rs =
      Ok (classified BrowserCondition_validates action rs tool d0 c0 o0).
Proof.
  intros Hwf%build_well_formed. split; [done|]. intros action principal run Hf Hs.
  unfold evaluate_deterministic. rewrite Hf.
  replace (bool_decide (action_kind action = SKILL_AUTHORING) &&
           bool_decide (origin_trust action ≠ USER)) with false.
  2:{ symmetry. apply andb_false_iff. destruct (decide (action_kind action = SKILL_AUTHORING)).
      - right. apply bool_decide_eq_false. intros Hn. by apply Hn, Hs.
      - left. by apply bool_decide_eq_false. }
  destruct (matrix_total rs action Hwf) as [m Hm].
  destruct (filter_NoDup_map tool_name (tool_rules rs) (name action)) as [[Ht _]|(r & Ht & _)].
  - apply wf_tools, Hwf.
  - exists None. do 3 eexists. rewrite Ht, Hm. split; [|done]. split; [done|]. by exists m.
  - exists (Some r). do 3 eexists. rewrite Ht, Hm. split; [|done]. by split.
Qed.

(** C39: Publishing a job changes only the job's own tools. From a loaded
    ruleset the publication ruleset always loads, with every matrix row, hardline
    rule, default, overlay, switch and expiry unchanged; its tool rules are the
    base's own, plus a default for [job.manage] or [cockpit.install] exactly when
    the base has no rule of that name. *)
Theorem job_ruleset_preserves sha profile hd sha1 sha2 rs :
  _build_ruleset profile hd sha1 sha2 = Ok rs →
  ∃ pub, job_publication_ruleset sha rs = Ok pub ∧
    rules pub = rules rs ∧ hardline pub = hardline rs ∧
    (∀ r, r ∈ tool_rules pub ↔ with_job_defaults rs r) ∧
    default_effect pub = default_effect rs ∧
    unknown_tool_decision pub = unknown_tool_decision rs ∧
    external_untrusted_requires_approval pub = external_untrusted_requires_approval rs ∧
    self_approval_enabled pub = self_approval_enabled rs ∧
    advisory_enabled pub = advisory_enabled rs ∧
    approval_expiry_seconds pub = approval_expiry_seconds rs.
Proof. intros Hwf%build_well_formed. by apply job_ruleset_exists. Qed.

(** C33: The composed engine, as the process builds it (the advisory layer over
    the job layer over the engines of a loaded ruleset and of its publication
    ruleset), runs nothing without approval that the loaded ruleset's guards
    refuse: whatever the advisor answers, such an action has cleared every
    hardline rule, meets no approval floor, is no untrusted skill authoring, and
    takes its authority from untrusted content only as the permitted scroll. *)
Theorem composed_engine_guarded sha profile hd sha1 sha2 base publication advise enforce
    action principal run d :
  _build_ruleset profile hd sha1 sha2 = Ok base →
  job_publication_ruleset sha base = Ok publication →
  AdvisedPolicyEngine.engine
    (JobPolicyEngine.evaluate (deterministic base) (deterministic publication)) advise enforce
    action principal run = Ok d →
  unapproved d → cleared base action.
Proof.
  intros Hwf%build_well_formed Hpub He Hd.
  destruct (job_ruleset_exists sha base Hwf)
    as (pub & Hp & _ & Hhard & _ & _ & Hunk & Hext & _).
  assert (publication = pub) as -> by congruence.
  assert (Guarded (deterministic base) (cleared base)) as Hb.
  { apply deterministic_guarded, Hwf. }
  assert (Guarded (deterministic pub) (cleared base)) as Hpb.
  { intros a p r d' Ha Hu.
    assert (unknown_tool_decision pub = DENY) as Hdeny by (rewrite Hunk; apply Hwf).
    pose proof (deterministic_guarded re_search url_hostname ip_network address_in
      BrowserCondition_validates pub Hdeny a p r d' Ha Hu) as Hc.
    unfold Policy.cleared in *. by rewrite Hhard, Hext in Hc. }
  pose proof (advised_guarded _ advise enforce _
    (job_guarded (deterministic base) (deterministic pub) _ Hb Hpb)) as HG.
  by eapply HG.
Qed.
End loaded.

(** ** Witnesses *)
Definition decide_only (d : string) : json := JObj [("decision", JStr d)].
Definition conditional (c d o : string) : json :=
  JObj [("condition", JStr c); ("decision", JStr d); ("otherwise", JStr o)].
(** [policy/default.yaml] *)
Definition default_profile : dict :=
  [("schema_version", JInt 1); ("name", JStr "default"); ("default_effect", JStr "deny");
   ("rules", JObj [
     ("none", decide_only "allow");
     ("workspace_read", conditional "path_inside_workspace" "allow" "deny");
     ("workspace_write", conditional "path_inside_workspace" "allow" "deny");
     ("network_read", conditional "host_on_allowlist" "allow" "deny");
     ("code_execution", conditional "target_isolated" "allow" "deny");
     ("package_install", decide_only "deny"); ("sandbox_network", decide_only "deny");
     ("external_message", decide_only "require_approval");
     ("external_write", decide_only "require_approval");
     ("external_delete", decide_only "require_approval");
     ("financial", decide_only "require_approval"); ("publication", decide_only "require_approval");
     ("credential_access", decide_only "deny"); ("host_access", decide_only "deny");
     ("privileged", decide_only "deny")]);
   ("tool_rules", JObj [
     ("browser.act", conditional "bounded_browser_scroll" "allow" "require_approval");
     ("device.sms.send", JObj [("decision", JStr "allow"); ("human_confirms_arguments", JBool true)])]);
   ("unknown_tool", decide_only "deny");
   ("trust_overlay", JObj [("external_untrusted_requires_approval", JBool true)]);
   ("approval_expiry_seconds", JObj [("low", JInt 86400); ("medium", JInt 86400);
                                     ("high", JInt 14400); ("critical", JInt 3600)]);
   ("self_approval", JObj [("enabled", JBool true)]); ("advisory", JObj [("enabled", JBool false)])].
Definition default_hardline : dict :=
  [("schema_version", JInt 1); ("rules", JArr (map dump_hardline (hardline default_ruleset)))].

Lemma default_loads : _build_ruleset default_profile default_hardline "0" "0" = Ok default_ruleset.
Proof. vm_compute. reflexivity. Qed.

Notation sample_first := (first_hardline (λ _ _ _, false) (λ s, Some (Some s))
  (λ c : string, Some c) (λ _ _, None)).

Lemma loaded_ruleset_total_witness :
  well_formed default_ruleset ∧
  ∃ tool d0 c0 o0, deciding_rule default_ruleset (write_action "notes/a.txt") tool d0 c0 o0 ∧
    sample_evaluate (write_action "notes/a.txt") owner sample_run1 default_ruleset =
    Ok (classified (λ _, true) (write_action "notes/a.txt") default_ruleset tool d0 c0 o0).
Proof.
  destruct (loaded_ruleset_total (λ _ _ _, false) (λ s, Some (Some s)) (λ c : string, Some c)
    (λ _ _, None) (λ _, true) default_profile default_hardline "0" "0" default_ruleset default_loads)
    as [Hwf H].
  split; [exact Hwf|]. apply H; [reflexivity|discriminate].
Defined.

Lemma job_ruleset_preserves_witness :
  ∃ pub, job_publication_ruleset (λ _, "1") default_ruleset = Ok pub ∧
    rules pub = rules default_ruleset ∧ length (tool_rules pub) = 4%nat.
Proof.
  destruct (job_ruleset_preserves (λ _, "1") default_profile default_hardline "0" "0"
    default_ruleset default_loads) as (pub & Hp & Hr & _).
  exists pub. split; [exact Hp|]. split; [exact Hr|]. vm_compute in Hp. injection Hp as <-. reflexivity.
Defined.

Definition abstaining : ProposedAction → Advice :=
  λ _, Advised {| verdict := ABSTAIN; signals := []; advisor_version := "v1" |}.
Definition note_allowed : PolicyDecision :=
  mk_decision ALLOW "policy.matrix.workspace_write"
    "The default profile evaluated workspace_write." "default@0+h0" false.

Lemma composed_engine_guarded_witness :
  match job_publication_ruleset (λ _, "1") default_ruleset with
  | Ok pub =>
      AdvisedPolicyEngine.engine
        (JobPolicyEngine.evaluate (λ a p r, sample_evaluate a p r default_ruleset)
           (λ a p r, sample_evaluate a p r pub)) abstaining true
        (write_action "notes/a.txt") owner sample_run1 = Ok note_allowed ∧
      cleared (λ _ _ _, false) (λ s, Some (Some s)) (λ c : string, Some c) (λ _ _, None) (λ _, true)
        default_ruleset (write_action "notes/a.txt")
  | Raise _ => False
  end.
Proof.
  destruct (job_publication_ruleset (λ _, "1") default_ruleset) as [pub|e] eqn:Hp;
    [|vm_compute in Hp; discriminate].
  assert (Hd : AdvisedPolicyEngine.engine
        (JobPolicyEngine.evaluate (λ a p r, sample_evaluate a p r default_ruleset)
           (λ a p r, sample_evaluate a p r pub)) abstaining true
        (write_action "notes/a.txt") owner sample_run1 = Ok note_allowed) by reflexivity.
  split; [exact Hd|].
  apply (composed_engine_guarded (λ _ _ _, false) (λ s, Some (Some s)) (λ c : string, Some c)
    (λ _ _, None) (λ _, true) (λ _, "1") default_profile default_hardline "0" "0" default_ruleset pub
    abstaining true (write_action "notes/a.txt") owner sample_run1 note_allowed default_loads Hp Hd).
  by vm_compute.
Defined.
