(* ===== verification/Approvals.v ===== *)
(** * Approvals ([domain/approvals.py], [InMemoryApprovalRepository], [policy/revalidation.py])

    A request waits for one resolution; resolving, expiring and cancelling are the
    three ways it ends. Grant offers are kept as the documents they are stored as. *)
From S2P Require Import Prelude RunModel Sessions PolicyModel.

Inductive ApprovalStatus := PENDING | APPROVED | DENIED | EXPIRED | APPROVAL_CANCELLED.
#[export] Instance ApprovalStatus_eq_dec : EqDecision ApprovalStatus.
Proof. solve_decision. Defined.

Inductive ApprovalResolutionType :=
| APPROVE_ONCE | APPROVE_FOR_TASK | APPROVE_FOR_REQUEST | RESOLVE_DENY.
#[export] Instance ApprovalResolutionType_eq_dec : EqDecision ApprovalResolutionType.
Proof. solve_decision. Defined.

Definition APPROVING_RESOLUTIONS : list ApprovalResolutionType :=
  [APPROVE_ONCE; APPROVE_FOR_TASK; APPROVE_FOR_REQUEST].

Definition approval_status_for (resolution : ApprovalResolutionType) : ApprovalStatus :=
  if bool_decide (resolution ∈ APPROVING_RESOLUTIONS) then APPROVED else DENIED.

Inductive ApprovalResolutionState :=
| APPLIED | ALREADY_RESOLVED_IDENTICALLY | ALREADY_RESOLVED_DIFFERENTLY.
#[export] Instance ApprovalResolutionState_eq_dec : EqDecision ApprovalResolutionState.
Proof. solve_decision. Defined.

Record ApprovalRequest := {
  id : UUID;
  tenant_id : string;
  principal_id : string;
  session_id : UUID;
  run_id : UUID;
  approval_action_kind : ActionKind;
  action_id : UUID;
  tool_invocation_id : option UUID;
  status : ApprovalStatus;
  action_summary : string;
  approval_tool_name : option string;
  approval_arguments : dict;
  argument_digests : list (string * string);
  arguments_hash : string;
  approval_scopes : gset string;
  agent_version : string;
  approval_risk : RiskLevel;
  policy_reason : string;
  policy_reason_text : option string;
  policy_decision : PolicyDecision;
  approval_policy_version : string;
  revalidated_policy_version : option string;
  resolution : option ApprovalResolutionType;
  resolution_reason : option string;
  expires_at : option datetime;
  created_at : datetime;
  resolved_at : option datetime;
  resolved_by : option string;
  task_grant_offer : option json;
  task_grant_not_covered : option json;
  task_grant_id : option UUID;
  request_grant_offer : option json;
  research_not_covered : option string;
}.
#[global] Instance request_eta : Eta ApprovalRequest := λ r,
  {| id := id r; tenant_id := tenant_id r; principal_id := principal_id r;
     session_id := session_id r; run_id := run_id r;
     approval_action_kind := approval_action_kind r; action_id := action_id r;
     tool_invocation_id := tool_invocation_id r; status := status r;
     action_summary := action_summary r; approval_tool_name := approval_tool_name r;
     approval_arguments := approval_arguments r; argument_digests := argument_digests r;
     arguments_hash := arguments_hash r; approval_scopes := approval_scopes r;
     agent_version := agent_version r; approval_risk := approval_risk r;
     policy_reason := policy_reason r; policy_reason_text := policy_reason_text r;
     policy_decision := policy_decision r; approval_policy_version := approval_policy_version r;
     revalidated_policy_version := revalidated_policy_version r; resolution := resolution r;
     resolution_reason := resolution_reason r; expires_at := expires_at r;
     created_at := created_at r; resolved_at := resolved_at r; resolved_by := resolved_by r;
     task_grant_offer := task_grant_offer r; task_grant_not_covered := task_grant_not_covered r;
     task_grant_id := task_grant_id r; request_grant_offer := request_grant_offer r;
     research_not_covered := research_not_covered r |}.

Record ApprovalCursor := { cursor_created_at : datetime; cursor_id : UUID }.

(** [revalidation_denial_reason] *)
Definition revalidation_denial_reason (approval : ApprovalRequest) (hash : string)
    (principal_scopes : gset string) (version policy : string) (decision : PolicyDecisionType)
    : option string :=
  if negb (String.eqb hash (arguments_hash approval)) ||
     negb (bool_decide (approval_scopes approval ⊆ principal_scopes)) ||
     negb (String.eqb version (agent_version approval))
  then Some "policy.revalidation.changed"
  else if bool_decide (decision = DENY) then Some "policy.revalidation.escalated"
  else if negb (String.eqb (approval_policy_version approval) policy) &&
          bool_decide (decision ≠ ALLOW)
  then Some "policy.revalidation.escalated"
  else if bool_decide (decision = ALLOW_WITH_MODIFICATIONS)
  then Some "policy.revalidation.escalated"
  else None.

Module ApprovalRepo.
Record t := { _approvals : gmap UUID ApprovalRequest; _actions : gmap UUID UUID }.
#[global] Instance t_eta : Eta t := λ s, {| _approvals := _approvals s; _actions := _actions s |}.
Definition init : t := {| _approvals := ∅; _actions := ∅ |}.

Definition create (request : ApprovalRequest) (s : t) : result ApprovalRequest * t :=
  if bool_decide (is_Some (_approvals s !! id request)) ||
     bool_decide (is_Some (_actions s !! action_id request))
  then (Raise (ConflictError "approval already exists for action"), s)
  else (Ok request, {| _approvals := <[id request := request]> (_approvals s);
                       _actions := <[action_id request := id request]> (_actions s) |}).

Definition discard_pending (approval_id : UUID) (s : t) : result unit * t :=
  match _approvals s !! approval_id with
  | None => (Ok tt, s)
  | Some request =>
      if bool_decide (status request ≠ PENDING)
      then (Raise (ConflictError "only a pending approval can be discarded"), s)
      else (Ok tt, {| _approvals := delete approval_id (_approvals s);
                      _actions := delete (action_id request) (_actions s) |})
  end.

Definition _visible (request : ApprovalRequest) (principal : Principal) : bool :=
  bool_decide (tenant_id request = Principal.tenant_id principal).

Definition get (approval_id : UUID) (principal : Principal) (s : t) : result ApprovalRequest :=
  match _approvals s !! approval_id with
  | Some request => if _visible request principal then Ok request
                    else Raise (NotFoundError "approval not found")
  | None => Raise (NotFoundError "approval not found")
  end.

(** [self._approvals[approval_id]] of an indexed id: a missing one is a [KeyError]. *)
Definition get_by_action (action : UUID) (s : t) : result (option ApprovalRequest) :=
  match _actions s !! action with
  | None => Ok None
  | Some approval_id =>
      match _approvals s !! approval_id with
      | Some request => Ok (Some request)
      | None => Raise (KeyError "approval")
      end
  end.

Definition record_revalidation (action : UUID) (policy : string) (s : t)
    : result ApprovalRequest * t :=
  match _actions s !! action with
  | None => (Raise (NotFoundError "approval not found"), s)
  | Some approval_id =>
      match _approvals s !! approval_id with
      | None => (Raise (KeyError "approval"), s)
      | Some request =>
          let updated := request <| revalidated_policy_version := Some policy |> in
          (Ok updated, s <| _approvals := <[approval_id := updated]> (_approvals s) |>)
      end
  end.

Definition approval_key (r : ApprovalRequest) : Z * N := (created_at r, id r).

Definition pending_row (principal : Principal) (in_run in_session : option UUID)
    (r : ApprovalRequest) : Prop :=
  status r = PENDING ∧ _visible r principal = true ∧
  (in_run = None ∨ in_run = Some (run_id r)) ∧
  (in_session = None ∨ in_session = Some (session_id r)).
#[global] Instance pending_row_dec p i j r : Decision (pending_row p i j r).
Proof. unfold pending_row. apply _. Defined.
Definition before (cursor : option ApprovalCursor) (r : ApprovalRequest) : bool :=
  match cursor with
  | None => true
  | Some c => key_ltb (approval_key r) (cursor_created_at c, cursor_id c)
  end.
Definition list_pending (principal : Principal) (in_run in_session : option UUID) (limit : nat)
    (cursor : option ApprovalCursor) (s : t) : list ApprovalRequest :=
  take limit (sort_desc approval_key
    (filter (λ r, before cursor r = true)
       (filter (pending_row principal in_run in_session) (table_rows (_approvals s))))).

Definition resolve (approval_id : UUID) (principal : Principal) (how : ApprovalResolutionType)
    (reason : option string) (grant : option UUID) (now : datetime) (s : t)
    : result (ApprovalResolutionState * ApprovalRequest) * t :=
  match _approvals s !! approval_id with
  | None => (Raise (NotFoundError "approval not found"), s)
  | Some request =>
      if negb (_visible request principal) then (Raise (NotFoundError "approval not found"), s)
      else if bool_decide (status request ≠ PENDING) then
        (Ok (if bool_decide (resolution request = Some how)
             then ALREADY_RESOLVED_IDENTICALLY else ALREADY_RESOLVED_DIFFERENTLY, request), s)
      else
        let updated :=
          request <| status := approval_status_for how |> <| resolution := Some how |>
                  <| resolution_reason := reason |> <| task_grant_id := grant |>
                  <| resolved_at := Some now |>
                  <| resolved_by := Some (Principal.principal_id principal) |> in
        (Ok (APPLIED, updated), s <| _approvals := <[approval_id := updated]> (_approvals s) |>)
  end.

Definition due (now : datetime) (tenant : string) (r : ApprovalRequest) : Prop :=
  status r = PENDING ∧ tenant_id r = tenant ∧
  match expires_at r with Some e => e ≤ now | None => False end.
#[global] Instance due_dec now tenant r : Decision (due now tenant r).
Proof. unfold due. destruct (expires_at r); apply _. Defined.
Definition due_key (r : ApprovalRequest) : Z * N := (default (created_at r) (expires_at r), id r).
Definition expired (now : datetime) (r : ApprovalRequest) : ApprovalRequest :=
  r <| status := EXPIRED |> <| resolved_at := Some now |>.

Definition expire_due (now : datetime) (limit : nat) (tenant : string) (s : t)
    : list ApprovalRequest * t :=
  let rows := take limit (sort_asc due_key (filter (due now tenant) (table_rows (_approvals s)))) in
  (map (expired now) rows,
   s <| _approvals :=
     foldl (λ m r, <[id r := expired now r]> m) (_approvals s) rows |>).

(** Every pending approval of the run; [clock] is the reading taken at each. *)
Definition cancelled (now : datetime) (r : ApprovalRequest) : ApprovalRequest :=
  r <| status := APPROVAL_CANCELLED |> <| resolved_at := Some now |>.
Definition cancels (run : UUID) (r : ApprovalRequest) : Prop := run_id r = run ∧ status r = PENDING.
#[global] Instance cancels_dec run r : Decision (cancels run r).
Proof. unfold cancels. apply _. Defined.
Definition cancel_for_run (run : UUID) (clock : UUID → datetime) (s : t) : nat * t :=
  (length (filter (cancels run) (table_rows (_approvals s))),
   s <| _approvals := (λ r, if decide (cancels run r) then cancelled (clock (id r)) r else r) <$> _approvals s |>).

(** ** Histories of repository calls *)
Inductive op :=
| Create (request : ApprovalRequest)
| Discard (approval_id : UUID)
| Revalidate (action : UUID) (policy : string)
| Resolve (approval_id : UUID) (p : Principal) (how : ApprovalResolutionType)
    (reason : option string) (grant : option UUID) (now : datetime)
| Expire (now : datetime) (limit : nat) (tenant : string)
| CancelRun (run : UUID) (clock : UUID → datetime).

Definition step (s : t) (o : op) : t :=
  match o with
  | Create request => (create request s).2
  | Discard i => (discard_pending i s).2
  | Revalidate action policy => (record_revalidation action policy s).2
  | Resolve i p how reason grant now => (resolve i p how reason grant now s).2
  | Expire now limit tenant => (expire_due now limit tenant s).2
  | CancelRun run clock => (cancel_for_run run clock s).2
  end.
Definition steps (os : list op) (s : t) : t := foldl step s os.

Record inv (s : t) : Prop := {
  inv_id : ∀ i r, _approvals s !! i = Some r → id r = i;
  inv_indexed : ∀ i r, _approvals s !! i = Some r → _actions s !! action_id r = Some i;
  inv_action : ∀ a i, _actions s !! a = Some i → ∃ r, _approvals s !! i = Some r ∧ action_id r = a;
}.

(** How one stored request may change. *)
Definition resolved_form (p : Principal) (how : ApprovalResolutionType) (reason : option string)
    (grant : option UUID) (now : datetime) (r : ApprovalRequest) : ApprovalRequest :=
  r <| status := approval_status_for how |> <| resolution := Some how |>
    <| resolution_reason := reason |> <| task_grant_id := grant |>
    <| resolved_at := Some now |> <| resolved_by := Some (Principal.principal_id p) |>.

Inductive moves (o : op) (r : ApprovalRequest) : ApprovalRequest → Prop :=
| moves_not : moves o r r
| moves_revalidated v : moves o r (r <| revalidated_policy_version := Some v |>)
| moves_resolved p how reason grant now :
    o = Resolve (id r) p how reason grant now → status r = PENDING → _visible r p = true →
    moves o r (resolved_form p how reason grant now r)
| moves_expired now : status r = PENDING → moves o r (expired now r)
| moves_cancelled now : status r = PENDING → moves o r (cancelled now r).

Lemma foldl_expired_other now rows (m : gmap UUID ApprovalRequest) i :
  (∀ r, r ∈ rows → id r ≠ i) → foldl (λ m r, <[id r := expired now r]> m) m rows !! i = m !! i.
Proof.
  revert m. induction rows as [|r rows IH]; intros m Hi; [done|]. simpl.
  rewrite IH by set_solver. rewrite lookup_insert_ne; [done|]. apply Hi. set_solver.
Qed.

Lemma foldl_expired_in now rows (m : gmap UUID ApprovalRequest) r :
  (∀ x y, x ∈ rows → y ∈ rows → id x = id y → x = y) → r ∈ rows →
  foldl (λ m r, <[id r := expired now r]> m) m rows !! id r = Some (expired now r).
Proof.
  revert m. induction rows as [|x rows IH]; intros m Hinj; [by intros ?%not_elem_of_nil|].
  intros Hr. simpl. destruct (decide (id r ∈ map id rows)) as [Hin|Hout].
  - apply list_elem_of_fmap in Hin as (y & He & Hy).
    assert (r = y) as -> by (apply Hinj; [done|by right|done]). apply IH; [set_solver|done].
  - apply elem_of_cons in Hr as [->|Hr]; [|by destruct Hout; apply list_elem_of_fmap_2].
    rewrite foldl_expired_other; [by rewrite lookup_insert_eq|].
    intros y Hy He. destruct Hout. rewrite <- He. by apply list_elem_of_fmap_2.
Qed.

Lemma due_rows_elem now limit tenant s r :
  inv s → r ∈ take limit (sort_asc due_key (filter (due now tenant) (table_rows (_approvals s)))) →
  _approvals s !! id r = Some r ∧ due now tenant r.
Proof.
  intros Hinv Hr. apply (subseteq_take limit) in Hr. rewrite (sort_asc_perm due_key) in Hr.
  apply list_elem_of_filter in Hr as [Hd Hr]. by rewrite (elem_of_table id) in Hr by apply Hinv.
Qed.

Lemma step_row (s : t) (o : op) (i : UUID) r :
  inv s → _approvals s !! i = Some r →
  (∃ r', _approvals (step s o) !! i = Some r' ∧ moves o r r') ∨
  (_approvals (step s o) !! i = None ∧ status r = PENDING ∧ o = Discard i).
Proof.
  intros Hinv Hr. pose proof (inv_id _ Hinv _ _ Hr) as Hid. destruct o; simpl.
  - left. exists r. split; [|constructor]. unfold create.
    destruct (bool_decide _ || _) eqn:E; [done|]. apply orb_false_iff in E as [E _].
    apply bool_decide_eq_false in E. simpl. rewrite lookup_insert_ne; [done|].
    intros <-. apply E. by rewrite Hr.
  - unfold discard_pending. destruct (_approvals s !! approval_id) as [q|] eqn:Hq.
    2:{ left. exists r. split; [done|constructor]. }
    case_bool_decide as Hp; [left; exists r; split; [done|constructor]|].
    simpl. destruct (decide (approval_id = i)) as [->|Hne].
    + right. rewrite lookup_delete_eq. split; [done|]. split; [congruence|done].
    + left. exists r. rewrite lookup_delete_ne by done. split; [done|constructor].
  - left. unfold record_revalidation. destruct (_actions s !! action) as [j|] eqn:Hj.
    2:{ exists r. split; [done|constructor]. }
    destruct (_approvals s !! j) as [q|] eqn:Hq; [|exists r; split; [done|constructor]].
    simpl. destruct (decide (j = i)) as [->|Hne].
    + rewrite lookup_insert_eq. eexists. split; [done|]. replace q with r by congruence. constructor.
    + rewrite lookup_insert_ne by done. exists r. split; [done|constructor].
  - left. unfold resolve. destruct (_approvals s !! approval_id) as [q|] eqn:Hq.
    2:{ exists r. split; [done|constructor]. }
    destruct (_visible q p) eqn:Hv; simpl; [|exists r; split; [done|constructor]].
    case_bool_decide as Hp; simpl; [exists r; split; [done|constructor]|].
    destruct (decide (approval_id = i)) as [->|Hne].
    + rewrite lookup_insert_eq. eexists. split; [done|].
      assert (q = r) as -> by congruence. apply moves_resolved; [by subst|done|done].
    + rewrite lookup_insert_ne by done. exists r. split; [done|constructor].
  - left. set (rows := take limit _).
    destruct (decide (i ∈ map id rows)) as [Hin|Hout].
    + apply list_elem_of_fmap in Hin as (y & He & Hin).
      assert (y = r) as ->.
      { apply due_rows_elem in Hin as [Hy _]; [|done]. rewrite <- He in Hy. congruence. }
      exists (expired now r). destruct (due_rows_elem _ _ _ _ _ Hinv Hin) as [_ (Hp & _)].
      split; [|by constructor]. rewrite <- Hid. apply foldl_expired_in; [|done].
      intros x y Hx%due_rows_elem Hy%due_rows_elem Hxy; [|done..].
      rewrite Hxy in Hx. destruct Hx, Hy. congruence.
    + exists r. split; [|constructor]. rewrite foldl_expired_other; [done|].
      intros x Hx He. destruct Hout. rewrite <- He. by apply list_elem_of_fmap_2.
  - left. rewrite lookup_fmap, Hr. simpl. eexists. split; [done|].
    case_decide as Hc; [|constructor]. destruct Hc. by constructor.
Qed.

Lemma moves_same o r r' :
  moves o r r' →
  id r' = id r ∧ action_id r' = action_id r ∧ tenant_id r' = tenant_id r ∧
  run_id r' = run_id r ∧ arguments_hash r' = arguments_hash r ∧
  expires_at r' = expires_at r ∧ created_at r' = created_at r.
Proof. by destruct 1. Qed.

Lemma moves_settled o r r' :
  moves o r r' → status r ≠ PENDING →
  r' = r ∨ ∃ v, r' = r <| revalidated_policy_version := Some v |>.
Proof. destruct 1; intros Hp; [by left|right; by eexists|done..]. Qed.

Lemma approval_step_new (s : t) (o : op) (i : UUID) :
  inv s → _approvals s !! i = None →
  _approvals (step s o) !! i = None ∨
  ∃ r, o = Create r ∧ id r = i ∧ _approvals (step s o) !! i = Some r.
Proof.
  intros Hinv Hi. destruct o; simpl.
  - unfold create. destruct (bool_decide _ || _); [by left|]. simpl.
    destruct (decide (id request = i)) as [<-|Hne].
    + right. exists request. by rewrite lookup_insert_eq.
    + left. by rewrite lookup_insert_ne.
  - left. unfold discard_pending. destruct (_approvals s !! approval_id) eqn:E; [|done].
    case_bool_decide; [done|]. simpl. destruct (decide (approval_id = i)) as [->|].
    + by rewrite lookup_delete_eq.
    + by rewrite lookup_delete_ne.
  - left. unfold record_revalidation. destruct (_actions s !! action) as [j|]; [|done].
    destruct (_approvals s !! j) eqn:E; [|done]. simpl. rewrite lookup_insert_ne; [done|congruence].
  - left. unfold resolve. destruct (_approvals s !! approval_id) eqn:E; [|done].
    destruct (negb _); [done|]. case_bool_decide; [done|]. simpl.
    rewrite lookup_insert_ne; [done|congruence].
  - left. rewrite foldl_expired_other; [done|].
    intros r [Hr _]%due_rows_elem He; [|done]. congruence.
  - left. by rewrite lookup_fmap, Hi.
Qed.

Lemma inv_update s m :
  inv s →
  (∀ i r, _approvals s !! i = Some r → ∃ r', m !! i = Some r' ∧ id r' = id r ∧ action_id r' = action_id r) →
  (∀ i, _approvals s !! i = None → m !! i = None) →
  inv (s <| _approvals := m |>).
Proof.
  intros Hinv Hsome Hnone.
  assert (Hback : ∀ i r', m !! i = Some r' →
    ∃ r, _approvals s !! i = Some r ∧ id r' = id r ∧ action_id r' = action_id r).
  { intros i r' Hr'. destruct (_approvals s !! i) as [r|] eqn:E.
    - exists r. destruct (Hsome i r E) as (r'' & H & ? & ?). split; [done|]. split; congruence.
    - rewrite (Hnone i E) in Hr'. done. }
  constructor; simpl.
  - intros i r' (r & Hr & -> & _)%Hback. by apply Hinv.
  - intros i r' (r & Hr & _ & ->)%Hback. by apply Hinv.
  - intros a i (r & Hr & Ha)%Hinv. destruct (Hsome i r Hr) as (r' & Hr' & _ & He).
    exists r'. split; [done|congruence].
Qed.

(** The calls that neither add nor remove a request keep the index. *)
Lemma step_inv_in_place (s : t) (o : op) m :
  inv s → _approvals (step s o) = m → step s o = s <| _approvals := m |> →
  (∀ i, o ≠ Discard i) → (∀ r, o ≠ Create r) → inv (step s o).
Proof.
  intros Hinv <- -> Hnd Hnc. apply inv_update; [done|..].
  - intros i r Hr. destruct (step_row s o i r Hinv Hr) as [(r' & Hr' & Hm)|(_ & _ & Ho)].
    + exists r'. apply moves_same in Hm as (? & ? & _). done.
    + by destruct (Hnd i).
  - intros i Hi. destruct (approval_step_new s o i Hinv Hi) as [?|(r & Ho & _)]; [done|]. by destruct (Hnc r).
Qed.

Lemma approval_step_inv (s : t) (o : op) : inv s → inv (step s o).
Proof.
  intros Hinv. destruct o.
  - simpl. unfold create. destruct (bool_decide _ || _) eqn:E; [done|].
    apply orb_false_iff in E as [E1%bool_decide_eq_false E2%bool_decide_eq_false].
    apply eq_None_not_Some in E1, E2. constructor; simpl.
    + intros i r [[<- <-]|[_ ?]]%lookup_insert_Some; [done|by apply Hinv].
    + intros i r [[<- <-]|[Hi Hr]]%lookup_insert_Some; [by rewrite lookup_insert_eq|].
      rewrite lookup_insert_ne; [by apply Hinv|]. intros He.
      apply (inv_indexed _ Hinv) in Hr. congruence.
    + intros a i [[<- <-]|[Ha Hi]]%lookup_insert_Some.
      * exists request. by rewrite lookup_insert_eq.
      * apply (inv_action _ Hinv) in Hi as (r & Hr & Hra). exists r. rewrite lookup_insert_ne; [done|congruence].
  - simpl. unfold discard_pending. destruct (_approvals s !! approval_id) as [q|] eqn:Hq; [|done].
    case_bool_decide; [done|]. pose proof (inv_indexed _ Hinv _ _ Hq) as Hqa. constructor; simpl.
    + intros i r [_ Hr]%lookup_delete_Some. by apply Hinv.
    + intros i r [Hi Hr]%lookup_delete_Some. apply (inv_indexed _ Hinv) in Hr.
      rewrite lookup_delete_ne; [done|]. intros He. rewrite He in Hqa. congruence.
    + intros a i [Ha Hi]%lookup_delete_Some. apply (inv_action _ Hinv) in Hi as (r & Hr & Hra).
      exists r. rewrite lookup_delete_ne; [done|]. intros ->. congruence.
  - eapply step_inv_in_place; [done..| |done|done]. simpl. unfold record_revalidation.
    destruct (_actions s !! action) as [j|]; [|by destruct s].
    by destruct (_approvals s !! j); destruct s.
  - eapply step_inv_in_place; [done..| |done|done]. simpl. unfold resolve.
    destruct (_approvals s !! approval_id); [|by destruct s].
    destruct (negb _); [by destruct s|]. case_bool_decide; by destruct s.
  - by eapply step_inv_in_place.
  - by eapply step_inv_in_place.
Qed.

Lemma approval_init_inv : inv init.
Proof. by split. Qed.
Lemma approval_steps_inv os s : inv s → inv (steps os s).
Proof. revert s. induction os as [|o os IH]; intros s Hs; [done|]. by apply IH, approval_step_inv. Qed.

(** What one settled request may still become. *)
Definition settled_as (r r' : ApprovalRequest) : Prop :=
  r' = r ∨ ∃ v, r' = r <| revalidated_policy_version := Some v |>.
Lemma settled_status r r' : settled_as r r' → status r' = status r.
Proof. by intros [->|[v ->]]. Qed.
Lemma settled_trans r1 r2 r3 : settled_as r1 r2 → settled_as r2 r3 → settled_as r1 r3.
Proof. intros [->|[v ->]] [->|[w ->]]; [by left|right; by eexists..]. Qed.

Lemma steps_settled os s i r :
  inv s → _approvals s !! i = Some r → status r ≠ PENDING →
  ∃ r', _approvals (steps os s) !! i = Some r' ∧ settled_as r r'.
Proof.
  revert s r. induction os as [|o os IH]; intros s r Hs Hr Hp; [exists r; by split; [|left]|].
  destruct (step_row s o i r Hs Hr) as [(r1 & Hr1 & Hm)|(_ & ? & _)]; [|done].
  pose proof (moves_settled _ _ _ Hm Hp) as Hset.
  destruct (IH (step s o) r1) as (r2 & Hr2 & Hset2); [by apply approval_step_inv|done| |].
  - by rewrite (settled_status _ _ Hset).
  - exists r2. split; [done|]. by eapply settled_trans.
Qed.

(** The resolutions of one approval that were applied during a history. *)
Definition applies (i : UUID) (s : t) (o : op) : bool :=
  match o with
  | Resolve j p how reason grant now =>
      bool_decide (j = i) &&
      match (resolve j p how reason grant now s).1 with
      | Ok (st, _) => bool_decide (st = APPLIED)
      | Raise _ => false
      end
  | _ => false
  end.
Fixpoint applications (i : UUID) (os : list op) (s : t) : nat :=
  match os with
  | [] => 0
  | o :: os' => (if applies i s o then 1 else 0) + applications i os' (step s o)
  end.

Lemma applies_pending i s o :
  applies i s o = true →
  ∃ r, _approvals s !! i = Some r ∧ status r = PENDING ∧
       ∃ r', _approvals (step s o) !! i = Some r' ∧ status r' ≠ PENDING.
Proof.
  destruct o; simpl; try done. intros [->%bool_decide_eq_true Ha]%andb_true_iff.
  unfold resolve in *. destruct (_approvals s !! i) as [r|] eqn:Hr; [|done]. exists r. split; [done|].
  destruct (negb _); [done|]. case_bool_decide as Hp; simpl in *.
  - exfalso. destruct (bool_decide (resolution r = _)) in Ha; by apply bool_decide_eq_true in Ha.
  - split; [done|]. eexists. rewrite lookup_insert_eq. split; [done|]. simpl.
    unfold approval_status_for. by destruct how.
Qed.

Lemma applications_settled i os s r :
  inv s → _approvals s !! i = Some r → status r ≠ PENDING → applications i os s = 0%nat.
Proof.
  revert s r. induction os as [|o os IH]; intros s r Hs Hr Hp; [done|]. simpl.
  destruct (applies i s o) eqn:Ha.
  - apply applies_pending in Ha as (r' & Hr' & Hp' & _). congruence.
  - destruct (step_row s o i r Hs Hr) as [(r1 & Hr1 & Hm)|(_ & ? & _)]; [|done].
    eapply (IH _ r1); [by apply approval_step_inv|done|].
    by rewrite (settled_status r r1 (moves_settled _ _ _ Hm Hp)).
Qed.

(** Where a decision came from. *)
Definition decided_by (os : list op) (r : ApprovalRequest) : Prop :=
  status r ∈ [APPROVED; DENIED] →
  ∃ p how reason grant now, Resolve (id r) p how reason grant now ∈ os ∧
    Principal.tenant_id p = tenant_id r ∧ resolution r = Some how ∧
    status r = approval_status_for how ∧ resolved_by r = Some (Principal.principal_id p).

Lemma decided_more os o r : decided_by os r → decided_by (os ++ [o]) r.
Proof.
  intros Hd Hst. destruct (Hd Hst) as (p & how & reason & grant & now & Hin & H).
  exists p, how, reason, grant, now. split; [|done]. apply elem_of_app. by left.
Qed.

Lemma decided_moves os o r r' : moves o r r' → decided_by os r → decided_by (os ++ [o]) r'.
Proof.
  intros Hm Hd. destruct Hm as [|v|p how reason grant now Ho Hp Hv|now Hp|now Hp].
  - by apply decided_more.
  - exact (decided_more os o r Hd).
  - intros _. exists p, how, reason, grant, now.
    split; [apply elem_of_app; right; rewrite Ho; set_solver|].
    apply bool_decide_eq_true in Hv. by repeat split.
  - intros Hst. cbn in Hst. set_solver.
  - intros Hst. cbn in Hst. set_solver.
Qed.
End ApprovalRepo.

(** ** Properties *)
Import ApprovalRepo.

(** C36: An approval is settled once. Over any history of repository calls, in any
    order, at most one resolution of an approval is applied; once it is approved,
    denied, expired or cancelled it stays stored, its outcome, resolver and every
    other field unchanged (only the policy version of a later revalidation is
    recorded), and no later resolution applies. *)
Theorem approval_settled_once os s i :
  inv s →
  (applications i os s ≤ 1)%nat ∧
  ∀ r, _approvals s !! i = Some r → status r ≠ PENDING →
    applications i os s = 0%nat ∧
    ∃ r', _approvals (steps os s) !! i = Some r' ∧ settled_as r r'.
Proof.
  intros Hs. split.
  - revert s Hs. induction os as [|o os IH]; intros s Hs; simpl; [lia|].
    destruct (applies i s o) eqn:Ha; [|by apply IH, approval_step_inv].
    apply applies_pending in Ha as (_ & _ & _ & r' & Hr' & Hp).
    rewrite (applications_settled i os _ r'); [lia|by apply approval_step_inv|done|done].
  - intros r Hr Hp. split; [by eapply applications_settled|by apply steps_settled].
Qed.

(** Only a principal of its own tenant decides an approval. In any history
    from the empty repository in which requests are created pending, an approved
    (or denied) request was resolved by such a call: the principal is of the
    request's tenant and recorded as resolver, and the status is the one the
    recorded resolution stands for. Expiry and cancellation never approve. *)
Theorem decision_has_resolver os i r :
  Forall (λ o, match o with Create request => status request = PENDING | _ => True end) os →
  _approvals (steps os init) !! i = Some r → status r ∈ [APPROVED; DENIED] →
  ∃ p how reason grant now, Resolve i p how reason grant now ∈ os ∧
    Principal.tenant_id p = tenant_id r ∧ resolution r = Some how ∧
    status r = approval_status_for how ∧ resolved_by r = Some (Principal.principal_id p).
Proof.
  intros Hall Hr. pose proof (inv_id _ (approval_steps_inv os init approval_init_inv) _ _ Hr) as <-.
  revert Hall r Hr. induction os as [|o os IH] using rev_ind; intros Hall r; [done|].
  apply Forall_app in Hall as [Hall Ho]. apply Forall_cons in Ho as [Ho _].
  unfold steps. rewrite foldl_app. simpl. fold (steps os init). intros Hr.
  pose proof (approval_steps_inv os init approval_init_inv) as Hinv.
  destruct (_approvals (steps os init) !! id r) as [q|] eqn:Hq.
  - destruct (step_row _ o _ _ Hinv Hq) as [(q' & Hq' & Hm)|(Hn & _)]; [|congruence].
    assert (q' = r) as -> by congruence. apply (decided_moves os o q r Hm).
    pose proof (moves_same _ _ _ Hm) as [He _].
    intros Hst. apply (IH Hall q); [by rewrite <- He|done].
  - destruct (approval_step_new _ o _ Hinv Hq) as [Hn|(q & -> & Hid & Hq')]; [congruence|].
    assert (q = r) as -> by congruence. rewrite Ho. intros Hst. set_solver.
Qed.

(** What revalidation demands. An approved action is dispatched only when
    nothing it was approved for has changed and the policy still allows it: the
    arguments' hash and the agent version are the approved ones, the principal
    still holds every required scope, and the current decision is [allow], or an
    approval requirement under the very policy version the owner saw. *)
Theorem revalidation_passes_iff approval hash scopes version policy decision :
  revalidation_denial_reason approval hash scopes version policy decision = None ↔
  hash = arguments_hash approval ∧ approval_scopes approval ⊆ scopes ∧
  version = agent_version approval ∧
  (decision = ALLOW ∨ decision = REQUIRE_APPROVAL ∧ policy = approval_policy_version approval).
Proof.
  unfold revalidation_denial_reason.
  destruct (String.eqb_spec hash (arguments_hash approval)) as [->|]; cbn [negb orb]; [|naive_solver].
  case_bool_decide; cbn [negb orb]; [|naive_solver].
  destruct (String.eqb_spec version (agent_version approval)) as [->|]; cbn [negb orb]; [|naive_solver].
  destruct (String.eqb_spec (approval_policy_version approval) policy) as [->|];
    generalize dependent (approval_scopes approval ⊆ scopes); intros P HP;
    destruct decision; vm_compute; naive_solver.
Qed.

(** ** Witnesses *)
Definition sample_request (i action : UUID) : ApprovalRequest :=
  {| id := i; tenant_id := "t1"; principal_id := "u1"; session_id := 2; run_id := 3;
     approval_action_kind := TOOL_CALL_ACTION; action_id := action; tool_invocation_id := None;
     status := PENDING; action_summary := "send"; approval_tool_name := None;
     approval_arguments := []; argument_digests := []; arguments_hash := "h"; approval_scopes := ∅;
     agent_version := "v1"; approval_risk := HIGH; policy_reason := "policy.matrix.external_write";
     policy_reason_text := None;
     policy_decision := {| decision := REQUIRE_APPROVAL; reason_code := "r"; explanation := "e";
                           modified_arguments := None; policy_version := "p";
                           untrusted_escalation := false |};
     approval_policy_version := "p"; revalidated_policy_version := None; resolution := None;
     resolution_reason := None; expires_at := Some 100; created_at := 10; resolved_at := None;
     resolved_by := None; task_grant_offer := None; task_grant_not_covered := None;
     task_grant_id := None; request_grant_offer := None; research_not_covered := None |}.
Definition resolver : Principal :=
  {| Principal.tenant_id := "t1"; Principal.principal_id := "u2"; Principal.roles := ∅;
     Principal.scopes := ∅ |}.
Definition sample_history : list op :=
  [Create (sample_request 1 11); Create (sample_request 2 12);
   Resolve 1 resolver APPROVE_ONCE None None 20; Resolve 1 resolver RESOLVE_DENY None None 21;
   Expire 150 10 "t1"; Resolve 2 resolver APPROVE_ONCE None None 151].

Lemma approval_settled_once_witness :
  applications 1 sample_history init = 1%nat ∧ (applications 2 sample_history init ≤ 1)%nat.
Proof.
  split; [vm_compute; reflexivity|]. exact (proj1 (approval_settled_once sample_history init 2 approval_init_inv)).
Defined.

Lemma decision_has_resolver_witness :
  ∃ r, _approvals (steps sample_history init) !! 1%N = Some r ∧
    ∃ p how reason grant now, Resolve 1 p how reason grant now ∈ sample_history ∧
      Principal.tenant_id p = tenant_id r ∧ resolution r = Some how ∧
      status r = approval_status_for how ∧ resolved_by r = Some (Principal.principal_id p).
Proof.
  eexists. split; [vm_compute; reflexivity|].
  apply (decision_has_resolver sample_history 1); [by repeat constructor|vm_compute; reflexivity|].
  simpl. set_solver.
Defined.
