(* ===== verification/Messages.v ===== *)
(** * Conversation items and tool outcomes ([domain/messages.py], [domain/tools.py])

    The items a run's conversation is made of, with their trust labels, the tool
    outcome a result renders, and Python's equality on JSON values. *)
From S2P Require Import Prelude PolicyModel.

Inductive ContentPart :=
| TextPart (text : string)
| ImageReferencePart (artifact_id : UUID) (media_type detail : string) (filename : option string)
    (size_bytes page_count : option Z)
| FileReferencePart (artifact_id : UUID) (media_type : string) (filename : option string)
    (size_bytes page_count : option Z).

Record AssistantMessage := {
  am_content : list ContentPart;
  am_item_index : Z;
  am_trust : TrustLevel;
  am_source_event_sequence : option Z;
}.

Record ToolCallItem := {
  call_id : string;
  item_index : Z;
  tc_name : string;
  tc_arguments : dict;
  raw_arguments : string;
  parse_error : option string;
  tc_source_event_sequence : option Z;
}.

Record MemoryRecallUsage := {
  mru_trace_id : option UUID;
  mru_tokens : Z;
  mru_items : Z;
  content_sha256 : string;
  ranked_ids : option (list UUID);
}.

Record ToolResultItem := {
  tr_call_id : string;
  content : list ContentPart;
  context_content : option (list ContentPart);
  memory_recall : option MemoryRecallUsage;
  is_error : bool;
  tr_trust : TrustLevel;
  source_event_sequence : option Z;
}.

Record ProviderReasoningItem := {
  pr_item_index : Z;
  pr_provider : string;
  provider_payload : dict;
  token_count : option Z;
  pr_trust_level : TrustLevel;
  pr_source_event_sequence : option Z;
}.

Inductive ConversationItem :=
| SystemMessage (content : list ContentPart) (trust : TrustLevel) (sequence : option Z)
| UserMessage (content : list ContentPart) (trust : TrustLevel) (principal_id : option string)
    (sequence : option Z) (source : option string)
| AssistantItem (m : AssistantMessage)
| CallItem (c : ToolCallItem)
| ResultItem (r : ToolResultItem)
| ReasoningItem (r : ProviderReasoningItem).

Inductive ToolOutcomeStatus :=
| OUTCOME_SUCCEEDED | OUTCOME_FAILED | OUTCOME_DENIED | OUTCOME_UNAVAILABLE | OUTCOME_UNCERTAIN.
#[export] Instance ToolOutcomeStatus_eq_dec : EqDecision ToolOutcomeStatus.
Proof. solve_decision. Defined.

Inductive Remediation := REMEDIATION_NONE | MODIFY_ARGUMENTS | REQUEST_APPROVAL.

Record ToolOutcome := {
  outcome_status : ToolOutcomeStatus;
  outcome_action : string;
  outcome_reason_code : string;
  message : string;
  retryable : bool;
  remediation : Remediation;
}.

(** ** Python's [==] on JSON values

    Numbers (booleans included) compare by value, dictionaries without order. *)
Definition json_number (v : json) : option (Z * Z) :=
  match v with
  | JBool b => Some (Z.b2z b, 0)
  | JInt z => Some (z, 0)
  | JFloat m e => Some (m, e)
  | _ => None
  end.
Definition numbers_equal (a b : Z * Z) : bool :=
  let e := Z.min a.2 b.2 in a.1 * 2 ^ (a.2 - e) =? b.1 * 2 ^ (b.2 - e).

Fixpoint json_eqb (a b : json) : bool :=
  match a, b with
  | JNull, JNull => true
  | JStr s, JStr t => String.eqb s t
  | JArr l, JArr k =>
      (fix go (l k : list json) : bool :=
         match l, k with
         | [], [] => true
         | x :: l', y :: k' => json_eqb x y && go l' k'
         | _, _ => false
         end) l k
  | JObj o, JObj p =>
      (length o =? length p)%nat &&
      List.forallb (λ kv, match dict_get kv.1 p with Some v => json_eqb kv.2 v | None => false end) o
  | (JBool _ | JInt _ | JFloat _ _), (JBool _ | JInt _ | JFloat _ _) =>
      match json_number a, json_number b with
      | Some x, Some y => numbers_equal x y
      | _, _ => false
      end
  | _, _ => false
  end.
Definition dict_eqb (a b : dict) : bool := json_eqb (JObj a) (JObj b).
Definition option_eqb {A} (eqb : A → A → bool) (a b : option A) : bool :=
  match a, b with Some x, Some y => eqb x y | None, None => true | _, _ => false end.
