(* ===== verification/Attachments.v ===== *)
(** * Attachments ([model/attachments.py])

    Which referenced files a request sends inline, under per-file and per-request
    limits, and the token estimate that must stay above what is sent. *)
From S2P Require Import Prelude PolicyModel Messages.

Inductive AttachmentKind := IMAGE | PDF | TEXT | OTHER.
#[export] Instance AttachmentKind_eq_dec : EqDecision AttachmentKind.
Proof. solve_decision. Defined.
Inductive MarkerReason :=
| REFERENCE | UNSUPPORTED_TYPE | MODEL_CAPABILITY | TOO_LARGE | BUDGET | UNAVAILABLE | UNREADABLE.

Definition IMAGE_MEDIA_TYPES : list string := ["image/png"; "image/jpeg"; "image/gif"; "image/webp"].
Definition PDF_MEDIA_TYPE : string := "application/pdf".
Definition SVG_MEDIA_TYPE : string := "image/svg+xml".
Definition TEXT_APPLICATION_TYPES : list string :=
  ["application/json"; "application/xml"; "application/yaml"; "application/x-yaml";
   "application/toml"; "application/javascript"; "application/x-sh"; "application/sql"].
Definition IMAGE_INLINE_MAX_BYTES : Z := 5 * 1024 * 1024.
Definition PDF_INLINE_MAX_BYTES : Z := 20 * 1024 * 1024.
Definition PDF_INLINE_MAX_PAGES : Z := 60.
Definition TEXT_INLINE_MAX_BYTES : Z := 256 * 1024.
Definition REQUEST_INLINE_MAX_ITEMS : Z := 20.
Definition REQUEST_INLINE_MAX_BYTES : Z := 20 * 1024 * 1024.
Definition REQUEST_INLINE_MAX_TOKENS : Z := 160000.
Definition IMAGE_TOKENS : Z := 3000.
Definition PDF_TOKENS_PER_PAGE : Z := 2000.
Definition LABEL_TOKENS : Z := 64.
Definition TEXT_BYTES_PER_TOKEN : Z := 3.

(** [AttachmentPart]: a reference part, with the facts both kinds carry. *)
Record AttachmentPart := {
  part_is_image : bool;
  part_artifact_id : UUID;
  part_media_type : string;
  part_size_bytes : option Z;
  part_page_count : option Z;
}.
Definition as_attachment (p : ContentPart) : option AttachmentPart :=
  match p with
  | TextPart _ => None
  | ImageReferencePart a m _ _ s n =>
      Some {| part_is_image := true; part_artifact_id := a; part_media_type := m;
              part_size_bytes := s; part_page_count := n |}
  | FileReferencePart a m _ s n =>
      Some {| part_is_image := false; part_artifact_id := a; part_media_type := m;
              part_size_bytes := s; part_page_count := n |}
  end.
(** [Field(ge=0)] on the server-set facts. *)
Definition part_valid (p : AttachmentPart) : Prop :=
  (∀ s, part_size_bytes p = Some s → 0 ≤ s) ∧ (∀ n, part_page_count p = Some n → 0 ≤ n).

Definition is_text_media_type (m : string) : bool :=
  py_startswith "text/" m || bool_decide (m ∈ TEXT_APPLICATION_TYPES) || String.eqb m SVG_MEDIA_TYPE.
Definition media_kind (m : string) : AttachmentKind :=
  if bool_decide (m ∈ IMAGE_MEDIA_TYPES) then IMAGE
  else if String.eqb m PDF_MEDIA_TYPE then PDF
  else if is_text_media_type m then TEXT else OTHER.
Definition attachment_kind (p : AttachmentPart) : AttachmentKind :=
  let kind := media_kind (part_media_type p) in
  if part_is_image p && negb (bool_decide (kind = IMAGE)) then OTHER else kind.

Definition item_limit_reason (p : AttachmentPart) : option MarkerReason :=
  match part_size_bytes p with
  | None => Some REFERENCE
  | Some size =>
      match attachment_kind p with
      | OTHER => Some UNSUPPORTED_TYPE
      | IMAGE => if IMAGE_INLINE_MAX_BYTES <? size then Some TOO_LARGE else None
      | PDF =>
          match part_page_count p with
          | None => Some UNREADABLE
          | Some pages =>
              if (PDF_INLINE_MAX_PAGES <? pages) || (PDF_INLINE_MAX_BYTES <? size)
              then Some TOO_LARGE else None
          end
      | TEXT => None
      end
  end.
Definition read_limit (p : AttachmentPart) : Z :=
  let size := default 0 (part_size_bytes p) in
  match attachment_kind p with TEXT => Z.min size TEXT_INLINE_MAX_BYTES | _ => size end.
(** [math.ceil(n / 3)] of a nonnegative [n]. *)
Definition content_tokens (p : AttachmentPart) : Z :=
  match attachment_kind p with
  | IMAGE => IMAGE_TOKENS
  | PDF => match part_page_count p with
           | None | Some 0 => PDF_INLINE_MAX_PAGES
           | Some n => n
           end * PDF_TOKENS_PER_PAGE
  | TEXT => (read_limit p + (TEXT_BYTES_PER_TOKEN - 1)) / TEXT_BYTES_PER_TOKEN
  | OTHER => 0
  end.

Definition owner_message (x : ConversationItem) : bool :=
  match x with UserMessage _ USER _ _ _ => true | _ => false end.
Definition item_content (x : ConversationItem) : list ContentPart :=
  match x with
  | SystemMessage c _ _ | UserMessage c _ _ _ _ => c
  | AssistantItem m => am_content m
  | ResultItem r => content r
  | CallItem _ | ReasoningItem _ => []
  end.
Definition attachment_parts (x : ConversationItem) : list AttachmentPart :=
  omap as_attachment (item_content x).

Definition inspects (c : ToolCallItem) : bool :=
  String.eqb (tc_name c) "web.inspect_image" ||
  (String.eqb (tc_name c) "tool.call" &&
   match dict_get "name" (tc_arguments c) with
   | Some (JStr n) => String.eqb n "web.inspect_image"
   | _ => false
   end).
Definition _inspection_calls (l : list ConversationItem) : list string :=
  omap (λ x, match x with CallItem c => if inspects c then Some (call_id c) else None | _ => None end) l.

(** ** [estimate_attachment_tokens] *)
Definition zsum (l : list Z) : Z := foldr Z.add 0 l.
(** The content tokens one part of [x] counts for. *)
Definition counted (inspections : list string) (x : ConversationItem) (p : AttachmentPart) : Z :=
  let inspection :=
    match x with ResultItem r => bool_decide (tr_call_id r ∈ inspections) | _ => false end in
  if (owner_message x || (inspection && part_is_image p)) &&
     match item_limit_reason p with None => true | Some _ => false end
  then content_tokens p else 0.
Definition item_labels (x : ConversationItem) : Z :=
  LABEL_TOKENS * Z.of_nat (length (attachment_parts x)).
Definition item_counted (inspections : list string) (x : ConversationItem) : Z :=
  zsum (map (counted inspections x) (attachment_parts x)).
Definition estimate_attachment_tokens (items : list ConversationItem) : Z :=
  let labels := zsum (map item_labels items) in
  let content := zsum (map (item_counted (_inspection_calls items)) items) in
  labels + Z.min content REQUEST_INLINE_MAX_TOKENS.

(** ** [select_attachments] *)
Record AttachmentDecision := {
  decided_part : AttachmentPart;
  decided_reason : option MarkerReason;
  inspection_call : option string;
}.
Record selection := {
  sel_items : Z;
  sel_bytes : Z;
  sel_tokens : Z;
  decisions : list ((nat * nat) * AttachmentDecision);
}.
Definition nothing_selected : selection :=
  {| sel_items := 0; sel_bytes := 0; sel_tokens := 0; decisions := [] |}.

Definition eligible (inspections : list string) (x : ConversationItem) : option (option string) :=
  match x with
  | UserMessage _ USER _ _ _ => Some None
  | ResultItem r =>
      if negb (is_error r) && bool_decide (tr_call_id r ∈ inspections)
      then Some (Some (tr_call_id r)) else None
  | _ => None
  end.

(** One attachment of an eligible item; [call] is the inspection it answers. *)
Definition decide_part (key : nat * nat) (call : option string) (p : AttachmentPart) (s : selection)
    : selection :=
  if bool_decide (is_Some call) && negb (part_is_image p) then s
  else
    let '(reason, items, bytes, tokens) :=
      match item_limit_reason p with
      | Some r => (Some r, sel_items s, sel_bytes s, sel_tokens s)
      | None =>
          let cost := content_tokens p + LABEL_TOKENS in
          let size := read_limit p in
          if (REQUEST_INLINE_MAX_ITEMS <? sel_items s + 1) ||
             (REQUEST_INLINE_MAX_BYTES <? sel_bytes s + size) ||
             (REQUEST_INLINE_MAX_TOKENS <? sel_tokens s + cost)
          then (Some BUDGET, sel_items s, sel_bytes s, sel_tokens s)
          else (None, sel_items s + 1, sel_bytes s + size, sel_tokens s + cost)
      end in
    {| sel_items := items; sel_bytes := bytes; sel_tokens := tokens;
       decisions := decisions s ++
         [(key, {| decided_part := p; decided_reason := reason; inspection_call := call |})] |}.

Fixpoint decide_parts (item : nat) (call : option string) (part : nat) (parts : list ContentPart)
    (s : selection) : selection :=
  match parts with
  | [] => s
  | p :: parts =>
      decide_parts item call (S part) parts
        (match as_attachment p with Some p => decide_part (item, part) call p s | None => s end)
  end.
Definition select_item (inspections : list string) (x : nat * ConversationItem) (s : selection) : selection :=
  match eligible inspections x.2 with
  | Some call => decide_parts x.1 call 0 (item_content x.2) s
  | None => s
  end.
(** [range(len(conversation) - 1, -1, -1)] *)
Definition indexed (l : list ConversationItem) : list (nat * ConversationItem) :=
  imap (λ i x, (i, x)) l.
Definition select_attachments (conversation : list ConversationItem) : selection :=
  foldr (select_item (_inspection_calls conversation)) nothing_selected (indexed conversation).

(** ** What is sent *)
Definition sends (d : (nat * nat) * AttachmentDecision) : bool :=
  match decided_reason d.2 with None => true | Some _ => false end.
Definition sent (s : selection) : list AttachmentPart :=
  map (λ d, decided_part d.2) (List.filter sends (decisions s)).

Lemma zsum_cons x l : zsum (x :: l) = x + zsum l.
Proof. done. Qed.
Lemma zsum_app l k : zsum (l ++ k) = zsum l + zsum k.
Proof.
  induction l as [|x l IH]; [done|]. change ((x :: l) ++ k) with (x :: (l ++ k)).
  rewrite !zsum_cons. lia.
Qed.
Lemma zsum_nonneg l : Forall (λ x, 0 ≤ x) l → 0 ≤ zsum l.
Proof. induction 1 as [|x l]; [done|]. rewrite zsum_cons. lia. Qed.

Lemma content_tokens_nonneg p : part_valid p → 0 ≤ content_tokens p.
Proof.
  intros [Hs Hn]. unfold content_tokens, read_limit. destruct (attachment_kind p); [done| | |done].
  - destruct (part_page_count p) as [n|]; [specialize (Hn n eq_refl)|done].
    unfold PDF_TOKENS_PER_PAGE, PDF_INLINE_MAX_PAGES. destruct n; lia.
  - apply Z.div_pos; [|done]. unfold TEXT_BYTES_PER_TOKEN, TEXT_INLINE_MAX_BYTES.
    destruct (part_size_bytes p) as [s|]; [specialize (Hs s eq_refl)|]; cbn; lia.
Qed.
Lemma counted_nonneg insp x p : part_valid p → 0 ≤ counted insp x p.
Proof. intros Hp. unfold counted. destruct (_ && _); [by apply content_tokens_nonneg|done]. Qed.

(** The accumulators are the totals of what is sent, and stay within the request's limits. *)
Record within (s : selection) : Prop := {
  within_items : sel_items s = Z.of_nat (length (sent s)) ∧ sel_items s ≤ REQUEST_INLINE_MAX_ITEMS;
  within_bytes : sel_bytes s = zsum (map read_limit (sent s)) ∧
                 sel_bytes s ≤ REQUEST_INLINE_MAX_BYTES;
  within_tokens : sel_tokens s = zsum (map (λ p, content_tokens p + LABEL_TOKENS) (sent s)) ∧
                  sel_tokens s ≤ REQUEST_INLINE_MAX_TOKENS;
}.
Definition sent_content (s : selection) : Z := zsum (map content_tokens (sent s)).


Lemma decide_part_spec key call p s :
  within s →
  let s' := decide_part key call p s in
  within s' ∧ (length (sent s') ≤ S (length (sent s)))%nat ∧
  (sent s' = sent s ∨
   sent s' = sent s ++ [p] ∧ item_limit_reason p = None ∧
   (call = None ∨ part_is_image p = true)).
Proof.
  intros Hw. unfold decide_part. destruct (bool_decide (is_Some call) && negb (part_is_image p)) eqn:Hc.
  { split; [done|]. split; [lia|]. by left. }
  assert (Hcall : call = None ∨ part_is_image p = true).
  { apply andb_false_iff in Hc as [Hc%bool_decide_eq_false|Hc%negb_false_iff]; [left|by right].
    by apply eq_None_not_Some. }
  assert (Hkeep : ∀ r, let s' := {| sel_items := sel_items s; sel_bytes := sel_bytes s;
      sel_tokens := sel_tokens s; decisions := decisions s ++
        [(key, {| decided_part := p; decided_reason := Some r; inspection_call := call |})] |} in
      sent s' = sent s ∧ within s').
  { intros r. cbv zeta. assert (He : sent {| sel_items := sel_items s; sel_bytes := sel_bytes s;
      sel_tokens := sel_tokens s; decisions := decisions s ++
        [(key, {| decided_part := p; decided_reason := Some r; inspection_call := call |})] |} = sent s).
    { unfold sent. cbn [decisions]. rewrite List.filter_app. cbn. by rewrite app_nil_r. }
    split; [done|]. destruct Hw. split; rewrite He; done. }
  destruct (item_limit_reason p) as [r|] eqn:Hr.
  { destruct (Hkeep r) as [He Hw']. cbv zeta. split; [done|]. rewrite He. split; [lia|by left]. }
  destruct ((REQUEST_INLINE_MAX_ITEMS <? sel_items s + 1) || _ || _) eqn:Hb; cbv zeta.
  { destruct (Hkeep BUDGET) as [He Hw']. split; [done|]. rewrite He. split; [lia|by left]. }
  apply orb_false_iff in Hb as [[Hb1 Hb2]%orb_false_iff Hb3].
  match goal with |- within ?x ∧ _ => assert (He : sent x = sent s ++ [p]) end.
  { unfold sent. cbn [decisions]. by rewrite List.filter_app, map_app. }
  split; [|rewrite He, length_app; cbn; split; [lia|by right]].
  destruct Hw as [[Hi _] [Hbs _] [Ht _]].
  split; rewrite He; cbn [sel_items sel_bytes sel_tokens]; rewrite ?map_app, ?zsum_app, ?length_app; cbn;
    split; lia.
Qed.

(** What an item of the conversation may have sent, against what it is counted for. *)
Lemma decide_parts_spec insp item x call part parts s :
  eligible insp x = Some call → Forall part_valid (omap as_attachment parts) → within s →
  let s' := decide_parts item call part parts s in
  within s' ∧
  sent_content s' ≤ sent_content s + zsum (map (counted insp x) (omap as_attachment parts)) ∧
  (length (sent s') ≤ length (sent s) + length (omap as_attachment parts))%nat.
Proof.
  intros Hel. revert part s. induction parts as [|p parts IH]; intros part s Hv Hw; cbn [decide_parts].
  - cbn. split; [done|]. lia.
  - cbn [omap list_omap] in Hv |- *. destruct (as_attachment p) as [a|]; [|by apply IH].
    apply Forall_cons in Hv as [Ha Hv].
    destruct (decide_part_spec (item, part) call a s Hw) as (Hw' & Hlen & Hsent).
    set (s1 := decide_part (item, part) call a s) in *.
    destruct (IH (S part) s1 Hv Hw') as (H1 & H2 & H3). split; [done|]. cbn [map length].
    rewrite zsum_cons.
    assert (sent_content s1 ≤ sent_content s + counted insp x a).
    { unfold sent_content. destruct Hsent as [->|(-> & Hr & Hc)].
      - pose proof (counted_nonneg insp x a Ha). lia.
      - rewrite map_app, zsum_app. change (zsum (map content_tokens [a])) with (content_tokens a + 0).
        assert (counted insp x a = content_tokens a); [|lia]. unfold counted. rewrite Hr, andb_true_r.
        destruct x as [|? [] ? ? ?| | |r|]; cbn in Hel |- *; try done.
        destruct (is_error r); [done|]. cbn in Hel. destruct (bool_decide (tr_call_id r ∈ insp)); [|done].
        injection Hel as <-. by destruct Hc as [?| ->]. }
    lia.
Qed.

Definition items_valid (l : list ConversationItem) : Prop :=
  Forall (λ x, Forall part_valid (attachment_parts x)) l.

Lemma select_items_spec insp l :
  items_valid (map snd l) →
  let s := foldr (select_item insp) nothing_selected l in
  within s ∧ sent_content s ≤ zsum (map (item_counted insp) (map snd l)) ∧
  LABEL_TOKENS * Z.of_nat (length (sent s)) ≤ zsum (map item_labels (map snd l)).
Proof.
  induction l as [|[i x] l IH]; intros Hv.
  - split; [by split; split|]. split; done.
  - apply Forall_cons in Hv as [Hx Hv]. destruct (IH Hv) as (Hw & Hc & Hl).
    cbn [foldr map snd]. rewrite !zsum_cons.
    set (s := foldr (select_item insp) nothing_selected l) in *.
    assert (0 ≤ item_counted insp x).
    { apply zsum_nonneg, Forall_map. eapply Forall_impl; [exact Hx|]. intros p. apply counted_nonneg. }
    unfold select_item. cbn [fst snd]. destruct (eligible insp x) as [call|] eqn:Hel.
    + destruct (decide_parts_spec insp i x call 0 (item_content x) s Hel Hx Hw) as (H1 & H2 & H3).
      fold (attachment_parts x) in H2, H3. fold (item_counted insp x) in H2.
      split; [done|]. unfold item_labels, LABEL_TOKENS in *. lia.
    + unfold item_labels, LABEL_TOKENS in *. split; [done|]. lia.
Qed.

Lemma tokens_split s : within s → sel_tokens s = sent_content s + LABEL_TOKENS * Z.of_nat (length (sent s)).
Proof.
  intros [_ _ [-> _]]. unfold sent_content. induction (sent s) as [|p l IH]; [done|].
  cbn [map length]. rewrite !zsum_cons, IH. lia.
Qed.

Lemma snd_indexed l : map snd (indexed l) = l.
Proof.
  apply list_eq. intros i. change (map snd (indexed l)) with (snd <$> indexed l).
  unfold indexed. rewrite list_lookup_fmap, list_lookup_imap. by destruct (l !! i).
Qed.
Lemma elem_of_indexed l i x : (i, x) ∈ indexed l → l !! i = Some x.
Proof.
  intros [n Hn]%list_elem_of_lookup. unfold indexed in Hn. rewrite list_lookup_imap in Hn.
  destruct (l !! n) eqn:E; [|done]. by injection Hn as <- <-.
Qed.

(** Every decision is about an attachment of the conversation, at its own place. *)
Definition placed (l : list ConversationItem) (d : (nat * nat) * AttachmentDecision) : Prop :=
  ∃ x p call, l !! d.1.1 = Some x ∧ eligible (_inspection_calls l) x = Some call ∧
    item_content x !! d.1.2 = Some p ∧ as_attachment p = Some (decided_part d.2) ∧
    inspection_call d.2 = call ∧ (call ≠ None → part_is_image (decided_part d.2) = true).

Lemma decide_part_decisions key call p s d :
  d ∈ decisions (decide_part key call p s) →
  d ∈ decisions s ∨ d.1 = key ∧ decided_part d.2 = p ∧ inspection_call d.2 = call ∧
                    (call ≠ None → part_is_image p = true).
Proof.
  unfold decide_part. destruct (bool_decide (is_Some call) && negb (part_is_image p)) eqn:Hc; [by left|].
  destruct (match item_limit_reason p with Some _ => _ | None => _ end) as [[[r k] b] t].
  cbn. rewrite elem_of_app, list_elem_of_singleton. intros [?| ->]; [by left|right]. cbn.
  split_and!; try done. intros Hcall. destruct call; [|done]. by apply negb_false_iff in Hc.
Qed.

Lemma decide_parts_decisions item call x l part parts s :
  l !! item = Some x → eligible (_inspection_calls l) x = Some call →
  drop part (item_content x) = parts →
  (∀ d, d ∈ decisions s → placed l d) →
  ∀ d, d ∈ decisions (decide_parts item call part parts s) → placed l d.
Proof.
  intros Hx Hel. revert part s. induction parts as [|p parts IH]; intros part s Hd Hs; [done|].
  cbn [decide_parts]. apply IH.
  - by rewrite <- (drop_drop _ part 1), Nat.add_1_r in * || (rewrite <- Nat.add_1_r, <- drop_drop, Hd).
  - destruct (as_attachment p) as [a|] eqn:Ha; [|done].
    intros d [Hin|(Hk & Hp & Hi & Him)]%decide_part_decisions; [by apply Hs|].
    exists x, p, call. rewrite Hk, Hp. cbn. split_and!; try done.
    rewrite <- (Nat.add_0_r part), <- lookup_drop, Hd. done.
Qed.

Lemma select_placed l k :
  (∀ i x, (i, x) ∈ k → l !! i = Some x) →
  ∀ d, d ∈ decisions (foldr (select_item (_inspection_calls l)) nothing_selected k) → placed l d.
Proof.
  induction k as [|[i x] k IH]; intros Hk d; [by intros ?%not_elem_of_nil|].
  cbn [foldr]. unfold select_item at 1. cbn [fst snd].
  destruct (eligible (_inspection_calls l) x) as [call|] eqn:Hel; [|apply IH; set_solver].
  apply (decide_parts_decisions _ _ x); [set_solver|done|done|]. apply IH. set_solver.
Qed.

(** Whatever a conversation holds, what is sent inline fits one request - at most
    twenty files, twenty mebibytes and 160,000 tokens - only attachments of the owner's
    messages and images of a successful inspection are sent, and the token estimate is
    never below what sending them costs. *)
Theorem selection_within_estimate l :
  items_valid l →
  let s := select_attachments l in
  Z.of_nat (length (sent s)) ≤ REQUEST_INLINE_MAX_ITEMS ∧
  zsum (map read_limit (sent s)) ≤ REQUEST_INLINE_MAX_BYTES ∧
  zsum (map (λ p, content_tokens p + LABEL_TOKENS) (sent s)) ≤ REQUEST_INLINE_MAX_TOKENS ∧
  zsum (map (λ p, content_tokens p + LABEL_TOKENS) (sent s)) ≤ estimate_attachment_tokens l ∧
  ∀ d, d ∈ decisions s → placed l d.
Proof.
  intros Hv. cbv zeta. unfold select_attachments.
  destruct (select_items_spec (_inspection_calls l) (indexed l)) as (Hw & Hc & Hl);
    [by rewrite snd_indexed|]. rewrite snd_indexed in Hc, Hl.
  pose proof (tokens_split _ Hw) as Ht.
  destruct Hw as [[Hi1 Hi2] [Hb1 Hb2] [Ht1 Ht2]].
  split_and!; [lia..| |].
  - rewrite <- Ht1. unfold estimate_attachment_tokens. cbv zeta.
    set (c := zsum (map (item_counted _) l)) in *. unfold sent_content, LABEL_TOKENS in *. lia.
  - apply select_placed. intros i x. apply elem_of_indexed.
Qed.

(** Dropping the oldest item cannot raise the estimate. *)
Lemma counted_mono insp insp' x p :
  (∀ c, c ∈ insp → c ∈ insp') → part_valid p → counted insp x p ≤ counted insp' x p.
Proof.
  intros Hi Hp. pose proof (content_tokens_nonneg p Hp). unfold counted.
  destruct (item_limit_reason p); [by rewrite !andb_false_r|]. rewrite !andb_true_r.
  destruct (owner_message x); [done|]. cbn [orb].
  destruct x as [| | | |r|]; try (destruct (part_is_image p); done).
  destruct (part_is_image p); [|by rewrite !andb_false_r]. rewrite !andb_true_r.
  case_bool_decide as Ha; case_bool_decide as Hb; try lia. by destruct Hb; apply Hi.
Qed.
Lemma inspection_calls_cons x l c : c ∈ _inspection_calls l → c ∈ _inspection_calls (x :: l).
Proof.
  unfold _inspection_calls. change (x :: l) with ([x] ++ l). rewrite omap_app, elem_of_app. by right.
Qed.
Lemma item_counted_nonneg insp x : Forall part_valid (attachment_parts x) → 0 ≤ item_counted insp x.
Proof.
  intros Hx. apply zsum_nonneg, Forall_map. eapply Forall_impl; [exact Hx|]. intros p. apply counted_nonneg.
Qed.
Lemma items_counted_mono insp insp' l :
  (∀ c, c ∈ insp → c ∈ insp') → items_valid l →
  zsum (map (item_counted insp) l) ≤ zsum (map (item_counted insp') l).
Proof.
  intros Hi. induction 1 as [|x l Hx Hl IH]; [done|]. cbn [map]. rewrite !zsum_cons.
  assert (item_counted insp x ≤ item_counted insp' x); [|lia].
  unfold item_counted. induction Hx as [|p ps Hp Hps IHp]; [done|]. cbn [map]. rewrite !zsum_cons.
  pose proof (counted_mono insp insp' x p Hi Hp). lia.
Qed.
Lemma estimate_attachments_suffix x l :
  items_valid (x :: l) → estimate_attachment_tokens l ≤ estimate_attachment_tokens (x :: l).
Proof.
  intros Hv. apply Forall_cons in Hv as [Hx Hl]. unfold estimate_attachment_tokens. cbv zeta.
  cbn [map]. rewrite !zsum_cons.
  pose proof (items_counted_mono _ _ l (inspection_calls_cons x l) Hl).
  pose proof (item_counted_nonneg (_inspection_calls (x :: l)) x Hx).
  unfold item_labels at 2. unfold LABEL_TOKENS. lia.
Qed.
Lemma estimate_attachments_nonneg l : items_valid l → 0 ≤ estimate_attachment_tokens l.
Proof.
  induction l as [|x l IH]; intros Hv; [done|]. pose proof (estimate_attachments_suffix x l Hv).
  apply Forall_cons in Hv as [_ Hv]. specialize (IH Hv). lia.
Qed.

(** A single file that passes its own limit always fits the request. *)
Lemma single_file_fits key p :
  part_valid p → item_limit_reason p = None →
  sent (decide_part key None p nothing_selected) = [p].
Proof.
  intros [Hs Hn] Hr. unfold decide_part. cbn [bool_decide is_Some andb]. rewrite bool_decide_false by (by intros [? ?]).
  cbn [andb]. rewrite Hr. cbn [sel_items sel_bytes sel_tokens nothing_selected].
  assert (Hfit : read_limit p ≤ REQUEST_INLINE_MAX_BYTES ∧
                 content_tokens p + LABEL_TOKENS ≤ REQUEST_INLINE_MAX_TOKENS).
  { unfold item_limit_reason in Hr. unfold read_limit, content_tokens, read_limit.
    destruct (part_size_bytes p) as [size|]; [specialize (Hs size eq_refl)|done].
    unfold IMAGE_INLINE_MAX_BYTES, PDF_INLINE_MAX_BYTES, PDF_INLINE_MAX_PAGES, REQUEST_INLINE_MAX_BYTES,
      REQUEST_INLINE_MAX_TOKENS, TEXT_INLINE_MAX_BYTES, TEXT_BYTES_PER_TOKEN, PDF_TOKENS_PER_PAGE,
      IMAGE_TOKENS, LABEL_TOKENS in *. cbn [default from_option id].
    change (id size) with size. destruct (attachment_kind p); cbn in Hr; try done.
    - destruct (_ <? size) eqn:E; [done|]. lia.
    - destruct (part_page_count p) as [n|]; [|done]. destruct ((_ <? n) || _) eqn:E; [done|].
      apply orb_false_iff in E as [E1%Z.ltb_ge E2%Z.ltb_ge]. specialize (Hn n eq_refl).
      destruct n as [|n|n]; cbv iota; lia.
    - split; [lia|]. pose proof (Z.div_le_upper_bound (Z.min size (256 * 1024) + (3 - 1)) 3 87382).
      lia. }
  rewrite (proj2 (Z.ltb_ge REQUEST_INLINE_MAX_ITEMS _)) by done.
  rewrite (proj2 (Z.ltb_ge REQUEST_INLINE_MAX_BYTES _)) by lia.
  rewrite (proj2 (Z.ltb_ge REQUEST_INLINE_MAX_TOKENS _)) by lia. done.
Qed.

Definition sample_items : list ConversationItem :=
  [UserMessage [TextPart "look"; FileReferencePart 7 "application/pdf" None (Some 1000) (Some 3)] USER
     None None None;
   UserMessage [ImageReferencePart 8 "image/png" "auto" None (Some 6000000) None;
                ImageReferencePart 9 "image/png" "auto" None (Some 500) None] USER None None None].
Lemma selection_within_estimate_witness :
  map part_artifact_id (sent (select_attachments sample_items)) = [9; 7]%N ∧
  zsum (map (λ p, content_tokens p + LABEL_TOKENS) (sent (select_attachments sample_items))) ≤
    estimate_attachment_tokens sample_items.
Proof.
  split; [vm_compute; reflexivity|].
  refine (proj1 (proj2 (proj2 (proj2 (selection_within_estimate sample_items _))))).
  repeat constructor; cbn; intros n Hn; try discriminate Hn; injection Hn as <-; discriminate.
Defined.
