(* ===== verification/ToolInvocations.v ===== *)
(** * Tool invocations ([domain/tools.py], [InMemoryToolInvocationRepository])

    One row per tool call: its status moves along [ALLOWED_TOOL_TRANSITIONS], its
    identity never changes, and one idempotency key names one row of a run. *)
From S2P Require Import Prelude PolicyModel Messages.

Inductive ToolSource := BUILTIN | MCP | DEVICE | SANDBOX.
#[export] Instance ToolSource_eq_dec : EqDecision ToolSource.
Proof. solve_decision. Defined.

Inductive ToolInvocationStatus :=
| PROPOSED | AUTHORIZED | WAITING_FOR_APPROVAL | TOOL_RUNNING | SUCCEEDED | TOOL_FAILED
| TOOL_DENIED | UNCERTAIN.
#[export] Instance ToolInvocationStatus_eq_dec : EqDecision ToolInvocationStatus.
Proof. solve_decision. Defined.

Definition ToolInvocationStatus_value (s : ToolInvocationStatus) : string :=
  match s with
  | PROPOSED => "PROPOSED" | AUTHORIZED => "AUTHORIZED"
  | WAITING_FOR_APPROVAL => "WAITING_FOR_APPROVAL" | TOOL_RUNNING => "RUNNING"
  | SUCCEEDED => "SUCCEEDED" | TOOL_FAILED => "FAILED" | TOOL_DENIED => "DENIED"
  | UNCERTAIN => "UNCERTAIN"
  end.

Definition ALLOWED_TOOL_TRANSITIONS (s : ToolInvocationStatus) : list ToolInvocationStatus :=
  match s with
  | PROPOSED => [AUTHORIZED; WAITING_FOR_APPROVAL; TOOL_DENIED]
  | AUTHORIZED => [TOOL_RUNNING; WAITING_FOR_APPROVAL]
  | WAITING_FOR_APPROVAL => [AUTHORIZED; TOOL_DENIED]
  | TOOL_RUNNING => [TOOL_RUNNING; SUCCEEDED; TOOL_FAILED; UNCERTAIN]
  | SUCCEEDED | TOOL_FAILED | TOOL_DENIED | UNCERTAIN => []
  end.

Record ToolInvocation := {
  id : UUID;
  run_id : UUID;
  session_id : UUID;
  step_number : Z;
  inv_call_id : string;
  tool_name : string;
  tool_version : string;
  tool_source : ToolSource;
  inv_server_id : option string;
  idempotency_class : IdempotencyClass;
  inv_side_effect : SideEffectClass;
  inv_risk : RiskLevel;
  attempt_number : Z;
  status : ToolInvocationStatus;
  inv_raw_arguments : string;
  normalized_arguments : option dict;
  normalized_arguments_hash : option string;
  effective_arguments_hash : option string;
  idempotency_key : string;
  effect_sent_at : option datetime;
  suspended_kind : option string;
  suspended_ref : option string;
  output_bytes : option Z;
  truncated : bool;
  artifact_id : option UUID;
  inv_origin_trust : TrustLevel;
  parallel_group : option UUID;
  outcome : option ToolOutcome;
  policy_decision : option PolicyDecision;
  structured_result : option dict;
  result_item : option ToolResultItem;
  created_at : datetime;
  updated_at : datetime;
}.

(** The fields a transition copies from the caller's invocation. *)
Definition updated (current invocation : ToolInvocation) : ToolInvocation :=
  {| id := id current; run_id := run_id current; session_id := session_id current;
     step_number := step_number current; inv_call_id := inv_call_id current;
     tool_name := tool_name current; tool_version := tool_version current;
     tool_source := tool_source current; inv_server_id := inv_server_id current;
     idempotency_class := idempotency_class current; inv_side_effect := inv_side_effect current;
     inv_risk := inv_risk current; attempt_number := attempt_number current;
     status := status invocation;
     inv_raw_arguments := inv_raw_arguments current;
     normalized_arguments := normalized_arguments current;
     normalized_arguments_hash := normalized_arguments_hash current;
     effective_arguments_hash := effective_arguments_hash invocation;
     idempotency_key := idempotency_key current;
     effect_sent_at := effect_sent_at invocation;
     suspended_kind := suspended_kind invocation; suspended_ref := suspended_ref invocation;
     output_bytes := output_bytes invocation; truncated := truncated invocation;
     artifact_id := artifact_id invocation;
     inv_origin_trust := inv_origin_trust current; parallel_group := parallel_group current;
     outcome := outcome invocation; policy_decision := policy_decision invocation;
     structured_result := structured_result invocation; result_item := result_item invocation;
     created_at := created_at current; updated_at := updated_at invocation |}.

(** [invocation == updated]: the copied fields are equal, so what is compared is the rest. *)
Definition same_immutable_fields (a b : ToolInvocation) : bool :=
  bool_decide (id a = id b) && bool_decide (run_id a = run_id b) &&
  bool_decide (session_id a = session_id b) && bool_decide (step_number a = step_number b) &&
  bool_decide (inv_call_id a = inv_call_id b) && bool_decide (tool_name a = tool_name b) &&
  bool_decide (tool_version a = tool_version b) && bool_decide (tool_source a = tool_source b) &&
  bool_decide (inv_server_id a = inv_server_id b) &&
  bool_decide (idempotency_class a = idempotency_class b) &&
  bool_decide (inv_side_effect a = inv_side_effect b) && bool_decide (inv_risk a = inv_risk b) &&
  bool_decide (attempt_number a = attempt_number b) &&
  bool_decide (inv_raw_arguments a = inv_raw_arguments b) &&
  option_eqb dict_eqb (normalized_arguments a) (normalized_arguments b) &&
  bool_decide (normalized_arguments_hash a = normalized_arguments_hash b) &&
  bool_decide (idempotency_key a = idempotency_key b) &&
  bool_decide (inv_origin_trust a = inv_origin_trust b) &&
  bool_decide (parallel_group a = parallel_group b) &&
  bool_decide (created_at a = created_at b).

Module InvocationRepo.
Record t := {
  _invocations : gmap UUID ToolInvocation;
  _idempotency : gmap (UUID * string) UUID;
  _people_erased_runs : gset UUID;
}.
Definition init : t :=
  {| _invocations := ∅; _idempotency := ∅; _people_erased_runs := ∅ |}.
#[global] Instance t_eta : Eta t := λ s,
  {| _invocations := _invocations s; _idempotency := _idempotency s;
     _people_erased_runs := _people_erased_runs s |}.

Definition no_leases : exn :=
  NotImplementedError "the in-memory repository does not support worker leases".
Definition fenced : exn := RunCancelledError "People erasure fenced tool invocation writes".

Definition create (invocation : ToolInvocation) (leased : bool) (s : t)
    : result ToolInvocation * t :=
  if leased then (Raise no_leases, s)
  else if bool_decide (run_id invocation ∈ _people_erased_runs s) then (Raise fenced, s)
  else if bool_decide (is_Some (_invocations s !! id invocation))
  then (Raise (ConflictError "tool invocation already exists"), s)
  else
    let key := (run_id invocation, idempotency_key invocation) in
    match _idempotency s !! key with
    | Some existing_id =>
        match _invocations s !! existing_id with
        | Some existing => (Ok existing, s)
        | None => (Raise (KeyError "invocation"), s)
        end
    | None =>
        (Ok invocation,
         s <| _invocations := <[id invocation := invocation]> (_invocations s) |>
           <| _idempotency := <[key := id invocation]> (_idempotency s) |>)
    end.

Definition find_by_idempotency_key (run : UUID) (key : string) (s : t)
    : result (option ToolInvocation) :=
  match _idempotency s !! (run, key) with
  | None => Ok None
  | Some i => match _invocations s !! i with
              | Some x => Ok (Some x)
              | None => Raise (KeyError "invocation")
              end
  end.

(** [run_visible] is the outcome of [runs.get(run_id, principal)]. *)
Definition has_uncertain_non_idempotent (run_visible : result unit) (run : UUID)
    (tool hash : string) (s : t) : result bool :=
  match run_visible with
  | Raise e => Raise e
  | Ok _ =>
      Ok (existsb (λ x,
        bool_decide (run_id x = run) && bool_decide (status x = UNCERTAIN) &&
        bool_decide (idempotency_class x ∉ [READ_ONLY; IDEMPOTENT]) &&
        bool_decide (tool_name x = tool) &&
        bool_decide (normalized_arguments_hash x = Some hash)) (table_rows (_invocations s)))
  end.

Definition transition (invocation_id : UUID) (expected : ToolInvocationStatus)
    (invocation : ToolInvocation) (leased : bool) (s : t) : result ToolInvocation * t :=
  if leased then (Raise no_leases, s)
  else match _invocations s !! invocation_id with
  | None => (Raise (NotFoundError "tool invocation not found"), s)
  | Some current =>
      if bool_decide (status current ≠ expected)
      then (Raise (ConflictError ("expected " +:+ ToolInvocationStatus_value expected +:+
                                  ", found " +:+ ToolInvocationStatus_value (status current))), s)
      else if bool_decide (id invocation ≠ invocation_id) ||
              bool_decide (run_id invocation ≠ run_id current)
      then (Raise (ConflictError "tool invocation identity cannot change"), s)
      else if bool_decide (run_id current ∈ _people_erased_runs s) then (Raise fenced, s)
      else if bool_decide (status invocation ∉ ALLOWED_TOOL_TRANSITIONS (status current))
      then (Raise (ConflictError ("invalid tool transition " +:+
              ToolInvocationStatus_value (status current) +:+ "->" +:+
              ToolInvocationStatus_value (status invocation))), s)
      else if negb (same_immutable_fields invocation (updated current invocation))
      then (Raise (ConflictError "tool transition may not change immutable fields"), s)
      else (Ok (updated current invocation),
            s <| _invocations := <[invocation_id := updated current invocation]> (_invocations s) |>)
  end.

(** [(step_number, created_at, id.int)] *)
Definition row_leb (a b : ToolInvocation) : Prop :=
  step_number a < step_number b ∨
  (step_number a = step_number b ∧ key_leb (created_at a, id a) (created_at b, id b) = true).
#[global] Instance row_leb_dec a b : Decision (row_leb a b).
Proof. unfold row_leb. apply _. Defined.

Definition list_for_run (run_visible : result unit) (run : UUID) (s : t)
    : result (list ToolInvocation) :=
  match run_visible with
  | Raise e => Raise e
  | Ok _ => Ok (merge_sort row_leb (filter (λ x, run_id x = run) (table_rows (_invocations s))))
  end.

(** The People-erasure service sets (and a session deletion clears) the fences of
    the shared map. *)
Definition set_fences (runs : gset UUID) (s : t) : t := s <| _people_erased_runs := runs |>.

(** ** Histories of repository calls *)
Inductive op :=
| Create (invocation : ToolInvocation) (leased : bool)
| Transition (i : UUID) (expected : ToolInvocationStatus) (invocation : ToolInvocation) (leased : bool)
| SetFences (runs : gset UUID).
Definition step (s : t) (o : op) : t :=
  match o with
  | Create x leased => (create x leased s).2
  | Transition i expected x leased => (transition i expected x leased s).2
  | SetFences runs => set_fences runs s
  end.
Definition steps (os : list op) (s : t) : t := foldl step s os.

Record inv (s : t) : Prop := {
  inv_keyed : ∀ i x, _invocations s !! i = Some x → id x = i;
  inv_indexed : ∀ i x, _invocations s !! i = Some x →
    _idempotency s !! (run_id x, idempotency_key x) = Some i;
  inv_named : ∀ k i, _idempotency s !! k = Some i →
    ∃ x, _invocations s !! i = Some x ∧ (run_id x, idempotency_key x) = k;
}.

(** One invocation between two points of a history. *)
Definition tool_step (a b : ToolInvocationStatus) : Prop := b ∈ ALLOWED_TOOL_TRANSITIONS a.
Definition settled (x : ToolInvocation) : Prop := ALLOWED_TOOL_TRANSITIONS (status x) = [].
Definition evolves (x y : ToolInvocation) : Prop :=
  updated x y = y ∧ rtc tool_step (status x) (status y) ∧ (settled x → y = x).

Lemma evolves_refl x : evolves x x.
Proof. split; [by destruct x|]. by split. Qed.
Lemma evolves_trans x y z : evolves x y → evolves y z → evolves x z.
Proof.
  intros (Hxy & Hr1 & Hs1) (Hyz & Hr2 & Hs2). split; [|split; [by trans (status y)|]].
  - rewrite <- Hyz, <- Hxy. reflexivity.
  - intros Hs. specialize (Hs1 Hs) as ->. by apply Hs2.
Qed.
Lemma evolves_updated x y :
  status y ∈ ALLOWED_TOOL_TRANSITIONS (status x) → evolves x (updated x y).
Proof.
  intros Hst. split; [reflexivity|]. split; [by apply rtc_once|].
  unfold settled. intros Hs. rewrite Hs in Hst. set_solver.
Qed.

Lemma create_Some x leased s x' s' :
  create x leased s = (Ok x', s') →
  (_idempotency s !! (run_id x, idempotency_key x) = Some (id x') ∨ x' = x) ∧
  (s' = s ∨ _invocations s !! id x = None ∧
            _idempotency s !! (run_id x, idempotency_key x) = None ∧ x' = x ∧
            s' = s <| _invocations := <[id x := x]> (_invocations s) |>
                   <| _idempotency := <[(run_id x, idempotency_key x) := id x]> (_idempotency s) |>) ∨
  ¬ inv s.
Proof.
  unfold create. destruct leased; [done|]. case_bool_decide; [done|].
  case_bool_decide as Hn; [done|]. apply eq_None_not_Some in Hn.
  destruct (_idempotency s !! _) as [i|] eqn:Hi.
  - destruct (_invocations s !! i) as [y|] eqn:Hy; [|done]. intros [= <- <-].
    destruct (decide (id y = i)) as [<-|Hne]; [left; split; [by left|by left]|].
    right. intros Hinv. by destruct Hne, (inv_keyed _ Hinv _ _ Hy).
  - intros [= <- <-]. left. split; [by right|]. by right.
Qed.

Lemma transition_Ok i e x leased s y s' :
  transition i e x leased s = (Ok y, s') →
  ∃ c, _invocations s !! i = Some c ∧ status c = e ∧ y = updated c x ∧
    status x ∈ ALLOWED_TOOL_TRANSITIONS (status c) ∧ run_id c ∉ _people_erased_runs s ∧
    s' = s <| _invocations := <[i := y]> (_invocations s) |>.
Proof.
  unfold transition. destruct leased; [done|]. destruct (_invocations s !! i) as [c|]; [|done].
  case_bool_decide as He; [done|]. destruct (bool_decide _ || _); [done|].
  case_bool_decide as Hf; [done|]. case_bool_decide as Hx; [done|].
  destruct (negb _); [done|]. intros [= <- <-]. exists c.
  split; [done|]. split; [done|]. split; [done|]. split; [done|]. done.
Qed.

Lemma step_state (s : t) (o : op) :
  inv s →
  _invocations (step s o) = _invocations s ∧ _idempotency (step s o) = _idempotency s ∨
  (∃ x, o = Create x false ∧ _invocations s !! id x = None ∧
     _idempotency s !! (run_id x, idempotency_key x) = None ∧
     step s o = s <| _invocations := <[id x := x]> (_invocations s) |>
                  <| _idempotency := <[(run_id x, idempotency_key x) := id x]> (_idempotency s) |>) ∨
  (∃ i c x, _invocations s !! i = Some c ∧ status x ∈ ALLOWED_TOOL_TRANSITIONS (status c) ∧
     run_id c ∉ _people_erased_runs s ∧
     step s o = s <| _invocations := <[i := updated c x]> (_invocations s) |>).
Proof.
  intros Hinv. destruct o as [x leased|i e x leased|run]; simpl.
  - destruct (create x leased s) as [[x'|e] s'] eqn:Hc; simpl.
    + destruct (create_Some _ _ _ _ _ Hc) as [[_ [->|(Hn & Hk & -> & ->)]]|Hno]; [by left| |done].
      right; left. exists x. destruct leased; [done|]. done.
    + left. unfold create in Hc. by repeat case_match; simplify_eq.
  - destruct (transition i e x leased s) as [[y|e'] s'] eqn:Ht; simpl.
    + apply transition_Ok in Ht as (c & Hc & _ & -> & Hx & Hf & ->). right; right. by exists i, c, x.
    + left. unfold transition in Ht. by repeat case_match; simplify_eq.
  - by left.
Qed.

Lemma invocation_step_inv (s : t) (o : op) : inv s → inv (step s o).
Proof.
  intros Hinv. destruct (step_state s o Hinv) as [[Hi Hk]|[(x & -> & Hn & Hk & ->)|(i & c & x & Hc & _ & _ & ->)]].
  - constructor; rewrite ?Hi, ?Hk; apply Hinv.
  - constructor; simpl.
    + intros i y [[<- <-]|[_ ?]]%lookup_insert_Some; [done|by apply Hinv].
    + intros i y [[<- <-]|[Hi Hy]]%lookup_insert_Some; [by rewrite lookup_insert_eq|].
      apply (inv_indexed _ Hinv) in Hy. rewrite lookup_insert_ne; congruence.
    + intros k i [[<- <-]|[Hne Hi]]%lookup_insert_Some; [exists x; by rewrite lookup_insert_eq|].
      apply (inv_named _ Hinv) in Hi as (y & Hy & Hke). exists y.
      rewrite lookup_insert_ne; [done|congruence].
  - constructor; simpl.
    + intros j y [[<- <-]|[_ ?]]%lookup_insert_Some; [by apply (inv_keyed _ Hinv) in Hc|by apply Hinv].
    + intros j y [[<- <-]|[_ ?]]%lookup_insert_Some; [exact (inv_indexed _ Hinv _ _ Hc)|by apply Hinv].
    + intros k j Hj. apply (inv_named _ Hinv) in Hj as (y & Hy & Hke).
      destruct (decide (i = j)) as [<-|Hne].
      * exists (updated c x). rewrite lookup_insert_eq. assert (y = c) as -> by congruence. done.
      * exists y. by rewrite lookup_insert_ne.
Qed.
Lemma invocation_init_inv : inv init.
Proof. by split. Qed.
Lemma invocation_steps_inv os s : inv s → inv (steps os s).
Proof. revert s. induction os as [|o os IH]; intros s Hs; [done|]. by apply IH, invocation_step_inv. Qed.

Lemma step_evolves (s : t) (o : op) i x :
  inv s → _invocations s !! i = Some x → ∃ y, _invocations (step s o) !! i = Some y ∧ evolves x y.
Proof.
  intros Hinv Hx. destruct (step_state s o Hinv) as [[-> _]|[(z & -> & Hn & _ & ->)|(j & c & z & Hc & Hz & _ & ->)]].
  - exists x. split; [done|apply evolves_refl].
  - exists x. simpl. rewrite lookup_insert_ne by congruence. split; [done|apply evolves_refl].
  - simpl. destruct (decide (j = i)) as [->|Hne].
    + assert (c = x) as -> by congruence. rewrite lookup_insert_eq. eexists. split; [done|].
      by apply evolves_updated.
    + exists x. rewrite lookup_insert_ne by done. split; [done|apply evolves_refl].
Qed.
End InvocationRepo.

(** ** Properties *)
Import InvocationRepo.

(** An invocation's life. Over any history of repository calls, whatever
    fences are set meanwhile, a stored invocation stays stored; everything that
    identifies the call (tool, arguments, hash, key, risk, trust) is as created;
    its status has moved along the allowed transitions; and once it succeeded,
    failed, was denied or became uncertain, the row never changes again. *)
Theorem invocation_history os s i x :
  inv s → _invocations s !! i = Some x →
  ∃ y, _invocations (steps os s) !! i = Some y ∧ evolves x y.
Proof.
  revert s x. induction os as [|o os IH]; intros s x Hs Hx; [exists x; split; [done|apply evolves_refl]|].
  destruct (step_evolves s o i x Hs Hx) as (y & Hy & Hxy).
  destruct (IH (step s o) y) as (z & Hz & Hyz); [by apply invocation_step_inv|done|].
  exists z. split; [done|]. by eapply evolves_trans.
Qed.

(** One row per idempotency key. After any history two stored invocations of
    the same run and key are the same row, and proposing a call again under a
    stored key (with a fresh id, the run not fenced) stores nothing and answers
    with the row that exists, however far that one has come. *)
Theorem idempotent_create os :
  let s := steps os init in
  (∀ i j x y, _invocations s !! i = Some x → _invocations s !! j = Some y →
     run_id x = run_id y → idempotency_key x = idempotency_key y → i = j ∧ x = y) ∧
  (∀ i x new, _invocations s !! i = Some x →
     run_id new = run_id x → idempotency_key new = idempotency_key x →
     run_id new ∉ _people_erased_runs s → _invocations s !! id new = None →
     create new false s = (Ok x, s)).
Proof.
  intros s. pose proof (invocation_steps_inv os init invocation_init_inv) as Hinv. fold s in Hinv. split.
  - intros i j x y Hx Hy Hr Hk.
    pose proof (inv_indexed _ Hinv _ _ Hx) as Hi. pose proof (inv_indexed _ Hinv _ _ Hy) as Hj.
    rewrite Hr, Hk, Hj in Hi. assert (j = i) as -> by congruence. split; congruence.
  - intros i x new Hx Hr Hk Hf Hn. unfold create.
    rewrite bool_decide_eq_false_2 by done.
    rewrite bool_decide_eq_false_2 by (rewrite Hn; by intros []).
    pose proof (inv_indexed _ Hinv _ _ Hx) as Hi. by rewrite Hr, Hk, Hi, Hx.
Qed.

(** ** Witnesses *)
Definition sample_invocation (i : UUID) (key : string) (st : ToolInvocationStatus) : ToolInvocation :=
  {| id := i; run_id := 3; session_id := 2; step_number := 1; inv_call_id := "c1";
     tool_name := "web.fetch"; tool_version := "1"; tool_source := BUILTIN; inv_server_id := None;
     idempotency_class := NON_IDEMPOTENT; inv_side_effect := NETWORK_READ; inv_risk := LOW;
     attempt_number := 1; status := st; inv_raw_arguments := "{}";
     normalized_arguments := Some [("url", JStr "https://a")];
     normalized_arguments_hash := Some "h"; effective_arguments_hash := None;
     idempotency_key := key; effect_sent_at := None; suspended_kind := None;
     suspended_ref := None; output_bytes := None; truncated := false; artifact_id := None;
     inv_origin_trust := USER; parallel_group := None; outcome := None; policy_decision := None;
     structured_result := None; result_item := None; created_at := 10; updated_at := 10 |}.
Definition run_to_success : list op :=
  [Create (sample_invocation 1 "k" PROPOSED) false;
   Transition 1 PROPOSED (sample_invocation 1 "k" AUTHORIZED) false;
   Transition 1 AUTHORIZED (sample_invocation 1 "k" TOOL_RUNNING) false;
   Create (sample_invocation 2 "k" PROPOSED) false;
   Transition 1 TOOL_RUNNING (sample_invocation 1 "k" SUCCEEDED) false;
   Transition 1 SUCCEEDED (sample_invocation 1 "k" TOOL_RUNNING) false].

Lemma invocation_history_witness :
  let s := step init (Create (sample_invocation 1 "k" PROPOSED) false) in
  ∃ y, _invocations (steps (tail run_to_success) s) !! 1%N = Some y ∧
       evolves (sample_invocation 1 "k" PROPOSED) y ∧ status y = SUCCEEDED.
Proof.
  intros s.
  destruct (invocation_history (tail run_to_success) s 1 (sample_invocation 1 "k" PROPOSED))
    as (y & Hy & He); [apply invocation_step_inv, invocation_init_inv|reflexivity|].
  exists y. split; [exact Hy|]. split; [exact He|]. vm_compute in Hy. injection Hy as <-. reflexivity.
Defined.

Lemma idempotent_create_witness :
  ∃ x, create (sample_invocation 9 "k" PROPOSED) false (steps run_to_success init) =
       (Ok x, steps run_to_success init) ∧ id x = 1%N ∧ status x = SUCCEEDED.
Proof.
  destruct (_invocations (steps run_to_success init) !! 1%N) as [x|] eqn:Hx; [|vm_compute in Hx; discriminate].
  exists x. split.
  - apply (proj2 (idempotent_create run_to_success) 1%N x); [exact Hx| | | |reflexivity].
    + vm_compute in Hx. by injection Hx as <-.
    + vm_compute in Hx. by injection Hx as <-.
    + apply (bool_decide_unpack _). by vm_compute.
  - vm_compute in Hx. injection Hx as <-. by split.
Defined.
