(* ===== verification/ModelStream.v ===== *)
(** * The normalized model stream ([domain/messages.py], [model/streaming.py])

    The events of one model attempt, the validator every consumer reads them
    through, the accumulator that folds deltas into a turn, and the pairing check on
    a conversation. A generator is the list of events it yields and how it ends. The
    credential scan ([SECRET_VALUE] on the dumped event and its inspection copy) and
    [json.loads] are parameters. *)
From stdpp Require Import pretty.
From S2P Require Import Prelude PyDecimal PolicyModel Messages Budgets.

Inductive ProviderApi := RESPONSES | MESSAGES | CHAT_COMPLETIONS.
Record ProviderMetadata := {
  provider_api : ProviderApi;
  response_id : option string;
  request_id : option string;
  resolved_model_name : option string;
  pm_previous_response_id : option string;
  cache_breakpoints_sent : Z;
  cache_breakpoints_dropped : Z;
}.

Record ModelTurn := {
  assistant_messages : list AssistantMessage;
  turn_tool_calls : list ToolCallItem;
  provider_reasoning_items : list ProviderReasoningItem;
  turn_usage : ModelUsage;
  stop_reason : StopReason;
  provider_metadata : option ProviderMetadata;
}.

(** [sanitize_provider_code], [sanitize_provider_parameter] *)
Definition is_alnum (c : Ascii.ascii) : bool :=
  let n := Ascii.N_of_ascii c in
  ((48 <=? n) && (n <=? 57) || (65 <=? n) && (n <=? 90) || (97 <=? n) && (n <=? 122))%N.
Definition fullmatch_class (ok : Ascii.ascii → bool) (most : nat) (s : string) : bool :=
  (1 <=? String.length s)%nat && (String.length s <=? most)%nat &&
  forallb ok (String.list_ascii_of_string s).
Definition safe_code_char (c : Ascii.ascii) : bool :=
  is_alnum c || existsb (Ascii.eqb c) ["_"; "."; "-"]%char.
Definition sanitize_provider_code (value : option string) : option string :=
  match value with
  | None => None
  | Some s => if fullmatch_class safe_code_char 64 s then Some s else Some "provider_error"
  end.
Definition sanitize_provider_parameter (value : option string) : option string :=
  match value with
  | None => None
  | Some s =>
      if fullmatch_class (λ c, safe_code_char c || existsb (Ascii.eqb c) ["["; "]"]%char) 128 s
      then Some s else None
  end.

Record ModelError := {
  err_provider : string;
  err_model : string;
  err_attempt_id : UUID;
  err_message : string;
  provider_code : option string;
  http_status : option Z;
  provider_parameter : option string;
}.
(** The field validators of [ModelError]. *)
Definition ModelError_validated (e : ModelError) : ModelError :=
  {| err_provider := err_provider e; err_model := err_model e; err_attempt_id := err_attempt_id e;
     err_message := err_message e; provider_code := sanitize_provider_code (provider_code e);
     http_status := http_status e;
     provider_parameter := sanitize_provider_parameter (provider_parameter e) |}.
Inductive ModelFailure :=
| ModelTransientError (e : ModelError) (retry_after : option timedelta) (stream_had_output : bool)
| ModelPermanentError (e : ModelError)
| ModelProtocolError (e : ModelError) (detail : string).
Definition failure_error (f : ModelFailure) : ModelError :=
  match f with
  | ModelTransientError e _ _ | ModelPermanentError e | ModelProtocolError e _ => e
  end.

Record ModelEventBase := {
  me_attempt_id : UUID;
  me_run_id : UUID;
  me_step_number : Z;
  me_sequence : Z;
}.
Inductive ModelEvent :=
| TextDeltaEvent (b : ModelEventBase) (item_index : Z) (text : string)
| ReasoningDeltaEvent (b : ModelEventBase) (item_index : Z) (text : string) (is_summary : bool)
| ToolCallDeltaEvent (b : ModelEventBase) (item_index : Z) (call_id name : option string)
    (arguments_delta : string)
| UsageEvent (b : ModelEventBase) (usage : ModelUsage) (is_final : bool)
| ModelCompletedEvent (b : ModelEventBase) (turn : ModelTurn) (stop : StopReason)
    (stop_sequence : option string) (internal_retry_count : Z)
| ModelFailedEvent (b : ModelEventBase) (error : ModelFailure) (partial_turn : option ModelTurn).

Definition event_base (e : ModelEvent) : ModelEventBase :=
  match e with
  | TextDeltaEvent b _ _ | ReasoningDeltaEvent b _ _ _ | ToolCallDeltaEvent b _ _ _ _
  | UsageEvent b _ _ | ModelCompletedEvent b _ _ _ _ | ModelFailedEvent b _ _ => b
  end.
Definition sequence (e : ModelEvent) : Z := me_sequence (event_base e).
Definition is_terminal_event (e : ModelEvent) : bool :=
  match e with ModelCompletedEvent _ _ _ _ _ | ModelFailedEvent _ _ _ => true | _ => false end.

Inductive DeltaKind := TEXT_DELTA | REASONING_DELTA | TOOL_CALL_DELTA.
#[export] Instance DeltaKind_eq_dec : EqDecision DeltaKind.
Proof. solve_decision. Defined.
(** The item and kind of a delta. *)
Definition delta_of (e : ModelEvent) : option (Z * DeltaKind) :=
  match e with
  | TextDeltaEvent _ i _ => Some (i, TEXT_DELTA)
  | ReasoningDeltaEvent _ i _ _ => Some (i, REASONING_DELTA)
  | ToolCallDeltaEvent _ i _ _ _ => Some (i, TOOL_CALL_DELTA)
  | _ => None
  end.

(** ** [validated_stream] *)
Record validator := {
  expected_sequence : Z;
  terminal_seen : bool;
  closed_items : gset Z;
  active_item : option (Z * DeltaKind);
  tool_identity : gmap Z (string * string);
}.
Definition validator_start : validator :=
  {| expected_sequence := 0; terminal_seen := false; closed_items := ∅; active_item := None;
     tool_identity := ∅ |}.
#[global] Instance validator_eta : Eta validator := λ v,
  {| expected_sequence := expected_sequence v; terminal_seen := terminal_seen v;
     closed_items := closed_items v; active_item := active_item v; tool_identity := tool_identity v |}.

(** The item bookkeeping of one delta. *)
Definition enter_item (d : Z * DeltaKind) (v : validator) : result validator :=
  match active_item v with
  | None =>
      if bool_decide (d.1 ∈ closed_items v)
      then Raise (ModelStreamError "deltas for one item were not contiguous")
      else Ok (v <| active_item := Some d |>)
  | Some (active, kind) =>
      if negb (d.1 =? active) then
        let v := v <| closed_items := {[active]} ∪ closed_items v |> in
        if bool_decide (d.1 ∈ closed_items v)
        then Raise (ModelStreamError "deltas for one item were not contiguous")
        else Ok (v <| active_item := Some d |>)
      else if negb (bool_decide (kind = d.2))
      then Raise (ModelStreamError "one output item changed delta kind")
      else Ok v
  end.
Definition check_identity (item : Z) (call_id name : option string) (v : validator)
    : result validator :=
  match call_id, name with
  | Some c, Some n =>
      match tool_identity v !! item with
      | None => Ok (v <| tool_identity := <[item := (c, n)]> (tool_identity v) |>)
      | Some previous =>
          if bool_decide (previous = (c, n)) then Ok v
          else Raise (ModelStreamError "tool identity changed within one output item")
      end
  | _, _ => Raise (ModelStreamError "tool identity was absent at item start")
  end.

Section stream.
(** [SECRET_VALUE.search] on the event and on its inspection copy. *)
Context (carries_credential : ModelEvent → bool).

Definition validate_event (e : ModelEvent) (v : validator) : result validator :=
  if terminal_seen v then Raise (ModelStreamError "an event followed the terminal event")
  else if negb (sequence e =? expected_sequence v)
  then Raise (ModelStreamError "stream sequence did not start at zero and remain gapless")
  else
    let v := v <| expected_sequence := expected_sequence v + 1 |> in
    if carries_credential e
    then Raise (ModelStreamError "normalized event carried credential-shaped content")
    else match e with
    | TextDeltaEvent _ i _ => enter_item (i, TEXT_DELTA) v
    | ReasoningDeltaEvent _ i _ _ => enter_item (i, REASONING_DELTA) v
    | ToolCallDeltaEvent _ i call_id name _ =>
        match enter_item (i, TOOL_CALL_DELTA) v with
        | Raise x => Raise x
        | Ok v => check_identity i call_id name v
        end
    | UsageEvent _ _ is_final =>
        if is_final then Raise (ModelStreamError "usage events must remain provisional") else Ok v
    | ModelCompletedEvent _ _ _ _ _ | ModelFailedEvent _ _ _ => Ok (v <| terminal_seen := true |>)
    end.

(** The events yielded, and whether the generator returned or raised. *)
Fixpoint validate_from (v : validator) (source : list ModelEvent) : list ModelEvent * result unit :=
  match source with
  | [] => ([], if terminal_seen v then Ok tt
               else Raise (ModelStreamError "stream ended without exactly one terminal event"))
  | e :: source =>
      match validate_event e v with
      | Raise x => ([], Raise x)
      | Ok v => let '(yielded, r) := validate_from v source in (e :: yielded, r)
      end
  end.
Definition validated_stream (source : list ModelEvent) : list ModelEvent * result unit :=
  validate_from validator_start source.

Definition collect_turn (source : list ModelEvent) : result ModelTurn :=
  let '(yielded, r) := validated_stream source in
  match r with
  | Raise x => Raise x
  | Ok _ =>
      match last (List.filter is_terminal_event yielded) with
      | Some (ModelCompletedEvent _ turn _ _ _) => Ok turn
      | Some (ModelFailedEvent _ error _) =>
          Raise (ModelStreamError ("model attempt failed: " +:+
            match error with
            | ModelTransientError _ _ _ => "transient"
            | ModelPermanentError _ => "permanent"
            | ModelProtocolError _ _ => "protocol"
            end))
      | _ => Raise (ModelStreamError "stream did not produce a terminal turn")
      end
  end.
End stream.

(** ** [ModelStreamAccumulator] *)
Record _ToolBuffer := { tb_call_id : string; tb_name : string; tb_raw_arguments : string }.
Record ModelStreamAccumulator := { acc_text : gmap Z string; acc_tools : gmap Z _ToolBuffer }.
Definition accumulator_start : ModelStreamAccumulator := {| acc_text := ∅; acc_tools := ∅ |}.

Definition add (e : ModelEvent) (a : ModelStreamAccumulator) : result ModelStreamAccumulator :=
  match e with
  | TextDeltaEvent _ i text =>
      Ok {| acc_text := <[i := default "" (acc_text a !! i) +:+ text]> (acc_text a);
            acc_tools := acc_tools a |}
  | ToolCallDeltaEvent _ i (Some c) (Some n) delta =>
      let put raw := {| acc_text := acc_text a;
                        acc_tools := <[i := {| tb_call_id := c; tb_name := n;
                                               tb_raw_arguments := raw |}]> (acc_tools a) |} in
      match acc_tools a !! i with
      | None => Ok (put ("" +:+ delta))
      | Some b =>
          if negb (String.eqb (tb_call_id b) c) || negb (String.eqb (tb_name b) n)
          then Raise (ModelStreamError "tool identity changed within one output item")
          else Ok (put (tb_raw_arguments b +:+ delta))
      end
  | ToolCallDeltaEvent _ _ _ _ _ =>
      Raise (ModelStreamError "tool identity must be known at item start")
  | _ => Ok a
  end.
Fixpoint add_all (es : list ModelEvent) (a : ModelStreamAccumulator) : result ModelStreamAccumulator :=
  match es with
  | [] => Ok a
  | e :: es => match add e a with Raise x => Raise x | Ok a => add_all es a end
  end.

(** [sorted(d.items())]: the keys are distinct. *)
#[global] Instance item_leb_dec {A} (x y : Z * A) : Decision (x.1 ≤ y.1) := Z_le_dec _ _.
Definition sorted_items {A} (m : gmap Z A) : list (Z * A) :=
  merge_sort (λ x y : Z * A, x.1 ≤ y.1) (map_to_list m).

Section turn.
Context (json_loads : string → option json).

Definition _close_tool (item_index : Z) (b : _ToolBuffer) : ToolCallItem :=
  let '(arguments, parse_error) :=
    if String.eqb (rstrip (lstrip (tb_raw_arguments b))) "" then ([], None)
    else match json_loads (tb_raw_arguments b) with
         | Some (JObj parsed) => (parsed, None)
         | Some _ => ([], Some "arguments were not an object")
         | None => ([], Some "arguments were not valid JSON")
         end in
  {| call_id := tb_call_id b; item_index := item_index; tc_name := tb_name b;
     tc_arguments := arguments; raw_arguments := tb_raw_arguments b; parse_error := parse_error;
     tc_source_event_sequence := None |}.

Definition turn (a : ModelStreamAccumulator) (usage : ModelUsage) (stop : StopReason)
    (metadata : option ProviderMetadata) (reasoning_items : list ProviderReasoningItem) : ModelTurn :=
  {| assistant_messages :=
       map (λ iv, {| am_content := [TextPart iv.2]; am_item_index := iv.1;
                     am_trust := EXTERNAL_UNTRUSTED; am_source_event_sequence := None |})
         (List.filter (λ iv, negb (String.eqb iv.2 "")) (sorted_items (acc_text a)));
     turn_tool_calls := map (λ ib, _close_tool ib.1 ib.2) (sorted_items (acc_tools a));
     provider_reasoning_items := reasoning_items; turn_usage := usage; stop_reason := stop;
     provider_metadata := metadata |}.
End turn.

(** ** [validate_conversation_pairing]

    [calls] are the ids seen so far, [results] the ids answered so far. *)
Fixpoint pair_items (position : nat) (items : list ConversationItem) (calls results : list string)
    : result (list string * list string) :=
  match items with
  | [] => Ok (calls, results)
  | CallItem c :: items =>
      if bool_decide (call_id c ∈ calls)
      then Raise (ModelStreamError ("duplicate tool call id at conversation item " +:+ pretty position))
      else pair_items (S position) items (call_id c :: calls) results
  | ResultItem r :: items =>
      if negb (bool_decide (tr_call_id r ∈ calls))
      then Raise (ModelStreamError ("orphan tool result at conversation item " +:+ pretty position))
      else if bool_decide (tr_call_id r ∈ results)
      then Raise (ModelStreamError ("duplicate tool result at conversation item " +:+ pretty position))
      else pair_items (S position) items calls (tr_call_id r :: results)
  | _ :: items => pair_items (S position) items calls results
  end.
Definition validate_conversation_pairing (items : list ConversationItem) : result unit :=
  match pair_items 0 items [] [] with
  | Raise e => Raise e
  | Ok (calls, results) =>
      if forallb (λ c, bool_decide (c ∈ results)) calls then Ok tt
      else Raise (ModelStreamError "dangling tool call has no matching result")
  end.

(** ** What a well-formed stream is *)

(** The deltas of one item are contiguous and of one kind. *)
Definition one_block (ds : list (Z * DeltaKind)) : Prop :=
  (∀ i j k a b c, (i < j < k)%nat → ds !! i = Some a → ds !! j = Some b → ds !! k = Some c →
     a.1 = c.1 → b.1 = a.1) ∧
  (∀ a c, a ∈ ds → c ∈ ds → a.1 = c.1 → a.2 = c.2).
Definition deltas (l : list ModelEvent) : list (Z * DeltaKind) := omap delta_of l.
(** A tool delta of item [i] in [l] names the call [x]. *)
Definition names_call (l : list ModelEvent) (i : Z) (x : string * string) : Prop :=
  ∃ b delta, ToolCallDeltaEvent b i (Some x.1) (Some x.2) delta ∈ l.

Section wellformed.
Context (carries_credential : ModelEvent → bool).

(** What holds of every prefix a consumer may see. *)
Record sound (l : list ModelEvent) : Prop := {
  sound_sequence : ∀ n e, l !! n = Some e → sequence e = Z.of_nat n;
  sound_terminal : ∀ n e, l !! n = Some e → is_terminal_event e = true → S n = length l;
  sound_items : one_block (deltas l);
  sound_identified : ∀ b i c n delta, ToolCallDeltaEvent b i c n delta ∈ l → is_Some c ∧ is_Some n;
  sound_identity : ∀ i x y, names_call l i x → names_call l i y → x = y;
  sound_usage : ∀ b u f, UsageEvent b u f ∈ l → f = false;
  sound_clean : ∀ e, e ∈ l → carries_credential e = false;
}.
Definition terminated (l : list ModelEvent) : Prop := ∃ e, last l = Some e ∧ is_terminal_event e = true.

(** The validator's state after the events [l]. *)
Record tracks (l : list ModelEvent) (v : validator) : Prop := {
  tracks_sequence : expected_sequence v = Z.of_nat (length l);
  tracks_terminal : terminal_seen v = true ↔ terminated l;
  tracks_active : active_item v = last (deltas l);
  tracks_closed : ∀ i, i ∈ closed_items v ↔
                    i ∈ (deltas l).*1 ∧ fst <$> last (deltas l) ≠ Some i;
  tracks_identity : ∀ i x, tool_identity v !! i = Some x ↔ names_call l i x;
}.

Lemma one_block_snoc ds d :
  one_block (ds ++ [d]) ↔
  one_block ds ∧ (d.1 ∈ ds.*1 → last ds = Some d).
Proof.
  split.
  - intros [Hc Hk]. split_and!.
    + split; [|intros a c ??; apply Hk; set_solver].
      intros i j k a b c Hijk Ha Hb Hcc. apply (Hc i j k); by try apply lookup_app_l_Some.
    + intros (a & Had & Ha)%list_elem_of_fmap. destruct (last ds) as [z|] eqn:Hz.
      * assert (Hz' := Hz). apply last_Some_elem_of in Hz'.
        assert (Hzd : z.1 = d.1).
        { apply list_elem_of_lookup in Ha as [i Hi]. rewrite last_lookup in Hz.
          assert (i < length ds)%nat by (by eapply lookup_lt_Some).
          destruct (decide (i = pred (length ds))) as [->|Hne]; [congruence|].
          rewrite Had. apply (Hc i (pred (length ds)) (length ds) a z d); [lia|..|done].
          - by apply lookup_app_l_Some.
          - by apply lookup_app_l_Some.
          - by rewrite lookup_app_r, Nat.sub_diag. }
        f_equal. assert (z.2 = d.2) by (apply Hk; [set_solver..|done]).
        destruct z, d. simpl in *. congruence.
      * apply last_None in Hz as ->. by apply not_elem_of_nil in Ha.
  - intros [[Hc Hk] Hd]. split.
    + intros i j k a b c Hijk Ha Hb Hcc Hac.
      assert (Hin : ∀ n x, (n < k)%nat → (ds ++ [d]) !! n = Some x → ds !! n = Some x).
      { intros n x Hn Hx. apply lookup_lt_Some in Hcc. rewrite length_app in Hcc. cbn in Hcc.
        rewrite lookup_app_l in Hx by lia. done. }
      apply Hin in Ha, Hb; [|lia..].
      apply lookup_app_Some in Hcc as [Hcc|[Hlen Hcc]]; [by eapply Hc|].
      apply list_lookup_singleton_Some in Hcc as [Hk0 <-].
      assert (Hl : last ds = Some d).
      { apply Hd. rewrite <- Hac. apply list_elem_of_fmap. exists a. split; [done|].
        by eapply list_elem_of_lookup_2. }
      rewrite last_lookup in Hl.
      destruct (decide (j = pred (length ds))) as [->|Hne]; [congruence|].
      assert (j < length ds)%nat by (by eapply lookup_lt_Some).
      by apply (Hc i j (pred (length ds)) a b d); [lia|..].
    + assert (Hall : ∀ a, a ∈ ds → a.1 = d.1 → a.2 = d.2).
      { intros a Ha Had. assert (Hl : last ds = Some d).
        { apply Hd. rewrite <- Had. apply list_elem_of_fmap. by exists a. }
        apply Hk; [done| |done]. by apply last_Some_elem_of. }
      intros a c [Ha|Ha%list_elem_of_singleton]%elem_of_app [Hcc|Hcc%list_elem_of_singleton]%elem_of_app Hac;
        subst; auto. symmetry. by apply Hall.
Qed.

Definition items_track (ds : list (Z * DeltaKind)) (v : validator) : Prop :=
  active_item v = last ds ∧
  ∀ i, i ∈ closed_items v ↔ i ∈ ds.*1 ∧ fst <$> last ds ≠ Some i.
(** Only the item bookkeeping of the validator differs. *)
Definition same_rest (v v' : validator) : Prop :=
  expected_sequence v' = expected_sequence v ∧ terminal_seen v' = terminal_seen v ∧
  tool_identity v' = tool_identity v.

Lemma enter_item_spec ds d v :
  items_track ds v →
  match enter_item d v with
  | Ok v' => (d.1 ∈ ds.*1 → last ds = Some d) ∧ items_track (ds ++ [d]) v' ∧ same_rest v v'
  | Raise _ => d.1 ∈ ds.*1 ∧ last ds ≠ Some d
  end.
Proof.
  intros [Ha Hc]. unfold enter_item. rewrite Ha. destruct (last ds) as [[active kind]|] eqn:Hl.
  - assert (Hin : (active, kind) ∈ ds) by by apply last_Some_elem_of.
    assert (Hin1 : active ∈ ds.*1) by (apply list_elem_of_fmap; by exists (active, kind)).
    destruct (Z.eqb_spec d.1 active) as [He|Hne]; cbn.
    + case_bool_decide as Hk; cbn.
      * assert (d = (active, kind)) as -> by (destruct d; naive_solver). split_and!; [done| |done].
        split; [by rewrite last_snoc|]. intros i. rewrite Hc, last_snoc, fmap_app, elem_of_app.
        cbn. set_solver.
      * rewrite He. split; [done|]. intros [= <-]. by apply Hk.
    + case_bool_decide as Hd.
      * apply elem_of_union in Hd as [?%elem_of_singleton|Hd]; [congruence|].
        apply Hc in Hd as [Hd _]. split; [done|]. intros [= <-]. by apply Hne.
      * assert (Hnew : d.1 ∉ ds.*1).
        { intros Hd'. apply Hd. apply elem_of_union_r, Hc. split; [done|]. cbn. congruence. }
        split_and!; [done| |done]. split; [by rewrite last_snoc|]. intros i. cbn.
        rewrite elem_of_union, elem_of_singleton, Hc, last_snoc, fmap_app, elem_of_app. cbn.
        rewrite list_elem_of_singleton. split.
        -- intros [->|[Hi Hi']]; (split; [auto|]); [congruence|]. intros [= <-]. done.
        -- intros [[Hi| ->] Hi']; [|done]. destruct (decide (i = active)); [auto|].
           right. split; [done|]. congruence.
  - apply last_None in Hl as ->. cbn in *. case_bool_decide as Hd.
    + apply Hc in Hd as [Hd _]. by apply not_elem_of_nil in Hd.
    + split_and!; [set_solver| |done]. split; [done|]. intros i. cbn. rewrite Hc. set_solver.
Qed.

Lemma deltas_app l k : deltas (l ++ k) = deltas l ++ deltas k.
Proof. apply omap_app. Qed.
Lemma deltas_single e : deltas [e] = match delta_of e with Some d => [d] | None => [] end.
Proof. unfold deltas. cbn. by destruct (delta_of e). Qed.
Lemma names_call_snoc l e i x :
  names_call (l ++ [e]) i x ↔
  names_call l i x ∨ ∃ b delta, e = ToolCallDeltaEvent b i (Some x.1) (Some x.2) delta.
Proof.
  unfold names_call. setoid_rewrite elem_of_app. setoid_rewrite list_elem_of_singleton.
  split; [intros (b & dl & [?|?]); [left; eauto|right; eauto]|].
  intros [(b & dl & ?)|(b & dl & ?)]; exists b, dl; auto.
Qed.

(** What the next event must satisfy. *)
Record admissible (l : list ModelEvent) (e : ModelEvent) : Prop := {
  adm_open : ¬ terminated l;
  adm_sequence : sequence e = Z.of_nat (length l);
  adm_clean : carries_credential e = false;
  adm_item : ∀ d, delta_of e = Some d → d.1 ∈ (deltas l).*1 → last (deltas l) = Some d;
  adm_identity : match e with
                 | ToolCallDeltaEvent _ i (Some c) (Some n) _ => ∀ x, names_call l i x → x = (c, n)
                 | ToolCallDeltaEvent _ _ _ _ _ => False
                 | UsageEvent _ _ is_final => is_final = false
                 | _ => True
                 end;
}.

Lemma sound_snoc l e : sound (l ++ [e]) ↔ sound l ∧ admissible l e.
Proof.
  assert (Hlast : (l ++ [e]) !! length l = Some e) by (by rewrite lookup_app_r, Nat.sub_diag).
  assert (Hat : ∀ n x, l !! n = Some x → (l ++ [e]) !! n = Some x)
    by (intros; by apply lookup_app_l_Some).
  assert (Hid : (∀ i x y, names_call (l ++ [e]) i x → names_call (l ++ [e]) i y → x = y) ↔
     (∀ i x y, names_call l i x → names_call l i y → x = y) ∧
     ∀ b i c n delta, e = ToolCallDeltaEvent b i (Some c) (Some n) delta →
       ∀ x, names_call l i x → x = (c, n)).
  { setoid_rewrite names_call_snoc. split.
    - intros H. split; [eauto|]. intros b i c n dl -> x Hx.
      apply (H i x (c, n)); [by left|]. right. by exists b, dl.
    - intros [H1 H2] i x y [Hx|(b & dl & Hx)] [Hy|(b' & dl' & Hy)]; [eauto|..].
      + specialize (H2 _ _ _ _ _ Hy x Hx). by destruct y.
      + specialize (H2 _ _ _ _ _ Hx y Hy). by destruct x.
      + rewrite Hx in Hy. injection Hy. destruct x, y. simpl in *. congruence. }
  split.
  - intros [Hs Ht Hi Hd Hn Hu Hc]. rewrite deltas_app, deltas_single in Hi. apply Hid in Hn as [Hn Hn'].
    assert (Hno : ∀ n x, l !! n = Some x → is_terminal_event x = false).
    { intros n x Hx. destruct (is_terminal_event x) eqn:E; [|done].
      apply Hat in Hx as Hx'. apply (Ht n x Hx') in E. rewrite length_app in E. cbn in E.
      apply lookup_lt_Some in Hx. lia. }
    assert (Hi' : one_block (deltas l) ∧ ∀ d, delta_of e = Some d → d.1 ∈ (deltas l).*1 →
                   last (deltas l) = Some d).
    { destruct (delta_of e) as [d|]; [apply one_block_snoc in Hi as [? ?]|rewrite app_nil_r in Hi];
        (split; [done|]); [by intros ? [= <-]|by intros]. }
    destruct Hi' as [Hi1 Hi2]. split; split; try done.
    + eauto.
    + intros n x Hx. by rewrite (Hno n x Hx).
    + intros b i c n dl H. eapply Hd, elem_of_app. by left.
    + intros b u f H. eapply Hu, elem_of_app. by left.
    + intros x H. apply Hc, elem_of_app. by left.
    + intros (x & Hx & Hx'). rewrite last_lookup in Hx. rewrite (Hno _ _ Hx) in Hx'. done.
    + by apply Hs.
    + apply Hc, elem_of_app. right. set_solver.
    + destruct e as [| |b i [c|] [n|] dl|b u f| |]; try done.
      * eauto.
      * destruct (Hd b i (Some c) None dl) as [? [? ?]]; [set_solver|done].
      * destruct (Hd b i None (Some n) dl) as [[? ?] ?]; [set_solver|done].
      * destruct (Hd b i None None dl) as [[? ?] ?]; [set_solver|done].
      * apply (Hu b u f). set_solver.
  - intros [[Hs Ht Hi Hd Hn Hu Hc] [Ho Hseq Hcl Hit Hidn]].
    assert (Hno : ∀ n x, l !! n = Some x → is_terminal_event x = false).
    { intros n x Hx. destruct (is_terminal_event x) eqn:E; [|done]. exfalso. apply Ho.
      exists x. split; [|done]. rewrite last_lookup. pose proof (Ht n x Hx E). by replace (pred _) with n by lia. }
    split.
    + intros n x [Hx|[Hlen Hx]]%lookup_app_Some; [by apply Hs|].
      apply list_lookup_singleton_Some in Hx as [Hz <-]. rewrite Hseq. lia.
    + intros n x [Hx|[Hlen Hx]]%lookup_app_Some; [by rewrite (Hno n x Hx)|].
      apply list_lookup_singleton_Some in Hx as [Hz <-]. rewrite length_app. cbn. lia.
    + rewrite deltas_app, deltas_single. destruct (delta_of e) as [d|]; [|by rewrite app_nil_r].
      apply one_block_snoc. auto.
    + intros b i c n dl [H|H%list_elem_of_singleton]%elem_of_app; [eauto|]. subst e.
      destruct c, n; done.
    + apply Hid. split; [done|]. intros b i c n dl ->. done.
    + intros b u f [H|H%list_elem_of_singleton]%elem_of_app; [eauto|]. by subst e.
    + intros x [H|H%list_elem_of_singleton]%elem_of_app; [eauto|]. by subst x.
Qed.

Lemma sound_nil : sound [].
Proof.
  split.
  - done.
  - done.
  - split; [done|set_solver].
  - intros b i c n dl H. by apply not_elem_of_nil in H.
  - intros i x y (b & dl & H). by apply not_elem_of_nil in H.
  - intros b u f H. by apply not_elem_of_nil in H.
  - intros e H. by apply not_elem_of_nil in H.
Qed.
Lemma tracks_start : tracks [] validator_start.
Proof.
  split; cbn; try done.
  - split; [done|]. by intros (e & He & _).
  - intros i. set_solver.
  - intros i x. rewrite lookup_empty. split; [done|]. intros (b & dl & H). by apply not_elem_of_nil in H.
Qed.

Lemma terminated_snoc l e : terminated (l ++ [e]) ↔ is_terminal_event e = true.
Proof.
  unfold terminated. rewrite last_snoc. split; [by intros (x & [= ->] & ?)|]. intros ?. by exists e.
Qed.

(** The bookkeeping of a delta that passed [enter_item], put back together. *)
Lemma tracks_snoc l e v :
  expected_sequence v = Z.of_nat (length l) + 1 → terminal_seen v = is_terminal_event e →
  items_track (deltas (l ++ [e])) v →
  (∀ i x, tool_identity v !! i = Some x ↔ names_call (l ++ [e]) i x) →
  tracks (l ++ [e]) v.
Proof.
  intros Hs Ht [Ha Hc] Hi. split; try done.
  - rewrite Hs, length_app. cbn. lia.
  - by rewrite Ht, terminated_snoc.
Qed.

Lemma not_delta_items l e v :
  delta_of e = None → items_track (deltas l) v → items_track (deltas (l ++ [e])) v.
Proof. intros He. by rewrite deltas_app, deltas_single, He, app_nil_r. Qed.
Lemma not_call_names l e i x :
  (∀ b i c n d, e ≠ ToolCallDeltaEvent b i c n d) → names_call (l ++ [e]) i x ↔ names_call l i x.
Proof. intros He. rewrite names_call_snoc. split; [intros [?|(b & d & ?)]; [done|naive_solver]|auto]. Qed.

(** Entering the item of a delta, after the sequence and the credential checks. *)
Lemma enter_spec l e d v :
  delta_of e = Some d → sound l → tracks l v →
  sequence e = expected_sequence v → carries_credential e = false → terminal_seen v = false →
  match enter_item d (v <| expected_sequence := expected_sequence v + 1 |>) with
  | Ok v' => expected_sequence v' = Z.of_nat (length l) + 1 ∧ terminal_seen v' = is_terminal_event e ∧
             items_track (deltas (l ++ [e])) v' ∧ tool_identity v' = tool_identity v ∧
             (d.1 ∈ (deltas l).*1 → last (deltas l) = Some d)
  | Raise _ => ¬ admissible l e
  end.
Proof.
  intros Hd Hsound [Hs Ht Ha Hc Hi] Hseq Hcl Hts.
  assert (Hit : items_track (deltas l) (v <| expected_sequence := expected_sequence v + 1 |>))
    by done.
  pose proof (enter_item_spec _ d _ Hit) as H.
  destruct (enter_item d _) as [v'|x] eqn:E.
  - destruct H as (H1 & H2 & H3 & H4 & H5). cbn in H3, H4, H5. split_and!; try done.
    + rewrite H3, Hs. lia.
    + rewrite H4, Hts. by destruct e.
    + by rewrite deltas_app, deltas_single, Hd.
  - destruct H as [H1 H2]. intros Hadm. by apply H2, (adm_item _ _ Hadm).
Qed.

Ltac entering Hsound Htr Hseq Hcl Hts :=
  lazymatch type of Hcl with _ ?ev = false =>
    match goal with |- context [enter_item ?d (_ <| expected_sequence := _ |>)] =>
      let H := fresh in
      pose proof (enter_spec _ ev d _ eq_refl Hsound Htr Hseq Hcl Hts) as H;
      destruct (enter_item _ _) as [v'|];
      [destruct H as (H1 & H2 & H3 & H4 & H5)|exact H]
    end
  end.

Lemma validate_event_spec l e v :
  sound l → tracks l v →
  match validate_event carries_credential e v with
  | Ok v' => admissible l e ∧ tracks (l ++ [e]) v'
  | Raise _ => ¬ admissible l e
  end.
Proof.
  intros Hsound Htr. assert (Htr' := Htr). destruct Htr' as [Hs Ht Ha Hc Hi].
  unfold validate_event. destruct (terminal_seen v) eqn:Hts.
  { intros []. by apply adm_open0, Ht. }
  assert (Hopen : ¬ terminated l) by (rewrite <- Ht; by intros ?).
  destruct (Z.eqb_spec (sequence e) (expected_sequence v)) as [Hseq|Hseq]; cbn [negb].
  2: { intros []. congruence. }
  destruct (carries_credential e) eqn:Hcl; [by intros []; congruence|].
  assert (Hseq' : sequence e = Z.of_nat (length l)) by congruence.
  cbv zeta. destruct e as [b i t|b i t f|b i c n t|b u f|b t s q k|b er p].
  1, 2: entering Hsound Htr Hseq Hcl Hts;
    (split; [split; [done..|by intros d [= <-]|done]|]);
    (apply tracks_snoc; [done..|]; intros j x; rewrite H4, Hi; symmetry; by apply not_call_names).
  - entering Hsound Htr Hseq Hcl Hts. unfold check_identity. destruct c as [c|], n as [n|];
      [|by intros [_ _ _ _ Hbad]..]. rewrite H4.
    destruct (tool_identity v !! i) as [prev|] eqn:Hp.
    + case_bool_decide as Heq.
      * subst prev. apply Hi in Hp as Hp'. split.
        -- split; [done..|by intros d [= <-]|]. intros x Hx.
           by apply (sound_identity _ Hsound i).
        -- apply tracks_snoc; [done..|]. intros j x. rewrite H4, Hi, names_call_snoc.
           split; [auto|]. intros [?|(b' & dl & [= _ <- -> -> _])]; [done|]. by destruct x.
      * intros [_ _ _ _ Hbad]. apply Heq, Hbad, Hi, Hp.
    + split.
      * split; [done..|by intros d [= <-]|]. intros x Hx. apply Hi in Hx. congruence.
      * apply tracks_snoc; cbn; [done..|]. intros j x. rewrite lookup_insert_Some, Hi, names_call_snoc.
        split.
        -- intros [[<- <-]|[_ ?]]; [right; by exists b, t|by left].
        -- intros [Hn|(b' & dl & [= _ <- -> -> _])]; [|left; by destruct x].
           right. split; [|done]. intros ->. apply Hi in Hn. congruence.
  - destruct f; [intros [_ _ _ _ Hbad]; done|]. split; [by split|].
    apply tracks_snoc; cbn; [lia|done|by apply not_delta_items|]. intros j x. rewrite Hi.
    symmetry. by apply not_call_names.
  - split; [by split|]. apply tracks_snoc; cbn; [lia|done|by apply not_delta_items|].
    intros j x. rewrite Hi. symmetry. by apply not_call_names.
  - split; [by split|]. apply tracks_snoc; cbn; [lia|done|by apply not_delta_items|].
    intros j x. rewrite Hi. symmetry. by apply not_call_names.
Qed.

Lemma validate_from_spec l v source yielded r :
  sound l → tracks l v → validate_from carries_credential v source = (yielded, r) →
  sound (l ++ yielded) ∧
  if is_ok r then yielded = source ∧ terminated (l ++ source)
  else (yielded = source ∧ ¬ terminated (l ++ source)) ∨
       ∃ e rest, source = yielded ++ e :: rest ∧ ¬ sound (l ++ yielded ++ [e]).
Proof.
  revert l v yielded r. induction source as [|e source IH]; intros l v yielded r Hs Ht.
  - cbn. intros [= <- <-]. rewrite app_nil_r. split; [done|].
    pose proof (tracks_terminal _ _ Ht) as Hx. destruct (terminal_seen v); cbn.
    + split; [done|by apply Hx].
    + left. split; [done|]. by intros ?%Hx.
  - cbn [validate_from]. pose proof (validate_event_spec l e v Hs Ht) as H.
    destruct (validate_event carries_credential e v) as [v'|x].
    + destruct H as [Hadm Ht']. destruct (validate_from carries_credential v' source) as [y q] eqn:E.
      intros [= <- <-]. assert (Hs' : sound (l ++ [e])) by by apply sound_snoc.
      destruct (IH _ _ _ _ Hs' Ht' E) as [H1 H2]. rewrite <- !app_assoc in *. cbn in *.
      split; [done|]. destruct (is_ok q).
      * destruct H2 as [-> ?]. done.
      * destruct H2 as [[-> ?]|(x & rest & -> & ?)]; [by left|right]. exists x, rest.
        split; [done|]. rewrite <- app_assoc in H. done.
    + intros [= <- <-]. rewrite app_nil_r. split; [done|]. right. exists e, source.
      split; [done|]. cbn. by intros [_ ?]%sound_snoc.
Qed.

(** C37: The stream validator accepts exactly the well-formed streams - gapless from
    zero, items contiguous and of one kind, one identity per tool call, usage
    provisional, no credential, and one terminal event, at the end - and yields them
    whole; of any other it yields the longest prefix before the first offence. *)
Theorem validated_stream_exact source yielded r :
  validated_stream carries_credential source = (yielded, r) →
  sound yielded ∧
  if is_ok r then yielded = source ∧ terminated source
  else (yielded = source ∧ ¬ terminated source) ∨
       ∃ e rest, source = yielded ++ e :: rest ∧ ¬ sound (yielded ++ [e]).
Proof. apply (validate_from_spec [] validator_start source); [apply sound_nil|apply tracks_start]. Qed.

(** ** What the accumulator collects *)
Definition text_deltas (i : Z) (l : list ModelEvent) : list string :=
  omap (λ e, match e with TextDeltaEvent _ j t => if j =? i then Some t else None | _ => None end) l.
Definition argument_deltas (i : Z) (l : list ModelEvent) : list string :=
  omap (λ e, match e with
             | ToolCallDeltaEvent _ j _ _ d => if j =? i then Some d else None
             | _ => None
             end) l.

Lemma add_all_snoc l e a :
  add_all (l ++ [e]) a = match add_all l a with Raise x => Raise x | Ok b => add e b end.
Proof.
  revert a. induction l as [|x l IH]; intros a; cbn [add_all app]; [by destruct (add e a)|].
  destruct (add x a); [apply IH|done].
Qed.

Definition collects (l : list ModelEvent) (a : ModelStreamAccumulator) : Prop := ∀ i,
  acc_text a !! i = match text_deltas i l with [] => None | ts => Some (joined ts) end ∧
  match acc_tools a !! i with
  | Some b => names_call l i (tb_call_id b, tb_name b) ∧
              tb_raw_arguments b = joined (argument_deltas i l)
  | None => (∀ x, ¬ names_call l i x) ∧ argument_deltas i l = []
  end.

Lemma collects_other l e a :
  (∀ i, text_deltas i [e] = []) → (∀ i, argument_deltas i [e] = []) →
  (∀ b i c n d, e ≠ ToolCallDeltaEvent b i c n d) → collects l a → collects (l ++ [e]) a.
Proof.
  intros Ht Ha He H i. destruct (H i) as [H1 H2]. unfold text_deltas, argument_deltas in *.
  rewrite !omap_app, Ht, Ha, !app_nil_r. split; [done|].
  destruct (acc_tools a !! i) as [b|]; [|destruct H2 as [H2 H3]; split; [|done]; intros x].
  - by rewrite not_call_names.
  - by rewrite not_call_names.
Qed.

Lemma add_collects l e a :
  collects l a → admissible l e → ∃ a', add e a = Ok a' ∧ collects (l ++ [e]) a'.
Proof.
  intros Hc Hadm. destruct e as [b i t|b i t f|b i c n t|b u f|b t s q k|b er p].
  2, 4, 5, 6: exists a; split; [done|]; by apply collects_other.
  - eexists; split; [reflexivity|]. intros j. destruct (Hc j) as [H1 H2]. cbn [acc_text acc_tools].
    unfold argument_deltas, text_deltas in *. rewrite !omap_app. cbn. rewrite app_nil_r. split.
    + destruct (Z.eqb_spec i j) as [->|Hne].
      * rewrite lookup_insert_eq, H1. destruct (omap _ l) as [|x xs]; cbn [default]; [|].
        -- change (Some t = Some (t +:+ "")). by rewrite str_app_nil_r.
        -- exact (f_equal Some (eq_sym (joined_snoc (x :: xs) t))).
      * rewrite lookup_insert_ne by done. by rewrite app_nil_r.
    + destruct (acc_tools a !! j); [|destruct H2 as [H2 H3]; split; [|done]; intros x];
        by rewrite not_call_names.
  - destruct c as [c|], n as [n|]; [|by destruct (adm_identity _ _ Hadm)..].
    pose proof (adm_identity _ _ Hadm) as Hid. cbn in Hid.
    assert (Hput : ∀ raw, raw = joined (argument_deltas i (l ++ [ToolCallDeltaEvent b i (Some c) (Some n) t])) →
      collects (l ++ [ToolCallDeltaEvent b i (Some c) (Some n) t])
        {| acc_text := acc_text a;
           acc_tools := <[i := {| tb_call_id := c; tb_name := n; tb_raw_arguments := raw |}]> (acc_tools a) |}).
    { intros raw Hraw j. destruct (Hc j) as [H1 H2]. cbn [acc_text acc_tools].
      unfold text_deltas in *. rewrite omap_app. cbn. rewrite app_nil_r. split; [done|].
      destruct (decide (i = j)) as [->|Hne].
      - rewrite lookup_insert_eq. cbn. split; [|done]. apply names_call_snoc. right. by exists b, t.
      - rewrite lookup_insert_ne by done. unfold argument_deltas in *. rewrite omap_app. cbn.
        rewrite (proj2 (Z.eqb_neq i j)) by done. cbn. rewrite app_nil_r.
        assert (Hn : ∀ x, names_call (l ++ [ToolCallDeltaEvent b i (Some c) (Some n) t]) j x ↔ names_call l j x).
        { intros x. rewrite names_call_snoc. split; [intros [?|(? & ? & ?)]; [done|congruence]|auto]. }
        destruct (acc_tools a !! j); [by rewrite Hn|]. destruct H2 as [H2 H3]. split; [|done].
        intros x. by rewrite Hn. }
    unfold argument_deltas in Hput. rewrite omap_app in Hput. cbn in Hput.
    rewrite Z.eqb_refl, joined_snoc in Hput. fold (argument_deltas i l) in Hput.
    destruct (Hc i) as [_ H2]. cbn [add]. destruct (acc_tools a !! i) as [buf|].
    + destruct H2 as [Hn Hraw]. apply Hid in Hn. injection Hn as -> ->.
      rewrite !String.eqb_refl. cbn [negb orb]. eexists; split; [reflexivity|]. apply Hput. by rewrite Hraw.
    + destruct H2 as [_ Hraw]. eexists; split; [reflexivity|]. apply Hput. by rewrite Hraw.
Qed.

(** Folding a validated stream never fails and loses nothing: the text of an item
    is the concatenation of its deltas in order, and a tool call has the identity its
    deltas name and the concatenation of their argument text. *)
Theorem accumulated_exact source yielded r :
  validated_stream carries_credential source = (yielded, r) →
  ∃ a, add_all yielded accumulator_start = Ok a ∧ collects yielded a.
Proof.
  intros [H _]%(validate_from_spec [] _ _ _ _ sound_nil tracks_start). cbn in H. clear source r. revert H.
  induction yielded as [|e l IH] using rev_ind.
  - intros _. exists accumulator_start. split; [done|]. intros i. split; [done|]. cbn.
    rewrite lookup_empty. split; [|done]. intros x (b & d & H). by apply not_elem_of_nil in H.
  - intros [Hs Hadm]%sound_snoc. destruct (IH Hs) as (a & Ha & Hc).
    rewrite add_all_snoc, Ha. by apply add_collects.
Qed.
End wellformed.

(** ** Paired conversations *)
Definition calls_of (l : list ConversationItem) : list string :=
  omap (λ x, match x with CallItem c => Some (call_id c) | _ => None end) l.
Definition results_of (l : list ConversationItem) : list string :=
  omap (λ x, match x with ResultItem r => Some (tr_call_id r) | _ => None end) l.
(** Every result of [l] answers a call before it, in [l] or among [cs]. *)
Definition answers_earlier (cs : list string) (l : list ConversationItem) : Prop :=
  ∀ pre r post, l = pre ++ ResultItem r :: post → tr_call_id r ∈ cs ∨ tr_call_id r ∈ calls_of pre.

(** A conversation a provider accepts: distinct calls, each answered once, after it was made. *)
Record paired (l : list ConversationItem) : Prop := {
  paired_calls : NoDup (calls_of l);
  paired_results : NoDup (results_of l);
  paired_order : answers_earlier [] l;
  paired_answered : ∀ c, c ∈ calls_of l → c ∈ results_of l;
}.

Lemma answers_earlier_cons cs x l :
  answers_earlier cs (x :: l) ↔
  match x with
  | CallItem c => answers_earlier (call_id c :: cs) l
  | ResultItem r => tr_call_id r ∈ cs ∧ answers_earlier cs l
  | _ => answers_earlier cs l
  end.
Proof.
  unfold answers_earlier. split.
  - intros H. assert (Hr : ∀ pre r post, l = pre ++ ResultItem r :: post →
      tr_call_id r ∈ cs ∨ tr_call_id r ∈ calls_of (x :: pre)).
    { intros pre r post ->. by apply (H (x :: pre) r post). }
    destruct x; try (intros pre r0 post Hl; apply (Hr _ _ _ Hl)).
    + intros pre r post Hl. destruct (Hr _ _ _ Hl) as [?|Hc]; [left; by constructor|].
      cbn in Hc. apply elem_of_cons in Hc as [->|?]; [left; by constructor|by right].
    + split; [|apply Hr]. destruct (H [] r l eq_refl) as [?|?%not_elem_of_nil]; done.
  - intros H [|y pre] r post Heq; injection Heq as -> ->; [by left; apply H|].
    destruct y; try (by apply (H pre r post)).
    + destruct (H pre r post eq_refl) as [Hc|?]; [|right; by constructor].
      apply elem_of_cons in Hc as [->|?]; [right; by constructor|by left].
    + destruct H as [_ H]. by apply (H pre r post).
Qed.

Lemma pair_items_spec n l cs rs :
  match pair_items n l cs rs with
  | Ok (cs', rs') => cs' = reverse (calls_of l) ++ cs ∧ rs' = reverse (results_of l) ++ rs ∧
      NoDup (calls_of l) ∧ (∀ c, c ∈ calls_of l → c ∉ cs) ∧
      NoDup (results_of l) ∧ (∀ c, c ∈ results_of l → c ∉ rs) ∧ answers_earlier cs l
  | Raise _ => ¬ (NoDup (calls_of l) ∧ (∀ c, c ∈ calls_of l → c ∉ cs) ∧
      NoDup (results_of l) ∧ (∀ c, c ∈ results_of l → c ∉ rs) ∧ answers_earlier cs l)
  end.
Proof.
  revert n cs rs. induction l as [|x l IH]; intros n cs rs.
  - cbn. assert (answers_earlier cs []) by (intros [] r post; done).
    assert (∀ (xs : list string) (c : string), c ∈ [] → c ∉ xs) by (intros xs c ?%not_elem_of_nil; done).
    split_and!; auto using NoDup_nil_2.
  - destruct x as [| | |c|r|]; cbn [pair_items];
      try (specialize (IH (S n) cs rs);
           destruct (pair_items _ _ _ _) as [[cs' rs']|]; rewrite answers_earlier_cons; exact IH).
    + change (calls_of (CallItem c :: l)) with (call_id c :: calls_of l).
      change (results_of (CallItem c :: l)) with (results_of l).
      case_bool_decide as Hin.
      { rewrite NoDup_cons. intros (_ & H & _). by apply (H (call_id c)); [constructor|]. }
      specialize (IH (S n) (call_id c :: cs) rs).
      destruct (pair_items _ _ _ _) as [[cs' rs']|];
        rewrite answers_earlier_cons, NoDup_cons; setoid_rewrite elem_of_cons.
      * destruct IH as (-> & -> & H1 & H2 & H3 & H4 & H5). rewrite ?reverse_cons, <- ?app_assoc.
        split_and!; try done.
        -- intros H. apply H2 in H. by apply H, elem_of_cons; left.
        -- intros x [->|Hx]; [done|]. intros Hx'. apply (H2 x Hx), elem_of_cons. by right.
      * intros ([H0 H1] & H2 & H3 & H4 & H5). apply IH. split_and!; try done.
        intros x Hx [->|Hx']%elem_of_cons; [done|]. by apply (H2 x); auto.
    + change (calls_of (ResultItem r :: l)) with (calls_of l).
      change (results_of (ResultItem r :: l)) with (tr_call_id r :: results_of l).
      case_bool_decide as Hin; cbn [negb].
      2: { rewrite answers_earlier_cons. by intros (_ & _ & _ & _ & [? _]). }
      case_bool_decide as Hin'.
      { intros (_ & _ & _ & H & _). by apply (H (tr_call_id r)); [constructor|]. }
      specialize (IH (S n) cs (tr_call_id r :: rs)).
      destruct (pair_items _ _ _ _) as [[cs' rs']|];
        rewrite answers_earlier_cons, NoDup_cons; setoid_rewrite elem_of_cons.
      * destruct IH as (-> & -> & H1 & H2 & H3 & H4 & H5). rewrite ?reverse_cons, <- ?app_assoc.
        split_and!; try done.
        -- intros H. apply H4 in H. by apply H, elem_of_cons; left.
        -- intros x [->|Hx]; [done|]. intros Hx'. apply (H4 x Hx), elem_of_cons. by right.
      * intros (H1 & H2 & [H3 H3'] & H4 & [H5 H6]). apply IH. split_and!; try done.
        intros x Hx [->|Hx']%elem_of_cons; [done|]. by apply (H4 x); auto.
Qed.

Lemma pairing_accepts l : validate_conversation_pairing l = Ok tt ↔ paired l.
Proof.
  unfold validate_conversation_pairing. pose proof (pair_items_spec 0 l [] []) as H.
  destruct (pair_items 0 l [] []) as [[cs rs]|].
  - destruct H as (-> & -> & H1 & _ & H3 & _ & H5). rewrite !app_nil_r.
    destruct (forallb _ _) eqn:E.
    + split; [|done]. intros _. split; try done. intros c Hc.
      rewrite List.forallb_forall in E. specialize (E c).
      rewrite <- list_elem_of_In, elem_of_reverse in E. specialize (E Hc).
      apply bool_decide_eq_true in E. by rewrite elem_of_reverse in E.
    + split; [done|]. intros [_ _ _ Ha]. exfalso. apply not_true_iff_false in E. apply E.
      apply List.forallb_forall. intros c Hc%list_elem_of_In. rewrite elem_of_reverse in Hc.
      apply bool_decide_eq_true. rewrite elem_of_reverse. by apply Ha.
  - split; [done|]. intros [H1 H3 H5 _]. exfalso. apply H. split_and!; try done; set_solver.
Qed.

(** The pairing check accepts exactly the conversations in which every tool call has
    one result, after it, and every result a call before it, with no id used twice. *)
Theorem pairing_exact l : is_ok (validate_conversation_pairing l) = true ↔ paired l.
Proof.
  rewrite <- pairing_accepts. destruct (validate_conversation_pairing l) as [[]|]; done.
Qed.

(** ** Witnesses *)
Definition sample_base (n : Z) : ModelEventBase :=
  {| me_attempt_id := 1; me_run_id := 2; me_step_number := 1; me_sequence := n |}.
Definition sample_model_usage : ModelUsage :=
  {| u_input_tokens := 5; u_cached_input_tokens := 0; u_cache_write_input_tokens := 0;
     u_cache_write_1h_input_tokens := 0; u_output_tokens := 2; u_reasoning_tokens := None;
     u_cost := Dec 0 0; u_cost_source := CONFIG_OVERRIDE; u_provider := "fake"; u_model := "scripted" |}.
Definition sample_turn : ModelTurn :=
  {| assistant_messages := []; turn_tool_calls := []; provider_reasoning_items := [];
     turn_usage := sample_model_usage; stop_reason := TOOL_USE; provider_metadata := None |}.
Definition sample_stream : list ModelEvent :=
  [TextDeltaEvent (sample_base 0) 0 "a <b"; TextDeltaEvent (sample_base 1) 0 "> c";
   ToolCallDeltaEvent (sample_base 2) 1 (Some "c1") (Some "files.read") "{";
   ToolCallDeltaEvent (sample_base 3) 1 (Some "c1") (Some "files.read") "}";
   ModelCompletedEvent (sample_base 4) sample_turn TOOL_USE None 0].
Definition sample_scan (e : ModelEvent) : bool := false.

Lemma validated_stream_exact_witness :
  ∃ yielded r, validated_stream sample_scan (sample_stream ++ sample_stream) = (yielded, r) ∧
    yielded = sample_stream ∧ is_ok r = false ∧ sound sample_scan yielded.
Proof.
  destruct (validated_stream sample_scan (sample_stream ++ sample_stream)) as [yielded r] eqn:E.
  exists yielded, r. split; [reflexivity|].
  pose proof (validated_stream_exact sample_scan _ _ _ E) as [H _].
  vm_compute in E. injection E as <- <-. split; [reflexivity|]. split; [reflexivity|exact H].
Defined.

Lemma accumulated_exact_witness :
  ∃ yielded r a, validated_stream sample_scan sample_stream = (yielded, r) ∧
    add_all yielded accumulator_start = Ok a ∧ acc_text a !! 0 = Some "a <b> c" ∧
    collects yielded a.
Proof.
  destruct (validated_stream sample_scan sample_stream) as [yielded r] eqn:E.
  destruct (accumulated_exact sample_scan _ _ _ E) as (a & Ha & Hc).
  exists yielded, r, a. split; [reflexivity|]. split; [exact Ha|]. split; [|exact Hc].
  vm_compute in E. injection E as <- <-. vm_compute in Ha. injection Ha as <-. reflexivity.
Defined.
