(* ===== verification/ResponseText.v ===== *)
(** * The reply boundary ([runtime/response_text.py])

    The filter that removes echoed context-envelope markers from streamed text, the
    stream it is applied to, and the fact that makes streaming safe: where the
    provider cuts the text into deltas does not change what is shown. *)
From S2P Require Import Prelude PolicyModel Messages Budgets ModelStream.

Definition QUOTE : string := String "034"%char "".
Definition _OPEN : string := "<untrusted trust=" +:+ QUOTE.
Definition _CLOSE : string := "</untrusted:".
Definition _MAX_MARKER : nat := 1024.

(** ** Matching *)
Definition is_hex (c : Ascii.ascii) : bool :=
  let n := Ascii.N_of_ascii c in ((48 <=? n) && (n <=? 57) || (97 <=? n) && (n <=? 102))%N.
Definition all_chars (ok : Ascii.ascii → bool) (s : string) : bool :=
  forallb ok (String.list_ascii_of_string s).
Definition strip_prefix (p s : string) : option string :=
  if py_startswith p s then Some (str_drop (String.length p) s) else None.
(** The class of a source: neither a quote, an angle bracket nor a line break. *)
Definition source_char (c : Ascii.ascii) : bool :=
  negb (existsb (Ascii.eqb c) ["034"; "<"; ">"; "013"; "010"]%char).
Fixpoint drop_while (ok : Ascii.ascii → bool) (s : string) : string :=
  match s with
  | String c s' => if ok c then drop_while ok s' else s
  | EmptyString => EmptyString
  end.
Definition hex_then (tail s : string) : bool :=
  (String.length s =? 12 + String.length tail)%nat &&
  all_chars is_hex (String.substring 0 12 s) && String.eqb (str_drop 12 s) tail.

(** [_MARKER.fullmatch(s)]; the source class has no quote, so its match is unique. *)
Definition _MARKER (s : string) : bool :=
  existsb (λ t,
    match strip_prefix (_OPEN +:+ TrustLevel_value t +:+ QUOTE +:+ " source=" +:+ QUOTE) s with
    | Some rest =>
        match strip_prefix (QUOTE +:+ " nonce=" +:+ QUOTE) (drop_while source_char rest) with
        | Some nonce => hex_then (QUOTE +:+ ">") nonce
        | None => false
        end
    | None => false
    end) TrustLevels ||
  match strip_prefix _CLOSE s with Some nonce => hex_then ">" nonce | None => false end.

(** [text.partition] at the first quote. *)
Fixpoint partition_quote (s : string) : string * bool * string :=
  match s with
  | EmptyString => (EmptyString, false, EmptyString)
  | String c s' =>
      if Ascii.eqb c "034" then (EmptyString, true, s')
      else let '(a, found, b) := partition_quote s' in (String c a, found, b)
  end.
(** The loop over [TrustLevel]; [None] is its falling through. *)
Fixpoint truncated_open (text : string) (levels : list TrustLevel) : bool :=
  match levels with
  | [] => false
  | t :: levels =>
      let prefix := _OPEN +:+ TrustLevel_value t +:+ QUOTE +:+ " source=" +:+ QUOTE in
      if py_startswith text prefix then true
      else match strip_prefix prefix text with
           | Some rest =>
               let '(source, separator, suffix) := partition_quote rest in
               if existsb (λ c, str_has c source) ["<"; ">"; "013"; "010"]%char then false
               else if negb separator || py_startswith suffix (" nonce=" +:+ QUOTE) then true
               else match strip_prefix (" nonce=" +:+ QUOTE) suffix with
                    | Some nonce =>
                        (String.length nonce <=? 12)%nat && all_chars is_hex nonce ||
                        hex_then QUOTE nonce
                    | None => false
                    end
           | None => truncated_open text levels
           end
  end.
Definition _truncated_marker (text : string) : bool :=
  match strip_prefix _CLOSE text with
  | Some nonce => (String.length nonce <=? 12)%nat && all_chars is_hex nonce
  | None => if negb (py_startswith _OPEN text) then false else truncated_open text TrustLevels
  end.

(** ** [_EnvelopeFilter] *)

(** [s.find(c, 0, limit)] *)
Fixpoint find_char (c : Ascii.ascii) (limit : nat) (s : string) : option nat :=
  match limit, s with
  | O, _ | _, EmptyString => None
  | S limit, String x s => if Ascii.eqb x c then Some 0%nat else S <$> find_char c limit s
  end.
(** [remaining[:start]] and [remaining[start:]] for the first [<]. *)
Fixpoint split_at_open (s : string) : string * string :=
  match s with
  | EmptyString => (EmptyString, EmptyString)
  | String c s' =>
      if Ascii.eqb c "<" then (EmptyString, s)
      else let '(a, b) := split_at_open s' in (String c a, b)
  end.

Definition could_be_marker (remaining : string) : bool :=
  existsb (λ prefix, py_startswith remaining prefix || py_startswith prefix remaining) [_OPEN; _CLOSE].

(** What the loop does with a remainder that begins with [<]. *)
Inductive verdict := REMOVE (upto : nat) | HOLD | RELEASE.
Definition judge (remaining : string) : verdict :=
  if could_be_marker remaining then
    match find_char ">" _MAX_MARKER remaining with
    | Some e => if _MARKER (String.substring 0 (e + 1) remaining) then REMOVE (e + 1) else RELEASE
    | None => if (String.length remaining <? _MAX_MARKER)%nat then HOLD else RELEASE
    end
  else RELEASE.

(** The [while remaining] loop: the joined output and the new pending text; [None]
    is running out of fuel. *)
Fixpoint feed_loop (fuel : nat) (remaining : string) : option (string * string) :=
  match fuel with
  | O => None
  | S fuel =>
      match remaining with
      | EmptyString => Some (EmptyString, EmptyString)
      | _ =>
          let '(before, rest) := split_at_open remaining in
          match rest with
          | EmptyString => Some (before, EmptyString)
          | String c rest' =>
              match judge rest with
              | REMOVE n => '(o, p) ← feed_loop fuel (str_drop n rest); Some (before +:+ o, p)
              | HOLD => Some (before, rest)
              | RELEASE => '(o, p) ← feed_loop fuel rest'; Some (before +:+ "<" +:+ o, p)
              end
          end
      end
  end.
(** [feed(text)] with [pending] text held back: one iteration per character is enough. *)
Definition feed (pending text : string) : string * string :=
  let remaining := pending +:+ text in
  default (EmptyString, EmptyString) (feed_loop (S (String.length remaining)) remaining).
Definition finish (pending : string) : string :=
  if _truncated_marker pending then EmptyString else pending.

Definition clean_response_text (text : string) : string :=
  let '(out, pending) := feed EmptyString text in out +:+ finish pending.

(** [_clean_message]: the content so far, the text part being filtered, if any, and
    what the filter holds. *)
Fixpoint clean_parts (parts : list ContentPart) (last_text : option string) (pending : string)
    : list ContentPart :=
  match parts with
  | [] => match last_text with Some t => [TextPart (t +:+ finish pending)] | None => [] end
  | TextPart t :: parts =>
      let '(out, pending) := feed pending t in
      match last_text with Some t => [TextPart t] | None => [] end ++
      clean_parts parts (Some out) pending
  | part :: parts =>
      match last_text with
      | Some t => [TextPart (t +:+ finish pending); part] ++ clean_parts parts None EmptyString
      | None => part :: clean_parts parts None pending
      end
  end.
Definition _clean_message (m : AssistantMessage) : AssistantMessage :=
  {| am_content := clean_parts (am_content m) None EmptyString; am_item_index := am_item_index m;
     am_trust := am_trust m; am_source_event_sequence := am_source_event_sequence m |}.
Definition _clean_turn (t : ModelTurn) : ModelTurn :=
  {| assistant_messages := map _clean_message (assistant_messages t);
     turn_tool_calls := turn_tool_calls t; provider_reasoning_items := provider_reasoning_items t;
     turn_usage := turn_usage t; stop_reason := stop_reason t;
     provider_metadata := provider_metadata t |}.

(** ** [response_text_stream] *)
Definition at_sequence (n : Z) (b : ModelEventBase) : ModelEventBase :=
  {| me_attempt_id := me_attempt_id b; me_run_id := me_run_id b;
     me_step_number := me_step_number b; me_sequence := n |}.
Definition renumbered (n : Z) (e : ModelEvent) : ModelEvent :=
  match e with
  | TextDeltaEvent b i t => TextDeltaEvent (at_sequence n b) i t
  | ReasoningDeltaEvent b i t s => ReasoningDeltaEvent (at_sequence n b) i t s
  | ToolCallDeltaEvent b i c m d => ToolCallDeltaEvent (at_sequence n b) i c m d
  | UsageEvent b u f => UsageEvent (at_sequence n b) u f
  | ModelCompletedEvent b t s q k => ModelCompletedEvent (at_sequence n b) t s q k
  | ModelFailedEvent b er p => ModelFailedEvent (at_sequence n b) er p
  end.

Record text_filter := {
  scrubber : string;
  active : option (ModelEventBase * Z);
  emitted : Z;
}.
Definition text_filter_start : text_filter := {| scrubber := ""; active := None; emitted := 0 |}.

Definition closes (e : ModelEvent) (item : Z) : bool :=
  is_terminal_event e ||
  match delta_of e with Some (i, _) => negb (i =? item) | None => false end.

(** The flush of a text item that [e] closes. *)
Definition flush_active (e : ModelEvent) (f : text_filter) : list ModelEvent * text_filter :=
  match active f with
  | Some (b, item) =>
      if closes e item then
        let tail := finish (scrubber f) in
        if String.eqb tail "" then ([], {| scrubber := ""; active := None; emitted := emitted f |})
        else ([TextDeltaEvent (at_sequence (emitted f) b) item tail],
              {| scrubber := ""; active := None; emitted := emitted f + 1 |})
      else ([], f)
  | None => ([], f)
  end.
Definition filter_event (e : ModelEvent) (f : text_filter) : list ModelEvent * text_filter :=
  let '(flushed, f) := flush_active e f in
  let pass e := (flushed ++ [renumbered (emitted f) e],
                 {| scrubber := scrubber f; active := active f; emitted := emitted f + 1 |}) in
  match e with
  | TextDeltaEvent b i t =>
      let '(text, pending) := feed (scrubber f) t in
      if String.eqb text ""
      then (flushed, {| scrubber := pending; active := Some (b, i); emitted := emitted f |})
      else (flushed ++ [TextDeltaEvent (at_sequence (emitted f) b) i text],
            {| scrubber := pending; active := Some (b, i); emitted := emitted f + 1 |})
  | ModelCompletedEvent b t s q k => pass (ModelCompletedEvent b (_clean_turn t) s q k)
  | ModelFailedEvent b er (Some p) => pass (ModelFailedEvent b er (Some (_clean_turn p)))
  | e => pass e
  end.
(** The events yielded for those of an already validated attempt. *)
Fixpoint filter_events (es : list ModelEvent) (f : text_filter) : list ModelEvent * text_filter :=
  match es with
  | [] => ([], f)
  | e :: es =>
      let '(out, f) := filter_event e f in
      let '(rest, f) := filter_events es f in (out ++ rest, f)
  end.
Definition response_text_stream (source : list ModelEvent * result unit)
    : list ModelEvent * result unit :=
  ((filter_events source.1 text_filter_start).1, source.2).

(** ** The loop terminates *)
Lemma judge_remove r n : judge r = REMOVE n → (0 < n)%nat.
Proof.
  unfold judge. destruct (could_be_marker r); [|done]. destruct (find_char _ _ r).
  - destruct (_MARKER _); [|done]. intros [= <-]. lia.
  - by destruct (_ <? _)%nat.
Qed.
Lemma str_drop_length n s : String.length (str_drop n s) = (String.length s - n)%nat.
Proof. revert n. induction s as [|c s IH]; intros [|n]; cbn; auto. Qed.
Lemma split_at_open_app s : let '(a, b) := split_at_open s in s = a +:+ b.
Proof.
  induction s as [|c s IH]; [done|]. cbn. destruct (Ascii.eqb c "<"); [done|].
  destruct (split_at_open s) as [a b]. by rewrite IH at 1.
Qed.

Lemma feed_loop_enough fuel r :
  (String.length r < fuel)%nat → ∃ x, ∀ fuel', (String.length r < fuel')%nat → feed_loop fuel' r = Some x.
Proof.
  revert r. induction fuel as [|fuel IH]; intros r Hr; [lia|].
  destruct r as [|c r]; [exists ("", ""); intros [|f] ?; [lia|done]|].
  destruct (split_at_open (String c r)) as [before rest] eqn:Hs.
  pose proof (split_at_open_app (String c r)) as Hlen. rewrite Hs in Hlen.
  apply (f_equal String.length) in Hlen. rewrite str_length_app in Hlen.
  cbn [String.length] in Hr, Hlen.
  destruct rest as [|x rest].
  { exists (before, ""). intros [|f] ?; [lia|]. cbn [feed_loop]. by rewrite Hs. }
  cbn [String.length] in Hlen. destruct (judge (String x rest)) as [n| |] eqn:Hj.
  - apply judge_remove in Hj as Hn. destruct (IH (str_drop n (String x rest))) as [[o p] Ho].
    { rewrite str_drop_length. cbn [String.length]. lia. }
    exists (before +:+ o, p). intros [|f] Hf; [lia|]. cbn [String.length] in Hf. cbn [feed_loop].
    rewrite Hs, Hj, Ho; [done|]. rewrite str_drop_length. cbn [String.length]. lia.
  - exists (before, String x rest). intros [|f] ?; [lia|]. cbn [feed_loop]. by rewrite Hs, Hj.
  - destruct (IH rest) as [[o p] Ho]; [lia|].
    exists (before +:+ "<" +:+ o, p). intros [|f] Hf; [lia|]. cbn [String.length] in Hf.
    cbn [feed_loop]. rewrite Hs, Hj, Ho; [done|lia].
Qed.

(** The filter's loop always ends, within one iteration per character plus one:
    feeding never runs out of the fuel [feed] gives it. *)
Theorem feed_terminates pending text :
  feed_loop (S (String.length (pending +:+ text))) (pending +:+ text) = Some (feed pending text).
Proof.
  unfold feed. cbv zeta. set (r := pending +:+ text).
  destruct (feed_loop_enough (S (String.length r)) r) as [x Hx]; [lia|]. by rewrite Hx by lia.
Qed.

(** ** The loop, character by character *)
Lemma feed_at fuel r : (String.length r < fuel)%nat → feed_loop fuel r = Some (feed "" r).
Proof.
  intros Hf. destruct (feed_loop_enough fuel r Hf) as [x Hx]. unfold feed. cbv zeta.
  change ("" +:+ r) with r. by rewrite !Hx by lia.
Qed.
Lemma feed_split pending text : feed pending text = feed "" (pending +:+ text).
Proof. done. Qed.
Lemma feed_nil : feed "" "" = ("", "").
Proof. done. Qed.
Lemma feed_unfold c s :
  feed "" (String c s) =
  let '(before, rest) := split_at_open (String c s) in
  match rest with
  | EmptyString => (before, "")
  | String _ rest' =>
      match judge rest with
      | REMOVE n => let '(o, p) := feed "" (str_drop n rest) in (before +:+ o, p)
      | HOLD => (before, rest)
      | RELEASE => let '(o, p) := feed "" rest' in (before +:+ "<" +:+ o, p)
      end
  end.
Proof.
  apply (inj Some). rewrite <- (feed_at (S (String.length (String c s)))) by lia.
  remember (String.length (String c s)) as fuel eqn:Hfuel. cbn [feed_loop].
  pose proof (split_at_open_app (String c s)) as Hlen.
  destruct (split_at_open (String c s)) as [before rest].
  apply (f_equal String.length) in Hlen. rewrite str_length_app, <- Hfuel in Hlen.
  destruct rest as [|x rest]; [done|]. cbn [String.length] in Hlen.
  destruct (judge (String x rest)) as [n| |] eqn:Hj; [|done|].
  - apply judge_remove in Hj. rewrite feed_at; [by destruct (feed "" (str_drop n _))|].
    rewrite str_drop_length. cbn [String.length]. cbn in Hfuel. lia.
  - rewrite feed_at by (cbn in Hfuel; lia). by destruct (feed "" rest).
Qed.
Lemma feed_open s :
  feed "" (String "<" s) =
  match judge (String "<" s) with
  | REMOVE n => feed "" (str_drop n (String "<" s))
  | HOLD => ("", String "<" s)
  | RELEASE => (String "<" (feed "" s).1, (feed "" s).2)
  end.
Proof.
  rewrite feed_unfold. change (split_at_open (String "<" s)) with ("", String "<" s). cbv iota beta.
  destruct (judge (String "<" s)) as [n| |]; [|done|].
  - by destruct (feed "" (str_drop n _)).
  - by destruct (feed "" s).
Qed.
Lemma feed_plain c s :
  c ≠ "<"%char → feed "" (String c s) = (String c (feed "" s).1, (feed "" s).2).
Proof.
  intros Hc%Ascii.eqb_neq. rewrite feed_unfold. cbn [split_at_open]. rewrite Hc.
  destruct s as [|d s]; [done|]. rewrite (feed_unfold d s).
  destruct (split_at_open (String d s)) as [a [|x b]]; [done|].
  destruct (judge (String x b)) as [n| |]; [|done|].
  - by destruct (feed "" (str_drop n _)).
  - by destruct (feed "" b).
Qed.

(** ** A verdict other than holding back does not depend on what follows *)
Lemma prefix_of_app p s t : py_startswith p s = true → py_startswith p (s +:+ t) = true.
Proof.
  revert s. induction p as [|a p IH]; intros [|b s]; try done.
  rewrite str_app_String. cbn. intros [Ha Hp]%andb_true_iff. by rewrite Ha, IH.
Qed.
(** A prefix of a concatenation is a prefix of its head, or the other way round. *)
Lemma startswith_split p s t :
  py_startswith p (s +:+ t) = true → py_startswith p s = true ∨ py_startswith s p = true.
Proof.
  revert s. induction p as [|a p IH]; intros [|b s]; [auto..|].
  rewrite str_app_String. cbn. intros [Ha Hp]%andb_true_iff. rewrite Ha. apply Ascii.eqb_eq in Ha as ->.
  rewrite Ascii.eqb_refl. by apply IH.
Qed.
Lemma startswith_cut p s t : py_startswith (s +:+ t) p = true → py_startswith s p = true.
Proof.
  revert p. induction s as [|b s IH]; intros [|a p]; try done.
  rewrite str_app_String. cbn. intros [Ha Hp]%andb_true_iff. rewrite Ha. by apply IH.
Qed.
Lemma startswith_has p s c : py_startswith s p = true → str_has c s = true → str_has c p = true.
Proof.
  revert p. induction s as [|b s IH]; intros [|a p]; try done.
  cbn. intros [->%Ascii.eqb_eq Hp]%andb_true_iff. destruct (Ascii.eqb a c); [done|]. by apply IH.
Qed.

Lemma find_char_app c n s t e : find_char c n s = Some e → find_char c n (s +:+ t) = Some e.
Proof.
  revert s e. induction n as [|n IH]; intros [|x s] e; try done.
  rewrite str_app_String. cbn. destruct (Ascii.eqb x c); [done|].
  destruct (find_char c n s) as [k|] eqn:E; [|done]. intros [= <-]. by rewrite (IH _ _ E).
Qed.
Lemma find_char_none_app c n s t :
  find_char c n s = None → (n ≤ String.length s)%nat → find_char c n (s +:+ t) = None.
Proof.
  revert s. induction n as [|n IH]; intros [|x s]; try (cbn; lia); try done.
  rewrite str_app_String. cbn. destruct (Ascii.eqb x c); [done|].
  destruct (find_char c n s) eqn:E; [done|]. intros _ Hl. rewrite IH; [done..|lia].
Qed.
Lemma find_char_some c n s e :
  find_char c n s = Some e → (e < String.length s)%nat ∧ str_has c s = true.
Proof.
  revert s e. induction n as [|n IH]; intros [|x s] e; try done. cbn.
  destruct (Ascii.eqb x c); [intros [= <-]; split; [lia|done]|].
  destruct (find_char c n s) as [k|] eqn:E; [|done]. intros [= <-].
  destruct (IH _ _ E). split; [lia|done].
Qed.
Lemma substring_app n s t :
  (n ≤ String.length s)%nat → String.substring 0 n (s +:+ t) = String.substring 0 n s.
Proof.
  revert s. induction n as [|n IH]; intros [|x s] Hn; try (cbn in Hn; lia).
  - by destruct t.
  - done.
  - rewrite str_app_String. cbn. f_equal. apply IH. cbn in Hn. lia.
Qed.

Lemma could_be_app_false s t : could_be_marker s = false → could_be_marker (s +:+ t) = false.
Proof.
  unfold could_be_marker. rewrite <- !not_true_iff_false, !List.existsb_exists.
  intros H (p & Hp & [Hs|Hs]%orb_true_iff); apply H; exists p; (split; [done|]); apply orb_true_iff.
  - left. by eapply startswith_cut.
  - apply startswith_split in Hs as [?|?]; auto.
Qed.
(** With a [>] in it, a candidate has a whole marker head. *)
Lemma could_be_app_true s t :
  could_be_marker s = true → str_has ">" s = true → could_be_marker (s +:+ t) = true.
Proof.
  unfold could_be_marker. rewrite !List.existsb_exists. intros (p & Hp & Hs) Hgt.
  exists p. split; [done|]. apply orb_true_iff. apply orb_true_iff in Hs as [Hs|Hs].
  - eapply startswith_has in Hgt; [|done]. destruct Hp as [<-|[<-|[]]]; discriminate.
  - right. by apply prefix_of_app.
Qed.

Lemma judge_stable s t :
  match judge s with
  | HOLD => True
  | REMOVE n => judge (s +:+ t) = REMOVE n ∧ (n ≤ String.length s)%nat
  | RELEASE => judge (s +:+ t) = RELEASE
  end.
Proof.
  unfold judge. destruct (could_be_marker s) eqn:Hc; [|by rewrite could_be_app_false].
  destruct (find_char ">" _MAX_MARKER s) as [e|] eqn:Hf.
  - destruct (find_char_some _ _ _ _ Hf) as [He Hgt].
    rewrite (could_be_app_true s t Hc Hgt), (find_char_app _ _ _ _ _ Hf), substring_app by lia.
    destruct (_MARKER _); [|done]. split; [done|lia].
  - destruct (String.length s <? _MAX_MARKER)%nat eqn:Hl; [done|]. apply Nat.ltb_ge in Hl.
    destruct (could_be_marker (s +:+ t)); [|done].
    rewrite find_char_none_app by done. rewrite str_length_app.
    rewrite (proj2 (Nat.ltb_ge _ _)); [done|lia].
Qed.

Lemma str_drop_app n s t :
  (n ≤ String.length s)%nat → str_drop n (s +:+ t) = str_drop n s +:+ t.
Proof.
  revert n. induction s as [|x s IH]; intros [|n] Hn; try done; cbn in Hn; [lia|].
  rewrite str_app_String. cbn. apply IH. lia.
Qed.

(** Feeding in two goes is feeding at once. *)
Lemma feed_app s t :
  feed "" (s +:+ t) =
  let '(o1, p1) := feed "" s in let '(o2, p2) := feed p1 t in (o1 +:+ o2, p2).
Proof.
  remember (String.length s) as n eqn:Hn. revert s Hn.
  induction n as [n IH] using (well_founded_induction lt_wf). intros s ->.
  destruct s as [|c s]; [change ("" +:+ t) with t; rewrite feed_nil; by destruct (feed "" t)|].
  destruct (decide (c = "<"%char)) as [->|Hc].
  - rewrite str_app_String, !feed_open. rewrite <- str_app_String.
    pose proof (judge_stable (String "<" s) t) as Hj.
    destruct (judge (String "<" s)) as [k| |] eqn:Hk.
    + destruct Hj as [-> Hle]. rewrite str_drop_app by done.
      apply (IH (String.length (str_drop k (String "<" s)))); [|done].
      apply judge_remove in Hk. rewrite str_drop_length. cbn [String.length]. lia.
    + rewrite (feed_split (String "<" s) t), str_app_String, feed_open.
      destruct (judge (String "<" (s +:+ t))); [by destruct (feed "" _)|done|].
      by destruct (feed "" (s +:+ t)).
    + rewrite Hj. rewrite (IH (String.length s)); [|cbn [String.length]; lia|done].
      destruct (feed "" s) as [o1 p1]. cbn [fst snd]. destruct (feed p1 t). reflexivity.
  - rewrite str_app_String, !feed_plain by done.
    rewrite (IH (String.length s)); [|cbn [String.length]; lia|done].
    destruct (feed "" s) as [o1 p1]. cbn [fst snd]. destruct (feed p1 t). reflexivity.
Qed.

(** Feeding the deltas of one item, one after another. *)
Fixpoint feed_chunks (pending : string) (chunks : list string) : string * string :=
  match chunks with
  | [] => ("", pending)
  | t :: chunks =>
      let '(o1, p1) := feed pending t in
      let '(o2, p2) := feed_chunks p1 chunks in (o1 +:+ o2, p2)
  end.

(** What is held back would be held back again, and is short. *)
Definition held (p : string) : Prop := feed "" p = ("", p) ∧ (String.length p < _MAX_MARKER)%nat.

Lemma feed_held s : held (feed "" s).2.
Proof.
  remember (String.length s) as n eqn:Hn. revert s Hn.
  induction n as [n IH] using (well_founded_induction lt_wf). intros s ->.
  destruct s as [|c s]; [split; [done|apply Nat.ltb_lt; reflexivity]|].
  destruct (decide (c = "<"%char)) as [->|Hc].
  - rewrite feed_open. destruct (judge (String "<" s)) as [k| |] eqn:Hk.
    + apply (IH (String.length (str_drop k (String "<" s)))); [|done].
      apply judge_remove in Hk. rewrite str_drop_length. cbn [String.length]. lia.
    + cbn [snd]. split; [by rewrite feed_open, Hk|]. unfold judge in Hk.
      destruct (could_be_marker _); [|done]. destruct (find_char _ _ _).
      * by destruct (_MARKER _).
      * destruct (_ <? _)%nat eqn:E; [|done]. by apply Nat.ltb_lt.
    + apply (IH (String.length s)); [cbn [String.length]; lia|done].
  - rewrite feed_plain by done. apply (IH (String.length s)); [cbn [String.length]; lia|done].
Qed.

Lemma feed_chunks_joined p chunks : held p → feed_chunks p chunks = feed p (joined chunks).
Proof.
  revert p. induction chunks as [|t chunks IH]; intros p Hp.
  - rewrite feed_split. change (joined []) with "". by rewrite str_app_nil_r, (proj1 Hp).
  - cbn [feed_chunks]. rewrite joined_cons, (feed_split p (t +:+ _)), <- str_app_assoc, feed_app.
    rewrite (feed_split p t). pose proof (feed_held (p +:+ t)) as Hh.
    destruct (feed "" (p +:+ t)) as [o1 p1]. cbn [snd] in Hh. by rewrite (IH p1 Hh).
Qed.

(** What a reader is shown does not depend on where the provider cut the stream:
    filtering the deltas of a text one by one, and flushing at the end, gives exactly
    the filtered whole text; and no more than a marker's length is ever held back. *)
Theorem filter_chunk_invariant chunks :
  let '(out, pending) := feed_chunks "" chunks in
  out +:+ finish pending = clean_response_text (joined chunks) ∧
  (String.length pending < _MAX_MARKER)%nat.
Proof.
  rewrite feed_chunks_joined by (split; [done|apply Nat.ltb_lt; reflexivity]).
  unfold clean_response_text. pose proof (feed_held (joined chunks)) as [_ Hh].
  rewrite (feed_split "" (joined chunks)). change ("" +:+ ?x) with x.
  by destruct (feed "" (joined chunks)).
Qed.

(** ** The filtered stream *)
Definition is_text (e : ModelEvent) : bool :=
  match e with TextDeltaEvent _ _ _ => true | _ => false end.
Definition others (l : list ModelEvent) : list ModelEvent := List.filter (λ e, negb (is_text e)) l.
(** An event as the filter passes it on, up to its sequence. *)
Definition cleaned (e : ModelEvent) : ModelEvent :=
  renumbered 0 match e with
               | ModelCompletedEvent b t s q k => ModelCompletedEvent b (_clean_turn t) s q k
               | ModelFailedEvent b er (Some p) => ModelFailedEvent b er (Some (_clean_turn p))
               | e => e
               end.
Definition text_of (i : Z) (l : list ModelEvent) : string := joined (text_deltas i l).

Lemma text_of_snoc i l e :
  text_of i (l ++ [e]) =
  match e with TextDeltaEvent _ j t => if j =? i then text_of i l +:+ t else text_of i l
  | _ => text_of i l end.
Proof.
  unfold text_of, text_deltas. rewrite omap_app, joined_app.
  destruct e as [b j t| | | | |]; cbn [omap list_omap];
    [destruct (j =? i); cbn iota; [by rewrite joined_single|]|..];
    change (joined []) with ""; by rewrite str_app_nil_r.
Qed.
Lemma others_snoc l e : others (l ++ [e]) = others l ++ (if is_text e then [] else [e]).
Proof. unfold others. rewrite List.filter_app. cbn. by destruct (is_text e). Qed.
Lemma text_of_absent i l : i ∉ (deltas l).*1 → text_of i l = "".
Proof.
  induction l as [|e l IH] using rev_ind; [done|]. rewrite text_of_snoc, deltas_app, fmap_app, deltas_single.
  rewrite not_elem_of_app. intros [Hl He]. destruct e as [b j t| | | | |]; try by apply IH.
  destruct (Z.eqb_spec j i) as [->|]; [|by apply IH]. cbn in He. set_solver.
Qed.

Definition numbered (out : list ModelEvent) : Prop :=
  ∀ n e, out !! n = Some e → sequence e = Z.of_nat n.
Lemma numbered_snoc out e : numbered out → sequence e = Z.of_nat (length out) → numbered (out ++ [e]).
Proof.
  intros H He n x [Hx|[Hn Hx]]%lookup_app_Some; [by apply H|].
  apply list_lookup_singleton_Some in Hx as [Hz <-]. rewrite He. lia.
Qed.
Lemma sequence_renumbered n e : sequence (renumbered n e) = n.
Proof. by destruct e. Qed.

(** What every item but the one being filtered has shown, and the rest of the stream. *)
Record shown (open : option Z) (l out : list ModelEvent) (f : text_filter) : Prop := {
  shown_numbered : numbered out;
  shown_emitted : emitted f = Z.of_nat (length out);
  shown_closed : ∀ i, open ≠ Some i → text_of i out = clean_response_text (text_of i l);
  shown_others : map (renumbered 0) (others out) = map cleaned (others l);
}.
(** The state between two events. *)
Definition filtering (l out : list ModelEvent) (f : text_filter) : Prop :=
  shown (snd <$> active f) l out f ∧
  match active f with
  | Some (_, i) => last (deltas l) = Some (i, TEXT_DELTA) ∧ ¬ terminated l ∧
                   feed "" (text_of i l) = (text_of i out, scrubber f)
  | None => scrubber f = "" ∧ (terminated l ∨ ∀ i, last (deltas l) ≠ Some (i, TEXT_DELTA))
  end.
(** The state once [e] has closed what it closes. *)
Definition ready (e : ModelEvent) (l out : list ModelEvent) (f : text_filter) : Prop :=
  shown (snd <$> active f) l out f ∧
  match active f with
  | Some (_, i) => closes e i = false ∧ last (deltas l) = Some (i, TEXT_DELTA) ∧
                   feed "" (text_of i l) = (text_of i out, scrubber f)
  | None => scrubber f = "" ∧ (∀ b i t, e = TextDeltaEvent b i t → text_of i l = "") ∧
            (delta_of e = None → is_terminal_event e = false →
             ∀ i, last (deltas l) ≠ Some (i, TEXT_DELTA))
  end.

Section filtered.
Context (carries_credential : ModelEvent → bool).
Abbreviation adm := (admissible carries_credential).

Lemma flush_ready e l out f flushed f' :
  adm l e → filtering l out f → flush_active e f = (flushed, f') → ready e l (out ++ flushed) f'.
Proof.
  intros Hadm [Hs Ha] Hf. unfold flush_active in Hf.
  assert (Hfresh : ∀ b i t j, e = TextDeltaEvent b i t → last (deltas l) = Some (j, TEXT_DELTA) →
            i ≠ j → text_of i l = "").
  { intros b i t j -> Hl Hne. apply text_of_absent. intros Hin.
    pose proof (adm_item _ _ _ Hadm (i, TEXT_DELTA) eq_refl Hin). congruence. }
  destruct (active f) as [[b i]|] eqn:Hact.
  - destruct Ha as (Hl & Ho & Hfeed). destruct (closes e i) eqn:Hc.
    + assert (Hready : ∀ f'', active f'' = None → scrubber f'' = "" →
        shown None l (out ++ flushed) f'' → ready e l (out ++ flushed) f'').
      { intros f'' H1 H2 H3. unfold ready. rewrite H1. split; [done|]. split; [done|]. split.
        - intros b' j t ->. eapply Hfresh; [done|exact Hl|]. intros ->. unfold closes in Hc.
          cbn in Hc. by rewrite Z.eqb_refl in Hc.
        - intros Hd Ht. unfold closes in Hc. by rewrite Hd, Ht in Hc. }
      assert (Hi : clean_response_text (text_of i l) = text_of i out +:+ finish (scrubber f)).
      { unfold clean_response_text. by rewrite Hfeed. }
      destruct Hs as [Hn He Hcl Hot]. cbv zeta in Hf.
      destruct (String.eqb_spec (finish (scrubber f)) "") as [Hfin|Hfin]; injection Hf as <- <-.
      * rewrite app_nil_r in *. apply Hready; [done..|]. split; [done..| |done].
        intros j _. destruct (decide (i = j)) as [->|Hne]; [|apply Hcl; cbn; congruence].
        by rewrite Hi, Hfin, str_app_nil_r.
      * apply Hready; [done..|]. split; cbn.
        -- apply numbered_snoc; [done|]. exact He.
        -- rewrite length_app. cbn. lia.
        -- intros j _. rewrite text_of_snoc. destruct (Z.eqb_spec i j) as [->|Hne]; [by rewrite Hi|].
           apply Hcl. cbn. congruence.
        -- by rewrite others_snoc, app_nil_r.
    + injection Hf as <- <-. rewrite app_nil_r. unfold ready. rewrite Hact. auto.
  - injection Hf as <- <-. rewrite app_nil_r. unfold ready. rewrite Hact.
    destruct Ha as [Hsc Hl]. split; [done|]. split; [done|].
    assert (Hl' : ∀ i, last (deltas l) ≠ Some (i, TEXT_DELTA)).
    { destruct Hl as [Ht|?]; [|done]. by destruct (adm_open _ _ _ Hadm). }
    split; [|done]. intros b i t ->. apply text_of_absent. intros Hin.
    by apply (Hl' i), (adm_item _ _ _ Hadm (i, TEXT_DELTA) eq_refl).
Qed.

(** Passing an event that is not text through. *)
Lemma pass_filtering e l out f :
  adm l e → is_text e = false → ready e l out f →
  filtering (l ++ [e]) (out ++ [renumbered (emitted f)
     match e with
     | ModelCompletedEvent b t s q k => ModelCompletedEvent b (_clean_turn t) s q k
     | ModelFailedEvent b er (Some p) => ModelFailedEvent b er (Some (_clean_turn p))
     | e => e
     end])
    {| scrubber := scrubber f; active := active f; emitted := emitted f + 1 |}.
Proof.
  intros Hadm Htext [[Hn He Hcl Hot] Ha].
  match goal with |- context [renumbered _ ?x] => set (e' := x) end.
  assert (He' : is_text e' = false ∧ renumbered 0 (renumbered (emitted f) e') = cleaned e).
  { subst e'. destruct e as [| | | | |b er [p|]]; done. }
  destruct He' as [Ht' Hr'].
  assert (Htr : is_text (renumbered (emitted f) e') = false) by (by destruct e').
  assert (Hl : ∀ i, text_of i (l ++ [e]) = text_of i l) by (intros i; rewrite text_of_snoc; by destruct e).
  assert (Ho : ∀ i, text_of i (out ++ [renumbered (emitted f) e']) = text_of i out).
  { intros i. rewrite text_of_snoc. by destruct (renumbered (emitted f) e'). }
  split.
  - split; cbn.
    + apply numbered_snoc; [done|]. by rewrite sequence_renumbered.
    + rewrite length_app. cbn. lia.
    + intros i Hi. rewrite Hl, Ho. by apply Hcl.
    + rewrite !others_snoc, Htr, Htext, !map_app, Hot. cbn. by rewrite Hr'.
  - cbn. destruct (active f) as [[b i]|].
    + destruct Ha as (Hc & Hlast & Hfeed). rewrite Hl, Ho, deltas_app, deltas_single, terminated_snoc.
      apply orb_false_iff in Hc as [Hterm Hitem]. destruct (delta_of e) as [[j k]|] eqn:Hd.
      * apply negb_false_iff, Z.eqb_eq in Hitem as ->. exfalso.
        assert (Hin : i ∈ (deltas l).*1).
        { apply list_elem_of_fmap. exists (i, TEXT_DELTA). split; [done|]. by apply last_Some_elem_of. }
        pose proof (adm_item _ _ _ Hadm (i, k) Hd Hin) as Hk. rewrite Hlast in Hk. injection Hk as <-.
        by destruct e.
      * rewrite app_nil_r. split_and!; [done| |done]. by rewrite Hterm.
    + destruct Ha as (Hsc & _ & Hu). split; [done|]. rewrite terminated_snoc, deltas_app, deltas_single.
      destruct (is_terminal_event e) eqn:Hterm; [by left|right]. intros i.
      destruct (delta_of e) as [d|] eqn:Hd.
      * rewrite last_snoc. intros [= ->]. destruct e; done.
      * rewrite app_nil_r. by apply Hu.
Qed.

Lemma filter_event_filtering e l out f o f' :
  adm l e → filtering l out f → filter_event e f = (o, f') → filtering (l ++ [e]) (out ++ o) f'.
Proof.
  intros Hadm Hf. unfold filter_event. destruct (flush_active e f) as [flushed g] eqn:Hflush.
  pose proof (flush_ready _ _ _ _ _ _ Hadm Hf Hflush) as Hr. clear Hf Hflush f.
  assert (Hpass : is_text e = false →
    filtering (l ++ [e]) (out ++ flushed ++ [renumbered (emitted g)
      match e with
      | ModelCompletedEvent b t s q k => ModelCompletedEvent b (_clean_turn t) s q k
      | ModelFailedEvent b er (Some p) => ModelFailedEvent b er (Some (_clean_turn p))
      | e => e
      end]) {| scrubber := scrubber g; active := active g; emitted := emitted g + 1 |}).
  { intros Ht. rewrite app_assoc. by apply pass_filtering. }
  destruct e as [b i t|b i t s|b i c n d|b u x|b t s q k|b er [p|]]; cbv beta zeta;
    try (intros [= <- <-]; by apply Hpass).
  clear Hpass. destruct Hr as [[Hn He Hcl Hot] Ha].
  set (l' := l ++ [TextDeltaEvent b i t]).
  assert (Hold : feed "" (text_of i l) = (text_of i (out ++ flushed), scrubber g) ∧
                 snd <$> active g = None ∨ feed "" (text_of i l) = (text_of i (out ++ flushed), scrubber g) ∧
                 snd <$> active g = Some i).
  { destruct (active g) as [[b' j]|]; cbn.
    - right. destruct Ha as (Hc & _ & Hfeed). unfold closes in Hc. cbn in Hc.
      apply negb_false_iff, Z.eqb_eq in Hc as ->. done.
    - left. destruct Ha as (-> & Hx & _). specialize (Hx _ _ _ eq_refl). split; [|done].
      rewrite Hcl by (cbn; done). by rewrite Hx. }
  assert (Hfeed : feed "" (text_of i l) = (text_of i (out ++ flushed), scrubber g)) by tauto.
  assert (Hother : ∀ j, i ≠ j → text_of j (out ++ flushed) = clean_response_text (text_of j l)).
  { intros j Hj. apply Hcl. destruct Hold as [[_ ->]|[_ ->]]; congruence. }
  assert (Hfeed' : feed "" (text_of i l') = (text_of i (out ++ flushed) +:+ (feed (scrubber g) t).1,
                                             (feed (scrubber g) t).2)).
  { subst l'. rewrite text_of_snoc, Z.eqb_refl, feed_app, Hfeed. by destruct (feed (scrubber g) t). }
  assert (Hlast : last (deltas l') = Some (i, TEXT_DELTA)).
  { subst l'. by rewrite deltas_app, last_app. }
  assert (Hopen : ¬ terminated l') by (subst l'; by rewrite terminated_snoc).
  assert (Hl' : ∀ j, i ≠ j → text_of j l' = text_of j l).
  { intros j Hj. subst l'. rewrite text_of_snoc. by rewrite (proj2 (Z.eqb_neq i j)). }
  assert (Hol : others l' = others l) by (subst l'; by rewrite others_snoc, app_nil_r).
  destruct (feed (scrubber g) t) as [text pending] eqn:Ht. cbn [fst snd] in Hfeed'.
  destruct (String.eqb_spec text "") as [->|Hne]; intros [= <- <-].
  - rewrite str_app_nil_r in Hfeed'. split; cbn; [split; cbn|]; [done..| | |].
    + intros j Hj. rewrite Hl' by congruence. apply Hother. congruence.
    + by rewrite Hol.
    + done.
  - assert (Hto : ∀ j, text_of j (out ++ flushed ++ [TextDeltaEvent (at_sequence (emitted g) b) i text]) =
       if i =? j then text_of j (out ++ flushed) +:+ text else text_of j (out ++ flushed)).
    { intros j. by rewrite app_assoc, text_of_snoc. }
    split; cbn; [split; cbn|].
    + rewrite app_assoc. apply numbered_snoc; [done|]. exact He.
    + rewrite app_assoc, length_app. cbn. lia.
    + intros j Hj. rewrite Hto, (proj2 (Z.eqb_neq i j)) by congruence.
      rewrite Hl' by congruence. apply Hother. congruence.
    + by rewrite Hol, app_assoc, others_snoc, app_nil_r.
    + split_and!; [done..|]. by rewrite Hto, Z.eqb_refl.
Qed.

Lemma filter_events_snoc l e f :
  filter_events (l ++ [e]) f =
  let '(o, g) := filter_events l f in let '(o', g') := filter_event e g in (o ++ o', g').
Proof.
  revert f. induction l as [|x l IH]; intros f; cbn [filter_events app].
  - destruct (filter_event e f) as [o' g']. by rewrite app_nil_r.
  - destruct (filter_event x f) as [o g]. rewrite IH. destruct (filter_events l g) as [o2 g2].
    destruct (filter_event e g2). by rewrite app_assoc.
Qed.
Lemma filter_events_filtering l :
  sound carries_credential l → ∀ out f, filter_events l text_filter_start = (out, f) → filtering l out f.
Proof.
  induction l as [|e l IH] using rev_ind.
  - intros _ out f [= <- <-]. split; [split|]; cbn; try done. split; [done|]. right. done.
  - intros [Hs Hadm]%sound_snoc out f. rewrite filter_events_snoc.
    destruct (filter_events l text_filter_start) as [o g]. specialize (IH Hs o g eq_refl).
    destruct (filter_event e g) as [o' g'] eqn:E. intros [= <- <-]. by eapply filter_event_filtering.
Qed.

(** Filtering a whole validated stream yields a well-numbered stream in which the
    text of every item is the filtered text of that item, however its deltas were
    cut, and every other event is unchanged but for its sequence and the cleaned
    messages of a final turn: nothing is lost, added, reordered or left in the buffer. *)
Theorem response_text_exact source yielded out :
  validated_stream carries_credential source = (yielded, Ok tt) →
  response_text_stream (yielded, Ok tt) = (out, Ok tt) →
  numbered out ∧ (∀ i, text_of i out = clean_response_text (text_of i yielded)) ∧
  map (renumbered 0) (others out) = map cleaned (others yielded).
Proof.
  intros Hv Hr. destruct (validate_from_spec _ [] _ _ _ _ (sound_nil _) tracks_start Hv) as [Hs [-> Ht]].
  unfold response_text_stream in Hr. cbn in Hr, Hs, Ht.
  destruct (filter_events source text_filter_start) as [o f] eqn:E. injection Hr as <-.
  destruct (filter_events_filtering source Hs _ _ E) as [[Hn He Hcl Hot] Ha].
  assert (Hact : active f = None).
  { destruct (active f) as [[b i]|]; [|done]. by destruct Ha as (_ & ? & _). }
  rewrite Hact in Hcl. split; [done|]. split; [|done]. intros i. by apply Hcl.
Qed.
End filtered.

(** ** Witnesses and examples *)
Definition sample_marker : string :=
  _OPEN +:+ "user" +:+ QUOTE +:+ " source=" +:+ QUOTE +:+ "mail" +:+ QUOTE +:+ " nonce=" +:+ QUOTE +:+
  "0123456789ab" +:+ QUOTE +:+ ">".
Example marker_removed :
  clean_response_text ("a " +:+ sample_marker +:+ "b</untrusted:0123456789ab> c < d") = "a b c < d".
Proof. vm_compute. reflexivity. Qed.
(** Removing a marker can leave one: the two halves around it close up. *)
Example nested_marker_survives :
  clean_response_text ("</untrus" +:+ sample_marker +:+ "ted:0123456789ab>") = "</untrusted:0123456789ab>" ∧
  _MARKER "</untrusted:0123456789ab>" = true.
Proof. split; vm_compute; reflexivity. Qed.

Lemma response_text_exact_witness :
  ∃ out, validated_stream sample_scan sample_stream = (sample_stream, Ok tt) ∧
    response_text_stream (sample_stream, Ok tt) = (out, Ok tt) ∧ numbered out ∧
    text_of 0 out = clean_response_text (text_of 0 sample_stream).
Proof.
  destruct (response_text_stream (sample_stream, Ok tt)) as [out r] eqn:E.
  assert (Hv : validated_stream sample_scan sample_stream = (sample_stream, Ok tt)) by reflexivity.
  assert (Hr : r = Ok tt) by (vm_compute in E; congruence). subst r.
  destruct (response_text_exact sample_scan _ _ _ Hv E) as (Hn & Ht & _).
  exists out. split; [exact Hv|]. split; [reflexivity|]. split; [exact Hn|apply Ht].
Defined.
