(* ===== verification/Checkpoints.v ===== *)
(** * Checkpoints ([domain/runs.py], [InMemoryCheckpointRepository], [runtime/loop.py: checkpoint])

    The chain of materialised checkpoints of a run, and the runtime step that
    writes one with its event in one unit of work. Values the repository only
    stores (skill bodies, tool specs) are kept as JSON. *)
From S2P Require Import Prelude RunModel PolicyModel Messages.

Record ProviderContinuation := {
  pc_provider : string;
  previous_response_id : option string;
  opaque_items : list dict;
  valid_for_provider_only : bool;
}.

Record RecallWorkBudget := {
  searches : Z;
  rounds : Z;
  rwb_deadline_at : datetime;
  automatic : bool;
}.
Definition RecallWorkBudget_valid (b : RecallWorkBudget) : bool :=
  (1 <=? searches b) && (searches b <=? 4) && (0 <=? rounds b) && (rounds b <=? 2).

(** [domain/provenance.py] *)
Record ElidedSpan := {
  span_item_id : string;
  span_trust_level : TrustLevel;
  byte_length : Z;
  artifact_ref : option string;
  span_event_id : Z;
}.

Record RunCheckpoint := {
  cp_run_id : UUID;
  cp_version : Z;
  cp_status : RunStatus;
  conversation : list ConversationItem;
  pending_tool_calls : list ToolCallItem;
  pending_approval_ids : list UUID;
  tool_pins_initialized : bool;
  pinned_tool_names : list string;
  pinned_tool_versions : list (string * string);
  pinned_tool_specs : dict;
  working_state : dict;
  loaded_skills : list json;
  compacted_summary : option string;
  summary_source_event_ids : list Z;
  summary_elided : list ElidedSpan;
  replaced_through_sequence : Z;
  summary_depth : Z;
  compactor_version : option string;
  budget_state : dict;
  recall_work : option RecallWorkBudget;
  last_event_sequence : Z;
  provider_continuation : option ProviderContinuation;
  cp_provider_pin : option ProviderPin;
  context_origin_trust : TrustLevel;
  cp_created_at : datetime;
}.
#[global] Instance checkpoint_eta : Eta RunCheckpoint := λ c,
  {| cp_run_id := cp_run_id c; cp_version := cp_version c; cp_status := cp_status c;
     conversation := conversation c; pending_tool_calls := pending_tool_calls c;
     pending_approval_ids := pending_approval_ids c;
     tool_pins_initialized := tool_pins_initialized c; pinned_tool_names := pinned_tool_names c;
     pinned_tool_versions := pinned_tool_versions c; pinned_tool_specs := pinned_tool_specs c;
     working_state := working_state c; loaded_skills := loaded_skills c;
     compacted_summary := compacted_summary c;
     summary_source_event_ids := summary_source_event_ids c; summary_elided := summary_elided c;
     replaced_through_sequence := replaced_through_sequence c; summary_depth := summary_depth c;
     compactor_version := compactor_version c; budget_state := budget_state c;
     recall_work := recall_work c; last_event_sequence := last_event_sequence c;
     provider_continuation := provider_continuation c; cp_provider_pin := cp_provider_pin c;
     context_origin_trust := context_origin_trust c; cp_created_at := cp_created_at c |}.

(** [RunCheckpoint.pinned_tools_match] *)
Definition pinned_tools_match (c : RunCheckpoint) : bool :=
  forallb (λ kv, bool_decide (kv.1 ∈ pinned_tool_names c)) (pinned_tool_versions c) &&
  forallb (λ kv, bool_decide (kv.1 ∈ pinned_tool_names c)) (pinned_tool_specs c).

Module CheckpointRepo.
(** A stored row: the checkpoint and whether it is a full snapshot. *)
Abbreviation row := (RunCheckpoint * bool)%type (only parsing).
Record t := { _checkpoints : gmap UUID (list row); _people_erased_runs : gset UUID }.
Definition init : t := {| _checkpoints := ∅; _people_erased_runs := ∅ |}.
#[global] Instance t_eta : Eta t := λ s,
  {| _checkpoints := _checkpoints s; _people_erased_runs := _people_erased_runs s |}.

(** [self._checkpoints[run_id]] of a [defaultdict(list)]: an absent run has no rows. *)
Definition rows (run : UUID) (s : t) : list row := default [] (_checkpoints s !! run).

Definition write (run : UUID) (checkpoint : RunCheckpoint) (full leased : bool) (s : t)
    : result Z * t :=
  if leased
  then (Raise (NotImplementedError "the in-memory repository does not support worker leases"), s)
  else if bool_decide (run ∈ _people_erased_runs s) then
    if is_terminal (cp_status checkpoint) then (Ok (cp_version checkpoint), s)
    else (Raise (RunCancelledError "People erasure fenced checkpoint writes"), s)
  else
    let expected := match last (rows run s) with Some r => cp_version r.1 + 1 | None => 1 end in
    if negb (cp_version checkpoint =? expected)
    then (Raise (ConflictError "checkpoint version must be the next one"), s)
    else (Ok (cp_version checkpoint),
          s <| _checkpoints := <[run := (rows run s ++ [(checkpoint, full)])%list]> (_checkpoints s) |>).

Definition latest (run : UUID) (s : t) : option RunCheckpoint := fst <$> last (rows run s).

(** [next((index for index in range(len(rows) - 1, -1, -1) if rows[index][1]), None)] *)
Fixpoint latest_full (l : list row) : option nat :=
  match l with
  | [] => None
  | r :: l' => match latest_full l' with
               | Some k => Some (S k)
               | None => if r.2 then Some 0%nat else None
               end
  end.

Definition prune (run : UUID) (terminal : bool) (s : t) : result nat * t :=
  let l := rows run s in
  if (length l <=? 1)%nat then (Ok 0%nat, s)
  else match latest_full l with
  | None => (Raise (ConflictError "checkpoint chain has no full snapshot"), s)
  | Some k =>
      let keep keep_from := (Ok keep_from, s <| _checkpoints := <[run := drop keep_from l]> (_checkpoints s) |>) in
      if terminal then
        match last l with
        | Some (checkpoint, full) =>
            if negb full || negb (is_terminal (cp_status checkpoint))
            then (Raise (ConflictError
                    "terminal checkpoint retention requires a final full snapshot"), s)
            else keep (length l - 1)%nat
        | None => (Ok 0%nat, s)
        end
      else keep k
  end.

Definition delete_nonterminal (run : UUID) (s : t) : result nat * t :=
  let l := rows run s in
  if match last l with Some r => is_terminal (cp_status r.1) | None => false end
  then (Raise (ConflictError "delete_nonterminal refuses a terminal run"), s)
  else (Ok (length l), s <| _checkpoints := delete run (_checkpoints s) |>).

(** ** Chains *)
Definition ver (r : row) : Z := cp_version r.1.
Definition contiguous (l : list row) : Prop :=
  ∀ i a b, l !! i = Some a → l !! S i = Some b → ver b = ver a + 1.
(** What every write of the runtime keeps: consecutive versions, a full snapshot
    at the head and at every eighth version. *)
Record chain_ok (l : list row) : Prop := {
  ok_contiguous : contiguous l;
  ok_cadence : ∀ r, r ∈ l → ver r = 1 ∨ ver r mod 8 = 1 → r.2 = true;
  ok_head : ∀ r, head l = Some r → r.2 = true;
}.

Lemma latest_full_spec l k :
  latest_full l = Some k →
  (∃ r, l !! k = Some r ∧ r.2 = true) ∧ ∀ j r, (k < j)%nat → l !! j = Some r → r.2 = false.
Proof.
  revert k. induction l as [|r l IH]; intros k; [done|]. simpl.
  destruct (latest_full l) as [k'|] eqn:E.
  - intros [= <-]. destruct (IH k' eq_refl) as [Hr Hlater]. split; [done|].
    intros [|j] r' Hj; [lia|]. apply Hlater. lia.
  - destruct r.2 eqn:Hr; [|done]. intros [= <-]. split; [by exists r|].
    intros [|j] r' Hj; [lia|]. simpl. clear -E. revert j. induction l as [|x l IH]; intros j; [done|].
    simpl in E. destruct (latest_full l); [done|]. destruct x.2 eqn:Hx; [done|].
    destruct j as [|j]; [by intros [= <-]|]. by apply IH.
Qed.

Lemma latest_full_head l r : head l = Some r → r.2 = true → ∃ k, latest_full l = Some k.
Proof.
  destruct l as [|x l]; [done|]. intros [= ->] Hr. simpl.
  destruct (latest_full l) as [k|]; [by exists (S k)|]. rewrite Hr. by exists 0%nat.
Qed.

Lemma contiguous_add l i n a b :
  contiguous l → l !! i = Some a → l !! (i + n)%nat = Some b → ver b = ver a + Z.of_nat n.
Proof.
  intros Hl Ha. revert b. induction n as [|n IH]; intros b Hb.
  - rewrite Nat.add_0_r in Hb. assert (a = b) as -> by congruence. lia.
  - destruct (l !! (i + n)%nat) as [c|] eqn:Hc.
    + rewrite Nat.add_succ_r in Hb. rewrite (Hl _ _ _ Hc Hb), (IH c eq_refl). lia.
    + apply lookup_ge_None in Hc. apply lookup_lt_Some in Hb. lia.
Qed.

(** The replay distance: at most seven rows follow the latest full snapshot. *)
Lemma latest_full_near l k : chain_ok l → latest_full l = Some k → (length l - k ≤ 8)%nat.
Proof.
  intros Hl Hk. destruct (latest_full_spec l k Hk) as [(r & Hr & _) Hlater].
  destruct (Nat.le_gt_cases (length l - k) 8) as [|Hgt]; [done|]. exfalso.
  assert (∃ n, (1 ≤ n ≤ 8)%nat ∧ (ver r + Z.of_nat n) mod 8 = 1) as (n & Hn & Hmod).
  { pose proof (Z.mod_pos_bound (ver r) 8). exists (Z.to_nat ((8 - ver r) mod 8 + 1)).
    pose proof (Z.mod_pos_bound (8 - ver r) 8). split; [lia|].
    rewrite Z2Nat.id by lia. rewrite Z.add_assoc, <- Z.add_mod_idemp_l, Z.add_mod_idemp_r by lia.
    replace (ver r + (8 - ver r)) with 8 by lia. reflexivity. }
  destruct (lookup_lt_is_Some_2 l (k + n)%nat) as [x Hx]; [lia|].
  pose proof (contiguous_add l k n r x (ok_contiguous _ Hl) Hr Hx) as Hv.
  assert (x.2 = false) as Hf by (eapply (Hlater (k + n)%nat); [lia|done]).
  rewrite (ok_cadence _ Hl x) in Hf; [done|by eapply list_elem_of_lookup_2|right; by rewrite Hv].
Qed.

Lemma chain_ok_nil : chain_ok [].
Proof. split; [by intros ???|by intros ? ?%not_elem_of_nil|done]. Qed.

Lemma chain_ok_snoc l (c : RunCheckpoint) full :
  chain_ok l →
  cp_version c = match last l with Some r => ver r + 1 | None => 1 end →
  (cp_version c = 1 ∨ cp_version c mod 8 = 1 → full = true) → chain_ok (l ++ [(c, full)]).
Proof.
  intros [Hc Hf Hh] Hv Hfull. split.
  - intros i a b Ha Hb. apply lookup_app_Some in Hb as [Hb|[Hlen Hb]].
    + apply (Hc i); [|done]. rewrite lookup_app_l in Ha; [done|]. apply lookup_lt_Some in Hb. lia.
    + apply list_lookup_singleton_Some in Hb as [Hi <-]. rewrite lookup_app_l in Ha by lia.
      unfold ver at 1. simpl. rewrite Hv.
      replace (last l) with (Some a); [done|]. rewrite last_lookup. symmetry.
      by replace (pred (length l)) with i by lia.
  - intros r [Hr|Hr]%elem_of_app; [by apply Hf|]. by apply list_elem_of_singleton in Hr as ->.
  - destruct l as [|x l]; [|done]. intros r [= <-]. simpl in *. auto.
Qed.

Lemma chain_ok_drop l k r : chain_ok l → l !! k = Some r → r.2 = true → chain_ok (drop k l).
Proof.
  intros [Hc Hf Hh] Hk Hr. split.
  - intros i a b. rewrite !lookup_drop, <- plus_n_Sm. apply Hc.
  - intros x Hx. apply Hf. by apply (subseteq_drop k).
  - intros x. rewrite head_lookup, lookup_drop, Nat.add_0_r, Hk. by intros [= <-].
Qed.

Definition chains_ok (s : t) : Prop := ∀ run, chain_ok (rows run s).

Lemma rows_insert run run' l s :
  rows run' (s <| _checkpoints := <[run := l]> (_checkpoints s) |>) =
  if decide (run = run') then l else rows run' s.
Proof.
  unfold rows. simpl. case_decide as Hr; [subst; by rewrite lookup_insert_eq|].
  by rewrite lookup_insert_ne.
Qed.

Lemma write_ok run c full leased s :
  chains_ok s → (cp_version c = 1 ∨ cp_version c mod 8 = 1 → full = true) →
  chains_ok (write run c full leased s).2.
Proof.
  intros Hs Hfull. unfold write. destruct leased; [done|].
  case_bool_decide; [by destruct (is_terminal _)|].
  destruct (negb _) eqn:E; [done|]. apply negb_false_iff, Z.eqb_eq in E.
  intros run'. cbn [snd]. rewrite rows_insert. case_decide; [|apply Hs].
  by apply chain_ok_snoc.
Qed.

Lemma prune_ok run terminal s : chains_ok s → chains_ok (prune run terminal s).2.
Proof.
  intros Hs. unfold prune. destruct (_ <=? 1)%nat eqn:Hlen; [done|].
  destruct (latest_full (rows run s)) as [k|] eqn:Hk; [|done].
  destruct (latest_full_spec _ _ Hk) as [(r & Hr & Hfull) _]. destruct terminal.
  - destruct (last (rows run s)) as [[c f]|] eqn:Hl; [|done].
    destruct (negb f || _) eqn:E; [done|]. apply orb_false_iff in E as [Hf%negb_false_iff _].
    intros run'. cbn [snd]. rewrite rows_insert. case_decide; [|apply Hs].
    apply (chain_ok_drop _ _ (c, f)); [apply Hs| |exact Hf]. rewrite last_lookup in Hl.
    by replace (length (rows run s) - 1)%nat with (pred (length (rows run s))) by lia.
  - intros run'. cbn [snd]. rewrite rows_insert. case_decide; [|apply Hs]. by eapply chain_ok_drop.
Qed.

Lemma delete_ok run s : chains_ok s → chains_ok (delete_nonterminal run s).2.
Proof.
  intros Hs. unfold delete_nonterminal. case_match; [done|]. intros run'. cbn [snd]. unfold rows. simpl.
  destruct (decide (run = run')) as [<-|Hne]; [rewrite lookup_delete_eq; apply chain_ok_nil|].
  rewrite lookup_delete_ne by done. apply Hs.
Qed.
End CheckpointRepo.

(** ** [runtime/loop.py: checkpoint] *)
Definition full_triggers : list string := ["compaction"; "suspended"; "cancelled"; "failed"; "final"].
(** Python's [%] is the modulo of [Z]. *)
Definition is_full (version : Z) (trigger : string) : bool :=
  (version =? 1) || (version mod 8 =? 1) || bool_decide (trigger ∈ full_triggers).

(** What the context holds besides the run: the names of its model and the digests
    and dumps other modules compute. *)
Record CheckpointContext := {
  context_model_id : string;
  context_reader_sha256 : string;
  usage_dump : RunUsage → json;
}.

Definition context_budget_state (cx : CheckpointContext) (run : Run)
    (pending_batch_budget : option (Z * Z)) : dict :=
  let d := [("step_count", JInt (step_count run)); ("model_call_count", JInt (model_call_count run));
            ("tool_call_count", JInt (tool_call_count run)); ("usage", usage_dump cx (usage run));
            ("context_model_id", JStr (context_model_id cx));
            ("context_seed_event_sequence", JInt (seed_event_sequence run));
            ("context_reader_sha256", JStr (context_reader_sha256 cx))] in
  match pending_batch_budget with
  | None => d
  | Some (steps, tools) => dict_update [("step_count", JInt steps); ("tool_call_count", JInt tools)] d
  end.

(** The event of one checkpoint. *)
Record CheckpointEvent := {
  ce_run : UUID;
  ce_version : Z;
  ce_trigger : string;
  ce_full : bool;
  ce_recall_work : option RecallWorkBudget;
  ce_runtime_tool_call : option ToolCallItem;
}.

(** The store of a unit of work: the run's event stream (newest last, with the
    sequence each event got) and the checkpoint rows. *)
Record store := { stream : list CheckpointEvent; chain : CheckpointRepo.t }.

Section runtime.
(** The append gives the session's next sequence; what the database decides at
    commit is [commit]. Both may raise. *)
Context (append : CheckpointEvent → store → result Z) (commit : store → result unit).

Definition checkpoint (cx : CheckpointContext) (run : Run) (trigger : string)
    (pending_batch_budget : option (Z * Z)) (leased : bool) (now : datetime)
    (cp : RunCheckpoint) (s : store) : result unit * RunCheckpoint * store :=
  let previous := cp in
  let cp := cp <| budget_state := context_budget_state cx run pending_batch_budget |> in
  let cp := cp <| cp_version := cp_version cp + 1 |> <| cp_status := status run |>
               <| cp_created_at := now |> in
  let full := is_full (cp_version cp) trigger in
  let queued := bool_decide (trigger ∈ ["browser_recovery"; "browser_workflow"]) in
  match queued, pending_tool_calls cp with
  | true, [] => (Raise (IndexError), previous, s)
  | _, calls =>
      let event := {| ce_run := id run; ce_version := cp_version cp; ce_trigger := trigger;
                      ce_full := full; ce_recall_work := recall_work cp;
                      ce_runtime_tool_call := if queued then head calls else None |} in
      match append event s with
      | Raise e => (Raise e, previous, s)
      | Ok sequence =>
          let cp := cp <| last_event_sequence := sequence |> in
          match CheckpointRepo.write (id run) cp full leased (chain s) with
          | (Raise e, _) => (Raise e, previous, s)
          | (Ok _, chain') =>
              let s' := {| stream := (stream s ++ [event])%list; chain := chain' |} in
              match commit s' with
              | Raise e => (Raise e, previous, s)
              | Ok _ => (Ok tt, cp, s')
              end
          end
      end
  end.
End runtime.

(** ** Histories: runtime checkpoints, pruning and deletion *)
Section histories.
Context (append : CheckpointEvent → store → result Z) (commit : store → result unit).

Inductive op :=
| Checkpoint (cx : CheckpointContext) (run : Run) (trigger : string)
    (pending_batch_budget : option (Z * Z)) (leased : bool) (now : datetime) (cp : RunCheckpoint)
| Prune (run : UUID) (terminal : bool)
| Delete (run : UUID)
| SetFences (runs : gset UUID).

Definition on_chain (f : CheckpointRepo.t → CheckpointRepo.t) (s : store) : store :=
  {| stream := stream s; chain := f (chain s) |}.
Definition step (s : store) (o : op) : store :=
  match o with
  | Checkpoint cx run trigger pending leased now cp =>
      (checkpoint append commit cx run trigger pending leased now cp s).2
  | Prune run terminal => on_chain (λ c, (CheckpointRepo.prune run terminal c).2) s
  | Delete run => on_chain (λ c, (CheckpointRepo.delete_nonterminal run c).2) s
  | SetFences runs =>
      on_chain (λ c, {| CheckpointRepo._checkpoints := CheckpointRepo._checkpoints c;
                        CheckpointRepo._people_erased_runs := runs |}) s
  end.
Definition steps (os : list op) (s : store) : store := foldl step s os.

Lemma is_full_cadence v trigger : v = 1 ∨ v mod 8 = 1 → is_full v trigger = true.
Proof. unfold is_full. intros [->| ->%Z.eqb_eq]; [done|]. by rewrite orb_true_r. Qed.

(** The two ways a checkpoint call ends. *)
Lemma checkpoint_outcome cx run trigger pending leased now cp s r cp' s' :
  checkpoint append commit cx run trigger pending leased now cp s = (r, cp', s') →
  (∃ e, r = Raise e ∧ cp' = cp ∧ s' = s) ∨
  (r = Ok tt ∧ commit s' = Ok tt ∧
   cp_version cp' = cp_version cp + 1 ∧ cp_status cp' = status run ∧ cp_created_at cp' = now ∧
   conversation cp' = conversation cp ∧ working_state cp' = working_state cp ∧
   pending_tool_calls cp' = pending_tool_calls cp ∧
   ∃ event, append event s = Ok (last_event_sequence cp') ∧
     ce_run event = id run ∧ ce_version event = cp_version cp' ∧ ce_trigger event = trigger ∧
     ce_full event = is_full (cp_version cp') trigger ∧
     stream s' = (stream s ++ [event])%list ∧
     CheckpointRepo.write (id run) cp' (ce_full event) leased (chain s) = (Ok (cp_version cp'), chain s')).
Proof.
  unfold checkpoint. cbn zeta.
  set (cp1 := _ <| cp_created_at := now |>).
  set (queued := bool_decide _). set (full := is_full _ _).
  assert (∀ event, ce_run event = id run → ce_version event = cp_version cp1 →
      ce_trigger event = trigger → ce_full event = full →
      (match append event s with
       | Raise e => (Raise e, cp, s)
       | Ok sequence =>
           match CheckpointRepo.write (id run) (cp1 <| last_event_sequence := sequence |>) full leased (chain s) with
           | (Raise e, _) => (Raise e, cp, s)
           | (Ok _, chain') =>
               match commit {| stream := (stream s ++ [event])%list; chain := chain' |} with
               | Raise e => (Raise e, cp, s)
               | Ok _ => (Ok tt, cp1 <| last_event_sequence := sequence |>,
                          {| stream := (stream s ++ [event])%list; chain := chain' |})
               end
           end
       end) = (r, cp', s') →
      (∃ e, r = Raise e ∧ cp' = cp ∧ s' = s) ∨
      (r = Ok tt ∧ commit s' = Ok tt ∧
       cp_version cp' = cp_version cp + 1 ∧ cp_status cp' = status run ∧ cp_created_at cp' = now ∧
       conversation cp' = conversation cp ∧ working_state cp' = working_state cp ∧
       pending_tool_calls cp' = pending_tool_calls cp ∧
       ∃ event, append event s = Ok (last_event_sequence cp') ∧
         ce_run event = id run ∧ ce_version event = cp_version cp' ∧ ce_trigger event = trigger ∧
         ce_full event = is_full (cp_version cp') trigger ∧
         stream s' = (stream s ++ [event])%list ∧
         CheckpointRepo.write (id run) cp' (ce_full event) leased (chain s) =
           (Ok (cp_version cp'), chain s'))) as Hgo.
  { intros event Hr Hv Ht Hf. destruct (append event s) as [n|e] eqn:Ha.
    2:{ intros [= <- <- <-]. left. by exists e. }
    destruct (CheckpointRepo.write _ _ _ _ _) as [[v|e] c'] eqn:Hw.
    2:{ intros [= <- <- <-]. left. by exists e. }
    destruct (commit _) as [[]|e] eqn:Hcommit; intros [= <- <- <-]; [right|left; by exists e].
    split; [done|]. split; [done|]. repeat (split; [done|]). exists event.
    split; [done|]. split; [done|]. split; [done|]. split; [done|]. split; [done|]. split; [done|].
    rewrite Hf. etrans; [exact Hw|]. f_equal. f_equal. clear -Hw. unfold CheckpointRepo.write in Hw.
    repeat case_match; by simplify_eq. }
  destruct queued; [destruct (pending_tool_calls cp1) as [|call calls]|];
    [|by apply Hgo|by apply Hgo].
  intros [= <- <- <-]. left. by eexists.
Qed.

Lemma step_chains (s : store) (o : op) :
  CheckpointRepo.chains_ok (chain s) → CheckpointRepo.chains_ok (chain (step s o)).
Proof.
  intros Hs. destruct o as [cx run trigger pending leased now cp|run terminal|run|runs]; simpl.
  - destruct (checkpoint append commit cx run trigger pending leased now cp s) as [[r cp'] s'] eqn:Hc.
    apply checkpoint_outcome in Hc as [(e & _ & _ & ->)|(_ & _ & _ & _ & _ & _ & _ & _ & ev & _ & _ & _ & _ & Hf & _ & Hw)];
      [done|].
    pose proof (CheckpointRepo.write_ok (id run) cp' (ce_full ev) leased (chain s) Hs) as Hok.
    rewrite Hw in Hok. apply Hok. rewrite Hf. apply is_full_cadence.
  - by apply CheckpointRepo.prune_ok.
  - by apply CheckpointRepo.delete_ok.
  - exact Hs.
Qed.

(** A run can always be resumed from its chain, and cheaply. Over any history
    of runtime checkpoints (whatever their triggers, failures and commit
    outcomes), prunings, deletions and fences, the stored versions of a run are
    consecutive, its oldest row is a full snapshot, so a latest full snapshot
    exists, and at most seven rows follow it. *)
Theorem checkpoint_chain_sound os s run :
  CheckpointRepo.chains_ok (chain s) →
  let l := CheckpointRepo.rows run (chain (steps os s)) in
  CheckpointRepo.contiguous l ∧
  (l ≠ [] → ∃ k, CheckpointRepo.latest_full l = Some k ∧ (length l - k ≤ 8)%nat).
Proof.
  intros Hs.
  assert (CheckpointRepo.chains_ok (chain (steps os s))) as Hok.
  { revert s Hs. induction os as [|o os IH]; intros s Hs; [done|]. by apply IH, step_chains. }
  intros l. specialize (Hok run) as Hl. fold l in Hl. split; [apply Hl|]. intros Hne.
  destruct l as [|r l'] eqn:E; [done|].
  destruct (CheckpointRepo.latest_full_head (r :: l') r) as [k Hk]; [done|by eapply (CheckpointRepo.ok_head _ Hl)|].
  exists k. split; [done|]. by apply CheckpointRepo.latest_full_near.
Qed.

(** A checkpoint is all or nothing. When any part of the step fails (the
    event, the row, the commit), the error is raised, the runtime keeps the
    checkpoint it had and nothing is stored; otherwise one event and one row are
    durable together, the row is the run's latest (unless an erasure fence let
    only a terminal run finish), its version is the next one, and it carries the
    sequence of its own event. *)
Theorem checkpoint_all_or_nothing cx run trigger pending leased now cp s :
  let '(r, cp', s') := checkpoint append commit cx run trigger pending leased now cp s in
  match r with
  | Raise _ => cp' = cp ∧ s' = s
  | Ok _ =>
      cp_version cp' = cp_version cp + 1 ∧ cp_status cp' = status run ∧
      conversation cp' = conversation cp ∧
      (∃ event, stream s' = (stream s ++ [event])%list ∧ ce_version event = cp_version cp' ∧
         append event s = Ok (last_event_sequence cp')) ∧
      (CheckpointRepo.latest (id run) (chain s') = Some cp' ∨
       id run ∈ CheckpointRepo._people_erased_runs (chain s) ∧ is_terminal (status run) = true ∧
       chain s' = chain s)
  end.
Proof.
  destruct (checkpoint append commit cx run trigger pending leased now cp s) as [[r cp'] s'] eqn:Hc.
  apply checkpoint_outcome in Hc
    as [(e & -> & -> & ->)|(-> & _ & Hv & Hst & _ & Hconv & _ & _ & ev & Ha & _ & Hev & _ & _ & Hs & Hw)];
    [done|].
  split; [done|]. split; [done|]. split; [done|]. split; [by exists ev|].
  unfold CheckpointRepo.write in Hw. destruct leased; [done|].
  case_bool_decide as Hf.
  - right. rewrite <- Hst. destruct (is_terminal (cp_status cp')); [|done]. by injection Hw.
  - destruct (negb _); [done|]. left. unfold CheckpointRepo.latest.
    assert (chain s' = (chain s) <| CheckpointRepo._checkpoints :=
      <[id run := (CheckpointRepo.rows (id run) (chain s) ++ [(cp', ce_full ev)])%list]>
        (CheckpointRepo._checkpoints (chain s)) |>) as -> by (by injection Hw).
    rewrite CheckpointRepo.rows_insert, decide_True by done. by rewrite last_snoc.
Qed.
End histories.

(** ** Witnesses *)
Definition sample_checkpoint (run v : Z) : RunCheckpoint :=
  {| cp_run_id := Z.to_N run; cp_version := v; cp_status := RUNNING; conversation := [];
     pending_tool_calls := []; pending_approval_ids := []; tool_pins_initialized := false;
     pinned_tool_names := []; pinned_tool_versions := []; pinned_tool_specs := [];
     working_state := []; loaded_skills := []; compacted_summary := None;
     summary_source_event_ids := []; summary_elided := []; replaced_through_sequence := 0;
     summary_depth := 0; compactor_version := None; budget_state := []; recall_work := None;
     last_event_sequence := 0; provider_continuation := None; cp_provider_pin := None;
     context_origin_trust := USER; cp_created_at := 0 |}.
Definition sample_cx : CheckpointContext :=
  {| context_model_id := "fake:scripted"; context_reader_sha256 := "r"; usage_dump := λ _, JNull |}.
Definition empty_chain_store : store := {| stream := []; chain := CheckpointRepo.init |}.
Definition next_sequence (_ : CheckpointEvent) (s : store) : result Z := Ok (Z.of_nat (length (stream s)) + 1).
Definition always_commits (_ : store) : result unit := Ok tt.

Lemma init_chains_ok : CheckpointRepo.chains_ok (chain empty_chain_store).
Proof. intros run. apply CheckpointRepo.chain_ok_nil. Qed.

(** Ten checkpoints: full snapshots at 1 and 9, so one row follows the last one. *)
Definition ten_checkpoints : list op :=
  map (λ v, Checkpoint sample_cx (sample_run 7 2 RUNNING) "tool_call" None false v (sample_checkpoint 7 v))
    [0; 1; 2; 3; 4; 5; 6; 7; 8; 9].
Lemma checkpoint_chain_sound_witness :
  let l := CheckpointRepo.rows 7 (chain (steps next_sequence always_commits ten_checkpoints empty_chain_store)) in
  length l = 10%nat ∧ CheckpointRepo.latest_full l = Some 8%nat ∧ CheckpointRepo.contiguous l.
Proof.
  split; [vm_compute; reflexivity|]. split; [vm_compute; reflexivity|].
  exact (proj1 (checkpoint_chain_sound next_sequence always_commits ten_checkpoints
    empty_chain_store 7 init_chains_ok)).
Defined.
