(* ===== verification/Events.v ===== *)
(** * The event log ([InMemoryEventRepository])

    Append-only streams, one per session, over the session repository of
    [Sessions.v]. Which owner texts are admitted as memory sources
    ([domain/memory_sources.py: source_admission_digest]) is a parameter: the log
    only stores the digest. *)
From S2P Require Import Prelude EventModel Sessions.

Module EventRepo.
Record t := {
  _sessions : SessionRepo.t;
  _events : gmap UUID (list EventEnvelope);
  _derived : gmap string EventEnvelope;
  _people_erased_runs : gset UUID;
  _next_id : Z;
  (** [_memory_source_index.source_permits], when an index is bound. *)
  source_permits : option (gmap (string * string * UUID * Z) string);
}.
#[global] Instance t_eta : Eta t := λ s,
  {| _sessions := _sessions s; _events := _events s; _derived := _derived s;
     _people_erased_runs := _people_erased_runs s; _next_id := _next_id s;
     source_permits := source_permits s |}.

Definition init (sessions : SessionRepo.t) : t :=
  {| _sessions := sessions; _events := ∅; _derived := ∅; _people_erased_runs := ∅;
     _next_id := 1; source_permits := None |}.

Definition stream (session : UUID) (s : t) : list EventEnvelope := default [] (_events s !! session).

Section append.
Context (source_admission_digest : NewEvent → string → option string).

(** An event of an erased run keeps only what the erasure keeps. *)
Definition admitted (event : NewEvent) (s : t) : NewEvent :=
  if match ev_run_id event with Some r => bool_decide (r ∈ _people_erased_runs s) | None => false end &&
     bool_decide (ev_event_type event ∉ ORIGINAL_EVENTS)
  then {| ev_session_id := ev_session_id event; ev_run_id := ev_run_id event;
          ev_event_type := ev_event_type event;
          ev_payload_schema_version := ev_payload_schema_version event;
          ev_actor_type := ev_actor_type event; ev_actor_id := ev_actor_id event;
          ev_payload := redact_payload (ev_payload event); ev_trace_id := ev_trace_id event;
          ev_derivation_key := ev_derivation_key event |}
  else event.

Definition opens_chat (event : NewEvent) : bool :=
  String.eqb (ev_actor_type event) "principal" &&
  bool_decide (ev_event_type event ∈ ["email.discussion.opened"; "user.message.created"]).

Definition existing_derived (event : NewEvent) (s : t) : option EventEnvelope :=
  match ev_derivation_key event with Some key => _derived s !! key | None => None end.

Definition append (new : NewEvent) (leased : bool) (now : datetime) (s : t)
    : result EventEnvelope * t :=
  if leased
  then (Raise (NotImplementedError "the in-memory repository does not support worker leases"), s)
  else
    let event := admitted new s in
    match existing_derived event s with
    | Some existing => (Ok existing, s)
    | None =>
        match SessionRepo._sessions (_sessions s) !! ev_session_id event with
        | None => (Raise (NotFoundError "session not found"), s)
        | Some owner =>
            let l := stream (ev_session_id event) s in
            let envelope := {| env_id := _next_id s; env_sequence := Z.of_nat (length l) + 1;
                               env_event := event; env_created_at := now |} in
            let permits :=
              match source_admission_digest event (Session.principal_id owner), source_permits s with
              | Some digest, Some permits =>
                  Some (<[(Session.tenant_id owner, Session.principal_id owner,
                           ev_session_id event, env_sequence envelope) := digest]> permits)
              | _, permits => permits
              end in
            let derived :=
              match ev_derivation_key event with
              | Some key => <[key := envelope]> (_derived s)
              | None => _derived s
              end in
            let sessions :=
              if opens_chat event
              then (_sessions s) <| SessionRepo._chat_sessions :=
                     {[ev_session_id event]} ∪ SessionRepo._chat_sessions (_sessions s) |>
              else _sessions s in
            let sessions :=
              if advances_session_activity event
              then (SessionRepo.touch (ev_session_id event) now sessions).2 else sessions in
            (Ok envelope,
             {| _sessions := sessions;
                _events := <[ev_session_id event := (l ++ [envelope])%list]> (_events s);
                _derived := derived; _people_erased_runs := _people_erased_runs s;
                _next_id := _next_id s + 1; source_permits := permits |})
        end
    end.
End append.

(** Every reader first checks that the principal may see the session. *)
Definition with_session {A} (session : UUID) (p : Principal) (s : t) (k : result A) : result A :=
  match SessionRepo.get (_sessions s) session p with Raise e => Raise e | Ok _ => k end.

Definition in_range (after : Z) (run : option UUID) (from until : option datetime)
    (e : EventEnvelope) : bool :=
  (after <? env_sequence e) &&
  match run with None => true | Some r => bool_decide (ev_run_id (env_event e) = Some r) end &&
  match from with None => true | Some t => t <=? env_created_at e end &&
  match until with None => true | Some t => env_created_at e <? t end.

Definition list_after (session : UUID) (sequence : Z) (p : Principal) (run : option UUID)
    (created_at_or_after created_before : option datetime) (limit : option Z) (s : t)
    : result (list EventEnvelope) :=
  if match limit with Some n => n <? 0 | None => false end
  then Raise (ValueError "limit must be nonnegative")
  else with_session session p s
    (let matching := List.filter (in_range sequence run created_at_or_after created_before)
                       (stream session s) in
     Ok (match limit with None => matching | Some n => take (Z.to_nat n) matching end)).

Definition latest_before (session : UUID) (sequence : Z) (event_type : string) (p : Principal)
    (run : option UUID) (s : t) : result (option EventEnvelope) :=
  with_session session p s
    (Ok (List.find (λ e,
       (env_sequence e <? sequence) && String.eqb (ev_event_type (env_event e)) event_type &&
       match run with None => true | Some r => bool_decide (ev_run_id (env_event e) = Some r) end)
       (reverse (stream session s)))).

Definition list_conversation_after (session : UUID) (sequence : Z) (p : Principal) (limit : Z) (s : t)
    : result (list EventEnvelope) :=
  if limit <? 0 then Raise (ValueError "limit must be nonnegative")
  else with_session session p s
    (Ok (take (Z.to_nat limit) (List.filter (λ e,
       (sequence <? env_sequence e) &&
       bool_decide (ev_event_type (env_event e) ∈ CONVERSATION_MESSAGE_EVENTS) &&
       negb (is_schedule_instruction_event e)) (stream session s)))).

Definition existing_sequences (session : UUID) (sequences : list Z) (p : Principal) (s : t)
    : result (list Z) :=
  with_session session p s
    (Ok (map env_sequence (List.filter (λ e, bool_decide (env_sequence e ∈ sequences))
                             (stream session s)))).

Definition get_by_derivation (key : string) (p : Principal) (s : t) : result (option EventEnvelope) :=
  match _derived s !! key with
  | None => Ok None
  | Some e => with_session (ev_session_id (env_event e)) p s (Ok (Some e))
  end.

Definition raw_list (session : UUID) (sequence : Z) (s : t) : list EventEnvelope :=
  List.filter (λ e, sequence <? env_sequence e) (stream session s).

Definition sequence_key (e : EventEnvelope) : Z * N := (env_sequence e, Z.to_N (env_id e)).
Definition raw_for_run (run : UUID) (s : t) : list EventEnvelope :=
  sort_asc sequence_key
    (List.filter (λ e, bool_decide (ev_run_id (env_event e) = Some run))
       (mjoin (map_to_list (_events s)).*2)).

(** [validate_event_window]; every datetime of the model is aware. *)
Definition validate_event_window (sessions : list UUID) (since until : datetime)
    (after : option (datetime * Z)) (limit : Z) : result unit :=
  if negb ((1 <=? Z.of_nat (length sessions)) && (Z.of_nat (length sessions) <=? 100)) ||
     negb (bool_decide (NoDup sessions)) || negb ((1 <=? limit) && (limit <=? 256))
  then Raise (ValueError "invalid bounded event window")
  else if until <=? since
  then Raise (ValueError "event window requires an aware positive date range")
  else match after with
       | Some (_, i) => if i <? 1 then Raise (ValueError "invalid event window cursor") else Ok tt
       | None => Ok tt
       end.

Definition window_key (e : EventEnvelope) : Z * N := (env_created_at e, Z.to_N (env_id e)).
Fixpoint check_sessions (sessions : list UUID) (p : Principal) (s : t) : result unit :=
  match sessions with
  | [] => Ok tt
  | i :: rest => with_session i p s (check_sessions rest p s)
  end.
Definition list_window (p : Principal) (sessions : list UUID) (since until : datetime)
    (after : option (datetime * Z)) (limit : Z) (s : t) : result (list EventEnvelope) :=
  match validate_event_window sessions since until after limit with
  | Raise e => Raise e
  | Ok _ =>
      match check_sessions sessions p s with
      | Raise e => Raise e
      | Ok _ =>
          let records := List.filter (λ e,
            (since <=? env_created_at e) && (env_created_at e <? until) &&
            match after with
            | None => true
            | Some (t, i) => (t <? env_created_at e) || ((t =? env_created_at e) && (i <? env_id e))
            end) (mjoin (map (λ i, stream i s) sessions)) in
          Ok (take (Z.to_nat limit) (sort_asc window_key records))
      end
  end.

(** ** Histories *)
Section histories.
Context (source_admission_digest : NewEvent → string → option string).

(** Between two appends the session repository, the fences and the memory-source
    permits may change in any way. *)
Inductive op :=
| Append (new : NewEvent) (leased : bool) (now : datetime)
| WithSessions (r : SessionRepo.t)
| SetFences (runs : gset UUID)
| SetPermits (permits : option (gmap (string * string * UUID * Z) string)).
Definition step (s : t) (o : op) : t :=
  match o with
  | Append new leased now => (append source_admission_digest new leased now s).2
  | WithSessions r => s <| _sessions := r |>
  | SetFences runs => s <| _people_erased_runs := runs |>
  | SetPermits permits => s <| source_permits := permits |>
  end.
Definition steps (os : list op) (s : t) : t := foldl step s os.

Definition key_of (e : EventEnvelope) : option string := ev_derivation_key (env_event e).
Record inv (s : t) : Prop := {
  inv_next : 1 ≤ _next_id s;
  inv_sequence : ∀ i n e, stream i s !! n = Some e → env_sequence e = Z.of_nat n + 1;
  inv_session : ∀ i e, e ∈ stream i s → ev_session_id (env_event e) = i;
  inv_ids : ∀ i e, e ∈ stream i s → 1 ≤ env_id e < _next_id s;
  inv_unique : ∀ i j e f, e ∈ stream i s → f ∈ stream j s → env_id e = env_id f → e = f;
  inv_derived : ∀ i e k, e ∈ stream i s → key_of e = Some k → _derived s !! k = Some e;
  inv_stored : ∀ k e, _derived s !! k = Some e →
    key_of e = Some k ∧ e ∈ stream (ev_session_id (env_event e)) s;
}.

Lemma stream_insert i j l s :
  default [] ((<[i := l]> (_events s)) !! j) = if decide (i = j) then l else stream j s.
Proof.
  case_decide as H; [subst; by rewrite lookup_insert_eq|]. by rewrite lookup_insert_ne.
Qed.

(** What an append that stores something stores. *)
Lemma append_state new leased now s :
  (append source_admission_digest new leased now s).2 = s ∨
  ∃ e, existing_derived (env_event e) s = None ∧ env_id e = _next_id s ∧
    let i := ev_session_id (env_event e) in
    env_sequence e = Z.of_nat (length (stream i s)) + 1 ∧ env_created_at e = now ∧
    (append source_admission_digest new leased now s).1 = Ok e ∧
    let s' := (append source_admission_digest new leased now s).2 in
    (∀ j, stream j s' = if decide (i = j) then (stream i s ++ [e])%list else stream j s) ∧
    _next_id s' = _next_id s + 1 ∧
    _derived s' = match key_of e with Some k => <[k := e]> (_derived s) | None => _derived s end.
Proof.
  unfold append. destruct leased; [by left|]. set (event := admitted new s).
  destruct (existing_derived event s) as [x|] eqn:Hd; [by left|].
  destruct (SessionRepo._sessions _ !! _) as [owner|] eqn:Ho; [|by left]. right.
  eexists {| env_id := _next_id s; env_sequence := _; env_event := event; env_created_at := now |}.
  split; [exact Hd|]. split; [done|]. cbn zeta. cbn [env_sequence env_event env_created_at].
  split; [reflexivity|]. split; [done|]. split; [reflexivity|]. split; [|by split].
  intros j. unfold stream at 1. cbn [snd _events]. apply stream_insert.
Qed.

Lemma step_prefix (s : t) (o : op) i : stream i s `prefix_of` stream i (step s o).
Proof.
  destruct o as [new leased now|r|runs|permits]; simpl; try done.
  destruct (append_state new leased now s) as [->|(e & _ & _ & _ & _ & _ & Hst & _)]; [done|].
  rewrite Hst. case_decide as H; [subst; by exists [e]|done].
Qed.

Lemma log_step_inv (s : t) (o : op) : inv s → inv (step s o).
Proof.
  intros Hinv. destruct o as [new leased now|r|runs|permits]; simpl;
    [|by constructor; apply Hinv..].
  destruct (append_state new leased now s) as [->|(e & Hnew & Hid & Hseq & _ & _ & Hst & Hnext & Hder)];
    [done|].
  set (s' := (append _ _ _ _ s).2) in *. set (i := ev_session_id (env_event e)) in *.
  assert (Hin : ∀ j f, f ∈ stream j s' ↔ f ∈ stream j s ∨ (i = j ∧ f = e)).
  { intros j f. rewrite Hst. case_decide as H; [subst; rewrite elem_of_app, list_elem_of_singleton|];
      naive_solver. }
  assert (Hfresh : ∀ j f, f ∈ stream j s → env_id f ≠ env_id e).
  { intros j f Hf. apply (inv_ids _ Hinv) in Hf. lia. }
  assert (Hnokey : ∀ j f k, f ∈ stream j s → key_of f = Some k → key_of e ≠ Some k).
  { intros j f k Hf Hk He. unfold existing_derived in Hnew. unfold key_of in He.
    rewrite He, (inv_derived _ Hinv j f k Hf Hk) in Hnew. done. }
  constructor.
  - rewrite Hnext. pose proof (inv_next _ Hinv). lia.
  - intros j n f Hf. rewrite Hst in Hf. case_decide as H.
    + apply lookup_app_Some in Hf as [Hf|[Hn Hf]]; [by apply Hinv in Hf|].
      apply list_lookup_singleton_Some in Hf as [Hn0 <-]. rewrite Hseq. lia.
    + by apply (inv_sequence _ Hinv) in Hf.
  - intros j f [Hf|[<- ->]]%Hin; [by apply Hinv|done].
  - intros j f [Hf|[<- ->]]%Hin; rewrite Hnext.
    + apply (inv_ids _ Hinv) in Hf. lia.
    + rewrite Hid. pose proof (inv_next _ Hinv). lia.
  - intros j k f g [Hf|[<- ->]]%Hin [Hg|[<- ->]]%Hin Heq; [by eapply (inv_unique _ Hinv)|..|done].
    + by destruct (Hfresh j f Hf).
    + by destruct (Hfresh k g Hg).
  - intros j f k [Hf|[<- ->]]%Hin Hk; rewrite Hder.
    + destruct (key_of e) as [k'|] eqn:Hk'; [|by eapply (inv_derived _ Hinv)].
      rewrite lookup_insert_ne; [by eapply (inv_derived _ Hinv)|].
      intros ->. by destruct (Hnokey j f k Hf Hk).
    + rewrite Hk. by rewrite lookup_insert_eq.
  - intros k f Hf. rewrite Hder in Hf.
    assert ((k, f) = (k, e) ∧ key_of e = Some k ∨ _derived s !! k = Some f) as [[[= ->] Hk]|Hold].
    { destruct (key_of e) as [k'|] eqn:Hk'; [|by right].
      apply lookup_insert_Some in Hf as [[-> ->]|[_ Hf]]; [by left|by right]. }
    + split; [done|]. apply Hin. by right.
    + apply (inv_stored _ Hinv) in Hold as [Hk Hf']. split; [done|]. apply Hin. by left.
Qed.

Lemma log_init_inv r : inv (init r).
Proof.
  assert (∀ i, stream i (init r) = []) as Hnil by done.
  constructor; [done|..]; intros *; rewrite Hnil; set_solver.
Qed.
Lemma log_steps_inv os s : inv s → inv (steps os s).
Proof. revert s. induction os as [|o os IH]; intros s Hs; [done|]. by apply IH, log_step_inv. Qed.
Lemma steps_prefix os s i : stream i s `prefix_of` stream i (steps os s).
Proof.
  revert s. induction os as [|o os IH]; intros s; [done|].
  transitivity (stream i (step s o)); [apply step_prefix|apply IH].
Qed.
End histories.

(** ** Reading on from a cursor *)
Lemma filter_after (l : list EventEnvelope) (base : nat) (n : nat) :
  (∀ k e, l !! k = Some e → env_sequence e = Z.of_nat (base + k) + 1) →
  List.filter (in_range (Z.of_nat (base + n)) None None None) l = drop n l.
Proof.
  revert base n. induction l as [|e l IH]; intros base n Hl; [by rewrite drop_nil|].
  pose proof (Hl 0%nat e eq_refl) as He. simpl. unfold in_range at 1. rewrite He, Nat.add_0_r, !andb_true_r.
  assert (∀ m, (m = n - 1)%nat ∨ n = 0%nat → True) as _ by done.
  destruct n as [|n].
  - replace (Z.of_nat (base + 0) <? Z.of_nat base + 1) with true by lia. rewrite drop_0. f_equal.
    pose proof (IH (S base) 0%nat) as IH0. rewrite drop_0 in IH0.
    rewrite <- IH0 at 2; [|intros k f Hf; rewrite (Hl (S k) f Hf); lia].
    apply List.filter_ext_in. intros f Hf%list_elem_of_In.
    apply list_elem_of_lookup in Hf as [k Hf]. unfold in_range. rewrite (Hl (S k) f Hf).
    f_equal. f_equal. f_equal. lia.
  - replace (Z.of_nat (base + S n) <? Z.of_nat base + 1) with false by lia. simpl.
    rewrite <- (IH (S base) n); [|intros k f Hf; rewrite (Hl (S k) f Hf); lia].
    apply List.filter_ext. intros f. unfold in_range. f_equal. f_equal. f_equal. lia.
Qed.
End EventRepo.

(** ** Properties *)
Import EventRepo.

(** The log is append-only, gapless and deduplicated. Over any history of
    appends, whatever happens to the sessions and fences meanwhile, every stream
    only grows at its end; its sequences are 1, 2, 3, ...; no two stored events
    share an id; and a derivation key is stored at most once, so a derived event
    can be appended again without being recorded twice. *)
Theorem event_log_sound digest os s :
  inv s →
  let s' := steps digest os s in
  (∀ i, stream i s `prefix_of` stream i s') ∧
  (∀ i n e, stream i s' !! n = Some e → env_sequence e = Z.of_nat n + 1 ∧ ev_session_id (env_event e) = i) ∧
  (∀ i j e f, e ∈ stream i s' → f ∈ stream j s' →
     env_id e = env_id f ∨ (key_of e = key_of f ∧ key_of e ≠ None) → e = f).
Proof.
  intros Hs s'. pose proof (log_steps_inv digest os s Hs) as Hinv. fold s' in Hinv.
  split; [intros i; apply steps_prefix|]. split.
  - intros i n e He. split; [by apply (inv_sequence _ Hinv) in He|].
    apply (inv_session _ Hinv). by eapply list_elem_of_lookup_2.
  - intros i j e f He Hf [Hid|[Hk Hne]]; [by eapply (inv_unique _ Hinv)|].
    destruct (key_of e) as [k|] eqn:Hke; [|done].
    pose proof (inv_derived _ Hinv i e k He Hke). pose proof (inv_derived _ Hinv j f k Hf (eq_sym Hk)).
    congruence.
Qed.

(** A reader that follows the log by the last sequence it saw misses nothing
    and sees nothing twice: for a session it may read, [list_after] from a cursor
    gives exactly what lies after it, so consecutive pages of any size
    concatenate to the stream. *)
Theorem list_after_resumes s i p n limit :
  inv s → (∃ x, SessionRepo.get (_sessions s) i p = Ok x) →
  list_after i (Z.of_nat n) p None None None (Some (Z.of_nat limit)) s =
    Ok (take limit (drop n (stream i s))) ∧
  list_after i (Z.of_nat n) p None None None None s = Ok (drop n (stream i s)).
Proof.
  intros Hinv [x Hx]. unfold list_after, with_session. rewrite Hx.
  replace (Z.of_nat limit <? 0) with false by lia. rewrite Nat2Z.id.
  pose proof (filter_after (stream i s) 0 n) as Hf. simpl in Hf.
  rewrite Hf; [done|]. intros k e He. by apply (inv_sequence _ Hinv) in He.
Qed.

(** ** Witnesses *)
Definition message (key : option string) : NewEvent :=
  {| ev_session_id := 2; ev_run_id := Some 7%N; ev_event_type := "user.message.created";
     ev_payload_schema_version := 1; ev_actor_type := "principal"; ev_actor_id := Some "ada";
     ev_payload := [("content", JStr "hello")]; ev_trace_id := None; ev_derivation_key := key |}.
Definition ada_log : t := init (SessionRepo.run_ops three_sessions SessionRepo.init).
(** The second event is derived twice; it is stored once. *)
Definition three_appends : list op :=
  [Append (message None) false 40; Append (message (Some "k")) false 41;
   Append (message (Some "k")) false 42].
Definition no_digest : NewEvent → string → option string := λ _ _, None.

Lemma event_log_sound_witness :
  map env_sequence (stream 2 (steps no_digest three_appends ada_log)) = [1; 2] ∧
  stream 2 ada_log `prefix_of` stream 2 (steps no_digest three_appends ada_log).
Proof.
  split; [vm_compute; reflexivity|].
  exact (proj1 (event_log_sound no_digest three_appends ada_log (log_init_inv _)) 2%N).
Defined.

Lemma list_after_resumes_witness :
  let s := steps no_digest three_appends ada_log in
  list_after 2 1 ada None None None (Some 5) s = Ok (take 5 (drop 1 (stream 2 s))) ∧
  length (drop 1 (stream 2 s)) = 1%nat.
Proof.
  intros s. split; [|vm_compute; reflexivity].
  refine (proj1 (list_after_resumes s 2 ada 1 5 (log_steps_inv no_digest three_appends ada_log (log_init_inv _)) _)).
  eexists. vm_compute. reflexivity.
Defined.
