(* ===== verification/LoopGuards.v ===== *)
(** * The guards of the run loop ([runtime/loop.py])

    What the loop decides between the model and the tools: the reserve kept for
    the final answer, the batch that fits the tool budget, the identical-call
    breaker and the evidence that resets it. The breaker's counters are read from
    and written to the checkpoint's JSON working state through [int()], as the code does. *)
From stdpp Require Import pretty.
From S2P Require Import Prelude PyDecimal RunModel PolicyModel Messages Budgets ModelStream Checkpoints.

Record Step := {
  st_run_id : UUID;
  st_step_number : Z;
  st_started_at : datetime;
  attempt_count : Z;
  st_tool_call_count : Z;
  compactions : Z;
}.
#[global] Instance step_eta : Eta Step := λ s,
  {| st_run_id := st_run_id s; st_step_number := st_step_number s; st_started_at := st_started_at s;
     attempt_count := attempt_count s; st_tool_call_count := st_tool_call_count s;
     compactions := compactions s |}.

Record RunOutcome := {
  outcome_kind : OutcomeKind;
  failure : option RunFailure;
  final_message : option AssistantMessage;
  suspension : option dict;
}.

(** [_failure] *)
Definition _failure (now : datetime) (reason : FailureReason) (error_class message : string)
    (step : option Step) (details : gmap string detail) : RunOutcome :=
  {| outcome_kind := RunModel.OUTCOME_FAILED;
     failure := Some {| RunModel.reason := reason; RunModel.error_class := error_class;
                        RunModel.message := message;
                        RunModel.step_number := st_step_number <$> step;
                        RunModel.attempt_number := attempt_count <$> step;
                        RunModel.occurred_at := now; RunModel.details := details |};
     final_message := None; suspension := None |}.

Definition select_final_message (turn : ModelTurn) : option AssistantMessage :=
  last (assistant_messages turn).

Definition _has_final_text (m : option AssistantMessage) : bool :=
  match m with
  | None => false
  | Some m => existsb (λ p, match p with TextPart t => negb (String.eqb t "") | _ => false end)
                (am_content m)
  end.

(** ** JSON values as Python reads them *)
Fixpoint int_digits (acc : Z) (after_digit : bool) (s : string) : option Z :=
  match s with
  | EmptyString => if after_digit then Some acc else None
  | String c s =>
      let n := Z.of_N (Ascii.N_of_ascii c) in
      if (48 <=? n) && (n <=? 57) then int_digits (10 * acc + (n - 48)) true s
      else if Ascii.eqb c "_" && after_digit then int_digits acc false s else None
  end.
(** [int(s)] on text: white space around, a sign, digits with single underscores. *)
Definition int_text (s : string) : option Z :=
  match py_split s with
  | [String c w] =>
      if Ascii.eqb c "-" then Z.opp <$> int_digits 0 false w
      else if Ascii.eqb c "+" then int_digits 0 false w else int_digits 0 false (String c w)
  | _ => None
  end.
Definition py_int (v : json) : result Z :=
  match v with
  | JInt z => Ok z
  | JBool b => Ok (Z.b2z b)
  | JFloat m e => Ok (if 0 <=? e then m * 2 ^ e else Z.quot m (2 ^ (- e)))
  | JStr s => match int_text s with
              | Some z => Ok z
              | None => Raise (ValueError "invalid literal for int() with base 10")
              end
  | _ => Raise (TypeError "int() argument must be a string or a real number")
  end.
Definition truthy (v : json) : bool :=
  match v with
  | JNull => false
  | JBool b => b
  | JInt z => negb (z =? 0)
  | JFloat m _ => negb (m =? 0)
  | JStr s => negb (String.eqb s "")
  | JArr l => match l with [] => false | _ => true end
  | JObj o => match o with [] => false | _ => true end
  end.
Definition dict_pop (key : string) (d : dict) : dict :=
  List.filter (λ kv, negb (String.eqb kv.1 key)) d.
(** [d.setdefault(key, {})] *)
Definition setdefault_obj (key : string) (d : dict) : dict :=
  match dict_get key d with Some _ => d | None => (d ++ [(key, JObj [])])%list end.
(** [int(counts.get(key, 0))] *)
Definition count_of (key : string) (counts : dict) : result Z :=
  py_int (default (JInt 0) (dict_get key counts)).

Definition fingerprint (call : ToolCallItem) : string :=
  tc_name call +:+ ":" +:+ raw_arguments call.

(** ** Evidence *)
Definition MAXIMUM_EVIDENCE_RESETS : Z := 32.

(** One call of the loop, over the counts, the recorded evidence and the resets. *)
Definition evidence_call (evidence : dict) (call : ToolCallItem)
    (st : dict * dict * dict) : result (dict * dict * dict) :=
  let '(ws, counts, recorded) := st in
  match dict_get (call_id call) evidence with
  | Some (JStr key) =>
      let f := fingerprint call in
      let previous := dict_get f recorded in
      let recorded := dict_set f (JStr key) recorded in
      match previous with
      | None | Some JNull => Ok (ws, counts, recorded)
      | Some previous =>
          if json_eqb previous (JStr key) then Ok (ws, counts, recorded)
          else
            match count_of "identical_call_resets" ws with
            | Raise e => Raise e
            | Ok resets =>
                match count_of f counts with
                | Raise e => Raise e
                | Ok c =>
                    if (1 <? c) && (resets <? MAXIMUM_EVIDENCE_RESETS)
                    then Ok (dict_set "identical_call_resets" (JInt (resets + 1)) ws,
                             dict_set f (JInt 1) counts, recorded)
                    else Ok (ws, counts, recorded)
                end
            end
      end
  | _ => Ok (ws, counts, recorded)
  end.
Fixpoint evidence_calls (evidence : dict) (calls : list ToolCallItem) (st : dict * dict * dict)
    : result (dict * dict * dict) :=
  match calls with
  | [] => Ok st
  | c :: rest => match evidence_call evidence c st with
                 | Raise e => Raise e
                 | Ok st' => evidence_calls evidence rest st'
                 end
  end.

(** The dictionaries are mutated in place: they are written back into the state. *)
Definition apply_tool_evidence (working_state : dict) (calls : list ToolCallItem) : result dict :=
  let ws := dict_pop "tool_evidence" working_state in
  match dict_get "tool_evidence" working_state with
  | Some (JObj evidence) =>
      let counts := dict_get "identical_calls" ws in
      let ws := setdefault_obj "identical_call_evidence" ws in
      match counts, dict_get "identical_call_evidence" ws with
      | Some (JObj counts), Some (JObj recorded) =>
          match evidence_calls evidence calls (ws, counts, recorded) with
          | Raise e => Raise e
          | Ok (ws, counts, recorded) =>
              Ok (dict_set "identical_calls" (JObj counts)
                    (dict_set "identical_call_evidence" (JObj recorded) ws))
          end
      | _, _ => Ok ws
      end
  | _ => Ok ws
  end.

(** ** The synthesis reserve

    Seconds are compared in microseconds; Python divides the same whole numbers of
    microseconds as floats. *)
Definition _synthesis_reserve_dimension (run : Run) (now : option datetime)
    (step_in_progress before_model_attempt : bool) : option string :=
  let limits := limits run in
  let remaining_tool_calls := max_tool_calls limits - tool_call_count run in
  if remaining_tool_calls <=? 0 then Some "tool_calls"
  else if (synthesis_reserve_steps limits =? 0) && (synthesis_reserve_model_calls limits =? 0) &&
          (synthesis_reserve_tool_calls limits =? 0) && (coef (synthesis_reserve_cost limits) =? 0)
  then None
  else if match now, run_deadline_at run with
          | Some now, Some deadline =>
              5 * (deadline - now) <=?
              Z.min (5 * seconds 60) (Z.max 0 (deadline - created_at run))
          | _, _ => false
          end
  then Some "time"
  else if max_steps limits - step_count run + Z.b2z step_in_progress <=? synthesis_reserve_steps limits
  then Some "steps"
  else if max_model_calls limits - model_call_count run - Z.b2z before_model_attempt <=?
          synthesis_reserve_model_calls limits
  then Some "model_calls"
  else if remaining_tool_calls <=? synthesis_reserve_tool_calls limits then Some "tool_calls"
  else match max_cost limits with
       | Some c => if dec_leb (dec_sub default_prec c (cost (usage run))) (synthesis_reserve_cost limits)
                   then Some "cost" else None
       | None => None
       end.

(** ** The batch that fits *)
Section batches.
(** [outcome.model_dump_json()] *)
Context (model_dump_json : ToolOutcome → string).

Definition refusal (reserve : option string) (call : ToolCallItem) : ToolCallItem * ToolResultItem :=
  let answer_reserved := bool_decide (reserve ∈ [Some "time"; Some "cost"]) in
  let outcome :=
    {| outcome_status := OUTCOME_FAILED; outcome_action := tc_name call;
       outcome_reason_code := "tool.budget_exhausted";
       Messages.message :=
         if answer_reserved
         then "Not performed. The remaining " +:+ default "None" reserve +:+
              " is reserved for the final answer; answer from the evidence already gathered."
         else "Not performed. The run's tool-call budget is exhausted; answer from the evidence already gathered.";
       retryable := false; remediation := REMEDIATION_NONE |} in
  (call, {| tr_call_id := call_id call; content := [TextPart (model_dump_json outcome)];
            context_content := None; memory_recall := None; is_error := true;
            tr_trust := PLATFORM; source_event_sequence := None |}).

Definition _fit_tool_batch (run : Run) (calls : list ToolCallItem) (used : option Z)
    (now : option datetime) (step_in_progress : bool)
    : list ToolCallItem * list (ToolCallItem * ToolResultItem) :=
  let count := default (tool_call_count run) used in
  let remaining := Z.max 0 (max_tool_calls (limits run) - count) in
  let reserve := match now with
                 | Some _ => _synthesis_reserve_dimension run now step_in_progress false
                 | None => None
                 end in
  let remaining := if bool_decide (reserve ∈ [Some "time"; Some "cost"]) then 0 else remaining in
  (take (Z.to_nat remaining) calls, map (refusal reserve) (drop (Z.to_nat remaining) calls)).
End batches.

(** ** The breaker *)
Fixpoint any_at_least (n : Z) (counts : dict) : result bool :=
  match counts with
  | [] => Ok false
  | (_, v) :: rest =>
      match py_int v with
      | Raise e => Raise e
      | Ok c => if n <=? c then Ok true else any_at_least n rest
      end
  end.
Definition _loop_synthesis_needed (threshold : Z) (working_state : dict) : result bool :=
  match default (JObj []) (dict_get "identical_calls" working_state) with
  | JObj counts => any_at_least (threshold - 1) counts
  | _ => Ok false
  end.

(** Count the batch; the first call that reaches the threshold stops it. *)
Fixpoint count_calls (threshold : Z) (calls : list ToolCallItem) (counts : dict)
    : result (bool * dict) :=
  match calls with
  | [] => Ok (false, counts)
  | c :: rest =>
      match count_of (fingerprint c) counts with
      | Raise e => Raise e
      | Ok n =>
          let counts := dict_set (fingerprint c) (JInt (n + 1)) counts in
          if threshold <=? n + 1 then Ok (true, counts) else count_calls threshold rest counts
      end
  end.

Definition guard_tool_turn (run : Run) (working_state : dict) (threshold : Z)
    (calls : list ToolCallItem) (step : Step) (loop_synthesis : option bool)
    (requested_synthesis : option string) (now : datetime) : result (option RunOutcome * dict) :=
  match match loop_synthesis with
        | Some b => Ok b
        | None => _loop_synthesis_needed threshold working_state
        end with
  | Raise e => Raise e
  | Ok loop_synthesis =>
      let reserve := _synthesis_reserve_dimension run None true false in
      let reserve :=
        if match dict_get "browser_workflow_report_only" working_state with
           | Some v => truthy v | None => false end
        then Some "browser_workflow" else reserve in
      let requested := bool_decide (requested_synthesis ∈ [Some "time"; Some "cost"]) in
      let reserve := if requested then requested_synthesis else reserve in
      match reserve with
      | Some dimension =>
          if negb (String.eqb dimension "cost") || bool_decide (requested_synthesis = Some "cost")
          then Ok (Some (_failure now BUDGET_EXCEEDED "SynthesisReserveViolation"
                 "the model requested another tool inside its final synthesis reserve" (Some step)
                 {[ "synthesis_reserve" := DStr dimension ]}), working_state)
          else Ok (None, working_state)
      | None =>
          if loop_synthesis
          then Ok (Some (_failure now TOOL_LOOP_DETECTED "ToolLoopDetected"
                 "the model requested another tool during repeated-tool synthesis" (Some step)
                 {[ "identical_call_threshold" := DInt threshold ]}), working_state)
          else
            let ws := setdefault_obj "identical_calls" working_state in
            match dict_get "identical_calls" ws with
            | Some (JObj counts) =>
                match count_calls threshold calls counts with
                | Raise e => Raise e
                | Ok (tripped, counts) =>
                    let ws := dict_set "identical_calls" (JObj counts) ws in
                    Ok (if tripped
                        then Some (_failure now TOOL_LOOP_DETECTED "ToolLoopDetected"
                               ("the model repeated an identical tool call " +:+ pretty threshold +:+ " times")
                               (Some step) ∅)
                        else None, ws)
                end
            | _ => Ok (Some (_failure now INTERNAL_ERROR "WorkingStateError"
                     "the identical-call counter was malformed" (Some step) ∅), ws)
            end
      end
  end.

(** ** Facts about the batch *)
Lemma fit_split dump run calls used now sip :
  let '(fitted, refused) := _fit_tool_batch dump run calls used now sip in
  (fitted ++ map fst refused)%list = calls ∧
  Z.of_nat (length fitted) ≤ Z.max 0 (max_tool_calls (limits run) - default (tool_call_count run) used).
Proof.
  unfold _fit_tool_batch. set (n := Z.to_nat _). split.
  - rewrite List.map_map. cbn. rewrite map_id. apply take_drop.
  - rewrite length_take. subst n. case_bool_decide; lia.
Qed.

Lemma reserve_without_time run now sip :
  _synthesis_reserve_dimension run None sip false = Some "cost" →
  _synthesis_reserve_dimension run (Some now) sip false ∈ [Some "time"; Some "cost"].
Proof.
  unfold _synthesis_reserve_dimension. cbn zeta.
  destruct (_ <=? 0); [done|]. destruct (_ && _ && _ && _); [done|].
  destruct (run_deadline_at run) as [d|]; cbn.
  - destruct (5 * (d - now) <=? _); [set_solver|]. intros ->. set_solver.
  - intros ->. set_solver.
Qed.

(** Fitting splits a batch without losing, duplicating or reordering a call: the
    fitted calls followed by the refused ones are the batch, the fitted ones are
    the longest prefix the tool budget allows, a time or cost reserve fits nothing,
    and every refused call gets an error result of its own, with platform trust. *)
Theorem fit_exact dump run calls used now sip fitted refused :
  _fit_tool_batch dump run calls used now sip = (fitted, refused) →
  let remaining := Z.max 0 (max_tool_calls (limits run) - default (tool_call_count run) used) in
  let reserved := match now with
                  | Some _ => bool_decide (_synthesis_reserve_dimension run now sip false
                                             ∈ [Some "time"; Some "cost"])
                  | None => false
                  end in
  (fitted ++ map fst refused)%list = calls ∧
  Z.of_nat (length fitted) =
    (if reserved then 0 else Z.min remaining (Z.of_nat (length calls))) ∧
  Forall (λ cr, tr_call_id cr.2 = call_id cr.1 ∧ is_error cr.2 = true ∧
                tr_trust cr.2 = PLATFORM) refused.
Proof.
  intros Hf. assert (Hs := fit_split dump run calls used now sip). rewrite Hf in Hs.
  destruct Hs as [Hs _]. split; [done|]. unfold _fit_tool_batch in Hf. injection Hf as <- <-.
  split.
  - rewrite length_take. destruct now as [t|]; cbn [default];
      [case_bool_decide|rewrite bool_decide_false by set_solver]; lia.
  - apply Forall_map, Forall_true. intros c. by repeat split.
Qed.

(** ** The breaker's counters *)
Lemma dict_get_pop_ne key k d : k ≠ key → dict_get key (dict_pop k d) = dict_get key d.
Proof.
  intros Hne. induction d as [|[x v] d IH]; [done|]. unfold dict_pop in *. cbn.
  destruct (String.eqb_spec x k) as [->|]; cbn.
  - rewrite IH. by destruct (String.eqb_spec k key).
  - by rewrite IH.
Qed.
Lemma dict_get_setdefault key d :
  dict_get key (setdefault_obj key d) = Some (default (JObj []) (dict_get key d)).
Proof.
  unfold setdefault_obj. destruct (dict_get key d) eqn:E; [done|].
  rewrite dict_get_app, E. cbn. by rewrite String.eqb_refl.
Qed.
Lemma dict_get_setdefault_ne key k d :
  k ≠ key → dict_get key (setdefault_obj k d) = dict_get key d.
Proof.
  intros Hne. unfold setdefault_obj. destruct (dict_get k d); [done|].
  rewrite dict_get_app. cbn. destruct (String.eqb_spec k key); [done|]. by destruct (dict_get key d).
Qed.
Lemma count_of_set k key n d :
  count_of k (dict_set key (JInt n) d) = if String.eqb key k then Ok n else count_of k d.
Proof. unfold count_of. rewrite dict_get_set. by destruct (String.eqb key k). Qed.

(** How often the calls of a batch carry the fingerprint [f]. *)
Definition occurrences (f : string) (calls : list ToolCallItem) : Z :=
  Z.of_nat (length (List.filter (λ c, String.eqb (fingerprint c) f) calls)).

Lemma occurrences_cons f c calls :
  occurrences f (c :: calls) = Z.b2z (String.eqb (fingerprint c) f) + occurrences f calls.
Proof. unfold occurrences. cbn. destruct (String.eqb (fingerprint c) f); cbn [length Z.b2z]; lia. Qed.
Lemma occurrences_take f n calls : occurrences f (take n calls) ≤ occurrences f calls.
Proof.
  revert n. induction calls as [|c calls IH]; intros [|n]; [done..|unfold occurrences; cbn; lia|].
  cbn [take]. rewrite !occurrences_cons. specialize (IH n). lia.
Qed.

Lemma count_calls_counted thr f calls counts counts' n :
  count_of f counts = Ok n → count_calls thr calls counts = Ok (false, counts') →
  count_of f counts' = Ok (n + occurrences f calls) ∧
  (occurrences f calls = 0 ∨ n + occurrences f calls < thr).
Proof.
  revert counts n. induction calls as [|c calls IH]; intros counts n Hn; cbn.
  - intros [= <-]. unfold occurrences. cbn. rewrite Z.add_0_r. auto.
  - destruct (count_of (fingerprint c) counts) as [m|e] eqn:Hm; [|done].
    destruct (Z.leb_spec thr (m + 1)); [done|]. intros Hc. rewrite occurrences_cons.
    destruct (String.eqb_spec (fingerprint c) f) as [He|He].
    + subst f. rewrite Hm in Hn. injection Hn as ->.
      destruct (IH _ (n + 1) ltac:(by rewrite count_of_set, String.eqb_refl) Hc) as [H1 H2].
      rewrite H1. cbn [Z.b2z]. split; [f_equal; lia|]. destruct H2; lia.
    + cbn [Z.b2z]. rewrite Z.add_0_l. eapply IH; [|exact Hc]. rewrite count_of_set.
      apply String.eqb_neq in He. by rewrite He.
Qed.

(** The counter of [f] and the resets used, as the working state records them. *)
Definition recorded (f : string) (ws : dict) (c r : Z) : Prop :=
  count_of "identical_call_resets" ws = Ok r ∧
  match dict_get "identical_calls" ws with
  | Some (JObj counts) => count_of f counts = Ok c
  | None => c = 0
  | _ => False
  end.

(** What a fingerprint has cost so far: its count, and a bounded share per reset. *)
Definition accounted (thr n c r : Z) : Prop :=
  c ≤ thr - 1 ∧ 0 ≤ r ≤ MAXIMUM_EVIDENCE_RESETS ∧ n ≤ c + r * (thr - 2).

Lemma evidence_call_accounted thr f evidence call ws counts rec ws' counts' rec' n c r :
  2 ≤ thr →
  evidence_call evidence call (ws, counts, rec) = Ok (ws', counts', rec') →
  count_of "identical_call_resets" ws = Ok r → count_of f counts = Ok c → accounted thr n c r →
  ∃ c' r', count_of "identical_call_resets" ws' = Ok r' ∧ count_of f counts' = Ok c' ∧
           accounted thr n c' r'.
Proof.
  intros Hthr He Hr Hc Ha. unfold evidence_call in He. cbv zeta in He. revert He.
  assert (Hsame : ∀ x, Ok (ws, counts, x) = Ok (ws', counts', rec') →
    ∃ c' r', count_of "identical_call_resets" ws' = Ok r' ∧ count_of f counts' = Ok c' ∧
             accounted thr n c' r') by (intros x [= <- <- _]; eauto).
  destruct (dict_get (call_id call) evidence) as [[]|]; try apply Hsame.
  destruct (dict_get (fingerprint call) rec) as [p|]; [|apply Hsame].
  assert (Hreset : match count_of "identical_call_resets" ws with
    | Raise e => Raise e
    | Ok resets => match count_of (fingerprint call) counts with
                   | Raise e => Raise e
                   | Ok c => if (1 <? c) && (resets <? MAXIMUM_EVIDENCE_RESETS)
                     then Ok (dict_set "identical_call_resets" (JInt (resets + 1)) ws,
                              dict_set (fingerprint call) (JInt 1) counts,
                              dict_set (fingerprint call) (JStr s) rec)
                     else Ok (ws, counts, dict_set (fingerprint call) (JStr s) rec)
                   end
    end = Ok (ws', counts', rec') →
    ∃ c' r', count_of "identical_call_resets" ws' = Ok r' ∧ count_of f counts' = Ok c' ∧
             accounted thr n c' r').
  { rewrite Hr. destruct (count_of (fingerprint call) counts) as [m|] eqn:Hm; [|done].
    destruct ((1 <? m) && (r <? MAXIMUM_EVIDENCE_RESETS)) eqn:Hb; [|apply Hsame].
    apply andb_true_iff in Hb as [H1%Z.ltb_lt H2%Z.ltb_lt]. intros [= <- <- _].
    rewrite count_of_set, String.eqb_refl. setoid_rewrite count_of_set.
    unfold accounted in *. destruct (String.eqb_spec (fingerprint call) f) as [He|].
    - rewrite <- He, Hm in Hc. injection Hc as ->. exists 1, (r + 1). repeat split; nia.
    - exists c, (r + 1). repeat split; [done|nia..]. }
  destruct p; try apply Hsame; (destruct (json_eqb _ _); [apply Hsame|exact Hreset]).
Qed.

Lemma evidence_calls_accounted thr f evidence calls ws counts rec ws' counts' rec' n c r :
  2 ≤ thr →
  evidence_calls evidence calls (ws, counts, rec) = Ok (ws', counts', rec') →
  count_of "identical_call_resets" ws = Ok r → count_of f counts = Ok c → accounted thr n c r →
  ∃ c' r', count_of "identical_call_resets" ws' = Ok r' ∧ count_of f counts' = Ok c' ∧
           accounted thr n c' r'.
Proof.
  intros Hthr. revert ws counts rec c r.
  induction calls as [|call calls IH]; intros ws counts rec c r He Hr Hc Ha.
  - injection He as <- <- <-. eauto.
  - cbn [evidence_calls] in He.
    destruct (evidence_call evidence call (ws, counts, rec)) as [[[w k] x]|] eqn:E; [|done].
    destruct (evidence_call_accounted _ _ _ _ _ _ _ _ _ _ _ _ _ Hthr E Hr Hc Ha)
      as (c1 & r1 & ? & ? & ?). eauto.
Qed.

Lemma apply_tool_evidence_accounted thr f ws calls ws' n c r :
  2 ≤ thr → apply_tool_evidence ws calls = Ok ws' →
  recorded f ws c r → accounted thr n c r →
  ∃ c' r', recorded f ws' c' r' ∧ accounted thr n c' r'.
Proof.
  intros Hthr He [Hr Hc] Ha. revert He. unfold apply_tool_evidence.
  set (ws0 := dict_pop "tool_evidence" ws).
  assert (Hr0 : count_of "identical_call_resets" ws0 = Ok r).
  { unfold count_of, ws0. by rewrite dict_get_pop_ne. }
  assert (Hg : dict_get "identical_calls" ws0 = dict_get "identical_calls" ws)
    by (unfold ws0; by rewrite dict_get_pop_ne).
  assert (Hstop : ∀ w, count_of "identical_call_resets" w = Ok r →
      dict_get "identical_calls" w = dict_get "identical_calls" ws → Ok w = Ok ws' →
      ∃ c' r', recorded f ws' c' r' ∧ accounted thr n c' r').
  { intros w H1 H2 [= ->]. exists c, r. unfold recorded. by rewrite H1, H2. }
  cbv zeta. set (ws1 := setdefault_obj "identical_call_evidence" ws0).
  assert (Hr1 : count_of "identical_call_resets" ws1 = Ok r).
  { unfold count_of, ws1. by rewrite dict_get_setdefault_ne. }
  assert (Hg1 : dict_get "identical_calls" ws1 = dict_get "identical_calls" ws)
    by (unfold ws1; by rewrite dict_get_setdefault_ne).
  rewrite Hg. destruct (dict_get "tool_evidence" ws) as [[]|]; try by apply Hstop.
  destruct (dict_get "identical_calls" ws) as [[]|] eqn:Ec; try by apply Hstop.
  destruct (dict_get "identical_call_evidence" ws1) as [[]|]; try by apply Hstop.
  destruct (evidence_calls _ _ _) as [[[w k] x]|] eqn:E; [|done]. intros [= <-].
  destruct (evidence_calls_accounted _ _ _ _ _ _ _ _ _ _ _ _ _ Hthr E Hr1 Hc Ha)
    as (c' & r' & H1 & H2 & H3).
  exists c', r'. split; [|done]. split.
  - unfold count_of. by rewrite !dict_get_set_ne.
  - by rewrite dict_get_set_eq.
Qed.

Lemma guard_recorded f run ws thr calls step ls rq now ws' c r :
  guard_tool_turn run ws thr calls step ls rq now = Ok (None, ws') →
  recorded f ws c r →
  (ws' = ws ∧ _synthesis_reserve_dimension run None true false = Some "cost") ∨
  (recorded f ws' (c + occurrences f calls) r ∧
   (occurrences f calls = 0 ∨ c + occurrences f calls < thr)).
Proof.
  intros Hg [Hr Hc]. revert Hg. unfold guard_tool_turn.
  destruct (match ls with Some b => _ | None => _ end) as [needed|]; [|done]. cbv zeta.
  set (report := match dict_get "browser_workflow_report_only" ws with Some _ => _ | None => _ end).
  destruct (bool_decide (rq ∈ _)) eqn:Hrq.
  { apply bool_decide_eq_true in Hrq. apply elem_of_cons in Hrq as [->|Hrq]; [done|].
    apply list_elem_of_singleton in Hrq as ->. done. }
  destruct report; [done|].
  destruct (_synthesis_reserve_dimension run None true false) as [d|].
  { destruct (negb (String.eqb d "cost") || _) eqn:Hd; [done|]. intros [= <-]. left.
    apply orb_false_iff in Hd as [Hd _]. apply negb_false_iff, String.eqb_eq in Hd as ->. done. }
  destruct needed; [done|]. rewrite dict_get_setdefault.
  assert (Hcounts : ∃ counts, default (JObj []) (dict_get "identical_calls" ws) = JObj counts ∧
                              count_of f counts = Ok c).
  { destruct (dict_get "identical_calls" ws) as [[]|]; try done; [by exists o|].
    exists []. by rewrite Hc. }
  destruct Hcounts as (counts & -> & Hcf).
  destruct (count_calls thr calls counts) as [[[] counts']|] eqn:Ecc; [done| |done].
  intros [= <-]. right. destruct (count_calls_counted _ _ _ _ _ _ Hcf Ecc) as [H1 H2].
  split; [|done]. split.
  - unfold count_of in *. by rewrite dict_get_set_ne, dict_get_setdefault_ne.
  - by rewrite dict_get_set_eq.
Qed.

(** The turns of a run as its working state sees them, and how many model calls
    with the fingerprint [f] were handed to the tools: a turn passes the guard and
    its batch is fitted; evidence is applied, here or on the resume path; and the
    rest of the runtime writes other keys of the working state. *)
Inductive turns (dump : ToolOutcome → string) (thr : Z) (f : string) : dict → Z → Prop :=
| turns_start ws :
    dict_get "identical_calls" ws = None → dict_get "identical_call_resets" ws = None →
    turns dump thr f ws 0
| turns_other ws ws' n :
    turns dump thr f ws n →
    dict_get "identical_calls" ws' = dict_get "identical_calls" ws →
    dict_get "identical_call_resets" ws' = dict_get "identical_call_resets" ws →
    turns dump thr f ws' n
| turns_evidence ws ws' n calls :
    turns dump thr f ws n → apply_tool_evidence ws calls = Ok ws' → turns dump thr f ws' n
| turns_turn ws ws' n run calls step ls rq guarded_at used fitted_at fitted refused :
    turns dump thr f ws n →
    guard_tool_turn run ws thr calls step ls rq guarded_at = Ok (None, ws') →
    _fit_tool_batch dump run calls used (Some fitted_at) true = (fitted, refused) →
    turns dump thr f ws' (n + occurrences f fitted).

Lemma fitted_occurrences dump f run calls used now sip fitted refused :
  _fit_tool_batch dump run calls used now sip = (fitted, refused) →
  occurrences f fitted ≤ occurrences f calls.
Proof. unfold _fit_tool_batch. intros [= <- _]. apply occurrences_take. Qed.

Lemma turns_accounted dump thr f ws n :
  2 ≤ thr → turns dump thr f ws n → ∃ c r, recorded f ws c r ∧ accounted thr n c r.
Proof.
  intros Hthr. induction 1 as [ws H1 H2|ws ws' n H IH H1 H2|ws ws' n calls H IH He
                              |ws ws' n run calls step ls rq t1 used t2 fitted refused H IH Hg Hf].
  - exists 0, 0. unfold recorded, count_of, accounted. rewrite H1, H2. unfold MAXIMUM_EVIDENCE_RESETS. cbn [default from_option]. repeat split; lia.
  - destruct IH as (c & r & [? ?] & Ha). exists c, r. split; [|done].
    unfold recorded, count_of. by rewrite H1, H2.
  - destruct IH as (c & r & Hrec & Ha). by eapply apply_tool_evidence_accounted.
  - destruct IH as (c & r & Hrec & Ha).
    destruct (guard_recorded _ _ _ _ _ _ _ _ _ _ _ _ Hg Hrec) as [[-> Hres]|[Hrec' Hlt]].
    + exists c, r. split; [done|]. apply (reserve_without_time _ t2) in Hres.
      unfold _fit_tool_batch in Hf. rewrite bool_decide_true in Hf by done.
      injection Hf as <- _. unfold occurrences. cbn. by rewrite Z.add_0_r.
    + exists (c + occurrences f calls), r. split; [done|].
      pose proof (fitted_occurrences _ f _ _ _ _ _ _ _ Hf). unfold accounted in *. lia.
Qed.

(** The identical-call breaker bounds repetition whatever the model asks and
    whatever the tools observe: however a run interleaves its turns, evidence and
    other working-state writes, at most [(threshold - 1) + 32 * (threshold - 2)]
    calls with one name and one argument text are ever handed to the tools. *)
Theorem identical_calls_bounded dump thr f ws n :
  2 ≤ thr → turns dump thr f ws n → n ≤ (thr - 1) + MAXIMUM_EVIDENCE_RESETS * (thr - 2).
Proof.
  intros Hthr H. destruct (turns_accounted _ _ _ _ _ Hthr H) as (c & r & _ & Ha).
  unfold accounted, MAXIMUM_EVIDENCE_RESETS in *. nia.
Qed.

(** ** Witnesses *)
Definition sample_call (i : string) : ToolCallItem :=
  {| call_id := i; item_index := 0; tc_name := "files.read"; tc_arguments := [];
     raw_arguments := "{}"; parse_error := None; tc_source_event_sequence := None |}.
Definition sample_step : Step :=
  {| st_run_id := 1; st_step_number := 1; st_started_at := 0; attempt_count := 0;
     st_tool_call_count := 0; compactions := 0 |}.
Definition sample_dump (o : ToolOutcome) : string := outcome_reason_code o.

Lemma fit_exact_witness :
  ∃ fitted refused,
    _fit_tool_batch sample_dump (sample_run 1 9 RUNNING)
      [sample_call "a"; sample_call "b"] (Some 23) (Some 5) true = (fitted, refused) ∧
    (fitted ++ map fst refused)%list = [sample_call "a"; sample_call "b"] ∧
    length fitted = 1%nat ∧ map (λ cr, tr_call_id cr.2) refused = ["b"].
Proof.
  destruct (_fit_tool_batch sample_dump (sample_run 1 9 RUNNING)
      [sample_call "a"; sample_call "b"] (Some 23) (Some 5) true) as [fitted refused] eqn:E.
  exists fitted, refused. split; [reflexivity|].
  destruct (fit_exact _ _ _ _ _ _ _ _ E) as [H _]. split; [exact H|].
  vm_compute in E. injection E as <- <-. split; reflexivity.
Defined.

Lemma identical_calls_bounded_witness :
  ∃ ws, turns sample_dump 5 (fingerprint (sample_call "a")) ws 2 ∧
        2 ≤ (5 - 1) + MAXIMUM_EVIDENCE_RESETS * (5 - 2).
Proof.
  destruct (guard_tool_turn (sample_run 1 9 RUNNING) [] 5 [sample_call "a"; sample_call "b"]
              sample_step None None 3) as [[[o|] ws]|] eqn:E; [discriminate| |discriminate].
  assert (H : turns sample_dump 5 (fingerprint (sample_call "a")) ws 2).
  { refine (turns_turn sample_dump 5 _ [] ws 0 (sample_run 1 9 RUNNING)
              [sample_call "a"; sample_call "b"] sample_step None None 3 None 5
              [sample_call "a"; sample_call "b"] [] _ E _); [by apply turns_start|].
    vm_compute. reflexivity. }
  exists ws. split; [exact H|].
  exact (identical_calls_bounded sample_dump 5 _ ws 2 ltac:(lia) H).
Defined.
