(* ===== verification/Artifacts.v ===== *)
(** * The files of a reply ([domain/artifacts.py], [domain/trajectory.py])

    Which of a run's exported files ride on its final reply. *)
From S2P Require Import Prelude PolicyModel Messages.

Record ArtifactRef := {
  art_id : UUID;
  art_tenant_id : string;
  art_principal_id : string;
  art_session_id : UUID;
  art_run_id : option UUID;
  art_name : string;
  art_media_type : string;
  storage_uri : string;
  art_sha256 : string;
  art_size_bytes : Z;
  origin : string;
  art_trust : TrustLevel;
  art_expires_at : option datetime;
  art_created_at : datetime;
  art_metadata : dict;
}.

Definition EMAIL_SOURCE_METADATA_KEY : string := "email_source".
Definition REPLY_ATTACHMENT_ORIGINS : list string :=
  ["sandbox_export"; "model_output"; "email_attachment"].

Definition saved_from (metadata : dict) : option string :=
  match dict_get EMAIL_SOURCE_METADATA_KEY metadata with
  | Some (JObj source) =>
      match dict_get "message_id" source with
      | Some (JStr m) => if String.eqb m "" then None else Some m
      | _ => None
      end
  | _ => None
  end.

Definition reply_key (a : ArtifactRef) : string * string * option string :=
  (art_name a, art_sha256 a, saved_from (art_metadata a)).
Definition expired (now : datetime) (a : ArtifactRef) : bool :=
  match art_expires_at a with Some t => t <=? now | None => false end.
Definition attachable (now : datetime) (a : ArtifactRef) : bool :=
  bool_decide (origin a ∈ REPLY_ATTACHMENT_ORIGINS) && negb (expired now a).

(** The loop over the sorted artifacts, with the keys seen. *)
Fixpoint choose (now : datetime) (seen : list (string * string * option string))
    (l : list ArtifactRef) : list ArtifactRef :=
  match l with
  | [] => []
  | a :: l =>
      if negb (bool_decide (origin a ∈ REPLY_ATTACHMENT_ORIGINS)) ||
         bool_decide (reply_key a ∈ seen) || expired now a
      then choose now seen l
      else a :: choose now (reply_key a :: seen) l
  end.
Definition creation_key (a : ArtifactRef) : Z * N := (art_created_at a, art_id a).
Definition reply_attachments (artifacts : list ArtifactRef) (now : datetime) : list ArtifactRef :=
  choose now [] (sort_asc creation_key artifacts).

Definition reply_file_reference (a : ArtifactRef) : ContentPart :=
  FileReferencePart (art_id a) (art_media_type a) (Some (art_name a)) (Some (art_size_bytes a)) None.

(** ** What is chosen *)
Lemma choose_spec now seen l :
  choose now seen l `sublist_of` l ∧
  Forall (λ a, attachable now a = true ∧ reply_key a ∉ seen) (choose now seen l) ∧
  NoDup (map reply_key (choose now seen l)) ∧
  ∀ a, a ∈ l → attachable now a = true → reply_key a ∈ seen ∨ reply_key a ∈ map reply_key (choose now seen l).
Proof.
  revert seen. induction l as [|a l IH]; intros seen; cbn [choose].
  { split; [done|]. split; [done|]. split; [constructor|]. by intros ? ?%not_elem_of_nil. }
  destruct (_ || _) eqn:E.
  - destruct (IH seen) as (Hs & Hf & Hn & Hc). split; [by constructor|]. split; [done|]. split; [done|].
    intros b [->|Hb]%elem_of_cons Hat; [|by apply Hc]. left.
    apply orb_true_iff in E as [[E|E]%orb_true_iff|E].
    + unfold attachable in Hat. by rewrite (proj1 (negb_true_iff _) E) in Hat.
    + by apply bool_decide_eq_true in E.
    + unfold attachable in Hat. rewrite E, andb_false_r in Hat. done.
  - apply orb_false_iff in E as [[E1%negb_false_iff E2%bool_decide_eq_false]%orb_false_iff E3].
    destruct (IH (reply_key a :: seen)) as (Hs & Hf & Hn & Hc). split; [by constructor|].
    split; [|split].
    + constructor; [unfold attachable; by rewrite E1, E3|]. eapply Forall_impl; [exact Hf|].
      cbn. intros b [? [_ ?]%not_elem_of_cons]. done.
    + cbn [map]. constructor; [|done]. intros (b & Hb & Hin)%list_elem_of_fmap.
      rewrite Forall_forall in Hf. apply Hf in Hin as [_ Hin]. rewrite Hb in Hin. apply Hin. by left.
    + intros b [->|Hb]%elem_of_cons Hat; [right; apply elem_of_cons; by left|].
      destruct (Hc b Hb Hat) as [[Hk|?]%elem_of_cons|?];
        [right; apply elem_of_cons; by left|by left|right; apply elem_of_cons; by right].
Qed.

(** A reply carries every attachable file of the run once: the chosen files are
    files of the run in creation order, each of an exported origin and unexpired, no two
    with the same name, content and source email, and every such name, content and
    source among the run's attachable files is represented. *)
Theorem reply_attachments_exact artifacts now :
  let chosen := reply_attachments artifacts now in
  chosen `sublist_of` sort_asc creation_key artifacts ∧
  Forall (λ a, attachable now a = true) chosen ∧ NoDup (map reply_key chosen) ∧
  (∀ a, a ∈ artifacts → attachable now a = true → reply_key a ∈ map reply_key chosen).
Proof.
  destruct (choose_spec now [] (sort_asc creation_key artifacts)) as (Hs & Hf & Hn & Hc).
  split; [done|]. split; [|split; [done|]].
  - eapply Forall_impl; [exact Hf|]. by intros a [? _].
  - intros a Ha Hat. destruct (Hc a) as [[]%not_elem_of_nil|?]; [by rewrite sort_asc_perm|done|done].
Qed.
