(* ===== verification/LoopPorts.v ===== *)
(** * What the run loop reads and calls ([runtime/loop.py: RunContext], [ports/])

    The loop's own state is the run, the checkpoint and the step it mutates, and the
    recall permit; the world behind its ports is abstract. A port is a function of
    that world: the unit of work (append, commit, rollback, the repositories the
    loop uses), the clock and the id source, the cancellation token, the model
    provider, the tool dispatcher, the context builder and the compactor. What the
    loop relies on is stated as laws, discharged for the ledger and the checkpoint
    writer by the components that implement them. *)
From stdpp Require Import pretty.
From S2P Require Import Prelude StateLogic PyDecimal ToolInvocations EventModel RunModel RunSpec RunStore Sessions Budgets PolicyModel Messages ModelStream Checkpoints Compaction LoopGuards Artifacts.

(** ** Data of the ports *)
Inductive ReasoningEffort := LOW | MEDIUM | HIGH | XHIGH | EFFORT_MAX.
Definition ReasoningEffort_value (e : ReasoningEffort) : string :=
  match e with
  | LOW => "low" | MEDIUM => "medium" | HIGH => "high" | XHIGH => "xhigh" | EFFORT_MAX => "max"
  end.

Record RecallRankingBlock := {
  rrb_trace_id : UUID;
  rrb_content_sha256 : string;
  rrb_ranked_ids : list UUID;
}.

(** [ModelRequest]; the fields the loop never reads are kept as JSON. *)
Record ModelRequest := {
  rq_model_policy : string;
  rq_conversation : list ConversationItem;
  rq_tools : list json;
  tool_choice : option string;
  metadata : gmap string string;
  recall_ranking : option (list RecallRankingBlock);
  rq_reasoning_effort : option ReasoningEffort;
  rq_reasoning_summary : bool;
  rq_provider_fields : dict;
}.
#[global] Instance request_eta : Eta ModelRequest := λ r,
  {| rq_model_policy := rq_model_policy r; rq_conversation := rq_conversation r;
     rq_tools := rq_tools r; tool_choice := tool_choice r; metadata := metadata r;
     recall_ranking := recall_ranking r; rq_reasoning_effort := rq_reasoning_effort r;
     rq_reasoning_summary := rq_reasoning_summary r; rq_provider_fields := rq_provider_fields r |}.

Record ContextPressure := {
  pressure_fits : bool;
  compactable : bool;
  pressure_reason : string;
  total_tokens : Z;
  prefix_tokens : Z;
  body_tokens : Z;
  reserve_output_tokens : Z;
  capacity_tokens : Z;
  history_cut : Z;
  history_budget_tokens : Z;
  yield_steps : list string;
}.
Record ContextAssembly := { request : ModelRequest; pressure : ContextPressure }.

Record RecallExecutionPermit := {
  permit_run_id : UUID;
  remaining : Z;
  permit_deadline_at : datetime;
  closed : bool;
}.
#[global] Instance permit_eta : Eta RecallExecutionPermit := λ p,
  {| permit_run_id := permit_run_id p; remaining := remaining p;
     permit_deadline_at := permit_deadline_at p; closed := closed p |}.

Inductive BrowserProfileStatus :=
| PROVISIONING | AUTHENTICATION_REQUIRED | PROFILE_READY | NEEDS_USER | REVOKED.
#[export] Instance BrowserProfileStatus_eq_dec : EqDecision BrowserProfileStatus.
Proof. solve_decision. Defined.
(** The part of [BrowserProfile] and [BrowserObservation] the loop reads. *)
Record BrowserProfile := {
  bp_id : UUID;
  allowed_origins : list string;
  bp_status : BrowserProfileStatus;
  generation : Z;
}.
Record BrowserObservation := { observed_url : string; interruption : option string }.
Record BrowserAuthenticationWait := {
  wait_profile_id : UUID;
  wait_generation : Z;
  wait_started_at : datetime;
  wait_expires_at : datetime;
  wait_question_id : option UUID;
  wait_resume_url : option string;
}.

(** What a dispatched batch may change besides its results: the usage its nested model
    calls charged, and the parts of the checkpoint its tools update. *)
Record DispatchEffects := {
  de_usage : RunUsage;
  de_model_call_count : Z;
  de_updated_at : datetime;
  de_working_state : dict;
  de_loaded_skills : list json;
}.

(** ** The immutable part of [RunContext], with the renderings other modules define *)
Record RunContext := {
  principal : Principal.t;
  resolved_model : ResolvedModel;
  lease : option WorkerLease;
  available_tools : list string;
  max_internal_attempts : Z;
  identical_call_threshold : Z;
  identical_denial_threshold : Z;
  max_compactions_per_step : Z;
  context_effort : option ReasoningEffort;
  context_summary : bool;
  has_model_callback : bool;
  (** [prepare_recall], and its [execution_budget]: absent, plain or execution-bound. *)
  recall_preparation : option bool;
  (** Pydantic and standard-library renderings. *)
  uuid_str : UUID → string;
  isoformat : datetime → string;
  dump_datetime : datetime → string;
  py_str : json → string;
  dump_usage : ModelUsage → json;
  dump_item : ConversationItem → json;
  dump_call : ToolCallItem → json;
  dump_result : ToolResultItem → json;
  dump_recall_work : RecallWorkBudget → json;
  dump_outcome : ToolOutcome → string;
  parse_outcome : string → option ToolOutcome;
  parse_observation : string → option BrowserObservation;
  dump_wait : BrowserAuthenticationWait → json;
  parse_wait : json → result BrowserAuthenticationWait;
  parse_uuid : string → option UUID;
  dumps : json → string;
  arguments_digest : dict → string;
  elapsed_milliseconds : timedelta → Z;
  (** Modules the loop calls for a value. *)
  reader_identity : option string → string;
  usage_json : RunUsage → json;
  add_open_question : option json → string → result json;
  (** [None] is its [ValueError]. *)
  browser_origin : string → option string;
  feed_report_control : dict → result string;
  carries_credential : ModelEvent → bool;
  stream_diagnostics : list ModelEvent → gmap string detail;
}.

#[global] Instance context_eta : Eta RunContext := λ c,
  {| principal := principal c; resolved_model := resolved_model c; lease := lease c;
     available_tools := available_tools c; max_internal_attempts := max_internal_attempts c; identical_call_threshold := identical_call_threshold c;
     identical_denial_threshold := identical_denial_threshold c; max_compactions_per_step := max_compactions_per_step c; context_effort := context_effort c;
     context_summary := context_summary c; has_model_callback := has_model_callback c; recall_preparation := recall_preparation c;
     uuid_str := uuid_str c; isoformat := isoformat c; dump_datetime := dump_datetime c;
     py_str := py_str c; dump_usage := dump_usage c; dump_item := dump_item c;
     dump_call := dump_call c; dump_result := dump_result c; dump_recall_work := dump_recall_work c;
     dump_outcome := dump_outcome c; parse_outcome := parse_outcome c; parse_observation := parse_observation c;
     dump_wait := dump_wait c; parse_wait := parse_wait c; parse_uuid := parse_uuid c;
     dumps := dumps c; arguments_digest := arguments_digest c; elapsed_milliseconds := elapsed_milliseconds c;
     reader_identity := reader_identity c; usage_json := usage_json c; add_open_question := add_open_question c;
     browser_origin := browser_origin c; feed_report_control := feed_report_control c; carries_credential := carries_credential c;
     stream_diagnostics := stream_diagnostics c |}.

(** ** The budget ledger, as the loop uses it *)
Class BudgetLedger (W : Type) := {
  record_model : Run → ModelUsage → Step → ModelAttempt → option string → ResolvedModel →
    option string → option StopReason → option ModelErrorKind → datetime → W → result unit * Run * W;
  record_tools : Run → Z → Step → datetime → W → result unit * Run * W;
}.
(** The run object with what charging a model attempt may change. *)
Definition charged (u : RunUsage) (n : Z) (t : datetime) (run : Run) : Run :=
  run <| usage := u |> <| model_call_count := n |> <| updated_at := t |>.
(** Recording never touches anything else, and tool usage is counted or put back. *)
Class BudgetLedgerLaws (W : Type) `{BudgetLedger W} : Prop := {
  record_model_run : ∀ run x step a p m v stop err t w,
    ∃ u n t', (record_model run x step a p m v stop err t w).1.2 = charged u n t' run;
  record_tools_run : ∀ run n step t w,
    (record_tools run n step t w).1.2 = run ∨
    (record_tools run n step t w).1.2 = with_tool_usage n t run;
}.

(** ** The checkpoint writer *)
Class CheckpointWriter (W : Type) := {
  write_checkpoint : CheckpointContext → Run → string → option (Z * Z) → bool → datetime →
    RunCheckpoint → W → result unit * RunCheckpoint * W;
}.
(** A failed checkpoint leaves the one there was; a written one keeps what it stores. *)
Definition same_contents (a b : RunCheckpoint) : Prop :=
  conversation b = conversation a ∧ pending_tool_calls b = pending_tool_calls a ∧
  pending_approval_ids b = pending_approval_ids a ∧ working_state b = working_state a ∧
  recall_work b = recall_work a.
Class CheckpointWriterLaws (W : Type) `{CheckpointWriter W} : Prop := {
  write_keeps : ∀ cx run trigger pending leased now cp w,
    same_contents cp (write_checkpoint cx run trigger pending leased now cp w).1.2;
}.

(** ** The other ports *)
Class LoopPorts (W : Type) := {
  RecallQuery : Type;
  clock_now : W → datetime * W;
  new_id : W → UUID * W;
  token_check : W → result unit * W;
  (** The unit of work: what it writes, how it ends, and whether one is open. *)
  uow_is_open : W → bool;
  uow_commit : W → result unit * W;
  uow_rollback : W → W → W;
  events_append : NewEvent → option WorkerLease → W → result Z * W;
  events_list_after : UUID → Z → Principal.t → UUID → W → result (list EventEnvelope) * W;
  runs_update_counters : Run → option WorkerLease → W → result unit * W;
  invocations_list_for_run : UUID → Principal.t → W → result (list ToolInvocation) * W;
  artifacts_list_for_run : UUID → Principal.t → W → result (list ArtifactRef) * W;
  artifacts_retain_for_reply : list UUID → Principal.t → UUID → W →
    result (list ArtifactRef) * W;
  sessions_metadata : UUID → Principal.t → W → result dict * W;
  browser_profiles_get : UUID → Principal.t → W → result BrowserProfile * W;
  (** The context engine and the model. *)
  plan_recall : Run → RunCheckpoint → W → result (list RecallQuery) * W;
  run_recall : Run → list RecallQuery → timedelta → W → result unit * W;
  assemble : Run → RunCheckpoint → option RecallExecutionPermit → W → result ContextAssembly * W;
  compact_context : RunCheckpoint → Z → string → W → result (RunCheckpoint * CompactionResult) * W;
  estimator_reconcile : string → Z → Z → W → W;
  (** The raw events of one attempt, and the exception the provider ended with, if any. *)
  provider_stream : ModelRequest → ModelAttempt → W → list ModelEvent * option exn * W;
  on_model_event : Run → ModelEvent → W → result unit * W;
  (** The tools. *)
  dispatch_tools : Run → RunCheckpoint → list ToolCallItem → Step → option RecallExecutionPermit →
    W → result (list ToolResultItem) * DispatchEffects * W;
}.
(** The dispatcher answers its calls, each with its own id, in their order. *)
Class ToolDispatchLaws (W : Type) `{LoopPorts W} : Prop := {
  dispatch_answers : ∀ run cp calls step permit w rs effects w',
    dispatch_tools run cp calls step permit w = (Ok rs, effects, w') →
    map tr_call_id rs = map call_id calls;
}.

(** ** The state of the loop *)
Record LoopState (W : Type) := {
  l_run : Run;
  l_checkpoint : RunCheckpoint;
  l_step : Step;
  l_permit : option RecallExecutionPermit;
  l_world : W;
}.
Arguments l_run {W}.
Arguments l_checkpoint {W}.
Arguments l_step {W}.
Arguments l_permit {W}.
Arguments l_world {W}.
#[global] Instance loopstate_eta W : Eta (LoopState W) := λ s,
  {| l_run := l_run s; l_checkpoint := l_checkpoint s; l_step := l_step s;
     l_permit := l_permit s; l_world := l_world s |}.

Section ops.
Context {W : Type}.
Abbreviation M := (stateM (LoopState W)).

(** A call that changes the world only. *)
Definition world {A} (f : W → result A * W) : M A := λ s,
  let '(r, w) := f (l_world s) in (r, s <| l_world := w |>).
Definition set_run (f : Run → Run) : M unit := modify (λ s, s <| l_run := f (l_run s) |>).
Definition set_cp (f : RunCheckpoint → RunCheckpoint) : M unit :=
  modify (λ s, s <| l_checkpoint := f (l_checkpoint s) |>).
Definition set_step (f : Step → Step) : M unit := modify (λ s, s <| l_step := f (l_step s) |>).
Definition set_ws (f : dict → dict) : M unit :=
  set_cp (λ c, c <| working_state := f (working_state c) |>).

Context `{LoopPorts W, CheckpointWriter W}.
Definition now : M datetime := λ s,
  let '(t, w) := clock_now (l_world s) in (Ok t, s <| l_world := w |>).
Definition fresh_id : M UUID := λ s,
  let '(u, w) := new_id (l_world s) in (Ok u, s <| l_world := w |>).
(** [async with uow_factory() as uow]: commit, or roll the world back; objects keep
    what was assigned to them. *)
Definition in_uow {A} (body : M A) : M A := λ s,
  match body s with
  | (Raise e, s') => (Raise e, s' <| l_world := uow_rollback (l_world s) (l_world s') |>)
  | (Ok a, s') =>
      match uow_commit (l_world s') with
      | (Ok _, w) => (Ok a, s' <| l_world := w |>)
      | (Raise e, w) => (Raise e, s' <| l_world := uow_rollback (l_world s) w |>)
      end
  end.
Context (cx : RunContext).

(** [_append_event] *)
Definition runtime_event (run : Run) (event_type : string) (payload : dict) : NewEvent :=
  {| ev_session_id := session_id run; ev_run_id := Some (RunModel.id run);
     ev_event_type := event_type; ev_payload_schema_version := 1; ev_actor_type := "runtime";
     ev_actor_id := None; ev_payload := payload; ev_trace_id := None; ev_derivation_key := None |}.
Definition append (event_type : string) (payload : dict) : M Z :=
  run ← gets l_run; world (events_append (runtime_event run event_type payload) (lease cx)).
Definition _append_event (event_type : string) (payload : dict) : M unit :=
  in_uow (append event_type payload ≫= λ _, mret tt).

(** [checkpoint] *)
Definition context_model : string := rm_provider (resolved_model cx) +:+ ":" +:+ rm_model (resolved_model cx).
Definition registry_version (cp : RunCheckpoint) : option string :=
  pin_registry_version <$> cp_provider_pin cp.
Definition checkpoint_context (cp : RunCheckpoint) : CheckpointContext :=
  {| context_model_id := context_model;
     context_reader_sha256 := reader_identity cx (registry_version cp);
     usage_dump := usage_json cx |}.
Definition checkpoint_at (trigger : string) (pending_batch_budget : option (Z * Z)) (t : datetime)
    : M unit := λ s,
  let cp := l_checkpoint s in
  let '(r, cp', w) := write_checkpoint (checkpoint_context cp) (l_run s) trigger
                        pending_batch_budget (bool_decide (is_Some (lease cx))) t cp (l_world s) in
  (r, s <| l_checkpoint := cp' |> <| l_world := w |>).
Definition checkpoint (trigger : string) (pending_batch_budget : option (Z * Z)) : M unit :=
  t ← now; checkpoint_at trigger pending_batch_budget t.

(** [try: ... except]: the handler answers the exceptions it names. *)
Definition catch {A} (m : M A) (handler : exn → option (M A)) : M A := λ s,
  match m s with
  | (Raise e, s') => match handler e with Some k => k s' | None => (Raise e, s') end
  | done_ => done_
  end.

(** [with recall_phase(permit)]: the permit is closed however the body ends. *)
Definition recall_phase {A} (body : option RecallExecutionPermit → M A) : M A := λ s,
  let '(r, s') := body (l_permit s) s in
  (r, s' <| l_permit := (λ p, p <| closed := true |>) <$> l_permit s' |>).
End ops.

Lemma wp_catch {W A} (m : stateM (LoopState W) A) handler (Q : result A → LoopState W → Prop) s :
  wp m (λ r s', match r with
                | Ok a => Q (Ok a) s'
                | Raise e => match handler e with Some k => wp k Q s' | None => Q (Raise e) s' end
                end) s →
  wp (catch m handler) Q s.
Proof.
  unfold wp, catch. destruct (m s) as [[a|e] s']; [done|]. cbn. by destruct (handler e).
Qed.

(** ** Frames of the operations *)
Section frames.
Context {W : Type} `{LoopPorts W, CheckpointWriterLaws W} (cx : RunContext).
Abbreviation M := (stateM (LoopState W)).

(** Only the world changed. *)
Definition world_only (s s' : LoopState W) : Prop :=
  l_run s' = l_run s ∧ l_checkpoint s' = l_checkpoint s ∧ l_step s' = l_step s ∧
  l_permit s' = l_permit s.
(** The objects that a checkpoint does not change. *)
Definition checkpoint_only (s s' : LoopState W) : Prop :=
  l_run s' = l_run s ∧ l_step s' = l_step s ∧ l_permit s' = l_permit s ∧
  same_contents (l_checkpoint s) (l_checkpoint s').
#[export] Instance world_only_pre : PreOrder world_only.
Proof. split; [by intros s|]. intros a b c (?&?&?&?) (?&?&?&?). unfold world_only. intuition congruence. Qed.
#[export] Instance same_contents_pre : PreOrder same_contents.
Proof. split; [by intros s|]. intros a b c (?&?&?&?&?) (?&?&?&?&?). unfold same_contents. intuition congruence. Qed.
#[export] Instance checkpoint_only_pre : PreOrder checkpoint_only.
Proof.
  split; [by intros s|]. intros a b c (?&?&?&Hab) (?&?&?&Hbc). unfold checkpoint_only.
  split_and!; [congruence..|by etrans].
Qed.

(** A relation on what the loop holds, not on the world. *)
Class Objects (R : LoopState W → LoopState W → Prop) := objects : ∀ s s', world_only s s' → R s s'.
#[export] Instance objects_world_only : Objects world_only.
Proof. by intros s s'. Qed.
#[export] Instance objects_checkpoint_only : Objects checkpoint_only.
Proof. intros s s' (?&Hc&?&?). unfold checkpoint_only. rewrite Hc. split_and!; [done..|reflexivity]. Qed.

Section over.
Context (R : LoopState W → LoopState W → Prop) `{!PreOrder R, !Objects R}.
Lemma keeps_world {A} (f : W → result A * W) : keeps R (world f).
Proof. intros s. apply objects. unfold world. by destruct (f (l_world s)). Qed.
Lemma keeps_now : keeps R now.
Proof. intros s. apply objects. unfold now. by destruct (clock_now (l_world s)). Qed.
Lemma keeps_fresh_id : keeps R fresh_id.
Proof. intros s. apply objects. unfold fresh_id. by destruct (new_id (l_world s)). Qed.
Lemma keeps_in_uow {A} (body : M A) : keeps R body → keeps R (in_uow body).
Proof.
  intros Hb s. specialize (Hb s). unfold in_uow. destruct (body s) as [[a|e] s'].
  - destruct (uow_commit (l_world s')) as [[[]|e] w]; (etrans; [exact Hb|]; by apply objects).
  - etrans; [exact Hb|]. by apply objects.
Qed.
Lemma keeps_append t p : keeps R (append cx t p).
Proof using All. apply (keeps_bind _); [apply (keeps_gets _)|intros ?; apply keeps_world]. Qed.
Lemma keeps_append_event t p : keeps R (_append_event cx t p).
Proof using All.
  apply keeps_in_uow, (keeps_bind _); [apply keeps_append|intros ?; apply (keeps_ret _)].
Qed.
End over.

(** A relation a checkpoint cannot break. *)
Class Contents (R : LoopState W → LoopState W → Prop) := contents : ∀ s s', checkpoint_only s s' → R s s'.
#[export] Instance contents_checkpoint_only : Contents checkpoint_only.
Proof. by intros s s'. Qed.
Lemma keeps_checkpoint R `{!PreOrder R, !Objects R, !Contents R} trigger pending :
  keeps R (checkpoint cx trigger pending).
Proof.
  apply (keeps_bind _); [by apply keeps_now|]. intros t s. apply contents. unfold checkpoint_at.
  pose proof (write_keeps (checkpoint_context cx (l_checkpoint s)) (l_run s) trigger pending
    (bool_decide (is_Some (lease cx))) t (l_checkpoint s) (l_world s)) as Hw.
  destruct (write_checkpoint _ _ _ _ _ _ _ _) as [[r cp'] w]. unfold checkpoint_only. by split_and!.
Qed.
End frames.
#[export] Hint Resolve keeps_world keeps_now keeps_fresh_id keeps_in_uow keeps_append
  keeps_append_event keeps_checkpoint : keeps.
Ltac keeps_rule ::= apply (keeps_in_uow _).

(** ** The ledger of the database tier is a ledger *)
Section ledger.
Context {R : Type} `{RunRepositoryLaws R} (commit : tier (R:=R) → result unit)
  (lease : option WorkerLease).

#[export] Instance unit_of_work_ledger : BudgetLedger (tier (R:=R)) := {|
  record_model run x step attempt prefix resolved registry stop err t w :=
    record_model_usage commit lease run x (st_step_number step) (Some attempt) (Some prefix)
      (Some resolved) registry stop err t w;
  record_tools run n step t w := record_tool_usage commit lease run n t w;
|}.
Lemma restored (run : Run) u n t :
  _restore_run_accounting (charged u n t run) run = run.
Proof. by destruct run. Qed.
Lemma restored_tools (run : Run) n t : _restore_run_accounting (with_tool_usage n t run) run = run.
Proof. by destruct run. Qed.
Lemma charged_self (run : Run) : run = charged (usage run) (model_call_count run) (updated_at run) run.
Proof. by destruct run. Qed.

#[export] Instance unit_of_work_ledger_laws : BudgetLedgerLaws (tier (R:=R)).
Proof.
  split.
  - intros. cbn. unfold record_model_usage, persisted.
    destruct (unit_of_work _ _ _) as [[[]|e] s']; cbn [fst snd].
    + by eexists _, _, _.
    + exists (usage run), (model_call_count run), (updated_at run). rewrite <- charged_self.
      apply restored.
  - intros. cbn. unfold record_tool_usage, persisted.
    destruct (unit_of_work _ _ _) as [[[]|e] s']; cbn [fst snd]; [by right|left].
    apply restored_tools.
Qed.
End ledger.

(** ** The runtime checkpoint writes checkpoints *)
Section checkpoints.
Context (append : CheckpointEvent → Checkpoints.store → result Z)
  (commit : Checkpoints.store → result unit).

#[export] Instance store_writer : CheckpointWriter Checkpoints.store := {|
  write_checkpoint := Checkpoints.checkpoint append commit;
|}.
#[export] Instance store_writer_laws : CheckpointWriterLaws Checkpoints.store.
Proof.
  split. intros. cbn. unfold Checkpoints.checkpoint. cbn zeta.
  assert (Hid : same_contents cp cp) by done.
  destruct (bool_decide _); [destruct (pending_tool_calls _)|];
    repeat first [done | case_match].
Qed.
End checkpoints.
