(* ===== verification/Recall.v ===== *)
(** * The recall reservation ([runtime/loop.py: prepare_recall], [domain/recall_execution.py])

    Memory recall is optional work with a durable, nonrefundable allowance: a run
    reserves search slots in its checkpoint before any search runs, and neither a
    cache miss, nor a later step, nor a resume renews them. The permit is what the
    searches of one phase are admitted against. *)
From S2P Require Import Prelude StateLogic RunModel Budgets Checkpoints LoopPorts.

Definition RECALL_PREPARATION : timedelta := seconds 5.
Definition RECALL_SEARCH : timedelta := seconds 10.

Section prepare.
Context {W : Type} `{LoopPorts W, CheckpointWriter W} (cx : RunContext).
Abbreviation M := (stateM (LoopState W)).

Definition grant (slots : Z) (deadline : datetime) : M unit :=
  modify (λ s, s <| l_permit := Some {| permit_run_id := id (l_run s); remaining := slots;
                                        permit_deadline_at := deadline; closed := false |} |>).

(** The planning call, whose failures end the optional work. *)
Definition plan : M (option (list RecallQuery)) := λ s,
  match plan_recall (l_run s) (l_checkpoint s) (l_world s) with
  | (Ok queries, w) => (Ok (Some queries), s <| l_world := w |>)
  | (Raise _, w) => (Ok None, s <| l_world := w |>)
  end.

(** The reservation of one round, or nothing when it does not fit. *)
Definition reservation (budget : option RecallWorkBudget) (deliberate : bool) (slots : Z)
    (deadline : datetime) : RecallWorkBudget :=
  {| searches := slots + match budget with None => 0 | Some b => searches b end;
     rounds := Z.b2z deliberate + match budget with None => 0 | Some b => rounds b end;
     rwb_deadline_at := deadline;
     automatic := negb deliberate || match budget with None => false | Some b => automatic b end |}.

(** The searches' window: preparation under its timeout (its failures are swallowed),
    then the permit of an execution-bound round. *)
Definition run_searches (execution_bound : bool) (queries : list RecallQuery) (slots : Z)
    (deadline : datetime) : M unit :=
  t ← now;
  (let left := deadline - t in
   if 0 <? left then
     run ← gets l_run;
     modify (λ s, s <| l_world :=
       (run_recall run queries
          (if execution_bound then Z.min RECALL_PREPARATION left else left + seconds 3)
          (l_world s)).2 |>)
   else mret tt) ≫= λ _,
  world token_check ≫= λ _,
  if execution_bound then t ← now; grant slots (Z.min deadline (t + RECALL_SEARCH)) else mret tt.

(** From the plan on. *)
Definition reserve (execution_bound : bool) (pending_batch_budget : option (Z * Z))
    (started : datetime) (queries : list RecallQuery) : M unit :=
  cp ← gets l_checkpoint;
  let budget := recall_work cp in
  let deliberate := match pending_tool_calls cp with [] => false | _ => true end in
  let refresh := match budget with Some b => automatic b && negb deliberate | None => false end in
  let left := 4 - match budget with None => 0 | Some b => searches b end in
  let deadline := match budget with
                  | None => started + (if execution_bound then RECALL_PREPARATION + RECALL_SEARCH
                                       else seconds 10)
                  | Some b => rwb_deadline_at b
                  end in
  let slots := Z.of_nat (length queries) * (if execution_bound && negb deliberate then 2 else 1) in
  if refresh then
    match queries with
    | [] => mret tt
    | _ => t ← now;
           if deadline <=? t then mret tt else run_searches execution_bound queries slots deadline
    end
  else if negb ((1 <=? slots) && (slots <=? left)) then mret tt
  else
    t ← now;
    if deadline <=? t then mret tt
    else
      let b := reservation budget deliberate slots deadline in
      if RecallWorkBudget_valid b then
        set_cp (λ c, c <| recall_work := Some b |>) ≫= λ _,
        checkpoint cx "memory_preparation" pending_batch_budget ≫= λ _,
        run_searches execution_bound queries slots deadline
      else raise (ValueError "recall work budget out of range").

Definition prepare_recall (pending_batch_budget : option (Z * Z)) : M unit :=
  match recall_preparation cx with
  | None => mret tt
  | Some execution_bound =>
      world token_check ≫= λ _,
      started ← now;
      (if execution_bound then grant 0 started else mret tt) ≫= λ _,
      cp ← gets l_checkpoint;
      let budget := recall_work cp in
      let deliberate := match pending_tool_calls cp with [] => false | _ => true end in
      let refresh := match budget with Some b => automatic b && negb deliberate | None => false end in
      if match budget with Some b => rwb_deadline_at b <=? started | None => false end then mret tt
      else if match budget with
              | Some b => negb refresh && ((4 <=? searches b) || (2 <=? rounds b))
              | None => false
              end then mret tt
      else
        planned ← plan;
        match planned with
        | None => mret tt
        | Some queries =>
            world token_check ≫= λ _, reserve execution_bound pending_batch_budget started queries
        end
  end.
End prepare.

(** ** What the reservation may become *)
Section bounds.
Context {W : Type} `{LoopPorts W, CheckpointWriterLaws W} (cx : RunContext).
Abbreviation M := (stateM (LoopState W)).

Definition sound (b : RecallWorkBudget) : Prop := RecallWorkBudget_valid b = true.
(** A reservation is kept: its deadline stays, its counts only grow, within the allowance. *)
Definition kept (a b : option RecallWorkBudget) : Prop :=
  match a with
  | None => ∀ y, b = Some y → sound y
  | Some x => sound x → ∃ y, b = Some y ∧ sound y ∧ rwb_deadline_at y = rwb_deadline_at x ∧
                searches x ≤ searches y ∧ rounds x ≤ rounds y ∧
                (automatic x = true → automatic y = true)
  end.
#[export] Instance kept_pre : PreOrder kept.
Proof.
  split.
  - intros [x|]; [|done]. intros Hx. exists x. split_and!; done.
  - intros [x|] b c; cbn.
    + intros Hb Hc Hx. destruct (Hb Hx) as (y & -> & Hy & Hd & Hs & Hr & Ha).
      destruct (Hc Hy) as (z & -> & Hz & Hd' & Hs' & Hr' & Ha'). exists z.
      split_and!; [done|done|congruence|lia|lia|auto].
    + intros Hb. destruct b as [y|]; [|done]. intros Hc z ->.
      destruct (Hc (Hb y eq_refl)) as (? & [= ->] & ? & _). done.
Qed.

Definition work_kept (s s' : LoopState W) : Prop :=
  kept (recall_work (l_checkpoint s)) (recall_work (l_checkpoint s')) ∧
  pending_tool_calls (l_checkpoint s') = pending_tool_calls (l_checkpoint s) ∧
  conversation (l_checkpoint s') = conversation (l_checkpoint s) ∧
  working_state (l_checkpoint s') = working_state (l_checkpoint s) ∧
  pending_approval_ids (l_checkpoint s') = pending_approval_ids (l_checkpoint s) ∧
  l_run s' = l_run s ∧ l_step s' = l_step s.
#[export] Instance work_kept_pre : PreOrder work_kept.
Proof.
  split; [intros s; split_and!; done|].
  intros a b c (?&?&?&?&?&?&?) (?&?&?&?&?&?&?). split_and!; [by etrans|congruence..].
Qed.
#[export] Instance work_kept_objects : Objects work_kept.
Proof. intros s s' (?&Hc&?&?). unfold work_kept. rewrite Hc. by split_and!. Qed.
#[export] Instance work_kept_contents : Contents work_kept.
Proof. intros s s' (?&?&?&?&?&?&?&Hw). unfold work_kept. rewrite Hw. by split_and!. Qed.

Lemma keeps_grant slots d : keeps work_kept (grant slots d).
Proof. apply (keeps_modify _). intros s. by split_and!. Qed.
Lemma keeps_plan : keeps work_kept plan.
Proof.
  intros s. apply objects. unfold plan. by destruct (plan_recall _ _ _) as [[?|?] w].
Qed.
Lemma keeps_searches eb queries slots d : keeps work_kept (run_searches eb queries slots d).
Proof.
  unfold run_searches. apply (keeps_bind _); [apply (keeps_now _)|intros t].
  apply (keeps_bind _).
  { destruct (0 <? d - t); [|apply (keeps_ret _)]. apply (keeps_bind _); [apply (keeps_gets _)|intros run].
    apply (keeps_modify _). intros s. by apply objects. }
  intros _. apply (keeps_bind _); [apply (keeps_world _)|intros _].
  destruct eb; [|apply (keeps_ret _)]. apply (keeps_bind _); [apply (keeps_now _)|intros ?; apply keeps_grant].
Qed.

(** Reserving a round that fits is within the allowance, and never undoes one. *)
Lemma reservation_kept budget deliberate slots started :
  match budget with Some b => negb (automatic b && negb deliberate) && (2 <=? rounds b) | None => false end = false →
  1 ≤ slots ≤ 4 - match budget with None => 0 | Some b => searches b end →
  (∀ b, budget = Some b → sound b → started = rwb_deadline_at b) →
  (∀ b, budget = Some b → automatic b = true → deliberate = true) →
  kept budget (Some (reservation budget deliberate slots started)).
Proof.
  intros Hr Hs Hd Ha. destruct budget as [b|]; cbn in *.
  - intros Hb. eexists. split; [done|]. specialize (Hd b eq_refl Hb). specialize (Ha b eq_refl).
    unfold sound, RecallWorkBudget_valid in *. cbn.
    destruct deliberate, (automatic b); cbn in *; try (discriminate (Ha eq_refl)); split_and!; lia || done || auto.
  - intros y [= <-]. unfold sound, RecallWorkBudget_valid. cbn. destruct deliberate; cbn; lia.
Qed.

(** The guard [prepare_recall] passes before it plans. *)
Definition blocked (cp : RunCheckpoint) : bool :=
  match recall_work cp with
  | Some b =>
      negb (automatic b && negb (match pending_tool_calls cp with [] => false | _ => true end)) &&
      ((4 <=? searches b) || (2 <=? rounds b))
  | None => false
  end.

Lemma reserve_keeps eb pending started queries s :
  blocked (l_checkpoint s) = false → work_kept s (reserve cx eb pending started queries s).2.
Proof.
  intros Hb. unfold blocked in Hb. change (wp (reserve cx eb pending started queries) (λ _ s', work_kept s s') s).
  unfold reserve. apply wp_bind, wp_gets. cbn zeta.
  set (budget := recall_work (l_checkpoint s)) in *.
  set (deliberate := match pending_tool_calls (l_checkpoint s) with [] => false | _ => true end) in *.
  destruct (match budget with Some b => automatic b && negb deliberate | None => false end) eqn:Hf.
  { destruct queries as [|q qs]; [apply wp_ret; reflexivity|].
    apply (wp_keeps work_kept); [|done]. apply (keeps_bind _); [apply (keeps_now _)|intros t].
    destruct (_ <=? t); [apply (keeps_ret _)|apply keeps_searches]. }
  destruct (negb ((1 <=? _) && _)) eqn:Hs; [apply wp_ret; reflexivity|]. apply negb_false_iff in Hs.
  apply (wp_keeps_bind world_only); [apply (keeps_now _)| |intros e s' Hw; by apply objects].
  intros t s1 Hw. pose proof Hw as (Hr1 & Hc1 & Hst1 & Hp1).
  destruct (_ <=? t); [apply wp_ret; by apply objects|].
  destruct (RecallWorkBudget_valid _) eqn:Hval; [|apply wp_raise; by apply objects].
  apply wp_bind, wp_modify.
  apply (wp_keeps work_kept).
  { apply (keeps_bind _); [apply keeps_checkpoint; apply _|intros _; apply keeps_searches]. }
  intros _ s2 H2. etrans; [|exact H2]. unfold work_kept. cbn. rewrite Hc1. split_and!; try done.
  apply reservation_kept.
  - destruct budget as [b|]; [|done]. destruct (automatic b && negb deliberate); cbn in *; [done|].
    by apply orb_false_iff in Hb as [_ ?].
  - lia.
  - by intros b ->.
  - intros b -> Ha. rewrite Ha in Hf. by apply negb_false_iff in Hf.
Qed.

Lemma prepare_recall_keeps pending : keeps work_kept (prepare_recall cx pending).
Proof.
  unfold prepare_recall. destruct (recall_preparation cx) as [eb|]; [|apply (keeps_ret _)].
  apply (keeps_bind _); [apply (keeps_world _)|intros _].
  apply (keeps_bind _); [apply (keeps_now _)|intros started].
  apply (keeps_bind _); [destruct eb; [apply keeps_grant|apply (keeps_ret _)]|intros _].
  apply keeps_wp. intros s.
  apply wp_bind, wp_gets. cbn zeta.
  case_match; [apply wp_ret; reflexivity|].
  destruct (match recall_work (l_checkpoint s) with Some b => _ | None => false end) eqn:Hb in |- *;
    [apply wp_ret; reflexivity|].
  assert (Hb' : blocked (l_checkpoint s) = false).
  { unfold blocked. by destruct (recall_work (l_checkpoint s)). }
  apply (wp_keeps_bind world_only).
  { intros s'. unfold plan. by destruct (plan_recall _ _ _) as [[?|?] w]. }
  2: { intros e s1 Hw. by apply objects. }
  intros [queries|] s1 Hw; [|apply wp_ret; by apply objects].
  apply (wp_keeps_bind world_only); [apply (keeps_world _)| |].
  2: { intros e s2 Hw2. apply objects. by etrans. }
  intros _ s2 Hw2. assert (Hw' : world_only s s2) by (by etrans).
  unfold wp. etrans; [by apply objects, Hw'|]. apply reserve_keeps. by destruct Hw' as (_ & -> & _).
Qed.

(** ** Histories *)
Inductive recall_op :=
| Prepare (pending_batch_budget : option (Z * Z))
| Elsewhere (f : LoopState W → LoopState W).
(** The rest of the runtime never writes the reservation. *)
Definition op_ok (o : recall_op) : Prop :=
  match o with
  | Prepare _ => True
  | Elsewhere f => ∀ s, recall_work (l_checkpoint (f s)) = recall_work (l_checkpoint s)
  end.
Definition recall_step (s : LoopState W) (o : recall_op) : LoopState W :=
  match o with Prepare pending => (prepare_recall cx pending s).2 | Elsewhere f => f s end.

(** The recall allowance is never renewed. Over any history of recall
    preparations - whatever is planned, however they fail, whatever the clock reads and
    whatever the rest of the runtime does in between, suspension and resume included -
    a reservation, once made, keeps its deadline, its counts never go down, it never
    exceeds four search slots and two deliberate rounds, and the automatic round is
    never taken back. *)
Theorem recall_never_renewed ops s :
  Forall op_ok ops → kept (recall_work (l_checkpoint s))
    (recall_work (l_checkpoint (foldl recall_step s ops))).
Proof.
  intros Hops. revert s. induction Hops as [|o ops Ho _ IH]; intros s; [reflexivity|]. cbn [foldl].
  etrans; [|apply IH]. destruct o as [pending|f]; cbn [recall_step].
  - apply (prepare_recall_keeps pending s).
  - rewrite Ho. reflexivity.
Qed.
End bounds.
