(* ===== verification/RunLoop.v ===== *)
(** * The run loop ([runtime/loop.py])

    Steps of model and tools until the run answers, fails, is cancelled or suspends.
    A loop of the source is a recursion on a measure that the code bounds (the steps
    left, the attempts left, the compactions left); a result [None] is that the
    measure ran out before the code returned, which the theorems exclude. *)
From stdpp Require Import pretty.
From S2P Require Import Prelude StateLogic PyDecimal ToolInvocations EventModel RunModel Sessions Budgets PolicyModel Messages ModelStream ResponseText Checkpoints Compaction LoopGuards Artifacts LoopPorts Recall.

(** ** Values *)
Definition opt_json {A} (f : A → json) (o : option A) : json :=
  match o with Some a => f a | None => JNull end.
Definition failed_class (f : ModelFailure) : string :=
  match f with
  | ModelTransientError _ _ _ => "ModelTransientError"
  | ModelPermanentError _ => "ModelPermanentError"
  | ModelProtocolError _ _ => "ModelProtocolError"
  end.
Definition is_transient (f : ModelFailure) : bool :=
  match f with ModelTransientError _ _ _ => true | _ => false end.
Definition stream_output (f : ModelFailure) : bool :=
  match f with ModelTransientError _ _ o => o | _ => false end.

Definition _provider_failure_details (e : ModelError) : list (string * detail) :=
  ([("provider", DStr (err_provider e))] ++
   match provider_code e with Some c => [("provider_code", DStr c)] | None => [] end ++
   match http_status e with Some n => [("http_status", DInt n)] | None => [] end ++
   match provider_parameter e with Some q => [("provider_parameter", DStr q)] | None => [] end)%list.
Definition detail_json (d : detail) : json := match d with DStr s => JStr s | DInt n => JInt n end.
Definition details_map (l : list (string * detail)) : gmap string detail := list_to_map l.
Definition details_json (l : list (string * detail)) : dict := map (λ kd, (kd.1, detail_json kd.2)) l.

(** [ModelUsage(provider=..., model=...)] *)
Definition no_usage (provider model : string) : ModelUsage :=
  {| u_input_tokens := 0; u_cached_input_tokens := 0; u_cache_write_input_tokens := 0;
     u_cache_write_1h_input_tokens := 0; u_output_tokens := 0; u_reasoning_tokens := None;
     u_cost := Dec 0 0; u_cost_source := CONFIG_OVERRIDE; u_provider := provider; u_model := model |}.

Definition StopReason_value (r : StopReason) : string :=
  match r with
  | END_TURN => "end_turn" | TOOL_USE => "tool_use" | MAX_TOKENS => "max_tokens"
  | STOP_SEQUENCE => "stop_sequence" | CONTENT_FILTER => "content_filter"
  | INCOMPLETE => "incomplete" | STOP_CANCELLED => "cancelled"
  end.

Definition completed (m : AssistantMessage) : RunOutcome :=
  {| outcome_kind := OUTCOME_COMPLETED; failure := None; final_message := Some m; suspension := None |}.
Definition suspended (d : dict) : RunOutcome :=
  {| outcome_kind := OUTCOME_SUSPENDED; failure := None; final_message := None; suspension := Some d |}.
Definition cancelled : RunOutcome :=
  {| outcome_kind := OUTCOME_CANCELLED; failure := None; final_message := None; suspension := None |}.

(** [_elapsed_ms] *)
Definition _elapsed_ms (milliseconds : timedelta → Z) (started : datetime) (finished : option datetime)
    : option Z :=
  match finished with None => None | Some t => Some (Z.max 0 (milliseconds (t - started))) end.

Definition TrustLevel_of (s : string) : option TrustLevel :=
  List.find (λ t, String.eqb (TrustLevel_value t) s) TrustLevels.

Section loop.
Context {W : Type} `{LoopPorts W, CheckpointWriter W, BudgetLedger W} (cx : RunContext).
Abbreviation M := (stateM (LoopState W)).

Definition failure_at (reason : FailureReason) (error_class message : string)
    (details : gmap string detail) : M RunOutcome :=
  t ← now; step ← gets l_step; mret (_failure t reason error_class message (Some step) details).

(** ** The request *)
Definition pressure_event (step : Step) (p : ContextPressure) : dict :=
  [("step_number", JInt (st_step_number step)); ("reason", JStr (pressure_reason p));
   ("fits", JBool (pressure_fits p)); ("total_tokens", JInt (total_tokens p));
   ("capacity_tokens", JInt (capacity_tokens p)); ("yield_steps", JArr (map JStr (yield_steps p)))].
Definition compacted_event (step : Step) (r : CompactionResult) : dict :=
  [("step_number", JInt (st_step_number step)); ("depth", JInt (depth r));
   ("source_event_ids", JArr (map JInt (source_event_ids r)));
   ("replaced_through_sequence", JInt (cr_replaced_through_sequence r));
   ("tokens_before", JInt (tokens_before r)); ("tokens_after", JInt (tokens_after r));
   ("compactor_version", JStr (cr_compactor_version r))].

Definition set_budget_markers : M unit :=
  run ← gets l_run;
  set_cp (λ c, c <| budget_state :=
    dict_update [("context_model_id", JStr (context_model cx));
                 ("context_seed_event_sequence", JInt (seed_event_sequence run))] (budget_state c) |>).
Definition assembled : M ContextAssembly :=
  recall_phase (λ permit,
    s ← get_state; world (assemble (l_run s) (l_checkpoint s) permit)).

(** One turn of [build_with_pressure]: the request, or [None] after a compaction. *)
Definition build_once : M (option ModelRequest) :=
  set_budget_markers ≫= λ _,
  prepare_recall cx None ≫= λ _,
  a ← assembled;
  step ← gets l_step;
  let p := pressure a in
  (match metadata (request a) !! "recall_limitation" with
   | Some limitation =>
       if pressure_fits p
       then _append_event cx "memory.recall.limited"
              [("step_number", JInt (st_step_number step)); ("reason", JStr limitation)]
       else mret tt
   | None => mret tt
   end) ≫= λ _,
  (if match yield_steps p with [] => false | _ => true end || negb (pressure_fits p)
   then _append_event cx "context.budget.pressure" (pressure_event step p) else mret tt) ≫= λ _,
  if pressure_fits p then mret (Some (request a))
  else if negb (compactable p) || (max_compactions_per_step cx <=? compactions step) then
    _append_event cx "context.budget.exceeded"
      [("step_number", JInt (st_step_number step)); ("reason", JStr (pressure_reason p));
       ("compactions", JInt (compactions step))] ≫= λ _,
    raise (ContextOverflow (pressure_reason p))
  else
    cp ← gets l_checkpoint;
    result ← world (compact_context cp (history_budget_tokens p) (pressure_reason p));
    set_cp (λ _, result.1) ≫= λ _,
    set_step (λ st, st <| compactions := compactions st + 1 |>) ≫= λ _,
    step ← gets l_step;
    _append_event cx "context.compacted" (compacted_event step result.2) ≫= λ _,
    checkpoint cx "compaction" None ≫= λ _,
    mret None.
Fixpoint build_with_pressure (fuel : nat) : M (option ModelRequest) :=
  match fuel with
  | O => mret None
  | S fuel =>
      built ← build_once;
      match built with
      | Some r => mret (Some r)
      | None => build_with_pressure fuel
      end
  end.

Definition _apply_context_origin_trust (r : ModelRequest) : M unit :=
  match TrustLevel_of (default (TrustLevel_value USER) (metadata r !! "context_origin_trust")) with
  | Some t => set_cp (λ c, c <| context_origin_trust := t |>)
  | None => raise (ContextOverflow "context builder returned an invalid trust marker")
  end.

Definition synthesis_reason (dimension : string) : string :=
  if String.eqb dimension "repeated_tool_calls" then
    "Runtime control: repeated-tool synthesis is required because an identical tool call is one repetition away from the loop limit. Do not call tools. Synthesize the best-supported final answer from evidence already in the conversation, state any remaining gap, and explain that research stopped because it was repeating. Do not claim the unfinished work is complete."
  else "Runtime control: the final-synthesis reserve is active because the run " +:+ dimension +:+
       " budget is exhausted. Do not call tools. Synthesize the best-supported final answer from evidence already in the conversation and state any remaining gap.".
Definition BROWSER_STOPPED : string :=
  "Runtime control: the reviewed browser workflow has stopped. Do not call tools or repeat its actions. Report only what the existing evidence confirms, and state any unverified outcome or remaining gap.".
(** The extra control of a feed briefing; [workflow] is any JSON value of the state. *)
Definition workflow_extra (dimension : string) (workflow : option json) : result string :=
  if String.eqb dimension "browser_workflow" && match workflow with Some w => truthy w | None => false end
  then match workflow with
       | Some (JObj w) =>
           if bool_decide (as_str (dict_get "report" w) = Some "x_home_briefing")
           then feed_report_control cx w else Ok ""
       | _ => Raise (AttributeError "object has no attribute 'get'")
       end
  else Ok "".
Definition _synthesis_only_request (r : ModelRequest) (dimension : string) (workflow : option json)
    : result ModelRequest :=
  extra ← workflow_extra dimension workflow;
  let control :=
    UserMessage [TextPart (if String.eqb dimension "browser_workflow" then BROWSER_STOPPED +:+ extra
                           else synthesis_reason dimension)] PLATFORM None None None in
  Ok (r <| rq_conversation := (rq_conversation r ++ [control])%list |> <| tool_choice := Some "none" |>).

(** ** One model attempt *)
Record reading := {
  rd_expected : Z;
  rd_first_event : option datetime;
  rd_first_text : option datetime;
  rd_terminal : option ModelEvent;
  rd_terminal_at : datetime;
}.
Definition has_text (e : ModelEvent) : bool :=
  match e with TextDeltaEvent _ _ t => negb (String.eqb t "") | _ => false end.
Definition seen (o : option datetime) (t : datetime) : option datetime :=
  match o with Some u => Some u | None => Some t end.

(** [async for event in ...]: what was read, or the outcome the body returned. *)
Fixpoint consume (events : list ModelEvent) (r : reading) : M (reading + RunOutcome) :=
  match events with
  | [] => mret (inl r)
  | e :: events =>
      if negb (ModelStream.sequence e =? rd_expected r) then
        o ← failure_at MODEL_PERMANENT_ERROR "ModelProtocolError"
              "the normalized model stream had a sequence gap" ∅; mret (inr o)
      else
        t ← now;
        run ← gets l_run;
        (if has_model_callback cx then world (on_model_event run e) else mret tt) ≫= λ _,
        let r' := {| rd_expected := rd_expected r + 1; rd_first_event := seen (rd_first_event r) t;
                     rd_first_text := if has_text e then seen (rd_first_text r) t else rd_first_text r;
                     rd_terminal := rd_terminal r; rd_terminal_at := rd_terminal_at r |} in
        if is_terminal_event e then
          match rd_terminal r with
          | Some _ =>
              o ← failure_at MODEL_PERMANENT_ERROR "ModelProtocolError"
                    "the normalized model stream had multiple terminal events" ∅; mret (inr o)
          | None =>
              consume events {| rd_expected := rd_expected r'; rd_first_event := rd_first_event r';
                                rd_first_text := rd_first_text r'; rd_terminal := Some e;
                                rd_terminal_at := t |}
          end
        else consume events r'
  end.

(** The events the loop reads, and how the generator ends: the validator passes the
    provider's own exception on when it has accepted every event before it. *)
Definition filtered_stream (source : list ModelEvent) (raised : option exn)
    : list ModelEvent * result unit :=
  let '(yielded, r) := validated_stream (carries_credential cx) source in
  let ended := match raised with
               | Some x => if (length yielded =? length source)%nat then Raise x else r
               | None => r
               end in
  response_text_stream (yielded, ended).

Definition _reconcile_context_estimate (r : ModelRequest) (u : ModelUsage) : M unit :=
  match metadata r !! "context_total_tokens" with
  | None => mret tt
  | Some raw_total =>
      if u_input_tokens u <=? 0 then mret tt
      else match int_text raw_total, int_text (default "0" (metadata r !! "context_reserve_tokens")) with
           | Some total, Some reserve =>
               modify (λ s, s <| l_world :=
                 estimator_reconcile (context_model cx) (Z.max 1 (total - reserve)) (u_input_tokens u)
                   (l_world s) |>)
           | _, _ => mret tt
           end
  end.

(** [budgets.record_model_usage], [budgets.record_tool_usage], at the ledger's clock. *)
Definition charge_model (u : ModelUsage) (attempt : ModelAttempt) (r : ModelRequest)
    (stop : option StopReason) (err : option ModelErrorKind) : M unit :=
  t ← now;
  (λ s, let '(e, run, w) := record_model (l_run s) u (l_step s) attempt (metadata r !! "prefix_sha256")
                             (resolved_model cx) (registry_version (l_checkpoint s)) stop err t
                             (l_world s) in
        (e, s <| l_run := run |> <| l_world := w |>)) : M unit.
Definition charge_tools (n : nat) : M unit :=
  t ← now;
  (λ s, let '(e, run, w) := record_tools (l_run s) (Z.of_nat n) (l_step s) t (l_world s) in
        (e, s <| l_run := run |> <| l_world := w |>)) : M unit.

(** The request of this attempt. *)
Definition attempt_request (r : ModelRequest) (reserve : option string) : M ModelRequest :=
  ws ← gets (λ s, working_state (l_checkpoint s));
  r ← match reserve with
      | Some d => lift (_synthesis_only_request r d (dict_get "browser_workflow" ws))
      | None => mret r
      end;
  let r := match context_effort cx, rq_reasoning_effort r with
           | Some e, None => r <| rq_reasoning_effort := Some e |>
           | _, _ => r
           end in
  mret (if context_summary cx && negb (rq_reasoning_summary r)
        then r <| rq_reasoning_summary := true |> else r).

Definition meta_json (r : ModelRequest) (key : string) : string * json :=
  (key, opt_json JStr (metadata r !! key)).
Definition announce (attempt : ModelAttempt) (r : ModelRequest) : M unit :=
  step ← gets l_step;
  _append_event cx "model.request.started"
    ([("attempt_id", JStr (uuid_str cx (attempt_id attempt)));
      ("step_number", JInt (st_step_number step)); meta_json r "prefix_sha256";
      meta_json r "context_epoch"; meta_json r "context_total_tokens";
      meta_json r "context_capacity_tokens"; meta_json r "context_reserve_tokens";
      ("reasoning_effort", opt_json (λ e, JStr (ReasoningEffort_value e)) (rq_reasoning_effort r))])
    ≫= λ _,
  match recall_ranking r with
  | Some ((_ :: _) as blocks) =>
      _append_event cx "memory.delivered"
        [("attempt_id", JStr (uuid_str cx (attempt_id attempt)));
         ("step_number", JInt (st_step_number step));
         ("trace_ids", JArr (map (λ b, JStr (uuid_str cx (rrb_trace_id b))) blocks))]
  | _ => mret tt
  end.

Definition completed_event (attempt : ModelAttempt) (step : Step) (turn : ModelTurn) (stop : StopReason)
    (retries : Z) (issued : datetime) (rd : reading) (calls_before : Z) (reserve : option string)
    (retain : bool) : dict :=
  [("attempt_id", JStr (uuid_str cx (attempt_id attempt)));
   ("step_number", JInt (st_step_number step));
   ("stop_reason", JStr (StopReason_value stop));
   ("usage", dump_usage cx (turn_usage turn));
   ("internal_retry_count", JInt retries);
   ("duration_ms", opt_json JInt (_elapsed_ms (elapsed_milliseconds cx) issued (Some (rd_terminal_at rd))));
   ("time_to_first_event_ms", opt_json JInt (_elapsed_ms (elapsed_milliseconds cx) issued (rd_first_event rd)));
   ("time_to_first_text_ms", opt_json JInt (_elapsed_ms (elapsed_milliseconds cx) issued (rd_first_text rd)));
   ("tool_names", JArr (map (λ c, JStr (tc_name c)) (turn_tool_calls turn)));
   ("tool_call_count_before_turn", JInt calls_before);
   ("synthesis_reserve", opt_json JStr reserve);
   ("conversation_items",
    JArr (if retain
          then map (dump_item cx)
                 ((if match turn_tool_calls turn with [] => false | _ => true end
                   then map AssistantItem (assistant_messages turn) else []) ++
                  map CallItem (turn_tool_calls turn))%list
          else []))].

(** What follows a failed terminal event: [None] is another attempt. *)
Definition failed_attempt (maximum_attempts : Z) (attempt : ModelAttempt) (r : ModelRequest)
    (error : ModelFailure) (partial_turn : option ModelTurn) : M (option (ModelTurn + RunOutcome)) :=
  let e := failure_error error in
  let details := _provider_failure_details e in
  step ← gets l_step;
  _append_event cx "model.response.failed"
    ([("attempt_id", JStr (uuid_str cx (attempt_id attempt)));
      ("step_number", JInt (st_step_number step)); ("error_class", JStr (failed_class error))] ++
     details_json details)%list ≫= λ _,
  let usage := match partial_turn with
               | Some t => turn_usage t
               | None => no_usage (err_provider e) (err_model e)
               end in
  charge_model usage attempt r None (Some (if is_transient error then TRANSIENT else PERMANENT)) ≫= λ _,
  _reconcile_context_estimate r usage ≫= λ _,
  step ← gets l_step;
  if is_transient error && negb (stream_output error) && (attempt_count step <? maximum_attempts)
  then mret None
  else
    o ← failure_at (if is_transient error then MAX_ATTEMPTS_EXCEEDED else MODEL_PERMANENT_ERROR)
          (failed_class error) (err_message e) (details_map details);
    mret (Some (inr o)).

(** What follows a completed one. *)
Definition completed_attempt (maximum_attempts : Z) (attempt : ModelAttempt) (r : ModelRequest)
    (reserve : option string) (retain : bool) (turn : ModelTurn) (stop : StopReason) (retries : Z)
    (issued : datetime) (rd : reading) : M (option (ModelTurn + RunOutcome)) :=
  step ← gets l_step;
  run ← gets l_run;
  _append_event cx "model.response.completed"
    (completed_event attempt step turn stop retries issued rd (tool_call_count run) reserve retain) ≫= λ _,
  charge_model (turn_usage turn) attempt r (Some stop) None ≫= λ _,
  _reconcile_context_estimate r (turn_usage turn) ≫= λ _,
  if bool_decide (reserve ∈ [Some "time"; Some "cost"]) &&
     match turn_tool_calls turn with [] => false | _ => true end
  then
    o ← failure_at BUDGET_EXCEEDED "SynthesisReserveViolation"
          ("The model requested another tool while the remaining " +:+ default "None" reserve +:+
           " was reserved for its answer.")
          {[ "synthesis_reserve" := DStr (default "None" reserve) ]};
    mret (Some (inr o))
  else if match turn_tool_calls turn with [] => true | _ => false end &&
          negb (_has_final_text (select_final_message turn))
  then
    step ← gets l_step;
    if attempt_count step <? maximum_attempts then mret None
    else
      o ← failure_at EMPTY_MODEL_TURN "EmptyModelTurn"
            "the model produced neither a message nor tool calls" ∅;
      mret (Some (inr o))
  else mret (Some (inl turn)).

(** The provider's stream of one attempt, read to its end. *)
Definition read_stream (r : ModelRequest) (attempt : ModelAttempt) (issued : datetime)
    : M (reading + RunOutcome) :=
  source ← (λ s, let '(events, raised, w) := provider_stream r attempt (l_world s) in
                 (Ok (events, raised), s <| l_world := w |>)) : M (list ModelEvent * option exn);
  let '(events, ended) := filtered_stream source.1 source.2 in
  read ← consume events {| rd_expected := 0; rd_first_event := None; rd_first_text := None;
                           rd_terminal := None; rd_terminal_at := issued |};
  match read with
  | inr o => mret (inr o)
  | inl rd =>
      match ended with
      | Ok _ => mret (inl rd)
      | Raise (ModelStreamError m) =>
          o ← failure_at MODEL_PERMANENT_ERROR "ModelProtocolError"
                "the normalized model stream violated its contract"
                (stream_diagnostics cx source.1 ∪ {[ "protocol_detail" := DStr m ]});
          mret (inr o)
      | Raise e => raise e
      end
  end.

Definition attempt_once (maximum_attempts : Z) (r : ModelRequest)
    (initial_synthesis_reserve : option string) (retain : bool) : M (option (ModelTurn + RunOutcome)) :=
  t ← now;
  run ← gets l_run;
  lift (_check_before_operation run ATTEMPT t) ≫= λ _,
  reserve ← (match initial_synthesis_reserve with
             | Some d => mret (Some d)
             | None => t ← now; mret (_synthesis_reserve_dimension run (Some t) true true)
             end : M (option string));
  r ← attempt_request r reserve;
  set_step (λ st, st <| attempt_count := attempt_count st + 1 |>) ≫= λ _,
  step ← gets l_step;
  u ← fresh_id;
  t ← now;
  let attempt := {| attempt_id := u; attempt_run_id := id run;
                    attempt_step_number := st_step_number step;
                    attempt_number_ := attempt_count step; attempt_started_at := t |} in
  announce attempt r ≫= λ _,
  s ← get_state;
  (if uow_is_open (l_world s)
   then raise (RuntimeError "model I/O cannot begin while a unit of work is open")
   else mret tt) ≫= λ _,
  issued ← now;
  read ← read_stream r attempt issued;
  match read with
  | inr o => mret (Some (inr o))
  | inl rd =>
      match rd_terminal rd with
      | Some (ModelCompletedEvent _ turn stop _ retries) =>
          completed_attempt maximum_attempts attempt r reserve retain turn stop retries issued rd
      | Some (ModelFailedEvent _ error partial_turn) =>
          failed_attempt maximum_attempts attempt r error partial_turn
      | _ =>
          o ← failure_at MODEL_PERMANENT_ERROR "ModelProtocolError"
                "the normalized model stream ended without a terminal event" ∅;
          mret (Some (inr o))
      end
  end.

Fixpoint _invoke_model (fuel : nat) (maximum_attempts : Z) (r : ModelRequest)
    (initial_synthesis_reserve : option string) (retain : bool) : M (option (ModelTurn + RunOutcome)) :=
  step ← gets l_step;
  if maximum_attempts <=? attempt_count step then
    o ← failure_at MAX_ATTEMPTS_EXCEEDED "ModelTransientError" "the model attempt limit was reached" ∅;
    mret (Some (inr o))
  else
    match fuel with
    | O => mret None
    | S fuel =>
        done_ ← attempt_once maximum_attempts r initial_synthesis_reserve retain;
        match done_ with
        | Some x => mret (Some x)
        | None => _invoke_model fuel maximum_attempts r initial_synthesis_reserve retain
        end
    end.

(** ** Tools *)
Definition refusal_event (call : ToolCallItem) (r : ToolResultItem) : dict :=
  [("name", JStr (tc_name call)); ("call_id", JStr (call_id call));
   ("reason_code", JStr "tool.budget_exhausted"); ("result_item", dump_result cx r)].
Definition with_sequence (n : Z) (r : ToolResultItem) : ToolResultItem :=
  {| tr_call_id := tr_call_id r; content := content r; context_content := context_content r;
     memory_recall := memory_recall r; is_error := is_error r; tr_trust := tr_trust r;
     source_event_sequence := Some n |}.
Fixpoint append_refusals (refused : list (ToolCallItem * ToolResultItem)) : M (list ToolResultItem) :=
  match refused with
  | [] => mret []
  | (call, r) :: refused =>
      n ← append cx "tool.call.failed" (refusal_event call r);
      recorded ← append_refusals refused;
      mret (with_sequence n r :: recorded)
  end.
Definition extend (items : list ConversationItem) : M unit :=
  set_cp (λ c, c <| conversation := (conversation c ++ items)%list |>).
Definition _record_refusals (refused : list (ToolCallItem * ToolResultItem)) : M unit :=
  match refused with
  | [] => mret tt
  | _ => recorded ← in_uow (append_refusals refused); extend (map ResultItem recorded)
  end.

(** [with_event_sequences]: the events that recorded each call id, and the ids that name
    no single event. A container as a call id cannot be a dictionary key. *)
Fixpoint scan_events (events : list EventEnvelope) (recorded : gmap string Z) (ambiguous : gset string)
    : result (gmap string Z * gset string) :=
  match events with
  | [] => Ok (recorded, ambiguous)
  | e :: events =>
      if bool_decide (ev_event_type (env_event e) ∈ TOOL_RESULT_EVENTS) then
        match dict_get "call_id" (ev_payload (env_event e)) with
        | Some (JStr c) =>
            scan_events events (<[c := env_sequence e]> recorded)
              (if bool_decide (is_Some (recorded !! c)) then {[c]} ∪ ambiguous else ambiguous)
        | Some (JArr _ | JObj _) => Raise (TypeError "unhashable type")
        | _ => scan_events events recorded ambiguous
        end
      else scan_events events recorded ambiguous
  end.
Fixpoint repeated_ids (earlier : list string) (ids : list string) : gset string :=
  match ids with
  | [] => ∅
  | c :: ids =>
      (if bool_decide (c ∈ earlier) then {[c]} else ∅) ∪ repeated_ids (c :: earlier) ids
  end.
Definition sequenced_result (recorded : gmap string Z) (ambiguous : gset string) (r : ToolResultItem)
    : ToolResultItem :=
  match source_event_sequence r, recorded !! tr_call_id r with
  | None, Some n => if bool_decide (tr_call_id r ∈ ambiguous) then r else with_sequence n r
  | _, _ => r
  end.
Definition with_event_sequences (results : list ToolResultItem) : M (list ToolResultItem) :=
  if forallb (λ r, match source_event_sequence r with Some _ => true | None => false end) results
  then mret results
  else
    s ← get_state;
    events ← in_uow (world (events_list_after (session_id (l_run s))
                (last_event_sequence (l_checkpoint s)) (principal cx) (id (l_run s))));
    found ← lift (scan_events events ∅ (repeated_ids [] (map tr_call_id results)));
    mret (map (sequenced_result found.1 found.2) results).

Definition _denied_outcome (r : ToolResultItem) : option ToolOutcome :=
  head (List.filter (λ o, bool_decide (outcome_status o = OUTCOME_DENIED))
    (omap (λ p, match p with TextPart t => parse_outcome cx t | _ => None end) (content r))).

(** [json.dumps] of ASCII text. *)
Definition hex_nibble (n : N) : Ascii.ascii :=
  Ascii.ascii_of_N (if (n <? 10)%N then 48 + n else 87 + n).
Fixpoint json_escape (s : string) : string :=
  match s with
  | EmptyString => EmptyString
  | String c s =>
      let n := Ascii.N_of_ascii c in
      (if (n =? 34)%N then String (Ascii.ascii_of_N 92) (String (Ascii.ascii_of_N 34) EmptyString)
       else if (n =? 92)%N then String (Ascii.ascii_of_N 92) (String (Ascii.ascii_of_N 92) EmptyString)
       else if (n =? 10)%N then "\n" else if (n =? 13)%N then "\r" else if (n =? 9)%N then "\t"
       else if (n =? 8)%N then "\b" else if (n =? 12)%N then "\f"
       else if ((n <? 32) || (126 <? n))%N
            then "\u00" +:+ String (hex_nibble (n / 16)) (String (hex_nibble (n mod 16)) EmptyString)
       else String c EmptyString) +:+ json_escape s
  end.
Definition json_string (s : string) : string := QUOTE +:+ json_escape s +:+ QUOTE.
Definition denial_key (name hash reason : string) : string :=
  "[" +:+ json_string name +:+ "," +:+ json_string hash +:+ "," +:+ json_string reason +:+ "]".

Fixpoint count_denials (hashes : gmap string string) (denied : list (ToolCallItem * ToolOutcome))
    (tripped : bool) (counters : dict) : result (bool * dict) :=
  match denied with
  | [] => Ok (tripped, counters)
  | (call, outcome) :: denied =>
      let hash := default (arguments_digest cx (tc_arguments call)) (hashes !! call_id call) in
      let key := denial_key (tc_name call) hash (outcome_reason_code outcome) in
      match count_of key counters with
      | Raise e => Raise e
      | Ok n =>
          count_denials hashes denied (tripped || (identical_denial_threshold cx <=? n + 1))
            (dict_set key (JInt (n + 1)) counters)
      end
  end.
Definition denied_calls (calls : list ToolCallItem) (results : list ToolResultItem)
    : list (ToolCallItem * ToolOutcome) :=
  omap (λ cr, pair cr.1 <$> _denied_outcome cr.2) (combine calls results).
Definition _record_denials (calls : list ToolCallItem) (results : list ToolResultItem) : M bool :=
  if negb (length calls =? length results)%nat
  then raise (ValueError "zip() argument 2 is shorter or longer than argument 1")
  else match denied_calls calls results with
  | [] => mret false
  | denied =>
      s ← get_state;
      invocations ← in_uow (world (invocations_list_for_run (id (l_run s)) (principal cx)));
      let hashes := foldl (λ m i,
        match ToolInvocations.normalized_arguments_hash i with
        | Some h => if ToolInvocations.step_number i =? st_step_number (l_step s)
                    then <[inv_call_id i := h]> m else m
        | None => m
        end) ∅ invocations in
      set_ws (setdefault_obj "identical_denials") ≫= λ _,
      ws ← gets (λ s, working_state (l_checkpoint s));
      match dict_get "identical_denials" ws with
      | Some (JObj counters) =>
          counted ← lift (count_denials hashes denied false counters);
          set_ws (dict_set "identical_denials" (JObj counted.2)) ≫= λ _, mret counted.1
      | _ => raise (RuntimeError "the identical-denial counter was malformed")
      end
  end.

(** [dispatch_tools] on the loop's objects, which the call updates in place. *)
Definition dispatch (calls : list ToolCallItem) (permit : option RecallExecutionPermit)
    : M (list ToolResultItem) := λ s,
  let '(r, fx, w) := dispatch_tools (l_run s) (l_checkpoint s) calls (l_step s) permit (l_world s) in
  (r, s <| l_run := charged (de_usage fx) (de_model_call_count fx) (de_updated_at fx) (l_run s) |>
        <| l_checkpoint := (l_checkpoint s) <| working_state := de_working_state fx |>
             <| loaded_skills := de_loaded_skills fx |> |>
        <| l_world := w |>).

Definition _record_open_question (question : string) : M json :=
  ws ← gets (λ s, working_state (l_checkpoint s));
  updated ← lift (add_open_question cx (dict_get "context" ws) question);
  set_ws (λ d, dict_set "outstanding_question_text" (JStr question) (dict_set "context" updated d)) ≫= λ _,
  mret updated.
Definition bind_browser_auth_question (question : UUID) : M unit :=
  ws ← gets (λ s, working_state (l_checkpoint s));
  match dict_get "browser_auth_wait" ws with
  | None | Some JNull => mret tt
  | Some raw =>
      wait ← lift (parse_wait cx raw);
      set_ws (dict_set "browser_auth_wait" (dump_wait cx
        {| wait_profile_id := wait_profile_id wait; wait_generation := wait_generation wait;
           wait_started_at := wait_started_at wait; wait_expires_at := wait_expires_at wait;
           wait_question_id := Some question; wait_resume_url := wait_resume_url wait |}))
  end.
(** The events and the checkpoint of a question the run waits on. *)
Definition open_question (question : string) (question_id : UUID) : M unit :=
  state ← _record_open_question question;
  set_ws (dict_set "outstanding_question_id" (JStr (uuid_str cx question_id))) ≫= λ _,
  bind_browser_auth_question question_id ≫= λ _,
  _append_event cx "context.working_state.updated"
    [("working_state", state); ("source", JStr "runtime_question")] ≫= λ _,
  checkpoint cx "suspended" None.

(** ** Browser recovery *)
Definition BROWSER_AUTH_INTERRUPTION_MARKER : string :=
  "{" +:+ QUOTE +:+ "browser_interruption" +:+ QUOTE +:+ ":" +:+ QUOTE +:+ "needs_user" +:+ QUOTE +:+ "}".
Definition BROWSER_TOOLS : list string := ["browser.observe"; "browser.navigate"; "browser.act"].
Definition first_text (c : list ContentPart) : option string :=
  match c with TextPart t :: _ => Some t | _ => None end.
(** The failures one result shows, and whether it is an action of unknown outcome. *)
Definition browser_failures (call : ToolCallItem) (r : ToolResultItem) : gset string * bool :=
  if negb (bool_decide (tc_name call ∈ BROWSER_TOOLS)) || negb (String.eqb (call_id call) (tr_call_id r))
  then (∅, false)
  else if negb (is_error r) then
    (match first_text (content r) ≫= parse_observation cx with
     | Some o => if bool_decide (interruption o = Some "needs_user") then {["tool.browser.needs_user"]} else ∅
     | None => ∅
     end, false)
  else
    match first_text (content r) ≫= parse_outcome cx with
    | Some o =>
        if String.eqb (outcome_action o) (tc_name call) then
          let act := String.eqb (tc_name call) "browser.act" in
          ({[outcome_reason_code o]} ∪
           (if act && String.eqb (outcome_reason_code o) "tool.browser.outcome_unknown" &&
               existsb (λ p, match p with TextPart t => String.eqb t BROWSER_AUTH_INTERRUPTION_MARKER
                             | _ => false end) (tl (content r))
            then {["tool.browser.needs_user"]} else ∅),
           act && bool_decide (outcome_status o = OUTCOME_UNCERTAIN) &&
           String.eqb (outcome_reason_code o) "tool.outcome_unknown")
        else (∅, false)
    | None => (∅, false)
    end.
Definition all_failures (calls : list ToolCallItem) (results : list ToolResultItem) : gset string * bool :=
  foldl (λ acc cr, let '(f, u) := browser_failures cr.1 cr.2 in (acc.1 ∪ f, acc.2 || u))
    (∅, false) (combine calls results).

(** The last page of the conversation the profile may open. *)
Definition page_of (x : ConversationItem) : option string :=
  match x with
  | CallItem c =>
      if String.eqb (tc_name c) "browser.navigate" then as_str (dict_get "url" (tc_arguments c)) else None
  | ResultItem r =>
      if is_error r then None
      else match first_text (content r) ≫= parse_observation cx with
           | Some o => match interruption o with None => Some (observed_url o) | Some _ => None end
           | None => None
           end
  | _ => None
  end.
Definition resume_url (profile : BrowserProfile) (first : string) (items : list ConversationItem) : string :=
  default (first +:+ "/")
    (head (List.filter (λ u, match browser_origin cx u with
                             | Some o => bool_decide (o ∈ allowed_origins profile)
                             | None => false
                             end) (omap page_of (reverse items)))).
Definition selected_profile : M (option BrowserProfile) :=
  s ← get_state;
  catch (in_uow (
    metadata ← world (sessions_metadata (session_id (l_run s)) (principal cx));
    match as_str (dict_get SESSION_BROWSER_PROFILE_METADATA_KEY metadata) with
    | None => mret None
    | Some selected =>
        match parse_uuid cx selected with
        | None => raise (ValueError "badly formed hexadecimal UUID string")
        | Some u => p ← world (browser_profiles_get u (principal cx)); mret (Some p)
        end
    end))
    (λ e, match e with ValueError _ | NotFoundError _ => Some (mret None) | _ => None end).
Definition prepare_browser_auth_wait : M (option BrowserAuthenticationWait) :=
  selected ← selected_profile;
  match selected with
  | None => mret None
  | Some p =>
      if bool_decide (bp_status p ∈ [PROVISIONING; REVOKED]) then mret None
      else match allowed_origins p with
      | [] => raise IndexError
      | first :: _ =>
          s ← get_state;
          t ← now;
          mret (Some
            {| wait_profile_id := bp_id p; wait_generation := generation p; wait_started_at := t;
               wait_expires_at := Z.min (t + minutes 15)
                                    (default (t + minutes 15) (run_deadline_at (l_run s)));
               wait_question_id := None;
               wait_resume_url := Some (resume_url p first (conversation (l_checkpoint s))) |})
      end
  end.

Definition sign_in_question (wait : bool) : string :=
  "Please sign in to this chat's website in Website Access on your device, " +:+
  (if wait then "and I will continue automatically once sign-in is verified. "
   else "then reply here to continue. ") +:+
  "Keep passwords, verification codes and CAPTCHA answers in the sign-in window. I will read fresh evidence before continuing; the interrupted operation will not be replayed.".

(** What recovery does next: nothing, or one call of a bounded kind. *)
Record recovery := { rec_name : string; rec_counter : string; rec_maximum : Z; rec_arguments : dict }.
Definition plan_recovery (calls : list ToolCallItem) (failures : gset string) (uncertain : bool)
    : M (option recovery) :=
  if bool_decide ("tool.browser.authentication_required" ∈ failures) ||
     bool_decide ("tool.browser.needs_user" ∈ failures) then
    wait ← prepare_browser_auth_wait;
    let ask := Some {| rec_name := "conversation.ask_user"; rec_counter := "browser_auth_interruptions";
                       rec_maximum := 2;
                       rec_arguments := [("question", JStr (sign_in_question (bool_decide (is_Some wait))))] |} in
    match wait with
    | None => mret ask
    | Some w =>
        let episode := uuid_str cx (wait_profile_id w) +:+ ":" +:+ pretty (wait_generation w) in
        ws ← gets (λ s, working_state (l_checkpoint s));
        if bool_decide (as_str (dict_get "browser_auth_episode" ws) = Some episode) then mret None
        else
          set_ws (λ d, dict_set "browser_auth_wait" (dump_wait cx w)
                         (dict_set "browser_auth_episode" (JStr episode) d)) ≫= λ _,
          mret ask
    end
  else if uncertain || bool_decide ("tool.browser.page_changed" ∈ failures) ||
          bool_decide ("tool.browser.element_not_found" ∈ failures) then
    if existsb (λ c, py_startswith "browser-recovery:" (call_id c)) calls then mret None
    else mret (Some {| rec_name := "browser.observe"; rec_counter := "browser_recovery_reads";
                       rec_maximum := 3; rec_arguments := [] |})
  else mret None.

(** The queued call, made durable before it is dispatched. *)
Definition queue_recovery (r : recovery) : M (option ToolCallItem) :=
  if negb (bool_decide (rec_name r ∈ available_tools cx)) then mret None
  else
    ws ← gets (λ s, working_state (l_checkpoint s));
    match default (JInt 0) (dict_get (rec_counter r) ws) with
    | JInt n =>
        if (0 <=? n) && (n <? rec_maximum r) then
          set_ws (dict_set (rec_counter r) (JInt (n + 1))) ≫= λ _,
          u ← fresh_id;
          let call := {| call_id := "browser-recovery:" +:+ uuid_str cx u; item_index := 0;
                         tc_name := rec_name r; tc_arguments := rec_arguments r;
                         raw_arguments := dumps cx (JObj (rec_arguments r)); parse_error := None;
                         tc_source_event_sequence := None |} in
          extend [CallItem call] ≫= λ _,
          set_cp (λ c, c <| pending_tool_calls := [call] |>) ≫= λ _,
          checkpoint cx "browser_recovery" None ≫= λ _,
          mret (Some call)
        else mret None
    | _ => mret None
    end.
(** The results of a dispatched batch join the conversation, whose counters read them. *)
Definition adopt_results (calls : list ToolCallItem) (results : list ToolResultItem)
    : M (list ToolResultItem) :=
  charge_tools (length results) ≫= λ _,
  results ← with_event_sequences results;
  extend (map ResultItem results) ≫= λ _,
  ws ← gets (λ s, working_state (l_checkpoint s));
  ws ← lift (apply_tool_evidence ws calls);
  set_ws (λ _, ws) ≫= λ _,
  set_cp (λ c, c <| pending_tool_calls := [] |>) ≫= λ _,
  mret results.
(** [None] is out of fuel: a recovery never recovers more than twice. *)
Fixpoint recover_browser_failure (fuel : nat) (calls : list ToolCallItem) (results : list ToolResultItem)
    : M (option unit) :=
  match fuel with
  | O => mret None
  | S fuel =>
      if negb (length calls =? length results)%nat
      then raise (ValueError "zip() argument 2 is shorter or longer than argument 1")
      else
        let '(failures, uncertain) := all_failures calls results in
        run ← gets l_run;
        if max_tool_calls (limits run) <=? tool_call_count run then mret (Some tt)
        else
          planned ← plan_recovery calls failures uncertain;
          match planned with
          | None => mret (Some tt)
          | Some r =>
              queued ← queue_recovery r;
              match queued with
              | None => mret (Some tt)
              | Some call =>
                  recovered ← dispatch [call] None;
                  recovered ← adopt_results [call] recovered;
                  recover_browser_failure fuel [call] recovered
              end
          end
  end.

Definition suspend_for_browser_question (question_id invocation_id : UUID) : M RunOutcome :=
  s ← get_state;
  match pending_tool_calls (l_checkpoint s) with
  | [] => raise IndexError
  | pending :: _ =>
      match dict_get "question" (tc_arguments pending) with
      | None => raise (KeyError "question")
      | Some q =>
          open_question (py_str cx q) question_id ≫= λ _,
          s ← get_state;
          let base := [("kind", JStr "user"); ("question_id", JStr (uuid_str cx question_id));
                       ("invocation_id", JStr (uuid_str cx invocation_id))] in
          if String.eqb (tc_name pending) "conversation.ask_user" &&
             py_startswith "browser-recovery:" (call_id pending) then
            wait ← lift (match dict_get "browser_auth_wait" (working_state (l_checkpoint s)) with
                         | None | Some JNull => Ok None
                         | Some raw => Some <$> parse_wait cx raw
                         end);
            origin ← (match wait ≫= wait_resume_url with
                      | None => mret None
                      | Some u => match browser_origin cx u with
                                  | Some o => mret (Some o)
                                  | None => raise (ValueError "browser origin must use public HTTPS")
                                  end
                      end : M (option string));
            let sign_in :=
              (match wait with
               | None => []
               | Some w => [("browser_profile_id", JStr (uuid_str cx (wait_profile_id w)))] ++
                           match origin with Some o => [("origin", JStr o)] | None => [] end ++
                           [("expires_at", JStr (dump_datetime cx (wait_expires_at w)))]
               end ++
               match run_deadline_at (l_run s) with
               | Some d => [("run_deadline_at", JStr (isoformat cx d))]
               | None => []
               end)%list in
            mret (suspended (base ++ [("sign_in", JObj sign_in)])%list)
          else mret (suspended base)
      end
  end.

(** A run that waits for a website connection asks its owner once. *)
Definition CONNECTION_QUESTION : string :=
  "Connect your X account using Website Access in this conversation. I will continue your follow request when it is connected.".
Definition given (o : option json) : bool :=
  match o with None | Some JNull => false | Some _ => true end.
Definition prepare_browser_connection_question : M unit :=
  cp ← gets l_checkpoint;
  if negb (given (dict_get "browser_access_wait" (working_state cp))) ||
     match pending_tool_calls cp with [] => false | _ => true end ||
     given (dict_get "outstanding_question_id" (working_state cp))
  then mret tt
  else
    u ← fresh_id;
    let arguments := [("question", JStr CONNECTION_QUESTION)] in
    let call := {| call_id := "browser-connection:" +:+ uuid_str cx u; item_index := 0;
                   tc_name := "conversation.ask_user"; tc_arguments := arguments;
                   raw_arguments := dumps cx (JObj arguments); parse_error := None;
                   tc_source_event_sequence := None |} in
    extend [CallItem call] ≫= λ _,
    set_cp (λ c, c <| pending_tool_calls := [call] |>) ≫= λ _,
    checkpoint cx "browser_recovery" None.

(** ** The reply: files chosen, retained and recorded in one unit of work. [position] is
    where the conversation holds the message object. *)
Definition with_files (m : AssistantMessage) (files : list ArtifactRef) : AssistantMessage :=
  {| am_content := (am_content m ++ map reply_file_reference files)%list; am_item_index := am_item_index m;
     am_trust := am_trust m; am_source_event_sequence := am_source_event_sequence m |}.
Definition complete_reply (position : nat) (message : AssistantMessage) : M AssistantMessage :=
  s ← get_state;
  reply ← in_uow (
    artifacts ← world (artifacts_list_for_run (id (l_run s)) (principal cx));
    t ← now;
    reply ← (match reply_attachments artifacts t with
             | [] => mret message
             | exported =>
                 retained ← world (artifacts_retain_for_reply (map art_id exported) (principal cx)
                                     (id (l_run s)));
                 mret (with_files message retained)
             end : M AssistantMessage);
    append cx "assistant.message.completed" [("message", dump_item cx (AssistantItem reply))] ≫= λ _,
    mret reply);
  set_cp (λ c, c <| conversation := <[position := AssistantItem reply]> (conversation c) |>) ≫= λ _,
  mret reply.

(** ** [run_loop] *)
Inductive iteration := Continue | Return (o : RunOutcome) | OutOfFuel.

Definition continuation (turn : ModelTurn) : option ProviderContinuation :=
  match turn_tool_calls turn, provider_reasoning_items turn with
  | _ :: _, _ :: _ =>
      Some {| pc_provider := rm_provider (resolved_model cx); previous_response_id := None;
              opaque_items := map (λ i, match dump_item cx (ReasoningItem i) with JObj o => o | _ => [] end)
                                (provider_reasoning_items turn);
              valid_for_provider_only := true |}
  | _, _ => None
  end.

(** The step of a new iteration, counted and stored. *)
Definition begin_step : M (option string) :=
  world token_check ≫= λ _,
  s ← get_state;
  reserve ← (if match dict_get "browser_workflow_report_only" (working_state (l_checkpoint s)) with
                | Some v => truthy v | None => false end
             then mret (Some "browser_workflow")
             else t ← now; mret (_synthesis_reserve_dimension (l_run s) (Some t) false false)
             : M (option string));
  t ← now;
  lift (_check_before_operation (l_run s) STEP t) ≫= λ _,
  set_run (λ run, run <| step_count := step_count run + 1 |>) ≫= λ _,
  t ← now;
  set_run (λ run, run <| updated_at := t |>) ≫= λ _,
  run ← gets l_run;
  in_uow (world (runs_update_counters run (lease cx))) ≫= λ _,
  t ← now;
  set_step (λ _, {| st_run_id := id run; st_step_number := step_count run; st_started_at := t;
                    attempt_count := 0; st_tool_call_count := 0; compactions := 0 |}) ≫= λ _,
  mret reserve.

Definition ask_user_question (calls : list ToolCallItem) : string :=
  default "The run is waiting for user input."
    (head (omap (λ c, if String.eqb (tc_name c) "conversation.ask_user"
                      then as_str (dict_get "question" (tc_arguments c)) else None) calls)).
(** The dispatch of the fitted batch: its results, or the outcome of a suspension. *)
Definition dispatch_or_suspend (fitted : list ToolCallItem) : M (list ToolResultItem + RunOutcome) :=
  catch (results ← recall_phase (dispatch fitted); mret (inl results))
    (λ e, match e with
     | ApprovalRequiredError a => Some (
         set_cp (λ c, c <| pending_approval_ids :=
           if bool_decide (a ∈ pending_approval_ids c) then pending_approval_ids c
           else (pending_approval_ids c ++ [a])%list |>) ≫= λ _,
         checkpoint cx "suspended" None ≫= λ _,
         mret (inr (suspended [("kind", JStr "approval"); ("approval_id", JStr (uuid_str cx a))])))
     | ChildRunRequiredError d i children => Some (
         checkpoint cx "suspended" None ≫= λ _,
         mret (inr (suspended [("kind", JStr "child_run"); ("delegation_id", JStr (uuid_str cx d));
                               ("invocation_id", JStr (uuid_str cx i));
                               ("child_run_ids", JArr (map (λ c, JStr (uuid_str cx c)) children))])))
     | UserInputRequiredError q i => Some (
         open_question (ask_user_question fitted) q ≫= λ _,
         mret (inr (suspended [("kind", JStr "user"); ("question_id", JStr (uuid_str cx q));
                               ("invocation_id", JStr (uuid_str cx i))])))
     | _ => None
     end).

(** A batch that fits: dispatched, adopted, its denials counted, its browser recovered. *)
Definition run_batch (fitted : list ToolCallItem) : M iteration :=
  checkpoint cx "tool_pending" None ≫= λ _,
  prepare_recall cx None ≫= λ _,
  s ← get_state;
  (if uow_is_open (l_world s)
   then raise (RuntimeError "tool I/O cannot begin while a unit of work is open")
   else mret tt) ≫= λ _,
  dispatched ← dispatch_or_suspend fitted;
  match dispatched with
  | inr o => mret (Return o)
  | inl results =>
      set_step (λ st, st <| st_tool_call_count := Z.of_nat (length results) |>) ≫= λ _,
      results ← adopt_results fitted results;
      repeated_denial ← _record_denials fitted results;
      recovered ← catch (done_ ← recover_browser_failure 3 fitted results;
                         mret (inl done_))
        (λ e, match e with
              | UserInputRequiredError q i =>
                  Some (o ← suspend_for_browser_question q i; mret (inr o))
              | _ => None
              end);
      match recovered with
      | inr o => mret (Return o)
      | inl None => mret OutOfFuel
      | inl (Some _) =>
          checkpoint cx "tool_call" None ≫= λ _,
          if (repeated_denial : bool) then
            o ← failure_at REPEATED_DENIAL "ToolPolicyDenied"
                  "the model repeated an identical denied action too many times" ∅;
            mret (Return o)
          else mret Continue
      end
  end.

(** The turn's tool calls: guarded, fitted, refused or dispatched. *)
Definition run_tools (turn : ModelTurn) (loop_synthesis : bool) : M iteration :=
  let calls := turn_tool_calls turn in
  s ← get_state;
  t ← now;
  guarded ← lift (guard_tool_turn (l_run s) (working_state (l_checkpoint s)) (identical_call_threshold cx)
                    calls (l_step s) (Some loop_synthesis) None t);
  set_ws (λ _, guarded.2) ≫= λ _,
  match guarded.1 with
  | Some o => mret (Return o)
  | None =>
      t ← now;
      run ← gets l_run;
      let '(fitted, refusals) := _fit_tool_batch (dump_outcome cx) run calls None (Some t) true in
      _record_refusals refusals ≫= λ _,
      set_cp (λ c, c <| pending_tool_calls := fitted |>) ≫= λ _,
      match fitted with
      | [] => checkpoint cx "tool_call" None ≫= λ _, mret Continue
      | _ => run_batch fitted
      end
  end.

(** What follows a turn. *)
Definition follow_turn (turn : ModelTurn) (loop_synthesis : bool) : M iteration :=
  if bool_decide (stop_reason turn = STOP_CANCELLED) then mret (Return cancelled)
  else
    world token_check ≫= λ _,
    set_cp (λ c, c <| provider_continuation := continuation turn |>) ≫= λ _,
    extend (map AssistantItem (assistant_messages turn)) ≫= λ _,
    position ← gets (λ s, length (conversation (l_checkpoint s)));
    extend (map CallItem (turn_tool_calls turn)) ≫= λ _,
    checkpoint cx "model_response" None ≫= λ _,
    match turn_tool_calls turn with
    | [] =>
        match select_final_message turn with
        | Some message =>
            if _has_final_text (Some message)
            then reply ← complete_reply (position - 1) message; mret (Return (completed reply))
            else o ← failure_at EMPTY_MODEL_TURN "EmptyModelTurn"
                       "the model produced neither a message nor tool calls" ∅;
                 mret (Return o)
        | None => o ← failure_at EMPTY_MODEL_TURN "EmptyModelTurn"
                        "the model produced neither a message nor tool calls" ∅;
                  mret (Return o)
        end
    | _ => run_tools turn loop_synthesis
    end.

Definition loop_body : M iteration :=
  reserve ← begin_step;
  built ← build_with_pressure (S (Z.to_nat (max_compactions_per_step cx)));
  match built with
  | None => mret OutOfFuel
  | Some r =>
      _apply_context_origin_trust r ≫= λ _,
      ws ← gets (λ s, working_state (l_checkpoint s));
      loop_synthesis ← lift (_loop_synthesis_needed (identical_call_threshold cx) ws);
      let initial := match reserve with
                     | Some d => Some d
                     | None => if (loop_synthesis : bool) then Some "repeated_tool_calls" else None
                     end in
      invoked ← _invoke_model (Z.to_nat (max_internal_attempts cx)) (max_internal_attempts cx) r
                  initial true;
      match invoked with
      | None => mret OutOfFuel
      | Some (inr o) => mret (Return o)
      | Some (inl turn) => follow_turn turn loop_synthesis
      end
  end.

Fixpoint run_loop (fuel : nat) : M (option RunOutcome) :=
  match fuel with
  | O => mret None
  | S fuel =>
      i ← loop_body;
      match i with
      | Continue => run_loop fuel
      | Return o => mret (Some o)
      | OutOfFuel => mret None
      end
  end.
End loop.
