(* ===== verification/RunLoopSpec.v ===== *)
(** * What the run loop guarantees

    The loop ends within its step limit, spends no more tool calls than its budget,
    answers every call it makes, and every way it ends is one its caller can act on. *)
From S2P Require Import Prelude StateLogic PyDecimal ToolInvocations EventModel RunModel Sessions Budgets PolicyModel Messages ModelStream ResponseText Checkpoints Compaction LoopGuards Artifacts LoopPorts Recall RunLoop.

Section spec.
Context {W : Type} `{LoopPorts W, !CheckpointWriter W, !CheckpointWriterLaws W, !BudgetLedger W,
  !BudgetLedgerLaws W} (cx : RunContext).
Abbreviation M := (stateM (LoopState W)).

(** ** Quiet computations: no step, no conversation item, no pending call, no count *)
Definition quiet (s s' : LoopState W) : Prop :=
  limits (l_run s') = limits (l_run s) ∧ step_count (l_run s') = step_count (l_run s) ∧
  tool_call_count (l_run s') = tool_call_count (l_run s) ∧ l_step s' = l_step s ∧
  conversation (l_checkpoint s') = conversation (l_checkpoint s) ∧
  pending_tool_calls (l_checkpoint s') = pending_tool_calls (l_checkpoint s) ∧
  pending_approval_ids (l_checkpoint s') = pending_approval_ids (l_checkpoint s).
#[local] Instance quiet_pre : PreOrder quiet.
Proof.
  split; [by intros s|]. intros a b c (?&?&?&?&?&?&?) (?&?&?&?&?&?&?). split_and!; congruence.
Qed.
#[local] Instance quiet_objects : Objects quiet.
Proof. intros s s' (Hr&Hc&Hst&?). unfold quiet. rewrite Hr, Hc, Hst. by split_and!. Qed.
#[local] Instance quiet_contents : Contents quiet.
Proof. intros s s' (Hr&Hst&?&Hc&Hp&Ha&?&?). unfold quiet. rewrite Hr, Hst, Hc, Hp, Ha. by split_and!. Qed.

Lemma quiet_modify f : (∀ s, quiet s (f s)) → keeps quiet (modify f).
Proof. apply keeps_modify. Qed.
Lemma quiet_set_ws f : keeps quiet (set_ws f).
Proof. by apply quiet_modify. Qed.
Lemma quiet_recall pending : keeps quiet (prepare_recall cx pending).
Proof.
  apply (keeps_weaken _ _ _ (prepare_recall_keeps cx pending)).
  intros s s' (_&Hp&Hc&_&Ha&Hr&Hs). unfold quiet. rewrite Hr, Hs. by split_and!.
Qed.
Lemma quiet_charge_model u a r stop err : keeps quiet (charge_model cx u a r stop err).
Proof.
  apply (keeps_bind _); [apply (keeps_now _)|intros t s].
  destruct (record_model_run (l_run s) u (l_step s) a (metadata r !! "prefix_sha256") (resolved_model cx)
    (registry_version (l_checkpoint s)) stop err t (l_world s)) as (u' & n & t' & Hr).
  destruct (record_model _ _ _ _ _ _ _ _ _ _ _) as [[e run] w]. cbn in Hr. subst run. by split_and!.
Qed.
Lemma quiet_dispatch calls permit : keeps quiet (dispatch calls permit).
Proof. intros s. unfold dispatch. destruct (dispatch_tools _ _ _ _ _ _) as [[r fx] w]. by split_and!. Qed.
Lemma quiet_reconcile r u : keeps quiet (_reconcile_context_estimate cx r u).
Proof. unfold _reconcile_context_estimate. keeps. by apply quiet_modify. Qed.
#[local] Hint Resolve quiet_set_ws quiet_recall quiet_charge_model quiet_dispatch quiet_reconcile : keeps.
#[local] Hint Extern 1 (keeps quiet (modify _)) => (apply quiet_modify; intros ?; unfold quiet; by split_and!) : keeps.
#[local] Hint Extern 1 (keeps quiet (set_cp _)) => (apply quiet_modify; intros ?; unfold quiet; by split_and!) : keeps.
#[local] Hint Extern 1 (keeps quiet get_state) => (intros ?; reflexivity) : keeps.

Lemma quiet_catch {A} (m : M A) handler :
  keeps quiet m → (∀ e k, handler e = Some k → keeps quiet k) → keeps quiet (catch m handler).
Proof.
  intros Hm Hh s. specialize (Hm s). unfold catch. destruct (m s) as [[a|e] s']; [done|].
  destruct (handler e) as [k|] eqn:E; [|done]. etrans; [exact Hm|]. by apply (Hh e k).
Qed.
Lemma quiet_recall_phase {A} (body : option RecallExecutionPermit → M A) :
  (∀ p, keeps quiet (body p)) → keeps quiet (recall_phase body).
Proof.
  intros Hb s. unfold recall_phase. specialize (Hb (l_permit s) s).
  destruct (body (l_permit s) s) as [r s']. etrans; [exact Hb|]. by split_and!.
Qed.
Lemma quiet_failure_at reason c m d : keeps quiet (failure_at reason c m d).
Proof. unfold failure_at. keeps. Qed.
Lemma quiet_assembled : keeps quiet assembled.
Proof. apply quiet_recall_phase. intros p. keeps. Qed.
#[local] Hint Resolve quiet_failure_at quiet_assembled : keeps.

Lemma quiet_consume events rd : keeps quiet (consume cx events rd).
Proof.
  revert rd. induction events as [|e events IH]; intros rd; cbn [consume]; keeps; apply IH.
Qed.
Lemma quiet_read_stream r a issued : keeps quiet (read_stream cx r a issued).
Proof.
  unfold read_stream. apply (keeps_bind _).
  { intros s. destruct (provider_stream r a (l_world s)) as [[es x] w]. by apply objects. }
  intros source. destruct (filtered_stream _ _ _) as [es r']. apply (keeps_bind _); [apply quiet_consume|].
  intros [rd|o]; keeps.
Qed.
Lemma quiet_attempt_request r reserve : keeps quiet (attempt_request cx r reserve).
Proof. unfold attempt_request. keeps. Qed.
Lemma quiet_announce a r : keeps quiet (announce cx a r).
Proof. unfold announce. keeps. Qed.
Lemma quiet_failed_attempt m a r e p : keeps quiet (failed_attempt cx m a r e p).
Proof. unfold failed_attempt. keeps. Qed.
Lemma quiet_completed_attempt m a r d k turn stop n t rd :
  keeps quiet (completed_attempt cx m a r d k turn stop n t rd).
Proof. unfold completed_attempt. keeps. Qed.
Lemma quiet_with_sequences rs : keeps quiet (with_event_sequences cx rs).
Proof. unfold with_event_sequences. keeps. Qed.
Lemma quiet_record_denials calls rs : keeps quiet (_record_denials cx calls rs).
Proof. unfold _record_denials. keeps. Qed.
Lemma quiet_selected_profile : keeps quiet (selected_profile cx).
Proof.
  unfold selected_profile. apply (keeps_bind _); [keeps|intros s]. apply quiet_catch; [keeps|].
  intros e k Hk. destruct e; try discriminate Hk; injection Hk as <-; keeps.
Qed.
#[local] Hint Resolve quiet_consume quiet_read_stream quiet_attempt_request quiet_announce
  quiet_failed_attempt quiet_completed_attempt quiet_with_sequences quiet_record_denials
  quiet_selected_profile : keeps.
Lemma quiet_prepare_wait : keeps quiet (prepare_browser_auth_wait cx).
Proof. unfold prepare_browser_auth_wait. keeps. Qed.
#[local] Hint Resolve quiet_prepare_wait : keeps.
Lemma quiet_plan_recovery calls f u : keeps quiet (plan_recovery cx calls f u).
Proof. unfold plan_recovery. keeps. Qed.
Lemma quiet_open_question q i : keeps quiet (open_question cx q i).
Proof. unfold open_question, _record_open_question, bind_browser_auth_question. keeps. Qed.
#[local] Hint Resolve quiet_plan_recovery quiet_open_question : keeps.
Lemma quiet_suspend q i : keeps quiet (suspend_for_browser_question cx q i).
Proof. unfold suspend_for_browser_question. keeps. Qed.
Lemma quiet_origin_trust r : keeps quiet (_apply_context_origin_trust r).
Proof. unfold _apply_context_origin_trust. keeps. Qed.
#[local] Hint Resolve quiet_suspend quiet_origin_trust : keeps.

(** ** Values: failures, and the turns a model call returns *)
Definition failed (o : RunOutcome) : Prop :=
  outcome_kind o = RunModel.OUTCOME_FAILED ∧ is_Some (LoopGuards.failure o).
Lemma failure_at_yields reason c m d : yields failed (failure_at reason c m d : M RunOutcome).
Proof.
  intros s o s'. unfold failure_at, mbind, stateM_bind, now.
  destruct (clock_now (l_world s)) as [t w]. cbn. by intros [= <- _].
Qed.
Lemma failure_at_spec reason c m d s :
  wp (failure_at reason c m d) (λ res s', quiet s s' ∧ ∀ o, res = Ok o → failed o) s.
Proof. apply wp_yields; [apply quiet_failure_at|apply failure_at_yields]. Qed.

Definition fails_or {A} (P : A → Prop) (x : A + RunOutcome) : Prop :=
  match x with inl a => P a | inr o => failed o end.
(** A turn the loop can use: tool calls or an answer, and no calls under a reserve of
    time or cost that was announced to the model. *)
Definition usable (initial : option string) (turn : ModelTurn) : Prop :=
  (turn_tool_calls turn ≠ [] ∨ _has_final_text (select_final_message turn) = true) ∧
  (initial ∈ [Some "time"; Some "cost"] → turn_tool_calls turn = []).
Definition attempted (initial : option string) (x : option (ModelTurn + RunOutcome)) : Prop :=
  match x with Some x => fails_or (usable initial) x | None => True end.

Lemma yields_failure {A} (P : A → Prop) reason c m d (k : RunOutcome → A) :
  (∀ o, failed o → P (k o)) → yields P (o ← failure_at reason c m d; mret (k o) : M A).
Proof.
  intros Hk. apply (yields_bind failed); [apply failure_at_yields|]. intros o Ho. by apply yields_ret, Hk.
Qed.
Lemma consume_yields events rd : yields (fails_or (λ _, True)) (consume cx events rd).
Proof.
  revert rd. induction events as [|e events IH]; intros rd; cbn [consume]; [by apply yields_ret|].
  destruct (negb _); [by apply yields_failure|]. do 3 (apply yields_bind_any; intros ?). cbn zeta.
  destruct (is_terminal_event e); [|apply IH]. destruct (rd_terminal rd); [by apply yields_failure|apply IH].
Qed.
Lemma read_stream_yields r a issued : yields (fails_or (λ _, True)) (read_stream cx r a issued).
Proof.
  unfold read_stream. apply yields_bind_any. intros source. destruct (filtered_stream _ _ _) as [es ended].
  apply (yields_bind (fails_or (λ _, True))); [apply consume_yields|].
  intros [rd|o] Ho; [|by apply yields_ret]. destruct ended as [[]|[]]; try apply yields_raise;
    [by apply yields_ret|by apply yields_failure].
Qed.
Lemma failed_attempt_yields initial m a r e p : yields (attempted initial) (failed_attempt cx m a r e p).
Proof.
  unfold failed_attempt. do 5 (apply yields_bind_any; intros ?). cbn zeta.
  destruct (_ && _); [by apply yields_ret|by apply yields_failure].
Qed.
Lemma completed_attempt_yields initial reserve m a r k turn stop n t rd :
  (∀ d, initial = Some d → reserve = Some d) →
  yields (attempted initial) (completed_attempt cx m a r reserve k turn stop n t rd).
Proof.
  intros Hi. unfold completed_attempt. do 5 (apply yields_bind_any; intros ?).
  destruct (bool_decide _ && _) eqn:Hr; [by apply yields_failure|].
  destruct (_ && negb _) eqn:He.
  { apply yields_bind_any. intros st. destruct (_ <? _); [by apply yields_ret|by apply yields_failure]. }
  apply yields_ret. split.
  - destruct (turn_tool_calls turn); [right|by left]. by apply negb_false_iff in He.
  - intros Hin. destruct initial as [d|]; [rewrite (Hi d eq_refl) in Hr|set_solver].
    rewrite bool_decide_true in Hr by done. by destruct (turn_tool_calls turn).
Qed.
Lemma attempt_once_yields m r initial k : yields (attempted initial) (attempt_once cx m r initial k).
Proof.
  unfold attempt_once. do 3 (apply yields_bind_any; intros ?).
  apply (yields_bind (λ reserve, ∀ d, initial = Some d → reserve = Some d)).
  { destruct initial; [by apply yields_ret|]. apply yields_bind_any. intros t. by apply yields_ret. }
  intros reserve Hreserve. do 9 (apply yields_bind_any; intros ?).
  apply (yields_bind (fails_or (λ _, True))); [apply read_stream_yields|].
  intros [rd|o] Ho; [|by apply yields_ret].
  destruct (rd_terminal rd) as [[]|]; try (by apply yields_failure);
    [by apply completed_attempt_yields|apply failed_attempt_yields].
Qed.
Lemma invoke_model_yields fuel m r initial k :
  yields (attempted initial) (_invoke_model cx fuel m r initial k).
Proof.
  induction fuel as [|fuel IH]; cbn [_invoke_model]; apply yields_bind_any; intros st;
    (destruct (_ <=? _); [by apply yields_failure|]); [by apply yields_ret|].
  apply (yields_bind (attempted initial)); [apply attempt_once_yields|].
  intros [x|] Hx; [by apply yields_ret|apply IH].
Qed.

(** ** Calm computations: like quiet ones, but the step may be updated *)
Definition calm (s s' : LoopState W) : Prop :=
  limits (l_run s') = limits (l_run s) ∧ step_count (l_run s') = step_count (l_run s) ∧
  tool_call_count (l_run s') = tool_call_count (l_run s) ∧
  conversation (l_checkpoint s') = conversation (l_checkpoint s) ∧
  pending_tool_calls (l_checkpoint s') = pending_tool_calls (l_checkpoint s).
#[local] Instance calm_pre : PreOrder calm.
Proof. split; [by intros s|]. intros a b c (?&?&?&?&?) (?&?&?&?&?). split_and!; congruence. Qed.
Lemma quiet_calm s s' : quiet s s' → calm s s'.
Proof. intros (?&?&?&?&?&?&?). by split_and!. Qed.
Lemma quiet_step s s' : quiet s s' → l_step s' = l_step s.
Proof. by intros (?&?&?&?&?). Qed.

(** A quiet prefix: go on from a state that differs in nothing a property reads. *)
Lemma wp_quiet_bind {A B} (m : M A) (f : A → M B) (Q : result B → LoopState W → Prop) s :
  keeps quiet m → (∀ a s', quiet s s' → wp (f a) Q s') → (∀ e s', quiet s s' → Q (Raise e) s') →
  wp (m ≫= f) Q s.
Proof. apply wp_keeps_bind. Qed.

(** *** The attempts of one model call *)
Lemma attempt_once_spec m r d k s :
  wp (attempt_once cx m r d k) (λ res s', calm s s' ∧
    ∀ x, res = Ok x → attempt_count (l_step s') = attempt_count (l_step s) + 1) s.
Proof.
  unfold attempt_once.
  assert (Hr : ∀ e s', quiet s s' → calm s s' ∧ ∀ x : option (ModelTurn + RunOutcome),
    Raise e = Ok x → attempt_count (l_step s') = attempt_count (l_step s) + 1).
  { intros e s' Hq. split; [by apply quiet_calm|done]. }
  apply wp_quiet_bind; [keeps| |apply Hr]. intros t s1 H1.
  apply wp_bind, wp_gets. apply wp_quiet_bind; [keeps| |intros e s' ?; apply Hr; chain].
  intros _ s2 H2. apply wp_quiet_bind; [keeps| |intros e s' ?; apply Hr; chain].
  intros reserve s3 H3.
  apply wp_quiet_bind; [keeps| |intros e s' ?; apply Hr; chain].
  intros r' s4 H4. apply wp_bind, wp_modify.
  set (s5 := s4 <| l_step := _ |>).
  assert (H5 : calm s s5 ∧ attempt_count (l_step s5) = attempt_count (l_step s) + 1).
  { assert (Hq : quiet s s4) by (chain). split.
    - etrans; [by apply quiet_calm|]. by split_and!.
    - cbn. by rewrite (quiet_step _ _ Hq). }
  eapply (wp_keeps quiet); [keeps|].
  intros res s6 H6. split; [etrans; [apply H5|by apply quiet_calm]|]. intros x _.
  rewrite (quiet_step _ _ H6). apply H5.
Qed.

Lemma invoke_model_spec fuel m r d k s :
  (Z.to_nat (m - attempt_count (l_step s)) ≤ fuel)%nat →
  wp (_invoke_model cx fuel m r d k) (λ res s', calm s s' ∧ res ≠ Ok None) s.
Proof.
  revert s. induction fuel as [|fuel IH]; intros s Hf; cbn [_invoke_model]; apply wp_bind, wp_gets.
  - rewrite (proj2 (Z.leb_le _ _)) by lia.
    apply wp_quiet_bind; [keeps|intros o s' Hq; apply wp_ret|intros e s' Hq];
      (split; [by apply quiet_calm|done]).
  - destruct (Z.leb_spec m (attempt_count (l_step s))) as [|Hlt].
    { apply wp_quiet_bind; [keeps|intros o s' Hq; apply wp_ret|intros e s' Hq];
        (split; [by apply quiet_calm|done]). }
    apply wp_bind. eapply wp_mono; [apply attempt_once_spec|].
    intros [[x|]|e] s' [Hc Hn]; [by apply wp_ret| |by split].
    specialize (Hn None eq_refl).
    eapply wp_mono; [apply IH; lia|]. intros res s2 [Hc2 Hnn]. split; [chain|done].
Qed.

(** *** The request and its compactions *)
Definition accounts (s s' : LoopState W) : Prop :=
  limits (l_run s') = limits (l_run s) ∧ step_count (l_run s') = step_count (l_run s) ∧
  tool_call_count (l_run s') = tool_call_count (l_run s).
#[local] Instance accounts_pre : PreOrder accounts.
Proof. split; [by intros s|]. intros a b c (?&?&?) (?&?&?). split_and!; congruence. Qed.
Lemma calm_accounts s s' : calm s s' → accounts s s'.
Proof. intros (?&?&?&?). by split_and!. Qed.
Lemma quiet_accounts s s' : quiet s s' → accounts s s'.
Proof. intros ?. by apply calm_accounts, quiet_calm. Qed.

Lemma quiet_set_markers : keeps quiet (set_budget_markers cx).
Proof. unfold set_budget_markers. keeps. Qed.
#[local] Hint Resolve quiet_set_markers : keeps.

Lemma build_once_spec s :
  wp (build_once cx) (λ res s', accounts s s' ∧ attempt_count (l_step s') = attempt_count (l_step s) ∧
    (res = Ok None → compactions (l_step s) < max_compactions_per_step cx ∧
       compactions (l_step s') = compactions (l_step s) + 1)) s.
Proof.
  set (Q := λ (res : result (option ModelRequest)) s', _).
  assert (HQ : ∀ res s', quiet s s' → res ≠ Ok None → Q res s').
  { intros res s' Hq Hr. split; [by apply quiet_accounts|]. split; [by rewrite (quiet_step _ _ Hq)|done]. }
  unfold build_once.
  apply wp_quiet_bind; [keeps| |intros; by apply HQ]. intros _ s1 H1.
  apply wp_quiet_bind; [keeps| |intros; apply HQ; [chain|done]]. intros _ s2 H2.
  apply wp_quiet_bind; [keeps| |intros; apply HQ; [chain|done]]. intros a s3 H3.
  apply wp_bind, wp_gets. cbn zeta.
  apply wp_quiet_bind; [keeps| |intros; apply HQ; [chain|done]]. intros _ s4 H4.
  apply wp_quiet_bind; [keeps| |intros; apply HQ; [chain|done]]. intros _ s5 H5.
  assert (H05 : quiet s s5) by (chain).
  assert (Hs3 : l_step s3 = l_step s) by (apply quiet_step; chain).
  destruct (pressure_fits _); [apply wp_ret; by apply HQ|].
  destruct (negb _ || _) eqn:Hg.
  { apply wp_quiet_bind; [keeps|intros; apply wp_raise|intros]; (apply HQ; [chain|done]). }
  apply orb_false_iff in Hg as [_ Hg]. rewrite Hs3 in Hg.
  apply wp_bind, wp_gets.
  apply wp_quiet_bind; [keeps| |intros; apply HQ; [chain|done]]. intros result s6 H6.
  assert (H06 : quiet s s6) by (chain).
  apply wp_bind, wp_modify, wp_bind, wp_modify, wp_bind, wp_gets.
  set (s7 := (s6 <| l_checkpoint := _ |>) <| l_step := _ |>).
  assert (H7 : accounts s s7 ∧ attempt_count (l_step s7) = attempt_count (l_step s) ∧
               compactions (l_step s7) = compactions (l_step s) + 1).
  { split; [apply (quiet_accounts _ _ H06)|]. cbn. by rewrite (quiet_step _ _ H06). }
  eapply (wp_keeps quiet); [keeps|]. intros res s8 H8. destruct H7 as (Ha & Hat & Hco).
  split; [etrans; [exact Ha|by apply quiet_accounts]|]. rewrite (quiet_step _ _ H8).
  split; [done|]. intros _. split; [lia|done].
Qed.

Lemma build_spec fuel s :
  (Z.to_nat (max_compactions_per_step cx - compactions (l_step s)) < fuel)%nat →
  wp (build_with_pressure cx fuel) (λ res s', accounts s s' ∧
    attempt_count (l_step s') = attempt_count (l_step s) ∧ res ≠ Ok None) s.
Proof.
  revert s. induction fuel as [|fuel IH]; intros s Hf; [lia|]. cbn [build_with_pressure].
  apply wp_bind. eapply wp_mono; [apply build_once_spec|]. intros [[r|]|e] s' (Ha & Hat & Hn).
  - apply wp_ret. by split_and!.
  - destruct (Hn eq_refl) as [Hlt Hco]. eapply wp_mono; [apply IH; lia|].
    intros res s2 (Ha2 & Hat2 & Hr). split_and!; [chain|congruence|done].
  - by split_and!.
Qed.

(** ** Adopting the results of a batch *)
Lemma evidence_call_raises ev c st e : evidence_call ev c st = Raise e → ∀ q i, e ≠ UserInputRequiredError q i.
Proof.
  unfold evidence_call. intros Hr q i ->. destruct st as [[ws counts] recorded].
  assert (Hp : ∀ v, py_int v ≠ Raise (UserInputRequiredError q i)).
  { intros [| | | |t| |]; cbn; try done. by destruct (int_text t). }
  unfold count_of in Hr.
  repeat match type of Hr with
  | context [match ?x with _ => _ end] =>
      lazymatch x with context [match _ with _ => _ end] => fail | _ => destruct x eqn:? end
  end; try done; (injection Hr as ->; by eapply Hp).
Qed.
Lemma evidence_raises ws calls e :
  apply_tool_evidence ws calls = Raise e → ∀ q i, e ≠ UserInputRequiredError q i.
Proof.
  assert (Hc : ∀ ev cs st e, evidence_calls ev cs st = Raise e → ∀ q i, e ≠ UserInputRequiredError q i).
  { intros ev cs. induction cs as [|c cs IH]; intros st e'; cbn; [done|].
    destruct (evidence_call ev c st) eqn:E; [apply IH|]. intros [= ->]. by eapply evidence_call_raises. }
  unfold apply_tool_evidence. destruct (dict_get "tool_evidence" ws) as [[]|]; try done.
  repeat case_match; try done. intros [= ->]. by eapply Hc.
Qed.

Lemma sequenced_ids recorded ambiguous rs :
  map tr_call_id (map (sequenced_result recorded ambiguous) rs) = map tr_call_id rs.
Proof.
  rewrite List.map_map. apply List.map_ext. intros r. unfold sequenced_result.
  repeat case_match; done.
Qed.
Lemma with_sequences_spec rs s :
  wp (with_event_sequences cx rs) (λ res s', quiet s s' ∧
    ∀ rs', res = Ok rs' → map tr_call_id rs' = map tr_call_id rs) s.
Proof.
  unfold with_event_sequences. destruct (forallb _ _).
  { apply wp_ret. split; [reflexivity|]. by intros rs' [= <-]. }
  apply wp_quiet_bind; [keeps| |by intros]. intros s0 s1 H1.
  apply wp_quiet_bind; [keeps| |intros; split; [chain|done]]. intros es s2 H2.
  apply wp_quiet_bind; [keeps| |intros; split; [chain|done]]. intros [recorded ambiguous] s3 H3.
  apply wp_ret. split; [chain|]. intros rs' [= <-]. apply sequenced_ids.
Qed.

(** Charging tool usage counts the batch, or leaves the count. *)
Definition counted (n : nat) (s s' : LoopState W) : Prop :=
  limits (l_run s') = limits (l_run s) ∧ step_count (l_run s') = step_count (l_run s) ∧
  (tool_call_count (l_run s') = tool_call_count (l_run s) ∨
   tool_call_count (l_run s') = tool_call_count (l_run s) + Z.of_nat n).
Lemma charge_tools_spec n s :
  let s' := (charge_tools n s).2 in
  counted n s s' ∧ l_checkpoint s' = l_checkpoint s ∧ l_step s' = l_step s.
Proof.
  unfold charge_tools, mbind, stateM_bind, now. destruct (clock_now (l_world s)) as [t w].
  pose proof (record_tools_run (l_run s) (Z.of_nat n) (l_step s) t w) as Hr. cbn.
  destruct (record_tools _ _ _ _ _) as [[e run] w']. cbn in *.
  destruct Hr as [->| ->]; (split; [|done]); split_and!; cbn; auto.
Qed.

Lemma counted_accounts n s s1 s2 : counted n s s1 → accounts s1 s2 → counted n s s2.
Proof. intros Hc (Hl & Hst & Ht). unfold counted. rewrite Hl, Hst, Ht. exact Hc. Qed.
Lemma quiet_conversation s s' : quiet s s' → conversation (l_checkpoint s') = conversation (l_checkpoint s).
Proof. by intros (_&_&_&_&?&_). Qed.
Lemma quiet_pending s s' :
  quiet s s' → pending_tool_calls (l_checkpoint s') = pending_tool_calls (l_checkpoint s).
Proof. by intros (_&_&_&_&_&?&_). Qed.

Lemma adopt_results_spec calls rs s :
  wp (adopt_results cx calls rs) (λ res s', counted (length rs) s s' ∧
    match res with
    | Ok rs' => conversation (l_checkpoint s') = (conversation (l_checkpoint s) ++ map ResultItem rs')%list ∧
                map tr_call_id rs' = map tr_call_id rs ∧ pending_tool_calls (l_checkpoint s') = []
    | Raise e => conversation (l_checkpoint s') = conversation (l_checkpoint s) ∧
                 pending_tool_calls (l_checkpoint s') = pending_tool_calls (l_checkpoint s) ∨
                 ∀ q i, e ≠ UserInputRequiredError q i
    end) s.
Proof.
  unfold adopt_results. apply wp_bind. unfold wp at 1.
  destruct (charge_tools_spec (length rs) s) as (Hc & Hcp & _).
  destruct (charge_tools (length rs) s) as [r s1]. cbn in Hc, Hcp |- *.
  destruct r as [[]|e]; [|split; [done|left; by rewrite Hcp]].
  apply wp_bind. eapply wp_mono; [apply with_sequences_spec|]. intros [rs'|e] s2 [Hq Hids].
  2: { split; [by eapply counted_accounts, quiet_accounts|left].
       by rewrite (quiet_conversation _ _ Hq), (quiet_pending _ _ Hq), Hcp. }
  specialize (Hids rs' eq_refl).
  assert (Hc2 : counted (length rs) s s2) by (by eapply counted_accounts, quiet_accounts).
  assert (Hconv : conversation (l_checkpoint s2) = conversation (l_checkpoint s)).
  { by rewrite (quiet_conversation _ _ Hq), Hcp. }
  apply wp_bind, wp_modify, wp_bind, wp_gets, wp_bind, wp_lift. cbn.
  destruct (apply_tool_evidence _ calls) as [ws|e] eqn:He.
  2: { split; [exact Hc2|right; by eapply evidence_raises]. }
  apply wp_bind, wp_modify, wp_bind, wp_modify, wp_ret. cbn. rewrite Hconv.
  split; [exact Hc2|done].
Qed.

(** ** Calls and their answers *)
Abbreviation conv s := (conversation (l_checkpoint s)) (only parsing).
Abbreviation pending s := (pending_tool_calls (l_checkpoint s)) (only parsing).
(** What was appended holds, for every call, its result; or the call is still pending. *)
Definition answered (s s' : LoopState W) : Prop :=
  ∃ added, conv s' = (conv s ++ added)%list ∧ calls_of added ≡ₚ results_of added.
Definition owing (s s' : LoopState W) : Prop :=
  ∃ added, conv s' = (conv s ++ added)%list ∧
    calls_of added ≡ₚ results_of added ++ map call_id (pending s').
Definition asks (e : exn) : Prop := ∃ q i, e = UserInputRequiredError q i.
Definition settled (s : LoopState W) (res : result (option unit)) (s' : LoopState W) : Prop :=
  match res with
  | Ok (Some _) => answered s s' ∧ pending s' = []
  | Ok None => True
  | Raise e => asks e → owing s s'
  end.

Lemma answered_quiet s s' : quiet s s' → answered s s'.
Proof. intros Hq. exists []. by rewrite (quiet_conversation _ _ Hq), app_nil_r. Qed.
Lemma answered_trans s s1 s2 : answered s s1 → answered s1 s2 → answered s s2.
Proof.
  intros (a & Hc & Ha) (b & Hb & Hp). exists (a ++ b)%list. rewrite Hb, Hc, app_assoc.
  split; [done|]. by rewrite calls_of_app, results_of_app, Ha, Hp.
Qed.
Lemma answered_owing s s1 s2 : answered s s1 → owing s1 s2 → owing s s2.
Proof.
  intros (a & Hc & Ha) (b & Hb & Hp). exists (a ++ b)%list. rewrite Hb, Hc, app_assoc.
  split; [done|]. rewrite calls_of_app, results_of_app, Ha, Hp. by rewrite app_assoc.
Qed.
Lemma owing_nothing s s' : answered s s' → pending s' = [] → owing s s'.
Proof. intros (a & Hc & Ha) Hp. exists a. rewrite Hp. cbn. by rewrite app_nil_r. Qed.
Lemma settled_quiet s res s' : quiet s s' → pending s = [] → res ≠ Ok None → settled s res s'.
Proof.
  intros Hq Hp Hr. assert (pending s' = []) by (by rewrite (quiet_pending _ _ Hq)).
  destruct res as [[u|]|e]; [by split; [apply answered_quiet|]|done|].
  intros _. by apply owing_nothing; [apply answered_quiet|].
Qed.
Lemma settled_after s s1 res s2 : answered s s1 → settled s1 res s2 → settled s res s2.
Proof.
  intros Ha. destruct res as [[u|]|e]; cbn; [|done|].
  - intros [H1 H2]. split; [by eapply answered_trans|done].
  - intros Ho He. by eapply answered_owing; [|apply Ho].
Qed.
Lemma calls_of_calls cs : calls_of (map CallItem cs) = map call_id cs.
Proof. induction cs as [|c cs IH]; [done|]. cbn. by f_equal. Qed.
Lemma results_of_calls cs : results_of (map CallItem cs) = [].
Proof. by induction cs. Qed.
Lemma calls_of_results rs : calls_of (map ResultItem rs) = [].
Proof. by induction rs. Qed.
Lemma results_of_results rs : results_of (map ResultItem rs) = map tr_call_id rs.
Proof. induction rs as [|r rs IH]; [done|]. cbn. by f_equal. Qed.
Lemma calls_of_messages ms : calls_of (map AssistantItem ms) = [].
Proof. by induction ms. Qed.
Lemma results_of_messages ms : results_of (map AssistantItem ms) = [].
Proof. by induction ms. Qed.

(** ** Browser recovery ends, within the tool budget, with its call answered *)
Definition spend (s s' : LoopState W) : Prop :=
  limits (l_run s') = limits (l_run s) ∧ step_count (l_run s') = step_count (l_run s) ∧
  tool_call_count (l_run s') ≤ Z.max (tool_call_count (l_run s)) (max_tool_calls (limits (l_run s))).
#[local] Instance spend_pre : PreOrder spend.
Proof.
  split; [intros s; split_and!; done || lia|]. intros a b c (Hl&?&?) (Hl'&?&?).
  rewrite Hl in *. split_and!; congruence || lia.
Qed.
Lemma accounts_spend s s' : accounts s s' → spend s s'.
Proof. intros (?&?&?). split_and!; done || lia. Qed.
Lemma quiet_spend s s' : quiet s s' → spend s s'.
Proof. intros ?. by apply accounts_spend, quiet_accounts. Qed.
Lemma counted_spend n s s' :
  counted n s s' → tool_call_count (l_run s) + Z.of_nat n ≤ max_tool_calls (limits (l_run s)) → spend s s'.
Proof. intros (?&?&?) ?. split_and!; done || lia. Qed.

Definition prefixed (c : ToolCallItem) : bool := py_startswith "browser-recovery:" (call_id c).
Lemma no_failures calls rs :
  Forall (λ c, tc_name c ∉ BROWSER_TOOLS) calls → all_failures cx calls rs = (∅, false).
Proof.
  unfold all_failures. intros Hc. revert rs. induction Hc as [|c cs Hc _ IH]; intros [|r rs]; try done.
  cbn [combine foldl fst snd]. unfold browser_failures at 2. rewrite bool_decide_false by done. cbn.
  replace (∅ ∪ ∅ : gset string) with (∅ : gset string) by set_solver. apply IH.
Qed.
Lemma plan_recovery_spec calls failures uncertain s :
  wp (plan_recovery cx calls failures uncertain) (λ res s', quiet s s' ∧ ∀ r, res = Ok (Some r) →
    (failures ≠ ∅ ∨ uncertain = true) ∧
    (rec_name r = "conversation.ask_user" ∨
     rec_name r = "browser.observe" ∧ existsb prefixed calls = false)) s.
Proof.
  unfold plan_recovery. destruct (bool_decide _ || _) eqn:Hn.
  - assert (Hf : failures ≠ ∅).
    { intros ->. apply orb_true_iff in Hn as [Hn%bool_decide_eq_true|Hn%bool_decide_eq_true]; set_solver. }
    apply wp_quiet_bind; [keeps| |by intros]. intros [w|] s1 H1; cbn zeta.
    + apply wp_bind, wp_gets. destruct (bool_decide (as_str _ = _)); [by apply wp_ret|].
      apply wp_quiet_bind; [keeps| |intros; split; [chain|done]]. intros _ s2 H2.
      apply wp_ret. split; [chain|]. intros r [= <-]. split; [by left|by left].
    + apply wp_ret. split; [done|]. intros r [= <-]. split; [by left|by left].
  - destruct (uncertain || _ || _) eqn:Hu; [|by apply wp_ret].
    destruct (existsb _ calls) eqn:Hp; [by apply wp_ret|]. apply wp_ret. split; [reflexivity|].
    intros r [= <-]. split; [|by right].
    apply orb_true_iff in Hu as [[->|Hu%bool_decide_eq_true]%orb_true_iff|Hu%bool_decide_eq_true];
      [by right|left; set_solver..].
Qed.

(** A queued call: one more call in the conversation, pending. *)
Lemma queue_recovery_spec r s :
  wp (queue_recovery cx r) (λ res s', accounts s s' ∧
    match res with
    | Ok (Some c) => tc_name c = rec_name r ∧ prefixed c = true ∧
        conv s' = (conv s ++ [CallItem c])%list ∧ pending s' = [c]
    | Ok None => quiet s s'
    | Raise e => quiet s s' ∨ ∃ c, conv s' = (conv s ++ [CallItem c])%list ∧ pending s' = [c]
    end) s.
Proof.
  unfold queue_recovery. destruct (negb _); [apply wp_ret; split; reflexivity|].
  apply wp_bind, wp_gets. destruct (default _ _); try (apply wp_ret; split; reflexivity).
  destruct (_ && _); [|apply wp_ret; split; reflexivity].
  apply wp_quiet_bind; [keeps| |intros; split; [by apply quiet_accounts|by left]]. intros _ s1 H1.
  apply wp_quiet_bind; [keeps| |].
  2: { intros e s2 H2. assert (quiet s s2) by chain. split; [by apply quiet_accounts|by left]. }
  intros u s2 H2. assert (H02 : quiet s s2) by chain. cbn zeta.
  set (c := {| call_id := _ |}). apply wp_bind, wp_modify, wp_bind, wp_modify.
  set (s3 := _ <| l_checkpoint := _ |>).
  assert (H3 : accounts s s3 ∧ conv s3 = (conv s ++ [CallItem c])%list ∧ pending s3 = [c]).
  { split; [apply (quiet_accounts _ _ H02)|]. cbn. by rewrite (quiet_conversation _ _ H02). }
  destruct H3 as (Ha & Hc & Hp).
  apply wp_quiet_bind; [keeps|intros _ s4 H4; apply wp_ret|intros e s4 H4];
    (split; [etrans; [exact Ha|by apply quiet_accounts]|]).
  - rewrite (quiet_conversation _ _ H4), (quiet_pending _ _ H4). by split_and!.
  - right. exists c. by rewrite (quiet_conversation _ _ H4), (quiet_pending _ _ H4).
Qed.

Context `{!ToolDispatchLaws W}.
Lemma dispatch_spec calls permit s :
  wp (dispatch calls permit) (λ res s', quiet s s' ∧
    ∀ rs, res = Ok rs → map tr_call_id rs = map call_id calls) s.
Proof.
  split; [apply quiet_dispatch|]. unfold dispatch.
  destruct (dispatch_tools _ _ _ _ _ _) as [[r fx] w] eqn:E. cbn. intros rs ->.
  by eapply dispatch_answers.
Qed.

(** How deep a recovery may still go: an owner question recovers nothing, a recovery read
    may lead to a question, any other batch to a read. *)
Definition depth_ok (fuel : nat) (calls : list ToolCallItem) : Prop :=
  (3 ≤ fuel)%nat ∨ (2 ≤ fuel)%nat ∧ existsb prefixed calls = true ∨
  (1 ≤ fuel)%nat ∧ Forall (λ c, tc_name c ∉ BROWSER_TOOLS) calls.

Lemma depth_next fuel calls failures uncertain c r :
  depth_ok (S fuel) calls → (failures, uncertain) = (∅, false) ∨ ¬ Forall (λ c, tc_name c ∉ BROWSER_TOOLS) calls →
  failures ≠ (∅ : gset string) ∨ uncertain = true →
  rec_name r = "conversation.ask_user" ∨ rec_name r = "browser.observe" ∧ existsb prefixed calls = false →
  tc_name c = rec_name r → prefixed c = true → depth_ok fuel [c].
Proof.
  intros Hd Hno Hf Hr Hname Hp. destruct Hno as [[= -> ->]|Hno]; [by destruct Hf|].
  destruct Hr as [Hr|[Hr Hx]].
  - right; right. split; [|constructor; [|done]].
    + destruct Hd as [?|[[? _]|[? ?]]]; [lia..|done].
    + rewrite Hname, Hr. unfold BROWSER_TOOLS. set_solver.
  - right; left. split; [|unfold existsb; by rewrite Hp].
    destruct Hd as [?|[[? Hy]|[? ?]]]; [lia|congruence|done].
Qed.

Lemma recover_spec fuel calls rs s :
  wp (recover_browser_failure cx fuel calls rs) (λ res s', spend s s' ∧
    (depth_ok fuel calls → res ≠ Ok None) ∧ (pending s = [] → settled s res s')) s.
Proof.
  revert calls rs s. induction fuel as [|fuel IH]; intros calls rs s; cbn [recover_browser_failure].
  { apply wp_ret. split; [reflexivity|]. split; [|done]. intros [?|[[? ?]|[? ?]]]; lia. }
  assert (HQ : ∀ res s', quiet s s' → res ≠ Ok None → spend s s' ∧
    (depth_ok (S fuel) calls → res ≠ Ok None) ∧ (pending s = [] → settled s res s')).
  { intros res s' Hq Hr. split_and!; [by apply quiet_spend|done|]. intros Hp. by apply settled_quiet. }
  destruct (negb _); [apply wp_raise; by apply HQ|].
  destruct (all_failures cx calls rs) as [failures uncertain] eqn:Hall.
  apply wp_bind, wp_gets. destruct (Z.leb_spec (max_tool_calls (limits (l_run s))) (tool_call_count (l_run s)))
    as [|Hbudget]; [apply wp_ret; by apply HQ|].
  apply wp_bind. eapply wp_mono; [apply plan_recovery_spec|]. intros [[r|]|e] s1 [H1 Hplan];
    [|apply wp_ret; by apply HQ|by apply HQ].
  destruct (Hplan r eq_refl) as [Hfail Hname].
  apply wp_bind. eapply wp_mono; [apply queue_recovery_spec|]. intros [[c|]|e] s2 [Ha2 H2].
  2: { apply wp_ret. apply HQ; [chain|done]. }
  2: { destruct H2 as [H2|(c & Hc & Hp)]; [apply HQ; [chain|done]|].
       split; [etrans; [by apply quiet_spend|by apply accounts_spend]|]. split; [done|].
       intros _ _. exists [CallItem c]. by rewrite Hc, Hp, (quiet_conversation _ _ H1). }
  destruct H2 as (Hcn & Hcp & Hc & Hp). rewrite (quiet_conversation _ _ H1) in Hc.
  assert (Hs2 : accounts s s2) by (etrans; [by apply quiet_accounts|done]).
  apply wp_bind. eapply wp_mono; [apply dispatch_spec|]. intros [rs1|e] s3 [H3 Hids].
  2: { split; [apply accounts_spend; etrans; [done|by apply quiet_accounts]|]. split; [done|].
       intros _ _. exists [CallItem c].
       by rewrite (quiet_conversation _ _ H3), (quiet_pending _ _ H3), Hc, Hp. }
  specialize (Hids rs1 eq_refl). cbn in Hids.
  assert (Hlen : length rs1 = 1%nat) by (by rewrite <- (length_map tr_call_id), Hids).
  assert (Hs3 : accounts s s3) by (etrans; [done|by apply quiet_accounts]).
  rewrite <- (quiet_conversation _ _ H3) in Hc. rewrite <- (quiet_pending _ _ H3) in Hp.
  apply wp_bind. eapply wp_mono; [apply adopt_results_spec|]. intros [rs2|e] s4 [Hcount H4].
  2: { split; [|split; [done|]].
       - etrans; [by apply accounts_spend|]. eapply counted_spend; [done|].
         destruct Hs3 as (-> & _ & ->). rewrite Hlen. lia.
       - intros _ (q & i & ->). destruct H4 as [[Hc4 Hp4]|Hne]; [|by destruct (Hne q i)].
         exists [CallItem c]. by rewrite Hc4, Hp4, Hc, Hp. }
  destruct H4 as (Hc4 & Hids4 & Hp4).
  assert (Hs4 : spend s s4).
  { etrans; [by apply accounts_spend|]. eapply counted_spend; [done|].
    destruct Hs3 as (-> & _ & ->). rewrite Hlen. lia. }
  eapply wp_mono; [apply IH|]. intros res s5 (Hs5 & Hd5 & Hset5).
  split; [by etrans|]. split.
  - intros Hd. apply Hd5. eapply depth_next; [exact Hd| |exact Hfail|exact Hname|done|done].
    destruct (decide (Forall (λ c, tc_name c ∉ BROWSER_TOOLS) calls)) as [Hno|]; [left|by right].
    by rewrite <- Hall, no_failures.
  - intros _. eapply settled_after; [|by apply Hset5]. exists (CallItem c :: map ResultItem rs2).
    rewrite Hc4, Hc, <- app_assoc. split; [done|].
    change (calls_of (CallItem c :: map ResultItem rs2)) with (call_id c :: calls_of (map ResultItem rs2)).
    change (results_of (CallItem c :: map ResultItem rs2)) with (results_of (map ResultItem rs2)).
    by rewrite calls_of_results, results_of_results, Hids4, Hids.
Qed.

(** ** How an iteration ends *)
Definition outcome_sound (s s' : LoopState W) (o : RunOutcome) : Prop :=
  match outcome_kind o with
  | OUTCOME_COMPLETED => ∃ m, final_message o = Some m ∧ _has_final_text (Some m) = true ∧
      last (conv s') = Some (AssistantItem m) ∧ answered s s'
  | RunModel.OUTCOME_FAILED => is_Some (LoopGuards.failure o)
  | OUTCOME_SUSPENDED => is_Some (suspension o) ∧ pending s' ≠ [] ∧ owing s s'
  | OUTCOME_CANCELLED => True
  | OUTCOME_FENCED => False
  end.
Definition parked (o : RunOutcome) : Prop :=
  outcome_kind o = OUTCOME_SUSPENDED ∧ is_Some (suspension o).
Lemma failed_sound s s' o : failed o → outcome_sound s s' o.
Proof. intros [Hk Hf]. unfold outcome_sound. by rewrite Hk. Qed.
Lemma parked_sound s s' o : parked o → pending s' ≠ [] → owing s s' → outcome_sound s s' o.
Proof. intros [Hk Hf] ? ?. unfold outcome_sound. by rewrite Hk. Qed.

Lemma guard_failed run ws threshold calls step ls requested t o ws' :
  guard_tool_turn run ws threshold calls step ls requested t = Ok (Some o, ws') → failed o.
Proof.
  unfold guard_tool_turn. cbn zeta.
  destruct (match ls with Some b => Ok b | None => _ end); [|done].
  match goal with |- context [match ?x with Some dimension => _ | None => _ end] =>
    destruct x as [dimension|] end.
  - destruct (_ || _); [|done]. by intros [= <- <-].
  - destruct a; [by intros [= <- <-]|].
    destruct (dict_get "identical_calls" _) as [[]|]; try (by intros [= <- <-]).
    destruct (count_calls _ _ _) as [[[] counts]|]; try done; by intros [= <- <-].
Qed.

Lemma in_uow_value {A} (body : M A) (P : A → Prop) :
  (∀ s a s', body s = (Ok a, s') → P a) → ∀ s a s', in_uow body s = (Ok a, s') → P a.
Proof.
  intros Hb s a s'. unfold in_uow. destruct (body s) as [[b|e] s1] eqn:E; [|done].
  destruct (uow_commit (l_world s1)) as [[[]|e] w]; [|done]. intros [= <- _]. by eapply Hb.
Qed.

(** *** Refusals *)
Lemma append_refusals_ids refused s rs s' :
  append_refusals cx refused s = (Ok rs, s') → map tr_call_id rs = map (λ cr, tr_call_id cr.2) refused.
Proof.
  revert s rs s'. induction refused as [|[c r] refused IH]; intros s rs s'; cbn [append_refusals].
  { by intros [= <- _]. }
  unfold mbind, stateM_bind. destruct (append cx _ _ s) as [[n|e] s1]; [|done].
  destruct (append_refusals cx refused s1) as [[rest|e] s2] eqn:E; [|done].
  intros [= <- _]. cbn. f_equal. by eapply IH.
Qed.
Lemma quiet_append_refusals refused : keeps quiet (append_refusals cx refused).
Proof. induction refused as [|[c r] refused IH]; cbn [append_refusals]; keeps; apply IH. Qed.
Lemma record_refusals_spec refused s :
  wp (_record_refusals cx refused) (λ res s', accounts s s' ∧ pending s' = pending s ∧
    l_step s' = l_step s ∧ (res = Ok tt → ∃ rs, conv s' = (conv s ++ map ResultItem rs)%list ∧
      map tr_call_id rs = map (λ cr, tr_call_id cr.2) refused)) s.
Proof.
  unfold _record_refusals. destruct refused as [|cr refused].
  { apply wp_ret. split_and!; try done. intros _. exists []. cbn. by rewrite app_nil_r. }
  set (l := cr :: refused). apply wp_bind. unfold wp at 1.
  pose proof (keeps_in_uow quiet _ (quiet_append_refusals l) s) as Hq.
  pose proof (in_uow_value (append_refusals cx l) (λ rs, map tr_call_id rs = map (λ cr, tr_call_id cr.2) l)
    (append_refusals_ids l) s) as Hv.
  destruct (in_uow _ s) as [[rs|e] s1]; cbn [fst snd] in *.
  2: { split; [by apply quiet_accounts|]. by rewrite (quiet_pending _ _ Hq), (quiet_step _ _ Hq). }
  apply wp_modify. split; [apply (quiet_accounts _ _ Hq)|]. cbn.
  rewrite (quiet_pending _ _ Hq), (quiet_step _ _ Hq), (quiet_conversation _ _ Hq).
  split_and!; try done. intros _. exists rs. split; [done|by apply (Hv rs s1)].
Qed.

(** *** Dispatch *)
Lemma recall_phase_dispatch calls s :
  wp (recall_phase (dispatch calls)) (λ res s', quiet s s' ∧
    ∀ rs, res = Ok rs → map tr_call_id rs = map call_id calls) s.
Proof.
  split; [apply quiet_recall_phase; intros; apply quiet_dispatch|].
  unfold recall_phase. destruct (dispatch_spec calls (l_permit s) s) as [_ Hv].
  by destruct (dispatch calls (l_permit s) s) as [r s'].
Qed.
Lemma calm_checkpoint_bind {A} trigger pend (k : M A) s :
  keeps quiet k → calm s ((checkpoint cx trigger pend ≫= λ _, k) s).2.
Proof. intros Hk. apply quiet_calm. apply (keeps_bind _); [keeps|by intros]. Qed.
Lemma dispatch_or_suspend_spec fitted s :
  wp (dispatch_or_suspend cx fitted) (λ res s', calm s s' ∧ match res with
    | Ok (inl rs) => quiet s s' ∧ map tr_call_id rs = map call_id fitted
    | Ok (inr o) => parked o
    | Raise _ => True
    end) s.
Proof.
  unfold dispatch_or_suspend. apply wp_catch, wp_bind. eapply wp_mono; [apply recall_phase_dispatch|].
  intros [rs|e] s1 [H1 Hv].
  { apply wp_ret. split; [by apply quiet_calm|]. by split; [|apply Hv]. }
  destruct e; try (split; [by apply quiet_calm|done]).
  - apply wp_bind, wp_modify. set (s2 := s1 <| l_checkpoint := _ |>).
    assert (Hc : calm s s2) by (etrans; [by apply quiet_calm|]; by split_and!).
    apply wp_quiet_bind; [keeps|intros _ s3 H3; apply wp_ret|intros e s3 H3];
      (split; [etrans; [exact Hc|by apply quiet_calm]|done]).
  - apply wp_quiet_bind; [keeps|intros _ s3 H3; apply wp_ret|intros e s3 H3];
      (split; [apply quiet_calm; chain|done]).
  - apply wp_quiet_bind; [keeps|intros _ s3 H3; apply wp_ret|intros e s3 H3];
      (split; [apply quiet_calm; chain|done]).
Qed.
Lemma suspend_spec q i s :
  wp (suspend_for_browser_question cx q i) (λ res s', quiet s s' ∧
    ∀ o, res = Ok o → parked o ∧ pending s ≠ []) s.
Proof.
  unfold suspend_for_browser_question. apply wp_bind, wp_get_state.
  destruct (pending_tool_calls (l_checkpoint s)) as [|c cs]; [apply wp_raise; by split|].
  destruct (dict_get "question" (tc_arguments c)) as [v|]; [|apply wp_raise; by split].
  apply wp_quiet_bind; [keeps| |by intros]. intros _ s1 H1. apply wp_bind, wp_get_state.
  destruct (_ && _); [|apply wp_ret; split; [done|by intros o [= <-]]].
  apply wp_quiet_bind; [keeps| |intros; split; [chain|done]]. intros wait s2 H2.
  apply wp_quiet_bind; [keeps| |intros; split; [chain|done]]. intros origin s3 H3.
  apply wp_ret. split; [chain|by intros o [= <-]].
Qed.

(** *** The tool calls of a turn

    [s0] is the state before the turn joined the conversation, [s] the one after. *)
Definition asked (calls : list ToolCallItem) (s0 s : LoopState W) : Prop :=
  ∃ added, conv s = (conv s0 ++ added)%list ∧ calls_of added = map call_id calls ∧ results_of added = [].
Definition settled_iteration (s0 s' : LoopState W) (res : result iteration) : Prop :=
  match res with
  | Ok Continue => answered s0 s' ∧ pending s' = []
  | Ok (Return o) => outcome_sound s0 s' o
  | Ok OutOfFuel => False
  | Raise _ => True
  end.

Lemma asked_quiet calls s0 s s' : asked calls s0 s → quiet s s' → asked calls s0 s'.
Proof. intros (a & Ha & ?) Hq. exists a. by rewrite (quiet_conversation _ _ Hq). Qed.
(** Refusals and the fitted calls still pending make up the batch. *)
Lemma refused_owing calls fitted (refusals : list (ToolCallItem * ToolResultItem)) s0 s rs :
  asked calls s0 s → (fitted ++ map fst refusals)%list = calls →
  Forall (λ cr, tr_call_id cr.2 = call_id cr.1) refusals →
  map tr_call_id rs = map (λ cr, tr_call_id cr.2) refusals →
  ∃ added, (conv s ++ map ResultItem rs)%list = (conv s0 ++ added)%list ∧
    calls_of added ≡ₚ results_of added ++ map call_id fitted.
Proof.
  intros (a & -> & Hc & Hr) Hsplit Href Hids. exists (a ++ map ResultItem rs)%list.
  rewrite app_assoc. split; [done|].
  rewrite calls_of_app, results_of_app, calls_of_results, results_of_results, Hc, Hr, Hids, app_nil_r.
  cbn [app]. rewrite <- Hsplit, map_app.
  replace (map call_id (map fst refusals)) with (map (λ cr, tr_call_id cr.2) refusals); [apply Permutation_app_comm|].
  rewrite List.map_map. clear -Href. induction Href as [|cr l Hcr _ IH]; [done|]. cbn. by rewrite Hcr, IH.
Qed.
Lemma refusals_answer run calls used t sip :
  Forall (λ cr, tr_call_id cr.2 = call_id cr.1) (_fit_tool_batch (dump_outcome cx) run calls used t sip).2.
Proof.
  unfold _fit_tool_batch. cbn [snd]. apply Forall_forall.
  intros cr (c & -> & _)%list_elem_of_fmap. done.
Qed.

Lemma iteration_raise s0 s s' e : spend s s' → spend s s' ∧ settled_iteration s0 s' (Raise e).
Proof. done. Qed.

(** What follows the adopted results. *)
Lemma after_adoption_spec s0 s (fitted : list ToolCallItem) rs (repeated : bool) :
  answered s0 s → pending s = [] →
  wp (recovered ← catch (done_ ← recover_browser_failure cx 3 fitted rs; mret (inl done_))
        (λ e, match e with
              | UserInputRequiredError q i =>
                  Some (o ← suspend_for_browser_question cx q i; mret (inr o))
              | _ => None
              end);
      match recovered with
      | inr o => mret (Return o)
      | inl None => mret OutOfFuel
      | inl (Some _) =>
          checkpoint cx "tool_call" None ≫= λ _,
          if repeated then
            o ← failure_at REPEATED_DENIAL "ToolPolicyDenied"
                  "the model repeated an identical denied action too many times" ∅;
            mret (Return o)
          else mret Continue
      end) (λ res s', spend s s' ∧ settled_iteration s0 s' res) s.
Proof.
  intros Ha Hp. apply wp_bind, wp_catch, wp_bind. eapply wp_mono; [apply recover_spec|].
  intros [[u|]|e] s1 (Hs1 & Hd & Hset).
  - apply wp_ret. destruct (Hset Hp) as [Hans Hp1].
    apply wp_quiet_bind; [keeps| |intros; apply iteration_raise; etrans; [done|by apply quiet_spend]].
    intros _ s2 H2. assert (Hs2 : spend s s2) by (etrans; [done|by apply quiet_spend]). destruct repeated.
    + apply wp_bind. eapply wp_mono; [apply failure_at_spec|]. intros [o|e] s3 [H3 Ho];
        [apply wp_ret|]; (split; [etrans; [done|by apply quiet_spend]|]); [|done].
      by apply failed_sound, Ho.
    + apply wp_ret. split; [done|]. split; [|by rewrite (quiet_pending _ _ H2)].
      eapply answered_trans; [exact Ha|]. eapply answered_trans; [exact Hans|by apply answered_quiet].
  - destruct (Hd (or_introl (le_n 3)) eq_refl).
  - destruct e; try (apply iteration_raise; exact Hs1).
    apply wp_bind. eapply wp_mono; [apply suspend_spec|]. intros [o|e] s2 [H2 Ho];
      [|apply iteration_raise; etrans; [done|by apply quiet_spend]].
    apply wp_ret, wp_ret. split; [etrans; [done|by apply quiet_spend]|].
    destruct (Ho o eq_refl) as [Hpark Hne]. apply parked_sound; [done|by rewrite (quiet_pending _ _ H2)|].
    eapply answered_owing; [exact Ha|]. destruct (Hset Hp) as (added & Hc & Hperm); [by eexists _, _|].
    exists added. by rewrite (quiet_conversation _ _ H2), (quiet_pending _ _ H2).
Qed.

Lemma run_batch_spec s0 s fitted :
  fitted ≠ [] → pending s = fitted → owing s0 s →
  tool_call_count (l_run s) + Z.of_nat (length fitted) ≤ max_tool_calls (limits (l_run s)) →
  wp (run_batch cx fitted) (λ res s', spend s s' ∧ settled_iteration s0 s' res) s.
Proof.
  intros Hne Hp Howe Hbudget. unfold run_batch.
  assert (HR : ∀ e s', quiet s s' → spend s s' ∧ settled_iteration s0 s' (Raise e)).
  { intros. by apply iteration_raise, quiet_spend. }
  apply wp_quiet_bind; [keeps| |intros; by apply HR]. intros _ s1 H1.
  apply wp_quiet_bind; [keeps| |intros; apply HR; chain]. intros _ s2 H2.
  apply wp_bind, wp_get_state.
  apply wp_quiet_bind; [keeps| |intros; apply HR; chain]. intros _ s3 H3.
  assert (H03 : quiet s s3) by chain.
  assert (Howe' : ∀ s', calm s3 s' → owing s0 s' ∧ pending s' = fitted).
  { intros s' (_&_&_&Hc&Hpp). destruct Howe as (added & Hadd & Hperm).
    rewrite (quiet_pending _ _ H03), Hp in Hpp. split; [|done]. exists added.
    by rewrite Hc, Hpp, (quiet_conversation _ _ H03), <- Hp. }
  apply wp_bind. eapply wp_mono; [apply dispatch_or_suspend_spec|]. intros [[rs|o]|e] s4 [H4 Hr4].
  2: { apply wp_ret. split; [etrans; [by apply quiet_spend|by apply accounts_spend, calm_accounts]|].
       destruct (Howe' s4 H4) as [? Hp4]. apply parked_sound; [done|by rewrite Hp4|done]. }
  2: { apply iteration_raise. etrans; [by apply quiet_spend|by apply accounts_spend, calm_accounts]. }
  destruct Hr4 as [Hq4 Hids]. destruct (Howe' s4 H4) as [(added & Hadd & Hperm) Hp4].
  assert (H04 : quiet s s4) by chain.
  assert (Hlen : length rs = length fitted) by (by rewrite <- (length_map tr_call_id), Hids, length_map).
  apply wp_bind, wp_modify. set (s5 := s4 <| l_step := _ |>).
  assert (H5 : accounts s s5 ∧ conv s5 = conv s4) by (split; [apply (quiet_accounts _ _ H04)|done]).
  destruct H5 as [Ha5 Hc5]. clearbody s5.
  assert (Hspend : ∀ s', counted (length rs) s5 s' → spend s s').
  { intros s' Hc. etrans; [by apply accounts_spend|]. eapply counted_spend; [done|].
    destruct Ha5 as (-> & _ & ->). lia. }
  apply wp_bind. eapply wp_mono; [apply adopt_results_spec|]. intros [rs'|e] s6 [Hcount H6];
    [|by apply iteration_raise, Hspend].
  destruct H6 as (Hc6 & Hids6 & Hp6).
  assert (Hans : answered s0 s6).
  { exists (added ++ map ResultItem rs')%list. rewrite Hc6, Hc5, Hadd, app_assoc. split; [done|].
    rewrite calls_of_app, results_of_app, calls_of_results, results_of_results, app_nil_r, Hids6, Hids, Hperm.
    by rewrite Hp4. }
  apply wp_quiet_bind; [keeps| |intros; apply iteration_raise; etrans; [by apply Hspend|by apply quiet_spend]].
  intros repeated s7 H7.
  eapply wp_mono; [apply (after_adoption_spec s0)|].
  - eapply answered_trans; [exact Hans|by apply answered_quiet].
  - by rewrite (quiet_pending _ _ H7).
  - intros res s8 [Hs8 Hset]. split; [|done]. etrans; [by apply Hspend|]. etrans; [by apply quiet_spend|done].
Qed.

Lemma run_tools_spec turn ls s0 s :
  asked (turn_tool_calls turn) s0 s →
  wp (run_tools cx turn ls) (λ res s', spend s s' ∧ settled_iteration s0 s' res) s.
Proof.
  intros Hasked. unfold run_tools.
  assert (HR : ∀ e s', quiet s s' → spend s s' ∧ settled_iteration s0 s' (Raise e)).
  { intros. by apply iteration_raise, quiet_spend. }
  apply wp_bind, wp_get_state.
  apply wp_quiet_bind; [keeps| |intros; by apply HR]. intros t s1 H1.
  apply wp_bind, wp_lift.
  destruct (guard_tool_turn _ _ _ _ _ _ _ _) as [[g ws]|e] eqn:Hg; [|by apply HR].
  apply wp_quiet_bind; [keeps| |intros; apply HR; chain]. intros _ s2 H2. cbn [fst].
  assert (H02 : quiet s s2) by chain.
  destruct g as [o|].
  { apply wp_ret. split; [by apply quiet_spend|]. by apply failed_sound, (guard_failed _ _ _ _ _ _ _ _ _ _ Hg). }
  apply wp_quiet_bind; [keeps| |intros; apply HR; chain]. intros t' s3 H3.
  apply wp_bind, wp_gets.
  destruct (_fit_tool_batch _ _ _ _ _ _) as [fitted refusals] eqn:Hfit.
  pose proof (fit_split (dump_outcome cx) (l_run s3) (turn_tool_calls turn) None (Some t') true) as Hsplit.
  pose proof (refusals_answer (l_run s3) (turn_tool_calls turn) None (Some t') true) as Href.
  rewrite Hfit in Hsplit, Href. destruct Hsplit as [Hsplit Hlen]. cbn [snd default] in Href, Hlen.
  assert (H03 : quiet s s3) by chain.
  apply wp_bind. eapply wp_mono; [apply record_refusals_spec|]. intros res s4 (Ha4 & Hp4 & Hst4 & Hc4).
  assert (Ha04 : accounts s s4) by (etrans; [by apply quiet_accounts|done]).
  destruct res as [[]|e]; [|by apply iteration_raise, accounts_spend].
  destruct (Hc4 eq_refl) as (rs & Hconv4 & Hids4).
  destruct (refused_owing (turn_tool_calls turn) fitted refusals s0 s3 rs (asked_quiet _ _ _ _ Hasked H03)
    Hsplit Href Hids4) as (added & Hadded & Howe).
  rewrite <- Hconv4 in Hadded. apply wp_bind, wp_modify.
  set (s5 := s4 <| l_checkpoint := _ |>).
  assert (H5 : accounts s s5 ∧ owing s0 s5 ∧ pending s5 = fitted) by (split_and!; [done|by exists added|done]).
  destruct H5 as (Ha5 & Ho5 & Hp5). clearbody s5.
  destruct (decide (fitted = [])) as [->|Hne].
  { apply wp_quiet_bind; [keeps|intros _ s6 H6; apply wp_ret|
      intros e s6 H6; apply iteration_raise; etrans; [by apply accounts_spend|by apply quiet_spend]].
    split; [etrans; [by apply accounts_spend|by apply quiet_spend]|].
    split; [|by rewrite (quiet_pending _ _ H6)]. destruct Ho5 as (a & Hc5 & Hperm). exists a.
    rewrite (quiet_conversation _ _ H6). split; [done|]. by rewrite Hperm, Hp5, app_nil_r. }
  assert (Hrun : wp (run_batch cx fitted) (λ res s', spend s5 s' ∧ settled_iteration s0 s' res) s5).
  { apply run_batch_spec; [done..|]. destruct Ha4 as (Hl4 & _ & Ht4), Ha5 as (Hl5 & _ & Ht5), Ha04 as (Hl04 & _ & Ht04).
    destruct fitted; [done|]. cbn [length] in *. rewrite Hl5, Ht5, <- Hl04, <- Ht04, Hl4, Ht4. lia. }
  destruct fitted as [|c cs]; [done|].
  eapply wp_mono; [exact Hrun|]. intros res s6 [Hs6 Hset]. split; [|done].
  etrans; [by apply accounts_spend|done].
Qed.

(** *** The reply *)
Lemma with_files_text m files :
  _has_final_text (Some m) = true → _has_final_text (Some (with_files m files)) = true.
Proof. cbn. rewrite existsb_app. by intros ->. Qed.
Lemma complete_reply_spec position m s :
  wp (complete_reply cx position m) (λ res s', accounts s s' ∧ (∀ reply, res = Ok reply →
    (_has_final_text (Some m) = true → _has_final_text (Some reply) = true) ∧
    conv s' = <[position := AssistantItem reply]> (conv s))) s.
Proof.
  unfold complete_reply. apply wp_bind, wp_get_state, wp_bind. unfold wp at 1.
  match goal with |- context [in_uow ?b s] =>
    pose proof (keeps_in_uow quiet b ltac:(keeps) s) as Hq;
    assert (Hv : ∀ s a s', in_uow b s = (Ok a, s') →
      _has_final_text (Some m) = true → _has_final_text (Some a) = true)
  end.
  { apply (in_uow_value _ (λ a, _has_final_text (Some m) = true → _has_final_text (Some a) = true)).
    intros s1 a s2. unfold mbind, stateM_bind.
    destruct (world _ s1) as [[artifacts|e] s3]; [|done]. destruct (now s3) as [[t|e] s4]; [|done].
    destruct (reply_attachments artifacts t) as [|x xs].
    - cbn. destruct (append cx _ _ s4) as [[n|e] s5]; [|done]. by intros [= <- _].
    - destruct (world _ s4) as [[retained|e] s5]; [|done]. cbn [mret stateM_ret].
      destruct (append cx _ _ s5) as [[n|e] s6]; [|done]. intros [= <- _]. apply with_files_text. }
  destruct (in_uow _ s) as [[reply|e] s1] eqn:E; cbn [fst snd] in *.
  2: { split; [by apply quiet_accounts|done]. }
  apply wp_bind, wp_modify, wp_ret. split; [apply (quiet_accounts _ _ Hq)|].
  intros r [= <-]. split; [by eapply Hv|]. cbn. by rewrite (quiet_conversation _ _ Hq).
Qed.

(** *** A turn *)
Lemma reply_last (base : list ConversationItem) ms m reply :
  last ms = Some m →
  ∃ added, <[(length (base ++ map AssistantItem ms) - 1)%nat := AssistantItem reply]>
      (base ++ map AssistantItem ms) = (base ++ added)%list ∧
    last added = Some (AssistantItem reply) ∧ calls_of added = [] ∧ results_of added = [].
Proof.
  intros (l & ->)%last_Some. exists (map AssistantItem l ++ [AssistantItem reply])%list.
  rewrite map_app, app_assoc, length_app. cbn [map length].
  replace (length (base ++ map AssistantItem l) + 1 - 1)%nat
    with (length (base ++ map AssistantItem l) + 0)%nat by lia.
  rewrite insert_app_r. cbn. rewrite app_assoc. split; [done|].
  rewrite last_snoc, calls_of_app, results_of_app, calls_of_messages, results_of_messages. done.
Qed.
Lemma follow_turn_spec turn ls s :
  wp (follow_turn cx turn ls) (λ res s', spend s s' ∧ settled_iteration s s' res) s.
Proof.
  unfold follow_turn. case_bool_decide; [by apply wp_ret|].
  apply wp_quiet_bind; [keeps| |intros; by apply iteration_raise, quiet_spend]. intros _ s1 H1.
  apply wp_quiet_bind; [keeps| |intros; apply iteration_raise, quiet_spend; chain]. intros _ s2 H2.
  assert (H02 : quiet s s2) by chain.
  apply wp_bind, wp_modify, wp_bind, wp_gets, wp_bind, wp_modify. cbn beta.
  set (s3 := (s2 <| l_checkpoint := _ |>) <| l_checkpoint := _ |>).
  assert (H3 : accounts s s3 ∧ conv s3 = ((conv s ++ map AssistantItem (assistant_messages turn)) ++
      map CallItem (turn_tool_calls turn))%list).
  { split; [apply (quiet_accounts _ _ H02)|]. cbn. by rewrite (quiet_conversation _ _ H02). }
  set (position := length _). assert (Hpos : position =
    length (conv s ++ map AssistantItem (assistant_messages turn))).
  { unfold position. cbn. by rewrite (quiet_conversation _ _ H02). }
  clearbody position s3. destruct H3 as [Ha3 Hc3].
  apply wp_quiet_bind; [keeps| |intros; apply iteration_raise; etrans; [by apply accounts_spend|by apply quiet_spend]].
  intros _ s4 H4. rewrite <- (quiet_conversation _ _ H4) in Hc3.
  assert (Ha4 : accounts s s4) by (etrans; [done|by apply quiet_accounts]).
  assert (Hempty : wp (o ← failure_at EMPTY_MODEL_TURN "EmptyModelTurn"
     "the model produced neither a message nor tool calls" ∅; mret (Return o))
     (λ res s', spend s s' ∧ settled_iteration s s' res) s4).
  { apply wp_bind. eapply wp_mono; [apply failure_at_spec|]. intros [o|e] s5 [H5 Ho]; [apply wp_ret|];
      (split; [etrans; [by apply accounts_spend|by apply quiet_spend]|]); [|done].
    by apply failed_sound, Ho. }
  destruct (turn_tool_calls turn) as [|c cs] eqn:Hcalls.
  - destruct (select_final_message turn) as [m|] eqn:Hm; [|exact Hempty].
    destruct (_has_final_text (Some m)) eqn:Ht; [|exact Hempty].
    apply wp_bind. eapply wp_mono; [apply complete_reply_spec|]. intros [reply|e] s5 [Ha5 Hr5].
    2: { apply iteration_raise. apply accounts_spend. by etrans. }
    destruct (Hr5 reply eq_refl) as [Htext Hc5]. apply wp_ret.
    split; [apply accounts_spend; by etrans|]. cbn [settled_iteration].
    cbn [map] in Hc3. rewrite app_nil_r in Hc3. rewrite Hc3, Hpos in Hc5.
    destruct (reply_last (conv s) (assistant_messages turn) m reply Hm) as (added & Hadd & Hlast & Hca & Hra).
    rewrite Hadd in Hc5. unfold outcome_sound. cbn. exists reply. split; [done|]. split; [by apply Htext|].
    rewrite Hc5. split; [by rewrite last_app, Hlast|]. exists added. by rewrite Hca, Hra.
  - eapply wp_mono; [apply (run_tools_spec turn ls s)|].
    + exists (map AssistantItem (assistant_messages turn) ++ map CallItem (turn_tool_calls turn))%list.
      rewrite Hcalls, Hc3, app_assoc. split; [done|].
      by rewrite calls_of_app, results_of_app, calls_of_messages, results_of_messages, calls_of_calls,
        results_of_calls.
    + intros res s5 [Hs5 Hset]. split; [|done]. etrans; [by apply accounts_spend|done].
Qed.

(** *** An iteration *)
Lemma check_step run t : _check_before_operation run STEP t = Ok tt → step_count run < max_steps (limits run).
Proof.
  unfold _check_before_operation. intros Hc.
  apply raise_if_ok in Hc as [_ Hc]. apply raise_if_ok in Hc as [_ Hc]. apply raise_if_ok in Hc as [Hc _].
  rewrite bool_decide_true in Hc by done. cbn in Hc. by apply Z.leb_gt in Hc.
Qed.
(** At most one step more, and only below the step limit. *)
Definition stepped (s s' : LoopState W) : Prop :=
  limits (l_run s') = limits (l_run s) ∧
  (step_count (l_run s') = step_count (l_run s) ∨
   step_count (l_run s') = step_count (l_run s) + 1 ∧
   step_count (l_run s) < max_steps (limits (l_run s))) ∧
  tool_call_count (l_run s') ≤ Z.max (tool_call_count (l_run s)) (max_tool_calls (limits (l_run s))).
Lemma quiet_stepped s s' : quiet s s' → stepped s s'.
Proof. intros (?&?&?&?). split_and!; [done|by left|lia]. Qed.
Lemma stepped_spend s s1 s2 : stepped s s1 → spend s1 s2 → stepped s s2.
Proof.
  intros (Hl&Hst&?) (Hl'&Hst'&?). rewrite Hl in *. split_and!; [congruence|by rewrite Hst'|lia].
Qed.

Lemma begin_step_spec s :
  wp (begin_step cx) (λ res s', stepped s s' ∧ ∀ reserve, res = Ok reserve →
    step_count (l_run s') = step_count (l_run s) + 1 ∧ compactions (l_step s') = 0 ∧
    attempt_count (l_step s') = 0) s.
Proof.
  unfold begin_step.
  assert (HR : ∀ e s', quiet s s' → stepped s s' ∧ ∀ reserve : option string, Raise e = Ok reserve →
    step_count (l_run s') = step_count (l_run s) + 1 ∧ compactions (l_step s') = 0 ∧
    attempt_count (l_step s') = 0).
  { intros. split; [by apply quiet_stepped|done]. }
  apply wp_quiet_bind; [keeps| |intros; by apply HR]. intros _ s1 H1. apply wp_bind, wp_get_state.
  apply wp_quiet_bind; [keeps| |intros; apply HR; chain]. intros reserve s2 H2.
  apply wp_quiet_bind; [keeps| |intros; apply HR; chain]. intros t s3 H3.
  apply wp_bind, wp_lift.
  destruct (_check_before_operation (l_run s1) STEP t) as [[]|e] eqn:Hcheck; [|apply HR; chain].
  apply check_step in Hcheck. apply wp_bind, wp_modify.
  set (s4 := s3 <| l_run := _ |>).
  assert (H4 : stepped s s4 ∧ step_count (l_run s4) = step_count (l_run s) + 1).
  { assert (H03 : quiet s s3) by chain. destruct H03 as (Hl & Hst & Ht & _), H1 as (Hl1 & Hst1 & _).
    split; [split_and!; cbn; [done|right; split; [lia|congruence]|lia]|cbn; lia]. }
  destruct H4 as [Hs4 Hc4]. clearbody s4.
  assert (HR4 : ∀ e s', accounts s4 s' → stepped s s' ∧ ∀ reserve : option string, Raise e = Ok reserve →
    step_count (l_run s') = step_count (l_run s) + 1 ∧ compactions (l_step s') = 0 ∧
    attempt_count (l_step s') = 0).
  { intros e s' Ha. split; [|done]. eapply stepped_spend; [done|by apply accounts_spend]. }
  apply wp_quiet_bind; [keeps| |intros; by apply HR4, quiet_accounts]. intros t' s5 H5.
  apply wp_bind, wp_modify. set (s6 := s5 <| l_run := _ |>).
  assert (H6 : accounts s4 s6) by apply (quiet_accounts _ _ H5). clearbody s6.
  apply wp_bind, wp_gets.
  apply wp_quiet_bind; [keeps| |intros; apply HR4; etrans; [done|by apply quiet_accounts]]. intros _ s7 H7.
  apply wp_quiet_bind; [keeps| |intros; apply HR4; etrans; [done|apply quiet_accounts; chain]]. intros t7 s8 H8.
  apply wp_bind, wp_modify, wp_ret.
  assert (Ha8 : accounts s4 s8) by (etrans; [done|apply quiet_accounts; chain]).
  split; [eapply stepped_spend; [exact Hs4|apply (accounts_spend _ _ Ha8)]|].
  intros r _. cbn. destruct Ha8 as (_ & -> & _). by split_and!.
Qed.

Lemma loop_body_spec s :
  wp (loop_body cx) (λ res s', stepped s s' ∧ res ≠ Ok OutOfFuel ∧
    (res = Ok Continue → step_count (l_run s') = step_count (l_run s) + 1) ∧
    (∀ o, res = Ok (Return o) → ∃ mid, outcome_sound mid s' o)) s.
Proof.
  unfold loop_body. apply wp_bind. eapply wp_mono; [apply begin_step_spec|]. intros [reserve|e] s1 [Hs1 Hb];
    [|by split_and!].
  destruct (Hb reserve eq_refl) as (Hc1 & Hcomp & Hatt).
  assert (HR : ∀ e s', accounts s1 s' → stepped s s' ∧ (Raise e : result iteration) ≠ Ok OutOfFuel ∧
    ((Raise e : result iteration) = Ok Continue → step_count (l_run s') = step_count (l_run s) + 1) ∧
    (∀ o, Raise e = Ok (Return o) → ∃ mid, outcome_sound mid s' o)).
  { intros e s' Ha. split; [|done]. eapply stepped_spend; [done|by apply accounts_spend]. }
  apply wp_bind. eapply wp_mono; [apply build_spec; rewrite Hcomp; lia|].
  intros [[r|]|e] s2 (Ha2 & Hatt2 & Hn2); [|done|by apply HR].
  apply wp_quiet_bind; [keeps| |intros; apply HR; etrans; [done|by apply quiet_accounts]]. intros _ s3 H3.
  assert (Ha3 : accounts s1 s3) by (etrans; [done|by apply quiet_accounts]).
  apply wp_bind, wp_gets, wp_bind, wp_lift.
  destruct (_loop_synthesis_needed _ _) as [ls|e]; [|by apply HR]. cbn zeta.
  apply wp_bind. eapply wp_mono.
  { apply wp_conj; [apply invoke_model_spec; rewrite (quiet_step _ _ H3), Hatt2, Hatt; lia|].
    apply wp_value, invoke_model_yields. }
  intros [[[turn|o]|]|e] s4 [[Hcalm4 Hn4] Hy4]; [| |done|].
  2: { apply wp_ret. assert (Ha4 : accounts s1 s4) by (etrans; [done|by apply calm_accounts]).
       split; [eapply stepped_spend; [done|by apply accounts_spend]|]. split; [done|]. split; [done|].
       intros o' [= <-]. exists s4. apply failed_sound, (Hy4 _ eq_refl). }
  2: { apply HR. etrans; [done|by apply calm_accounts]. }
  assert (Ha4 : accounts s1 s4) by (etrans; [done|by apply calm_accounts]).
  eapply wp_mono; [apply follow_turn_spec|]. intros res s5 [Hs5 Hset].
  split; [eapply stepped_spend; [done|]; etrans; [by apply accounts_spend|done]|].
  destruct res as [[|o|]|e]; [|split_and!; try done|done|by split_and!].
  - split; [done|]. split; [|done]. intros _. destruct Ha4 as (_ & Hst4 & _), Hs5 as (_ & Hst5 & _). lia.
  - intros o' [= <-]. by exists s4.
Qed.

(** ** The loop *)
Lemma run_loop_spec fuel s :
  wp (run_loop cx fuel) (λ res s',
    limits (l_run s') = limits (l_run s) ∧
    step_count (l_run s') ≤ Z.max (step_count (l_run s)) (max_steps (limits (l_run s))) ∧
    tool_call_count (l_run s') ≤ Z.max (tool_call_count (l_run s)) (max_tool_calls (limits (l_run s))) ∧
    ((Z.to_nat (max_steps (limits (l_run s)) - step_count (l_run s)) < fuel)%nat → res ≠ Ok None) ∧
    (∀ o, res = Ok (Some o) → ∃ mid, outcome_sound mid s' o)) s.
Proof.
  revert s. induction fuel as [|fuel IH]; intros s; cbn [run_loop].
  { apply wp_ret. split_and!; try done; try lia. }
  apply wp_bind. eapply wp_mono; [apply loop_body_spec|].
  intros res s1 ((Hl & Hst & Ht) & Hfuel & Hcont & Hret).
  assert (Hst' : step_count (l_run s1) ≤ Z.max (step_count (l_run s)) (max_steps (limits (l_run s)))) by lia.
  destruct res as [[|o|]|e]; [|apply wp_ret; split_and!; try done|done|by split_and!].
  - specialize (Hcont eq_refl). eapply wp_mono; [apply IH|].
    intros res s2 (Hl2 & Hst2 & Ht2 & Hn2 & Ho2). rewrite Hl in *.
    split_and!; [congruence|lia|lia| |done]. intros Hf. apply Hn2. lia.
  - intros o' [= <-]. by apply Hret.
Qed.

(** C11: The run loop ends. Whatever the model answers, the tools return, the clock reads
    and any port raises, a run whose steps are counted as the budget counts them leaves
    the loop - with an outcome or an exception - within one iteration per step left of
    its limit plus one; compactions within a step, attempts within a call and browser
    recoveries after a batch end too. *)
Theorem run_loop_terminates fuel s :
  (Z.to_nat (max_steps (limits (l_run s)) - step_count (l_run s)) < fuel)%nat →
  (run_loop cx fuel s).1 ≠ Ok None.
Proof. apply (run_loop_spec fuel s). Qed.

(** C20: The loop stays within its budget. However it ends, it has counted no step beyond
    the step limit and no tool call beyond the tool-call limit, and it changed neither
    limit; a run already past a limit gains nothing. *)
Theorem run_loop_within_budget fuel s :
  let s' := (run_loop cx fuel s).2 in
  limits (l_run s') = limits (l_run s) ∧
  step_count (l_run s') ≤ Z.max (step_count (l_run s)) (max_steps (limits (l_run s))) ∧
  tool_call_count (l_run s') ≤ Z.max (tool_call_count (l_run s)) (max_tool_calls (limits (l_run s))).
Proof. by destruct (run_loop_spec fuel s) as (?&?&?&_). Qed.

(** C28: Every outcome is one its caller can act on. A completed run has an answer with
    text, and it is the last item of the conversation. A suspended run says what it waits
    for and has calls pending, and its conversation ends in a stretch in which exactly
    these calls lack their result. A failed run carries its failure. And the loop never
    ends a run as fenced. *)
Theorem run_outcome_sound fuel s o s' :
  run_loop cx fuel s = (Ok (Some o), s') →
  match outcome_kind o with
  | OUTCOME_COMPLETED => ∃ m, final_message o = Some m ∧ _has_final_text (Some m) = true ∧
      last (conv s') = Some (AssistantItem m)
  | RunModel.OUTCOME_FAILED => is_Some (LoopGuards.failure o)
  | OUTCOME_SUSPENDED => is_Some (suspension o) ∧ pending s' ≠ [] ∧
      ∃ before since, conv s' = (before ++ since)%list ∧
        calls_of since ≡ₚ results_of since ++ map call_id (pending s')
  | OUTCOME_CANCELLED => True
  | OUTCOME_FENCED => False
  end.
Proof.
  intros Hr. destruct (run_loop_spec fuel s) as (_&_&_&_&Ho). rewrite Hr in Ho.
  destruct (Ho o eq_refl) as [mid Hs]. unfold outcome_sound in Hs.
  destruct (outcome_kind o); [|done|done| |done].
  - destruct Hs as (m & ? & ? & ? & _). by exists m.
  - destruct Hs as (? & ? & since & ? & ?). split; [done|]. split; [done|]. by exists (conv mid), since.
Qed.

(** C14: A turn after which the loop goes on has answered its calls: what it appended to
    the conversation holds exactly one result for every tool call, refused calls
    included, whatever was dispatched, refused for the budget or recovered in the
    browser, and no call is left pending. *)
Theorem turn_answers_calls turn loop_synthesis s s' :
  follow_turn cx turn loop_synthesis s = (Ok Continue, s') →
  pending s' = [] ∧
  ∃ added, conv s' = (conv s ++ added)%list ∧ calls_of added ≡ₚ results_of added.
Proof.
  intros Hf. destruct (follow_turn_spec turn loop_synthesis s) as [_ Hs]. rewrite Hf in Hs.
  by destruct Hs.
Qed.

(** A model call gives the loop a turn it can use or an outcome that fails the run: a
    returned turn has tool calls or an answer with text, never tool calls when time or
    cost was reserved for the answer, and the attempts end within their limit. *)
Theorem model_turn_usable fuel maximum r initial retain s res s' :
  (Z.to_nat (maximum - attempt_count (l_step s)) ≤ fuel)%nat →
  _invoke_model cx fuel maximum r initial retain s = (Ok res, s') →
  ∃ x, res = Some x ∧
  match x with
  | inl turn => (turn_tool_calls turn ≠ [] ∨ _has_final_text (select_final_message turn) = true) ∧
      (initial ∈ [Some "time"; Some "cost"] → turn_tool_calls turn = [])
  | inr o => outcome_kind o = RunModel.OUTCOME_FAILED ∧ is_Some (LoopGuards.failure o)
  end.
Proof.
  intros Hf Hr. pose proof (invoke_model_spec fuel maximum r initial retain s Hf) as [_ Hn].
  pose proof (invoke_model_yields fuel maximum r initial retain s res s' Hr) as Hy. rewrite Hr in Hn.
  destruct res as [x|]; [|done]. exists x. split; [done|]. by destruct x.
Qed.
End spec.
