(* ===== verification/LoopWorld.v ===== *)
(** * A scripted world for the run loop

    A clock that ticks, ids that count, a model that plays a script and tools that echo,
    over the checkpoint chain and the run repository of their own files: the ports of the
    run loop as executable functions, and the properties at work on a two-step run. *)
From S2P Require Import Prelude StateLogic PyDecimal ToolInvocations EventModel RunModel RunSpec RunStore Sessions Budgets PolicyModel Messages ModelStream ResponseText Checkpoints Compaction LoopGuards Artifacts LoopPorts Recall RunLoop RunLoopSpec.

Record World := {
  w_clock : Z;
  w_ids : N;
  w_script : list (list ModelEvent);
  w_log : list NewEvent;
  w_store : Checkpoints.store;
  w_tier : tier (R:=RunStore.t);
}.
#[global] Instance world_eta : Eta World := λ w,
  {| w_clock := w_clock w; w_ids := w_ids w; w_script := w_script w; w_log := w_log w;
     w_store := w_store w; w_tier := w_tier w |}.

(** The ledger and the checkpoint writer of a component of the world. *)
#[export] Instance world_ledger : BudgetLedger World := {|
  record_model run x step a p m v stop err t w :=
    let '(r, run', tier) := record_model (BudgetLedger:=unit_of_work_ledger commits None)
                              run x step a p m v stop err t (w_tier w) in
    (r, run', w <| w_tier := tier |>);
  record_tools run n step t w :=
    let '(r, run', tier) := record_tools (BudgetLedger:=unit_of_work_ledger commits None)
                              run n step t (w_tier w) in
    (r, run', w <| w_tier := tier |>);
|}.
#[export] Instance world_ledger_laws : BudgetLedgerLaws World.
Proof.
  pose proof (unit_of_work_ledger_laws commits None) as [Hm Ht]. split.
  - intros. cbn [record_model world_ledger].
    specialize (Hm run x step a p m v stop err t (w_tier w)). by destruct (record_model _ _ _ _ _ _ _ _ _ _ _) as [[? ?] ?].
  - intros. cbn [record_tools world_ledger].
    specialize (Ht run n step t (w_tier w)). by destruct (record_tools _ _ _ _ _) as [[? ?] ?].
Qed.
#[export] Instance world_writer : CheckpointWriter World := {|
  write_checkpoint cx run trigger pending leased t cp w :=
    let '(r, cp', s) := write_checkpoint (CheckpointWriter:=store_writer next_sequence always_commits)
                          cx run trigger pending leased t cp (w_store w) in
    (r, cp', w <| w_store := s |>);
|}.
#[export] Instance world_writer_laws : CheckpointWriterLaws World.
Proof.
  pose proof (store_writer_laws next_sequence always_commits) as [Hw]. split. intros.
  cbn [write_checkpoint world_writer]. specialize (Hw cx run trigger pending leased now cp (w_store w)).
  by destruct (write_checkpoint _ _ _ _ _ _ _ _) as [[? ?] ?].
Qed.

Definition echo (c : ToolCallItem) : ToolResultItem :=
  {| tr_call_id := call_id c; content := [TextPart (raw_arguments c)]; context_content := None;
     memory_recall := None; is_error := false; tr_trust := EXTERNAL_UNTRUSTED;
     source_event_sequence := None |}.
Definition envelope (i : nat) (e : NewEvent) : EventEnvelope :=
  {| env_id := Z.of_nat i; env_sequence := Z.of_nat i + 1; env_event := e; env_created_at := 0 |}.
Definition roomy : ContextPressure :=
  {| pressure_fits := true; compactable := true; pressure_reason := "fits"; total_tokens := 10;
     prefix_tokens := 1; body_tokens := 9; reserve_output_tokens := 0; capacity_tokens := 100;
     history_cut := 0; history_budget_tokens := 50; yield_steps := [] |}.
Definition request_for (cp : RunCheckpoint) : ModelRequest :=
  {| rq_model_policy := "balanced"; rq_conversation := conversation cp; rq_tools := []; tool_choice := None;
     metadata := {[ "prefix_sha256" := sample_prefix; "context_origin_trust" := "user" ]};
     recall_ranking := None; rq_reasoning_effort := None; rq_reasoning_summary := false;
     rq_provider_fields := [] |}.

#[export] Instance world_ports : LoopPorts World := {|
  RecallQuery := string;
  clock_now w := (w_clock w, w <| w_clock := w_clock w + 1 |>);
  new_id w := (w_ids w, w <| w_ids := N.succ (w_ids w) |>);
  token_check w := (Ok tt, w);
  uow_is_open w := false;
  uow_commit w := (Ok tt, w);
  uow_rollback before after := after <| w_log := w_log before |> <| w_store := w_store before |>
                                     <| w_tier := w_tier before |>;
  events_append e _ w :=
    (Ok (Z.of_nat (length (w_log w)) + 1), w <| w_log := (w_log w ++ [e])%list |>);
  events_list_after _ after _ _ w :=
    (Ok (List.filter (λ e, after <? env_sequence e) (imap envelope (w_log w))), w);
  runs_update_counters run l w := (Ok tt, w);
  invocations_list_for_run _ _ w := (Ok [], w);
  artifacts_list_for_run _ _ w := (Ok [], w);
  artifacts_retain_for_reply _ _ _ w := (Ok [], w);
  sessions_metadata _ _ w := (Ok [], w);
  browser_profiles_get _ _ w := (Raise (NotFoundError "browser profile not found"), w);
  plan_recall _ _ w := (Ok ["what the owner prefers"], w);
  run_recall _ _ _ w := (Ok tt, w);
  assemble _ cp _ w := (Ok {| request := request_for cp; pressure := roomy |}, w);
  compact_context _ _ _ w := (Raise (ContextOverflow "nothing to compact"), w);
  estimator_reconcile _ _ _ w := w;
  provider_stream _ _ w :=
    match w_script w with
    | [] => ([], Some (RuntimeError "the script is exhausted"), w)
    | events :: rest => (events, None, w <| w_script := rest |>)
    end;
  on_model_event _ _ w := (Ok tt, w);
  dispatch_tools run cp calls _ _ w :=
    (Ok (map echo calls),
     {| de_usage := usage run; de_model_call_count := model_call_count run;
        de_updated_at := updated_at run; de_working_state := working_state cp;
        de_loaded_skills := loaded_skills cp |}, w);
|}.
#[export] Instance world_dispatch_laws : ToolDispatchLaws World.
Proof. split. intros run cp calls step permit w rs effects w' [= <- _ _]. by rewrite List.map_map. Qed.

(** ** A run of two steps: a tool call, then the answer *)
Definition script_call : ToolCallItem :=
  {| call_id := "c1"; item_index := 0; tc_name := "files.read"; tc_arguments := [];
     raw_arguments := "{}"; parse_error := None; tc_source_event_sequence := None |}.
Definition script_answer : AssistantMessage :=
  {| am_content := [TextPart "the answer"]; am_item_index := 0; am_trust := EXTERNAL_UNTRUSTED;
     am_source_event_sequence := None |}.
Definition calling_turn : ModelTurn :=
  {| assistant_messages := []; turn_tool_calls := [script_call]; provider_reasoning_items := [];
     turn_usage := sample_model_usage; stop_reason := TOOL_USE; provider_metadata := None |}.
Definition answering_turn : ModelTurn :=
  {| assistant_messages := [script_answer]; turn_tool_calls := []; provider_reasoning_items := [];
     turn_usage := sample_model_usage; stop_reason := END_TURN; provider_metadata := None |}.
Definition script : list (list ModelEvent) :=
  [[ToolCallDeltaEvent (sample_base 0) 0 (Some "c1") (Some "files.read") "{}";
    ModelCompletedEvent (sample_base 1) calling_turn TOOL_USE None 0];
   [TextDeltaEvent (sample_base 0) 0 "the answer";
    ModelCompletedEvent (sample_base 1) answering_turn END_TURN None 0]].

Definition script_context : RunContext :=
  {| principal := {| Principal.tenant_id := "t1"; Principal.principal_id := "p1";
                     Principal.roles := ∅; Principal.scopes := ∅ |};
     resolved_model := {| rm_provider := "fake"; rm_model := "scripted"; rm_policy_name := "balanced" |};
     lease := None; available_tools := ["files.read"]; max_internal_attempts := 3;
     identical_call_threshold := 5; identical_denial_threshold := 3; max_compactions_per_step := 2;
     context_effort := None; context_summary := false; has_model_callback := true;
     recall_preparation := Some true; LoopPorts.uuid_str := sample_uuid; isoformat := λ _, "";
     dump_datetime := λ _, ""; py_str := λ v, match v with JStr s => s | _ => "" end;
     dump_usage := λ _, JNull; dump_item := λ _, JNull; dump_call := λ _, JNull;
     dump_result := λ _, JNull; dump_recall_work := λ _, JNull; dump_outcome := λ _, "";
     parse_outcome := λ _, None; parse_observation := λ _, None; dump_wait := λ _, JNull;
     parse_wait := λ _, Raise (ValueError "no wait"); parse_uuid := λ _, None; dumps := λ _, "{}";
     arguments_digest := λ _, ""; elapsed_milliseconds := λ t, t / 1000;
     reader_identity := λ _, "reader"; usage_json := λ _, JNull;
     LoopPorts.add_open_question := λ _ q, Ok (JStr q); browser_origin := λ _, None;
     feed_report_control := λ _, Ok ""; carries_credential := λ _, false;
     stream_diagnostics := λ _, ∅ |}.
Definition running_tier : tier (R:=RunStore.t) :=
  {| stored_runs := {| RunStore._runs := {[ 1%N := sample_run 1 9 RUNNING ]};
                     RunStore._people_erased_runs := ∅ |};
     _calls := [] |}.
Definition script_start : LoopState World :=
  {| l_run := sample_run 1 9 RUNNING; l_checkpoint := Checkpoints.sample_checkpoint 1 0;
     l_step := {| st_run_id := 1; st_step_number := 0; st_started_at := 0; attempt_count := 0;
                  st_tool_call_count := 0; compactions := 0 |};
     l_permit := None;
     l_world := {| w_clock := 100; w_ids := 50; w_script := script; w_log := [];
                   w_store := empty_chain_store; w_tier := running_tier |} |}.
Definition script_end := run_loop script_context 13 script_start.

Example script_completes :
  match script_end.1 with Ok (Some o) => outcome_kind o = OUTCOME_COMPLETED | _ => False end.
Proof. vm_compute. reflexivity. Qed.

Lemma run_loop_terminates_witness :
  (max_steps (limits (l_run script_start)) = 12) ∧
  (run_loop script_context 13 script_start).1 ≠ Ok None.
Proof.
  split; [reflexivity|]. refine (run_loop_terminates script_context 13 script_start _).
  vm_compute. apply le_n.
Defined.

(** The scripted run takes two of its twelve steps and one of its tool calls. *)
Lemma run_loop_within_budget_witness :
  step_count (l_run script_end.2) = 2 ∧ tool_call_count (l_run script_end.2) = 1 ∧
  step_count (l_run script_end.2) ≤
    Z.max (step_count (l_run script_start)) (max_steps (limits (l_run script_start))).
Proof.
  split; [vm_compute; reflexivity|]. split; [vm_compute; reflexivity|].
  unfold script_end. refine (proj1 (proj2 (run_loop_within_budget script_context 13 script_start))).
Defined.

Lemma script_answered : script_end.1 = Ok (Some (completed script_answer)).
Proof. vm_compute. reflexivity. Qed.
Lemma run_outcome_sound_witness :
  ∃ m, final_message (completed script_answer) = Some m ∧ _has_final_text (Some m) = true ∧
    last (conversation (l_checkpoint script_end.2)) = Some (AssistantItem m).
Proof.
  refine (run_outcome_sound script_context 13 script_start (completed script_answer) script_end.2 _).
  rewrite <- script_answered. unfold script_end. apply surjective_pairing.
Defined.

Definition script_turn_end := follow_turn script_context calling_turn false script_start.
Lemma script_turn_continues : script_turn_end.1 = Ok Continue.
Proof. vm_compute. reflexivity. Qed.
Lemma turn_answers_calls_witness :
  results_of (conversation (l_checkpoint script_turn_end.2)) = ["c1"] ∧
  pending_tool_calls (l_checkpoint script_turn_end.2) = [] ∧
  ∃ added, conversation (l_checkpoint script_turn_end.2) =
      (conversation (l_checkpoint script_start) ++ added)%list ∧ calls_of added ≡ₚ results_of added.
Proof.
  split; [vm_compute; reflexivity|].
  refine (turn_answers_calls script_context calling_turn false script_start script_turn_end.2 _).
  rewrite <- script_turn_continues. unfold script_turn_end. apply surjective_pairing.
Defined.

Definition script_request : ModelRequest := request_for (l_checkpoint script_start).
Definition script_invoked := _invoke_model script_context 3 3 script_request (Some "time") true script_start.
Lemma script_refused :
  match script_invoked.1 with
  | Ok (Some (inr o)) => failure o ≠ None
  | _ => False
  end.
Proof. vm_compute. discriminate. Qed.
Lemma model_turn_usable_witness :
  ∃ res, script_invoked.1 = Ok res ∧ ∃ x, res = Some x ∧
  match x with
  | inl turn => (turn_tool_calls turn ≠ [] ∨ _has_final_text (select_final_message turn) = true) ∧
      (Some "time" ∈ [Some "time"; Some "cost"] → turn_tool_calls turn = [])
  | inr o => outcome_kind o = RunModel.OUTCOME_FAILED ∧ is_Some (LoopGuards.failure o)
  end.
Proof.
  pose proof script_refused as Hr.
  destruct script_invoked as [[res|e] s'] eqn:E; [|destruct Hr]. unfold script_invoked in E. exists res. split; [reflexivity|].
  refine (model_turn_usable script_context 3 3 script_request (Some "time") true script_start res s' _ E).
  vm_compute. apply le_n.
Defined.

(** Two preparations with five seconds of other work between them. *)
Definition recall_history : list (recall_op (W:=World)) :=
  [Prepare None;
   Elsewhere (λ s, s <| l_world := (l_world s) <| w_clock := w_clock (l_world s) + seconds 5 |> |>);
   Prepare None].
Lemma recall_never_renewed_witness :
  recall_work (l_checkpoint (foldl (recall_step script_context) script_start recall_history)) =
    Some {| searches := 2; rounds := 0; rwb_deadline_at := 100 + seconds 15; automatic := true |} ∧
  kept (recall_work (l_checkpoint script_start))
    (recall_work (l_checkpoint (foldl (recall_step script_context) script_start recall_history))).
Proof.
  split; [vm_compute; reflexivity|].
  apply (recall_never_renewed script_context recall_history script_start).
  repeat constructor.
Defined.
