(* ===== verification/LoopFrame.v ===== *)
(** * Frames of the run loop

    A relation between worlds that every port keeps is kept by the loop: by the request,
    the model attempts, the batches and the recoveries, however they end. What the loop
    never does to the world is proved from what its ports never do. *)
From S2P Require Import Prelude StateLogic PyDecimal ToolInvocations EventModel RunModel RunSpec Sessions Budgets PolicyModel Messages ModelStream Checkpoints Compaction LoopGuards Artifacts LoopPorts Recall RunLoop.

Create HintDb ports.

(** Clocks and ids keep [R], a preorder. *)
Class Ticking (W : Type) `{LoopPorts W} (R : W → W → Prop) : Prop := {
  ticking_pre :: PreOrder R;
  ticking_clock w : R w (clock_now w).2;
  ticking_id w : R w (new_id w).2;
}.
(** Every port that takes [w] to [w'] keeps a relation: [Rin] the ones used inside a unit
    of work, [R] the others; the commit or the rollback that ends the unit of work turns
    what its body kept into [R]. *)
Class WorldFrame (W : Type) `{LoopPorts W, CheckpointWriter W, BudgetLedger W}
    (Rin R : W → W → Prop) : Prop := {
  frame_inside : Ticking W Rin;
  frame_outside : Ticking W R;
  frame_commit w w1 : Rin w w1 →
    match uow_commit w1 with (Ok _, w2) => R w w2 | (Raise _, w2) => R w (uow_rollback w w2) end;
  frame_rollback w w1 : Rin w w1 → R w (uow_rollback w w1);
  frame_append e l w : Rin w (events_append e l w).2;
  frame_events a b c d w : Rin w (events_list_after a b c d w).2;
  frame_counters run l w : Rin w (runs_update_counters run l w).2;
  frame_invocations a b w : Rin w (invocations_list_for_run a b w).2;
  frame_artifacts a b w : Rin w (artifacts_list_for_run a b w).2;
  frame_retain a b c w : Rin w (artifacts_retain_for_reply a b c w).2;
  frame_sessions a b w : Rin w (sessions_metadata a b w).2;
  frame_profiles a b w : Rin w (browser_profiles_get a b w).2;
  frame_token w : R w (token_check w).2;
  frame_plan run cp w : R w (plan_recall run cp w).2;
  frame_recall run q t w : R w (run_recall run q t w).2;
  frame_assemble run cp p w : R w (assemble run cp p w).2;
  frame_compact cp n r w : R w (compact_context cp n r w).2;
  frame_estimator m a b w : R w (estimator_reconcile m a b w);
  frame_stream r a w : R w (provider_stream r a w).2;
  frame_callback run e w : R w (on_model_event run e w).2;
  frame_dispatch run cp calls st p w : R w (dispatch_tools run cp calls st p w).2;
  frame_write a b c d e f g w : R w (write_checkpoint a b c d e f g w).2;
  frame_model a b c d e f g h i j w : R w (record_model a b c d e f g h i j w).2;
  frame_tools a b c d w : R w (record_tools a b c d w).2;
}.
Ltac port_frame :=
  (first [eapply frame_append | eapply frame_token | eapply frame_counters | eapply frame_events
        | eapply frame_invocations | eapply frame_artifacts | eapply frame_retain | eapply frame_sessions
        | eapply frame_profiles | eapply frame_assemble | eapply frame_compact | eapply frame_callback]); try eassumption.

(** The relation on the loop's state, whose run stays the same run. *)
Definition on_world {W} (R : W → W → Prop) (s s' : LoopState W) : Prop :=
  R (l_world s) (l_world s') ∧ RunModel.id (l_run s') = RunModel.id (l_run s).

Section ticking.
Context {W : Type} `{LoopPorts W} (R : W → W → Prop) `{!Ticking W R}.
Abbreviation M := (stateM (LoopState W)).

#[export] Instance on_world_pre : PreOrder (on_world R).
Proof.
  split.
  - intros s. split; reflexivity.
  - intros a b c [? Ha] [? Hb]. split; [by etrans|]. by rewrite Hb.
Qed.
Lemma frame_same s s' :
  l_world s' = l_world s → RunModel.id (l_run s') = RunModel.id (l_run s) → on_world R s s'.
Proof. unfold on_world. intros -> ->. split; reflexivity. Qed.
Lemma framed_world {A} (f : W → result A * W) : (∀ w, R w (f w).2) → keeps (on_world R) (world f).
Proof. intros Hf s. unfold on_world, world. specialize (Hf (l_world s)). by destruct (f (l_world s)). Qed.
Lemma framed_now : keeps (on_world R) now.
Proof. intros s. unfold on_world, now. pose proof (ticking_clock (R:=R) (l_world s)). by destruct (clock_now _). Qed.
Lemma framed_fresh_id : keeps (on_world R) fresh_id.
Proof. intros s. unfold on_world, fresh_id. pose proof (ticking_id (R:=R) (l_world s)). by destruct (new_id _). Qed.
Lemma framed_modify (f : LoopState W → LoopState W) :
  (∀ s, on_world R s (f s)) → keeps (on_world R) (modify f).
Proof. intros Hf s. apply Hf. Qed.
Lemma framed_object (f : LoopState W → LoopState W) :
  (∀ s, l_world (f s) = l_world s ∧ RunModel.id (l_run (f s)) = RunModel.id (l_run s)) →
  keeps (on_world R) (modify f).
Proof. intros Hf s. apply frame_same; apply Hf. Qed.
Lemma framed_set_run f :
  (∀ run, RunModel.id (f run) = RunModel.id run) → keeps (on_world R) (set_run f).
Proof. intros Hf. apply framed_object. intros s. split; [done|apply Hf]. Qed.
Lemma framed_set_cp f : keeps (on_world R) (set_cp f).
Proof. by apply framed_object. Qed.
Lemma framed_set_step f : keeps (on_world R) (set_step f).
Proof. by apply framed_object. Qed.
Lemma framed_set_ws f : keeps (on_world R) (set_ws f).
Proof. by apply framed_object. Qed.
Lemma framed_extend items : keeps (on_world R) (extend items).
Proof. by apply framed_object. Qed.
Lemma framed_grant slots d : keeps (on_world R) (grant slots d).
Proof. by apply framed_object. Qed.
Lemma framed_get_state : keeps (on_world R) get_state.
Proof. intros s. by apply frame_same. Qed.
Lemma framed_catch {A} (m : M A) handler :
  keeps (on_world R) m → (∀ e k, handler e = Some k → keeps (on_world R) k) →
  keeps (on_world R) (catch m handler).
Proof.
  intros Hm Hh s. specialize (Hm s). unfold catch. destruct (m s) as [[a|e] s']; [done|].
  destruct (handler e) as [k|] eqn:E; [|done]. etrans; [exact Hm|]. by apply (Hh e k).
Qed.
End ticking.

Section frame.
Context {W : Type} `{LoopPorts W, CheckpointWriter W, BudgetLedger W} (Rin R : W → W → Prop)
  `{!WorldFrame W Rin R} (cx : RunContext).
Abbreviation M := (stateM (LoopState W)).
#[local] Instance ticking_in : Ticking W Rin := frame_inside.
#[local] Instance ticking_out : Ticking W R := frame_outside.

Lemma framed_in_uow {A} (body : M A) :
  keeps (on_world Rin) body → keeps (on_world R) (in_uow body).
Proof.
  intros Hb s. specialize (Hb s). unfold on_world, in_uow in *.
  destruct (body s) as [[a|e] s']; destruct Hb as [Hb Hi].
  - pose proof (frame_commit (R:=R) _ _ Hb) as Hc. cbn in *.
    by destruct (uow_commit _) as [[[]|e] w].
  - split; [|done]. by apply (frame_rollback (Rin:=Rin)).
Qed.
Lemma framed_recall_phase {A} (body : option RecallExecutionPermit → M A) :
  (∀ p, keeps (on_world R) (body p)) → keeps (on_world R) (recall_phase body).
Proof.
  intros Hb s. specialize (Hb (l_permit s) s). unfold recall_phase. by destruct (body _ s) as [r s'].
Qed.
Lemma framed_checkpoint_at trigger pending t : keeps (on_world R) (checkpoint_at cx trigger pending t).
Proof.
  intros s. unfold on_world, checkpoint_at.
  pose proof (frame_write (R:=R) (checkpoint_context cx (l_checkpoint s)) (l_run s) trigger pending
    (bool_decide (is_Some (lease cx))) t (l_checkpoint s) (l_world s)).
  by destruct (write_checkpoint _ _ _ _ _ _ _ _) as [[r cp'] w].
Qed.
Lemma framed_dispatch calls permit : keeps (on_world R) (dispatch calls permit).
Proof.
  intros s. unfold on_world, dispatch.
  pose proof (frame_dispatch (R:=R) (l_run s) (l_checkpoint s) calls (l_step s) permit (l_world s)).
  by destruct (dispatch_tools _ _ _ _ _ _) as [[r fx] w].
Qed.
Lemma framed_plan : keeps (on_world R) plan.
Proof.
  intros s. unfold on_world, plan. pose proof (frame_plan (R:=R) (l_run s) (l_checkpoint s) (l_world s)).
  by destruct (plan_recall _ _ _) as [[q|e] w].
Qed.
End frame.
#[export] Hint Resolve framed_now framed_fresh_id framed_set_run framed_set_cp framed_set_step
  framed_set_ws framed_extend framed_grant framed_get_state framed_checkpoint_at framed_dispatch
  framed_plan : ports.

(** Take a computation of the loop apart; the leaves are ports, objects or framed already. *)
Ltac framed :=
  repeat match goal with
  | |- keeps _ (mbind _ _) => apply (keeps_bind _); [|intros ?]
  | |- keeps _ (in_uow _) => eapply framed_in_uow; try eassumption
  | |- keeps _ (recall_phase _) => apply framed_recall_phase; intros ?
  | |- keeps _ (world _) => apply framed_world; intros ?; port_frame
  | |- keeps _ (if ?b then _ else _) => destruct b
  | |- keeps _ (match ?x with _ => _ end) => destruct x
  | |- keeps _ (let '(_, _) := ?x in _) => destruct x
  | |- keeps _ _ => solve [eauto with keeps ports typeclass_instances]
  end.

Section loop.
Context {W : Type} `{LoopPorts W, CheckpointWriter W, BudgetLedger W} (Rin R : W → W → Prop)
  `{!BudgetLedgerLaws W, !WorldFrame W Rin R} (cx : RunContext).
Abbreviation M := (stateM (LoopState W)).
#[local] Instance loop_in : Ticking W Rin := frame_inside.
#[local] Instance loop_out : Ticking W R := frame_outside.
Abbreviation framed m := (keeps (on_world R) m).

Lemma framed_append t p : keeps (on_world Rin) (append cx t p).
Proof. unfold append. framed. Qed.
#[local] Hint Resolve framed_append : ports.
Lemma framed_append_event t p : framed (_append_event cx t p).
Proof. unfold _append_event. framed. Qed.
#[local] Hint Resolve framed_append_event : ports.
Lemma framed_checkpoint trigger pending : framed (checkpoint cx trigger pending).
Proof. unfold checkpoint. framed. Qed.
#[local] Hint Resolve framed_checkpoint : ports.
Lemma framed_run_searches eb q slots d : framed (run_searches eb q slots d).
Proof.
  unfold run_searches. framed. apply framed_modify. intros s. cbn. split; [apply frame_recall|done].
Qed.
#[local] Hint Resolve framed_run_searches : ports.
Lemma framed_reserve eb pending t q : framed (reserve cx eb pending t q).
Proof. unfold reserve. cbn zeta. framed. Qed.
#[local] Hint Resolve framed_reserve : ports.
Lemma framed_prepare_recall pending : framed (prepare_recall cx pending).
Proof. unfold prepare_recall. cbn zeta. framed. Qed.
#[local] Hint Resolve framed_prepare_recall : ports.

Lemma framed_failure_at a b c d : framed (failure_at a b c d).
Proof. unfold failure_at. framed. Qed.
#[local] Hint Resolve framed_failure_at : ports.
Lemma framed_build_once : framed (build_once cx).
Proof. unfold build_once, set_budget_markers, assembled. cbn zeta. framed. Qed.
#[local] Hint Resolve framed_build_once : ports.
Lemma framed_build fuel : framed (build_with_pressure cx fuel).
Proof. induction fuel; cbn [build_with_pressure]; framed. Qed.
#[local] Hint Resolve framed_build : ports.
Lemma framed_origin_trust r : framed (_apply_context_origin_trust r).
Proof. unfold _apply_context_origin_trust. framed. Qed.
#[local] Hint Resolve framed_origin_trust : ports.
Lemma framed_consume events rd : framed (consume cx events rd).
Proof. revert rd. induction events as [|e events IH]; intros rd; cbn [consume]; cbn zeta; framed. Qed.
#[local] Hint Resolve framed_consume : ports.
Lemma framed_estimate r u : framed (_reconcile_context_estimate cx r u).
Proof.
  unfold _reconcile_context_estimate. framed. apply framed_modify. intros ?. cbn. split; [apply frame_estimator|done].
Qed.
Lemma framed_charge_model u a r stop err : framed (charge_model cx u a r stop err).
Proof.
  unfold charge_model. apply (keeps_bind _); [framed|]. intros t s. unfold on_world.
  pose proof (frame_model (R:=R) (l_run s) u (l_step s) a (metadata r !! "prefix_sha256") (resolved_model cx)
    (registry_version (l_checkpoint s)) stop err t (l_world s)).
  destruct (record_model_run (l_run s) u (l_step s) a (metadata r !! "prefix_sha256") (resolved_model cx)
    (registry_version (l_checkpoint s)) stop err t (l_world s)) as (u' & n & t' & Hr).
  destruct (record_model _ _ _ _ _ _ _ _ _ _ _) as [[e run] w]. cbn in *. by rewrite Hr.
Qed.
Lemma framed_charge_tools n : framed (charge_tools n).
Proof.
  unfold charge_tools. apply (keeps_bind _); [framed|]. intros t s. unfold on_world.
  pose proof (frame_tools (R:=R) (l_run s) (Z.of_nat n) (l_step s) t (l_world s)).
  pose proof (record_tools_run (l_run s) (Z.of_nat n) (l_step s) t (l_world s)) as Hr.
  destruct (record_tools _ _ _ _ _) as [[e run] w]. cbn in *. by destruct Hr as [-> | ->].
Qed.
#[local] Hint Resolve framed_estimate framed_charge_model framed_charge_tools : ports.
Lemma framed_attempt_request r reserve : framed (attempt_request cx r reserve).
Proof. unfold attempt_request. framed. Qed.
Lemma framed_announce a r : framed (announce cx a r).
Proof. unfold announce. framed. Qed.
Lemma framed_failed_attempt m a r e p : framed (failed_attempt cx m a r e p).
Proof. unfold failed_attempt. cbn zeta. framed. Qed.
Lemma framed_completed_attempt m a r v t turn stop n i rd :
  framed (completed_attempt cx m a r v t turn stop n i rd).
Proof. unfold completed_attempt. cbn zeta. framed. Qed.
Lemma framed_read_stream r a i : framed (read_stream cx r a i).
Proof.
  unfold read_stream. apply (keeps_bind _).
  - intros s. unfold on_world. pose proof (frame_stream (R:=R) r a (l_world s)).
    by destruct (provider_stream _ _ _) as [[events raised] w].
  - intros source. framed.
Qed.
#[local] Hint Resolve framed_attempt_request framed_announce framed_failed_attempt
  framed_completed_attempt framed_read_stream : ports.
Lemma framed_attempt_once m r i t : framed (attempt_once cx m r i t).
Proof. unfold attempt_once. cbn zeta. framed. Qed.
#[local] Hint Resolve framed_attempt_once : ports.
Lemma framed_invoke_model fuel m r i t : framed (_invoke_model cx fuel m r i t).
Proof. induction fuel; cbn [_invoke_model]; framed. Qed.
#[local] Hint Resolve framed_invoke_model : ports.

Lemma framed_append_refusals l : keeps (on_world Rin) (append_refusals cx l).
Proof. induction l as [|[c r] l IH]; cbn [append_refusals]; framed. Qed.
#[local] Hint Resolve framed_append_refusals : ports.
Lemma framed_record_refusals l : framed (_record_refusals cx l).
Proof. unfold _record_refusals. framed. Qed.
Lemma framed_with_sequences l : framed (with_event_sequences cx l).
Proof. unfold with_event_sequences. framed. Qed.
Lemma framed_record_denials calls rs : framed (_record_denials cx calls rs).
Proof. unfold _record_denials. cbn zeta. framed. Qed.
Lemma framed_record_question q : framed (_record_open_question cx q).
Proof. unfold _record_open_question. framed. Qed.
Lemma framed_bind_question q : framed (bind_browser_auth_question cx q).
Proof. unfold bind_browser_auth_question. framed. Qed.
#[local] Hint Resolve framed_record_refusals framed_with_sequences framed_record_denials
  framed_record_question framed_bind_question : ports.
Lemma framed_open_question q u : framed (open_question cx q u).
Proof. unfold open_question. framed. Qed.
#[local] Hint Resolve framed_open_question : ports.
Lemma framed_selected_profile : framed (selected_profile cx).
Proof.
  unfold selected_profile. framed. apply framed_catch; [apply _|framed|].
  intros e k Hk. destruct e; simplify_eq; framed.
Qed.
#[local] Hint Resolve framed_selected_profile : ports.
Lemma framed_auth_wait : framed (prepare_browser_auth_wait cx).
Proof. unfold prepare_browser_auth_wait. framed. Qed.
#[local] Hint Resolve framed_auth_wait : ports.
Lemma framed_plan_recovery calls f u : framed (plan_recovery cx calls f u).
Proof. unfold plan_recovery. cbn zeta. framed. Qed.
Lemma framed_queue_recovery r : framed (queue_recovery cx r).
Proof. unfold queue_recovery. cbn zeta. framed. Qed.
Lemma framed_adopt_results calls rs : framed (adopt_results cx calls rs).
Proof. unfold adopt_results. framed. Qed.
#[local] Hint Resolve framed_plan_recovery framed_queue_recovery framed_adopt_results : ports.
Lemma framed_recover fuel calls rs : framed (recover_browser_failure cx fuel calls rs).
Proof. revert calls rs. induction fuel; intros calls rs; cbn [recover_browser_failure]; framed. Qed.
#[local] Hint Resolve framed_recover : ports.
Lemma framed_suspend_question q i : framed (suspend_for_browser_question cx q i).
Proof. unfold suspend_for_browser_question. cbn zeta. framed. Qed.
Lemma framed_connection_question : framed (prepare_browser_connection_question cx).
Proof. unfold prepare_browser_connection_question. cbn zeta. framed. Qed.
Lemma framed_complete_reply n m : framed (complete_reply cx n m).
Proof. unfold complete_reply. framed. Qed.
#[local] Hint Resolve framed_suspend_question framed_connection_question framed_complete_reply : ports.
Lemma framed_begin_step : framed (begin_step cx).
Proof. unfold begin_step. framed. Qed.
Lemma framed_dispatch_or_suspend calls : framed (dispatch_or_suspend cx calls).
Proof.
  unfold dispatch_or_suspend. apply framed_catch; [apply _|framed|].
  intros e k Hk. destruct e; simplify_eq; framed.
Qed.
#[local] Hint Resolve framed_begin_step framed_dispatch_or_suspend : ports.
Lemma framed_run_batch calls : framed (run_batch cx calls).
Proof.
  unfold run_batch. framed. apply framed_catch; [apply _|framed|].
  intros e k Hk. destruct e; simplify_eq; framed.
Qed.
#[local] Hint Resolve framed_run_batch : ports.
Lemma framed_run_tools turn b : framed (run_tools cx turn b).
Proof. unfold run_tools. cbn zeta. framed. Qed.
#[local] Hint Resolve framed_run_tools : ports.
Lemma framed_follow_turn turn b : framed (follow_turn cx turn b).
Proof. unfold follow_turn. framed. Qed.
#[local] Hint Resolve framed_follow_turn : ports.
Lemma framed_loop_body : framed (loop_body cx).
Proof. unfold loop_body. cbn zeta. framed. Qed.
#[local] Hint Resolve framed_loop_body : ports.

(** What every port keeps, the loop keeps. *)
Lemma framed_run_loop fuel : framed (run_loop cx fuel).
Proof. induction fuel; cbn [run_loop]; framed. Qed.
End loop.
#[export] Hint Resolve framed_append framed_append_event framed_checkpoint framed_prepare_recall
  framed_failure_at framed_charge_tools framed_record_refusals framed_with_sequences
  framed_open_question framed_recover framed_connection_question framed_run_loop : ports.
