(* ===== verification/Executor.v ===== *)
(** * The run executor ([runtime/executor.py])

    One claimed run from its checkpoint to the transaction that settles it: loading and
    preparing, the resumption of a batch that was pending, the run loop, and the
    finalization that makes the outcome durable, with its fallback. The objects are the
    ones of [LoopPorts.v]; the ports the executor adds are a class of their own. *)
From S2P Require Import Prelude StateLogic PyDecimal ToolInvocations Approvals EventModel RunModel RunSpec Sessions Cancellation Budgets PolicyModel Messages ModelStream Checkpoints LoopGuards LoopPorts Recall RunLoop.

(** ** Data of the ports *)
(** The part of [ContextPlan] the executor reads. *)
Record ContextPlan := {
  plan_epoch : Z;
  plan_tool_names : list string;
  (** [pinned_tool_specs]: the name, the version and the dumped specification. *)
  plan_pinned_specs : list (string * string * json);
  plan_snapshot_id : option UUID;
  plan_memory_snapshot : string;
}.
Record SurfaceMapping := { sm_surface_id : UUID; external_key : string }.
Record SurfaceReply := {
  sr_id : UUID;
  sr_surface_id : UUID;
  sr_tenant_id : string;
  sr_principal_id : string;
  sr_run_id : UUID;
  chat_ref : string;
  sr_next_attempt_at : datetime;
  sr_created_at : datetime;
}.
(** The arguments of [for_run_transition]. *)
Record RunNotification := {
  rn_run : Run;
  rn_principal_id : string;
  rn_status : RunStatus;
  rn_approval_id : option UUID;
  rn_question_id : option UUID;
  rn_approval_expires_at : option datetime;
  rn_approval_tool_name : option string;
}.
Record ModelChoice := { choice_provider : string; choice_model : string; choice_effort : option ReasoningEffort }.

Class ExecutorPorts (W : Type) := {
  Agent : Type;
  agent_model_policy : Agent → string;
  token_reason : W → option CancelReason * W;
  (** The stores. *)
  checkpoints_latest : UUID → W → result (option RunCheckpoint) * W;
  checkpoints_write_full : UUID → RunCheckpoint → option WorkerLease → W → result unit * W;
  seed_checkpoint : Run → option WorkerLease → Principal.t → W → result RunCheckpoint * W;
  runs_transition : UUID → RunStatus → RunStatus → option RunFailure → option string →
    option WorkerLease → W → result Run * W;
  runs_set_provider_pin : UUID → ProviderPin → W → result unit * W;
  (** [None] is a unit of work without a queue. *)
  queue_release : option (WorkerLease → RunStatus → W → result unit * W);
  approvals_get : UUID → Principal.t → W → result ApprovalRequest * W;
  approvals_cancel_for_run : UUID → W → result unit * W;
  history_catch_up : UUID → W → result (list ConversationItem * Z) * W;
  history_read : UUID → Z → W → result (list ConversationItem * Z) * W;
  events_latest_before : UUID → Z → string → Principal.t → option UUID → W →
    result (option EventEnvelope) * W;
  surfaces_for_session : UUID → W → result (option SurfaceMapping) * W;
  replies_enqueue : SurfaceReply → W → result unit * W;
  people_lock : Principal.t → W → result unit * W;
  traces_get : UUID → Principal.t → W → result unit * W;
  notify_transition : RunNotification → W → result unit * W;
  (** [finalization_write_probe], which does nothing when there is none. *)
  write_probe : string → W → result unit * W;
  (** What prepares a run. *)
  principals_for_run : Run → W → result Principal.t * W;
  agents_get_version : UUID → string → W → result Agent * W;
  model_settings_current : Principal.t → W → result (option ModelChoice) * W;
  router_resolve : string → string → W → result ResolvedModel * W;
  router_pin : UUID → ResolvedModel → W → ProviderPin * W;
  router_resolve_pinned : ProviderPin → W → result ResolvedModel * W;
  (** The adapter of the pinned provider becomes the one the run's model calls use. *)
  bind_provider : string → W → W;
  typed_task : Run → Principal.t → W → result bool * W;
  (** prepare_surface, refresh_authorization, preserve_tool_pins *)
  plan_context : dict → Agent → Principal.t → ResolvedModel → bool → bool → bool → W →
    result ContextPlan * W;
  on_token : UUID → W → W;
  child_suspension : UUID → UUID → W → result unit * W;
  on_run_complete : UUID → option Z → W → result unit * W;
  on_token_complete : UUID → W → W;
}.

(** What the executor is constructed with, and the renderings it uses. *)
Record RunExecutor (W : Type) := {
  (** The run context, but for what is decided per run. *)
  ex_context : RunContext;
  ex_principal : Principal.t;
  ex_resolved_model : ResolvedModel;
  ex_has_router : bool;
  ex_has_provider : string → bool;
  (** [effective_chat], when there are model settings. *)
  ex_effective_chat : option (option ModelChoice → ModelChoice);
  ex_reasoning_efforts : ResolvedModel → list ReasoningEffort;
  ex_validate_browser_binding : dict → result unit;
  ex_notifies : bool;
  ex_has_typed_task : bool;
  ex_task_runner : option (RunContext → stateM (LoopState W) (option RunOutcome));
  ex_has_child_callback : bool;
  ex_class_name : exn → string;
  (** [str(exc)] *)
  ex_message : exn → string;
  (** [log_failure]: the references kept of a failure, from its phase and diagnostic id. *)
  ex_log_failure : exn → string → UUID → gmap string detail;
  ex_dump_message : AssistantMessage → json;
  ex_dump_failure : RunFailure → json;
}.
Arguments ex_context {W}.
Arguments ex_principal {W}.
Arguments ex_resolved_model {W}.
Arguments ex_has_router {W}.
Arguments ex_has_provider {W}.
Arguments ex_effective_chat {W}.
Arguments ex_reasoning_efforts {W}.
Arguments ex_validate_browser_binding {W}.
Arguments ex_notifies {W}.
Arguments ex_has_typed_task {W}.
Arguments ex_task_runner {W}.
Arguments ex_has_child_callback {W}.
Arguments ex_class_name {W}.
Arguments ex_message {W}.
Arguments ex_log_failure {W}.
Arguments ex_dump_message {W}.
Arguments ex_dump_failure {W}.

(** [step_count or None] *)
Definition step_or_none (run : Run) : option Z := if step_count run =? 0 then None else Some (step_count run).
Definition failed (f : RunFailure) : RunOutcome :=
  {| outcome_kind := RunModel.OUTCOME_FAILED; LoopGuards.failure := Some f; LoopGuards.final_message := None; suspension := None |}.
Definition fenced : RunOutcome :=
  {| outcome_kind := OUTCOME_FENCED; LoopGuards.failure := None; LoopGuards.final_message := None; suspension := None |}.

(** [_message_text] *)
Definition message_lines (m : AssistantMessage) : list string :=
  omap (λ p, match p with TextPart t => Some t | _ => None end) (am_content m).
Definition NEWLINE : string := String (Ascii.ascii_of_N 10) EmptyString.
Definition _message_text (m : option AssistantMessage) : option string :=
  (λ m, String.concat NEWLINE (message_lines m)) <$> m.

Section executor.
Context {W : Type} `{LoopPorts W, CheckpointWriter W, BudgetLedger W, ExecutorPorts W}.
Context (ex : RunExecutor W) (lease : option WorkerLease).
Abbreviation M := (stateM (LoopState W)).

(** ** Finalization *)
Definition append_leased (event_type : string) (payload : dict) : M Z :=
  run ← gets l_run; world (events_append (runtime_event run event_type payload) lease).
Definition reason_now : M (option CancelReason) := λ s,
  let '(r, w) := token_reason (l_world s) in (Ok r, s <| l_world := w |>).
Definition probe (boundary : string) : M unit := world (write_probe boundary).

(** What the branches of [_finalize_once] choose. *)
Record settlement := {
  se_status : RunStatus;
  se_event_type : string;
  se_payload : dict;
  se_failure : option RunFailure;
  se_final_message : option string;
}.
Definition suspension_kind (o : RunOutcome) : option string :=
  suspension o ≫= λ d, as_str (dict_get "kind" d).
Definition suspension_json (o : RunOutcome) : json :=
  match suspension o with Some d => JObj d | None => JNull end.
Definition choose_settlement (o : RunOutcome) : M settlement :=
  match outcome_kind o with
  | OUTCOME_COMPLETED =>
      match final_message o with
      | None => raise (ValueError "Input should be a valid dictionary or instance of AssistantMessage")
      | Some m => mret {| se_status := COMPLETED; se_event_type := "run.completed";
                          se_payload := [("final_message", ex_dump_message ex m)];
                          se_failure := None; se_final_message := _message_text (Some m) |}
      end
  | OUTCOME_CANCELLED =>
      r ← reason_now;
      mret {| se_status := CANCELLED; se_event_type := "run.cancelled";
              se_payload := [("reason", JStr (match r with Some r => CancelReason_value r | None => "requested" end))];
              se_failure := None; se_final_message := None |}
  | RunModel.OUTCOME_FAILED =>
      match LoopGuards.failure o with
      | None => raise (RuntimeError "failed outcome requires a RunFailure")
      | Some f => mret {| se_status := FAILED; se_event_type := "run.failed";
                          se_payload := [("failure", ex_dump_failure ex f)];
                          se_failure := Some f; se_final_message := None |}
      end
  | OUTCOME_SUSPENDED =>
      mret (if bool_decide (suspension_kind o = Some "user")
            then {| se_status := WAITING_FOR_USER; se_event_type := "run.waiting_for_user";
                    se_payload := [("suspension", suspension_json o);
                                   ("question_id", default JNull (suspension o ≫= dict_get "question_id"))];
                    se_failure := None; se_final_message := None |}
            else {| se_status := WAITING_FOR_APPROVAL; se_event_type := "run.waiting_for_approval";
                    se_payload := [("suspension", suspension_json o)];
                    se_failure := None; se_final_message := None |})
  | OUTCOME_FENCED => raise (RuntimeError "Milestone 2 cannot finalize outcome fenced")
  end.

(** The approval a suspended run waits on, requested in the same transaction. *)
Definition child_run_suspension (o : RunOutcome) : bool :=
  bool_decide (outcome_kind o = OUTCOME_SUSPENDED) && bool_decide (suspension_kind o = Some "child_run").
Definition request_approval (o : RunOutcome) (st : settlement) (last_event : Z) : M (option UUID * Z) :=
  if bool_decide (outcome_kind o = OUTCOME_SUSPENDED) &&
     bool_decide (se_status st = WAITING_FOR_APPROVAL) && negb (child_run_suspension o)
  then
    cp ← gets l_checkpoint;
    match pending_approval_ids cp with
    | [] => raise (RuntimeError "approval suspension has no pending approval id")
    | a :: _ =>
        n ← append_leased "approval.requested" [("approval_id", JStr (LoopPorts.uuid_str (ex_context ex) a))];
        probe "approval_event" ≫= λ _,
        mret (Some a, n)
    end
  else mret (None, last_event).

Definition question_of (st : settlement) : M (option UUID) :=
  if bool_decide (se_status st = WAITING_FOR_USER) then
    match dict_get "question_id" (se_payload st) with
    | None | Some JNull => raise (RuntimeError "user suspension has no question id")
    | Some raw =>
        match parse_uuid (ex_context ex) (py_str (ex_context ex) raw) with
        | None => raise (ValueError "badly formed hexadecimal UUID string")
        | Some u => mret (Some u)
        end
    end
  else mret None.
Definition notify (who : Principal.t) (o : RunOutcome) (st : settlement) (approval : option UUID) : M unit :=
  if ex_notifies ex && negb (child_run_suspension o) then
    question ← question_of st;
    about ← (match approval with
             | None => mret (None, None)
             | Some a => r ← world (approvals_get a who); mret (expires_at r, approval_tool_name r)
             end : M (option datetime * option string));
    run ← gets l_run;
    world (notify_transition
      {| rn_run := run; rn_principal_id := Principal.principal_id who; rn_status := se_status st;
         rn_approval_id := approval; rn_question_id := question;
         rn_approval_expires_at := about.1; rn_approval_tool_name := about.2 |}) ≫= λ _,
    probe "notification"
  else mret tt.

(** The reply owed to the surface the run's message came from. *)
Definition surface_origin (seed : option EventEnvelope) (run : Run) : option string :=
  match seed with
  | Some e =>
      match dict_get "origin" (ev_payload (env_event e)) with
      | Some (JObj origin) =>
          if bool_decide (ev_run_id (env_event e) = Some (RunModel.id run)) &&
             bool_decide (as_str (dict_get "kind" origin) ∈ [Some "telegram"; Some "whatsapp"])
          then as_str (dict_get "surface_id" origin) else None
      | _ => None
      end
  | None => None
  end.
Definition enqueue_reply (who : Principal.t) : M unit :=
  run ← gets l_run;
  seed ← world (events_latest_before (RunModel.session_id run) (seed_event_sequence run + 1)
                  "user.message.created" who None);
  match surface_origin seed run with
  | None => mret tt
  | Some surface =>
      mapping ← world (surfaces_for_session (RunModel.session_id run));
      match mapping with
      | Some m =>
          if String.eqb (LoopPorts.uuid_str (ex_context ex) (sm_surface_id m)) surface then
            u ← fresh_id;
            t ← now;
            t' ← now;
            world (replies_enqueue
              {| sr_id := u; sr_surface_id := sm_surface_id m; sr_tenant_id := Principal.tenant_id who;
                 sr_principal_id := Principal.principal_id who; sr_run_id := RunModel.id run;
                 chat_ref := py_removeprefix "dm:" (external_key m); sr_next_attempt_at := t;
                 sr_created_at := t' |}) ≫= λ _,
            probe "surface_reply"
          else raise (RuntimeError "surface-origin run has no session mapping")
      | None => raise (RuntimeError "surface-origin run has no session mapping")
      end
  end.
Definition release_lease (st : RunStatus) : M unit :=
  match lease with
  | None => mret tt
  | Some l =>
      match queue_release with
      | None => raise (RuntimeError "durable lease has no queue repository")
      | Some release => world (release l st) ≫= λ _, probe "queue"
      end
  end.

(** The transaction of [_finalize_once]: its events and notification, then its rows. *)
Definition announce_settlement (who : Principal.t) (o : RunOutcome) (st : settlement) : M Z :=
  n ← append_leased (se_event_type st) (se_payload st);
  probe "terminal_event" ≫= λ _,
  requested ← request_approval o st n;
  notify who o st requested.1 ≫= λ _,
  mret requested.2.
Definition write_settlement (who : Principal.t) (st : settlement) (last_event : Z) : M unit :=
  set_cp (λ c, c <| last_event_sequence := last_event |>) ≫= λ _,
  s ← get_state;
  world (checkpoints_write_full (RunModel.id (l_run s)) (l_checkpoint s) lease) ≫= λ _,
  probe "checkpoint" ≫= λ _,
  world (runs_transition (RunModel.id (l_run s)) RUNNING (se_status st) (se_failure st)
           (se_final_message st) lease) ≫= λ _,
  probe "run" ≫= λ _,
  (if is_terminal (se_status st) then enqueue_reply who else mret tt) ≫= λ _,
  release_lease (se_status st).
Definition settle (who : Principal.t) (o : RunOutcome) (st : settlement) : M unit :=
  in_uow (last_event ← announce_settlement who o st; write_settlement who st last_event).

Definition _finalize_once (who : Principal.t) (o : RunOutcome) : M unit :=
  if bool_decide (outcome_kind o = OUTCOME_FENCED) then mret tt
  else
    st ← choose_settlement o;
    set_cp (λ c, (if is_terminal (se_status st) then c <| provider_continuation := None |> else c)
                   <| cp_version := cp_version c + 1 |> <| cp_status := se_status st |>) ≫= λ _,
    t ← now;
    set_cp (λ c, c <| cp_created_at := t |>) ≫= λ _,
    settle who o st.

(** A run cut off by its deadline has failed, unless a parent run answers for it. *)
Definition deadline_failure (t : datetime) (run : Run) : RunOutcome :=
  failed {| reason := DEADLINE_EXCEEDED; error_class := "RunDeadlineExceeded";
            RunModel.message := "The run ran out of time before producing an answer. Retry the request to continue.";
            RunModel.step_number := step_or_none run; RunModel.attempt_number := None;
            occurred_at := t; details := ∅ |}.
Definition settled_outcome (o : RunOutcome) : M RunOutcome :=
  if bool_decide (outcome_kind o = OUTCOME_CANCELLED) then
    r ← reason_now;
    run ← gets l_run;
    if bool_decide (r = Some DEADLINE) && bool_decide (parent_run_id run = None)
    then t ← now; mret (deadline_failure t run)
    else mret o
  else mret o.
Definition is_capacity (e : exn) : bool := match e with DatabaseCapacityError _ => true | _ => false end.

(** The second transaction, when the first could not be written. *)
Definition finalize_failed (who : Principal.t) (o : RunOutcome) (e : exn) : M unit :=
  u ← fresh_id;
  run ← gets l_run;
  t ← now;
  let f := {| reason := INTERNAL_ERROR; error_class := ex_class_name ex e;
              RunModel.message := "An unexpected finalization error ended the run";
              RunModel.step_number := step_or_none run; RunModel.attempt_number := None;
              occurred_at := t; details := ex_log_failure ex e "finalization" u |} in
  (if bool_decide (outcome_kind o = OUTCOME_SUSPENDED)
   then in_uow (world (approvals_cancel_for_run (RunModel.id run))) else mret tt) ≫= λ _,
  _finalize_once who (failed f).
Definition finalize (who : Principal.t) (o : RunOutcome) : M unit :=
  o ← settled_outcome o;
  original ← gets l_checkpoint;
  catch (_finalize_once who o)
    (λ e, match e with
     | WorkerFencedError _ => None
     | _ => Some (
         set_cp (λ _, original) ≫= λ _,
         if bool_decide (is_Some lease) && is_capacity e then raise e
         else finalize_failed who o e)
     end).

(** ** Resuming a batch *)
Definition is_result (x : ConversationItem) : bool := match x with ResultItem _ => true | _ => false end.
Definition is_call (x : ConversationItem) : bool := match x with CallItem _ => true | _ => false end.
Definition calls_in (items : list ConversationItem) : list ToolCallItem :=
  omap (λ x, match x with CallItem c => Some c | _ => None end) items.
Definition results_in (items : list ConversationItem) : list ToolResultItem :=
  omap (λ x, match x with ResultItem r => Some r | _ => None end) items.
(** [while end and p(conversation[end - 1]): end -= 1]: what is before, and what is passed. *)
Fixpoint trailing (p : ConversationItem → bool) (l : list ConversationItem)
    : list ConversationItem * list ConversationItem :=
  match l with
  | [] => ([], [])
  | x :: l =>
      match trailing p l with
      | ([], suffix) => if p x then ([], x :: suffix) else ([x], suffix)
      | (before, suffix) => (x :: before, suffix)
      end
  end.
Definition _latest_turn (conversation : list ConversationItem) : list ToolCallItem * gset string :=
  let '(before, results) := trailing is_result conversation in
  let '(_, calls) := trailing is_call before in
  (calls_in calls, list_to_set (map tr_call_id (results_in results))).

Section context.
Context (cx : RunContext).

Definition budget_refusal (r : ToolResultItem) : bool :=
  bool_decide (tr_trust r = PLATFORM) && is_error r &&
  existsb (λ p, match p with
                | TextPart t =>
                    match parse_outcome cx t with
                    | Some o => bool_decide (outcome_status o = OUTCOME_FAILED) &&
                                String.eqb (outcome_reason_code o) "tool.budget_exhausted"
                    | None => false
                    end
                | _ => false
                end) (content r).
Definition _budget_refused_calls (conversation : list ConversationItem) : gset string :=
  list_to_set (map tr_call_id
    (List.filter budget_refusal (results_in (trailing is_result conversation).2))).

Definition _adopt_committed_history : M (list ConversationItem) :=
  s ← get_state;
  read ← in_uow (
    committed ← world (history_catch_up (RunModel.session_id (l_run s)));
    restored ← world (history_read (RunModel.session_id (l_run s)) (last_event_sequence (l_checkpoint s)));
    mret (committed, restored));
  let '(committed, restored) := read in
  let adopted := drop (length restored.1) committed.1 in
  extend adopted ≫= λ _,
  set_cp (λ c, c <| last_event_sequence := Z.max (last_event_sequence c) committed.2 |>) ≫= λ _,
  mret adopted.

(** The invocations whose approval was decided. *)
Fixpoint decided_invocations (ids : list UUID) : M (gset UUID) :=
  match ids with
  | [] => mret ∅
  | a :: ids =>
      r ← world (approvals_get a (principal cx));
      rest ← decided_invocations ids;
      mret (match Approvals.tool_invocation_id r with
            | Some i => if bool_decide (Approvals.status r = PENDING) then rest else {[i]} ∪ rest
            | None => rest
            end)
  end.
Definition _resolved_approval_calls : M (gset string) :=
  s ← get_state;
  match pending_approval_ids (l_checkpoint s) with
  | [] => mret ∅
  | ids =>
      in_uow (
        chosen ← decided_invocations ids;
        invocations ← world (invocations_list_for_run (RunModel.id (l_run s)) (principal cx));
        mret (list_to_set (map inv_call_id (List.filter (λ i,
          bool_decide (ToolInvocations.id i ∈ chosen) &&
          bool_decide (ToolInvocations.status i = ToolInvocations.WAITING_FOR_APPROVAL)) invocations))))
  end.

Definition _fit_resumed_batch (turn : list ToolCallItem) (used : Z) (answered : gset string)
    : M (list ToolCallItem) :=
  run ← gets l_run;
  let proposed := (_fit_tool_batch (dump_outcome cx) run turn (Some used) None false).1 in
  t ← now;
  let '(fitted, refusals) := _fit_tool_batch (dump_outcome cx) run turn (Some used) (Some t) true in
  decided ← _resolved_approval_calls;
  let refusals := List.filter (λ cr, negb (bool_decide (call_id cr.1 ∈ decided))) refusals in
  cp ← gets l_checkpoint;
  let budget_refused := _budget_refused_calls (conversation cp) in
  let eligible := (list_to_set (map call_id fitted) ∪ decided ∪ answered) ∖ budget_refused in
  let fitted := List.filter (λ c, bool_decide (call_id c ∈ eligible)) proposed in
  _record_refusals cx (List.filter (λ cr, negb (bool_decide (call_id cr.1 ∈ answered))) refusals) ≫= λ _,
  mret fitted.

(** The calls a [model.response.completed] event recorded. *)
Definition recorded_calls (payload : dict) : result (list (option json)) :=
  match default (JArr []) (dict_get "conversation_items" payload) with
  | JArr items =>
      Ok (omap (λ v, match v with
                     | JObj item => if bool_decide (as_str (dict_get "kind" item) = Some "tool_call")
                                    then Some (dict_get "call_id" item) else None
                     | _ => None
                     end) items)
  | JStr _ | JObj _ => Ok []
  | _ => Raise (TypeError "object is not iterable")
  end.
Fixpoint names_calls (recorded : list (option json)) (calls : list ToolCallItem) : bool :=
  match recorded, calls with
  | [], [] => true
  | Some (JStr c) :: recorded, call :: calls => String.eqb c (call_id call) && names_calls recorded calls
  | _, _ => false
  end.
Definition _turn_controls (calls : list ToolCallItem) : M (option Z * option string) :=
  match calls with
  | [] => mret (None, None)
  | _ =>
      s ← get_state;
      event ← in_uow (world (events_latest_before (RunModel.session_id (l_run s))
                 (last_event_sequence (l_checkpoint s) + 1) "model.response.completed" (principal cx)
                 (Some (RunModel.id (l_run s)))));
      match event with
      | None => mret (None, None)
      | Some e =>
          let payload := ev_payload (env_event e) in
          recorded ← lift (recorded_calls payload);
          if negb (names_calls recorded calls) then mret (None, None)
          else mret (match dict_get "tool_call_count_before_turn" payload with
                     | Some (JInt n) => if 0 <=? n then Some n else None
                     | _ => None
                     end, as_str (dict_get "synthesis_reserve" payload))
      end
  end.

Definition step_at (n : Z) : M unit :=
  run ← gets l_run;
  t ← now;
  set_step (λ _, {| st_run_id := RunModel.id run; st_step_number := Z.max 1 n; st_started_at := t;
                    attempt_count := 0; st_tool_call_count := 0; compactions := 0 |}).
(** [isinstance(v, int)], which a [bool] is. *)
Definition as_int (v : json) : option Z :=
  match v with JInt n => Some n | JBool b => Some (Z.b2z b) | _ => None end.
Definition all_answered (calls : list ToolCallItem) (answered : gset string) : bool :=
  forallb (λ c, bool_decide (call_id c ∈ answered)) calls.

(** A fully answered turn whose usage was lost is counted up to its watermark. *)
Definition repair_usage (latest : list ToolCallItem) (answered : gset string) (baseline : option Z) : M unit :=
  match latest, baseline with
  | _ :: _, Some n =>
      if all_answered latest answered then
        s ← get_state;
        let fitted := (_fit_tool_batch (dump_outcome cx) (l_run s) latest (Some n) None false).1 in
        let refused := _budget_refused_calls (conversation (l_checkpoint s)) in
        let performed := length (List.filter (λ c, negb (bool_decide (call_id c ∈ refused))) fitted) in
        let missing := n + Z.of_nat performed - tool_call_count (l_run s) in
        if 0 <? missing then charge_tools (Z.to_nat missing) else mret tt
      else mret tt
  | _, _ => mret tt
  end.
(** The guards of a turn none of whose calls ran. *)
Definition guard_resumed (calls : list ToolCallItem) (requested : option string) : M (option RunOutcome) :=
  s ← get_state;
  t ← now;
  guarded ← lift (guard_tool_turn (l_run s) (working_state (l_checkpoint s)) (identical_call_threshold cx)
                    calls (l_step s) None requested t);
  set_ws (λ _, guarded.2) ≫= λ _, mret guarded.1.

(** The batch to dispatch, with its step, its watermark and whether it was never recorded. *)
Record resumed_batch := {
  rb_calls : list ToolCallItem;
  rb_step_number : Z;
  rb_baseline : Z;
  rb_unrecorded : option Z;
}.
Definition nonempty {A} (l : list A) : bool := match l with [] => false | _ => true end.

(** The log holds a turn the checkpoint never saw. *)
Definition resume_adopted (adopted : list ConversationItem) (latest : list ToolCallItem)
    (answered : gset string) (baseline : option Z) (requested : option string)
    : M (resumed_batch + option RunOutcome) :=
  set_cp (λ c, c <| provider_continuation := None |>) ≫= λ _,
  guarded ← (if nonempty latest && bool_decide (answered = ∅)
             then guard_resumed latest requested else mret None : M (option RunOutcome));
  match guarded with
  | Some o => mret (inr (Some o))
  | None =>
      run ← gets l_run;
      let adopted_baseline := default (tool_call_count run) baseline in
      fitted ← _fit_resumed_batch latest adopted_baseline answered;
      let calls := List.filter (λ c, negb (bool_decide (call_id c ∈ answered))) fitted in
      run ← gets l_run;
      let unrecorded := Z.max 0 (adopted_baseline + Z.of_nat (length fitted) - tool_call_count run) in
      match calls with
      | [] =>
          (if unrecorded =? 0 then mret tt else charge_tools (Z.to_nat unrecorded)) ≫= λ _,
          set_cp (λ c, c <| pending_tool_calls := [] |>) ≫= λ _,
          mret (inr (match last adopted with
                     | Some (AssistantItem m) => Some (completed m)
                     | _ => None
                     end))
      | _ =>
          run ← gets l_run;
          mret (inl {| rb_calls := fitted; rb_step_number := step_count run;
                       rb_baseline := adopted_baseline; rb_unrecorded := Some unrecorded |})
      end
  end.
(** The checkpoint's own batch: its turn, or the calls it recorded as pending. *)
Definition resume_own (turn calls : list ToolCallItem) (answered : gset string)
    (requested : option string) : M (resumed_batch + option RunOutcome) :=
  cp ← gets l_checkpoint;
  match as_int (default (JInt 0) (dict_get "tool_call_count" (budget_state cp))) with
  | None => raise (ConflictError "checkpoint tool-usage watermark is malformed")
  | Some baseline =>
      guarded ← (if nonempty turn && bool_decide (answered = ∅)
                 then guard_resumed turn requested else mret None : M (option RunOutcome));
      match guarded with
      | Some o => mret (inr (Some o))
      | None =>
          calls ← (if nonempty turn then _fit_resumed_batch turn baseline answered
                   else if nonempty calls then _fit_resumed_batch calls baseline answered
                   else mret calls : M (list ToolCallItem));
          match calls with
          | [] => set_cp (λ c, c <| pending_tool_calls := [] |>) ≫= λ _, mret (inr None)
          | _ =>
              s ← get_state;
              let proposed_at := dict_get "step_count" (budget_state (l_checkpoint s)) ≫= as_int in
              mret (inl {| rb_calls := calls; rb_step_number := default (step_count (l_run s)) proposed_at;
                           rb_baseline := baseline; rb_unrecorded := None |})
          end
      end
  end.
(** The dispatch of a resumed batch, its usage counted once, its new results adopted. *)
Definition count_resumed (b : resumed_batch) (results : list ToolResultItem) : M unit :=
  match rb_unrecorded b with
  | Some n => charge_tools (Z.to_nat n)
  | None =>
      run ← gets l_run;
      let recorded := tool_call_count run - rb_baseline b in
      if recorded =? 0 then charge_tools (length results)
      else if recorded =? Z.of_nat (length results) then mret tt
      else raise (ConflictError "persisted tool usage does not match the pending batch")
  end.
Definition dispatch_resumed (b : resumed_batch) (answered : gset string) : M iteration :=
  set_cp (λ c, c <| pending_tool_calls := rb_calls b |>) ≫= λ _,
  step_at (rb_step_number b) ≫= λ _,
  set_cp (λ c, c <| pending_approval_ids := [] |>) ≫= λ _,
  prepare_recall cx (Some (rb_step_number b, rb_baseline b)) ≫= λ _,
  results ← recall_phase (dispatch (rb_calls b));
  set_step (λ st, st <| st_tool_call_count := Z.of_nat (length results) |>) ≫= λ _,
  count_resumed b results ≫= λ _,
  fresh ← with_event_sequences cx
    (List.filter (λ r, negb (bool_decide (tr_call_id r ∈ answered))) results);
  extend (map ResultItem fresh) ≫= λ _,
  ws ← gets (λ s, working_state (l_checkpoint s));
  ws ← lift (apply_tool_evidence ws (rb_calls b));
  set_ws (λ _, ws) ≫= λ _,
  set_cp (λ c, c <| pending_tool_calls := [] |>) ≫= λ _,
  recovered ← recover_browser_failure cx 3 (rb_calls b) results;
  match recovered with
  | None => mret OutOfFuel
  | Some _ => checkpoint cx "tool_recovered" None ≫= λ _, mret Continue
  end.

(** [_resume_pending_tools]: [Continue] is its [None]. *)
Definition _resume_pending_tools : M iteration :=
  cp ← gets l_checkpoint;
  let calls := pending_tool_calls cp in
  let '(turn, answered) := _latest_turn (conversation cp) in
  let turn := if nonempty calls || all_answered turn answered then [] else turn in
  adopted ← _adopt_committed_history;
  cp ← gets l_checkpoint;
  let '(latest, answered) := _latest_turn (conversation cp) in
  controls ← _turn_controls latest;
  run ← gets l_run;
  step_at (step_count run) ≫= λ _,
  repair_usage latest answered controls.1 ≫= λ _,
  batch ← (if existsb (λ x, match x with AssistantItem _ | CallItem _ => true | _ => false end) adopted
           then resume_adopted adopted latest answered controls.1 controls.2
           else resume_own turn calls answered controls.2);
  match batch with
  | inr None => mret Continue
  | inr (Some o) => mret (Return o)
  | inl b => dispatch_resumed b answered
  end.
End context.

(** ** Preparing a run *)
Definition NON_ROUTED_MODEL_POLICIES : list string := ["deterministic"; "fake-balanced"].
Definition initial_checkpoint (run : Run) (t : datetime) : RunCheckpoint :=
  {| cp_run_id := RunModel.id run; cp_version := 0; cp_status := RunModel.status run; conversation := [];
     pending_tool_calls := []; pending_approval_ids := []; tool_pins_initialized := false;
     pinned_tool_names := []; pinned_tool_versions := []; pinned_tool_specs := [];
     working_state := []; loaded_skills := []; compacted_summary := None;
     summary_source_event_ids := []; summary_elided := []; replaced_through_sequence := 0;
     summary_depth := 0; compactor_version := None; budget_state := []; recall_work := None;
     last_event_sequence := 0; provider_continuation := None; cp_provider_pin := None;
     context_origin_trust := USER; cp_created_at := t |}.

(** [runtime/scheduled_browser.py] *)
Definition is_browser_schedule (metadata : dict) : bool :=
  bool_decide (is_Some (dict_get "schedule_id" metadata)) &&
  bool_decide (is_Some (dict_get SESSION_BROWSER_PROFILE_METADATA_KEY metadata)).
Definition scheduled_profile (metadata : dict) (who : Principal.t) : M BrowserProfile :=
  match parse_uuid (ex_context ex)
          (py_str (ex_context ex) (default JNull (dict_get SESSION_BROWSER_PROFILE_METADATA_KEY metadata))) with
  | None => raise (ScheduledBrowserUnavailableError "tool.browser.profile_unavailable")
  | Some u =>
      catch (world (browser_profiles_get u who))
        (λ e, match e with
         | NotFoundError _ | ValueError _ =>
             Some (raise (ScheduledBrowserUnavailableError "tool.browser.profile_unavailable"))
         | _ => None
         end)
  end.
Definition validate_scheduled_browser (metadata : dict) (who : Principal.t) : M unit :=
  if negb (is_browser_schedule metadata) then mret tt
  else if negb (bool_decide ("browser.profile.read" ∈ Principal.scopes who))
  then raise (ScheduledBrowserUnavailableError "policy.scope.missing")
  else
    profile ← scheduled_profile metadata who;
    match bp_status profile with
    | AUTHENTICATION_REQUIRED => raise (ScheduledBrowserUnavailableError "tool.browser.authentication_required")
    | NEEDS_USER => raise (ScheduledBrowserUnavailableError "tool.browser.needs_user")
    | PROFILE_READY => mret tt
    | _ => raise (ScheduledBrowserUnavailableError "tool.browser.profile_unavailable")
    end.
Definition require_scheduled_browser_tools (metadata : dict) (plan : ContextPlan) : result unit :=
  if is_browser_schedule metadata &&
     negb (bool_decide ("browser.navigate" ∈ plan_tool_names plan) &&
           bool_decide ("browser.observe" ∈ plan_tool_names plan))
  then Raise (ScheduledBrowserUnavailableError "tool.browser.provider_unavailable") else Ok tt.

(** [chat_reasoning_effort] *)
Definition chat_reasoning_effort (choice : ModelChoice) (accepted : list ReasoningEffort)
    : option ReasoningEffort :=
  match choice_effort choice with
  | Some e => if existsb (λ a, String.eqb (ReasoningEffort_value a) (ReasoningEffort_value e)) accepted
              then Some e else None
  | None => None
  end.

Definition _register_snapshot_use (plan : ContextPlan) (who : Principal.t) : M unit :=
  match plan_snapshot_id plan with
  | None => mret tt
  | Some u =>
      if String.eqb (plan_memory_snapshot plan) "" then mret tt
      else in_uow (
        world (people_lock who) ≫= λ _,
        catch (world (traces_get u who))
          (λ e, match e with
           | NotFoundError _ => Some (raise (RunCancelledError "memory snapshot was erased before use"))
           | _ => None
           end) ≫= λ _,
        append_leased "context.snapshot.used"
          [("snapshot_id", JStr (LoopPorts.uuid_str (ex_context ex) u)); ("epoch", JInt (plan_epoch plan))] ≫= λ _,
        mret tt)
  end.

Definition planned_versions (plan : ContextPlan) : dict :=
  foldl (λ d s, dict_set s.1.1 (JStr s.1.2) d) [] (plan_pinned_specs plan).
Definition planned_specs (plan : ContextPlan) : dict :=
  foldl (λ d s, dict_set s.1.1 s.2 d) [] (plan_pinned_specs plan).
Definition versions_dict (versions : list (string * string)) : dict := map (λ kv, (kv.1, JStr kv.2)) versions.
Definition pins_persisted (cp : RunCheckpoint) : bool :=
  tool_pins_initialized cp || nonempty (pinned_tool_names cp) || nonempty (pinned_tool_versions cp) ||
  nonempty (pinned_tool_specs cp).
Definition _apply_tool_pins (cp : RunCheckpoint) (plan : ContextPlan) (restored : bool)
    : result RunCheckpoint :=
  let names := map (λ s, s.1.1) (plan_pinned_specs plan) in
  if restored && pins_persisted cp then
    if bool_decide (pinned_tool_names cp = names) &&
       dict_eqb (versions_dict (pinned_tool_versions cp)) (planned_versions plan) &&
       dict_eqb (pinned_tool_specs cp) (planned_specs plan)
    then Ok (cp <| tool_pins_initialized := true |>)
    else Raise (ConflictError "the current context plan does not match the run's persisted tool pins")
  else if restored && nonempty (pending_tool_calls cp)
  then Raise (ConflictError "a restored run has pending calls without persisted tool pins")
  else Ok (cp <| pinned_tool_names := names |>
              <| pinned_tool_versions :=
                   omap (λ kv, match kv.2 with JStr v => Some (kv.1, v) | _ => None end) (planned_versions plan) |>
              <| pinned_tool_specs := planned_specs plan |>
              <| tool_pins_initialized := true |>).

(** What the first transaction reads. *)
Record loaded := {
  ld_agent : Agent;
  ld_metadata : dict;
  ld_owner_submitted : bool;
  ld_chat_choice : option ModelChoice;
}.
Definition owner_submitted (seed : option EventEnvelope) (run : Run) (who : Principal.t) : bool :=
  match seed with
  | None => false
  | Some e => bool_decide (ev_run_id (env_event e) = Some (RunModel.id run)) &&
              String.eqb (ev_actor_type (env_event e)) "principal" &&
              bool_decide (ev_actor_id (env_event e) = Some (Principal.principal_id who))
  end.
Definition load (who : Principal.t) : M loaded :=
  run ← gets l_run;
  in_uow (
    agent ← world (agents_get_version (RunModel.agent_id run) (RunModel.agent_version run));
    metadata ← world (sessions_metadata (RunModel.session_id run) who);
    seed ← world (events_latest_before (RunModel.session_id run) (seed_event_sequence run + 1)
                    "user.message.created" who None);
    let owned := owner_submitted seed run who in
    (if owned then mret tt else validate_scheduled_browser metadata who) ≫= λ _,
    lift (ex_validate_browser_binding ex metadata) ≫= λ _,
    choice ← (match ex_effective_chat ex with
              | None => mret None
              | Some effective => stored ← world (model_settings_current who); mret (Some (effective stored))
              end : M (option ModelChoice));
    mret {| ld_agent := agent; ld_metadata := metadata; ld_owner_submitted := owned;
            ld_chat_choice := choice |}).

(** The pinned model, and whether this generation created the pin. *)
Definition pin_model (policy : string) : M (ResolvedModel * bool) :=
  s ← get_state;
  set_cp (λ c, match cp_provider_pin c with
               | None => c <| cp_provider_pin := provider_pin (l_run s) |>
               | Some _ => c
               end) ≫= λ _,
  cp ← gets l_checkpoint;
  match cp_provider_pin cp with
  | None =>
      resolved ← world (router_resolve policy (RunModel.tenant_id (l_run s)));
      pin ← (λ s, let '(pin, w) := router_pin (RunModel.id (l_run s)) resolved (l_world s) in
                  (Ok pin, s <| l_world := w |>)) : M ProviderPin;
      set_cp (λ c, c <| cp_provider_pin := Some pin |>) ≫= λ _,
      set_run (λ run, run <| provider_pin := Some pin |>) ≫= λ _,
      in_uow (world (runs_set_provider_pin (RunModel.id (l_run s)) pin)) ≫= λ _,
      mret (resolved, true)
  | Some pin =>
      resolved ← world (router_resolve_pinned pin);
      mret ({| rm_provider := rm_provider resolved; rm_model := rm_model resolved;
               rm_policy_name := policy |}, false)
  end.
Definition choose_model (agent : Agent) : M (ResolvedModel * bool) :=
  let policy := agent_model_policy agent in
  if ex_has_router ex && negb (bool_decide (policy ∈ NON_ROUTED_MODEL_POLICIES)) then
    pinned ← pin_model policy;
    cp ← gets l_checkpoint;
    (if match provider_continuation cp with
        | Some k => negb (String.eqb (pc_provider k) (rm_provider pinned.1))
        | None => false
        end
     then raise (ConflictError "provider continuation does not match the persisted pin")
     else if negb (ex_has_provider ex (rm_provider pinned.1))
     then raise (RuntimeError "the pinned model provider has no registered adapter")
     else modify (λ s, s <| l_world := bind_provider (rm_provider pinned.1) (l_world s) |>)) ≫= λ _,
    mret pinned
  else mret (ex_resolved_model ex, false).

(** The run's context. *)
Definition context_for (who : Principal.t) (resolved : ResolvedModel) (plan : ContextPlan)
    (typed : bool) (choice : option ModelChoice) : RunContext :=
  (ex_context ex)
    <| principal := who |> <| resolved_model := resolved |> <| LoopPorts.lease := lease |>
    <| available_tools := plan_tool_names plan |>
    <| context_effort := match choice with
                         | Some c => if typed then None
                                     else chat_reasoning_effort c (ex_reasoning_efforts ex resolved)
                         | None => None
                         end |>
    <| context_summary := negb typed && bool_decide (is_Some choice) |>.
Definition seed (who : Principal.t) : M unit :=
  run ← gets l_run;
  cp ← in_uow (world (seed_checkpoint run lease who));
  set_cp (λ _, cp).
Definition prepare (who : Principal.t) (restored : bool) : M RunContext :=
  ((if restored then mret tt else seed who) : M unit) ≫= λ _,
  ld ← load who;
  chosen ← choose_model (ld_agent ld);
  run ← gets l_run;
  typed ← ((if ex_has_typed_task ex then world (typed_task run who) else mret false) : M bool);
  cp ← gets l_checkpoint;
  let preserve := pins_persisted cp || nonempty (pending_tool_calls cp) in
  plan ← world (plan_context (ld_metadata ld) (ld_agent ld) who chosen.1 (negb typed) (negb preserve) preserve);
  (if ld_owner_submitted ld then mret tt
   else lift (require_scheduled_browser_tools (ld_metadata ld) plan)) ≫= λ _,
  _register_snapshot_use plan who ≫= λ _,
  cp ← gets l_checkpoint;
  pinned ← lift (_apply_tool_pins cp plan restored);
  set_cp (λ _, pinned) ≫= λ _,
  modify (λ s, s <| l_world := on_token (RunModel.id run) (l_world s) |>) ≫= λ _,
  let cx := context_for who chosen.1 plan typed (ld_chat_choice ld) in
  ((if (chosen.2 : bool) then checkpoint cx "provider_pinned" None else mret tt) : M unit) ≫= λ _,
  mret cx.

(** ** Executing *)
(** The task, or the resumption, with what a suspension of either becomes. *)
Definition suspend_for (cx : RunContext) (e : exn) : option (M iteration) :=
  match e with
  | ApprovalRequiredError a => Some (
      set_cp (λ c, c <| pending_approval_ids :=
        if bool_decide (a ∈ pending_approval_ids c) then pending_approval_ids c
        else (pending_approval_ids c ++ [a])%list |>) ≫= λ _,
      checkpoint cx "suspended" None ≫= λ _,
      mret (Return (suspended [("kind", JStr "approval");
                               ("approval_id", JStr (LoopPorts.uuid_str cx a))])))
  | ChildRunRequiredError d i children => Some (
      checkpoint cx "suspended" None ≫= λ _,
      mret (Return (suspended [("kind", JStr "child_run");
                               ("delegation_id", JStr (LoopPorts.uuid_str cx d));
                               ("invocation_id", JStr (LoopPorts.uuid_str cx i));
                               ("child_run_ids", JArr (map (λ c, JStr (LoopPorts.uuid_str cx c)) children))])))
  | UserInputRequiredError q i => Some (
      pending ← gets (λ s, pending_tool_calls (l_checkpoint s));
      open_question cx (ask_user_question pending) q ≫= λ _,
      mret (Return (suspended [("kind", JStr "user"); ("question_id", JStr (LoopPorts.uuid_str cx q));
                               ("invocation_id", JStr (LoopPorts.uuid_str cx i))])))
  | _ => None
  end.
Definition resume (cx : RunContext) : M iteration :=
  catch (prepare_browser_connection_question cx ≫= λ _,
         task ← (match ex_task_runner ex with Some f => f cx | None => mret None end : M (option RunOutcome));
         match task with
         | Some o => mret (Return o)
         | None => _resume_pending_tools cx
         end)
    (suspend_for cx).
Definition loop_fuel (run : Run) : nat := S (Z.to_nat (max_steps (limits run) - step_count run)).
Definition perform (who : Principal.t) (restored : bool) : M (option RunOutcome) :=
  cx ← prepare who restored;
  i ← resume cx;
  match i with
  | Return o => mret (Some o)
  | OutOfFuel => mret None
  | Continue => run ← gets l_run; run_loop cx (loop_fuel run)
  end.

(** What the exceptions of an execution become. *)
Definition exception_failure (e : exn) (why : FailureReason) (m : string) (d : gmap string detail)
    (counted : bool) : M RunOutcome :=
  run ← gets l_run;
  t ← now;
  mret (failed {| reason := why; error_class := ex_class_name ex e; RunModel.message := m;
                  RunModel.step_number := if counted then step_or_none run else None;
                  RunModel.attempt_number := None; occurred_at := t; details := d |}).
Definition budget_reason (r : string) : FailureReason :=
  if String.eqb r (FailureReason_value MAX_STEPS_EXCEEDED) then MAX_STEPS_EXCEEDED
  else if String.eqb r (FailureReason_value DEADLINE_EXCEEDED) then DEADLINE_EXCEEDED
  else BUDGET_EXCEEDED.
Definition outcome_of_exception (e : exn) : M RunOutcome :=
  match e with
  | RunCancelledError _ =>
      r ← reason_now; mret (if bool_decide (r = Some FENCED) then fenced else cancelled)
  | BudgetExceededError r _ => exception_failure e (budget_reason r) (ex_message ex e) ∅ true
  | ContextOverflow _ => exception_failure e CONTEXT_OVERFLOW (ex_message ex e) ∅ true
  | ScheduledBrowserUnavailableError code =>
      exception_failure e AUTHORIZATION_ERROR "Scheduled website access is unavailable."
        {[ "reason_code" := DStr code ]} false
  | WorkerFencedError _ => mret fenced
  | ProviderPinUnavailableError _ => exception_failure e MODEL_PERMANENT_ERROR (ex_message ex e) ∅ true
  | _ =>
      if bool_decide (is_Some lease) && is_capacity e then raise e
      else
        u ← fresh_id;
        exception_failure e INTERNAL_ERROR "An unexpected internal error ended the run"
          (ex_log_failure ex e "run" u) true
  end.

(** The outcome settled, and then the children of a parked parent started. *)
Definition start_children (o : RunOutcome) : M unit :=
  if ex_has_child_callback ex && child_run_suspension o then
    run ← gets l_run;
    catch (match suspension o ≫= dict_get "delegation_id" with
           | None => raise (KeyError "delegation_id")
           | Some raw =>
               match parse_uuid (ex_context ex) (py_str (ex_context ex) raw) with
               | None => raise (ValueError "badly formed hexadecimal UUID string")
               | Some d => world (child_suspension (RunModel.id run) d)
               end
           end)
      (λ _, Some (mret tt))
  else mret tt.
Definition conclude (who : Principal.t) (o : RunOutcome) : M unit :=
  settled ← catch (finalize who o ≫= λ _, mret true)
    (λ e, match e with
     | WorkerFencedError _ => if bool_decide (is_Some lease) then Some (mret false) else None
     | _ => None
     end);
  if (settled : bool) then start_children o else mret tt.

(** [_execute_running]; [false] is an execution out of fuel, which does not happen. *)
Definition identify : M (Principal.t * bool) :=
  s ← get_state;
  persisted ← in_uow (world (checkpoints_latest (RunModel.id (l_run s))));
  (match persisted with Some cp => set_cp (λ _, cp) | None => mret tt end) ≫= λ _,
  who ← world (principals_for_run (l_run s));
  mret (who, bool_decide (is_Some persisted)).
Definition _execute_running : M bool :=
  run ← gets l_run;
  t ← now;
  set_cp (λ _, initial_checkpoint run t) ≫= λ _,
  identified ← catch (x ← identify; mret (inl x)) (λ e, Some (o ← outcome_of_exception e; mret (inr o)));
  match identified with
  | inr o => conclude (ex_principal ex) o ≫= λ _, mret true
  | inl (who, restored) =>
      o ← catch (perform who restored) (λ e, Some (o ← outcome_of_exception e; mret (Some o)));
      match o with
      | None => mret false
      | Some o => conclude who o ≫= λ _, mret true
      end
  end.

(** [_complete_run], however the execution ended. *)
Definition complete_run {A} (lease_epoch : option Z) (m : M A) : M A := λ s,
  let '(r, s') := m s in
  let i := RunModel.id (l_run s') in
  let w := (on_run_complete i lease_epoch (l_world s')).2 in
  (r, s' <| l_world := on_token_complete i w |>).
Definition execute_claimed : M bool :=
  complete_run (lease_epoch_held <$> lease) _execute_running.
Definition execute : M bool :=
  run ← gets l_run;
  started ← in_uow (
    run ← world (runs_transition (RunModel.id run) QUEUED RUNNING None None None);
    set_run (λ _, run) ≫= λ _,
    append_leased "run.started" [("attempt", JInt (attempts run + 1))]);
  complete_run None _execute_running.
End executor.
