(* ===== verification/ExecutorFrame.v ===== *)
(** * Frames of an execution

    What every port keeps, the preparation, the resumption and the loop of an execution
    keep: everything but its finalization. *)
From S2P Require Import Prelude StateLogic PyDecimal ToolInvocations Approvals EventModel RunModel RunSpec Sessions Cancellation Budgets PolicyModel Messages ModelStream Checkpoints LoopGuards LoopPorts Recall RunLoop LoopFrame Executor.

(** The executor's ports, but for those that settle a run. *)
Class ExecutorFrame (W : Type) `{LoopPorts W, CheckpointWriter W, BudgetLedger W, ExecutorPorts W}
    (Rin R : W → W → Prop) : Prop := {
  frame_latest i w : Rin w (checkpoints_latest i w).2;
  frame_seed run l p w : Rin w (seed_checkpoint run l p w).2;
  frame_pin i p w : Rin w (runs_set_provider_pin i p w).2;
  frame_approval a p w : Rin w (approvals_get a p w).2;
  frame_catch_up i w : Rin w (history_catch_up i w).2;
  frame_history i n w : Rin w (history_read i n w).2;
  frame_before a b c d e w : Rin w (events_latest_before a b c d e w).2;
  frame_lock p w : Rin w (people_lock p w).2;
  frame_trace i p w : Rin w (traces_get i p w).2;
  frame_agent i v w : Rin w (agents_get_version i v w).2;
  frame_settings p w : Rin w (model_settings_current p w).2;
  frame_reason w : R w (token_reason w).2;
  frame_principal run w : R w (principals_for_run run w).2;
  frame_resolve p t w : R w (router_resolve p t w).2;
  frame_router_pin i m w : R w (router_pin i m w).2;
  frame_resolve_pinned p w : R w (router_resolve_pinned p w).2;
  frame_bind p w : R w (bind_provider p w);
  frame_typed run p w : R w (typed_task run p w).2;
  frame_context a b c d e f g w : R w (plan_context a b c d e f g w).2;
  frame_on_token i w : R w (on_token i w);
  frame_children a b w : R w (child_suspension a b w).2;
}.
Ltac port_frame ::=
  (first [eapply frame_append | eapply frame_token | eapply frame_counters | eapply frame_events
        | eapply frame_invocations | eapply frame_artifacts | eapply frame_retain | eapply frame_sessions
        | eapply frame_profiles | eapply frame_assemble | eapply frame_compact | eapply frame_callback
        | eapply frame_latest | eapply frame_seed | eapply frame_pin | eapply frame_approval
        | eapply frame_catch_up | eapply frame_history | eapply frame_before | eapply frame_lock
        | eapply frame_trace | eapply frame_agent | eapply frame_settings | eapply frame_principal
        | eapply frame_resolve | eapply frame_resolve_pinned | eapply frame_typed | eapply frame_context
        | eapply frame_children]); try eassumption; try apply _.

Section executor.
Context {W : Type} `{LoopPorts W, CheckpointWriter W, BudgetLedger W, ExecutorPorts W}
  (Rin R : W → W → Prop) `{!BudgetLedgerLaws W, !WorldFrame W Rin R, !ExecutorFrame W Rin R} (ex : RunExecutor W) (lease : option WorkerLease).
Abbreviation M := (stateM (LoopState W)).
Abbreviation framed m := (keeps (on_world R) m).
Abbreviation framed_in m := (keeps (on_world Rin) m).
(** The task runner is given the context, and keeps what the ports keep. *)
Hypothesis task_frame : ∀ f cx, ex_task_runner ex = Some f → framed (f cx).
#[local] Instance executor_in : Ticking W Rin := frame_inside.
#[local] Instance executor_out : Ticking W R := frame_outside.

Lemma framed_reason : framed reason_now.
Proof.
  intros s. unfold on_world, reason_now. pose proof (frame_reason (R:=R) (l_world s)).
  by destruct (token_reason _).
Qed.
Lemma framed_append_leased t p : framed_in (append_leased lease t p).
Proof. unfold append_leased. framed. Qed.
#[local] Hint Resolve framed_reason framed_append_leased : ports.

(** ** Resuming *)
Section resume.
Context (cx : RunContext).
Lemma framed_adopt : framed (_adopt_committed_history).
Proof. unfold _adopt_committed_history. framed. Qed.
Lemma framed_decided ids : framed_in (decided_invocations cx ids).
Proof. induction ids; cbn [decided_invocations]; framed. Qed.
#[local] Hint Resolve framed_adopt framed_decided : ports.
Lemma framed_resolved : framed (_resolved_approval_calls cx).
Proof. unfold _resolved_approval_calls. framed. Qed.
#[local] Hint Resolve framed_resolved : ports.
Lemma framed_fit turn used answered : framed (_fit_resumed_batch cx turn used answered).
Proof. unfold _fit_resumed_batch. cbn zeta. framed. Qed.
Lemma framed_controls calls : framed (_turn_controls cx calls).
Proof. unfold _turn_controls. cbn zeta. framed. Qed.
Lemma framed_step_at n : framed (step_at n).
Proof. unfold step_at. framed. Qed.
Lemma framed_repair l a b : framed (repair_usage cx l a b).
Proof. unfold repair_usage. cbn zeta. framed. Qed.
Lemma framed_guard_resumed calls r : framed (guard_resumed cx calls r).
Proof. unfold guard_resumed. framed. Qed.
#[local] Hint Resolve framed_fit framed_controls framed_step_at framed_repair framed_guard_resumed : ports.
Lemma framed_resume_adopted a l n b r : framed (resume_adopted cx a l n b r).
Proof. unfold resume_adopted. cbn zeta. framed. Qed.
Lemma framed_resume_own t c a r : framed (resume_own cx t c a r).
Proof. unfold resume_own. cbn zeta. framed. Qed.
Lemma framed_count_resumed b rs : framed (count_resumed b rs).
Proof. unfold count_resumed. cbn zeta. framed. Qed.
#[local] Hint Resolve framed_resume_adopted framed_resume_own framed_count_resumed : ports.
Lemma framed_dispatch_resumed b a : framed (dispatch_resumed cx b a).
Proof. unfold dispatch_resumed. cbn zeta. framed. Qed.
#[local] Hint Resolve framed_dispatch_resumed : ports.
Lemma framed_resume_pending : framed (_resume_pending_tools cx).
Proof. unfold _resume_pending_tools. cbn zeta. framed. Qed.
#[local] Hint Resolve framed_resume_pending : ports.
Lemma framed_resume : framed (resume ex cx).
Proof.
  unfold resume. apply framed_catch; [apply _| |].
  - framed.
  - intros e k Hk. unfold suspend_for in Hk. destruct e; simplify_eq; framed.
Qed.
End resume.
#[local] Hint Resolve framed_resume : ports.

(** ** Preparing *)
Lemma framed_scheduled metadata who : framed_in (validate_scheduled_browser ex metadata who).
Proof.
  unfold validate_scheduled_browser, scheduled_profile. framed.
  apply framed_catch; [apply _|framed|]. intros e k Hk. destruct e; simplify_eq; framed.
Qed.
#[local] Hint Resolve framed_scheduled : ports.
Lemma framed_load who : framed (load ex who).
Proof. unfold load. cbn zeta. framed. Qed.
Lemma framed_snapshot plan who : framed (_register_snapshot_use ex lease plan who).
Proof.
  unfold _register_snapshot_use. framed.
  apply framed_catch; [apply _|framed|]. intros e k Hk. destruct e; simplify_eq; framed.
Qed.
Lemma framed_pin_model policy : framed (pin_model policy).
Proof.
  unfold pin_model. framed.
  intros s. unfold on_world. pose proof (frame_router_pin (R:=R)) as Hp.
  match goal with |- context [router_pin ?i ?m ?w] => specialize (Hp i m w); by destruct (router_pin i m w) end.
Qed.
#[local] Hint Resolve framed_load framed_snapshot framed_pin_model : ports.
Lemma framed_choose_model agent : framed (choose_model ex agent).
Proof.
  unfold choose_model. cbn zeta. framed. apply framed_modify. intros ?. cbn. split; [apply frame_bind|done].
Qed.
Lemma framed_seed who : framed (seed lease who).
Proof. unfold seed. framed. Qed.
#[local] Hint Resolve framed_choose_model framed_seed : ports.
Lemma framed_prepare who restored : framed (prepare ex lease who restored).
Proof.
  unfold prepare. cbn zeta. framed. apply framed_modify. intros ?. cbn. split; [apply frame_on_token|done].
Qed.
#[local] Hint Resolve framed_prepare : ports.
Lemma framed_perform who restored : framed (perform ex lease who restored).
Proof. unfold perform. framed. Qed.
Lemma framed_identify : framed identify.
Proof. unfold identify. framed. Qed.
Lemma framed_exception e : framed (outcome_of_exception ex lease e).
Proof. unfold outcome_of_exception, exception_failure. framed. Qed.
Lemma framed_start_children o : framed (start_children ex o).
Proof.
  unfold start_children. framed. apply framed_catch; [apply _|framed|].
  intros e k [= <-]. framed.
Qed.
End executor.
