(* ===== verification/ExecutorSpec.v ===== *)
(** * What an execution makes durable

    A unit of work stages its writes and its commit makes them durable together. Over any
    world that journals its writes so, finalization commits one settlement of the run or
    none, whichever port fails, and an execution settles its run at most once. *)
From S2P Require Import Prelude StateLogic PyDecimal ToolInvocations Approvals EventModel RunModel RunSpec Sessions Cancellation Budgets PolicyModel Messages ModelStream Checkpoints LoopGuards LoopPorts Recall RunLoop RunLoopSpec LoopFrame Executor ExecutorFrame.

(** ** The journal of a database *)
Inductive write :=
| WEvent (e : NewEvent) (sequence : Z)
| WCheckpoint (run : UUID) (cp : RunCheckpoint)
| WTransition (run : UUID) (from to : RunStatus) (f : option RunFailure) (m : option string)
| WRelease (l : WorkerLease) (st : RunStatus)
| WNotify (n : RunNotification)
| WReply (r : SurfaceReply)
| WCancelApprovals (run : UUID).

Class Journal (W : Type) := { committed : W → list write; staged : W → list write }.

Section journal.
Context {W : Type} `{LoopPorts W, CheckpointWriter W, BudgetLedger W, ExecutorPorts W, Journal W}.

Definition unwritten (w w' : W) : Prop := committed w' = committed w ∧ staged w' = staged w.
(** A call stages what it answers for, or nothing when it raises. *)
Definition stages {A} (f : W → result A * W) (g : A → list write) : Prop := ∀ w,
  match f w with
  | (Ok a, w') => committed w' = committed w ∧ staged w' = (staged w ++ g a)%list
  | (Raise _, w') => unwritten w w'
  end.
Abbreviation reads f := (stages f (λ _, [])).
End journal.

Class JournalLaws (W : Type) `{LoopPorts W, CheckpointWriter W, BudgetLedger W, ExecutorPorts W, Journal W}
    : Prop := {
  journal_clock w : unwritten w (clock_now w).2;
  journal_id w : unwritten w (new_id w).2;
  journal_reason w : unwritten w (token_reason w).2;
  journal_commit w :
    match uow_commit w with
    | (Ok _, w') => committed w' = (committed w ++ staged w)%list ∧ staged w' = []
    | (Raise _, w') => committed w' = committed w
    end;
  journal_rollback w w' : committed (uow_rollback w w') = committed w' ∧ staged (uow_rollback w w') = [];
  journal_append e l : stages (events_append e l) (λ n, [WEvent e n]);
  journal_checkpoint i cp l : stages (checkpoints_write_full i cp l) (λ _, [WCheckpoint i cp]);
  journal_transition i a b f m l : stages (runs_transition i a b f m l) (λ _, [WTransition i a b f m]);
  journal_release release l st :
    queue_release = Some release → stages (release l st) (λ _, [WRelease l st]);
  journal_notify n : stages (notify_transition n) (λ _, [WNotify n]);
  journal_reply r : stages (replies_enqueue r) (λ _, [WReply r]);
  journal_cancel i : stages (approvals_cancel_for_run i) (λ _, [WCancelApprovals i]);
  journal_probe b : stages (write_probe b) (λ _, []);
  journal_approval a p : stages (approvals_get a p) (λ _, []);
  journal_latest a b c d e : stages (events_latest_before a b c d e) (λ _, []);
  journal_surface i : stages (surfaces_for_session i) (λ _, []);
}.

(** ** Computations that stage writes *)
Section staging.
Context {W : Type} `{JournalLaws W}.
Abbreviation M := (stateM (LoopState W)).

(** [m] commits nothing; when it returns, what it staged satisfies [P]. *)
Definition journals {A} (m : M A) (P : LoopState W → A → LoopState W → list write → Prop) : Prop :=
  ∀ s, let '(r, s') := m s in
  committed (l_world s') = committed (l_world s) ∧
  match r with
  | Ok a => ∃ ws, staged (l_world s') = (staged (l_world s) ++ ws)%list ∧ P s a s' ws
  | Raise _ => True
  end.

Lemma journals_bind {A B} (m : M A) (f : A → M B) P Q :
  journals m P → (∀ a, journals (f a) (Q a)) →
  journals (m ≫= f) (λ s b s' ws, ∃ a s1 w1 w2, P s a s1 w1 ∧ Q a s1 b s' w2 ∧ ws = (w1 ++ w2)%list).
Proof.
  intros Hm Hf s. specialize (Hm s). unfold mbind, stateM_bind.
  destruct (m s) as [[a|e] s1]; [|by destruct Hm]. destruct Hm as (Hc & w1 & Hw & HP).
  specialize (Hf a s1). destruct (f a s1) as [[b|e] s2]; destruct Hf as [Hc' Hf]; (split; [congruence|]); [|done].
  destruct Hf as (w2 & Hw2 & HQ). exists (w1 ++ w2)%list. rewrite Hw2, Hw, (assoc_L app). split; [done|].
  by exists a, s1, w1, w2.
Qed.
Lemma journals_weaken {A} (m : M A) (P Q : LoopState W → A → LoopState W → list write → Prop) :
  journals m P → (∀ s a s' ws, P s a s' ws → Q s a s' ws) → journals m Q.
Proof.
  intros Hm HPQ s. specialize (Hm s). destruct (m s) as [[a|e] s']; [|done].
  destruct Hm as (Hc & ws & Hw & HP). split; [done|]. exists ws. auto.
Qed.

(** The objects and the step are what they were. *)
Definition same_objects (s s' : LoopState W) : Prop := l_run s' = l_run s ∧ l_checkpoint s' = l_checkpoint s.
#[export] Instance same_objects_pre : PreOrder same_objects.
Proof. split; [by intros s|]. intros a b c [? ?] [? ?]. split; congruence. Qed.

Lemma journals_ret {A} (a : A) : journals (mret a) (λ s b s' ws, b = a ∧ s' = s ∧ ws = []).
Proof. intros s. cbn. split; [done|]. exists []. by rewrite app_nil_r. Qed.
Lemma journals_raise {A} e P : journals (raise e : M A) P.
Proof. intros s. done. Qed.
Lemma journals_gets {A} (f : LoopState W → A) : journals (gets f) (λ s b s' ws, b = f s ∧ s' = s ∧ ws = []).
Proof. intros s. cbn. split; [done|]. exists []. by rewrite app_nil_r. Qed.
Lemma journals_get_state : journals get_state (λ s b s' ws, b = s ∧ s' = s ∧ ws = []).
Proof. intros s. cbn. split; [done|]. exists []. by rewrite app_nil_r. Qed.
Lemma journals_world {A} (f : W → result A * W) g :
  stages f g → journals (world f) (λ s a s' ws, same_objects s s' ∧ ws = g a).
Proof.
  intros Hf s. specialize (Hf (l_world s)). unfold world.
  destruct (f (l_world s)) as [[a|e] w]; destruct Hf as [Hc Hs]; (split; [done|]); [|done].
  by exists (g a).
Qed.
Lemma journals_quiet {A} (f : W → A * W) :
  (∀ w, unwritten w (f w).2) →
  journals (λ s, let '(a, w) := f (l_world s) in (Ok a, s <| l_world := w |>))
    (λ s a s' ws, same_objects s s' ∧ ws = []).
Proof.
  intros Hf s. specialize (Hf (l_world s)). destruct (f (l_world s)) as [a w]. destruct Hf as [Hc Hs].
  split; [done|]. exists []. by rewrite app_nil_r.
Qed.
Lemma journals_set_cp f :
  journals (set_cp f) (λ s _ s' ws, l_run s' = l_run s ∧ l_checkpoint s' = f (l_checkpoint s) ∧ ws = []).
Proof. intros s. cbn. split; [done|]. exists []. by rewrite app_nil_r. Qed.

(** A unit of work entered with nothing staged: all of what its body staged, or nothing. *)
Lemma in_uow_atomic {A} (body : M A) P s :
  journals body P → staged (l_world s) = [] →
  let '(r, s') := in_uow body s in
  staged (l_world s') = [] ∧
  match r with
  | Ok a => ∃ ws s1, P s a s1 ws ∧ same_objects s1 s' ∧
              committed (l_world s') = (committed (l_world s) ++ ws)%list
  | Raise _ => committed (l_world s') = committed (l_world s)
  end.
Proof.
  intros Hb Hn. specialize (Hb s). unfold in_uow. destruct (body s) as [[a|e] s1].
  - destruct Hb as (Hc & ws & Hs & HP). rewrite Hn in Hs. cbn in Hs.
    pose proof (journal_commit (l_world s1)) as Hcm.
    destruct (uow_commit (l_world s1)) as [[[]|e] w].
    + destruct Hcm as [Hcm Hst]. split; [done|]. exists ws, s1. split_and!; [done..|].
      cbn. by rewrite Hcm, Hc, Hs.
    + destruct (journal_rollback (l_world s) w) as [Hr1 Hr2]. split; [done|]. cbn. by rewrite Hr1, Hcm, Hc.
  - destruct Hb as [Hc _]. destruct (journal_rollback (l_world s) (l_world s1)) as [Hr1 Hr2].
    split; [done|]. cbn. by rewrite Hr1, Hc.
Qed.
End staging.

(** ** What a settlement writes *)
Section settlement.
Context {W : Type} `{JournalLaws W} (ex : RunExecutor W) (lease : option WorkerLease).
Abbreviation M := (stateM (LoopState W)).

(** The event of the approval a suspension waits on, and the sequence the checkpoint ends at. *)
Definition requests (run : Run) (n : Z) (approval : option UUID) (last : Z) (ws : list write) : Prop :=
  match approval with
  | None => ws = [] ∧ last = n
  | Some a => ws = [WEvent (runtime_event run "approval.requested"
                      [("approval_id", JStr (LoopPorts.uuid_str (ex_context ex) a))]) last]
  end.
Definition released (st : RunStatus) : list write :=
  match lease with Some l => [WRelease l st] | None => [] end.
(** One settlement of [run]: its event, the approval's, the notification, a checkpoint that
    ends at the last event, the one transition out of RUNNING, the reply owed to a surface
    and the release of the lease, in this order and in one transaction. *)
Definition settles (run : Run) (cp : RunCheckpoint) (o : RunOutcome) (st : settlement) (ws : list write) : Prop :=
  ∃ n approval last requested notices replies,
    ws = ([WEvent (runtime_event run (se_event_type st) (se_payload st)) n] ++ requested ++ notices ++
          [WCheckpoint (RunModel.id run) (cp <| last_event_sequence := last |>);
           WTransition (RunModel.id run) RUNNING (se_status st) (se_failure st) (se_final_message st)] ++
          replies ++ released (se_status st))%list ∧
    requests run n approval last requested ∧
    (is_Some approval ↔ outcome_kind o = OUTCOME_SUSPENDED ∧ se_status st = WAITING_FOR_APPROVAL ∧
                        child_run_suspension o = false) ∧
    (notices = [] ∨ ∃ x, notices = [WNotify x] ∧ rn_run x = run ∧ rn_status x = se_status st) ∧
    (replies = [] ∨ ∃ r, replies = [WReply r] ∧ sr_run_id r = RunModel.id run ∧
                         is_terminal (se_status st) = true).

Lemma journals_append t p :
  journals (append_leased lease t p) (λ s n s' ws, same_objects s s' ∧
    ws = [WEvent (runtime_event (l_run s) t p) n]).
Proof.
  eapply journals_weaken.
  { apply (journals_bind (gets l_run)); [apply journals_gets|intros run; apply journals_world, journal_append]. }
  intros s n s' ws (run & s1 & w1 & w2 & (-> & -> & ->) & (Ho & ->) & ->). done.
Qed.
Lemma journals_probe b : journals (probe b) (λ s _ s' ws, same_objects s s' ∧ ws = []).
Proof. apply journals_world, journal_probe. Qed.
Lemma journals_request o st n :
  journals (request_approval ex lease o st n) (λ s r s' ws, same_objects s s' ∧
    requests (l_run s) n r.1 r.2 ws ∧
    (is_Some r.1 ↔ outcome_kind o = OUTCOME_SUSPENDED ∧ se_status st = WAITING_FOR_APPROVAL ∧
                   child_run_suspension o = false)).
Proof.
  unfold request_approval.
  destruct (bool_decide (outcome_kind o = _) && _ && _) eqn:E.
  - apply andb_true_iff in E as [[Ek%bool_decide_eq_true Es%bool_decide_eq_true]%andb_true_iff Ec%negb_true_iff].
    eapply journals_weaken.
    { apply (journals_bind (gets l_checkpoint)); [apply journals_gets|]. intros cp.
      instantiate (1 := λ cp s r s' ws, same_objects s s' ∧ ∃ a, r.1 = Some a ∧ requests (l_run s) n (Some a) r.2 ws).
      destruct (pending_approval_ids cp) as [|a l]; [apply journals_raise|].
      eapply journals_weaken.
      { apply journals_bind; [apply journals_append|]. intros m.
        apply journals_bind; [apply journals_probe|]. intros ?. apply journals_ret. }
      intros s r s' ws (m & s1 & w1 & w2 & (Ho1 & ->) & (u & s2 & w3 & w4 & (Ho2 & ->) & (-> & -> & ->) & ->) & ->).
      split; [by etrans|]. by exists a. }
    intros s r s' ws (cp & s1 & w1 & w2 & (-> & -> & ->) & (Ho & a & Ha & Hr) & ->). rewrite Ha.
    split_and!; [done..|]. intuition eauto.
  - eapply journals_weaken; [apply journals_ret|]. intros s r s' ws (-> & -> & ->). cbn.
    split_and!; [done..|]. split; [by intros [? ?]|]. intros (Hk & Hs & Hc).
    rewrite !bool_decide_true, Hc in E by done. done.
Qed.

Lemma journals_question st : journals (question_of ex st) (λ s _ s' ws, s' = s ∧ ws = []).
Proof.
  unfold question_of.
  repeat case_match; try apply journals_raise;
    (eapply journals_weaken; [apply journals_ret|by intros ? ? ? ? (-> & -> & ->)]).
Qed.
Lemma journals_notify who o st approval :
  journals (notify ex who o st approval) (λ s _ s' ws, same_objects s s' ∧
    (ws = [] ∨ ∃ x, ws = [WNotify x] ∧ rn_run x = l_run s ∧ rn_status x = se_status st)).
Proof.
  unfold notify. destruct (_ && _).
  2: { eapply journals_weaken; [apply journals_ret|]. intros s r s' ws (-> & -> & ->). split; [reflexivity|by left]. }
  eapply journals_weaken.
  { apply journals_bind; [apply journals_question|]. intros q.
    eapply (journals_bind _ _ (λ s _ s' ws, same_objects s s' ∧ ws = [])).
    { destruct approval as [a|].
      - eapply journals_weaken.
        { apply journals_bind; [apply journals_world, journal_approval|]. intros r. apply journals_ret. }
        intros s b s' ws (x & s1 & w1 & w2 & (Ho & ->) & (-> & -> & ->) & ->). done.
      - eapply journals_weaken; [apply journals_ret|]. by intros s r s' ws (-> & -> & ->). }
    intros about. apply (journals_bind (gets l_run)); [apply journals_gets|]. intros run.
    apply journals_bind; [apply journals_world, journal_notify|]. intros ?. apply journals_probe. }
  intros s r s' ws (q & s1 & w1 & w2 & (-> & ->) & (ab & s2 & w3 & w4 & (Ho2 & ->) &
    (run & s3 & w5 & w6 & (-> & -> & ->) & (u & s4 & w7 & w8 & (Ho4 & ->) & (Ho5 & ->) & ->) & ->) & ->) & ->).
  split; [by do 2 etrans|]. right. eexists. split; [reflexivity|]. cbn. split; [by destruct Ho2|done].
Qed.
Lemma journals_enqueue run m :
  journals (u ← fresh_id; t ← now; t' ← now;
            world (replies_enqueue
              {| sr_id := u; sr_surface_id := sm_surface_id m; sr_tenant_id := Principal.tenant_id run.2;
                 sr_principal_id := Principal.principal_id run.2; sr_run_id := RunModel.id run.1;
                 chat_ref := py_removeprefix "dm:" (external_key m); sr_next_attempt_at := t;
                 sr_created_at := t' |}) ≫= λ _, probe "surface_reply")
    (λ s _ s' ws, same_objects s s' ∧ ∃ r, ws = [WReply r] ∧ sr_run_id r = RunModel.id run.1).
Proof.
  eapply journals_weaken.
  { apply journals_bind; [apply journals_quiet, journal_id|]. intros u.
    apply journals_bind; [apply journals_quiet, journal_clock|]. intros t.
    apply journals_bind; [apply journals_quiet, journal_clock|]. intros t'.
    apply journals_bind; [apply journals_world, journal_reply|]. intros ?. apply journals_probe. }
  intros s b s' ws (u & s1 & w1 & w2 & (H1' & ->) & (t & s2 & w3 & w4 & (H2' & ->) &
    (t' & s3 & w5 & w6 & (H3' & ->) & (v & s4 & w7 & w8 & (H4' & ->) & (H5' & ->) & ->) & ->) & ->) & ->).
  split; [chain|]. by eexists.
Qed.
Lemma journals_reply who :
  journals (enqueue_reply ex who) (λ s _ s' ws, same_objects s s' ∧
    (ws = [] ∨ ∃ r, ws = [WReply r] ∧ sr_run_id r = RunModel.id (l_run s))).
Proof.
  unfold enqueue_reply. eapply journals_weaken.
  { apply (journals_bind (gets l_run)); [apply journals_gets|]. intros run.
    apply journals_bind; [apply journals_world, journal_latest|]. intros seed.
    instantiate (1 := λ seed s _ s' ws, same_objects s s' ∧
      (ws = [] ∨ ∃ r, ws = [WReply r] ∧ sr_run_id r = RunModel.id run)).
    destruct (surface_origin seed run) as [surface|].
    2: { eapply journals_weaken; [apply journals_ret|]. intros s b s' ws (-> & -> & ->). split; [reflexivity|by left]. }
    eapply journals_weaken.
    { apply journals_bind; [apply journals_world, journal_surface|]. intros mapping.
      instantiate (1 := λ mapping s _ s' ws, same_objects s s' ∧
        ∃ r, ws = [WReply r] ∧ sr_run_id r = RunModel.id run).
      destruct mapping as [m|]; [|apply journals_raise].
      destruct (String.eqb _ _); [|apply journals_raise]. apply (journals_enqueue (run, who)). }
    intros s b s' ws (m & s1 & w1 & w2 & (Ho & ->) & (Ho2 & Hr) & ->). split; [chain|]. by right. }
  intros s b s' ws (run & s1 & w1 & w2 & (-> & -> & ->) & (seed & s2 & w3 & w4 & (Ho & ->) & (Ho2 & Hr) & ->) & ->).
  split; [chain|]. done.
Qed.
Lemma journals_release st :
  journals (release_lease lease st) (λ s _ s' ws, same_objects s s' ∧ ws = released st).
Proof.
  unfold release_lease, released. destruct lease as [l|].
  2: { eapply journals_weaken; [apply journals_ret|]. by intros s b s' ws (-> & -> & ->). }
  destruct queue_release as [release|] eqn:E; [|apply journals_raise].
  eapply journals_weaken.
  { apply journals_bind; [apply journals_world, (journal_release release l st E)|]. intros ?. apply journals_probe. }
  intros s b s' ws (u & s1 & w1 & w2 & (Ho & ->) & (Ho2 & ->) & ->). split; [chain|done].
Qed.
Lemma journals_announce who o st :
  journals (announce_settlement ex lease who o st) (λ s last s' ws, same_objects s s' ∧
    ∃ n approval requested notices,
      ws = ([WEvent (runtime_event (l_run s) (se_event_type st) (se_payload st)) n] ++ requested ++ notices)%list ∧
      requests (l_run s) n approval last requested ∧
      (is_Some approval ↔ outcome_kind o = OUTCOME_SUSPENDED ∧ se_status st = WAITING_FOR_APPROVAL ∧
                          child_run_suspension o = false) ∧
      (notices = [] ∨ ∃ x, notices = [WNotify x] ∧ rn_run x = l_run s ∧ rn_status x = se_status st)).
Proof.
  unfold announce_settlement. eapply journals_weaken.
  { apply journals_bind; [apply journals_append|]. intros n.
    apply journals_bind; [apply journals_probe|]. intros ?.
    apply journals_bind; [apply journals_request|]. intros r.
    apply journals_bind; [apply journals_notify|]. intros ?. apply journals_ret. }
  intros s last s' ws (n & s1 & w1 & w2 & (H1' & ->) & (? & s2 & w3 & w4 & (H2' & ->) &
    (r & s3 & w5 & w6 & (H3' & Hr & Ha) & (? & s4 & w7 & w8 & (H4' & Hn) & (-> & -> & ->) & ->) & ->) & ->) & ->).
  assert (same_objects s s2) as [Hrun2 _] by chain. assert (same_objects s s3) as [Hrun3 _] by chain.
  split; [chain|]. exists n, r.1, w5, w7. rewrite Hrun2 in Hr. rewrite Hrun3 in Hn.
  split_and!; [|done..]. by rewrite app_nil_r.
Qed.
Lemma journals_write who st last :
  journals (write_settlement ex lease who st last) (λ s _ s' ws, l_run s' = l_run s ∧
    ∃ replies, ws = ([WCheckpoint (RunModel.id (l_run s)) ((l_checkpoint s) <| last_event_sequence := last |>);
                      WTransition (RunModel.id (l_run s)) RUNNING (se_status st) (se_failure st)
                        (se_final_message st)] ++ replies ++ released (se_status st))%list ∧
      (replies = [] ∨ ∃ r, replies = [WReply r] ∧ sr_run_id r = RunModel.id (l_run s) ∧
                           is_terminal (se_status st) = true)).
Proof.
  unfold write_settlement. eapply journals_weaken.
  { apply journals_bind; [apply journals_set_cp|]. intros ?.
    apply journals_bind; [apply journals_get_state|]. intros s0.
    apply journals_bind; [apply journals_world, journal_checkpoint|]. intros ?.
    apply journals_bind; [apply journals_probe|]. intros ?.
    apply journals_bind; [apply journals_world, journal_transition|]. intros ?.
    apply journals_bind; [apply journals_probe|]. intros ?.
    eapply (journals_bind _ _ (λ s _ s' ws, same_objects s s' ∧ (ws = [] ∨ ∃ r, ws = [WReply r] ∧
      sr_run_id r = RunModel.id (l_run s) ∧ is_terminal (se_status st) = true))).
    { destruct (is_terminal _).
      - eapply journals_weaken; [apply journals_reply|]. intros s b s' ws (Ho & Hw). split; [done|].
        destruct Hw as [->|(r & -> & Hr)]; [by left|right]. by exists r.
      - eapply journals_weaken; [apply journals_ret|]. intros s b s' ws (-> & -> & ->). split; [reflexivity|by left]. }
    intros ?. apply journals_release. }
  intros s b s' ws (? & s1 & w1 & w2 & (Hr1 & Hc1 & ->) & (s0 & s2 & w3 & w4 & (-> & -> & ->) &
    (? & s3 & w5 & w6 & (H3' & ->) & (? & s4 & w7 & w8 & (H4' & ->) & (? & s5 & w9 & w10 & (H5' & ->) &
    (? & s6 & w11 & w12 & (H6' & ->) & (? & s7 & w13 & w14 & (H7' & Hw) & (H8' & ->) & ->) & ->) & ->) & ->) & ->) & ->) & ->).
  assert (same_objects s1 s6) as [Hr6 _] by chain. assert (same_objects s1 s') as [Hr' _] by chain.
  split; [congruence|]. exists w13. rewrite Hc1, Hr1. split; [done|]. by rewrite Hr6, Hr1 in Hw.
Qed.
Lemma journals_settle who o st :
  journals (last_event ← announce_settlement ex lease who o st; write_settlement ex lease who st last_event)
    (λ s _ s' ws, l_run s' = l_run s ∧ settles (l_run s) (l_checkpoint s) o st ws).
Proof.
  eapply journals_weaken.
  { apply journals_bind; [apply journals_announce|]. intros last. apply journals_write. }
  intros s b s' ws (last & s1 & w1 & w2 & ((Hr & Hc) & n & a & req & nts & -> & Hreq & Ha & Hn) &
    (Hr' & reps & -> & Hrep) & ->).
  split; [congruence|]. rewrite Hr in *. rewrite Hc. exists n, a, last, req, nts, reps.
  split_and!; try done. by rewrite <- !(assoc_L app).
Qed.

(** ** Finalization *)
(** What the outcome says the run becomes. *)
Definition settlement_of (o : RunOutcome) (st : settlement) : Prop :=
  match outcome_kind o with
  | OUTCOME_COMPLETED => ∃ m, final_message o = Some m ∧ se_status st = COMPLETED ∧
      se_event_type st = "run.completed" ∧ se_failure st = None ∧ se_final_message st = _message_text (Some m)
  | RunModel.OUTCOME_FAILED => ∃ f, LoopGuards.failure o = Some f ∧ se_status st = FAILED ∧
      se_event_type st = "run.failed" ∧ se_failure st = Some f ∧ se_final_message st = None
  | OUTCOME_CANCELLED => se_status st = CANCELLED ∧ se_event_type st = "run.cancelled" ∧
      se_failure st = None ∧ se_final_message st = None
  | OUTCOME_SUSPENDED => se_failure st = None ∧ se_final_message st = None ∧
      if bool_decide (suspension_kind o = Some "user")
      then se_status st = WAITING_FOR_USER ∧ se_event_type st = "run.waiting_for_user"
      else se_status st = WAITING_FOR_APPROVAL ∧ se_event_type st = "run.waiting_for_approval"
  | OUTCOME_FENCED => False
  end.
(** The checkpoint that is written: the next version, in the run's new status, and without
    a provider continuation once the run has ended. *)
Definition final_checkpoint (cp cp' : RunCheckpoint) (st : settlement) : Prop :=
  cp_version cp' = cp_version cp + 1 ∧ cp_status cp' = se_status st ∧
  conversation cp' = conversation cp ∧ pending_tool_calls cp' = pending_tool_calls cp ∧
  (is_terminal (se_status st) = true → provider_continuation cp' = None).
Definition settled_by (run : Run) (cp : RunCheckpoint) (o : RunOutcome) (ws : list write) : Prop :=
  ∃ st cp', settlement_of o st ∧ final_checkpoint cp cp' st ∧ settles run cp' o st ws.

Lemma choose_yields o : yields (settlement_of o) (choose_settlement ex o).
Proof.
  unfold choose_settlement, settlement_of. destruct (outcome_kind o).
  - destruct (final_message o) as [m|]; [|apply yields_raise]. apply yields_ret. by exists m.
  - destruct (LoopGuards.failure o) as [f|]; [|apply yields_raise]. apply yields_ret. by exists f.
  - apply yields_bind_any. intros r. by apply yields_ret.
  - apply yields_ret. by case_bool_decide.
  - apply yields_raise.
Qed.

(** Nothing staged or committed, the objects untouched. *)
Definition silent (s s' : LoopState W) : Prop := same_objects s s' ∧ unwritten (l_world s) (l_world s').
#[local] Instance silent_pre : PreOrder silent.
Proof.
  split; [by intros s|]. intros a b c [Hab [? ?]] [Hbc [? ?]]. split; [by etrans|]. split; congruence.
Qed.
Lemma silent_reason : keeps silent reason_now.
Proof.
  intros s. unfold reason_now. pose proof (journal_reason (l_world s)). by destruct (token_reason _) as [r w].
Qed.
Lemma silent_now : keeps silent now.
Proof.
  intros s. unfold now. pose proof (journal_clock (l_world s)). by destruct (clock_now _) as [r w].
Qed.
Lemma silent_id : keeps silent fresh_id.
Proof.
  intros s. unfold fresh_id. pose proof (journal_id (l_world s)). by destruct (new_id _) as [r w].
Qed.
#[local] Hint Resolve silent_reason silent_now silent_id : keeps.
Lemma silent_choose o : keeps silent (choose_settlement ex o).
Proof. unfold choose_settlement. keeps. Qed.
Lemma silent_settled_outcome o : keeps silent (settled_outcome o).
Proof. unfold settled_outcome. keeps. Qed.

Lemma settle_atomic who o st s :
  staged (l_world s) = [] →
  let '(r, s') := settle ex lease who o st s in
  staged (l_world s') = [] ∧
  match r with
  | Ok _ => ∃ ws, committed (l_world s') = (committed (l_world s) ++ ws)%list ∧
                  settles (l_run s) (l_checkpoint s) o st ws
  | Raise _ => committed (l_world s') = committed (l_world s)
  end.
Proof.
  intros Hn. pose proof (in_uow_atomic _ _ s (journals_settle who o st) Hn) as Hu.
  unfold settle. destruct (in_uow _ s) as [[[]|e] s']; [|done].
  destruct Hu as (Hst & ws & s1 & (_ & Hs) & _ & Hc). split; [done|]. by exists ws.
Qed.
Lemma finalize_once_atomic who o s :
  staged (l_world s) = [] →
  let '(r, s') := _finalize_once ex lease who o s in
  staged (l_world s') = [] ∧
  match r with
  | Ok _ => ∃ ws, committed (l_world s') = (committed (l_world s) ++ ws)%list ∧
      if bool_decide (outcome_kind o = OUTCOME_FENCED) then ws = []
      else settled_by (l_run s) (l_checkpoint s) o ws
  | Raise _ => committed (l_world s') = committed (l_world s)
  end.
Proof.
  intros Hn. unfold _finalize_once. case_bool_decide as Hf.
  { cbn. split; [done|]. exists []. by rewrite app_nil_r. }
  unfold mbind, stateM_bind.
  pose proof (silent_choose o s) as [[Hr Hc] [Hcm Hst]].
  pose proof (choose_yields o s) as Hy.
  destruct (choose_settlement ex o s) as [[st|e] s1]; cbn in Hr, Hc, Hcm, Hst.
  2: { split; congruence. }
  specialize (Hy st s1 eq_refl). cbn [set_cp modify].
  set (s2 := s1 <| l_checkpoint := _ |>).
  pose proof (silent_now s2) as [[Hr3 Hc3] [Hcm3 Hst3]].
  destruct (now s2) as [[t|e] s3] eqn:E3; [|by unfold now in E3; destruct (clock_now _)].
  cbn in Hr3, Hc3, Hcm3, Hst3. set (s4 := s3 <| l_checkpoint := _ |>).
  pose proof (settle_atomic who o st s4) as Ha. destruct (settle ex lease who o st s4) as [r s5].
  destruct Ha as [Hst5 Ha]; [cbn; congruence|]. split; [done|].
  assert (Hcm4 : committed (l_world s4) = committed (l_world s)) by (cbn; congruence).
  destruct r as [[]|e]; [|congruence].
  destruct Ha as (ws & Hw & Hs). exists ws. rewrite Hw, Hcm4. split; [done|].
  exists st, (l_checkpoint s4). split; [done|]. split.
  - cbn. rewrite Hc3. cbn. rewrite Hc. unfold final_checkpoint. destruct (is_terminal _); by cbn.
  - assert (Hr4 : l_run s4 = l_run s) by (cbn; rewrite Hr3; exact Hr). by rewrite Hr4 in Hs.
Qed.

(** Finalization never changes the run object. *)
Definition same_run (s s' : LoopState W) : Prop := l_run s' = l_run s.
#[local] Instance same_run_pre : PreOrder same_run.
Proof. split; [by intros s|]. intros a b c. unfold same_run. congruence. Qed.
#[local] Instance same_run_objects : Objects same_run.
Proof. by intros s s' [? _]. Qed.
Lemma same_run_set_cp f : keeps same_run (set_cp f).
Proof. by apply keeps_modify. Qed.
Lemma same_run_reason : keeps same_run reason_now.
Proof. intros s. unfold same_run, reason_now. by destruct (token_reason _). Qed.
Lemma same_run_get_state : keeps same_run get_state.
Proof. by intros s. Qed.
#[local] Hint Resolve same_run_set_cp same_run_reason same_run_get_state : keeps.
Lemma same_run_append t p : keeps same_run (append_leased lease t p).
Proof. unfold append_leased. keeps. Qed.
Lemma same_run_probe b : keeps same_run (probe b).
Proof. unfold probe. keeps. Qed.
#[local] Hint Resolve same_run_append same_run_probe : keeps.
Lemma same_run_announce who o st : keeps same_run (announce_settlement ex lease who o st).
Proof. unfold announce_settlement, request_approval, notify, question_of. keeps. Qed.
Lemma same_run_write who st n : keeps same_run (write_settlement ex lease who st n).
Proof. unfold write_settlement, enqueue_reply, release_lease. keeps. Qed.
#[local] Hint Resolve same_run_announce same_run_write : keeps.
Lemma same_run_settle who o st : keeps same_run (settle ex lease who o st).
Proof. unfold settle. keeps. Qed.
Lemma same_run_choose o : keeps same_run (choose_settlement ex o).
Proof. unfold choose_settlement. keeps. Qed.
#[local] Hint Resolve same_run_settle same_run_choose : keeps.
Lemma same_run_finalize_once who o : keeps same_run (_finalize_once ex lease who o).
Proof.
  unfold _finalize_once. case_bool_decide; [apply (keeps_ret _)|].
  repeat (apply (keeps_bind _); [eauto with keeps typeclass_instances|intros ?]).
  apply same_run_settle.
Qed.

(** The transactions of a finalization that gave up on its outcome: the approvals the run
    waited on cancelled, if it was suspended. *)
Definition gave_up (run : Run) (o : RunOutcome) (ws : list write) : Prop :=
  ws = [] ∨ (outcome_kind o = OUTCOME_SUSPENDED ∧ ws = [WCancelApprovals (RunModel.id run)]).

Lemma finalize_failed_atomic who o e s :
  staged (l_world s) = [] →
  let '(r, s') := finalize_failed ex lease who o e s in
  staged (l_world s') = [] ∧ ∃ before, gave_up (l_run s) o before ∧
  match r with
  | Ok _ => ∃ f ws, committed (l_world s') = (committed (l_world s) ++ before ++ ws)%list ∧
                    settled_by (l_run s) (l_checkpoint s) (failed f) ws
  | Raise _ => committed (l_world s') = (committed (l_world s) ++ before)%list
  end.
Proof.
  intros Hn. unfold finalize_failed, mbind, stateM_bind.
  pose proof (silent_id s) as [[Hr1 Hc1] [Hcm1 Hst1]].
  destruct (fresh_id s) as [[u|x] s1] eqn:E1; [|by unfold fresh_id in E1; destruct (new_id _)].
  cbn [gets fst snd] in *.
  pose proof (silent_now s1) as [[Hr2 Hc2] [Hcm2 Hst2]].
  destruct (now s1) as [[t|x] s2] eqn:E2; [|by unfold now in E2; destruct (clock_now _)].
  cbn [fst snd] in *.
  set (f := Build_RunFailure _ _ _ _ _ _ _).
  assert (Hsame : l_run s2 = l_run s ∧ l_checkpoint s2 = l_checkpoint s ∧
                  committed (l_world s2) = committed (l_world s) ∧ staged (l_world s2) = []).
  { split_and!; congruence. }
  clear Hr1 Hc1 Hcm1 Hst1 Hr2 Hc2 Hcm2 Hst2 E2. destruct Hsame as (Hr & Hc & Hcm & Hst).
  case_bool_decide as Hk.
  - pose proof (in_uow_atomic _ _ s2 (journals_world _ _ (journal_cancel (RunModel.id (l_run s1)))) Hst) as Hu.
    pose proof E1 as Hrun1. assert (Hr1 : l_run s1 = l_run s).
    { unfold fresh_id in E1. destruct (new_id _). by simplify_eq/=. }
    destruct (in_uow _ s2) as [[[]|x] s3].
    + destruct Hu as (Hst3 & ws & s3' & (Ho & ->) & Ho3 & Hcm3).
      assert (same_objects s2 s3) as [Hr3 Hc3] by chain.
      pose proof (finalize_once_atomic who (failed f) s3 Hst3) as Hf.
      destruct (_finalize_once ex lease who (failed f) s3) as [r s4]. destruct Hf as [Hst4 Hf].
      split; [done|]. exists [WCancelApprovals (RunModel.id (l_run s))]. split; [by right|].
      rewrite Hr1 in Hcm3.
      destruct r as [[]|x].
      * destruct Hf as (ws & Hw & Hs). exists f, ws. cbn in Hs. rewrite Hr3, Hc3, Hr, Hc in Hs.
        split; [|done]. by rewrite Hw, Hcm3, Hcm, (assoc_L app).
      * by rewrite Hf, Hcm3, Hcm.
    + destruct Hu as (Hst3 & Hcm3). split; [done|]. exists []. split; [by left|].
      by rewrite Hcm3, Hcm, app_nil_r.
  - pose proof (finalize_once_atomic who (failed f) s2 Hst) as Hf. cbn [mret stateM_ret].
    destruct (_finalize_once ex lease who (failed f) s2) as [r s4]. destruct Hf as [Hst4 Hf].
    split; [done|]. exists []. split; [by left|]. destruct r as [[]|x].
    + destruct Hf as (ws & Hw & Hs). exists f, ws. cbn in Hs. rewrite Hr, Hc in Hs.
      split; [|done]. by rewrite Hw, Hcm.
    + by rewrite Hf, Hcm, app_nil_r.
Qed.

(** How a finalization of [o] ended, by what it committed: nothing for a fenced run; the
    settlement of [o]; that of a deadline failure, for a run of its own cut off by its
    deadline; or that of a failure of its own, after it gave up. *)
Definition finalized (run : Run) (cp : RunCheckpoint) (o : RunOutcome) (ws : list write) : Prop :=
  (outcome_kind o = OUTCOME_FENCED ∧ ws = []) ∨
  settled_by run cp o ws ∨
  (outcome_kind o = OUTCOME_CANCELLED ∧ parent_run_id run = None ∧
   ∃ t, settled_by run cp (deadline_failure t run) ws) ∨
  (∃ before f ws', ws = (before ++ ws')%list ∧ gave_up run o before ∧ settled_by run cp (failed f) ws').

Lemma settled_outcome_yields o s s' o' :
  settled_outcome o s = (Ok o', s') →
  o' = o ∨ (outcome_kind o = OUTCOME_CANCELLED ∧ parent_run_id (l_run s) = None ∧
            ∃ t, o' = deadline_failure t (l_run s)).
Proof.
  unfold settled_outcome. case_bool_decide as Hk; [|intros [= <- _]; by left].
  unfold mbind, stateM_bind, mret, stateM_ret, reason_now, now, gets. destruct (token_reason _) as [r w]. cbn.
  destruct (_ && _) eqn:E; [|intros Heq; simplify_eq; by left].
  cbn. destruct (clock_now w) as [t w0]. intros Heq. apply (f_equal fst) in Heq. cbn in Heq.
  injection Heq as <-. right.
  apply andb_true_iff in E as [_ Hp%bool_decide_eq_true]. split_and!; [done|done|by exists t].
Qed.

Lemma finalize_commits who o s :
  staged (l_world s) = [] →
  let '(r, s') := finalize ex lease who o s in
  staged (l_world s') = [] ∧ ∃ ws, committed (l_world s') = (committed (l_world s) ++ ws)%list ∧
  match r with
  | Ok _ => finalized (l_run s) (l_checkpoint s) o ws
  | Raise _ => gave_up (l_run s) o ws
  end.
Proof.
  intros Hn. unfold finalize, mbind, stateM_bind.
  pose proof (silent_settled_outcome o s) as [[Hr1 Hc1] [Hcm1 Hst1]].
  destruct (settled_outcome o s) as [[o'|e] s1] eqn:E1; cbn [fst snd gets] in *.
  2: { split; [congruence|]. exists []. rewrite Hcm1, app_nil_r. split; [done|by left]. }
  pose proof (settled_outcome_yields o s s1 o' E1) as Ho'. unfold catch.
  pose proof (finalize_once_atomic who o' s1) as Hf.
  pose proof (same_run_finalize_once who o' s1) as Hrun. unfold same_run in Hrun.
  destruct (_finalize_once ex lease who o' s1) as [r s2]. cbn [snd] in Hrun.
  destruct Hf as [Hst2 Hf]; [congruence|]. rewrite Hr1, Hc1, Hcm1 in *.
  destruct r as [[]|e].
  { destruct Hf as (ws & Hw & Hs). split; [done|]. exists ws. split; [done|]. unfold finalized.
    destruct Ho' as [->|(Hk & Hp & t & ->)].
    - case_bool_decide; [by left|]. right. by left.
    - cbn in Hs. right. right. left. split_and!; [done|done|by exists t]. }
  destruct (match e with WorkerFencedError _ => None | _ => Some _ end) as [k|] eqn:Ek.
  2: { split; [done|]. exists []. rewrite app_nil_r. split; [done|by left]. }
  assert (Hk : k = (set_cp (λ _, l_checkpoint s) ≫= λ _,
    if bool_decide (is_Some lease) && is_capacity e then raise e else finalize_failed ex lease who o' e)).
  { by destruct e; try discriminate Ek; injection Ek as <-. }
  rewrite Hk. unfold mbind, stateM_bind. cbn [set_cp modify].
  destruct (_ && _).
  { cbn. split; [done|]. exists []. rewrite app_nil_r. split; [done|by left]. }
  set (s3 := s2 <| l_checkpoint := _ |>).
  pose proof (finalize_failed_atomic who o' e s3 Hst2) as Hff.
  destruct (finalize_failed ex lease who o' e s3) as [r s4]. destruct Hff as (Hst4 & before & Hb & Hr).
  split; [done|]. unfold s3 in *. cbn in Hb, Hr. rewrite Hrun, Hf in *.
  assert (Hg : gave_up (l_run s) o before).
  { destruct Ho' as [->|(? & ? & t & ->)]; [done|]. destruct Hb as [->|[Hx _]]; [by left|done]. }
  destruct r as [[]|x].
  - destruct Hr as (f & ws & Hw & Hs). exists (before ++ ws)%list. split; [done|].
    right. right. right. by exists before, f, ws.
  - by exists before.
Qed.

(** C5: Finalization is all or nothing. Whichever port raises - the event log, the
    approval lookup, the notification, the checkpoint store, the run repository, the
    surface, the queue, the commit itself - a finalization that returns has committed
    exactly one settlement of the run: its lifecycle event, the next checkpoint in the
    same new status, the one transition out of RUNNING and the release of the lease, in
    one transaction. It is the outcome's, or a deadline failure, or a failure that took
    its place; only a fenced run is left alone. One that raises has settled nothing. *)
Theorem finalization_atomic who o s :
  staged (l_world s) = [] →
  let '(r, s') := finalize ex lease who o s in
  staged (l_world s') = [] ∧ ∃ ws, committed (l_world s') = (committed (l_world s) ++ ws)%list ∧
  match r with
  | Ok _ => finalized (l_run s) (l_checkpoint s) o ws
  | Raise _ => gave_up (l_run s) o ws
  end.
Proof. apply finalize_commits. Qed.
End settlement.
