(* ===== verification/Execution.v ===== *)
(** * Executions

    What a whole execution of a run guarantees: it settles its run at most once, and only
    by its last transaction; it ends; and a batch it resumes is answered before the loop
    goes on. *)
From S2P Require Import Prelude StateLogic PyDecimal ToolInvocations Approvals EventModel RunModel RunSpec Sessions Cancellation Budgets PolicyModel Messages ModelStream Checkpoints LoopGuards LoopPorts Recall RunLoop RunLoopSpec LoopFrame Executor ExecutorFrame ExecutorSpec.

(** ** One settlement per execution *)
Section execution.
Context {W : Type} `{JournalLaws W} (ex : RunExecutor W) (lease : option WorkerLease).
Abbreviation M := (stateM (LoopState W)).

(** The writes that settle a run. *)
Definition is_settling (x : write) : bool :=
  match x with WTransition _ _ _ _ _ | WRelease _ _ => true | _ => false end.
Definition settling (ws : list write) : list write := List.filter is_settling ws.
(** Within a unit of work nothing is committed, and what is staged settles no run;
    outside, no settlement appears and nothing is left staged. *)
Definition settles_nothing_in (w w' : W) : Prop :=
  committed w' = committed w ∧ ∃ ws, staged w' = (staged w ++ ws)%list ∧ settling ws = [].
Definition settles_nothing (w w' : W) : Prop :=
  staged w = [] → staged w' = [] ∧ settling (committed w') = settling (committed w).

Lemma settling_app a b : settling (a ++ b) = (settling a ++ settling b)%list.
Proof. apply List.filter_app. Qed.

(** A run leaves RUNNING once, into a status of a settlement, and its lease with it. *)
Definition settled_once (run : UUID) (ws : list write) : Prop :=
  ∃ st f m, st ∈ [COMPLETED; FAILED; CANCELLED; WAITING_FOR_USER; WAITING_FOR_APPROVAL] ∧
    ws = WTransition run RUNNING st f m :: released lease st.

Lemma settling_released st : settling (released lease st) = released lease st.
Proof. unfold released. by destruct lease. Qed.
Lemma settlement_status o st :
  settlement_of o st → se_status st ∈ [COMPLETED; FAILED; CANCELLED; WAITING_FOR_USER; WAITING_FOR_APPROVAL].
Proof.
  unfold settlement_of. destruct (outcome_kind o).
  - intros (? & _ & -> & _). set_solver.
  - intros (? & _ & -> & _). set_solver.
  - intros (-> & _). set_solver.
  - intros (_ & _ & Hs). case_bool_decide; destruct Hs as [-> _]; set_solver.
  - done.
Qed.
Lemma settling_settled run cp o ws :
  settled_by ex lease run cp o ws → settled_once (RunModel.id run) (settling ws).
Proof.
  intros (st & cp' & Ho & _ & (n & a & last & req & nts & reps & -> & Hreq & _ & Hn & Hr)).
  exists (se_status st), (se_failure st), (se_final_message st). split; [by eapply settlement_status|].
  rewrite !settling_app, settling_released.
  assert (Hq : settling req = []) by (destruct a; cbn in Hreq; [subst req|destruct Hreq as [-> _]]; done).
  assert (Hnt : settling nts = []) by (destruct Hn as [->|(x & -> & _)]; done).
  assert (Hrp : settling reps = []) by (destruct Hr as [->|(x & -> & _)]; done).
  by rewrite Hq, Hnt, Hrp.
Qed.
Lemma settling_gave_up run o ws : gave_up run o ws → settling ws = [].
Proof. by intros [->|[_ ->]]. Qed.
Lemma settling_finalized run cp o ws :
  finalized ex lease run cp o ws →
  outcome_kind o = OUTCOME_FENCED ∧ ws = [] ∨ settled_once (RunModel.id run) (settling ws).
Proof.
  intros [?|[Hs|[(_ & _ & t & Hs)|(before & f & ws' & -> & Hg & Hs)]]]; [by left|right..];
    [by eapply settling_settled..|].
  rewrite settling_app, (settling_gave_up _ _ _ Hg). by eapply settling_settled.
Qed.

Context `{!BudgetLedgerLaws W, !WorldFrame W settles_nothing_in settles_nothing,
  !ExecutorFrame W settles_nothing_in settles_nothing}.
Hypothesis task_frame : ∀ f cx,
  ex_task_runner ex = Some f → keeps (on_world settles_nothing) (f cx).

#[local] Instance execution_ticking : Ticking W settles_nothing := frame_outside.
Lemma quiet_identify : keeps (on_world settles_nothing) (identify (W:=W)).
Proof. by eapply framed_identify. Qed.
Lemma quiet_perform who restored : keeps (on_world settles_nothing) (perform ex lease who restored).
Proof. by eapply framed_perform. Qed.
Lemma quiet_exception e : keeps (on_world settles_nothing) (outcome_of_exception ex lease e).
Proof. by eapply framed_exception. Qed.
Lemma quiet_children o : keeps (on_world settles_nothing) (start_children ex o).
Proof. by eapply framed_start_children. Qed.

(** ** Where an execution arrives before it concludes *)
Definition begin_execution : M unit :=
  run ← gets l_run; t ← now; set_cp (λ _, initial_checkpoint run t).
(** The outcome, and on whose behalf it is settled; [None] is out of fuel. *)
Definition execution_outcome : M (option (Principal.t * RunOutcome)) :=
  begin_execution ≫= λ _,
  identified ← catch (x ← identify; mret (inl x)) (λ e, Some (o ← outcome_of_exception ex lease e; mret (inr o)));
  match identified with
  | inr o => mret (Some (ex_principal ex, o))
  | inl (who, restored) =>
      o ← catch (perform ex lease who restored) (λ e, Some (o ← outcome_of_exception ex lease e; mret (Some o)));
      mret ((λ o, (who, o)) <$> o)
  end.
Lemma execute_running_outcome s :
  _execute_running ex lease s =
  (reached ← execution_outcome;
   match reached with
   | None => mret false
   | Some (who, o) => conclude ex lease who o ≫= λ _, mret true
   end) s.
Proof.
  unfold _execute_running, execution_outcome, begin_execution, mbind, stateM_bind, gets.
  destruct (now s) as [[t|e] s1]; [|done]. cbn [set_cp modify].
  destruct (catch _ _ _) as [[[[who restored]|o]|e] s2]; [|done..].
  destruct (catch _ _ s2) as [[[o|]|e] s3]; done.
Qed.

(** A run another owner took, or whose token was fenced. *)
Definition fencing (e : exn) (s : LoopState W) : Prop :=
  (∃ m, e = WorkerFencedError m) ∨ (∃ m, e = RunCancelledError m) ∧ (token_reason (l_world s)).1 = Some FENCED.
(** An execution the fence ended: before it had an outcome, or as it was finalized. *)
Definition fenced_off (s : LoopState W) : Prop :=
  let s0 := (begin_execution s).2 in
  (∃ e s1, fencing e s1 ∧
     (identify s0 = (Raise e, s1) ∨
      ∃ who restored s', identify s0 = (Ok (who, restored), s') ∧
        perform ex lease who restored s' = (Raise e, s1))) ∨
  (is_Some lease ∧ ∃ who o s1 m s2, execution_outcome s = (Ok (Some (who, o)), s1) ∧
     finalize ex lease who o s1 = (Raise (WorkerFencedError m), s2)).

Definition unfenced (o : RunOutcome) : Prop := outcome_kind o ≠ OUTCOME_FENCED.
Lemma exception_failure_unfenced e why m d counted :
  yields unfenced (exception_failure (W:=W) ex e why m d counted).
Proof. unfold exception_failure. do 2 (apply yields_bind_any; intros ?). by apply yields_ret. Qed.
Lemma exception_fenced e s o s' :
  outcome_of_exception ex lease e s = (Ok o, s') → outcome_kind o = OUTCOME_FENCED → fencing e s.
Proof.
  assert (Hf : ∀ m, yields unfenced m → m s = (Ok o, s') → outcome_kind o = OUTCOME_FENCED → fencing e s).
  { intros m Hm Hs Ho. by destruct (Hm _ _ _ Hs). }
  assert (Hu := exception_failure_unfenced e).
  destruct e; cbn [outcome_of_exception]; try (by apply Hf);
    try (destruct (_ && _); apply Hf; [apply yields_raise|apply yields_bind_any; intros ?; apply Hu]).
  - intros _ _. left. eauto.
  - unfold mbind, stateM_bind, reason_now. destruct (token_reason (l_world s)) as [r w] eqn:E.
    intros [= <- _]. case_bool_decide as Hr; [|done]. intros _. right. split; [eauto|by rewrite E].
Qed.

(** ** An execution ends, and only the fence leaves its run unsettled *)
Section outcomes.
Context `{!CheckpointWriterLaws W, !ToolDispatchLaws W}.
(** A task runner, too, never calls its own run fenced. *)
Hypothesis task_unfenced : ∀ f cx, ex_task_runner ex = Some f →
  yields (λ o, ∀ x, o = Some x → unfenced x) (f cx).

Lemma failed_unfenced o : RunLoopSpec.failed o → unfenced o.
Proof. unfold unfenced. by intros [-> _]. Qed.
(** How a resumed batch may end an execution. *)
Definition resolved (i : iteration) : Prop :=
  match i with Continue => True | OutOfFuel => False | Return o => unfenced o end.
Definition batch_resolved (x : resumed_batch + option RunOutcome) : Prop :=
  match x with inr (Some o) => unfenced o | _ => True end.

Lemma guard_resumed_yields cx calls r :
  yields (λ o, ∀ x, o = Some x → unfenced x) (guard_resumed (W:=W) cx calls r).
Proof.
  unfold guard_resumed. do 2 (apply yields_bind_any; intros ?).
  apply (yields_bind (λ g, ∀ x, g.1 = Some x → unfenced x)).
  - intros s [x ws] s' [= Hg _] o Ho. cbn in Ho. subst x. by eapply failed_unfenced, guard_failed.
  - intros g Hg. apply yields_bind_any. intros ?. by apply yields_ret.
Qed.
Lemma resume_adopted_yields cx a l n b r : yields batch_resolved (resume_adopted (W:=W) cx a l n b r).
Proof.
  unfold resume_adopted. apply yields_bind_any. intros ?.
  apply (yields_bind (λ o, ∀ x, o = Some x → unfenced x)).
  { destruct (_ && _); [apply guard_resumed_yields|by apply yields_ret]. }
  intros [o|] Ho; [by apply yields_ret, Ho|]. apply yields_bind_any. intros run. cbn zeta.
  do 2 (apply yields_bind_any; intros ?). destruct (List.filter _ _).
  - do 2 (apply yields_bind_any; intros ?). apply yields_ret. by destruct (last a) as [[]|].
  - apply yields_bind_any. intros ?. by apply yields_ret.
Qed.
Lemma resume_own_yields cx t c a r : yields batch_resolved (resume_own (W:=W) cx t c a r).
Proof.
  unfold resume_own. apply yields_bind_any. intros cp. destruct (as_int _) as [n|]; [|apply yields_raise].
  apply (yields_bind (λ o, ∀ x, o = Some x → unfenced x)).
  { destruct (_ && _); [apply guard_resumed_yields|by apply yields_ret]. }
  intros [o|] Ho; [by apply yields_ret, Ho|]. apply yields_bind_any. intros [|c' l].
  - apply yields_bind_any. intros ?. by apply yields_ret.
  - apply yields_bind_any. intros ?. cbn zeta. by apply yields_ret.
Qed.
Lemma dispatch_resumed_yields cx b a : yields resolved (dispatch_resumed (W:=W) cx b a).
Proof.
  unfold dispatch_resumed. do 4 (apply yields_bind_any; intros ?). apply yields_bind_any. intros results.
  do 8 (apply yields_bind_any; intros ?).
  apply (yields_bind (λ x, x ≠ None)).
  - intros s x s' Hs ->. destruct (recover_spec cx 3 (rb_calls b) results s) as (_ & Hd & _).
    rewrite Hs in Hd. apply Hd; [by left|done].
  - intros [[]|] Hx; [|done]. apply yields_bind_any. intros ?. by apply yields_ret.
Qed.
Lemma resume_pending_yields cx : yields resolved (_resume_pending_tools (W:=W) cx).
Proof.
  unfold _resume_pending_tools. apply yields_bind_any. intros cp. cbn zeta.
  destruct (_latest_turn _) as [turn answered]. do 2 (apply yields_bind_any; intros ?).
  destruct (_latest_turn _) as [latest answered']. do 4 (apply yields_bind_any; intros ?).
  apply (yields_bind batch_resolved); [destruct (existsb _ _); [apply resume_adopted_yields|apply resume_own_yields]|].
  intros [b|[o|]] Hb; [apply dispatch_resumed_yields|by apply yields_ret..].
Qed.
Lemma suspend_for_yields cx e k : suspend_for cx e = Some k → yields resolved (k : M iteration).
Proof.
  unfold suspend_for. destruct e; intros; simplify_eq; repeat (apply yields_bind_any; intros ?);
    by apply yields_ret.
Qed.
Lemma yields_catch {A} (P : A → Prop) (m : M A) handler :
  yields P m → (∀ e k, handler e = Some k → yields P k) → yields P (catch m handler).
Proof.
  intros Hm Hh s x s'. unfold catch. destruct (m s) as [[a|e] s1] eqn:E.
  - intros [= <- _]. by eapply Hm.
  - destruct (handler e) as [k|] eqn:Ek; [|done]. by apply (Hh e k Ek).
Qed.
Lemma resume_yields cx : yields resolved (resume ex cx).
Proof.
  clear task_frame. unfold resume. apply yields_catch; [|intros e k; apply suspend_for_yields].
  apply yields_bind_any. intros ?. apply (yields_bind (λ o, ∀ x, o = Some x → unfenced x)).
  { destruct (ex_task_runner ex) eqn:E; [by eapply task_unfenced|by apply yields_ret]. }
  intros [o|] Ho; [by apply yields_ret, Ho|apply resume_pending_yields].
Qed.
Lemma perform_yields who restored :
  yields (λ o, ∃ x, o = Some x ∧ unfenced x) (perform ex lease who restored).
Proof.
  clear task_frame. unfold perform. apply yields_bind_any. intros cx. apply (yields_bind resolved); [apply resume_yields|].
  intros [|o|] Hi; [|apply yields_ret; eauto|done]. intros s x s' Hs.
  change (run_loop cx (loop_fuel (l_run s)) s = (Ok x, s')) in Hs.
  destruct (run_loop_spec cx (loop_fuel (l_run s)) s) as (_ & _ & _ & Hn & Ho). rewrite Hs in Hn, Ho. cbn in Hn, Ho.
  destruct x as [o|]; [|by destruct Hn; [unfold loop_fuel; lia|]]. exists o. split; [done|].
  destruct (Ho o eq_refl) as [mid Hm]. unfold outcome_sound in Hm. intros Hk. by rewrite Hk in Hm.
Qed.
Lemma execution_outcome_fenced s who o s' :
  execution_outcome s = (Ok (Some (who, o)), s') → outcome_kind o = OUTCOME_FENCED → fenced_off s.
Proof.
  unfold execution_outcome. set (rest := catch (x ← identify; mret (inl x)) _).
  unfold mbind, stateM_bind at 1. intros Hs Hk. left.
  destruct (begin_execution s) as [[[]|e] s0] eqn:E0; [|done]. cbn [snd].
  unfold rest, catch in Hs. unfold mbind, stateM_bind, mret, stateM_ret in Hs.
  destruct (identify s0) as [[[w r]|e] s1] eqn:E1.
  - cbn in Hs. destruct (perform ex lease w r s1) as [[[x|]|e] s2] eqn:E2; [| |].
    + cbn in Hs. simplify_eq. pose proof (perform_yields _ _ _ _ _ E2) as (o' & [= <-] & Hx). by destruct (Hx Hk).
    + done.
    + destruct (outcome_of_exception ex lease e s2) as [[x|e'] s3] eqn:E3; [|done]. cbn in Hs. simplify_eq.
      exists e, s2. split; [by eapply exception_fenced|]. right. by exists who, r, s1.
  - destruct (outcome_of_exception ex lease e s1) as [[x|e'] s3] eqn:E3; [|done]. cbn in Hs. simplify_eq.
    exists e, s1. split; [by eapply exception_fenced|by left].
Qed.
Lemma execution_outcome_some : yields (λ x, x ≠ None) execution_outcome.
Proof.
  unfold execution_outcome. apply yields_bind_any. intros ?. apply yields_bind_any.
  intros [[who restored]|o]; [|by apply yields_ret].
  apply (yields_bind (λ o, o ≠ None)).
  - apply yields_catch; [|intros e k [= <-]; apply yields_bind_any; intros ?; by apply yields_ret].
    intros s x s' Hs. by destruct (perform_yields who restored s x s' Hs) as (? & -> & _).
  - intros [o|] Ho; [by apply yields_ret|done].
Qed.

(** ** The two theorems *)
Lemma execution_outcome_frame : keeps (on_world settles_nothing) execution_outcome.
Proof.
  assert (Hh : ∀ e, keeps (on_world settles_nothing) (outcome_of_exception ex lease e)) by apply quiet_exception.
  unfold execution_outcome. apply (keeps_bind _).
  { unfold begin_execution. repeat (apply (keeps_bind _); [|intros ?]);
      [apply (keeps_gets _)|apply framed_now, _|apply framed_set_cp, _]. }
  intros ?. apply (keeps_bind _); [|intros identified].
  - apply framed_catch; [apply _| |].
    + apply (keeps_bind _); [apply quiet_identify|intros ?; apply (keeps_ret _)].
    + intros e k [= <-]. apply (keeps_bind _); [apply Hh|intros ?; apply (keeps_ret _)].
  - destruct identified as [[who restored]|o]; [|apply (keeps_ret _)].
    apply (keeps_bind _); [|intros ?; apply (keeps_ret _)]. apply framed_catch; [apply _|apply quiet_perform|].
    intros e k [= <-]. apply (keeps_bind _); [apply Hh|intros ?; apply (keeps_ret _)].
Qed.
(** What [conclude] does to a world with nothing staged. *)
Lemma children_return o s : ∃ s', start_children ex o s = (Ok tt, s').
Proof.
  unfold start_children. destruct (_ && _); [|by eexists]. unfold mbind, stateM_bind, catch, gets.
  match goal with |- context [match ?m with _ => _ end] => destruct m as [[[]|e] s1] end; by eexists.
Qed.
Lemma conclude_settles who o s :
  staged (l_world s) = [] →
  let '(r, s') := conclude ex lease who o s in
  staged (l_world s') = [] ∧ ∃ ws, settling (committed (l_world s')) = (settling (committed (l_world s)) ++ ws)%list ∧
  match r with
  | Ok _ => settled_once (RunModel.id (l_run s)) ws ∨
            ws = [] ∧ (outcome_kind o = OUTCOME_FENCED ∨
                       is_Some lease ∧ ∃ m s2, finalize ex lease who o s = (Raise (WorkerFencedError m), s2))
  | Raise _ => ws = []
  end.
Proof.
  intros Hn. pose proof (finalize_commits ex lease who o s Hn) as Hf.
  unfold conclude, mbind, stateM_bind, catch.
  destruct (finalize ex lease who o s) as [[[]|e] s1]; destruct Hf as (Hst & ws & Hc & Hw).
  - cbn [mret stateM_ret]. destruct (children_return o s1) as [s2 Hs2]. rewrite Hs2.
    pose proof (quiet_children o s1) as Hq. rewrite Hs2 in Hq. destruct Hq as [Hq _]. cbn in Hq.
    destruct (Hq Hst) as [Hst2 Hc2].
    split; [done|]. exists (settling ws). rewrite Hc2, Hc, settling_app. split; [done|].
    apply settling_finalized in Hw as [[Hk ->]|Hw]; [right; by split; [|left]|by left].
  - assert (Hset : ∃ ws, settling (committed (l_world s1)) = (settling (committed (l_world s)) ++ ws)%list ∧ ws = []).
    { exists (settling ws). rewrite Hc, settling_app. split; [done|]. by eapply settling_gave_up. }
    destruct e; try done. case_bool_decide as Hl; [|done].
    cbn [mret stateM_ret]. split; [done|]. destruct Hset as (ws' & Hset & ->). exists []. split; [done|].
    right. split; [done|]. right. split; [done|]. by eexists _, _.
Qed.

(** C4: An execution settles its run once, and nothing but the fence keeps it from doing
    so. Whatever the model, the tools and the store answer or raise, an execution that
    returns has committed one settlement of its run - one transition out of RUNNING and
    the release of its lease - or it was fenced off: a port raised that the lease was
    lost, or cancelled the run under a token that says it was fenced. One that raises has
    settled nothing. Nothing is left staged in either case. *)
Theorem execution_settles_once s :
  staged (l_world s) = [] →
  let '(r, s') := _execute_running ex lease s in
  staged (l_world s') = [] ∧ ∃ ws, settling (committed (l_world s')) = (settling (committed (l_world s)) ++ ws)%list ∧
  match r with
  | Ok _ => settled_once (RunModel.id (l_run s)) ws ∨ ws = [] ∧ fenced_off s
  | Raise _ => ws = []
  end.
Proof.
  intros Hn. rewrite execute_running_outcome. pose proof (execution_outcome_frame s) as [Hf Hi].
  destruct (Hf Hn) as [Hst Hc]. clear Hf. unfold mbind, stateM_bind.
  pose proof (execution_outcome_some s) as Hsome. pose proof (execution_outcome_fenced s) as Hfenced.
  destruct (execution_outcome s) as [[[[who o]|]|e] s1] eqn:E; cbn [snd] in Hst, Hc, Hi.
  - pose proof (conclude_settles who o s1 Hst) as Hcl. rewrite Hi, Hc in Hcl.
    destruct (conclude ex lease who o s1) as [[[]|e] s2]; cbn [mret stateM_ret].
    + destruct Hcl as (Hst2 & ws & Hw & [Hd|[-> Hd]]); (split; [done|]); [exists ws|exists []]; (split; [done|]);
        [by left|right]. split; [done|]. destruct Hd as [Hk|(Hl & m & s3 & Hfin)]; [by eapply Hfenced|].
      right. split; [done|]. by exists who, o, s1, m, s3.
    + by destruct Hcl as (Hst2 & ws & Hw & ->); split; [|exists []].
  - by destruct (Hsome None s1 eq_refl).
  - split; [done|]. exists []. by rewrite app_nil_r.
Qed.

(** C38: An execution ends. Its recovery of a resumed batch, its loop and its finalization
    never run out of the steps they are given: one loop iteration per step left of the
    limit plus one, three levels of browser recovery. *)
Theorem execution_terminates s : (_execute_running ex lease s).1 ≠ Ok false.
Proof.
  rewrite execute_running_outcome. unfold mbind, stateM_bind.
  pose proof (execution_outcome_some s) as Hsome.
  destruct (execution_outcome s) as [[[[who o]|]|e] s1] eqn:E; [|by destruct (Hsome None s1 eq_refl)|done].
  by destruct (conclude ex lease who o s1) as [[[]|e] s2].
Qed.
End outcomes.
End execution.

