(* ===== verification/Resume.v ===== *)
(** * Resuming a batch

    A batch that was pending when its run stopped - at an approval, at a question, at a
    crash - is answered before the loop goes on: every call of it has a result in the
    conversation and nothing is pending. *)
From S2P Require Import Prelude StateLogic PyDecimal ToolInvocations Approvals EventModel RunModel RunSpec Sessions Cancellation Budgets PolicyModel Messages ModelStream Checkpoints Compaction LoopGuards LoopPorts Recall RunLoop RunLoopSpec LoopFrame Executor.

(** ** Turns at the end of a conversation *)
Lemma trailing_app p l : let '(before, suffix) := trailing p l in (before ++ suffix)%list = l.
Proof.
  induction l as [|x l IH]; cbn; [done|]. destruct (trailing p l) as [[|y before] suffix].
  - cbn in IH. subst suffix. by destruct (p x).
  - cbn in *. by rewrite IH.
Qed.
Lemma results_in_of l : results_of l = map tr_call_id (results_in l).
Proof. induction l as [|[] l IH]; cbn; [done|..]; try done. by f_equal. Qed.
(** What is called answered has its result in the conversation. *)
Lemma latest_answered l i : i ∈ (_latest_turn l).2 → i ∈ results_of l.
Proof.
  unfold _latest_turn. pose proof (trailing_app is_result l) as Ht.
  destruct (trailing is_result l) as [before results]. destruct (trailing is_call before) as [a calls].
  cbn. rewrite elem_of_list_to_set, <- results_in_of. intros Hi. rewrite <- Ht, results_of_app.
  apply elem_of_app. by right.
Qed.

Section resume.
Context {W : Type} `{LoopPorts W, !CheckpointWriter W, !CheckpointWriterLaws W, !BudgetLedger W,
  !BudgetLedgerLaws W, !ToolDispatchLaws W, !ExecutorPorts W} (cx : RunContext).
Abbreviation M := (stateM (LoopState W)).
Abbreviation conv s := (conversation (l_checkpoint s)) (only parsing).
Abbreviation pending s := (pending_tool_calls (l_checkpoint s)) (only parsing).

Lemma budget_refused_answered l i : i ∈ _budget_refused_calls cx l → i ∈ results_of l.
Proof.
  unfold _budget_refused_calls. pose proof (trailing_app is_result l) as Ht.
  destruct (trailing is_result l) as [before results]. cbn. rewrite elem_of_list_to_set.
  intros (r & -> & Hr)%list_elem_of_fmap. rewrite <- Ht, results_of_app, (results_in_of results).
  apply elem_of_app. right. apply list_elem_of_fmap. exists r. split; [done|].
  apply list_elem_of_In, List.filter_In in Hr as [Hr _]. by apply list_elem_of_In.
Qed.

(** ** Until the batch is dispatched, the conversation only grows *)
Definition grown (s s' : LoopState W) : Prop :=
  limits (l_run s') = limits (l_run s) ∧
  pending_approval_ids (l_checkpoint s') = pending_approval_ids (l_checkpoint s) ∧
  budget_state (l_checkpoint s') = budget_state (l_checkpoint s) ∧
  ∃ items, conv s' = (conv s ++ items)%list.
#[local] Instance grown_pre : PreOrder grown.
Proof.
  split; [intros s; split_and!; try done; exists []; by rewrite app_nil_r|].
  intros a b c (Hl&Hp&Hb&i&Hi) (Hl'&Hp'&Hb'&j&Hj). split_and!; [congruence..|].
  exists (i ++ j)%list. by rewrite Hj, Hi, app_assoc.
Qed.
#[local] Instance grown_objects : Objects grown.
Proof.
  intros s s' (Hr&Hc&_&_). unfold grown. rewrite Hr, Hc. split_and!; try done. exists []. by rewrite app_nil_r.
Qed.
Lemma grown_results s s' i : grown s s' → i ∈ results_of (conv s) → i ∈ results_of (conv s').
Proof. intros (_&_&_&items&->) Hi. rewrite results_of_app. apply elem_of_app. by left. Qed.
Lemma grown_modify f : (∀ s, grown s (f s)) → keeps grown (modify f).
Proof. apply keeps_modify. Qed.
Lemma grown_extend items : keeps grown (extend items).
Proof. apply grown_modify. intros s. split_and!; try done. by exists items. Qed.
Ltac grown_same := apply grown_modify; intros ?; split_and!; try done; exists []; by rewrite app_nil_r.
Lemma grown_set_step f : keeps grown (set_step f).
Proof. grown_same. Qed.
Lemma grown_set_ws f : keeps grown (set_ws f).
Proof. grown_same. Qed.
Lemma grown_get_state : keeps grown get_state.
Proof. intros s. reflexivity. Qed.
Lemma grown_charge n : keeps grown (charge_tools n).
Proof.
  intros s. destruct (charge_tools_spec n s) as ((Hl&_&_)&Hc&_). unfold grown. rewrite Hl, Hc.
  split_and!; try done. exists []. by rewrite app_nil_r.
Qed.
#[local] Hint Resolve grown_extend grown_set_step grown_set_ws grown_get_state grown_charge : keeps.
#[local] Hint Extern 1 (keeps grown (set_cp _)) => grown_same : keeps.

Lemma grown_adopt : keeps grown _adopt_committed_history.
Proof. unfold _adopt_committed_history. keeps. Qed.
Lemma grown_controls calls : keeps grown (_turn_controls cx calls).
Proof. unfold _turn_controls. cbn zeta. keeps. Qed.
Lemma grown_step_at n : keeps grown (step_at n).
Proof. unfold step_at. keeps. Qed.
Lemma grown_repair l a b : keeps grown (repair_usage cx l a b).
Proof. unfold repair_usage. cbn zeta. keeps. Qed.
Lemma grown_guard calls r : keeps grown (guard_resumed cx calls r).
Proof. unfold guard_resumed. keeps. Qed.
Lemma grown_decided ids : keeps grown (decided_invocations cx ids).
Proof. induction ids; cbn [decided_invocations]; keeps. Qed.
#[local] Hint Resolve grown_adopt grown_controls grown_step_at grown_repair grown_guard grown_decided : keeps.
Lemma grown_resolved : keeps grown (_resolved_approval_calls cx).
Proof. unfold _resolved_approval_calls. keeps. Qed.
#[local] Hint Resolve grown_resolved : keeps.

(** Nothing is decided when nothing awaited an approval. *)
Lemma resolved_none s : pending_approval_ids (l_checkpoint s) = [] → _resolved_approval_calls cx s = (Ok ∅, s).
Proof. intros Hp. unfold _resolved_approval_calls, mbind, stateM_bind, get_state, gets. by rewrite Hp. Qed.

(** ** The batch, fitted *)
Lemma grown_append_refusals refused : keeps grown (append_refusals cx refused).
Proof. induction refused as [|[c r] refused IH]; cbn [append_refusals]; keeps; apply IH. Qed.
#[local] Hint Resolve grown_append_refusals : keeps.
Lemma grown_record refused : keeps grown (_record_refusals cx refused).
Proof. unfold _record_refusals. keeps. Qed.
Lemma recorded_results refused s s' cr :
  _record_refusals cx refused s = (Ok tt, s') → cr ∈ refused → tr_call_id cr.2 ∈ results_of (conv s').
Proof.
  intros Hs Hcr. destruct (record_refusals_spec cx refused s) as (_ & _ & _ & Hr). rewrite Hs in Hr.
  destruct (Hr eq_refl) as (rs & Hc & Hids). cbn in Hc. rewrite Hc, results_of_app, results_of_results, Hids.
  apply elem_of_app. right. apply list_elem_of_fmap. by exists cr.
Qed.

(** The batch is within the tool budget, or no approval of it was decided. *)
Definition decidable_batch (s : LoopState W) (turn : list ToolCallItem) (used : Z) : Prop :=
  pending_approval_ids (l_checkpoint s) = [] ∨
  used + Z.of_nat (length turn) ≤ max_tool_calls (limits (l_run s)).
Lemma decidable_grown s s' turn used : grown s s' → decidable_batch s turn used → decidable_batch s' turn used.
Proof. intros (Hl&Hp&_&_). unfold decidable_batch. by rewrite Hl, Hp. Qed.

(** Every call that may still run is one the batch was first fitted to. *)
Lemma fitted_proposed dump run turn used t c :
  c ∈ (_fit_tool_batch dump run turn (Some used) (Some t) true).1 →
  c ∈ (_fit_tool_batch dump run turn (Some used) None false).1.
Proof.
  unfold _fit_tool_batch. cbn [default fst]. rewrite (bool_decide_false (None ∈ _)) by set_solver.
  case_bool_decide; [set_solver|]. done.
Qed.
Lemma whole_proposed dump run turn used c :
  used + Z.of_nat (length turn) ≤ max_tool_calls (limits run) → c ∈ turn →
  c ∈ (_fit_tool_batch dump run turn (Some used) None false).1.
Proof.
  intros Hu Hc. unfold _fit_tool_batch. cbn [default fst]. rewrite (bool_decide_false (None ∈ _)) by set_solver.
  rewrite firstn_all2; [done|]. destruct turn; [set_solver|cbn in *; lia].
Qed.
Lemma refused_call dump run turn used t sip c :
  c ∈ turn → c ∈ (_fit_tool_batch dump run turn used t sip).1 ∨
  ∃ r, (c, r) ∈ (_fit_tool_batch dump run turn used t sip).2 ∧ tr_call_id r = call_id c.
Proof.
  intros Hc. unfold _fit_tool_batch. cbn [fst snd]. set (n := Z.to_nat _).
  rewrite <- (take_drop n turn) in Hc. apply elem_of_app in Hc as [Hc|Hc]; [by left|right].
  eexists. split; [apply list_elem_of_fmap; by exists c|done].
Qed.
Lemma elem_filter {A} (f : A → bool) l (x : A) : x ∈ List.filter f l ↔ x ∈ l ∧ f x = true.
Proof. by rewrite !list_elem_of_In, List.filter_In. Qed.

Lemma fit_resumed_spec turn used answered s fitted s' :
  _fit_resumed_batch cx turn used answered s = (Ok fitted, s') →
  decidable_batch s turn used →
  grown s s' ∧ ∀ c, c ∈ turn → call_id c ∈ answered ∨ c ∈ fitted ∨ call_id c ∈ results_of (conv s').
Proof.
  intros Hs Hd. unfold _fit_resumed_batch in Hs. unfold mbind, stateM_bind in Hs. cbn [gets] in Hs.
  set (proposed := (_fit_tool_batch (dump_outcome cx) (l_run s) turn (Some used) None false).1) in *.
  pose proof (keeps_now grown s) as Hg1. destruct (now s) as [[t|e] s1]; [|done]. cbn [snd] in Hg1.
  destruct (_fit_tool_batch (dump_outcome cx) (l_run s) turn (Some used) (Some t) true) as [timed refusals] eqn:Ef.
  pose proof (grown_resolved s1) as Hg2. pose proof (resolved_none s1) as Hnone.
  destruct (_resolved_approval_calls cx s1) as [[decided|e] s2]; [|done]. cbn [snd] in Hg2.
  set (kept := List.filter _ (List.filter _ refusals)) in Hs.
  pose proof (grown_record kept s2) as Hg3. pose proof (recorded_results kept s2) as Hrec.
  destruct (_record_refusals cx kept s2) as [[[]|e] s3]; [|done]. cbn [snd] in Hg3.
  injection Hs as <- <-. assert (Hg : grown s s3) by (etrans; [exact Hg1|]; by etrans).
  split; [exact Hg|]. intros c Hc.
  destruct (decide (call_id c ∈ answered)) as [|Hna]; [by left|right].
  destruct (decide (call_id c ∈ _budget_refused_calls cx (conv s2))) as [Hb|Hb].
  { right. eapply grown_results; [exact Hg3|]. by apply budget_refused_answered. }
  destruct (refused_call (dump_outcome cx) (l_run s) turn (Some used) (Some t) true c Hc) as [Hin|(r & Hin & Hr)].
  - left. apply elem_filter. split; [by eapply fitted_proposed|]. apply bool_decide_eq_true.
    rewrite Ef in Hin. cbn in Hin. apply elem_of_difference. split; [|done].
    do 2 (apply elem_of_union; left). apply elem_of_list_to_set, list_elem_of_fmap. by exists c.
  - rewrite Ef in Hin. cbn in Hin. destruct (decide (call_id c ∈ decided)) as [Hdec|Hdec].
    + left. apply elem_filter. split.
      * apply whole_proposed; [|done]. destruct Hd as [Hnp|Hfit]; [|done].
        destruct Hg1 as (_ & Hp1 & _). rewrite Hp1 in Hnone. injection (Hnone Hnp) as -> _. set_solver.
      * apply bool_decide_eq_true, elem_of_difference. split; [|done].
        apply elem_of_union; left. by apply elem_of_union; right.
    + right. rewrite <- Hr. apply (Hrec s3 (c, r) eq_refl). apply elem_filter. cbn. split.
      * apply elem_filter. cbn. split; [done|]. by rewrite bool_decide_false.
      * by rewrite bool_decide_false.
Qed.

(** ** The batch, dispatched *)
#[local] Existing Instances quiet_pre quiet_objects quiet_contents.
Definition gaining (s s' : LoopState W) : Prop := ∀ i, i ∈ results_of (conv s) → i ∈ results_of (conv s').
#[local] Instance gaining_pre : PreOrder gaining.
Proof. split; [by intros s i|]. intros a b c Hab Hbc i Hi. by apply Hbc, Hab. Qed.
Lemma grown_gaining s s' : grown s s' → gaining s s'.
Proof. intros Hg i. by apply grown_results. Qed.
Lemma quiet_gaining s s' : quiet s s' → gaining s s'.
Proof. intros Hq i. by rewrite (quiet_conversation _ _ Hq). Qed.
Lemma answered_gaining s s' : answered s s' → gaining s s'.
Proof. intros (items & Hc & _) i Hi. rewrite Hc, results_of_app. apply elem_of_app. by left. Qed.
Lemma gaining_same s s' : conv s' = conv s → gaining s s'.
Proof. intros Hc i. by rewrite Hc. Qed.
Lemma grown_count b rs : keeps grown (count_resumed b rs).
Proof. unfold count_resumed. cbn zeta. keeps. Qed.

(** What the adoption of the results leaves. *)
Lemma adopted_spec b results (answered : gset string) s s' :
  map tr_call_id results = map call_id (rb_calls b) →
  (set_step (λ st, st <| st_tool_call_count := Z.of_nat (length results) |>) ≫= λ _,
   count_resumed b results ≫= λ _,
   fresh ← with_event_sequences cx
     (List.filter (λ r, negb (bool_decide (tr_call_id r ∈ answered))) results);
   extend (map ResultItem fresh) : M unit) s = (Ok tt, s') →
  gaining s s' ∧ ∀ c, c ∈ rb_calls b → call_id c ∈ answered ∨ call_id c ∈ results_of (conv s').
Proof.
  intros Hids Hs. unfold mbind, stateM_bind in Hs. cbn [set_step modify] in Hs.
  set (s0 := s <| l_step := _ |>) in Hs. pose proof (grown_count b results s0) as Hg.
  destruct (count_resumed b results s0) as [[[]|e] s1]; [|done]. cbn [snd] in Hg.
  set (fresh := List.filter _ results) in Hs.
  destruct (with_sequences_spec cx fresh s1) as [Hq Hf].
  destruct (with_event_sequences cx fresh s1) as [[fr|e] s2]; [|done]. cbn [fst snd] in *.
  injection Hs as <-. specialize (Hf fr eq_refl). split.
  - intros i Hi. cbn. rewrite results_of_app. apply elem_of_app. left. apply (quiet_gaining _ _ Hq).
    apply (grown_gaining _ _ Hg). exact Hi.
  - intros c Hc. destruct (decide (call_id c ∈ answered)) as [|Hna]; [by left|right]. cbn.
    rewrite results_of_app, results_of_results. apply elem_of_app. right. rewrite Hf.
    assert (Hin : call_id c ∈ map tr_call_id results) by (rewrite Hids; apply list_elem_of_fmap; by exists c).
    apply list_elem_of_fmap in Hin as (r & Hr & Hin). rewrite Hr in Hna |- *. apply list_elem_of_fmap. exists r.
    split; [done|]. apply elem_filter. split; [done|]. by rewrite bool_decide_false.
Qed.
Lemma dispatch_resumed_spec b answered s s' :
  dispatch_resumed cx b answered s = (Ok Continue, s') →
  pending s' = [] ∧ gaining s s' ∧
  ∀ c, c ∈ rb_calls b → call_id c ∈ answered ∨ call_id c ∈ results_of (conv s').
Proof.
  unfold dispatch_resumed. intros Hs. unfold mbind, stateM_bind in Hs. cbn [set_cp modify] in Hs.
  set (s0 := s <| l_checkpoint := _ |>) in Hs. pose proof (grown_step_at (rb_step_number b) s0) as Hg0.
  destruct (step_at (rb_step_number b) s0) as [[[]|e] s1]; [|done]. cbn [snd] in Hg0.
  set (s2 := s1 <| l_checkpoint := _ |>) in Hs.
  pose proof (quiet_recall cx (Some (rb_step_number b, rb_baseline b)) s2) as Hq2.
  destruct (prepare_recall cx _ s2) as [[[]|e] s3]; [|done]. cbn [snd] in Hq2.
  destruct (recall_phase_dispatch (rb_calls b) s3) as [Hq3 Hids].
  destruct (recall_phase (dispatch (rb_calls b)) s3) as [[results|e] s4]; [|done]. cbn [fst snd] in *.
  specialize (Hids results eq_refl).
  pose proof (adopted_spec b results answered s4) as Had. unfold mbind, stateM_bind in Had.
  cbn [set_step modify] in Hs, Had. set (s5 := s4 <| l_step := _ |>) in Hs, Had.
  destruct (count_resumed b results s5) as [[[]|e] s6]; [|done].
  destruct (with_event_sequences cx _ s6) as [[fresh|e] s7]; [|done].
  set (s8 := (extend (map ResultItem fresh) s7).2).
  destruct (Had s8 Hids eq_refl) as [Hg8 Hans]. clear Had.
  change (extend (map ResultItem fresh) s7) with (Ok tt, s8) in Hs. cbn [gets lift] in Hs.
  destruct (apply_tool_evidence _ _) as [ws|e]; [|done]. cbn [set_ws set_cp modify] in Hs.
  set (s9 := _ <| l_checkpoint := _ |>) in Hs.
  destruct (recover_spec cx 3 (rb_calls b) results s9) as (_ & _ & Hrec). specialize (Hrec eq_refl).
  destruct (recover_browser_failure cx 3 (rb_calls b) results s9) as [[[[]|]|e] s10]; try done. cbn in Hrec.
  destruct Hrec as [Hg10 Hp10].
  pose proof (keeps_checkpoint cx quiet "tool_recovered" None s10) as Hq11.
  destruct (checkpoint cx "tool_recovered" None s10) as [[[]|e] s11]; [|done]. cbn [snd] in Hq11.
  injection Hs as <-. rewrite (quiet_pending _ _ Hq11). split; [done|].
  assert (H1 : gaining s s4).
  { etrans; [by apply (gaining_same s s0)|]. etrans; [by apply grown_gaining|].
    etrans; [by apply (gaining_same s1 s2)|]. etrans; by apply quiet_gaining. }
  assert (H2 : gaining s8 s11).
  { etrans; [by apply (gaining_same s8 s9)|]. etrans; [by apply answered_gaining|]. by apply quiet_gaining. }
  split; [etrans; [exact H1|]; by etrans|]. intros c Hc. destruct (Hans c Hc); [by left|right; by apply H2].
Qed.

(** ** The batch of a resumption *)
(** The checkpoint's own: the calls it recorded as pending, or its unanswered turn. *)
Definition own_batch (s : LoopState W) : list ToolCallItem :=
  if nonempty (pending s) then pending s
  else if all_answered (_latest_turn (conv s)).1 (_latest_turn (conv s)).2 then []
  else (_latest_turn (conv s)).1.
Definition holds_turn (adopted : list ConversationItem) : bool :=
  existsb (λ x, match x with AssistantItem _ | CallItem _ => true | _ => false end) adopted.
(** [s1] is the state in which the log's items were adopted. *)
Definition resumed_calls (s s1 : LoopState W) (adopted : list ConversationItem) : list ToolCallItem :=
  if holds_turn adopted then (_latest_turn (conv s1)).1 else own_batch s.
Definition watermark (s : LoopState W) : option Z :=
  as_int (default (JInt 0) (dict_get "tool_call_count" (budget_state (l_checkpoint s)))).

Definition covered (batch : list ToolCallItem) (ids : gset string) (s : LoopState W) : Prop :=
  ∀ c, c ∈ batch → call_id c ∈ ids ∨ call_id c ∈ results_of (conv s).
Lemma guard_resumed_keeps (b : bool) latest r :
  keeps grown (if b then guard_resumed cx latest r else mret None).
Proof. destruct b; keeps. Qed.
Lemma resume_adopted_spec adopted latest ids baseline r s x s' :
  resume_adopted cx adopted latest ids baseline r s = (Ok x, s') →
  pending_approval_ids (l_checkpoint s) = [] →
  gaining s s' ∧
  match x with
  | inl b => ∀ c, c ∈ latest → c ∈ rb_calls b ∨ call_id c ∈ ids ∨ call_id c ∈ results_of (conv s')
  | inr None => pending s' = [] ∧ covered latest ids s'
  | inr (Some _) => True
  end.
Proof.
  unfold resume_adopted, mbind, stateM_bind. cbn [set_cp modify]. intros Hs Hp.
  set (s0 := s <| l_checkpoint := _ |>) in Hs.
  assert (Hg0 : grown s s0) by (split_and!; try done; exists []; cbn; by rewrite app_nil_r).
  match type of Hs with context [match ?m s0 with _ => _ end] => pose proof (guard_resumed_keeps _ latest r : keeps grown m) as Hg1;
    specialize (Hg1 s0); destruct (m s0) as [[g|e] s1]; [cbn [snd] in Hg1|done] end.
  assert (Hg : grown s s1) by (by etrans).
  destruct g as [o|]; [injection Hs as <- <-; split; [by apply grown_gaining|done]|].
  cbn [gets] in Hs. set (used := default (tool_call_count (l_run s1)) baseline) in Hs.
  destruct (_fit_resumed_batch cx latest used ids s1) as [[fitted|e] s2] eqn:E2; [|done].
  apply fit_resumed_spec in E2 as [Hg2 Hfit].
  2: { left. destruct Hg as (_ & -> & _). exact Hp. }
  cbn [gets] in Hs. destruct (List.filter _ fitted) as [|c0 l] eqn:Ecalls.
  - set (charge := if _ =? 0 then _ else _) in Hs.
    assert (Hcharge : keeps grown charge) by (unfold charge; destruct (_ =? 0); keeps).
    specialize (Hcharge s2). destruct (charge s2) as [[[]|e] s3]; [|done]. cbn [snd] in Hcharge.
    cbn [mret stateM_ret] in Hs. injection Hs as <- <-.
    assert (Hall : gaining s s3) by (apply grown_gaining; etrans; [exact Hg|]; by etrans).
    split; [exact Hall|]. assert (Hcov : covered latest ids s3).
    { intros c Hc. destruct (Hfit c Hc) as [?|[Hin|Hr]]; [by left| |right; by eapply grown_results].
      left. destruct (decide (call_id c ∈ ids)) as [|Hn]; [done|].
      assert (Hx : c ∈ List.filter (λ c, negb (bool_decide (call_id c ∈ ids))) fitted).
      { apply elem_filter. by rewrite bool_decide_false. }
      rewrite Ecalls in Hx. set_solver. }
    destruct (last adopted) as [[]|]; cbn; by try split.
  - injection Hs as <- <-. split; [apply grown_gaining; by etrans|]. cbn. intros c Hc.
    destruct (Hfit c Hc) as [?|[?|?]]; auto.
Qed.
Lemma resume_own_spec turn calls ids r s x s' n :
  resume_own cx turn calls ids r s = (Ok x, s') →
  let batch := if nonempty turn then turn else calls in
  watermark s = Some n → decidable_batch s batch n →
  gaining s s' ∧
  match x with
  | inl b => ∀ c, c ∈ batch → c ∈ rb_calls b ∨ call_id c ∈ ids ∨ call_id c ∈ results_of (conv s')
  | inr None => pending s' = [] ∧ covered batch ids s'
  | inr (Some _) => True
  end.
Proof.
  intros Hs batch Hw Hd. unfold resume_own, mbind, stateM_bind in Hs. cbn [gets] in Hs.
  unfold watermark in Hw. rewrite Hw in Hs.
  match type of Hs with context [match ?m s with _ => _ end] => pose proof (guard_resumed_keeps _ turn r : keeps grown m) as Hg1;
    specialize (Hg1 s); destruct (m s) as [[g|e] s1]; [cbn [snd] in Hg1|done] end.
  destruct g as [o|]; [injection Hs as <- <-; split; [by apply grown_gaining|done]|].
  set (fit := if nonempty turn then _ else _) in Hs.
  assert (Hfit : ∀ fitted s2, fit s1 = (Ok fitted, s2) → grown s1 s2 ∧
    ∀ c, c ∈ batch → call_id c ∈ ids ∨ c ∈ fitted ∨ call_id c ∈ results_of (conv s2)).
  { pose proof (decidable_grown s s1 batch n Hg1 Hd) as Hd1. intros fitted s2. unfold fit, batch in *.
    destruct (nonempty turn); [intros; by eapply fit_resumed_spec|].
    destruct (nonempty calls); [intros; by eapply fit_resumed_spec|]. intros [= <- <-]. split; [done|]. auto. }
  destruct (fit s1) as [[fitted|e] s2]; [|done]. destruct (Hfit fitted s2 eq_refl) as [Hg2 Hcov].
  assert (Hg : gaining s s2) by (apply grown_gaining; by etrans).
  destruct fitted as [|c0 l].
  - injection Hs as <- <-. split; [exact Hg|]. split; [done|]. intros c Hc.
    destruct (Hcov c Hc) as [?|[?|?]]; [by left|set_solver|by right].
  - injection Hs as <- <-. split; [exact Hg|]. cbn. intros c Hc. destruct (Hcov c Hc) as [?|[?|?]]; auto.
Qed.

(** What the choice of a batch leaves: nothing to do, or a batch to dispatch. *)
Definition left_to_do (batch : list ToolCallItem) (ids : gset string) (s s' : LoopState W)
    (x : resumed_batch + option RunOutcome) : Prop :=
  gaining s s' ∧
  match x with
  | inl b => ∀ c, c ∈ batch → c ∈ rb_calls b ∨ call_id c ∈ ids ∨ call_id c ∈ results_of (conv s')
  | inr None => pending s' = [] ∧ covered batch ids s'
  | inr (Some _) => True
  end.
(** The turn [_resume_pending_tools] gives to [resume_own]. *)
Definition own_turn (s : LoopState W) : list ToolCallItem :=
  if nonempty (pending s) || all_answered (_latest_turn (conv s)).1 (_latest_turn (conv s)).2 then []
  else (_latest_turn (conv s)).1.
Lemma own_turn_batch s : (if nonempty (own_turn s) then own_turn s else pending s) = own_batch s.
Proof.
  unfold own_turn, own_batch. destruct (pending s); cbn [nonempty orb]; [|done].
  destruct (_latest_turn (conv s)) as [turn ids]. cbn [fst snd].
  destruct (all_answered turn ids); [done|by destruct turn].
Qed.
Definition within_budget (s : LoopState W) : Prop :=
  pending_approval_ids (l_checkpoint s) = [] ∨ ∃ n, watermark s = Some n ∧
    n + Z.of_nat (length (own_batch s)) ≤ max_tool_calls (limits (l_run s)).
Lemma resume_checkpoint_spec s s4 ids r x s5 :
  grown s s4 → is_Some (watermark s) → within_budget s →
  resume_own cx (own_turn s) (pending s) ids r s4 = (Ok x, s5) → left_to_do (own_batch s) ids s4 s5 x.
Proof.
  intros Hg [n Hn] Hd Hc.
  assert (Hn4 : watermark s4 = Some n) by (unfold watermark; by destruct Hg as (_ & _ & -> & _)).
  apply (resume_own_spec _ _ _ _ _ _ _ n) in Hc; rewrite ?own_turn_batch in *; [exact Hc|exact Hn4|].
  eapply decidable_grown; [exact Hg|]. destruct Hd as [?|(n' & Hn' & Hfit)]; [by left|right].
  rewrite Hn in Hn'. by injection Hn' as <-.
Qed.

(** C17: A resumed batch is answered. Whatever it was that stopped the run - an approval, a
    question, a crash that left a turn in the log but not in the checkpoint - a resumption
    that goes on to the loop has left nothing pending, and every call of the batch has its
    result in the conversation: the stored one, the tool's, or the refusal of the call. A
    turn the checkpoint had not seen stopped before any approval was asked for; otherwise the
    batch has its watermark of calls used, and one that waited for an approval is within the
    tool budget it was proposed under. *)
Theorem resume_answers_batch s adopted s1 s' :
  _adopt_committed_history s = (Ok adopted, s1) →
  (if holds_turn adopted then pending_approval_ids (l_checkpoint s) = []
   else within_budget s ∧ is_Some (watermark s)) →
  _resume_pending_tools cx s = (Ok Continue, s') →
  pending s' = [] ∧ ∀ c, c ∈ resumed_calls s s1 adopted → call_id c ∈ results_of (conv s').
Proof.
  intros Ha Hd Hs. unfold _resume_pending_tools, mbind, stateM_bind in Hs. cbn [gets] in Hs. cbn zeta in Hs.
  pose proof (eq_refl (own_turn s)) as Hturn. unfold own_turn at 1 in Hturn.
  destruct (_latest_turn (conv s)) as [turn answered0]. cbn [fst snd] in Hturn. rewrite Hturn in Hs.
  pose proof (grown_adopt s) as Hg1. rewrite Ha in Hs, Hg1. cbn [snd] in Hg1. unfold resumed_calls.
  pose proof (latest_answered (conv s1)) as Hids.
  destruct (_latest_turn (conv s1)) as [latest ids]. cbn [fst snd] in Hids |- *.
  pose proof (grown_controls latest s1) as Hg2.
  destruct (_turn_controls cx latest s1) as [[controls|e] s2]; [|done]. cbn [snd] in Hg2.
  pose proof (grown_step_at (step_count (l_run s2)) s2) as Hg3.
  destruct (step_at (step_count (l_run s2)) s2) as [[[]|e] s3]; [|done]. cbn [snd] in Hg3.
  pose proof (grown_repair latest ids controls.1 s3) as Hg4.
  destruct (repair_usage cx latest ids controls.1 s3) as [[[]|e] s4]; [|done]. cbn [snd] in Hg4.
  assert (Hg14 : grown s1 s4) by (etrans; [exact Hg2|]; by etrans).
  assert (Hg : grown s s4) by (by etrans). fold (holds_turn adopted) in Hs.
  match goal with |- _ ∧ ∀ c, c ∈ ?b → _ => set (batch := b) end.
  match type of Hs with context [match ?m s4 with _ => _ end] => set (choose := m) in Hs end.
  assert (Hchoose : ∀ x s5, choose s4 = (Ok x, s5) → left_to_do batch ids s4 s5 x).
  { intros x s5. unfold choose, batch. destruct (holds_turn adopted).
    - intros Hc. eapply resume_adopted_spec; [exact Hc|]. by destruct Hg as (_ & -> & _).
    - destruct Hd. by apply resume_checkpoint_spec. }
  destruct (choose s4) as [[x|e] s5]; [|done]. destruct (Hchoose x s5 eq_refl) as [Hg5 Hx].
  assert (H15 : gaining s1 s5) by (etrans; [by apply grown_gaining|exact Hg5]).
  destruct x as [b|[o|]].
  - apply dispatch_resumed_spec in Hs as (Hp & Hg6 & Hb). split; [exact Hp|]. intros c Hc.
    assert (Hin : call_id c ∈ ids ∨ call_id c ∈ results_of (conv s')).
    { destruct (Hx c Hc) as [Hin|[Hin|Hin]]; [by apply Hb|by left|right; by apply Hg6]. }
    destruct Hin; [by apply Hg6, H15, Hids|done].
  - discriminate.
  - injection Hs as <-. destruct Hx as [Hp Hcov]. split; [exact Hp|]. intros c Hc.
    destruct (Hcov c Hc) as [Hin|]; [|done]. by apply H15, Hids.
Qed.
End resume.
