(* ===== verification/ExecutorWorld.v ===== *)
(** * A journalled world for the executor

    The scripted world of the loop under a journal: what a unit of work writes is staged,
    a commit makes it durable, a rollback drops it, and one boundary of finalization can
    be made to fail. Every law the executor's theorems ask for holds of it, and the
    theorems are at work on whole executions. *)
From S2P Require Import Prelude StateLogic PyDecimal ToolInvocations Approvals EventModel RunModel RunSpec RunStore Sessions Cancellation Budgets PolicyModel Messages ModelStream ResponseText Checkpoints Compaction LoopGuards Artifacts LoopPorts Recall RunLoop RunLoopSpec LoopWorld LoopFrame Executor ExecutorFrame ExecutorSpec Execution Resume.

Record Durable := {
  d_base : World;
  d_committed : list write;
  d_staged : list write;
  (** The boundary of finalization that fails, once. *)
  d_fault : option string;
  d_reason : option CancelReason;
}.
#[global] Instance durable_eta : Eta Durable := λ w,
  {| d_base := d_base w; d_committed := d_committed w; d_staged := d_staged w;
     d_fault := d_fault w; d_reason := d_reason w |}.

(** A port of the scripted world, and one that stages a write. *)
Definition under {A} (f : World → A * World) (w : Durable) : A * Durable :=
  let '(a, b) := f (d_base w) in (a, w <| d_base := b |>).
Definition stage {A} (a : A) (x : write) (w : Durable) : result A * Durable :=
  (Ok a, w <| d_staged := (d_staged w ++ [x])%list |>).
Definition answer {A} (a : A) (w : Durable) : result A * Durable := (Ok a, w).

#[export] Instance durable_journal : Journal Durable := {| committed := d_committed; staged := d_staged |}.
#[export] Instance durable_ledger : BudgetLedger Durable := {|
  record_model a b c d e f g h i j := under (record_model a b c d e f g h i j);
  record_tools a b c d := under (record_tools a b c d);
|}.
#[export] Instance durable_writer : CheckpointWriter Durable := {|
  (* the store in memory takes no leases *)
  write_checkpoint a b c d _ f g := under (write_checkpoint a b c d false f g);
|}.
#[export] Instance durable_ports : LoopPorts Durable := {|
  RecallQuery := string;
  clock_now := under clock_now;
  new_id := under new_id;
  token_check w :=
    match d_reason w with
    | None => (Ok tt, w)
    | Some _ => (Raise (RunCancelledError "run cancelled"), w)
    end;
  uow_is_open w := false;
  uow_commit w :=
    (Ok tt, w <| d_committed := (d_committed w ++ d_staged w)%list |> <| d_staged := [] |>);
  uow_rollback before after :=
    after <| d_base := uow_rollback (d_base before) (d_base after) |> <| d_staged := [] |>;
  events_append e l w :=
    let n := Z.of_nat (length (w_log (d_base w))) + 1 in
    stage n (WEvent e n) (under (events_append e l) w).2;
  events_list_after a b c d := under (events_list_after a b c d);
  runs_update_counters run l := under (runs_update_counters run l);
  invocations_list_for_run a b := under (invocations_list_for_run a b);
  artifacts_list_for_run a b := under (artifacts_list_for_run a b);
  artifacts_retain_for_reply a b c := under (artifacts_retain_for_reply a b c);
  sessions_metadata a b := under (sessions_metadata a b);
  browser_profiles_get a b := under (browser_profiles_get a b);
  plan_recall run cp := under (plan_recall run cp);
  run_recall run q t := under (run_recall (W:=World) run q t);
  assemble run cp p := under (assemble run cp p);
  compact_context cp n r := under (compact_context cp n r);
  estimator_reconcile m a b w := w;
  provider_stream r a := under (provider_stream r a);
  on_model_event run e := under (on_model_event run e);
  dispatch_tools a b c d e := under (dispatch_tools a b c d e);
|}.

Definition agent_one : string := "balanced".
Definition owner_one : Principal.t := principal script_context.
Definition plain_plan : ContextPlan :=
  {| plan_epoch := 1; plan_tool_names := ["files.read"];
     plan_pinned_specs := [("files.read", "1", JObj [])]; plan_snapshot_id := None;
     plan_memory_snapshot := "" |}.
#[export] Instance durable_executor : ExecutorPorts Durable := {|
  Agent := string;
  agent_model_policy a := a;
  token_reason w := (d_reason w, w);
  checkpoints_latest _ := answer None;
  checkpoints_write_full i cp l := stage tt (WCheckpoint i cp);
  seed_checkpoint run l who w :=
    (Ok ((initial_checkpoint run (w_clock (d_base w))) <| cp_status := RUNNING |>), w);
  runs_transition i a b f m l := stage (sample_run i 9 b) (WTransition i a b f m);
  runs_set_provider_pin _ _ := answer tt;
  queue_release := Some (λ l st, stage tt (WRelease l st));
  approvals_get _ _ w := (Raise (NotFoundError "approval not found"), w);
  approvals_cancel_for_run i := stage tt (WCancelApprovals i);
  history_catch_up _ := answer ([], 0);
  history_read _ _ := answer ([], 0);
  events_latest_before _ _ _ _ _ := answer None;
  surfaces_for_session _ := answer None;
  replies_enqueue r := stage tt (WReply r);
  people_lock _ := answer tt;
  traces_get _ _ := answer tt;
  notify_transition n := stage tt (WNotify n);
  write_probe b w :=
    if bool_decide (d_fault w = Some b)
    then (Raise (RuntimeError "the database went away"), w <| d_fault := None |>) else (Ok tt, w);
  principals_for_run _ := answer owner_one;
  agents_get_version _ _ := answer agent_one;
  model_settings_current _ := answer None;
  router_resolve _ _ := answer (resolved_model script_context);
  router_pin i m w :=
    (Build_ProviderPin i (rm_provider m) (rm_model m) "1" (w_clock (d_base w)), w);
  router_resolve_pinned _ := answer (resolved_model script_context);
  bind_provider _ w := w;
  typed_task _ _ := answer false;
  plan_context _ _ _ _ _ _ _ := answer plain_plan;
  on_token _ w := w;
  child_suspension _ _ := answer tt;
  on_run_complete _ _ := answer tt;
  on_token_complete _ w := w;
|}.

(** ** The laws *)
Lemma under_unwritten {A} (f : World → A * World) w : unwritten w (under f w).2.
Proof. unfold under. by destruct (f (d_base w)). Qed.
Lemma under_reads {A} (f : World → result A * World) : stages (under f) (λ _, []).
Proof.
  intros w. pose proof (under_unwritten f w) as [Hc Hs]. destruct (under f w) as [[a|e] w']; cbn in *.
  - by rewrite app_nil_r.
  - by split.
Qed.
Lemma answer_reads {A} (a : A) : stages (answer a) (λ _, []).
Proof. intros w. cbn. by rewrite app_nil_r. Qed.
Lemma stage_stages {A} (a : A) x : stages (stage a x) (λ _, [x]).
Proof. by intros w. Qed.
#[export] Instance durable_journal_laws : JournalLaws Durable.
Proof.
  split.
  - intros w. apply (under_unwritten clock_now).
  - intros w. apply (under_unwritten new_id).
  - by intros w.
  - by intros w.
  - by intros w w'.
  - intros e l w. by split.
  - intros i cp l. apply stage_stages.
  - intros i a b f m l. apply stage_stages.
  - intros release l st [= <-]. apply stage_stages.
  - intros n. apply stage_stages.
  - intros r. apply stage_stages.
  - intros i. apply stage_stages.
  - intros b w. cbn. case_bool_decide; cbn; [done|by rewrite app_nil_r].
  - intros a p w. done.
  - intros a b c d e. apply answer_reads.
  - intros i. apply answer_reads.
Qed.
#[export] Instance durable_ledger_laws : BudgetLedgerLaws Durable.
Proof.
  split.
  - intros run x step a p m v stop err t w. cbn [record_model durable_ledger]. unfold under.
    destruct (record_model_run (W:=World) run x step a p m v stop err t (d_base w)) as (u & n & t' & Hr).
    destruct (record_model _ _ _ _ _ _ _ _ _ _ _) as [[r run'] b]. by exists u, n, t'.
  - intros run n step t w. cbn [record_tools durable_ledger]. unfold under.
    pose proof (record_tools_run (W:=World) run n step t (d_base w)) as Hr.
    by destruct (record_tools _ _ _ _ _) as [[r run'] b].
Qed.
#[export] Instance durable_writer_laws : CheckpointWriterLaws Durable.
Proof.
  split. intros cx run trigger pending leased now cp w. cbn [write_checkpoint durable_writer]. unfold under.
  pose proof (write_keeps (W:=World) cx run trigger pending false now cp (d_base w)) as Hw.
  by destruct (write_checkpoint _ _ _ _ _ _ _ _) as [[r cp'] b].
Qed.
#[export] Instance durable_dispatch_laws : ToolDispatchLaws Durable.
Proof.
  split. intros run cp calls step permit w rs effects w'. cbn [dispatch_tools durable_ports]. unfold under.
  destruct (dispatch_tools _ _ _ _ _ _) as [[r fx] b] eqn:E. intros [= -> -> <-].
  by eapply (dispatch_answers (W:=World)).
Qed.

(** Nothing an execution does before its finalization settles a run. *)
#[export] Instance inside_pre : PreOrder (settles_nothing_in (W:=Durable)).
Proof.
  split.
  - intros w. split; [done|]. exists []. by rewrite app_nil_r.
  - intros a b c (Hc & ws & Hs & Hn) (Hc' & ws' & Hs' & Hn'). split; [congruence|].
    exists (ws ++ ws')%list. rewrite Hs', Hs, settling_app, Hn, Hn'. by rewrite (assoc_L app).
Qed.
#[export] Instance outside_pre : PreOrder (settles_nothing (W:=Durable)).
Proof.
  split; [by intros w|]. intros a b c Hab Hbc Hs. destruct (Hab Hs) as [Hs' Hc].
  destruct (Hbc Hs') as [? ?]. split; congruence.
Qed.
Lemma unwritten_inside (w w' : Durable) : unwritten w w' → settles_nothing_in w w'.
Proof. intros [Hc Hs]. split; [done|]. exists []. by rewrite Hs, app_nil_r. Qed.
Lemma unwritten_outside (w w' : Durable) : unwritten w w' → settles_nothing w w'.
Proof. intros [Hc Hs] Hn. rewrite Hc, Hs. done. Qed.
Lemma staged_inside {A} (a : A) x (w : Durable) : is_settling x = false → settles_nothing_in w (stage a x w).2.
Proof. intros Hx. split; [done|]. exists [x]. split; [done|]. unfold settling. cbn. by rewrite Hx. Qed.
Lemma under_inside {A} (f : World → A * World) w : settles_nothing_in w (under f w).2.
Proof. apply unwritten_inside, under_unwritten. Qed.
Lemma under_outside {A} (f : World → A * World) w : settles_nothing w (under f w).2.
Proof. apply unwritten_outside, under_unwritten. Qed.
Ltac durable_port := intros; first
  [ apply under_inside | apply under_outside | reflexivity
  | etrans; [apply under_inside|by apply staged_inside] ].
#[export] Instance durable_inside : Ticking Durable settles_nothing_in.
Proof. split; [apply _|durable_port..]. Qed.
#[export] Instance durable_outside : Ticking Durable settles_nothing.
Proof. split; [apply _|durable_port..]. Qed.
#[export] Instance durable_frame : WorldFrame Durable settles_nothing_in settles_nothing.
Proof.
  split; [apply _|apply _| | | |try durable_port..].
  - intros w w1 (Hc & ws & Hs & Hn) Hw. cbn in *. split; [done|].
    rewrite settling_app, Hs, Hw, Hc. cbn [app]. by rewrite Hn, app_nil_r.
  - intros w w1 (Hc & ws & Hs & Hn) Hw. cbn in *. by rewrite Hc.
  - intros e l w. exact (staged_inside 0 (WEvent e (Z.of_nat (length (w_log (d_base w))) + 1)) w eq_refl).
  - intros w. cbn. by destruct (d_reason w).
Qed.
#[export] Instance durable_executor_frame : ExecutorFrame Durable settles_nothing_in settles_nothing.
Proof. split; durable_port. Qed.

(** ** Whole executions *)
Definition held : WorkerLease :=
  {| lease_run_id := 1%N; worker_id := "w1"; lease_epoch_held := 1 |}.
Definition script_executor : RunExecutor Durable :=
  {| ex_context := script_context; ex_principal := owner_one;
     ex_resolved_model := resolved_model script_context; ex_has_router := false;
     ex_has_provider := λ _, true; ex_effective_chat := None; ex_reasoning_efforts := λ _, [];
     ex_validate_browser_binding := λ _, Ok tt; ex_notifies := true; ex_has_typed_task := false;
     ex_task_runner := None; ex_has_child_callback := false; ex_class_name := λ _, "RuntimeError";
     ex_message := λ _, "failed"; ex_log_failure := λ _ _ _, ∅; ex_dump_message := λ _, JNull;
     ex_dump_failure := λ _, JNull |}.
Definition durable_start (fault : option string) (why : option CancelReason) : LoopState Durable :=
  {| l_run := l_run script_start; l_checkpoint := l_checkpoint script_start; l_step := l_step script_start;
     l_permit := None;
     l_world := {| d_base := l_world script_start; d_committed := []; d_staged := [];
                   d_fault := fault; d_reason := why |} |}.
Definition executed (fault : option string) (why : option CancelReason) :=
  _execute_running script_executor (Some held) (durable_start fault why).
Definition written (x : write) : string :=
  match x with
  | WEvent e _ => ev_event_type e
  | WCheckpoint _ _ => "checkpoint"
  | WTransition _ _ to _ _ => "run " +:+ RunStatus_value to
  | WRelease _ _ => "lease"
  | WNotify _ => "notification"
  | WReply _ => "reply"
  | WCancelApprovals _ => "approvals"
  end.
Definition durable_writes (fault : option string) (why : option CancelReason) : list string :=
  map written (committed (l_world (executed fault why).2)).

(** A run that completes; one whose transition fails to be written; one fenced off. *)
Lemma script_executions :
  durable_writes None None =
    ["model.request.started"; "model.response.completed"; "model.request.started"; "model.response.completed";
     "assistant.message.completed"; "run.completed"; "notification"; "checkpoint"; "run COMPLETED"; "lease"] ∧
  durable_writes (Some "run") None =
    ["model.request.started"; "model.response.completed"; "model.request.started"; "model.response.completed";
     "assistant.message.completed"; "run.failed"; "notification"; "checkpoint"; "run FAILED"; "lease"] ∧
  durable_writes None (Some FENCED) = [] ∧
  durable_writes None (Some DEADLINE) = ["run.failed"; "notification"; "checkpoint"; "run FAILED"; "lease"].
Proof. repeat split; vm_compute; reflexivity. Qed.
Lemma execution_settles_once_witness :
  map written (settling (committed (l_world (executed None None).2))) = ["run COMPLETED"; "lease"] ∧
  let '(r, s') := executed None None in
  staged (l_world s') = [] ∧ ∃ ws, settling (committed (l_world s')) = ([] ++ ws)%list ∧
  match r with
  | Ok _ => settled_once (Some held) 1%N ws ∨ ws = [] ∧ fenced_off script_executor (Some held) (durable_start None None)
  | Raise _ => ws = []
  end.
Proof.
  split; [vm_compute; reflexivity|]. unfold executed.
  refine (execution_settles_once script_executor (Some held) _ _ (durable_start None None) eq_refl).
  - intros f cx [=].
  - intros f cx [=].
Defined.
Lemma execution_terminates_witness : (executed (Some "run") None).1 ≠ Ok false.
Proof.
  unfold executed. refine (execution_terminates script_executor (Some held) _ (durable_start (Some "run") None)).
  intros f cx [=].
Defined.

Definition finalized_late :=
  finalize script_executor (Some held) owner_one (completed script_answer) (durable_start (Some "run") None).
Lemma finalization_atomic_witness :
  map written (committed (l_world finalized_late.2)) =
    ["run.failed"; "notification"; "checkpoint"; "run FAILED"; "lease"] ∧
  let '(r, s') := finalized_late in
  staged (l_world s') = [] ∧ ∃ ws, committed (l_world s') = ([] ++ ws)%list ∧
  match r with
  | Ok _ => finalized script_executor (Some held) (l_run script_start) (l_checkpoint script_start)
              (completed script_answer) ws
  | Raise _ => gave_up (l_run script_start) (completed script_answer) ws
  end.
Proof.
  split; [vm_compute; reflexivity|]. unfold finalized_late.
  refine (finalization_atomic script_executor (Some held) owner_one (completed script_answer)
            (durable_start (Some "run") None) eq_refl).
Defined.

(** ** A resumed batch: a call the checkpoint recorded as pending *)
Definition interrupted : LoopState Durable :=
  let s := durable_start None None in
  s <| l_checkpoint := (l_checkpoint s) <| conversation := [CallItem script_call] |>
                                        <| pending_tool_calls := [script_call] |> |>.
Definition interrupted_adopted := _adopt_committed_history interrupted.
Definition interrupted_end := _resume_pending_tools script_context interrupted.
Lemma interrupted_ends : interrupted_end.1 = Ok Continue.
Proof. vm_compute. reflexivity. Qed.
Lemma resume_answers_batch_witness :
  results_of (conversation (l_checkpoint interrupted_end.2)) = ["c1"] ∧
  pending_tool_calls (l_checkpoint interrupted_end.2) = [] ∧
  ∀ c, c ∈ resumed_calls interrupted interrupted_adopted.2 [] →
    call_id c ∈ results_of (conversation (l_checkpoint interrupted_end.2)).
Proof.
  split; [vm_compute; reflexivity|].
  refine (resume_answers_batch script_context interrupted [] interrupted_adopted.2 interrupted_end.2 _ _ _).
  - vm_compute. reflexivity.
  - cbn. split; [by left|by eexists].
  - rewrite <- interrupted_ends. unfold interrupted_end. apply surjective_pairing.
Defined.
