(* ===== verification/ToolTrust.v ===== *)
(** * The trust of a tool call ([tools/executor.py])

    What a proposed call is judged by: the newest user message, the tools called since,
    the trust of what the active turn has read, the trust of each argument, and whether a
    memory the model wants to save restates what the owner just said. Regular expressions
    and Unicode folding are the fields of [Lexicon]; schema validation is a parameter. *)
From S2P Require Import Prelude PyDecimal PolicyModel Messages RunModel Checkpoints.

Definition TOOL_CALL_TOOL_NAME : string := "tool.call".
Definition SKILL_LOAD_TOOL_NAME : string := "skill.load".
Definition MEMORY_REMEMBER_TOOL_NAME : string := "memory.remember".
Definition TOOL_CALL_INPUT_SCHEMA : dict :=
  [("$schema", JStr "https://json-schema.org/draft/2020-12/schema"); ("type", JStr "object");
   ("properties", JObj
      [("name", JObj [("type", JStr "string"); ("minLength", JInt 1); ("maxLength", JInt 256)]);
       ("arguments", JObj [("type", JStr "object"); ("default", JObj [])])]);
   ("required", JArr [JStr "name"]); ("additionalProperties", JBool false)].

(** ** The active turn *)
Record AuthorizationTurn := {
  turn_newest_user_trust : TrustLevel;
  turn_tool_names : gset string;
  owner_texts : list string;
  conversation_untrusted : bool;
}.
Definition _G5_EXEMPT_TOOL_NAMES : list string := ["artifact.export"].
Definition _G5_EXEMPT_ANSWER_TRUSTS : list TrustLevel := [USER; PLATFORM].
(** Results that bring outside content. *)
Definition taints (t : TrustLevel) : bool := bool_decide (t ∈ [EXTERNAL_UNTRUSTED; KNOWLEDGE]).
Definition texts (content : list ContentPart) : list string :=
  omap (λ p, match p with TextPart t => Some t | _ => None end) content.

Section validation.
(** [validate_and_normalize]: the normalized arguments and their hash. *)
Context (validate_and_normalize : dict → dict → result (dict * string)).

Definition _unwrapped_call_name (c : ToolCallItem) : string :=
  if negb (String.eqb (tc_name c) TOOL_CALL_TOOL_NAME) then tc_name c
  else match validate_and_normalize (tc_arguments c) TOOL_CALL_INPUT_SCHEMA with
       | Ok (wrapper, _) =>
           match dict_get "name" wrapper with
           | Some (JStr n) => if String.eqb n "" then TOOL_CALL_TOOL_NAME else n
           | _ => TOOL_CALL_TOOL_NAME
           end
       | Raise _ => TOOL_CALL_TOOL_NAME
       end.
Definition exempt (name : string) (answer : option TrustLevel) : bool :=
  bool_decide (name ∈ _G5_EXEMPT_TOOL_NAMES) ||
  (String.eqb name "conversation.ask_user" &&
   match answer with Some t => bool_decide (t ∈ _G5_EXEMPT_ANSWER_TRUSTS) | None => false end).
(** The backwards walk to the newest user message. *)
Fixpoint scan_turn (items : list ConversationItem) (names : gset string)
    (answers : gmap string TrustLevel) : TrustLevel * gset string :=
  match items with
  | [] => (EXTERNAL_UNTRUSTED, names)
  | UserMessage _ trust _ _ _ :: _ => (trust, names)
  | ResultItem r :: items => scan_turn items names (<[tr_call_id r := tr_trust r]> answers)
  | CallItem c :: items =>
      let name := _unwrapped_call_name c in
      scan_turn items (if exempt name (answers !! call_id c) then names else {[name]} ∪ names) answers
  | _ :: items => scan_turn items names answers
  end.
Definition _active_turn_facts (conversation : list ConversationItem) : AuthorizationTurn :=
  let '(newest, names) := scan_turn (rev conversation) ∅ ∅ in
  {| turn_newest_user_trust := newest; turn_tool_names := names;
     owner_texts := flat_map (λ x, match x with
                                   | UserMessage content USER _ _ _ => texts content
                                   | _ => []
                                   end) conversation;
     conversation_untrusted := existsb (λ x, match x with
                                   | UserMessage _ trust _ _ _ => negb (bool_decide (trust = USER))
                                   | ResultItem r => taints (tr_trust r)
                                   | _ => false
                                   end) conversation |}.

(** [_turn_origin_trust]: the items since, and with, the newest user message; [inl] is
    what ends the walk early. *)
Fixpoint active_turn (items : list ConversationItem) : TrustLevel + list ConversationItem :=
  match items with
  | [] => inl EXTERNAL_UNTRUSTED
  | UserMessage content trust p n src :: _ =>
      if bool_decide (trust = USER) then inr [UserMessage content trust p n src] else inl trust
  | x :: items => match active_turn items with inl t => inl t | inr turn => inr (x :: turn) end
  end.
Definition named_calls (turn : list ConversationItem) (i : string) : list string :=
  omap (λ x, match x with
             | CallItem c => if String.eqb (call_id c) i then Some (tc_name c) else None
             | _ => None
             end) turn.
(** A skill body a review loaded itself, by its one call. *)
Definition review_load (run_kind : string) (turn : list ConversationItem) (r : ToolResultItem) : bool :=
  String.eqb run_kind "skill_review" &&
  bool_decide (named_calls turn (tr_call_id r) = [SKILL_LOAD_TOOL_NAME]).
Fixpoint taint (excused : ToolResultItem → bool) (origin : TrustLevel) (results : list ToolResultItem)
    : TrustLevel :=
  match results with
  | [] => origin
  | r :: results =>
      if taints (tr_trust r) then
        if excused r then taint excused origin results else EXTERNAL_UNTRUSTED
      else if bool_decide (tr_trust r = MEMORY) && bool_decide (origin = USER)
      then taint excused MEMORY results else taint excused origin results
  end.
Definition turn_results (turn : list ConversationItem) : list ToolResultItem :=
  omap (λ x, match x with ResultItem r => Some r | _ => None end) turn.
Definition _turn_origin_trust (cp : RunCheckpoint) (run_kind : string)
    (batch_results : list ToolResultItem) : TrustLevel :=
  match active_turn (rev (conversation cp)) with
  | inl t => t
  | inr turn => taint (review_load run_kind turn) (context_origin_trust cp)
                  (turn_results turn ++ batch_results)
  end.
End validation.

(** ** What the owner said *)
Record Lexicon := {
  (** [_grounding_text] then [lexical_tokens] *)
  tokens_of : string → gset string;
  (** [_WORD.findall] of the folded text *)
  words_of : string → list string;
  (** [_CLAUSE_TOKEN.findall] of the folded text *)
  clause_tokens : string → list string;
  _owner_sentences : string → list string;
  isalpha : string → bool;
}.
Definition MINIMUM_LEXICAL_TERM_LENGTH : nat := 3.
Definition _RECALL_FUNCTION_WORDS : list string :=
  [
   "a"; "an"; "the"; "this"; "that"; "these"; "those"; "am"; "is"; "are"; "was"; "were"; "be";
   "been"; "being"; "do"; "does"; "did"; "have"; "has"; "had"; "can"; "could"; "would";
   "should"; "will"; "may"; "might"; "must"; "i"; "me"; "my"; "mine"; "we"; "us"; "our";
   "ours"; "you"; "your"; "yours"; "he"; "him"; "his"; "she"; "her"; "hers"; "it"; "its";
   "they"; "them"; "their"; "theirs"; "who"; "whom"; "whose"; "what"; "which"; "when";
   "where"; "why"; "how"; "and"; "or"; "but"; "if"; "as"; "at"; "by"; "for"; "from"; "in";
   "into"; "of"; "on"; "onto"; "to"; "with"; "about"; "than"; "then"; "there"; "here"
  ].
Definition OWNER_GROUNDING_FREE_WORDS : nat := 3.
Definition OWNER_GROUNDING_MINIMUM_WORDS : nat := 2.
Definition _NEGATIONS : list string :=
  ["not"; "no"; "never"; "none"; "nothing"; "nobody"; "nowhere"; "neither"; "nor"; "without"].
Definition _MODALITY : list string :=
  ["can"; "could"; "may"; "might"; "must"; "shall"; "should"; "will"; "would"; "ought"; "maybe";
   "perhaps"; "probably"; "possibly"].
Definition _FREQUENCY : list string :=
  ["always"; "usually"; "often"; "sometimes"; "occasionally"; "rarely"; "seldom"; "hardly";
   "barely"; "scarcely"; "only"].
Definition _MEANING_MARKERS : gset string := list_to_set (_NEGATIONS ++ _MODALITY ++ _FREQUENCY).
Definition _CLAUSE_JOINERS : list string :=
  ["and"; "but"; "or"; "nor"; "while"; "whereas"; "although"; "though"; "because"; "yet"].

Section grounding.
Context (lex : Lexicon).

Definition lexical (t : string) : bool :=
  (MINIMUM_LEXICAL_TERM_LENGTH <=? String.length t)%nat && negb (bool_decide (t ∈ _RECALL_FUNCTION_WORDS)).
Definition _content_lexemes (text : string) : gset string := filter (λ t, lexical t = true) (tokens_of lex text).
(** A [Counter] is a multiset: the markers in any order. *)
Definition _meaning_markers (text : string) : list string :=
  List.filter (λ w, bool_decide (w ∈ _MEANING_MARKERS)) (words_of lex text).

Definition drop_suffix (suffix word : string) : option string :=
  if py_endswith suffix word && (String.length suffix + 2 <? String.length word)%nat
  then Some (String.substring 0 (String.length word - String.length suffix) word) else None.
Definition _stem (word : string) : string :=
  let word := match drop_suffix "ing" word with Some w => w | None =>
              match drop_suffix "ed" word with Some w => w | None =>
              match drop_suffix "es" word with Some w => w | None =>
              match drop_suffix "s" word with Some w => w | None => word end end end end in
  if py_endswith "e" word && (3 <? String.length word)%nat
  then String.substring 0 (String.length word - 1) word else word.
Fixpoint phrased (owner_words owner_stems : gset string) (seen_marker : bool) (tokens : list string) : bool :=
  match tokens with
  | [] => false
  | t :: tokens =>
      if bool_decide (t ∈ _MEANING_MARKERS) then phrased owner_words owner_stems true tokens
      else (seen_marker && lexical t && negb (bool_decide (t ∈ _CLAUSE_JOINERS)) &&
            negb (bool_decide (t ∈ owner_words)) && negb (bool_decide (_stem t ∈ owner_stems))) ||
           phrased owner_words owner_stems seen_marker tokens
  end.
Definition _phrased_under_a_marker (statement : string) (owner_words : gset string) : bool :=
  phrased owner_words (set_map _stem owner_words) false (words_of lex statement).

Definition _is_join (t : string) : bool := bool_decide (t ∈ _CLAUSE_JOINERS) || negb (isalpha lex t).
(** The frame, newest token first. *)
Definition frame_step (covered : gset string) (frame : list string) (t : string) : list string :=
  if bool_decide (t ∈ _MEANING_MARKERS) || (bool_decide (t ∈ covered) && negb (_is_join t)) then t :: frame
  else match frame with
       | last :: rest =>
           if _is_join t then
             if negb (_is_join last) then t :: frame
             else if isalpha lex t then t :: rest else frame
           else frame
       | [] => frame
       end.
Fixpoint trim_joins (frame : list string) : list string :=
  match frame with t :: rest => if _is_join t then trim_joins rest else frame | [] => [] end.
Definition _marker_frame (text : string) (covered : gset string) : list string :=
  rev (trim_joins (foldl (frame_step covered) [] (clause_tokens lex text))).

(** The owner's message and what the turn read after it, newest first; [None] when the
    turn is not the owner's. *)
Fixpoint turn_texts (items : list ConversationItem) (external : list string)
    : option (list string * list string) :=
  match items with
  | [] => None
  | UserMessage content trust _ _ _ :: _ =>
      if bool_decide (trust = USER) then Some (texts content, external) else None
  | ResultItem r :: items =>
      turn_texts items (if taints (tr_trust r) then (external ++ texts (content r))%list else external)
  | _ :: items => turn_texts items external
  end.
Definition spaced (l : list string) : string := String.concat " " l.
(** [math.ceil(0.6 * n)] *)
Definition coverage_floor (n : nat) : nat := ((3 * n + 4) / 5)%nat.
Definition owner_grounded_statement (statement : string) (conversation : list ConversationItem) : bool :=
  match turn_texts (rev conversation) [] with
  | None => false
  | Some (user_texts, external_texts) =>
      let words := _content_lexemes statement in
      if (size words <? OWNER_GROUNDING_MINIMUM_WORDS)%nat then false
      else
        let owner_words := _content_lexemes (spaced user_texts) in
        let external_words := _content_lexemes (spaced external_texts) in
        let covered := words ∩ owner_words in
        let tainted := (words ∖ owner_words) ∩ external_words in
        let free := words ∖ owner_words ∖ external_words in
        let candidates := List.filter
          (λ s, negb (bool_decide ((_content_lexemes s ∖ _MEANING_MARKERS) ∩ covered = ∅)))
          (_owner_sentences lex (spaced user_texts)) in
        let marked text := match _meaning_markers text with [] => false | _ => true end in
        let markers_match :=
          negb (marked statement || existsb marked candidates) ||
          match candidates with
          | [c] => bool_decide (_marker_frame c covered = _marker_frame statement covered) &&
                   negb (_phrased_under_a_marker statement owner_words)
          | _ => false
          end in
        bool_decide (tainted = ∅) &&
        (Nat.max OWNER_GROUNDING_MINIMUM_WORDS (coverage_floor (size words)) <=? size covered)%nat &&
        (size free <=? OWNER_GROUNDING_FREE_WORDS)%nat && markers_match
  end.
End grounding.

(** ** The trust of the arguments *)
Fixpoint py_in (p s : string) : bool :=
  py_startswith p s || match s with String _ s => py_in p s | EmptyString => false end.
Definition long_text (v : json) : option string :=
  match v with JStr t => if (16 <=? String.length t)%nat then Some t else None | _ => None end.
Definition owner_message (conversation : list ConversationItem) : option (list string) :=
  head (omap (λ x, match x with UserMessage content USER _ _ _ => Some (texts content) | _ => None end)
             (rev conversation)).
Definition _argument_trust (lex : Lexicon) (arguments : dict) (cp : RunCheckpoint) (tool : string)
    : gmap string TrustLevel :=
  let all t := list_to_map (map (λ kv, (kv.1, t)) arguments) in
  if bool_decide (tool ∈ ["job.manage"; "job.run"]) &&
     bool_decide (_turn_origin_trust cp "interactive" [] = USER)
  then all INTERNAL_TOOL
  else match owner_message (conversation cp) with
  | None => all EXTERNAL_UNTRUSTED
  | Some user_text =>
      let trust := list_to_map (map (λ kv, (kv.1,
        match long_text kv.2 with
        | Some v => if existsb (py_in v) user_text then USER else EXTERNAL_UNTRUSTED
        | None => EXTERNAL_UNTRUSTED
        end)) arguments) : gmap string TrustLevel in
      if String.eqb tool MEMORY_REMEMBER_TOOL_NAME && negb (bool_decide (trust !! "statement" = Some USER))
      then match dict_get "statement" arguments with
           | Some (JStr s) => if owner_grounded_statement lex s (conversation cp)
                              then <["statement" := USER]> trust else trust
           | _ => trust
           end
      else trust
  end.


(** ** When a call is the owner's *)
Definition is_user_message (x : ConversationItem) : bool :=
  match x with UserMessage _ _ _ _ _ => true | _ => false end.

Section owner_turn.
Implicit Types (items turn : list ConversationItem) (r : ToolResultItem).

Lemma taint_USER excused origin results :
  taint excused origin results = USER ↔
  origin = USER ∧ ∀ r, r ∈ results → tr_trust r ≠ MEMORY ∧ (taints (tr_trust r) = true → excused r = true).
Proof.
  rewrite <- Forall_forall. revert origin. induction results as [|r rs IH]; intros o; simpl.
  { rewrite Forall_nil. tauto. }
  rewrite Forall_cons. destruct (taints (tr_trust r)) eqn:T.
  - assert (tr_trust r ≠ MEMORY) by (intros E; rewrite E in T; done).
    destruct (excused r) eqn:X; [rewrite IH; tauto|]. split; [done|]. intros (_ & [_ H'] & _). by discriminate (H' eq_refl).
  - assert (taints (tr_trust r) = true → excused r = true) by congruence.
    case_bool_decide as M; case_bool_decide as O; simpl; rewrite IH; intuition congruence.
Qed.

Lemma active_turn_inr items turn :
  active_turn items = inr turn ↔
  ∃ later content p n src earlier,
    items = later ++ UserMessage content USER p n src :: earlier ∧
    turn = later ++ [UserMessage content USER p n src] ∧ existsb is_user_message later = false.
Proof.
  split.
  - revert turn. induction items as [|x items IH]; intros turn; [done|].
    assert (is_user_message x = false → active_turn (x :: items) = match active_turn items with
              inl t => inl t | inr turn => inr (x :: turn) end) as Hskip by (by destruct x).
    destruct (is_user_message x) eqn:U.
    + destruct x as [|content trust p n src| | | |]; try done. cbn [active_turn].
      case_bool_decide; [|done]. intros [= <-]. subst. by exists [], content, p, n, src, items.
    + rewrite Hskip by done. destruct (active_turn items) as [|t]; [done|]. intros [= <-].
      destruct (IH _ eq_refl) as (l & c & p & n & s & e & -> & -> & Hl).
      exists (x :: l), c, p, n, s, e. cbn [existsb]. by rewrite U.
  - intros (l & c & p & n & s & e & -> & -> & Hl).
    induction l as [|x l IH]; cbn [app active_turn]; [by rewrite bool_decide_true|].
    cbn [existsb] in Hl. apply orb_false_iff in Hl as [Hx Hl]. specialize (IH Hl).
    destruct x; cbn [active_turn]; try (by rewrite IH). done.
Qed.
Lemma turn_results_elem turn r : r ∈ turn_results turn ↔ ResultItem r ∈ turn.
Proof.
  unfold turn_results. rewrite list_elem_of_omap. split.
  - intros (x & Hx & E). destruct x; naive_solver.
  - intros H. by exists (ResultItem r).
Qed.

Lemma owner_by_taint cp run_kind batch :
  _turn_origin_trust cp run_kind batch = USER ↔
  context_origin_trust cp = USER ∧
  ∃ earlier content p n src later,
    conversation cp = earlier ++ UserMessage content USER p n src :: later ∧
    existsb is_user_message later = false ∧
    ∀ r, ResultItem r ∈ later ∨ r ∈ batch →
      tr_trust r ≠ MEMORY ∧
      (taints (tr_trust r) = true →
       review_load run_kind (rev later ++ [UserMessage content USER p n src]) r = true).
Proof.
  unfold _turn_origin_trust. split.
  - destruct (active_turn _) as [t|turn] eqn:E.
    { intros ->. exfalso. revert E. induction (rev (conversation cp)) as [|x l IH]; [done|].
      destruct x; simpl; try (destruct (active_turn l); [auto|done]).
      case_bool_decide; naive_solver. }
    apply active_turn_inr in E as (l & c & p & n & s & e & E & -> & Hl).
    rewrite taint_USER. intros [O R]. split; [done|].
    exists (rev e), c, p, n, s, (rev l). rewrite rev_involutive. split_and!.
    + apply (f_equal (@rev _)) in E. rewrite rev_involutive, rev_app_distr in E. simpl in E.
      by rewrite <- app_assoc in E.
    + destruct (existsb _ (rev l)) eqn:X; [|done]. apply existsb_exists in X as (x & Hx & Ux).
      apply in_rev in Hx. rewrite <- Hl. symmetry. apply existsb_exists. eauto.
    + intros r Hr. apply R. apply elem_of_app. destruct Hr as [Hr|Hr]; [left|by right].
      apply turn_results_elem, elem_of_app. left. apply list_elem_of_In, in_rev. by apply list_elem_of_In.
  - intros (O & e & c & p & n & s & l & E & Hl & R).
    assert (active_turn (rev (conversation cp)) = inr (rev l ++ [UserMessage c USER p n s])) as ->.
    { apply active_turn_inr. exists (rev l), c, p, n, s, (rev e). split_and!; [|done|].
      - rewrite E, rev_app_distr. simpl. by rewrite <- app_assoc.
      - destruct (existsb _ (rev l)) eqn:X; [|done]. apply existsb_exists in X as (x & Hx & Ux).
        apply in_rev in Hx. rewrite <- Hl. symmetry. apply existsb_exists. eauto. }
    apply taint_USER. split; [done|]. intros r Hr. apply R.
    apply elem_of_app in Hr as [Hr|Hr]; [left|by right].
    apply turn_results_elem, elem_of_app in Hr as [Hr|Hr]; [|set_solver].
    apply list_elem_of_In, in_rev. by apply list_elem_of_In.
Qed.

(** C8: A tool call runs on the owner's authority exactly when the newest user message is
    the owner's own, the run's context is the owner's, and nothing read since - in earlier
    turns of the loop or in the batch being dispatched - is a memory, a knowledge document
    or outside content, the one skill body a skill review loads itself excepted. *)
Theorem owner_authority cp run_kind batch :
  _turn_origin_trust cp run_kind batch = USER ↔
  context_origin_trust cp = USER ∧
  ∃ earlier content p n src later,
    conversation cp = earlier ++ UserMessage content USER p n src :: later ∧
    existsb is_user_message later = false ∧
    ∀ r, ResultItem r ∈ later ∨ r ∈ batch →
      tr_trust r ≠ MEMORY ∧
      (tr_trust r ∈ [EXTERNAL_UNTRUSTED; KNOWLEDGE] →
       review_load run_kind (rev later ++ [UserMessage content USER p n src]) r = true).
Proof. rewrite owner_by_taint. unfold taints. by setoid_rewrite bool_decide_eq_true. Qed.
End owner_turn.

(** ** When a statement is the owner's *)
Section grounded.
Context (lex : Lexicon).

(** What a grounded statement owes to the owner. *)
Lemma grounded_words s conv :
  owner_grounded_statement lex s conv = true →
  ∃ user ext, turn_texts (rev conv) [] = Some (user, ext) ∧
    let words := _content_lexemes lex s in
    let owner := _content_lexemes lex (spaced user) in
    let outside := _content_lexemes lex (spaced ext) in
    (words ∖ owner) ∩ outside = ∅ ∧
    (3 * size words <= 5 * size (words ∩ owner))%nat ∧ (2 <= size (words ∩ owner))%nat ∧
    (size (words ∖ owner) <= 3)%nat.
Proof.
  unfold owner_grounded_statement. destruct (turn_texts _ _) as [[user ext]|] eqn:T; [|done].
  destruct (size _ <? _)%nat eqn:W; [done|].
  rewrite !andb_true_iff. intros [[[Ht Hc] Hf] _]. apply bool_decide_eq_true in Ht.
  exists user, ext. split; [done|]. cbv zeta. split; [done|].
  apply Nat.leb_le in Hc, Hf. unfold coverage_floor, OWNER_GROUNDING_MINIMUM_WORDS, OWNER_GROUNDING_FREE_WORDS in *.
  set (n := size (_content_lexemes lex s)) in *.
  pose proof (Nat.div_mod (3 * n + 4) 5 ltac:(lia)). pose proof (Nat.mod_upper_bound (3 * n + 4) 5 ltac:(lia)).
  split; [lia|]. split; [lia|].
  rewrite (difference_disjoint_L (_ ∖ _)) in Hf; [done|]. by apply disjoint_intersection_L.
Qed.

(** Words do not cross the space between two texts. *)
Hypothesis tokens_spaced : ∀ l, tokens_of lex (spaced l) = ⋃ (map (tokens_of lex) l).

Lemma content_spaced l : ∀ t, t ∈ _content_lexemes lex (spaced l) ↔ ∃ x, x ∈ l ∧ t ∈ _content_lexemes lex x.
Proof.
  intros t. unfold _content_lexemes. setoid_rewrite elem_of_filter. rewrite tokens_spaced, elem_of_union_list.
  setoid_rewrite list_elem_of_fmap. naive_solver.
Qed.
Lemma turn_texts_external items ext : turn_texts items ext =
  match turn_texts items [] with Some (u, e) => Some (u, ext ++ e) | None => None end.
Proof.
  revert ext. induction items as [|x items IH]; intros ext; [done|].
  destruct x; simpl; try apply IH.
  - case_bool_decide; [|done]. by rewrite app_nil_r.
  - destruct (taints _); [|apply IH]. rewrite (IH (ext ++ _)), (IH (texts _)).
    destruct (turn_texts items []) as [[u e]|]; [|done]. by rewrite <- app_assoc.
Qed.

Lemma grounded_antitone s conv r :
  owner_grounded_statement lex s (conv ++ [ResultItem r]) = true → owner_grounded_statement lex s conv = true.
Proof.
  unfold owner_grounded_statement. rewrite rev_unit. cbn [turn_texts].
  rewrite turn_texts_external. destruct (turn_texts (rev conv) []) as [[user ext]|]; [|done].
  set (w := _content_lexemes lex s). destruct (size w <? _)%nat; [done|].
  set (o := _content_lexemes lex (spaced user)). set (added := if taints _ then _ else _).
  rewrite !andb_true_iff, !bool_decide_eq_true. intros [[[Ht Hc] Hf] Hm].
  assert (∀ t, t ∈ _content_lexemes lex (spaced ext) → t ∈ _content_lexemes lex (spaced (added ++ ext))) as Hext.
  { intros t. rewrite !content_spaced. setoid_rewrite elem_of_app. naive_solver. }
  split; [|done]. split; [split; [|done]|].
  - apply (proj2 (elem_of_equiv_empty_L _)). intros t [Hw He]%elem_of_intersection.
    apply (proj1 (elem_of_equiv_empty_L _) Ht t), elem_of_intersection. eauto.
  - rewrite Nat.leb_le in *. etrans; [|exact Hf]. apply subseteq_size.
    intros t [Hw He]%elem_of_difference. apply elem_of_difference. split; [done|].
    intros Hx. apply (proj1 (elem_of_equiv_empty_L _) Ht t), elem_of_intersection.
    by apply elem_of_difference in Hw as [??]; split; [apply elem_of_difference|].
Qed.
End grounded.

(** Reading more never makes a statement the owner's: appending tool results of any
    trust to a turn cannot turn a rejected memory statement into a grounded one. *)
Theorem reading_never_grounds lex
    (tokens_spaced : ∀ l, tokens_of lex (spaced l) = ⋃ (map (tokens_of lex) l)) s conv read :
  owner_grounded_statement lex s (conv ++ map ResultItem read) = true →
  owner_grounded_statement lex s conv = true.
Proof.
  revert conv. induction read as [|r read IH]; intros conv; simpl; [by rewrite app_nil_r|].
  rewrite cons_middle, app_assoc. intros H. apply IH in H. by eapply grounded_antitone.
Qed.

(** ** When an argument is the owner's *)
Lemma lookup_args (f : string * json → TrustLevel) (arguments : dict) key :
  (list_to_map (map (λ kv, (kv.1, f kv)) arguments) : gmap string TrustLevel) !! key =
  f ∘ pair key <$> dict_get key arguments.
Proof.
  induction arguments as [|[k v] d IH]; simpl; [done|].
  destruct (String.eqb_spec k key) as [->|N]; [by simplify_map_eq|by rewrite lookup_insert_ne].
Qed.
Lemma verbatim_argument v message :
  match long_text v with
  | Some v => if existsb (py_in v) message then USER else EXTERNAL_UNTRUSTED
  | None => EXTERNAL_UNTRUSTED
  end = USER →
  ∃ t, v = JStr t ∧ (16 <= String.length t)%nat ∧ existsb (py_in t) message = true.
Proof.
  unfold long_text. destruct v as [| | | |t| |]; try done.
  destruct (16 <=? _)%nat eqn:L; [|done]. destruct (existsb _ _) eqn:X; [|done].
  apply Nat.leb_le in L. eauto.
Qed.
(** Outside the owner's own job commands, an argument counts as the owner's only when
    it is text of at least sixteen characters that the newest message of the owner holds
    verbatim, or the statement of a memory whose words that message grounds: at most three
    content words are the model's, none of them read in outside content, and at least
    three in five are the owner's. *)
Theorem owner_arguments lex arguments cp tool key :
  ¬ (tool ∈ ["job.manage"; "job.run"] ∧ _turn_origin_trust cp "interactive" [] = USER) →
  _argument_trust lex arguments cp tool !! key = Some USER →
  (∃ v message, dict_get key arguments = Some (JStr v) ∧ (16 <= String.length v)%nat ∧
     owner_message (conversation cp) = Some message ∧ existsb (py_in v) message = true) ∨
  (key = "statement" ∧ tool = MEMORY_REMEMBER_TOOL_NAME ∧
   ∃ s user ext, dict_get "statement" arguments = Some (JStr s) ∧
     turn_texts (rev (conversation cp)) [] = Some (user, ext) ∧
     let words := _content_lexemes lex s in
     let owner := _content_lexemes lex (spaced user) in
     (words ∖ owner) ∩ _content_lexemes lex (spaced ext) = ∅ ∧
     (3 * size words <= 5 * size (words ∩ owner))%nat ∧ (size (words ∖ owner) <= 3)%nat).
Proof.
  intros Hjob. unfold _argument_trust.
  destruct (bool_decide (tool ∈ _) && _) eqn:J.
  { apply andb_true_iff in J as [?%bool_decide_eq_true ?%bool_decide_eq_true]. naive_solver. }
  clear J Hjob. destruct (owner_message _) as [message|]; cbv zeta.
  2:{ rewrite lookup_args. destruct (dict_get key arguments); simpl; congruence. }
  set (trust := list_to_map _).
  assert (trust !! key = Some USER → ∃ v msg, dict_get key arguments = Some (JStr v) ∧
     (16 <= String.length v)%nat ∧ Some message = Some msg ∧ existsb (py_in v) msg = true) as Hverbatim.
  { unfold trust. rewrite lookup_args. destruct (dict_get key arguments) as [v|]; [|done].
    simpl. intros [= H]. apply verbatim_argument in H as (t & -> & ? & ?). by eexists _, _. }
  destruct (String.eqb_spec tool MEMORY_REMEMBER_TOOL_NAME) as [Ht|]; [|by intros; left; auto].
  destruct (negb _); [|by intros; left; auto]. simpl.
  destruct (dict_get "statement" arguments) as [[| | | |s| |]|] eqn:S; try by intros; left; auto.
  destruct (owner_grounded_statement lex s _) eqn:G; [|by intros; left; auto].
  destruct (String.eqb_spec key "statement") as [->|N].
  - intros _. right. split; [done|]. split; [done|].
    destruct (grounded_words _ _ _ G) as (u & e & T & H1 & H2 & _ & H3).
    exists s, u, e. split; [done|]. split; [done|]. split; [done|]. split; done.
  - rewrite lookup_insert_ne by congruence. intros; left; auto.
Qed.

(** ** Witnesses: words between spaces *)
Fixpoint split_spaces (word : string) (s : string) : list string :=
  match s with
  | EmptyString => [word]
  | String c s => if Ascii.eqb c " " then word :: split_spaces "" s
                  else split_spaces (word +:+ String c EmptyString) s
  end.
Definition space_words (s : string) : list string := List.filter (λ w, negb (String.eqb w "")) (split_spaces "" s).
Definition plain_lexicon : Lexicon := {|
  tokens_of s := list_to_set (space_words s); words_of := space_words;
  clause_tokens := space_words; _owner_sentences s := [s]; isalpha s := negb (String.eqb s ",") |}.

Lemma split_spaces_app w a b :
  split_spaces w (a +:+ " " +:+ b) = split_spaces w a ++ split_spaces "" b.
Proof.
  revert w. induction a as [|c a IH]; intros w; [done|].
  change (String c a +:+ " " +:+ b) with (String c (a +:+ " " +:+ b)). cbn [split_spaces].
  destruct (Ascii.eqb c " "); cbn [app]; by rewrite IH.
Qed.
Lemma plain_tokens_spaced l :
  tokens_of plain_lexicon (spaced l) = ⋃ (map (tokens_of plain_lexicon) l).
Proof.
  unfold spaced. induction l as [|a [|b l] IH]; [done|by cbn; rewrite union_empty_r_L|].
  change (String.concat " " (a :: b :: l)) with (a +:+ " " +:+ String.concat " " (b :: l)).
  cbn [map union_list foldr] in *. rewrite <- IH. cbn [tokens_of plain_lexicon].
  unfold space_words. rewrite split_spaces_app, List.filter_app. by rewrite list_to_set_app_L.
Qed.

Definition owner_says (said : string) : ConversationItem := UserMessage [TextPart said] USER None None None.
Definition page_read (text : string) : ToolResultItem :=
  {| tr_call_id := "c1"; content := [TextPart text]; context_content := None; is_error := false;
     tr_trust := EXTERNAL_UNTRUSTED; memory_recall := None; source_event_sequence := None |}.
Definition told (said : string) : RunCheckpoint :=
  (Checkpoints.sample_checkpoint 1 1) <| conversation := [owner_says said] |>.

(** "likes strong coffee" is grounded in the owner's words before and after a page is read
    that mentions another drink, and "likes green coffee" stops being so. *)
Lemma reading_never_grounds_witness :
  let said := [owner_says "remember susan likes strong coffee"] in
  let page := [page_read "green tea is better"] in
  owner_grounded_statement plain_lexicon "susan likes strong coffee" (said ++ map ResultItem page) = true ∧
  owner_grounded_statement plain_lexicon "susan likes strong coffee" said = true ∧
  owner_grounded_statement plain_lexicon "susan likes green coffee" said = true ∧
  owner_grounded_statement plain_lexicon "susan likes green coffee" (said ++ map ResultItem page) = false.
Proof.
  cbv zeta.
  assert (owner_grounded_statement plain_lexicon "susan likes strong coffee"
            ([owner_says "remember susan likes strong coffee"] ++ map ResultItem [page_read "green tea is better"]) = true)
    as G by (vm_compute; reflexivity).
  split; [exact G|]. split; [exact (reading_never_grounds plain_lexicon plain_tokens_spaced _ _ _ G)|].
  split; vm_compute; reflexivity.
Defined.

Lemma owner_arguments_witness :
  let cp := told "remember susan likes strong coffee" in
  let arguments := [("statement", JStr "susan likes strong coffee"); ("kind", JStr "fact")] in
  _argument_trust plain_lexicon arguments cp MEMORY_REMEMBER_TOOL_NAME !! "statement" = Some USER ∧
  _argument_trust plain_lexicon arguments cp MEMORY_REMEMBER_TOOL_NAME !! "kind" = Some EXTERNAL_UNTRUSTED ∧
  ∃ message, owner_message (conversation cp) = Some message ∧
    existsb (py_in "susan likes strong coffee") message = true.
Proof.
  cbv zeta.
  assert (_argument_trust plain_lexicon [("statement", JStr "susan likes strong coffee"); ("kind", JStr "fact")]
    (told "remember susan likes strong coffee") MEMORY_REMEMBER_TOOL_NAME !! "statement" = Some USER) as G
    by (vm_compute; reflexivity).
  split; [exact G|]. split; [vm_compute; reflexivity|].
  destruct (owner_arguments plain_lexicon [("statement", JStr "susan likes strong coffee"); ("kind", JStr "fact")]
    (told "remember susan likes strong coffee") MEMORY_REMEMBER_TOOL_NAME "statement" ltac:(by intros [? _]; set_solver) G)
    as [(v & m & Hv & _ & Hm & Hin)|(_ & _ & s & u & e & _)].
  - exists m. cbn in Hv. injection Hv as <-. done.
  - eexists. split; [reflexivity|vm_compute; reflexivity].
Defined.
