(* ===== verification/ToolSpecs.v ===== *)
(** * Tools and their approval cards ([domain/tools.py], [domain/approval_copy.py],
    [domain/argument_views.py], [tools/tool_call.py])

    What a tool declares and returns, the recovery table of a persisted invocation, the
    unwrapping of a deferred call, and what an approval card says of an action. *)
From stdpp Require Import pretty.
From S2P Require Import Prelude PolicyModel Messages RunModel Checkpoints ToolInvocations ToolTrust.

Inductive ToolKind := CAPABILITY | CONTROL.
#[export] Instance ToolKind_eq_dec : EqDecision ToolKind.
Proof. solve_decision. Defined.

Record ToolSpec := {
  ts_name : string;
  ts_version : string;
  ts_description : string;
  ts_input_schema : dict;
  ts_output_schema : option dict;
  ts_side_effect : SideEffectClass;
  ts_risk : RiskLevel;
  ts_idempotency : IdempotencyClass;
  ts_required_scopes : gset string;
  timeout_seconds : Z;
  maximum_output_bytes : Z;
  allow_parallel : bool;
  ts_kind : ToolKind;
  ts_target_kind : string;
  ts_output_trust : TrustLevel;
  ts_source : ToolSource;
  ts_server_id : option string;
  ts_device_id : option string;
  deprecated : bool;
  model_visible : bool;
}.

Inductive ToolFailureKind :=
| INVALID_ARGUMENTS | TOOL_NOT_FOUND | PERMISSION | TIMEOUT | OUTPUT_TOO_LARGE | OUTPUT_INVALID
| UPSTREAM_ERROR | TRANSPORT | OUTCOME_UNKNOWN | INTERNAL.
#[export] Instance ToolFailureKind_eq_dec : EqDecision ToolFailureKind.
Proof. solve_decision. Defined.
Record ToolFailure := {
  tf_kind : ToolFailureKind;
  tf_reason_code : string;
  detail : string;
  tf_retryable : bool;
  external_text : option string;
}.
Record ToolResult := {
  ok : bool;
  res_content : list ContentPart;
  res_context_content : option (list ContentPart);
  res_memory_recall : option MemoryRecallUsage;
  structured : option dict;
  artifacts : list json;
  failure : option ToolFailure;
  res_output_trust : option TrustLevel;
  metrics : gmap string Z;
  evidence_key : option string;
}.
#[global] Instance result_eta : Eta ToolResult := λ r,
  {| ok := ok r; res_content := res_content r; res_context_content := res_context_content r;
     res_memory_recall := res_memory_recall r; structured := structured r; artifacts := artifacts r;
     failure := failure r; res_output_trust := res_output_trust r; metrics := metrics r;
     evidence_key := evidence_key r |}.
(** The validator: a success has no failure, a failure has one. *)
Definition success_and_failure_are_consistent (r : ToolResult) : bool :=
  negb (Bool.eqb (ok r) (bool_decide (is_Some (failure r)))).
(** [ToolResult(ok=False, content=[], failure=ToolFailure(...))] *)
Definition failed_result (k : ToolFailureKind) (reason text : string) (again : bool) : ToolResult :=
  {| ok := false; res_content := []; res_context_content := None; res_memory_recall := None;
     structured := None; artifacts := [];
     failure := Some {| tf_kind := k; tf_reason_code := reason; detail := text; tf_retryable := again;
                        external_text := None |};
     res_output_trust := None; metrics := ∅; evidence_key := None |}.

Record StandingAuthorization := {
  allowed : bool;
  sa_reason_code : string;
  authorization_kind : option string;
  authorization_ref : option string;
  dispatch_constraint : option json;
  use_ordinal : option Z;
  authorization_view : option dict;
}.
Definition allowed_authority_has_auditable_evidence (a : StandingAuthorization) : bool :=
  if allowed a then bool_decide (is_Some (authorization_kind a)) && bool_decide (is_Some (authorization_ref a))
  else match dispatch_constraint a, use_ordinal a, authorization_view a with
       | None, None, None => true | _, _, _ => false end.

(** The part of [AgentSpec] a dispatch reads. *)
Record AgentSpec := { as_version : string; enabled_tools : list string }.

#[global] Instance invocation_eta : Eta ToolInvocation := λ i,
  {| id := id i; run_id := run_id i; session_id := session_id i; step_number := step_number i;
     inv_call_id := inv_call_id i; tool_name := tool_name i; tool_version := tool_version i;
     tool_source := tool_source i; inv_server_id := inv_server_id i;
     idempotency_class := idempotency_class i; inv_side_effect := inv_side_effect i;
     inv_risk := inv_risk i; attempt_number := attempt_number i; status := status i;
     inv_raw_arguments := inv_raw_arguments i; normalized_arguments := normalized_arguments i;
     normalized_arguments_hash := normalized_arguments_hash i;
     effective_arguments_hash := effective_arguments_hash i; idempotency_key := idempotency_key i;
     effect_sent_at := effect_sent_at i; suspended_kind := suspended_kind i;
     suspended_ref := suspended_ref i; output_bytes := output_bytes i; truncated := truncated i;
     artifact_id := artifact_id i; inv_origin_trust := inv_origin_trust i;
     parallel_group := parallel_group i; outcome := outcome i; policy_decision := policy_decision i;
     structured_result := structured_result i; result_item := result_item i;
     created_at := created_at i; updated_at := updated_at i |}.

(** ** Recovery *)
Inductive ToolRecoveryAction :=
| RETURN_OUTCOME | RESUME_AUTHORIZATION | RESUME_APPROVAL | REEXECUTE | REPLAY_IDEMPOTENCY_KEY
| MARK_UNCERTAIN.
#[export] Instance ToolRecoveryAction_eq_dec : EqDecision ToolRecoveryAction.
Proof. solve_decision. Defined.
(** Every status is one the table knows. *)
Definition tool_recovery_action (i : ToolInvocation) : ToolRecoveryAction :=
  if bool_decide (is_Some (outcome i)) ||
     bool_decide (status i ∈ [SUCCEEDED; TOOL_FAILED; TOOL_DENIED; UNCERTAIN]) then RETURN_OUTCOME
  else if bool_decide (status i ∈ [PROPOSED; AUTHORIZED]) then RESUME_AUTHORIZATION
  else if bool_decide (status i = WAITING_FOR_APPROVAL) then RESUME_APPROVAL
  else if bool_decide (idempotency_class i ∈ [READ_ONLY; IDEMPOTENT]) then REEXECUTE
  else if bool_decide (effect_sent_at i = None) then REEXECUTE
  else if bool_decide (idempotency_class i = CONDITIONALLY_IDEMPOTENT) then REPLAY_IDEMPOTENCY_KEY
  else MARK_UNCERTAIN.

(** ** Trust and origin *)
Definition _effective_output_trust (r : ToolResult) (spec : ToolSpec) : TrustLevel :=
  if bool_decide (ts_output_trust spec = EXTERNAL_UNTRUSTED) then EXTERNAL_UNTRUSTED
  else default (ts_output_trust spec) (res_output_trust r).
Definition SKILL_MANAGE_TOOL_NAME : string := "skill.manage".
Definition DELEGATE_RUN_TOOL_NAME : string := "delegate.run".
Definition WORKING_STATE_TOOL_NAME : string := "context.update_working_state".
Definition _action_kind (spec : ToolSpec) : ActionKind :=
  if bool_decide (ts_name spec ∈ ["memory.remember"; "memory.learn"]) then MEMORY_WRITE
  else if String.eqb (ts_name spec) SKILL_MANAGE_TOOL_NAME then SKILL_AUTHORING
  else TOOL_CALL_ACTION.
Definition _NETWORK_TARGET_KINDS : list string :=
  ["web_provider"; "browser_provider"; "unsubscribe_endpoint"].
(** The target an action is judged with; the execution context's has no server. *)
Definition execution_target (spec : ToolSpec) (server : option string) : ExecutionTarget :=
  {| target_kind := ts_target_kind spec;
     isolated := bool_decide (ts_target_kind spec ∈ ["sandbox"; "browser_provider"]);
     network_enabled := bool_decide (ts_target_kind spec ∈ _NETWORK_TARGET_KINDS);
     device_id := ts_device_id spec; server_id := server |}.

(** ** Items *)
Section items.
(** [model_dump_json] of an outcome *)
Context (dump_outcome : ToolOutcome → string).

Definition _outcome_item (i : string) (o : ToolOutcome) (trust : TrustLevel)
    (external detail : option string) : ToolResultItem :=
  {| tr_call_id := i;
     content := TextPart (dump_outcome o) :: map TextPart (option_list detail ++ option_list external);
     context_content := None; memory_recall := None;
     is_error := negb (bool_decide (outcome_status o = OUTCOME_SUCCEEDED));
     tr_trust := if external then EXTERNAL_UNTRUSTED else trust;
     source_event_sequence := None |}.
End items.

(** ** Deferred calls *)
Definition _unwraps_deferred_call (c : ToolCallItem) (agent : AgentSpec) : bool :=
  String.eqb (tc_name c) TOOL_CALL_TOOL_NAME && bool_decide (parse_error c = None) &&
  bool_decide (TOOL_CALL_TOOL_NAME ∈ enabled_tools agent).

Section deferred.
Context (validate_and_normalize : dict → dict → result (dict * string)).
(** [ToolSpec.model_validate] of a pinned specification; [json.dumps] with sorted keys *)
Context (read_spec : json → ToolSpec) (dumps_sorted : json → string).

Definition pinned_spec (cp : RunCheckpoint) (name : string) : option ToolSpec :=
  read_spec <$> dict_get name (pinned_tool_specs cp).
Definition resolve_deferred_target (c : ToolCallItem) (cp : RunCheckpoint)
    : result (string + ToolCallItem) :=
  match validate_and_normalize (tc_arguments c) TOOL_CALL_INPUT_SCHEMA with
  | Raise (ToolValidationError _) => Ok (inl "tool.arguments_invalid")
  | Raise e => Raise e
  | Ok (wrapper, _) =>
      match dict_get "name" wrapper with
      | Some (JStr name) =>
          match pinned_spec cp name with
          | None => Ok (inl "tool.not_found.not_offered")
          | Some pinned =>
              if bool_decide (ts_kind pinned = CONTROL) then Ok (inl "tool.not_found.not_offered")
              else
                let arguments := match dict_get "arguments" wrapper with Some (JObj a) => a | _ => [] end in
                Ok (inr {| call_id := call_id c; item_index := item_index c; tc_name := name;
                           tc_arguments := arguments; raw_arguments := dumps_sorted (JObj arguments);
                           parse_error := None; tc_source_event_sequence := tc_source_event_sequence c |})
          end
      | _ => Raise (KeyError "name")
      end
  end.
(** The definition a refused deferred call answers with. *)
Definition deferred_definition_text (spec : ToolSpec) : string :=
  "Definition of " +:+ ts_name spec +:+ "." +:+ String (ascii_of_nat 10) "Description: " +:+
  ts_description spec +:+ String (ascii_of_nat 10) "Input schema: " +:+
  dumps_sorted (JObj (ts_input_schema spec)).
End deferred.

(** ** What an approval card says *)
Definition ADVISORY_ESCALATED : string := "policy.advisory.escalated".
Definition FALLBACK_REASON : string := "Veetbot's safety rules ask for your approval on this action.".
Definition ADVISORY_REASON : string :=
  "A second safety check flagged this request, so Veetbot asks first.".
Definition _ACTION_PHRASES (e : SideEffectClass) : option string :=
  match e with
  | EXTERNAL_MESSAGE => Some "Send a message"
  | EXTERNAL_WRITE => Some "Make a change outside Veetbot"
  | EXTERNAL_DELETE => Some "Delete something outside Veetbot"
  | FINANCIAL => Some "Spend money"
  | SE_PUBLICATION => Some "Publish something"
  | CODE_EXECUTION => Some "Run code in Veetbot's sandbox"
  | WORKSPACE_WRITE => Some "Write a file in this chat's workspace"
  | _ => None
  end.
Definition _CLASS_REASONS (e : SideEffectClass) : option string :=
  match e with
  | EXTERNAL_MESSAGE => Some "Veetbot asks before sending a message for you."
  | EXTERNAL_WRITE => Some "Veetbot asks before changing anything outside Veetbot."
  | EXTERNAL_DELETE => Some "Veetbot asks before deleting anything outside Veetbot."
  | FINANCIAL => Some "Veetbot asks before spending money."
  | SE_PUBLICATION => Some "Veetbot asks before publishing anything."
  | _ => None
  end.
Definition _ESCALATED_ACTIONS (e : SideEffectClass) : option string :=
  match e with
  | CODE_EXECUTION => Some "running code" | WORKSPACE_WRITE => Some "writing files" | _ => None
  end.
Definition generic_action_summary (spec : ToolSpec) : string :=
  match _ACTION_PHRASES (ts_side_effect spec) with
  | None => "Use " +:+ ts_name spec
  | Some phrase => phrase +:+ " with " +:+ ts_name spec
  end.
Definition approval_reason (d : PolicyDecision) (e : SideEffectClass) : string :=
  if String.eqb (reason_code d) ADVISORY_ESCALATED then ADVISORY_REASON
  else if untrusted_escalation d then
    "This chat has read web pages or other outside content, so Veetbot asks before " +:+
    default "taking this action" (_ESCALATED_ACTIONS e) +:+ "."
  else default FALLBACK_REASON (_CLASS_REASONS e).

Section views.
(** [SENSITIVE_ARGUMENT_KEY.search], [CREDENTIAL_SHAPE.search] and the digest of a text. *)
Context (sensitive_key credential_shape : string → bool) (sha256_hex : string → string).
Definition REDACTED : string := "[REDACTED]".
Definition TRUNCATED_SUFFIX : string := "…[TRUNCATED]".
Definition APPROVAL_ARGUMENT_CEILING : nat := 512.

Definition view_text (value : string) : string :=
  if credential_shape value then REDACTED
  else if (String.length value <=? APPROVAL_ARGUMENT_CEILING)%nat then value
  else String.substring 0 APPROVAL_ARGUMENT_CEILING value +:+ TRUNCATED_SUFFIX.
Definition is_sensitive (key : option string) : bool :=
  match key with Some k => sensitive_key k | None => false end.
(** At most fifty items of a container are shown; what was left out is counted. *)
Definition omitted (n : nat) : nat := n - 50.
Fixpoint approval_argument_value (key : option string) (value : json) : json :=
  if is_sensitive key then JStr REDACTED
  else match value with
  | JStr s => JStr (view_text s)
  | JObj o =>
      let redacted := map (λ kv, (kv.1, approval_argument_value (Some kv.1) kv.2)) o in
      JObj (if (50 <? length o)%nat
            then dict_set "[TRUNCATED]" (JStr (pretty (omitted (length o)) +:+ " field(s) omitted")) (take 50 redacted)
            else redacted)
  | JArr l =>
      let items := map (approval_argument_value None) l in
      JArr (if (50 <? length l)%nat
            then (take 50 items ++ [JStr ("[TRUNCATED: " +:+ pretty (omitted (length l)) +:+ " item(s) omitted]")])%list
            else items)
  | v => v
  end.
Definition approval_argument_view (arguments : dict) : dict :=
  match approval_argument_value None (JObj arguments) with JObj view => view | _ => [] end.
Definition approval_argument_digests (arguments : dict) : list (string * string) :=
  omap (λ kv, match kv.2 with
              | JStr value =>
                  if (String.length value <=? APPROVAL_ARGUMENT_CEILING)%nat then None
                  else if sensitive_key kv.1 then None
                  else if credential_shape value then None
                  else Some (kv.1, sha256_hex value)
              | _ => None
              end) arguments.
End views.

(** ** Why an authorization did not cover an action *)
Definition TASK_GRANT_AUTHORIZATION_KIND : string := "browser_task_grant".
Definition RESEARCH_AUTHORIZATION_KIND : string := "browser_research".
Definition RESEARCH_REASON_PREFIX : string := "browser.research.".
Definition excluded_consequences : list string :=
  map (λ c, "excluded." +:+ c)
    ["payment"; "purchase"; "account_recovery"; "authentication_change"; "permission_change";
     "legal_acceptance"; "publication"; "destructive"; "file_transfer"; "security_change"].
Definition TASK_GRANT_NOT_COVERED_REASONS : list string :=
  map (λ r, "browser.task_grant." +:+ r)
    (["expired"; "exhausted"; "revoked"; "ended"; "unavailable"; "policy_changed"; "profile_changed";
      "agent_changed"; "scope_removed"; "run_not_eligible"; "turn_not_browser_only"; "outside_origin";
      "outside_prefix"; "sensitive_path"; "unnamed_element"; "element_disabled"; "field_not_covered";
      "text_too_long"; "text_not_covered"; "text_budget_exhausted"; "link_outside_prefix";
      "form_outside_prefix"; "facts_unavailable"] ++ excluded_consequences).
Definition RESEARCH_NOT_COVERED_REASONS : list string :=
  ["ineligible_run"; "untrusted_turn"; "turn_not_browser_only"; "deadline_passed"; "invalid_action";
   "not_owner_seed"; "profile_unavailable"; "observation_unavailable"; "outside_profile_origin";
   "policy_changed"; "facts_unavailable"; "outside_origin"; "sensitive_path"; "unnamed_element";
   "element_disabled"; "field_not_covered"; "text_too_long"; "text_not_covered";
   "link_outside_prefix"; "form_outside_prefix"] ++ excluded_consequences.
(** The grant and the reason; [parse_uuid] is [UUID(text)], [None] its [ValueError]. *)
Definition _task_grant_not_covered (parse_uuid : string → option UUID)
    (standing : option StandingAuthorization) : option (UUID * string) :=
  match standing with
  | None => None
  | Some s =>
      if allowed s || negb (bool_decide (authorization_kind s = Some TASK_GRANT_AUTHORIZATION_KIND)) then None
      else match authorization_ref s with
      | None => None
      | Some ref =>
          if bool_decide (sa_reason_code s ∉ TASK_GRANT_NOT_COVERED_REASONS) then None
          else match parse_uuid ref with Some g => Some (g, sa_reason_code s) | None => None end
      end
  end.
Definition _research_not_covered (standing : option StandingAuthorization) : option string :=
  match standing with
  | None => None
  | Some s =>
      if allowed s || negb (bool_decide (authorization_kind s = Some RESEARCH_AUTHORIZATION_KIND)) ||
         negb (py_startswith RESEARCH_REASON_PREFIX (sa_reason_code s)) then None
      else let reason := py_removeprefix RESEARCH_REASON_PREFIX (sa_reason_code s) in
           if bool_decide (reason ∈ RESEARCH_NOT_COVERED_REASONS) then Some reason else None
  end.
