(* ===== verification/ToolOutput.v ===== *)
(** * Excerpts of large tool output ([domain/tool_output.py])

    The head and tail of a captured output that fit a byte budget, found by binary search,
    with the marker and the reference that lead to the whole. A string is its UTF-8 bytes. *)
From S2P Require Import Prelude PolicyModel Messages.

Section excerpts.
(** The JSON rendering of parts, [bytes.decode("utf-8", errors="ignore")] and [f"{n:,}"]. *)
Context (content_bytes : list ContentPart → string) (decode_ignore : string → string) (grouped : Z → string).

Definition str_len (s : string) : Z := Z.of_nat (String.length s).
(** [s[:n]] and [s[-n:]] for a positive [n]. *)
Definition str_head (n : Z) (s : string) : string := String.substring 0 (Z.to_nat n) s.
Definition str_tail (n : Z) (s : string) : string := str_drop (String.length s - Z.to_nat n) s.
Definition newline : string := String (ascii_of_nat 10) EmptyString.

Definition candidate (rendered location capture_label note : string) (reference : option ContentPart)
    (allowance : Z) : list ContentPart :=
  let head_bytes := allowance * 3 / 4 in
  let tail_bytes := allowance - head_bytes in
  let head := decode_ignore (str_head head_bytes rendered) in
  let tail := if tail_bytes =? 0 then "" else decode_ignore (str_tail tail_bytes rendered) in
  let elided := str_len rendered - str_len head - str_len tail in
  let marker := newline +:+ "[... " +:+ grouped elided +:+ " bytes elided; " +:+ capture_label +:+ ": " +:+
                location +:+ note +:+ " ...]" +:+ newline in
  TextPart (head +:+ marker +:+ tail) :: option_list reference.

Definition fits (budget : Z) (parts : list ContentPart) : bool := str_len (content_bytes parts) <=? budget.
(** The loop, [high - low] steps at most. *)
Fixpoint widen (fit : Z → bool) (fuel : nat) (low high : Z) : Z :=
  match fuel with
  | O => low
  | S fuel =>
      if low <? high then
        let middle := (low + high + 1) / 2 in
        if fit middle then widen fit fuel middle high else widen fit fuel low (middle - 1)
      else low
  end.
Definition output_excerpt (rendered : string) (budget : Z) (location capture_label note : string)
    (reference : option ContentPart) : result (list ContentPart) :=
  let at_allowance := candidate rendered location capture_label note reference in
  if negb (fits budget (at_allowance 0))
  then Raise (ValueError "tool output budget cannot hold its capture reference")
  else
    let high := Z.min (str_len rendered) (budget * 4 / 5) in
    Ok (at_allowance (widen (λ k, fits budget (at_allowance k)) (Z.to_nat high) 0 high)).

(** ** The search *)
Lemma widen_spec fit fuel low high :
  fit low = true → low <= high → high - low <= Z.of_nat fuel →
  let k := widen fit fuel low high in
  fit k = true ∧ low <= k <= high ∧ (k = high ∨ fit (k + 1) = false).
Proof.
  revert low high. induction fuel as [|fuel IH]; intros low high Hf Hl Hn; cbn [widen].
  { split; [done|]. split; [lia|]. left. lia. }
  destruct (Z.ltb_spec low high) as [Hlt|Hge]; [|split; [done|]; split; [lia|]; left; lia].
  set (middle := (low + high + 1) / 2).
  assert (low < middle <= high) as Hm by (unfold middle; pose proof (Z.div_mod (low + high + 1) 2 ltac:(lia));
    pose proof (Z.mod_pos_bound (low + high + 1) 2 ltac:(lia)); lia).
  destruct (fit middle) eqn:E.
  - destruct (IH middle high E ltac:(lia) ltac:(lia)) as (? & ? & ?). split; [done|]. split; [lia|done].
  - destruct (IH low (middle - 1) Hf ltac:(lia) ltac:(lia)) as (? & ? & Hk). split; [done|].
    split; [lia|]. destruct Hk as [->|Hk]; [right|by right]. by replace (middle - 1 + 1) with middle by lia.
Qed.

(** An excerpt fits its budget, and is as large as the search allows: it is the head
    and tail at some allowance, and either nothing more is offered (the whole output, or
    four fifths of the budget) or one byte more does not fit. It is refused exactly when
    the marker and the reference alone exceed the budget. *)
Theorem excerpt_tight rendered budget location label note reference :
  match output_excerpt rendered budget location label note reference with
  | Ok parts =>
      str_len (content_bytes parts) <= budget ∧
      ∃ k, parts = candidate rendered location label note reference k ∧ 0 <= k ∧
        (k = Z.min (str_len rendered) (budget * 4 / 5) ∨
         k < Z.min (str_len rendered) (budget * 4 / 5) ∧
         budget < str_len (content_bytes (candidate rendered location label note reference (k + 1))))
  | Raise e =>
      e = ValueError "tool output budget cannot hold its capture reference" ∧
      budget < str_len (content_bytes (candidate rendered location label note reference 0))
  end.
Proof.
  unfold output_excerpt, fits. set (at_ := candidate _ _ _ _ _).
  destruct (str_len (content_bytes (at_ 0)) <=? budget) eqn:E; simpl; [|split; [done|lia]].
  set (high := Z.min _ _). set (fit := λ k, str_len (content_bytes (at_ k)) <=? budget).
  assert (0 <= high) as Hh by (unfold high, str_len in *; apply Z.min_glb; [lia|]; apply Z.div_pos; lia).
  destruct (widen_spec fit (Z.to_nat high) 0 high E Hh ltac:(lia)) as (Hf & Hk & Hmax).
  set (k := widen _ _ _ _) in *. unfold fit in Hf. split; [lia|]. exists k. split; [done|]. split; [lia|].
  destruct Hmax as [->|Hmax]; [by left|]. unfold fit in Hmax.
  destruct (decide (k = high)); [by left|]. right. lia.
Qed.
End excerpts.

Example excerpt_cut :
  let bytes parts := joined (map (λ p, match p with TextPart t => t | _ => "#####" end) parts) in
  let cut budget := output_excerpt bytes (λ s, s) (λ _, "n") (joined (replicate 40 "0123456789")) budget
                      "artifact:1" "full output" "" None in
  (∃ t, cut 100 = Ok [TextPart t] ∧ String.length t = 100%nat ∧ py_startswith "0123456789" t = true) ∧
  cut 9 = Raise (ValueError "tool output budget cannot hold its capture reference").
Proof.
  cbv zeta. split; [|reflexivity]. eexists. split; [vm_compute; reflexivity|]. split; vm_compute; reflexivity.
Qed.
