(* ===== verification/ToolPipeline.v ===== *)
(** * The tool pipeline ([tools/executor.py: ToolPipeline])

    Every tool call of a run: resolved, scoped, validated, judged by the policy, approved
    where it must be, executed once under a durable row, and answered. The objects are the
    loop's ([LoopState]); what the pipeline is constructed with is the class
    [PipelinePorts] and the record [ToolPipeline]. The calls of a batch that the code
    gathers run here one after the other, and the calls a sandbox script makes back into
    the pipeline are not modelled. *)
From S2P Require Import Prelude StateLogic PyDecimal Approvals EventModel RunModel RunSpec Sessions PolicyModel Messages Checkpoints LoopGuards LoopPorts ToolInvocations ToolTrust ToolSpecs ToolOutput.

(** ** What a tool is given and returns *)
Inductive ArtifactOrigin := SANDBOX_EXPORT | TOOL_OUTPUT | MODEL_OUTPUT | EMAIL_ATTACHMENT.
Record CaptureRef := { cap_id : UUID; cap_sha256 : string; cap_size_bytes : Z; cap_media_type : string }.
Record ApprovalPresentation := {
  pres_summary : string;
  pres_arguments : dict;
  pres_task_offer : option json;
  pres_request_offer : option json;
}.
Record ToolExecutionContext := {
  ec_invocation_id : UUID;
  ec_call_id : string;
  ec_run_id : UUID;
  ec_session_id : UUID;
  ec_tenant_id : string;
  ec_principal : Principal.t;
  ec_step_number : Z;
  ec_attempt_number : Z;
  ec_lease_epoch : Z;
  ec_idempotency_key : string;
  ec_deadline_at : datetime;
  ec_run_deadline_at : option datetime;
  ec_dispatch_constraint : option json;
  ec_timeout : timedelta;
  ec_monotonic_deadline : Z;
  ec_maximum_output_bytes : Z;
  ec_target : ExecutionTarget;
  (** Whether the run's workspace, an artifact writer (and of which origin), real
      credentials, the bridge and a model for jobs are handed over. *)
  ec_workspace : bool;
  ec_artifacts : ArtifactOrigin;
  ec_credentials : bool;
  ec_bridge : bool;
  ec_job_model : option json;
  ec_working_state : dict;
  ec_loaded_skills : list json;
  ec_available_tools : gset string;
  ec_origin_trust : TrustLevel;
  ec_argument_trust : gmap string TrustLevel;
  ec_run_kind : string;
}.
(** A tool at work: it returns or raises, or first marks that its effect is being sent. *)
Inductive tool_run (W : Type) :=
| Returns (r : result ToolResult) (w : W)
| MarksEffect (w : W) (k : result unit → W → tool_run W).
Arguments Returns {W}.
Arguments MarksEffect {W}.

Record PipelineTrace := {
  trace_run_id : UUID;
  trace_call_id : string;
  trace_tool_name : string;
  trace_tool_source : ToolSource;
  trace_steps : list Z;
}.
Definition PIPELINE_STEP_SEQUENCE : list Z := [1; 2; 3; 4; 5; 6; 7; 8; 9; 10; 11; 12; 13; 14].

Class PipelinePorts (W : Type) := {
  (** The registry: the tool of a name, a version, a tenant, a principal, a source, a
      server and a device. *)
  registry_get : string → option string → string → string → option ToolSource → option string →
    option string → W → result ToolSpec;
  (** The repositories of a unit of work. *)
  invocations_has_uncertain : UUID → string → string → Principal.t → W → result bool * W;
  invocations_find : UUID → string → W → result (option ToolInvocation) * W;
  invocations_create : ToolInvocation → option WorkerLease → W → result ToolInvocation * W;
  invocations_transition : UUID → ToolInvocationStatus → ToolInvocation → option WorkerLease → W →
    result ToolInvocation * W;
  approvals_create : ApprovalRequest → W → result ApprovalRequest * W;
  approvals_discard_pending : UUID → W → result unit * W;
  approvals_get_by_action : UUID → W → result (option ApprovalRequest) * W;
  approvals_record_revalidation : UUID → string → W → result ApprovalRequest * W;
  (** The policy, and the deterministic one where it is another object. *)
  policy_evaluate : ProposedAction → Principal.t → Run → W → result PolicyDecision * W;
  recovery_evaluate : option (ProposedAction → Principal.t → Run → W → result PolicyDecision * W);
  (** What a deployment may leave out. *)
  standing_authorizer : option (ProposedAction → PolicyDecision → Principal.t → Run → string → datetime →
    AuthorizationTurn → W → result StandingAuthorization * W);
  before_effect : option (Run → Principal.t → ToolInvocation → option WorkerLease → W → result unit * W);
  delegations : option (json → Run → AgentSpec → Principal.t → ToolInvocation → dict → option WorkerLease →
    W → result (UUID * list (option UUID)) * W);
  artifact_writers : option (Run → Principal.t → ArtifactOrigin → string → string → string → TrustLevel →
    dict → W → result CaptureRef * W);
  job_model_factory : option (Run → AgentSpec → option WorkerLease → W → result json * W);
  (** How a tool presents its action on a card, if it does. *)
  approval_view_in_session : ToolSpec → option (dict → Run → Principal.t → AuthorizationTurn →
    option (UUID * string) → W → result ApprovalPresentation * W);
  approval_view : ToolSpec → option (dict → string → W → result (string * dict) * W);
  (** The event loop's clock in microseconds; the tool; what a browser call recorded. *)
  loop_time : W → Z * W;
  execute : ToolSpec → dict → ToolExecutionContext → W → tool_run W;
  diagnostics_snapshot : W → json;
  (** The pipeline's own list of traces. *)
  _completed_traces : W → list PipelineTrace;
  set_traces : list PipelineTrace → W → W;
}.

Record ToolPipeline := {
  max_parallel_calls : Z;
  hard_ceiling_multiplier : Z;
  inline_output_bytes : Z;
  maximum_loaded_skills : Z;
  maximum_skill_body_tokens : Z;
  expiry_seconds : RiskLevel → Z;
  _current_principal : option Principal.t;
  has_workspaces : bool;
  (** Validation, digests and renderings. *)
  validate_and_normalize : dict → dict → result (dict * string);
  validate_output : option dict → option dict → result unit;
  read_spec : json → ToolSpec;
  dumps_sorted : json → string;
  sha256_hex : string → string;
  message_for : string → string;
  render_outcome : ToolOutcome → string;
  dump_item : ToolResultItem → json;
  render_uuid : UUID → string;
  read_uuid : string → option UUID;
  render_int : Z → string;
  lexicon : Lexicon;
  sensitive_key : string → bool;
  credential_shape : string → bool;
  is_email_server_id : string → bool;
  validate_skill_body : dict → result json;
  validate_delegation : dict → result json;
  content_bytes : list ContentPart → string;
  decode_ignore : string → string;
  grouped : Z → string;
  capture_sections : string → string → Z;
  reader_note : UUID → Z → string;
  browser_context_projection : dict → Z → ContentPart → option (list ContentPart);
}.

Section state.
Context {W : Type} `{LoopPorts W}.
Abbreviation M := (stateM (LoopState W)).
(** What a computation ends with, as a value. *)
Definition attempt {A} (m : M A) : M (result A) := λ s, let '(r, s) := m s in (Ok r, s).
Definition reading {A} (f : W → A * W) : M A := λ s,
  let '(a, w) := f (l_world s) in (Ok a, s <| l_world := w |>).
End state.

(** ** Keys *)
Definition key_material (px : ToolPipeline) (run : Run) (step : Step) (c : ToolCallItem) (spec : ToolSpec)
    (arguments_hash : string) : string :=
  String.concat ":" ["v1"; render_uuid px (RunModel.id run); render_int px (st_step_number step);
                     call_id c; ts_name spec; ts_version spec; arguments_hash].
Definition _idempotency_key (px : ToolPipeline) (run : Run) (step : Step) (c : ToolCallItem)
    (spec : ToolSpec) (arguments_hash : string) : string :=
  sha256_hex px (key_material px run step c spec arguments_hash).

Definition _writer_origin (px : ToolPipeline) (spec : ToolSpec) (arguments : dict) : ArtifactOrigin :=
  if bool_decide (ts_name spec ∈ ["image.generate"; "video.generate"]) then MODEL_OUTPUT
  else if String.eqb (ts_name spec) "cockpit.check" &&
          bool_decide (as_str (dict_get "operation" arguments) = Some "preview") then SANDBOX_EXPORT
  else if String.eqb (ts_name spec) "artifact.export" then
    match dict_get "content" arguments with
    | None | Some JNull => SANDBOX_EXPORT | Some _ => MODEL_OUTPUT end
  else match ts_server_id spec with
  | Some server =>
      if is_email_server_id px server && py_endswith "_read" server &&
         bool_decide (last (py_split_char "." (ts_name spec)) ∈
                      [Some "fetch_attachment"; Some "save_attachment"])
      then EMAIL_ATTACHMENT else TOOL_OUTPUT
  | None => TOOL_OUTPUT
  end.
Definition CAPTURE_READER_TOOL_NAME : string := "artifact.read_capture".
Definition _capture_reader_reachable (cp : RunCheckpoint) (agent : AgentSpec) : bool :=
  forallb (λ name, bool_decide (is_Some (dict_get name (pinned_tool_specs cp))) &&
                   bool_decide (name ∈ enabled_tools agent))
    [CAPTURE_READER_TOOL_NAME; TOOL_CALL_TOOL_NAME].

(** ** Context updates of control tools *)
Record PreparedContextUpdate := {
  new_loaded_skills : option (list json);
  new_working_state : option dict;
}.
Definition no_update : PreparedContextUpdate := {| new_loaded_skills := None; new_working_state := None |}.
Definition body_field (key : string) (body : json) : option json :=
  match body with JObj o => dict_get key o | _ => None end.
Definition body_name (body : json) : option string := as_str (body_field "name" body).
Definition body_tokens (body : json) : Z := match body_field "tokens" body with Some (JInt n) => n | _ => 0 end.
Definition without_skill (name : option string) (bodies : list json) : list json :=
  List.filter (λ b, negb (bool_decide (body_name b = name))) bodies.
Definition prepare_skill (px : ToolPipeline) (cp : RunCheckpoint) (update : dict) : result PreparedContextUpdate :=
  let skills bodies := Ok {| new_loaded_skills := Some bodies; new_working_state := None |} in
  match as_str (dict_get "operation" update), as_str (dict_get "name" update), dict_get "body" update with
  | Some "unload", Some name, _ => skills (without_skill (Some name) (loaded_skills cp))
  | Some "load", _, Some (JObj raw) =>
      body ← validate_skill_body px raw;
      let retained := without_skill (body_name body) (loaded_skills cp) in
      raise_if maximum_loaded_skills px <=? Z.of_nat (length retained)
        with ConflictError "persisted skill-load update exceeds the loaded-skill cap";
      raise_if maximum_skill_body_tokens px <? foldr Z.add 0 (map body_tokens (retained ++ [body])%list)
        with ConflictError "persisted skill-load update exceeds the skill-body token cap";
      skills (retained ++ [body])%list
  | _, _, _ => Raise (ConflictError "persisted skill-load update is malformed")
  end.
Definition _prepare_context_update (px : ToolPipeline) (cp : RunCheckpoint) (spec : ToolSpec)
    (structured : option dict) : result PreparedContextUpdate :=
  if bool_decide (ts_name spec ∉ [WORKING_STATE_TOOL_NAME; SKILL_LOAD_TOOL_NAME]) then Ok no_update
  else if negb (bool_decide (ts_source spec = BUILTIN)) || negb (bool_decide (ts_kind spec = CONTROL))
  then Raise (ConflictError "context updates require a trusted builtin control tool")
  else if String.eqb (ts_name spec) SKILL_LOAD_TOOL_NAME then
    match structured with
    | None => Raise (ConflictError "persisted skill-load result has no structured output")
    | Some fields => match dict_get "skill_update" fields with
                     | Some (JObj update) => prepare_skill px cp update
                     | _ => Raise (ConflictError "persisted skill-load result has no update mapping")
                     end
    end
  else match structured with
  | None => Ok no_update
  | Some fields =>
      if is_True_value (dict_get "updated" fields) then
        match dict_get "working_state" fields with
        | Some (JObj state) => Ok {| new_loaded_skills := None; new_working_state := Some state |}
        | _ => Raise (ConflictError "persisted working-state result has no state mapping")
        end
      else Ok no_update
  end.
Definition _apply_context_update (u : PreparedContextUpdate) (cp : RunCheckpoint) : RunCheckpoint :=
  let cp := match new_loaded_skills u with Some bodies => cp <| loaded_skills := bodies |> | None => cp end in
  match new_working_state u with
  | Some state => cp <| working_state := dict_set "context" (JObj state) (working_state cp) |>
  | None => cp
  end.
(** [working_state.setdefault("tool_evidence", {})[call_id] = key] *)
Definition record_evidence (i key : string) (cp : RunCheckpoint) : RunCheckpoint :=
  match dict_get "tool_evidence" (working_state cp) with
  | None => cp <| working_state := dict_set "tool_evidence" (JObj [(i, JStr key)]) (working_state cp) |>
  | Some (JObj evidence) =>
      cp <| working_state := dict_set "tool_evidence" (JObj (dict_set i (JStr key) evidence)) (working_state cp) |>
  | Some _ => cp
  end.

(** ** What the pipeline writes *)
Section writes.
Context {W : Type} `{LoopPorts W, PipelinePorts W} (px : ToolPipeline) (lease : option WorkerLease).
Abbreviation M := (stateM (LoopState W)).

Definition TOOL_CALL_DENIED_PAYLOAD_VERSION : Z := 2.
Definition event_of (run : Run) (event_type : string) (schema : Z) (payload : dict) : NewEvent :=
  {| ev_session_id := RunModel.session_id run; ev_run_id := Some (RunModel.id run);
     ev_event_type := event_type; ev_payload_schema_version := schema; ev_actor_type := "runtime";
     ev_actor_id := None; ev_payload := payload; ev_trace_id := None; ev_derivation_key := None |}.
Definition _event_in (event_type : string) (payload : dict) : M unit :=
  run ← gets l_run;
  if String.eqb event_type "tool.call.denied" then
    match dict_get "result_item" payload with
    | Some (JObj _) =>
        world (events_append (event_of run event_type TOOL_CALL_DENIED_PAYLOAD_VERSION payload) lease) ≫= λ _, mret tt
    | _ => raise (AssertionError "a tool.call.denied payload must carry its result item")
    end
  else world (events_append (event_of run event_type 1 payload) lease) ≫= λ _, mret tt.

(** The payload of an outcome's event. *)
Definition settled_payload (c : ToolCallItem) (reason : string) (item : ToolResultItem) : dict :=
  [("name", JStr (tc_name c)); ("call_id", JStr (call_id c)); ("reason_code", JStr reason);
   ("result_item", dump_item px item)].
Definition named_payload (c : ToolCallItem) : dict :=
  [("name", JStr (tc_name c)); ("call_id", JStr (call_id c))].
Definition plain_outcome (px : ToolPipeline) (st : ToolOutcomeStatus) (c : ToolCallItem) (reason : string) : ToolOutcome :=
  {| outcome_status := st; outcome_action := tc_name c; outcome_reason_code := reason;
     message := message_for px reason; retryable := false; remediation := REMEDIATION_NONE |}.
Definition transition (i : ToolInvocation) (expected : ToolInvocationStatus) (next : ToolInvocation) : M ToolInvocation :=
  world (invocations_transition (id i) expected next lease).

(** A refusal stores an event and no row. *)
Definition _refusal (c : ToolCallItem) (reason : string) (st : ToolOutcomeStatus) (text : option string)
    (definition : option ToolSpec) : M ToolResultItem :=
  let failed := bool_decide (st = OUTCOME_FAILED) in
  let o := {| outcome_status := st; outcome_action := tc_name c; outcome_reason_code := reason;
              message := match text with Some m => if String.eqb m "" then message_for px reason else m
                                    | None => message_for px reason end;
              retryable := false;
              remediation := if failed then MODIFY_ARGUMENTS else REMEDIATION_NONE |} in
  let definition_text := deferred_definition_text (dumps_sorted px) <$> definition in
  let untrusted := match definition with Some d => negb (bool_decide (ts_source d = BUILTIN)) | None => false end in
  let item := _outcome_item (render_outcome px) (call_id c) o INTERNAL_TOOL
                (if untrusted then definition_text else None) (if untrusted then None else definition_text) in
  in_uow (_event_in (if failed then "tool.call.failed" else "tool.call.denied")
                    (settled_payload c reason item)) ≫= λ _,
  mret item.

Definition _deny_invocation (c : ToolCallItem) (spec : ToolSpec) (i : ToolInvocation) (reason : string)
    : M ToolResultItem :=
  let denied := plain_outcome px OUTCOME_DENIED c reason in
  let item := _outcome_item (render_outcome px) (call_id c) denied (ts_output_trust spec) None None in
  t ← now;
  let final := i <| status := TOOL_DENIED |> <| outcome := Some denied |> <| result_item := Some item |>
                 <| suspended_kind := None |> <| suspended_ref := None |> <| updated_at := t |> in
  in_uow (
    transition i (status i) final ≫= λ _,
    (if py_startswith "policy.revalidation." reason
     then _event_in "approval.invalidated"
            [("approval_id", match suspended_ref i with Some r => JStr r | None => JNull end);
             ("action_id", JStr (render_uuid px (id i))); ("reason_code", JStr reason)]
     else mret tt) ≫= λ _,
    _event_in "tool.call.denied" (settled_payload c reason item)) ≫= λ _,
  mret item.

(** A crash between the effect and its record: nobody knows, and nobody repeats. *)
Definition mark_uncertain (c : ToolCallItem) (spec : ToolSpec) (i : ToolInvocation) : M ToolResultItem :=
  let o := plain_outcome px OUTCOME_UNCERTAIN c "tool.outcome_unknown" in
  let item := _outcome_item (render_outcome px) (call_id c) o (ts_output_trust spec) None None in
  t ← now;
  in_uow (
    transition i TOOL_RUNNING (i <| status := UNCERTAIN |> <| outcome := Some o |>
                                 <| result_item := Some item |> <| updated_at := t |>) ≫= λ _,
    _event_in "tool.call.uncertain" (settled_payload c "tool.outcome_unknown" item)) ≫= λ _,
  mret item.

(** *** [_finish] *)
Definition outcome_of (c : ToolCallItem) (r : ToolResult)
    : result (ToolOutcome * ToolInvocationStatus * string) :=
  if ok r then Ok (plain_outcome px OUTCOME_SUCCEEDED c "tool.succeeded", SUCCEEDED, "tool.call.completed")
  else match failure r with
  | None => Raise (RuntimeError "ToolResult contract violation: failed result has no failure")
  | Some f =>
      let unavailable := bool_decide (tf_kind f = TRANSPORT) in
      let uncertain := bool_decide (tf_kind f = OUTCOME_UNKNOWN) in
      Ok ({| outcome_status := if uncertain then OUTCOME_UNCERTAIN
                               else if unavailable then OUTCOME_UNAVAILABLE else OUTCOME_FAILED;
             outcome_action := tc_name c; outcome_reason_code := tf_reason_code f;
             message := message_for px (tf_reason_code f); retryable := tf_retryable f;
             remediation := if negb unavailable &&
                               (tf_retryable f || bool_decide (tf_kind f ∈ [INVALID_ARGUMENTS; TOOL_NOT_FOUND]))
                            then MODIFY_ARGUMENTS else REMEDIATION_NONE |},
          if uncertain then UNCERTAIN else TOOL_FAILED,
          if uncertain then "tool.call.uncertain" else "tool.call.failed")
  end.
Definition finished_item (c : ToolCallItem) (spec : ToolSpec) (r : ToolResult) (o : ToolOutcome) : ToolResultItem :=
  if ok r then
    {| tr_call_id := call_id c; content := res_content r; context_content := res_context_content r;
       memory_recall := if String.eqb (ts_name spec) "memory.search" then res_memory_recall r else None;
       is_error := false; tr_trust := _effective_output_trust r spec; source_event_sequence := None |}
  else _outcome_item (render_outcome px) (call_id c) o (ts_output_trust spec)
         (match failure r with Some f => external_text f | None => None end) None.
(** The last truncated output among the artifacts, or the first of them. *)
Definition artifact_objects (l : list json) : list dict := omap (λ v, match v with JObj o => Some o | _ => None end) l.
Definition artifact_record (r : ToolResult) : option dict :=
  let objects := artifact_objects (artifacts r) in
  match head (List.filter (λ o, bool_decide (as_str (dict_get "role" o) = Some "truncated_output")) (rev objects)) with
  | Some o => Some o
  | None => head objects
  end.
Definition artifact_of (r : ToolResult) : option UUID :=
  match artifact_record r with
  | Some o => match as_str (dict_get "artifact_id" o) with Some u => read_uuid px u | None => None end
  | None => None
  end.
Definition finished (i : ToolInvocation) (st : ToolInvocationStatus) (o : ToolOutcome) (item : ToolResultItem)
    (r : ToolResult) (t : datetime) : ToolInvocation :=
  i <| status := st |> <| outcome := Some o |> <| result_item := Some item |>
    <| structured_result := structured r |> <| output_bytes := metrics r !! "output_bytes" |>
    <| truncated := negb (default 0 (metrics r !! "truncated") =? 0) |>
    <| artifact_id := artifact_of r |> <| updated_at := t |>.
Definition working_state_event (spec : ToolSpec) (r : ToolResult) : M unit :=
  match structured r with
  | Some fields =>
      if String.eqb (ts_name spec) WORKING_STATE_TOOL_NAME && ok r && is_True_value (dict_get "updated" fields) then
        match dict_get "working_state" fields with
        | Some (JObj state) =>
            _event_in "context.working_state.updated"
              [("working_state", JObj state); ("source", JStr "control_tool")]
        | _ => raise (ConflictError "working-state control result has no state mapping")
        end
      else mret tt
  | None => mret tt
  end.
Definition _finish (c : ToolCallItem) (spec : ToolSpec) (i : ToolInvocation) (r : ToolResult)
    (browser_diagnostics : option json) : M ToolResultItem :=
  '(o, st, event_type) ← lift (outcome_of c r);
  let item := finished_item c spec r o in
  t ← now;
  in_uow (
    transition i TOOL_RUNNING (finished i st o item r t) ≫= λ _,
    _event_in event_type (settled_payload c (outcome_reason_code o) item ++
      match browser_diagnostics with Some d => [("browser_diagnostics", d)] | None => [] end)%list ≫= λ _,
    working_state_event spec r) ≫= λ _,
  mret item.

(** *** [_artifactize_large_output] *)
Definition capture_metrics (rendered captured : Z) : gmap string Z :=
  <["output_bytes" := rendered]> (<["captured_bytes" := captured]>
    (<["discarded_bytes" := rendered - captured]> {["truncated" := 1]})).
Definition too_large (text : string) : ToolResult := failed_result OUTPUT_TOO_LARGE "tool.output_invalid" text false.
Definition cut_stream (limit : Z) (key : string) (fields : dict) : dict :=
  match dict_get key fields with
  | Some (JStr value) =>
      if limit / 2 <? str_len value
      then dict_set key (JStr (decode_ignore px (str_head (limit / 4) value) +:+ newline +:+ "[TRUNCATED]")) fields
      else fields
  | _ => fields
  end.
Definition _CAPTURE_NOTE : string := ", kept for the owner; no tool, sandbox or workspace can open it".
Definition capture_note (sections : option Z) (artifact : UUID) : string :=
  match sections with None => _CAPTURE_NOTE | Some n => reader_note px artifact n end.
Definition capture_names (spec : ToolSpec) (partial_capture : bool) : string * string :=
  let filename := py_replace_char "." "-" (ts_name spec) +:+ "-output" in
  if partial_capture then (filename +:+ ".partial.json", "application/octet-stream")
  else (filename +:+ ".json", "application/json").
Definition inline_budget (spec : ToolSpec) : Z :=
  if String.eqb (ts_name spec) CAPTURE_READER_TOOL_NAME then maximum_output_bytes spec
  else Z.min (maximum_output_bytes spec) (inline_output_bytes px).
Definition capture_json (ref : CaptureRef) : json :=
  JObj [("artifact_id", JStr (render_uuid px (cap_id ref))); ("sha256", JStr (cap_sha256 ref));
        ("size_bytes", JInt (cap_size_bytes ref)); ("media_type", JStr (cap_media_type ref));
        ("role", JStr "truncated_output")].
Definition capture_metadata (spec : ToolSpec) : dict :=
  [("capture", JObj [("tool", JStr (ts_name spec));
     ("required_scopes", JArr (map JStr (merge_sort String.le (elements (ts_required_scopes spec)))))])].
Definition file_reference (u : UUID) (media filename : string) : ContentPart :=
  FileReferencePart u media (Some filename) None None.
Definition is_page (spec : ToolSpec) : bool :=
  bool_decide (ts_name spec ∈ ["browser.navigate"; "browser.observe"; "browser.act"]) &&
  String.eqb (ts_target_kind spec) "browser_provider".

Definition _artifactize_large_output (r : ToolResult) (spec : ToolSpec) (who : Principal.t)
    (capture_reader : bool) : M ToolResult :=
  let r := r <| res_context_content := None |> in
  let rendered := content_bytes px (res_content r) in
  let n := str_len rendered in
  let budget := inline_budget spec in
  if n <=? budget then mret (r <| metrics := <["output_bytes" := n]> (metrics r) |>)
  else match artifact_writers with
  | None => mret (too_large "tool output exceeded its inline byte limit")
  | Some create =>
      let artifact_bytes := str_head (maximum_output_bytes spec * hard_ceiling_multiplier px) rendered in
      let partial_capture := str_len artifact_bytes <? n in
      let fields := (λ f, if maximum_output_bytes spec <? n
                          then cut_stream (maximum_output_bytes spec) "stderr"
                                 (cut_stream (maximum_output_bytes spec) "stdout" f) else f) <$> structured r in
      lift (validate_output px fields (ts_output_schema spec)) ≫= λ _,
      let trust := _effective_output_trust r spec in
      let '(filename, media) := capture_names spec partial_capture in
      let label := if partial_capture
        then "captured first " +:+ grouped px (str_len artifact_bytes) +:+ " of " +:+ grouped px n +:+ " bytes"
        else "full output" in
      let sections := if capture_reader && bool_decide (trust = EXTERNAL_UNTRUSTED)
                      then Some (capture_sections px artifact_bytes (ts_name spec)) else None in
      let excerpt u reference := output_excerpt (content_bytes px) (decode_ignore px) (grouped px) rendered budget
        ("artifact:" +:+ render_uuid px u) label (capture_note sections u) (Some reference) in
      match excerpt 0%N (file_reference 0 media filename) with
      | Raise (ValueError _) => mret (too_large "tool byte limit cannot hold an artifact reference")
      | Raise e => raise e
      | Ok _ =>
          run ← gets l_run;
          ref ← world (create run who TOOL_OUTPUT artifact_bytes filename media trust (capture_metadata spec));
          let reference := file_reference (cap_id ref) (cap_media_type ref) filename in
          cut ← lift (excerpt (cap_id ref) reference);
          let cut := match fields with
            | Some f => if ok r && is_page spec && negb partial_capture
                        then default cut (browser_context_projection px f budget reference) else cut
            | None => cut
            end in
          let canonical_fits := n <=? maximum_output_bytes spec in
          mret (r <| res_content := if canonical_fits then res_content r else cut |>
                  <| res_context_content := if canonical_fits then Some cut else None |>
                  <| structured := fields |>
                  <| artifacts := (artifacts r ++ [capture_json ref])%list |>
                  <| metrics := capture_metrics n (str_len artifact_bytes) |>)
      end
  end.
End writes.
