(* ===== verification/ToolDispatch.v ===== *)
(** * Dispatching a tool call ([tools/executor.py: _dispatch_one, _execute_once, dispatch])

    From the proposed call to its result: the candidate row, the policy, the row found or
    created under the idempotency key, the recovery of an earlier attempt, approvals, the
    effect mark, the tool itself and what becomes of its failures. *)
From S2P Require Import Prelude StateLogic PyDecimal Approvals EventModel RunModel RunSpec Sessions PolicyModel Messages Checkpoints LoopGuards LoopPorts ToolInvocations ToolTrust ToolSpecs ToolOutput ToolPipeline.

Definition RunKind_value (k : RunKind) : string :=
  match k with
  | INTERACTIVE => "interactive" | JOB => "job" | SKILL_REVIEW => "skill_review" | DELEGATED => "delegated"
  end.

(** What identifies one call in the pipeline. *)
Record ToolCall := {
  c_item : ToolCallItem;
  c_tool : ToolSpec;
  c_arguments : dict;
  c_hash : string;
  c_key : string;
  c_principal : Principal.t;
  c_group : option UUID;
}.
#[global] Instance toolcall_eta : Eta ToolCall := λ c,
  {| c_item := c_item c; c_tool := c_tool c; c_arguments := c_arguments c; c_hash := c_hash c;
     c_key := c_key c; c_principal := c_principal c; c_group := c_group c |}.
(** What [mark_effect_sent] shares with the call it belongs to. *)
Record EffectState := { ef_invocation : ToolInvocation; effect_authorized : bool }.

(** [if progress[-1] == n - 1: progress.append(n)] *)
Definition advance (n : Z) (progress : list Z) : list Z :=
  if bool_decide (last progress = Some (n - 1)) then (progress ++ [n])%list else progress.

Section dispatch.
Context {W : Type} `{LoopPorts W, PipelinePorts W} (px : ToolPipeline) (lease : option WorkerLease)
  (agent : AgentSpec).
Abbreviation M := (stateM (LoopState W)).
Abbreviation item_of c := (c_item c).

(** ** The candidate and the policy *)
Definition origin (batch : list ToolResultItem) (run : Run) (cp : RunCheckpoint) : TrustLevel :=
  _turn_origin_trust cp (RunKind_value (RunModel.kind run)) batch.
Definition candidate_row (c : ToolCall) (run : Run) (step : Step) (trust : TrustLevel) (i : UUID) (t : datetime)
    : ToolInvocation :=
  {| id := i; run_id := RunModel.id run; session_id := RunModel.session_id run;
     step_number := st_step_number step; inv_call_id := call_id (item_of c);
     tool_name := ts_name (c_tool c); tool_version := ts_version (c_tool c);
     tool_source := ts_source (c_tool c); inv_server_id := ts_server_id (c_tool c);
     idempotency_class := ts_idempotency (c_tool c); inv_side_effect := ts_side_effect (c_tool c);
     inv_risk := ts_risk (c_tool c); attempt_number := 1; status := PROPOSED;
     inv_raw_arguments := raw_arguments (item_of c); normalized_arguments := Some (c_arguments c);
     normalized_arguments_hash := Some (c_hash c); effective_arguments_hash := Some (c_hash c);
     idempotency_key := c_key c; effect_sent_at := None; suspended_kind := None; suspended_ref := None;
     output_bytes := None; truncated := false; artifact_id := None; inv_origin_trust := trust;
     parallel_group := c_group c; outcome := None; policy_decision := None; structured_result := None;
     result_item := None; created_at := t; updated_at := t |}.
Definition new_candidate (c : ToolCall) (batch : list ToolResultItem) : M ToolInvocation :=
  run ← gets l_run; cp ← gets l_checkpoint; step ← gets l_step;
  t ← now; i ← fresh_id;
  mret (candidate_row c run step (origin batch run cp) i t).

Definition _proposed_action (c : ToolCall) (i : ToolInvocation) : M ProposedAction :=
  run ← gets l_run; cp ← gets l_checkpoint; step ← gets l_step;
  t ← now;
  mret {| action_kind := _action_kind (c_tool c); action_id := id i;
          action_tenant_id := RunModel.tenant_id run; action_session_id := RunModel.session_id run;
          action_run_id := RunModel.id run; action_step_number := st_step_number step;
          name := ts_name (c_tool c); version := Some (ts_version (c_tool c));
          summary := "Run " +:+ ts_name (c_tool c) +:+ " with validated arguments.";
          side_effect := ts_side_effect (c_tool c); risk := ts_risk (c_tool c);
          idempotency := ts_idempotency (c_tool c); required_scopes := ts_required_scopes (c_tool c);
          arguments := c_arguments c; PolicyModel.normalized_arguments_hash := c_hash c;
          argument_trust := _argument_trust (lexicon px) (c_arguments c) cp (ts_name (c_tool c));
          origin_trust := inv_origin_trust i;
          newest_user_trust := Some (turn_newest_user_trust
            (_active_turn_facts (validate_and_normalize px) (conversation cp)));
          action_target := execution_target (c_tool c) (ts_server_id (c_tool c)); evaluated_at := t |}.

Definition _evaluate_once (action : ProposedAction) (who : Principal.t) (key : string) : M PolicyDecision :=
  run ← gets l_run;
  match recovery_evaluate with
  | None => world (policy_evaluate action who run)
  | Some deterministic =>
      existing ← in_uow (world (invocations_find (RunModel.id run) key));
      match existing with
      | None => world (policy_evaluate action who run)
      | Some i =>
          judged ← world (deterministic action who run);
          match policy_decision i with
          | Some persisted =>
              mret (if String.eqb (policy_version persisted) (policy_version judged) &&
                       (POLICY_DECISION_RANK (decision judged) <? POLICY_DECISION_RANK (decision persisted))
                    then persisted else judged)
          | None => mret judged
          end
      end
  end.
(** The recovery policy, which is the policy itself where there is no other. *)
Definition recovery_policy (action : ProposedAction) (who : Principal.t) : M PolicyDecision :=
  run ← gets l_run; world (default policy_evaluate recovery_evaluate action who run).

(** The decision, and the call and the candidate it leaves: other arguments, another key. *)
Definition judge (c : ToolCall) (i : ToolInvocation) : M (ToolCall * ToolInvocation * PolicyDecision) :=
  action ← _proposed_action c i;
  d ← _evaluate_once action (c_principal c) (c_key c);
  run ← gets l_run; step ← gets l_step;
  '(c, effective) ← (if bool_decide (decision d = ALLOW_WITH_MODIFICATIONS) then
    match modified_arguments d with
    | None => raise (ConflictError "modified policy decision carried no arguments")
    | Some modified =>
        '(arguments, effective) ← lift (validate_and_normalize px modified (ts_input_schema (c_tool c)));
        mret (c <| c_arguments := arguments |>
                <| c_key := _idempotency_key px run step (item_of c) (c_tool c) effective |>, effective)
    end else mret (c, c_hash c) : M (ToolCall * string));
  mret (c, i <| effective_arguments_hash := Some effective |>
             <| ToolInvocations.idempotency_key := c_key c |> <| policy_decision := Some d |>, d).

(** ** The row *)
Definition find_or_create (c : ToolCall) (i : ToolInvocation) : M ToolInvocation :=
  run ← gets l_run;
  in_uow (
    existing ← world (invocations_find (RunModel.id run) (c_key c));
    match existing with
    | Some row => mret row
    | None =>
        row ← world (invocations_create i lease);
        (if bool_decide (id row = id i)
         then _event_in lease "tool.call.proposed" (named_payload (item_of c)) else mret tt) ≫= λ _,
        mret row
    end).
(** A settled row answers again, and updates the context again. *)
Definition replay (c : ToolCall) (row : ToolInvocation) (o : ToolOutcome) : M ToolResultItem :=
  (if bool_decide (outcome_status o = OUTCOME_SUCCEEDED) then
     cp ← gets l_checkpoint;
     u ← lift (_prepare_context_update px cp (c_tool c) (structured_result row));
     set_cp (_apply_context_update u)
   else mret tt) ≫= λ _,
  mret (default (_outcome_item (render_outcome px) (call_id (item_of c)) o (ts_output_trust (c_tool c)) None None)
                (result_item row)).

(** ** Standing authority and approvals *)
Definition _standing_authorization (c : ToolCall) (row : ToolInvocation) (d : PolicyDecision) (deadline : datetime)
    : M (option StandingAuthorization) :=
  match standing_authorizer with
  | None => mret None
  | Some authorize =>
      action ← _proposed_action c row;
      run ← gets l_run; cp ← gets l_checkpoint;
      given ← catch (a ← world (authorize action d (c_principal c) run (as_version agent) deadline
                                  (_active_turn_facts (validate_and_normalize px) (conversation cp)));
                     mret (Some a))
                    (λ e, match e with DatabaseCapacityError _ => None | _ => Some (mret None) end);
      mret (match given with
            | Some a => if allowed a && negb (bool_decide (is_Some (authorization_kind a)) &&
                                              bool_decide (is_Some (authorization_ref a)))
                        then None else Some a
            | None => None
            end)
  end.
(** An authority that does not answer in time is no authority. *)
Definition standing_in_time (c : ToolCall) (row : ToolInvocation) (d : PolicyDecision) (deadline : datetime)
    (monotonic : Z) : M (option StandingAuthorization) :=
  catch (t ← reading loop_time;
         if monotonic <=? t then raise TimeoutError else _standing_authorization c row d deadline)
        (λ e, match e with TimeoutError => Some (mret None) | _ => None end).

Definition present (c : ToolCall) (arguments : dict) (not_covered : option (UUID * string))
    : M ApprovalPresentation :=
  run ← gets l_run; cp ← gets l_checkpoint;
  let plain := {| pres_summary := generic_action_summary (c_tool c); pres_arguments := arguments;
                  pres_task_offer := None; pres_request_offer := None |} in
  catch (match approval_view_in_session (c_tool c), approval_view (c_tool c) with
         | Some view, _ => world (view arguments run (c_principal c)
                             (_active_turn_facts (validate_and_normalize px) (conversation cp)) not_covered)
         | None, Some view =>
             '(text, shown) ← world (view arguments (RunModel.tenant_id run));
             mret {| pres_summary := text; pres_arguments := shown; pres_task_offer := None;
                     pres_request_offer := None |}
         | None, None => mret plain
         end)
        (λ e, match e with
              | RunCancelledError _ | BudgetExceededError _ _ => None
              | _ => Some (mret plain)
              end).
Definition expiry (run : Run) (spec : ToolSpec) (t : datetime) : datetime :=
  let e := t + seconds (expiry_seconds px (ts_risk spec)) in
  match run_deadline_at run with Some d => Z.min e d | None => e end.
Definition grant_json (g : UUID * string) : json :=
  JObj [("grant_id", JStr (render_uuid px g.1)); ("reason", JStr g.2)].
Definition approval_request (c : ToolCall) (run : Run) (row : ToolInvocation) (arguments_hash : string)
    (d : PolicyDecision) (p : ApprovalPresentation) (standing : option StandingAuthorization) (i : UUID) (t : datetime)
    : ApprovalRequest :=
  {| Approvals.id := i; Approvals.tenant_id := RunModel.tenant_id run;
     Approvals.principal_id := Principal.principal_id (c_principal c);
     Approvals.session_id := RunModel.session_id run; Approvals.run_id := RunModel.id run;
     approval_action_kind := _action_kind (c_tool c); Approvals.action_id := id row;
     tool_invocation_id := Some (id row); Approvals.status := PENDING;
     action_summary := pres_summary p; approval_tool_name := Some (ts_name (c_tool c));
     approval_arguments := approval_argument_view (sensitive_key px) (credential_shape px) (pres_arguments p);
     argument_digests := approval_argument_digests (sensitive_key px) (credential_shape px) (sha256_hex px) (pres_arguments p);
     arguments_hash := arguments_hash; approval_scopes := ts_required_scopes (c_tool c);
     Approvals.agent_version := as_version agent; approval_risk := ts_risk (c_tool c);
     policy_reason := reason_code d; policy_reason_text := Some (approval_reason d (ts_side_effect (c_tool c)));
     Approvals.policy_decision := d; approval_policy_version := policy_version d;
     revalidated_policy_version := None; resolution := None; resolution_reason := None;
     expires_at := Some (expiry run (c_tool c) t); Approvals.created_at := t; resolved_at := None;
     resolved_by := None; task_grant_offer := pres_task_offer p;
     task_grant_not_covered := grant_json <$> _task_grant_not_covered (read_uuid px) standing;
     task_grant_id := None; request_grant_offer := pres_request_offer p;
     research_not_covered := _research_not_covered standing |}.
Definition _request_approval (c : ToolCall) (row : ToolInvocation) (d : PolicyDecision)
    (standing : option StandingAuthorization) : M ApprovalRequest :=
  match normalized_arguments row, ToolInvocations.normalized_arguments_hash row with
  | Some arguments, Some arguments_hash =>
      world token_check ≫= λ _,
      p ← present c arguments (_task_grant_not_covered (read_uuid px) standing);
      world token_check ≫= λ _,
      run ← gets l_run;
      t ← now; i ← fresh_id;
      let waiting := row <| status := WAITING_FOR_APPROVAL |> <| policy_decision := Some d |>
                         <| suspended_kind := Some "approval" |>
                         <| suspended_ref := Some (render_uuid px i) |> <| updated_at := t |> in
      in_uow (
        created ← world (approvals_create (approval_request c run row arguments_hash d p standing i t));
        catch (transition lease row (status row) waiting)
              (λ e, Some (attempt (world (approvals_discard_pending (Approvals.id created))) ≫= λ _, raise e)) ≫= λ _,
        mret created)
  | _, _ => raise (ConflictError "approval action has no normalized arguments")
  end.

(** The principal an approval is honoured for: never more than the run's. *)
Definition current_principal (who : Principal.t) : result Principal.t :=
  match _current_principal px with
  | None => Ok who
  | Some current =>
      if negb (String.eqb (Principal.tenant_id current) (Principal.tenant_id who)) ||
         negb (String.eqb (Principal.principal_id current) (Principal.principal_id who))
      then Raise (ConflictError "approval principal does not match the run principal")
      else Ok {| Principal.tenant_id := Principal.tenant_id who; Principal.principal_id := Principal.principal_id who;
                 Principal.roles := Principal.roles who;
                 Principal.scopes := Principal.scopes who ∩ Principal.scopes current |}
  end.
Definition denial_of (st : ApprovalStatus) : option string :=
  match st with
  | DENIED => Some "approval.denied" | EXPIRED => Some "approval.expired"
  | APPROVAL_CANCELLED => Some "approval.cancelled" | _ => None
  end.
(** The approval's answer: the refusal of the call, or the call as it was approved, its row
    authorized. *)
Definition honour_approval (c : ToolCall) (row : ToolInvocation) : M (ToolResultItem + ToolCall) :=
  let deny reason := _deny_invocation px lease (item_of c) (c_tool c) row reason ≫= λ item, mret (inl item) in
  found ← in_uow (world (approvals_get_by_action (id row)));
  match found with
  | None => raise (ConflictError "waiting invocation has no approval")
  | Some approval =>
      match denial_of (Approvals.status approval) with
      | Some reason => deny reason
      | None =>
          if bool_decide (Approvals.status approval = PENDING) then raise (ApprovalRequiredError (Approvals.id approval))
          else
            current ← lift (current_principal (c_principal c));
            action ← _proposed_action c row;
            judged ← recovery_policy action current;
            approval ← in_uow (world (approvals_record_revalidation (id row) (policy_version judged)));
            match revalidation_denial_reason approval (c_hash c) (Principal.scopes current) (as_version agent)
                    (policy_version judged) (decision judged) with
            | Some reason => deny reason
            | None =>
                t ← now;
                let approved := row <| status := AUTHORIZED |> <| policy_decision := Some judged |>
                                    <| suspended_kind := None |> <| suspended_ref := None |> <| updated_at := t |> in
                row ← in_uow (row ← transition lease row WAITING_FOR_APPROVAL approved;
                              _event_in lease "tool.call.authorized" (named_payload (item_of c)) ≫= λ _, mret row);
                mret (inr (c <| c_principal := current |> <| c_group := parallel_group row |>))
            end
      end
  end.
(** [carry_on] is [_execute_once] for the approved call. *)
Definition _resume_approval (carry_on : ToolCall → list Z → M (ToolResultItem * list Z))
    (c : ToolCall) (row : ToolInvocation) (progress : list Z) : M (ToolResultItem * list Z) :=
  honoured ← honour_approval c row;
  match honoured with inl item => mret (item, progress) | inr c => carry_on c progress end.

(** ** The effect mark and the tool *)
Definition mark_effect_sent (c : ToolCall) (ef : EffectState) : M (result unit * EffectState) :=
  let row := ef_invocation ef in
  run ← gets l_run;
  allowed ← (if effect_authorized ef then mret (Ok tt)
             else match before_effect with
                  | None => mret (Ok tt)
                  | Some check => attempt (world (check run (c_principal c) row lease))
                  end : M (result unit));
  match allowed with
  | Raise e => mret (Raise e, ef)
  | Ok _ =>
      let ef := {| ef_invocation := row; effect_authorized := true |} in
      match effect_sent_at row with
      | Some _ => mret (Ok tt, ef)
      | None =>
          t ← now;
          marked ← attempt (in_uow (transition lease row TOOL_RUNNING
                              (row <| effect_sent_at := Some t |> <| updated_at := t |>)));
          mret (match marked with
                | Ok row => (Ok tt, {| ef_invocation := row; effect_authorized := true |})
                | Raise e => (Raise e, ef)
                end)
      end
  end.
Fixpoint run_tool (c : ToolCall) (work : tool_run W) (ef : EffectState) : M (result ToolResult * EffectState) :=
  match work with
  | Returns r w => λ s, (Ok (r, ef), s <| l_world := w |>)
  | MarksEffect w k => λ s,
      match mark_effect_sent c ef (s <| l_world := w |>) with
      | (Ok (r, ef), s) => run_tool c (k r (l_world s)) ef s
      | (Raise e, s) => (Raise e, s)
      end
  end.
(** The handlers right around [tool.execute]. *)
Definition rejected (spec : ToolSpec) (r : result ToolResult) : result ToolResult :=
  let trust reason := Ok (failed_result INVALID_ARGUMENTS reason
                            "tool rejected content with insufficient provenance trust" false) in
  match r with
  | Raise (ToolStatementNotGroundedError _) => trust "tool.memory.statement_not_owner_grounded"
  | Raise (ToolTrustRejectedError _) =>
      trust (if String.eqb (ts_name spec) "memory.remember"
             then "tool.memory.manual_trust_rejected" else "tool.trust_rejected")
  | Raise (ToolValidationError _ | WorkspaceEscape _) =>
      Ok (failed_result INVALID_ARGUMENTS "tool.arguments_invalid" "tool rejected the validated arguments" false)
  | r => r
  end.
Definition browser_operation (spec : ToolSpec) : bool :=
  String.eqb (ts_target_kind spec) "browser_provider" &&
  bool_decide (ts_name spec ∈ ["browser.navigate"; "browser.observe"; "browser.act"; "browser.upload"]).
Definition timed_out (spec : ToolSpec) (row : ToolInvocation) : ToolResult :=
  let media := bool_decide (ts_name spec ∈ ["image.generate"; "video.generate"]) in
  let uncertain := bool_decide (is_Some (effect_sent_at row)) &&
                   bool_decide (idempotency_class row = NON_IDEMPOTENT) && negb media in
  failed_result (if uncertain then OUTCOME_UNKNOWN else TIMEOUT)
    (if uncertain && browser_operation spec then "tool.browser.outcome_unknown"
     else if uncertain then "tool.outcome_unknown"
     else if media then "tool.media.timeout" else "tool.timeout")
    "tool timeout elapsed" (negb (media || uncertain)).
(** The exceptions the pipeline normalizes, and those that end the run. *)
Definition normalized (spec : ToolSpec) (row : ToolInvocation) (e : exn) : M ToolResult :=
  match e with
  | TimeoutError => mret (timed_out spec row)
  | WorkspaceEscape _ =>
      mret (failed_result INVALID_ARGUMENTS "tool.arguments_invalid"
              "workspace path failed containment validation" false)
  | ToolValidationError _ | ToolTrustRejectedError _ | ToolStatementNotGroundedError _ =>
      mret (failed_result OUTPUT_INVALID "tool.output_invalid" "tool output schema validation failed" false)
  | RunCancelledError _ | BudgetExceededError _ _ | DatabaseCapacityError _ | NotFoundError _ => raise e
  | _ =>
      fresh_id ≫= λ _,
      mret (failed_result INTERNAL "tool.internal_error" "tool raised an unexpected exception" false)
  end.

(** What is caught around the call: what came out, the row and the steps at that point. *)
Definition Attempted : Type := result ToolResult * ToolInvocation * list Z.
Definition admit_output (c : ToolCall) (r : ToolResult) (row : ToolInvocation) (progress : list Z) : M Attempted :=
  if negb (ok r) then mret (Ok r, row, progress)
  else match validate_output px (structured r) (ts_output_schema (c_tool c)) with
  | Raise e => mret (Raise e, row, progress)
  | Ok _ =>
      let progress := advance 11 progress in
      cp ← gets l_checkpoint;
      admitted ← attempt (_artifactize_large_output px r (c_tool c) (c_principal c) (_capture_reader_reachable cp agent));
      mret (match admitted with
            | Raise e => (Raise e, row, progress)
            | Ok r =>
                let progress := advance 12 progress in
                if ok r then match validate_output px (structured r) (ts_output_schema (c_tool c)) with
                             | Raise e => (Raise e, row, progress)
                             | Ok _ => (Ok r, row, progress)
                             end
                else (Ok r, row, progress)
            end)
  end.
Definition call_tool (c : ToolCall) (cx : ToolExecutionContext) (row : ToolInvocation) (progress : list Z) : M Attempted :=
  let ef := {| ef_invocation := row; effect_authorized := false |} in
  if ec_timeout cx <=? 0 then mret (Raise TimeoutError, row, progress)
  else
    '(marked, ef) ← (if bool_decide (ts_side_effect (c_tool c) = SE_NONE) then mret (Ok tt, ef)
                     else mark_effect_sent c ef : M (result unit * EffectState));
    match marked with
    | Raise e => mret (Raise e, ef_invocation ef, progress)
    | Ok _ =>
        w ← gets l_world;
        '(r, ef) ← run_tool c (execute (c_tool c) (c_arguments c) cx w) ef;
        match rejected (c_tool c) r with
        | Raise e => mret (Raise e, ef_invocation ef, progress)
        | Ok r => admit_output c r (ef_invocation ef) progress
        end
    end.
Definition execution_context (c : ToolCall) (row : ToolInvocation) (run : Run) (step : Step) (cp : RunCheckpoint)
    (standing : option StandingAuthorization) (deadline : datetime) (timeout : timedelta) (monotonic : Z)
    (job_model : option json) : ToolExecutionContext :=
  let spec := c_tool c in
  {| ec_invocation_id := id row; ec_call_id := call_id (item_of c); ec_run_id := RunModel.id run;
     ec_session_id := RunModel.session_id run; ec_tenant_id := RunModel.tenant_id run;
     ec_principal := c_principal c; ec_step_number := st_step_number step; ec_attempt_number := 1;
     ec_lease_epoch := match lease with Some l => lease_epoch_held l | None => 0 end;
     ec_idempotency_key := c_key c; ec_deadline_at := deadline; ec_run_deadline_at := run_deadline_at run;
     ec_dispatch_constraint := match standing with
                               | Some a => if allowed a then dispatch_constraint a else None
                               | None => None end;
     ec_timeout := timeout; ec_monotonic_deadline := monotonic;
     ec_maximum_output_bytes := maximum_output_bytes spec; ec_target := execution_target spec None;
     ec_workspace := has_workspaces px && (String.eqb (ts_target_kind spec) "sandbox" ||
                       bool_decide (ts_side_effect spec ∈ [WORKSPACE_READ; WORKSPACE_WRITE]));
     ec_artifacts := _writer_origin px spec (c_arguments c);
     ec_credentials := negb (String.eqb (ts_target_kind spec) "sandbox");
     ec_bridge := String.eqb (ts_target_kind spec) "sandbox"; ec_job_model := job_model;
     ec_working_state := working_state cp; ec_loaded_skills := loaded_skills cp;
     ec_available_tools := list_to_set (match pinned_tool_names cp with [] => enabled_tools agent | names => names end);
     ec_origin_trust := inv_origin_trust row;
     ec_argument_trust := _argument_trust (lexicon px) (c_arguments c) cp (ts_name spec);
     ec_run_kind := RunKind_value (RunModel.kind run) |}.
Definition prepare_update (spec : ToolSpec) (r : ToolResult) : M (ToolResult * PreparedContextUpdate) :=
  if negb (ok r) then mret (r, no_update)
  else
    cp ← gets l_checkpoint;
    match _prepare_context_update px cp spec (structured r) with
    | Ok u => mret (r, u)
    | Raise (ConflictError _ | ValueError _) =>
        mret (failed_result OUTPUT_INVALID "tool.output_invalid"
                "control tool returned an invalid context update" false, no_update)
    | Raise e => raise e
    end.
Definition conclude_call (c : ToolCall) (row : ToolInvocation) (r : ToolResult) (progress : list Z)
    : M (ToolResultItem * list Z) :=
  '(r, u) ← prepare_update (c_tool c) r;
  w ← gets l_world;
  item ← _finish px lease (item_of c) (c_tool c) row r
           (if browser_operation (c_tool c) then Some (diagnostics_snapshot w) else None);
  let progress := if bool_decide (last progress = Some 12) then (progress ++ [13; 14])%list else progress in
  (if ok r then
     set_cp (_apply_context_update u) ≫= λ _,
     match evidence_key r with Some k => set_cp (record_evidence (call_id (item_of c)) k) | None => mret tt end
   else mret tt) ≫= λ _,
  mret (item, progress).
Definition perform_call (c : ToolCall) (row : ToolInvocation) (standing : option StandingAuthorization)
    (deadline : datetime) (monotonic : Z) (progress : list Z) : M (ToolResultItem * list Z) :=
  run ← gets l_run; cp ← gets l_checkpoint; step ← gets l_step;
  t ← now; m ← reading loop_time;
  let timeout := Z.max 0 (Z.min (deadline - t) (monotonic - m)) in
  m ← reading loop_time;
  let monotonic := Z.min monotonic (m + timeout) in
  job ← (if String.eqb (ts_target_kind (c_tool c)) "job" then
           match job_model_factory with
           | Some make => j ← world (make run agent lease); mret (Some j)
           | None => mret None
           end
         else mret None : M (option json));
  is_open ← gets (λ s, uow_is_open (l_world s));
  if (is_open : bool) then raise (RuntimeError "tool execution cannot begin while a unit of work is open")
  else
    let cx := execution_context c row run step cp standing deadline timeout monotonic job in
    '(r, row, progress) ← call_tool c cx row (advance 10 progress);
    r ← (match r with Ok r => mret r | Raise e => normalized (c_tool c) row e end : M ToolResult);
    conclude_call c row r progress.

(** ** Suspending calls *)
Definition ask_user (row : ToolInvocation) : M (ToolResultItem * list Z) :=
  let question := id row in
  let ref := render_uuid px question in
  row ← (match suspended_kind row with
    | None =>
        t ← now;
        in_uow (transition lease row TOOL_RUNNING
          (row <| suspended_kind := Some "user_input" |> <| suspended_ref := Some ref |> <| updated_at := t |>))
    | Some kind =>
        if negb (String.eqb kind "user_input") || negb (bool_decide (suspended_ref row = Some ref))
        then raise (ConflictError "ask-user invocation has an invalid suspension marker") else mret row
    end : M ToolInvocation);
  raise (UserInputRequiredError question (id row)).
Definition delegate (c : ToolCall) (row : ToolInvocation) (progress : list Z) : M (ToolResultItem * list Z) :=
  let refuse k reason text :=
    _finish px lease (item_of c) (c_tool c) row (failed_result k reason text false) None ≫= λ item, mret (item, progress) in
  if bool_decide (suspended_kind row ∉ [None; Some "child_run"])
  then raise (ConflictError "delegate invocation has an invalid suspension marker")
  else match delegations with
  | None => refuse TRANSPORT "tool.unavailable" "delegation is not enabled in this deployment"
  | Some materialize =>
      match validate_delegation px (c_arguments c) with
      | Raise (ValueError m) =>
          refuse INVALID_ARGUMENTS "delegation.brief_invalid" ("delegation request failed validation: " +:+ m)
      | Raise e => raise e
      | Ok request =>
          run ← gets l_run; cp ← gets l_checkpoint;
          started ← attempt (world (materialize request run agent (c_principal c) row (pinned_tool_specs cp) lease));
          match started with
          | Raise (DelegationValidationError reason m) => refuse INVALID_ARGUMENTS reason m
          | Raise e => raise e
          | Ok (delegation, children) =>
              raise (ChildRunRequiredError delegation (id row) (omap (λ child, child) children))
          end
      end
  end.

(** ** One authorized call *)
Definition authorize_tool_invocation (row : ToolInvocation) : M ToolInvocation :=
  t ← now;
  transition lease row PROPOSED (row <| status := AUTHORIZED |> <| updated_at := t |>).
Definition authorization_payload (c : ToolCall) (standing : option StandingAuthorization) : dict :=
  let text v := match v with Some x => JStr x | None => JNull end in
  (named_payload (item_of c) ++ match standing with
   | None => []
   | Some a =>
       [("authorization_kind", text (authorization_kind a)); ("authorization_ref", text (authorization_ref a));
        ("authorization_reason", JStr (sa_reason_code a))] ++
       match use_ordinal a with Some n => [("authorization_use", JInt n)] | None => [] end ++
       match authorization_view a with Some v => [("authorization_view", JObj v)] | None => [] end
   end)%list.
(** PROPOSED to AUTHORIZED to RUNNING, each with its event. *)
Definition start_row (c : ToolCall) (row : ToolInvocation) (standing : option StandingAuthorization)
    (progress : list Z) : M (ToolInvocation * list Z) :=
  row ← (if bool_decide (status row = PROPOSED) then
           in_uow (row ← authorize_tool_invocation row;
                   _event_in lease "tool.call.authorized" (authorization_payload c standing) ≫= λ _, mret row)
         else mret row : M ToolInvocation);
  let progress := if bool_decide (status row = AUTHORIZED) then advance 8 progress else progress in
  row ← (if bool_decide (status row = AUTHORIZED) then
           t ← now;
           in_uow (row ← transition lease row AUTHORIZED (row <| status := TOOL_RUNNING |> <| updated_at := t |>);
                   _event_in lease "tool.call.started" (named_payload (item_of c)) ≫= λ _, mret row)
         else mret row : M ToolInvocation);
  let progress := if bool_decide (status row = TOOL_RUNNING) then advance 9 progress else progress in
  if bool_decide (status row ≠ TOOL_RUNNING)
  then raise (ConflictError ("cannot recover tool invocation in " +:+ ToolInvocationStatus_value (status row)))
  else mret (row, progress).
(** Who lets the call through: a refused one is answered, an undecided one is suspended. *)
Definition authority (c : ToolCall) (row : ToolInvocation) (d : option PolicyDecision) (granted : bool)
    (deadline : datetime) (monotonic : Z) : M (ToolResultItem + ToolInvocation * option StandingAuthorization) :=
  if granted then mret (inr (row, None))
  else match d with
  | None => raise (AssertionError "policy decision was not evaluated")
  | Some d =>
      let row := row <| policy_decision := Some d |> in
      match decision d with
      | DENY => item ← _deny_invocation px lease (item_of c) (c_tool c) row (reason_code d); mret (inl item)
      | REQUIRE_APPROVAL =>
          standing ← standing_in_time c row d deadline monotonic;
          if match standing with Some a => allowed a | None => false end then mret (inr (row, standing))
          else approval ← _request_approval c row d standing; raise (ApprovalRequiredError (Approvals.id approval))
      | _ => mret (inr (row, None))
      end
  end.
Definition carry_out (c : ToolCall) (row : ToolInvocation) (d : option PolicyDecision) (granted : bool)
    (progress : list Z) : M (ToolResultItem * list Z) :=
  run ← gets l_run;
  t ← now;
  let deadline := t + seconds (timeout_seconds (c_tool c)) in
  let deadline := match run_deadline_at run with Some r => Z.min deadline r | None => deadline end in
  m ← reading loop_time; t ← now;
  let monotonic := m + Z.max 0 (deadline - t) in
  let_through ← authority c row d granted deadline monotonic;
  match let_through with
  | inl item => mret (item, progress)
  | inr (row, standing) =>
      '(row, progress) ← start_row c row standing progress;
      if String.eqb (ts_name (c_tool c)) "conversation.ask_user" then ask_user row
      else if String.eqb (ts_name (c_tool c)) DELEGATE_RUN_TOOL_NAME then delegate c row progress
      else perform_call c row standing deadline monotonic progress
  end.

(** The part of [_execute_once] under the key's lock. Every approval found granted runs
    it again, with the row it authorized: [fuel] bounds how often. *)
Fixpoint locked (fuel : nat) (c : ToolCall) (i : ToolInvocation) (d : option PolicyDecision) (granted : bool)
    (progress : list Z) : M (ToolResultItem * list Z) :=
  row ← find_or_create c i;
  match outcome row with
  | Some o => item ← replay c row o; mret (item, progress)
  | None =>
      match tool_recovery_action row with
      | RETURN_OUTCOME => raise (ConflictError "terminal tool invocation has no persisted outcome")
      | MARK_UNCERTAIN => item ← mark_uncertain px lease (item_of c) (c_tool c) row; mret (item, progress)
      | RESUME_APPROVAL =>
          match fuel with
          | O => raise (RuntimeError "maximum recursion depth exceeded")
          | S fuel => _resume_approval (λ c progress, i ← new_candidate c []; locked fuel c i None true progress) c row progress
          end
      | RESUME_AUTHORIZATION | REEXECUTE | REPLAY_IDEMPOTENCY_KEY => carry_out c row d granted progress
      end
  end.
(** One approval is granted once: its row leaves the waiting status. *)
Definition approval_rounds : nat := 1.
Definition _execute_once (c : ToolCall) (batch : list ToolResultItem) (progress : list Z)
    : M (ToolResultItem * list Z) :=
  i ← new_candidate c batch;
  '(c, i, d) ← judge c i;
  locked approval_rounds c i (Some d) false (progress ++ [6; 7])%list.

(** ** One call *)
Definition _resolve_pinned_tool (cp : RunCheckpoint) (name : string) (who : Principal.t) (w : W) : result ToolSpec :=
  let pinned := pinned_spec (read_spec px) cp name in
  registry_get name
    (match pinned with
     | Some p => Some (ts_version p)
     | None => snd <$> List.find (λ kv, String.eqb kv.1 name) (pinned_tool_versions cp) end)
    (Principal.tenant_id who) (Principal.principal_id who) (ts_source <$> pinned)
    (p ← pinned; ts_server_id p) (p ← pinned; ts_device_id p) w.
Definition is_enabled (cp : RunCheckpoint) (spec : ToolSpec) (name : string) : bool :=
  if bool_decide (ts_source spec = MCP) && negb (bool_decide (pinned_tool_names cp = []))
  then bool_decide (name ∈ pinned_tool_names cp) else bool_decide (name ∈ enabled_tools agent).
Definition missing_scopes (spec : ToolSpec) (who : Principal.t) : gset string :=
  ts_required_scopes spec ∖ Principal.scopes who.
Definition scopes_text (missing : gset string) : string :=
  "Not performed. Missing required scope(s): " +:+
  String.concat ", " (merge_sort String.le (elements missing)) +:+ ".".
Definition unwrap (c : ToolCallItem) (cp : RunCheckpoint) : result (string + ToolCallItem) :=
  if _unwraps_deferred_call c agent
  then resolve_deferred_target (validate_and_normalize px) (read_spec px) (dumps_sorted px) c cp
  else Ok (inr c).
Definition record_trace (run : Run) (c : ToolCallItem) (spec : ToolSpec) (progress : list Z) (w : W) : W :=
  let traces := (_completed_traces w ++ [{| trace_run_id := RunModel.id run; trace_call_id := call_id c;
    trace_tool_name := ts_name spec; trace_tool_source := ts_source spec; trace_steps := progress |}])%list in
  set_traces (drop (length traces - 1024) traces) w.
Definition run_resolved (c : ToolCallItem) (spec : ToolSpec) (deferred : bool) (who : Principal.t)
    (group : option UUID) (batch : list ToolResultItem) : M ToolResultItem :=
  let refuse reason st := _refusal px lease c reason st None None in
  cp ← gets l_checkpoint; run ← gets l_run; step ← gets l_step;
  if negb (is_enabled cp spec (tc_name c)) then refuse "policy.matrix.unknown_tool" OUTCOME_DENIED
  else if negb (bool_decide (missing_scopes spec who = ∅))
  then _refusal px lease c "policy.scope.missing" OUTCOME_DENIED (Some (scopes_text (missing_scopes spec who))) None
  else if bool_decide (is_Some (parse_error c)) then refuse "tool.arguments_invalid" OUTCOME_FAILED
  else match validate_and_normalize px (tc_arguments c) (ts_input_schema spec) with
  | Raise (ToolValidationError _) =>
      _refusal px lease c "tool.arguments_invalid" OUTCOME_FAILED None (if deferred then Some spec else None)
  | Raise e => raise e
  | Ok (arguments, arguments_hash) =>
      uncertain_prior ← in_uow (world (invocations_has_uncertain (RunModel.id run) (ts_name spec) arguments_hash who));
      if (uncertain_prior : bool) then
        _refusal px lease c "tool.outcome_unknown" OUTCOME_DENIED
          (Some "Not performed. An identical prior call has an unknown outcome and must not be repeated.") None
      else
        '(item, progress) ← _execute_once
          {| c_item := c; c_tool := spec; c_arguments := arguments; c_hash := arguments_hash;
             c_key := _idempotency_key px run step c spec arguments_hash; c_principal := who; c_group := group |}
          batch [1; 2; 3; 4; 5];
        (if negb (is_error item) && bool_decide (progress = PIPELINE_STEP_SEQUENCE)
         then modify (λ s, s <| l_world := record_trace run c spec progress (l_world s) |>) else mret tt) ≫= λ _,
        mret item
  end.
Definition _dispatch_one (who : Principal.t) (group : option UUID) (batch : list ToolResultItem)
    (c : ToolCallItem) : M ToolResultItem :=
  cp ← gets l_checkpoint;
  target ← lift (unwrap c cp);
  match target with
  | inl reason =>
      _refusal px lease c reason
        (if String.eqb reason "tool.arguments_invalid" then OUTCOME_FAILED else OUTCOME_DENIED) None None
  | inr target =>
      w ← gets l_world;
      match _resolve_pinned_tool cp (tc_name target) who w with
      | Raise (NotFoundError _) => _refusal px lease target "policy.matrix.unknown_tool" OUTCOME_DENIED None None
      | Raise e => raise e
      | Ok spec => run_resolved target spec (_unwraps_deferred_call c agent) who group batch
      end
  end.

(** ** A batch *)
Definition parallel_call (cp : RunCheckpoint) (who : Principal.t) (w : W) (wrapped : ToolCallItem) : result bool :=
  match unwrap wrapped cp with
  | Raise e => Raise e
  | Ok (inl _) => Ok false
  | Ok (inr c) =>
      match _resolve_pinned_tool cp (tc_name c) who w with
      | Raise (NotFoundError _) => Ok false
      | Raise e => Raise e
      | Ok spec => Ok (is_enabled cp spec (tc_name c) &&
                       bool_decide (ts_required_scopes spec ⊆ Principal.scopes who) &&
                       bool_decide (ts_side_effect spec ∈ [SE_NONE; WORKSPACE_READ; NETWORK_READ]) &&
                       allow_parallel spec && bool_decide (ts_idempotency spec = READ_ONLY))
      end
  end.
Fixpoint all_parallel (cp : RunCheckpoint) (who : Principal.t) (w : W) (calls : list ToolCallItem) : result bool :=
  match calls with
  | [] => Ok true
  | c :: calls => b ← parallel_call cp who w c; if (b : bool) then all_parallel cp who w calls else Ok false
  end.
Definition _parallel_ok (calls : list ToolCallItem) (run : Run) (cp : RunCheckpoint) (who : Principal.t) (w : W)
    : result bool :=
  let n := Z.of_nat (length calls) in
  if (n <=? 1) || (max_parallel_calls px <? n) || (max_tool_calls (limits run) <? tool_call_count run + n)
  then Ok false else all_parallel cp who w calls.
(** [gather(return_exceptions=True)]: every call ends; then the first failure is raised. *)
Fixpoint gather (one : ToolCallItem → M ToolResultItem) (calls : list ToolCallItem) : M (list (result ToolResultItem)) :=
  match calls with
  | [] => mret []
  | c :: calls => r ← attempt (one c); rs ← gather one calls; mret (r :: rs)
  end.
Fixpoint first_failure (rs : list (result ToolResultItem)) : result (list ToolResultItem) :=
  match rs with
  | [] => Ok []
  | Raise e :: _ => Raise e
  | Ok r :: rs => rs ← first_failure rs; Ok (r :: rs)
  end.
Fixpoint in_turn (who : Principal.t) (calls : list ToolCallItem) (results : list ToolResultItem)
    : M (list ToolResultItem) :=
  match calls with
  | [] => mret results
  | c :: calls =>
      world token_check ≫= λ _,
      r ← _dispatch_one who None results c;
      world token_check ≫= λ _,
      in_turn who calls (results ++ [r])%list
  end.
Definition dispatch (who : Principal.t) (calls : list ToolCallItem) : M (list ToolResultItem) :=
  run ← gets l_run; cp ← gets l_checkpoint; w ← gets l_world;
  parallel ← lift (_parallel_ok calls run cp who w);
  if (parallel : bool) then
    world token_check ≫= λ _,
    group ← fresh_id;
    settled ← gather (_dispatch_one who (Some group) []) calls;
    results ← lift (first_failure settled);
    world token_check ≫= λ _,
    mret results
  else in_turn who calls [].
End dispatch.
