(* ===== verification/PipelineSpec.v ===== *)
(** * What the tool pipeline guarantees

    The rows and the acts of a world seen through its ports: what the repositories, the
    policy and the tools are relied on for, as laws. From them: no tool runs without an
    authority of the same dispatch and a started row; a call that cannot be repeated has its
    effect sent at most once, over any sequence of dispatches however they end; every result
    answers its own call; and an approval is gone through once. *)
From S2P Require Import Prelude StateLogic PyDecimal Approvals EventModel RunModel RunSpec Sessions PolicyModel Messages Checkpoints LoopGuards LoopPorts ToolInvocations ToolTrust ToolSpecs ToolOutput ToolPipeline ToolDispatch.

(** ** What is seen of a row *)
Record Mark := {
  m_status : ToolInvocationStatus;
  m_effect : option datetime;
  m_class : IdempotencyClass;
  m_run : UUID;
  m_key : string;
  m_call : string;
  m_answer : option string;
}.
Definition mark (x : ToolInvocation) : Mark :=
  {| m_status := status x; m_effect := effect_sent_at x; m_class := idempotency_class x;
     m_run := run_id x; m_key := ToolInvocations.idempotency_key x; m_call := inv_call_id x;
     m_answer := tr_call_id <$> result_item x |}.

(** ** What a world records *)
Inductive act :=
| Judged (a : ProposedAction) (d : PolicyDecision)
| Granted (a : ProposedAction) (st : StandingAuthorization)
| ApprovalRead (action : UUID) (approval : ApprovalRequest)
| Revalidated (action : UUID) (approval : ApprovalRequest)
| Executed (spec : ToolSpec) (args : dict) (cx : ToolExecutionContext) (row : option Mark).

(** A tool at work leaves the rows to the pipeline. *)
Fixpoint quiet_run {W} (rows : W → gmap UUID Mark) (acts : W → list act) (S : gmap UUID Mark) (A : list act)
    (work : tool_run W) : Prop :=
  match work with
  | Returns _ w => rows w = S ∧ acts w = A
  | MarksEffect w k => rows w = S ∧ acts w = A ∧ ∀ r w', quiet_run rows acts (rows w') (acts w') (k r w')
  end.

Class PipelineView (W : Type) := {
  rows : W → gmap UUID Mark;
  acts : W → list act;
}.
Section quiet.
Context {W : Type} `{PipelineView W}.
Definition quiet (w w' : W) : Prop := rows w' = rows w ∧ acts w' = acts w.
(** A port that answers [r] and records [a] when it does. *)
Definition records {A} (w : W) (r : result A * W) (a : A → act) : Prop :=
  rows r.2 = rows w ∧ acts r.2 = match r.1 with Ok x => (acts w ++ [a x])%list | Raise _ => acts w end.
End quiet.

Class PipelineLaws (W : Type) `{LoopPorts W, PipelinePorts W, PipelineView W} : Prop := {
  (** Ports that touch no row. *)
  quiet_clock w : quiet w (clock_now w).2;
  quiet_id w : quiet w (new_id w).2;
  quiet_token w : quiet w (token_check w).2;
  quiet_commit w : quiet w (uow_commit w).2;
  quiet_append e l w : quiet w (events_append e l w).2;
  quiet_uncertain a b c d w : quiet w (invocations_has_uncertain a b c d w).2;
  quiet_find a b w : quiet w (invocations_find a b w).2;
  quiet_approval a w : quiet w (approvals_create a w).2;
  quiet_discard a w : quiet w (approvals_discard_pending a w).2;
  quiet_before f a b c d w : before_effect = Some f → quiet w (f a b c d w).2;
  quiet_delegate f a b c d e g h w : delegations = Some f → quiet w (f a b c d e g h w).2;
  quiet_artifact f a b c d e g h i w : artifact_writers = Some f → quiet w (f a b c d e g h i w).2;
  quiet_job f a b c w : job_model_factory = Some f → quiet w (f a b c w).2;
  quiet_session_view s f a b c d e w : approval_view_in_session s = Some f → quiet w (f a b c d e w).2;
  quiet_view s f a b w : approval_view s = Some f → quiet w (f a b w).2;
  quiet_loop w : quiet w (loop_time w).2;
  quiet_traces l w : quiet w (set_traces l w);
  (** A rollback restores the rows and undoes nothing that was done outside. *)
  rolled_back w w' : rows (uow_rollback w w') = rows w ∧ acts (uow_rollback w w') = acts w';
  (** Judgements, grants, approvals and executions are recorded. *)
  records_policy a who run w : records w (policy_evaluate a who run w) (Judged a);
  records_recovery f a who run w : recovery_evaluate = Some f → records w (f a who run w) (Judged a);
  records_standing f a d who run v t turn w : standing_authorizer = Some f →
    records w (f a d who run v t turn w) (Granted a);
  records_approval i w :
    rows (approvals_get_by_action i w).2 = rows w ∧
    acts (approvals_get_by_action i w).2 =
      match (approvals_get_by_action i w).1 with Ok (Some ap) => (acts w ++ [ApprovalRead i ap])%list | _ => acts w end;
  records_revalidation i v w : records w (approvals_record_revalidation i v w) (Revalidated i);
  records_execution spec args cx w :
    quiet_run rows acts (rows w) (acts w ++ [Executed spec args cx (rows w !! ec_invocation_id cx)])
      (execute spec args cx w);
  (** One row per run and key; a transition replaces the row of its id, as the table allows. *)
  found run key w :
    match (invocations_find run key w).1 with
    | Ok (Some x) => rows w !! id x = Some (mark x) ∧ run_id x = run ∧ ToolInvocations.idempotency_key x = key
    | Ok None => ∀ i m, rows w !! i = Some m → m_run m = run → m_key m ≠ key
    | Raise _ => True
    end;
  created x l w :
    acts (invocations_create x l w).2 = acts w ∧
    match (invocations_create x l w).1 with
    | Ok y =>
        rows (invocations_create x l w).2 = rows w ∧ rows w !! id y = Some (mark y) ∧
        run_id y = run_id x ∧ ToolInvocations.idempotency_key y = ToolInvocations.idempotency_key x ∨
        y = x ∧ rows w !! id x = None ∧ rows (invocations_create x l w).2 = <[id x := mark x]> (rows w)
    | Raise _ => rows (invocations_create x l w).2 = rows w
    end;
  moved i e x l w :
    acts (invocations_transition i e x l w).2 = acts w ∧
    match (invocations_transition i e x l w).1 with
    | Ok y =>
        id y = i ∧ status x ∈ ALLOWED_TOOL_TRANSITIONS e ∧
        (∃ c, mark y = mark (updated c x) ∧ id c = i ∧ rows w !! i = Some (mark c) ∧ status c = e ∧ y = updated c x) ∧
        rows (invocations_transition i e x l w).2 = <[i := mark y]> (rows w)
    | Raise _ => rows (invocations_transition i e x l w).2 = rows w
    end;
}.

(** ** Frames *)
Section frames.
Context {W : Type} `{PipelineLaws W} (px : ToolPipeline) (lease : option WorkerLease) (agent : AgentSpec).
Abbreviation M := (stateM (LoopState W)).

#[export] Instance quiet_pre : PreOrder (quiet (W:=W)).
Proof. split; [by split|]. intros a b c [??] [??]. split; congruence. Qed.
(** Neither a row nor an act, nor the run and the step. *)
Definition idle (s s' : LoopState W) : Prop :=
  quiet (l_world s) (l_world s') ∧ l_run s' = l_run s ∧ l_step s' = l_step s.
#[export] Instance idle_pre : PreOrder idle.
Proof.
  split; [by intros s; split; [reflexivity|]|]. intros a b c (?&?&?) (?&?&?).
  split; [by etrans|]. split; congruence.
Qed.
Lemma idle_world {A} (f : W → result A * W) : (∀ w, quiet w (f w).2) → keeps idle (world f).
Proof. intros Hf s. unfold idle, world. specialize (Hf (l_world s)). by destruct (f (l_world s)). Qed.
Lemma idle_reading {A} (f : W → A * W) : (∀ w, quiet w (f w).2) → keeps idle (reading f).
Proof. intros Hf s. unfold idle, reading. specialize (Hf (l_world s)). by destruct (f (l_world s)). Qed.
Lemma idle_now : keeps idle now.
Proof. intros s. unfold idle, now. pose proof (quiet_clock (l_world s)). by destruct (clock_now _). Qed.
Lemma idle_fresh_id : keeps idle fresh_id.
Proof. intros s. unfold idle, fresh_id. pose proof (quiet_id (l_world s)). by destruct (new_id _). Qed.
Lemma idle_set_cp f : keeps idle (set_cp f).
Proof. by apply (keeps_modify _). Qed.
Lemma idle_attempt {A} (m : M A) : keeps idle m → keeps idle (attempt m).
Proof. intros Hm s. specialize (Hm s). unfold attempt. by destruct (m s). Qed.
Lemma idle_catch {A} (m : M A) handler :
  keeps idle m → (∀ e k, handler e = Some k → keeps idle k) → keeps idle (catch m handler).
Proof.
  intros Hm Hh s. specialize (Hm s). unfold catch. destruct (m s) as [[a|e] s']; [done|].
  destruct (handler e) as [k|] eqn:E; [|done]. etrans; [exact Hm|]. by apply (Hh e k).
Qed.
Lemma idle_in_uow {A} (body : M A) : keeps idle body → keeps idle (in_uow body).
Proof.
  intros Hb s. specialize (Hb s). unfold idle, in_uow in *. destruct (body s) as [[a|e] s'].
  - destruct Hb as ((Hr & Ha) & ? & ?). cbn in *. pose proof (quiet_commit (l_world s')) as [Cr Ca].
    destruct (uow_commit _) as [[[]|e] w]; cbn in *; [split_and!; unfold quiet; split_and?; congruence|].
    destruct (rolled_back (l_world s) w). split_and!; [|done..]. unfold quiet; cbn; split; congruence.
  - destruct Hb as ((Hr & Ha) & ? & ?). cbn in *. destruct (rolled_back (l_world s) (l_world s')).
    split_and!; [|done..]. unfold quiet; cbn; split; congruence.
Qed.
Lemma idle_token : keeps idle (world token_check).
Proof. apply idle_world. intros. apply quiet_token. Qed.
End frames.
#[export] Hint Resolve idle_now idle_fresh_id idle_set_cp idle_attempt idle_in_uow idle_token : idle.
#[export] Hint Extern 1 (keeps idle (mret _)) => apply (keeps_ret _) : idle.
#[export] Hint Extern 1 (keeps idle (raise _)) => apply (keeps_raise _) : idle.
#[export] Hint Extern 1 (keeps idle (gets _)) => apply (keeps_gets _) : idle.
#[export] Hint Extern 1 (keeps idle (lift _)) => apply (keeps_lift _) : idle.

(** A computation of quiet ports. *)
Ltac idle_port :=
  first [apply idle_world | apply idle_reading]; intros;
  first [apply quiet_find | apply quiet_uncertain | apply quiet_append | apply quiet_approval
        | apply quiet_discard | apply quiet_loop | eapply quiet_before; eassumption
        | eapply quiet_artifact; eassumption | eapply quiet_job; eassumption
        | eapply quiet_session_view; eassumption | eapply quiet_view; eassumption
        | eapply quiet_delegate; eassumption].
Ltac idle :=
  repeat match goal with
  | |- keeps idle (mbind _ _) => apply (keeps_bind _); [|intros ?]
  | |- keeps idle (if ?b then _ else _) => destruct b eqn:?
  | |- keeps idle (let '(_, _) := ?x in _) => destruct x
  | |- keeps idle (match ?x with _ => _ end) => destruct x eqn:?
  | |- keeps idle (in_uow _) => apply idle_in_uow
  | |- keeps idle (attempt _) => apply idle_attempt
  | |- keeps idle _ => solve [eauto with idle]
  | |- keeps idle _ => idle_port
  end.

Section idle_parts.
Context {W : Type} `{PipelineLaws W} (px : ToolPipeline) (lease : option WorkerLease) (agent : AgentSpec).
Abbreviation M := (stateM (LoopState W)).

Lemma idle_event t p : keeps idle (_event_in lease t p).
Proof. unfold _event_in. idle. Qed.
Hint Resolve idle_event : idle.
Lemma idle_refusal c reason st text d : keeps idle (_refusal px lease c reason st text d).
Proof. unfold _refusal. cbn zeta. idle. Qed.
Lemma idle_working_state spec r : keeps idle (working_state_event lease spec r).
Proof. unfold working_state_event. idle. Qed.
Lemma idle_artifactize r spec who b : keeps idle (_artifactize_large_output px r spec who b).
Proof. unfold _artifactize_large_output. cbn zeta. idle. Qed.
Lemma idle_candidate c batch : keeps idle (new_candidate c batch).
Proof. unfold new_candidate. idle. Qed.
Lemma idle_proposed c i : keeps idle (_proposed_action px c i).
Proof. unfold _proposed_action. idle. Qed.
Lemma idle_present c args nc : keeps idle (present px c args nc).
Proof.
  unfold present. idle. apply idle_catch; [idle|].
  intros e k Hk. destruct e; simplify_eq; idle.
Qed.
Lemma idle_replay c row o : keeps idle (replay px c row o).
Proof. unfold replay. idle. Qed.
Lemma idle_prepare spec r : keeps idle (prepare_update px spec r).
Proof. unfold prepare_update. idle. Qed.
Lemma idle_normalized spec row e : keeps idle (normalized spec row e).
Proof. unfold normalized. idle. Qed.
Lemma idle_admit c r row progress : keeps idle (admit_output px agent c r row progress).
Proof. unfold admit_output. pose proof idle_artifactize. idle. Qed.
End idle_parts.
#[export] Hint Resolve idle_event idle_refusal idle_working_state idle_artifactize idle_candidate idle_proposed
  idle_present idle_replay idle_prepare idle_normalized idle_admit : idle.

(** ** The invariant of rows and executions *)
Definition is_effect (i : UUID) (a : act) : bool :=
  match a with
  | Executed spec _ cx _ =>
      bool_decide (ec_invocation_id cx = i) && negb (bool_decide (ts_side_effect spec = SE_NONE))
  | _ => false
  end.
(** How often the effect of an invocation was set going. *)
Definition effects (i : UUID) (A : list act) : nat := length (List.filter (is_effect i) A).
Definition early : list ToolInvocationStatus := [PROPOSED; AUTHORIZED; WAITING_FOR_APPROVAL].
Definition plain (s : string) : Prop := str_has ":" s = false.
(** The key of a row is the key of a call with the row's call id. *)
Definition keyed (px : ToolPipeline) (m : Mark) : Prop :=
  ∃ run step c spec h, m_key m = _idempotency_key px run step c spec h ∧ m_call m = call_id c ∧
    plain (ts_name spec) ∧ plain (ts_version spec) ∧ plain h.
Record Inv (px : ToolPipeline) (S : gmap UUID Mark) (A : list act) : Prop := {
  inv_early : ∀ i m, S !! i = Some m → m_status m ∈ early → m_effect m = None;
  inv_marked : ∀ i, (0 < effects i A)%nat → ∃ m, S !! i = Some m ∧ is_Some (m_effect m);
  inv_once : ∀ i m, S !! i = Some m → m_class m = NON_IDEMPOTENT → (effects i A <= 1)%nat;
  inv_keyed : ∀ i m, S !! i = Some m → keyed px m;
  inv_answer : ∀ i m a, S !! i = Some m → m_answer m = Some a → a = m_call m;
  inv_unique : ∀ i j m n, S !! i = Some m → S !! j = Some n → m_run m = m_run n → m_key m = m_key n → i = j;
}.
Lemma inv_init px : Inv px ∅ [].
Proof. split; intros *; rewrite ?lookup_empty; try done. cbn. lia. Qed.

Lemma effects_app i A B : effects i (A ++ B) = (effects i A + effects i B)%nat.
Proof. unfold effects. by rewrite List.filter_app, length_app. Qed.

(** A row in memory that agrees with the stored one. *)
Definition synced (S : gmap UUID Mark) (x : ToolInvocation) : Prop :=
  ∃ m, S !! id x = Some m ∧ m_status m = status x ∧ m_effect m = effect_sent_at x ∧
    m_class m = idempotency_class x ∧ m_call m = inv_call_id x ∧ m_run m = run_id x ∧
    m_key m = ToolInvocations.idempotency_key x ∧ m_answer m = tr_call_id <$> result_item x.
Lemma synced_mark S x : S !! id x = Some (mark x) → synced S x.
Proof. intros Hx. by exists (mark x). Qed.
Lemma synced_copy S x y :
  id y = id x → status y = status x → effect_sent_at y = effect_sent_at x →
  idempotency_class y = idempotency_class x → inv_call_id y = inv_call_id x → run_id y = run_id x →
  ToolInvocations.idempotency_key y = ToolInvocations.idempotency_key x → result_item y = result_item x →
  synced S x → synced S y.
Proof. intros E1 E2 E3 E4 E5 E6 E7 E8. unfold synced. by rewrite E1, E2, E3, E4, E5, E6, E7, E8. Qed.
(** What the pipeline writes over a row: the effect mark stays, or is set while running; an
    answer is the row's own. *)
Definition writes (x next : ToolInvocation) : Prop :=
  id next = id x ∧
  (effect_sent_at next = effect_sent_at x ∨ status next = TOOL_RUNNING ∧ is_Some (effect_sent_at next)) ∧
  (result_item next = result_item x ∨ ∀ it, result_item next = Some it → tr_call_id it = inv_call_id x).
Definition written (c next : ToolInvocation) : Mark := mark (updated c next).

Lemma early_from a b : b ∈ ALLOWED_TOOL_TRANSITIONS a → b ∈ early → a ∈ early.
Proof. unfold early. destruct a, b; cbn; set_solver. Qed.
Lemma inv_move px S A x next c :
  Inv px S A → S !! id x = Some (mark c) → synced S x → writes x next →
  status next ∈ ALLOWED_TOOL_TRANSITIONS (status c) →
  Inv px (<[id x := written c next]> S) A.
Proof.
  intros I Hc (m & Hm & Hs & He & Hcl & Hcall & _ & _ & Hit) (_ & Heff & Hans) Hst.
  assert (m = mark c) as -> by congruence. clear Hm. split.
  - intros i m [[<- <-]|[_ Hi]]%lookup_insert_Some; [|by apply (inv_early _ _ _ I i)]. cbn. intros Hn.
    pose proof (inv_early _ _ _ I _ _ Hc (early_from _ _ Hst Hn)) as Hce. cbn in Hce, He, Hs.
    destruct Heff as [->|[Hr _]]; [congruence|]. rewrite Hr in Hn. unfold early in Hn. set_solver.
  - intros i Hi. destruct (inv_marked _ _ _ I i Hi) as (m & Hm & Hsome).
    destruct (decide (id x = i)) as [<-|N]; [|exists m; by rewrite lookup_insert_ne].
    exists (written c next). rewrite lookup_insert_eq. split; [done|].
    assert (m = mark c) as -> by congruence. cbn in *.
    destruct Heff as [E|[_ ?]]; [by rewrite E, <- He|done].
  - intros i m [[<- <-]|[_ Hi]]%lookup_insert_Some; [|by apply (inv_once _ _ _ I i)]. cbn. intros Hn.
    by apply (inv_once _ _ _ I _ _ Hc).
  - intros i m [[<- <-]|[_ Hi]]%lookup_insert_Some; [|by apply (inv_keyed _ _ _ I i)].
    exact (inv_keyed _ _ _ I _ _ Hc).
  - intros i m a [[<- <-]|[_ Hi]]%lookup_insert_Some; [|by apply (inv_answer _ _ _ I i)]. cbn in *.
    intros Ha. destruct Hans as [E|Hans].
    + rewrite E, <- Hit in Ha. by apply (inv_answer _ _ _ I _ _ _ Hc Ha).
    + apply fmap_Some in Ha as (it & E & ->). by rewrite (Hans it E), <- Hcall.
  - intros i j m n Hi Hj Hr Hk.
    assert (∀ k m, <[id x:=written c next]> S !! k = Some m →
      ∃ m0, S !! k = Some m0 ∧ m_run m0 = m_run m ∧ m_key m0 = m_key m) as Hold.
    { intros k m0 [[<- <-]|[_ Hx]]%lookup_insert_Some; [by exists (mark c)|by exists m0]. }
    destruct (Hold _ _ Hi) as (m0 & Hi' & Er & Ek), (Hold _ _ Hj) as (n0 & Hj' & Fr & Fk).
    by apply (inv_unique _ _ _ I i j m0 n0 Hi' Hj'); congruence.
Qed.
Lemma inv_create px S A x :
  Inv px S A → S !! id x = None → status x = PROPOSED → effect_sent_at x = None → result_item x = None →
  (∀ i m, S !! i = Some m → m_run m = run_id x → m_key m ≠ ToolInvocations.idempotency_key x) →
  keyed px (mark x) → Inv px (<[id x := mark x]> S) A.
Proof.
  intros I Hx Hs He Hr Hnew Hk.
  assert (effects (id x) A = 0)%nat as H0.
  { destruct (effects (id x) A) eqn:E; [done|].
    destruct (inv_marked _ _ _ I (id x)) as (m & Hm & _); [lia|congruence]. }
  split.
  - intros i m [[<- <-]|[_ Hi]]%lookup_insert_Some; [done|by apply (inv_early _ _ _ I i)].
  - intros i Hi. destruct (inv_marked _ _ _ I i Hi) as (m & Hm & ?). exists m.
    rewrite lookup_insert_ne by congruence. done.
  - intros i m [[<- <-]|[_ Hi]]%lookup_insert_Some; [lia|by apply (inv_once _ _ _ I i)].
  - intros i m [[<- <-]|[_ Hi]]%lookup_insert_Some; [done|by apply (inv_keyed _ _ _ I i)].
  - intros i m a [[<- <-]|[_ Hi]]%lookup_insert_Some; [cbn; by rewrite Hr|by apply (inv_answer _ _ _ I i)].
  - intros i j m n [[<- <-]|[Ni Hi]]%lookup_insert_Some [[<- <-]|[Nj Hj]]%lookup_insert_Some Hru Hke; [done| | |].
    + exfalso. by eapply (Hnew j n); [done|..].
    + exfalso. by eapply (Hnew i m).
    + by apply (inv_unique _ _ _ I i j m n).
Qed.
(** An execution with its effect marked, or without a side effect. *)
Lemma inv_execute px S A spec args cx row :
  Inv px S A →
  (ts_side_effect spec ≠ SE_NONE → ∃ m, S !! ec_invocation_id cx = Some m ∧ is_Some (m_effect m) ∧
     (m_class m = NON_IDEMPOTENT → effects (ec_invocation_id cx) A = 0%nat)) →
  Inv px S (A ++ [Executed spec args cx row]).
Proof.
  intros I Hm.
  assert (∀ i, effects i (A ++ [Executed spec args cx row]) =
            (effects i A + if bool_decide (ec_invocation_id cx = i) &&
                              negb (bool_decide (ts_side_effect spec = SE_NONE)) then 1 else 0)%nat) as He.
  { intros i. rewrite effects_app. unfold effects at 2. cbn. by destruct (_ && _). }
  split.
  - exact (inv_early _ _ _ I).
  - intros i. rewrite He. repeat case_bool_decide; cbn; rewrite ?Nat.add_0_r; intros ?;
      try by apply (inv_marked _ _ _ I).
    subst. destruct (Hm ltac:(done)) as (m & ? & ? & _). eauto.
  - intros i m Hi Hn. rewrite He. pose proof (inv_once _ _ _ I i m Hi Hn).
    repeat case_bool_decide; cbn; try lia. subst.
    destruct (Hm ltac:(done)) as (m' & Hm' & _ & Hz). assert (m' = m) as -> by congruence. rewrite Hz by done. lia.
  - exact (inv_keyed _ _ _ I).
  - exact (inv_answer _ _ _ I).
  - exact (inv_unique _ _ _ I).
Qed.
Lemma inv_other px S A a : Inv px S A → (∀ i, is_effect i a = false) → Inv px S (A ++ [a]).
Proof.
  intros I Ha.
  assert (∀ i, effects i (A ++ [a]) = effects i A) as He.
  { intros i. rewrite effects_app. unfold effects at 2. cbn. rewrite Ha. cbn. lia. }
  split; [exact (inv_early _ _ _ I)| |intros i m; rewrite He; exact (inv_once _ _ _ I i m)
         |exact (inv_keyed _ _ _ I)|exact (inv_answer _ _ _ I)|exact (inv_unique _ _ _ I)].
  intros i. rewrite He. exact (inv_marked _ _ _ I i).
Qed.

(** ** The audit of a dispatch *)
(** Who stands behind a call: the policy allowed it; an authority standing for the owner
    granted it and says which; or the owner approved it and it was judged again. *)
Definition allowing (d : PolicyDecision) : Prop := decision d ∈ [ALLOW; ALLOW_WITH_MODIFICATIONS].
Definition about (px : ToolPipeline) (spec : ToolSpec) (args : dict) (a : ProposedAction) : Prop :=
  name a = ts_name spec ∧
  (arguments a = args ∨ ∃ m h, validate_and_normalize px m (ts_input_schema spec) = Ok (args, h)).
Definition justified (px : ToolPipeline) (A : list act) (spec : ToolSpec) (args : dict) (i : UUID) : Prop :=
  (∃ a d, Judged a d ∈ A ∧ about px spec args a ∧ allowing d) ∨
  (∃ a st, Granted a st ∈ A ∧ about px spec args a ∧ action_id a = i ∧ allowed st = true ∧
     is_Some (authorization_kind st) ∧ is_Some (authorization_ref st)) ∨
  (∃ ap ap' a d scopes version, ApprovalRead i ap ∈ A ∧ Approvals.status ap = APPROVED ∧
     Judged a d ∈ A ∧ about px spec args a ∧ action_id a = i ∧ Revalidated i ap' ∈ A ∧
     revalidation_denial_reason ap' (PolicyModel.normalized_arguments_hash a) scopes version
       (policy_version d) (decision d) = None).
Lemma justified_app px A B spec args i : justified px A spec args i → justified px (A ++ B) spec args i.
Proof.
  intros [(a & d & ? & ?)|[(a & st & ? & ?)|(ap & ap' & a & d & sc & v & ? & ? & ? & ? & ? & ? & ?)]];
    [left; exists a, d|right; left; exists a, st|right; right; exists ap, ap', a, d, sc, v];
    rewrite ?elem_of_app; tauto.
Qed.
(** The row an execution found. *)
Definition started (spec : ToolSpec) (row : option Mark) : Prop :=
  ∃ m, row = Some m ∧ m_status m = TOOL_RUNNING ∧ (ts_side_effect spec ≠ SE_NONE → is_Some (m_effect m)).
Definition audited (px : ToolPipeline) (new : list act) : Prop :=
  ∀ before spec args cx row after, new = before ++ Executed spec args cx row :: after →
    justified px before spec args (ec_invocation_id cx) ∧ started spec row.
Lemma snoc_split {A} (l before after : list A) (x y : A) :
  l ++ [x] = before ++ y :: after →
  after = [] ∧ before = l ∧ y = x ∨ ∃ after', after = after' ++ [x] ∧ l = before ++ y :: after'.
Proof.
  destruct after as [|z after _] using rev_ind.
  - intros [-> [= ->]]%app_inj_tail. by left.
  - rewrite app_comm_cons, app_assoc. intros [-> ->]%app_inj_tail. right. eauto.
Qed.
Lemma audited_nil px : audited px [].
Proof. intros before * E. by destruct before. Qed.
Lemma audited_snoc px new a :
  audited px new →
  (∀ spec args cx row, a = Executed spec args cx row →
     justified px new spec args (ec_invocation_id cx) ∧ started spec row) →
  audited px (new ++ [a]).
Proof.
  intros Hn Ha before spec args cx row after [(-> & -> & E)|(after' & -> & E)]%snoc_split.
  - by apply Ha.
  - by eapply Hn.
Qed.

(** ** The pipeline keeps the invariant, and audits what it adds *)
Section audit.
Context {W : Type} `{PipelineLaws W} (px : ToolPipeline) (lease : option WorkerLease) (agent : AgentSpec).
(** The acts before the dispatch. *)
Context (past : list act).
Abbreviation M := (stateM (LoopState W)).

Definition good_view (S : gmap UUID Mark) (A : list act) : Prop :=
  Inv px S A ∧ ∃ new, A = past ++ new ∧ audited px new.
(** The run stays the run. *)
Context (run0 : UUID).
Definition good (s : LoopState W) : Prop :=
  good_view (rows (l_world s)) (acts (l_world s)) ∧ RunModel.id (l_run s) = run0.
Definition quietly (s s' : LoopState W) : Prop := quiet (l_world s) (l_world s') ∧ l_run s' = l_run s.
#[local] Instance quietly_pre : PreOrder quietly.
Proof. split; [by intros s; split|]. intros a b c [? ?] [? ?]. split; [by etrans|congruence]. Qed.
Definition in_sync (s : LoopState W) (x : ToolInvocation) : Prop := synced (rows (l_world s)) x.
Definition backed (s : LoopState W) (spec : ToolSpec) (args : dict) (i : UUID) : Prop :=
  ∃ new, acts (l_world s) = past ++ new ∧ justified px new spec args i.
Lemma quiet_good s s' : quietly s s' → good s → good s'.
Proof. unfold good. by intros [[-> ->] ->]. Qed.
Lemma quiet_sync s s' x : quietly s s' → in_sync s x → in_sync s' x.
Proof. unfold in_sync. by intros [[-> _] _]. Qed.
Lemma quietly_acts s s' : quietly s s' → acts (l_world s') = acts (l_world s).
Proof. by intros [[_ ?] _]. Qed.
Lemma quiet_backed s s' spec args i :
  acts (l_world s') = acts (l_world s) → backed s spec args i → backed s' spec args i.
Proof. unfold backed. by intros ->. Qed.

(** Quiet computations. *)
Lemma wp_idle {A} (m : M A) (Q : result A → LoopState W → Prop) s :
  keeps idle m → (∀ r s', quietly s s' → Q r s') → wp m Q s.
Proof. intros Hm HQ. destruct (Hm s) as (?&?&_). by apply HQ. Qed.
Lemma wp_idle_bind {A B} (m : M A) (f : A → M B) (Q : result B → LoopState W → Prop) s :
  keeps idle m →
  (∀ a s', quietly s s' → wp (f a) Q s') →
  (∀ e s', quietly s s' → Q (Raise e) s') → wp (m ≫= f) Q s.
Proof. intros Hm Hf He. apply wp_bind, wp_idle; [done|]. intros [a|e] s' Hq; auto. Qed.

(** A row written in its unit of work. *)
Definition follows (x next y : ToolInvocation) : Prop :=
  id y = id x ∧ status y = status next ∧ effect_sent_at y = effect_sent_at next ∧
  idempotency_class y = idempotency_class x ∧ inv_call_id y = inv_call_id x ∧ run_id y = run_id x ∧
  ToolInvocations.idempotency_key y = ToolInvocations.idempotency_key x ∧ policy_decision y = policy_decision next ∧
  suspended_kind y = suspended_kind next.
(** The end of a unit of work begun in [w]. *)
Definition closing {A} (w : W) (p : result A * LoopState W) : result A * LoopState W :=
  match p with
  | (Raise e, s) => (Raise e, s <| l_world := uow_rollback w (l_world s) |>)
  | (Ok a, s) =>
      match uow_commit (l_world s) with
      | (Ok _, w') => (Ok a, s <| l_world := w' |>)
      | (Raise e, w') => (Raise e, s <| l_world := uow_rollback w w' |>)
      end
  end.
Lemma closing_quiet {A} w (p : result A * LoopState W) s :
  rows w = rows (l_world s) → acts (l_world p.2) = acts (l_world s) → l_run p.2 = l_run s →
  rows (l_world p.2) = rows (l_world s) ∨ (∃ e, p.1 = Raise e) → quietly s (closing w p).2.
Proof.
  destruct p as [[a|e] s']; cbn; intros Hw Ha Hrun Hr.
  - destruct Hr as [Hr|[e [=]]]. pose proof (quiet_commit (l_world s')) as [Cr Ca].
    destruct (uow_commit (l_world s')) as [[[]|e] w']; cbn in *; [by split; [split; cbn; congruence|]|].
    destruct (rolled_back w w'). split; [|done]. split; cbn; congruence.
  - destruct (rolled_back w (l_world s')). split; [|done]. split; cbn; congruence.
Qed.
Lemma closed_move {A} w x e next (f : ToolInvocation → M A) (P : ToolInvocation → A → Prop)
    (Q : result A → LoopState W → Prop) s :
  rows w = rows (l_world s) → good s → in_sync s x → writes x next → (∀ y, keeps idle (f y)) →
  (∀ y s1 a s2, f y s1 = (Ok a, s2) → P y a) →
  (∀ a y s', good s' → acts (l_world s') = acts (l_world s) → P y a → follows x next y →
     status next ∈ ALLOWED_TOOL_TRANSITIONS e → rows (l_world s') !! id y = Some (mark y) → Q (Ok a) s') →
  (∀ e s', quietly s s' → Q (Raise e) s') →
  let p := closing w ((transition lease x e next ≫= f) s) in Q p.1 p.2.
Proof.
  intros Hw G Hx Hwr Hf HP Hok Hraise. unfold mbind, stateM_bind, transition, world.
  pose proof (moved (id x) e next lease (l_world s)) as [Ma Mr].
  destruct (invocations_transition _ _ _ _ _) as [[y|er] w1] eqn:E; cbn [fst snd] in *.
  2:{ apply Hraise. by apply (closing_quiet w (Raise er, s <| l_world := w1 |>)); [..|right; eauto]. }
  destruct Mr as (Hid & Hst & (c & Hmark & Hc & Hcs & Hce & Hy) & Hrows).
  specialize (Hf y (s <| l_world := w1 |>)). specialize (HP y (s <| l_world := w1 |>)).
  destruct (f y _) as [[a|er] s2]; destruct Hf as ((Hr2 & Ha2) & Hrun2 & _); cbn in Hr2, Ha2, Hrun2.
  2:{ apply Hraise. apply (closing_quiet w (Raise er, s2)); [done|cbn; congruence|done|right; eauto]. }
  cbn. pose proof (quiet_commit (l_world s2)) as [Cr Ca].
  destruct (uow_commit (l_world s2)) as [[[]|er] w3]; cbn [fst snd] in *.
  2:{ apply Hraise. destruct (rolled_back w w3). split; [|done]. unfold quiet. cbn. split; congruence. }
  pose proof Hx as (m & Hm & Hms & Hme & Hmc & Hmcall & Hmr & Hmk & _). assert (m = mark c) as -> by congruence.
  apply (Hok a y); cbn.
  - destruct G as [[I Aud] Hrun]. split; [|cbn; congruence]. unfold good_view. cbn.
    rewrite Cr, Hr2, Hrows, Ca, Ha2, Ma. split; [|done]. rewrite Hmark. by eapply inv_move; [..|rewrite Hce].
  - congruence.
  - by eapply HP.
  - cbn in *. subst y. unfold follows. cbn. by split_and!.
  - done.
  - by rewrite Cr, Hr2, Hrows, Hid, lookup_insert_eq.
Qed.
Lemma wp_move {A} x e next (f : ToolInvocation → M A) (P : ToolInvocation → A → Prop) Q s :
  good s → in_sync s x → writes x next → (∀ y, keeps idle (f y)) →
  (∀ y s1 a s2, f y s1 = (Ok a, s2) → P y a) →
  (∀ a y s', good s' → acts (l_world s') = acts (l_world s) → P y a → follows x next y →
     status next ∈ ALLOWED_TOOL_TRANSITIONS e → rows (l_world s') !! id y = Some (mark y) → Q (Ok a) s') →
  (∀ e s', quietly s s' → Q (Raise e) s') →
  wp (in_uow (transition lease x e next ≫= f)) Q s.
Proof. intros G Hx Hw Hf HP Hok Hr. exact (closed_move (l_world s) x e next f P Q s eq_refl G Hx Hw Hf HP Hok Hr). Qed.
(** The instant is read inside the unit of work. *)
Lemma wp_move_now {A} x e (next : datetime → ToolInvocation) (f : ToolInvocation → M A)
    (P : ToolInvocation → A → Prop) Q s :
  good s → in_sync s x → (∀ t, writes x (next t)) → (∀ y, keeps idle (f y)) →
  (∀ y s1 a s2, f y s1 = (Ok a, s2) → P y a) →
  (∀ t a y s', good s' → acts (l_world s') = acts (l_world s) → P y a → follows x (next t) y →
     status (next t) ∈ ALLOWED_TOOL_TRANSITIONS e → rows (l_world s') !! id y = Some (mark y) → Q (Ok a) s') →
  (∀ e s', quietly s s' → Q (Raise e) s') →
  wp (in_uow ((now ≫= λ t, transition lease x e (next t)) ≫= f)) Q s.
Proof.
  intros G Hx Hw Hf HP Hok Hraise.
  pose proof (quiet_clock (l_world s)) as Hq. destruct (clock_now (l_world s)) as [t w] eqn:E. cbn in Hq.
  set (s1 := s <| l_world := w |>).
  assert (in_uow ((now ≫= λ t, transition lease x e (next t)) ≫= f) s =
          closing (l_world s) ((transition lease x e (next t) ≫= f) s1)) as Heq.
  { unfold in_uow, closing, mbind, stateM_bind, now. rewrite E. reflexivity. }
  assert (quietly s s1) as Hq1 by done. unfold wp. rewrite Heq.
  apply (closed_move _ _ _ _ _ P); [| | | |exact Hf|exact HP| |].
  - by destruct Hq.
  - by apply (quiet_good s).
  - by apply (quiet_sync s).
  - apply Hw.
  - intros a y s' G' Ha. apply Hok; [done|]. by rewrite Ha, (quietly_acts _ _ Hq1).
  - intros e' s' Hq'. apply Hraise. by etrans.
Qed.

(** An answer to the call [i], in a good state. *)
Definition answers (i : string) : result ToolResultItem → LoopState W → Prop := λ r s,
  good s ∧ ∀ it, r = Ok it → tr_call_id it = i.
Definition answers_with (i : string) : result (ToolResultItem * list Z) → LoopState W → Prop := λ r s,
  good s ∧ ∀ it p, r = Ok (it, p) → tr_call_id it = i.
Lemma wp_then {A B} (m : M A) (g : A → B) (Q : result B → LoopState W → Prop) s :
  wp m (λ r s', Q (match r with Ok a => Ok (g a) | Raise e => Raise e end) s') s →
  wp (m ≫= λ a, mret (g a)) Q s.
Proof. unfold wp, mbind, stateM_bind. by destruct (m s) as [[a|e] s']. Qed.
Lemma wp_answered i (m : M ToolResultItem) (progress : list Z) s :
  wp m (answers i) s → wp (m ≫= λ item, mret (item, progress)) (answers_with i) s.
Proof. intros Hm. apply wp_then. eapply wp_mono; [exact Hm|]. intros [a|e] s' [G Ha]; split; naive_solver. Qed.
(** A quiet step, then an answer. *)
Lemma wp_answers_bind {A} (m : M A) (f : A → M ToolResultItem) i s :
  good s → keeps idle m →
  (∀ a s', quietly s s' → good s' → wp (f a) (answers i) s') → wp (m ≫= f) (answers i) s.
Proof.
  intros G Hm Hf. apply wp_idle_bind; [done| |].
  - intros a s' Hq. apply Hf; [done|]. by eapply quiet_good.
  - intros e s' Hq. split; [by eapply quiet_good|done].
Qed.

(** The transaction that settles a row answers its call. *)
Lemma wp_settle i row e next (f : ToolInvocation → M unit) item s :
  good s → in_sync s row → writes row next → (∀ y, keeps idle (f y)) → tr_call_id item = i →
  wp (in_uow (transition lease row e next ≫= f) ≫= λ _, mret item) (answers i) s.
Proof.
  intros G Hs Hw Hf Hi. apply wp_bind. eapply (wp_move _ _ _ _ (λ _ _, True)); [done..| |].
  - intros a y s2 G2 _ _ _ _ _. split; [done|]. by intros it [= <-].
  - intros er s2 Hq2. split; [by eapply quiet_good|done].
Qed.
Lemma wp_deny c spec row reason s :
  good s → in_sync s row → inv_call_id row = call_id c →
  wp (_deny_invocation px lease c spec row reason) (answers (call_id c)) s.
Proof.
  intros G Hs Hc. unfold _deny_invocation. cbn zeta.
  apply wp_answers_bind; [done|apply idle_now|]. intros t s1 Hq G1.
  apply wp_settle; [done|by eapply quiet_sync| |intros y; idle|done].
  split; [done|]. split; [by left|]. right. by intros it [= <-].
Qed.
Lemma wp_uncertain c spec row s :
  good s → in_sync s row → inv_call_id row = call_id c →
  wp (mark_uncertain px lease c spec row) (answers (call_id c)) s.
Proof.
  intros G Hs Hc. unfold mark_uncertain. cbn zeta.
  apply wp_answers_bind; [done|apply idle_now|]. intros t s1 Hq G1.
  apply wp_settle; [done|by eapply quiet_sync| |intros y; idle|done].
  split; [done|]. split; [by left|]. right. by intros it [= <-].
Qed.
Lemma finished_item_id c spec r o : tr_call_id (finished_item px c spec r o) = call_id c.
Proof. unfold finished_item. by destruct (ok r). Qed.
Lemma wp_finish c spec row r d s :
  good s → in_sync s row → inv_call_id row = call_id c →
  wp (_finish px lease c spec row r d) (answers (call_id c)) s.
Proof.
  intros G Hs Hc. unfold _finish. cbn zeta.
  apply wp_answers_bind; [done|apply (keeps_lift _)|]. intros [[o st] event] s1 Hq1 G1.
  apply wp_answers_bind; [done|apply idle_now|]. intros t s2 Hq2 G2.
  apply wp_settle; [done|by eapply quiet_sync, quiet_sync| |intros y; idle|apply finished_item_id].
  split; [done|]. split; [by left|]. right. intros it [= <-]. rewrite finished_item_id. congruence.
Qed.

(** *** The effect mark *)
(** The row a tool works under. *)
Definition running (s : LoopState W) (x y : ToolInvocation) : Prop :=
  in_sync s y ∧ status y = TOOL_RUNNING ∧ id y = id x ∧ idempotency_class y = idempotency_class x ∧
  inv_call_id y = inv_call_id x ∧ (is_Some (effect_sent_at x) → is_Some (effect_sent_at y)).
Lemma running_refl s x : in_sync s x → status x = TOOL_RUNNING → running s x x.
Proof. intros. unfold running. by split_and!. Qed.
Lemma running_trans s' s x y z : running s' x y → running s y z → running s x z.
Proof.
  intros (?&?&?&?&?&?) (?&?&?&?&?&?). unfold running. split_and!; [done|done|congruence|congruence|congruence|auto].
Qed.
Lemma wp_attempt {A} (m : M A) (Q : result (result A) → LoopState W → Prop) s :
  wp m (λ r s', Q (Ok r) s') s → wp (attempt m) Q s.
Proof. unfold wp, attempt. by destruct (m s). Qed.
Lemma wp_uow_ret {A} (m : M A) Q s : wp (in_uow (m ≫= λ a, mret a)) Q s → wp (in_uow m) Q s.
Proof. unfold wp, in_uow, mbind, stateM_bind. by destruct (m s) as [[a|e] s']. Qed.
Lemma wp_mark c ef s :
  good s → in_sync s (ef_invocation ef) → status (ef_invocation ef) = TOOL_RUNNING →
  wp (mark_effect_sent lease c ef) (λ r s', good s' ∧ acts (l_world s') = acts (l_world s) ∧
     match r with
     | Ok (res, ef') => running s' (ef_invocation ef) (ef_invocation ef') ∧
                        (res = Ok tt → is_Some (effect_sent_at (ef_invocation ef')))
     | Raise _ => False
     end) s.
Proof.
  intros G Hs Hst. unfold mark_effect_sent. cbn zeta. apply wp_bind, wp_gets, wp_bind.
  eapply (wp_mono _ (λ r s', quietly s s' ∧ is_ok r = true)).
  { destruct (effect_authorized ef); [by apply wp_ret|].
    destruct before_effect as [check|] eqn:B; [|by apply wp_ret].
    apply wp_attempt. apply (wp_mono _ (λ _ s', quietly s s')); [|done].
    apply wp_idle; [|done]. idle. }
  intros [allowed_|] s1 [Hq1 Hok]; [clear Hok|done].
  assert (good s1) as G1 by (by eapply quiet_good).
  assert (in_sync s1 (ef_invocation ef)) as Hs1 by (by eapply quiet_sync).
  apply quietly_acts in Hq1 as Ha1. destruct allowed_ as [[]|e].
  2:{ apply wp_ret. split_and!; [done|done|by apply running_refl|done]. }
  destruct (effect_sent_at (ef_invocation ef)) as [at_|] eqn:E.
  { apply wp_ret. split_and!; [done|done|by apply running_refl|]. intros _. cbn. by rewrite E. }
  apply wp_bind. eapply (wp_mono _ (λ r s', quietly s1 s' ∧ is_ok r = true)).
  { split; [by destruct (idle_now s1) as (?&?&_)|]. unfold now. by destruct (clock_now _). }
  intros [t|] s2 [Hq2 Hok]; [clear Hok|done].
  assert (good s2) as G2 by (by eapply quiet_good).
  assert (in_sync s2 (ef_invocation ef)) as Hs2 by (by eapply quiet_sync).
  apply quietly_acts in Hq2 as Ha2. apply wp_bind, wp_attempt, wp_uow_ret.
  eapply (wp_move _ _ _ _ (λ y a, a = y)); [done|done| |intros y; idle| | |].
  - split; [done|]. split; [by right|]. by left.
  - by intros y s' a s'' [= <- _].
  - intros a y s' G' Ha -> (Hid & Hst' & He & Hcl & Hcall & _) _ Hrow.
    apply wp_ret. split; [done|]. split; [congruence|]. cbn in *.
    assert (running s' (ef_invocation ef) y) as Hrun.
    { split; [by apply synced_mark|]. split_and!; try congruence. intros _. by rewrite He. }
    split; [done|]. intros _. by rewrite He.
  - intros e s' Hq3. apply wp_ret. split; [by eapply quiet_good|]. apply quietly_acts in Hq3 as Ha3.
    split; [congruence|]. split; [|done]. apply running_refl; [by eapply quiet_sync|done].
Qed.

(** *** The tool at work *)
Lemma wp_run_tool c work ef S A s :
  quiet_run rows acts S A work → good_view S A → RunModel.id (l_run s) = run0 → synced S (ef_invocation ef) →
  status (ef_invocation ef) = TOOL_RUNNING →
  wp (run_tool lease c work ef) (λ r s', good s' ∧
     match r with Ok (_, ef') => running s' (ef_invocation ef) (ef_invocation ef') | Raise _ => False end) s.
Proof.
  revert ef S A s. induction work as [r w|w k IH]; intros ef S A s Hq G Hrun0 Hs Hst.
  - destruct Hq as [<- <-]. split; [by split|]. by apply running_refl.
  - destruct Hq as (<- & <- & Hk). set (s1 := s <| l_world := w |>).
    pose proof (wp_mark c ef s1 (conj G Hrun0) Hs Hst) as Hm. unfold wp in *. cbn [run_tool]. fold s1.
    destruct (mark_effect_sent lease c ef s1) as [[[r ef']|e] s2]; cbn in Hm; [|tauto].
    destruct Hm as (G2 & _ & Hrun & _). pose proof Hrun as (Hs2 & Hst2 & _). destruct G2 as [G2 Hr2].
    specialize (IH r (l_world s2) ef' (rows (l_world s2)) (acts (l_world s2)) s2 (Hk _ _) G2 Hr2 Hs2 Hst2).
    destruct (run_tool lease c _ ef' s2) as [[[r' ef'']|e] s3]; cbn in *; [|tauto].
    destruct IH as [G3 Hrun3]. split; [done|]. by eapply running_trans.
Qed.

(** A call about to be made: its row runs, somebody stands behind it, and if it cannot be
    repeated its effect was never sent. *)
Definition ready (s : LoopState W) (c : ToolCall) (row : ToolInvocation) : Prop :=
  in_sync s row ∧ status row = TOOL_RUNNING ∧ backed s (c_tool c) (c_arguments c) (id row) ∧
  (idempotency_class row = NON_IDEMPOTENT → effect_sent_at row = None) ∧
  inv_call_id row = call_id (c_item c).
Lemma quiet_ready s s' c row : quietly s s' → ready s c row → ready s' c row.
Proof.
  intros Hq (?&?&?&?&?). split; [by eapply quiet_sync|]. split_and!; [done| |done|done].
  eapply quiet_backed; [by apply quietly_acts|done].
Qed.
Lemma never_sent s row :
  good s → in_sync s row → effect_sent_at row = None → effects (id row) (acts (l_world s)) = 0%nat.
Proof.
  intros [[I _] _] (m & Hm & _ & He & _) Hn. destruct (effects _ _) eqn:E; [done|].
  destruct (inv_marked _ _ _ I (id row)) as (m' & Hm' & [t Ht]); [lia|].
  assert (m' = m) as -> by congruence. congruence.
Qed.
Lemma good_execute s (s0 : LoopState W) c row ef cx :
  good s → good s0 → ready s0 c row → acts (l_world s) = acts (l_world s0) →
  running s row (ef_invocation ef) → ec_invocation_id cx = id row →
  (ts_side_effect (c_tool c) ≠ SE_NONE → is_Some (effect_sent_at (ef_invocation ef))) →
  good_view (rows (l_world s)) (acts (l_world s) ++
    [Executed (c_tool c) (c_arguments c) cx (rows (l_world s) !! ec_invocation_id cx)]).
Proof.
  intros [[I (new & E & Aud)] _] G0 (Hs0 & _ & (new' & E' & J) & Hone & _) Ha ((m & Hm & Hms & Hme & Hmc & _) & Hst & Hid & Hcl & _) Hcx Hmark.
  assert (new' = new) as -> by (apply (app_inv_head past); congruence). rewrite Hid in Hm.
  assert (ts_side_effect (c_tool c) ≠ SE_NONE → is_Some (m_effect m)) as Heff by (rewrite Hme; auto).
  split.
  - apply inv_execute; [done|]. intros Hse. exists m. rewrite Hcx. split; [done|]. split; [auto|].
    intros Hn. rewrite Ha. apply never_sent; [done|done|]. apply Hone. congruence.
  - exists (new ++ [Executed (c_tool c) (c_arguments c) cx (rows (l_world s) !! ec_invocation_id cx)]).
    split; [by rewrite E, app_assoc|]. apply audited_snoc; [done|].
    intros ? ? ? ? [= <- <- <- <-]. rewrite Hcx. split; [done|]. exists m. split_and!; [done|congruence|done].
Qed.
Lemma wp_call c cx row progress s :
  good s → ready s c row → ec_invocation_id cx = id row →
  wp (call_tool px lease agent c cx row progress) (λ r s', good s' ∧
     ∀ res row' p, r = Ok (res, row', p) → running s' row row') s.
Proof.
  intros G R Hcx. pose proof R as (Hs & Hst & _). unfold call_tool. cbn zeta.
  destruct (ec_timeout cx <=? 0).
  { apply wp_ret. split; [done|]. intros ? ? ? [= _ <- _]. by apply running_refl. }
  apply wp_bind. eapply (wp_mono _ (λ r s', good s' ∧ acts (l_world s') = acts (l_world s) ∧
    match r with
    | Ok (res, ef') => running s' row (ef_invocation ef') ∧
        (res = Ok tt → ts_side_effect (c_tool c) ≠ SE_NONE → is_Some (effect_sent_at (ef_invocation ef')))
    | Raise _ => False end)).
  { case_bool_decide as Hse.
    - apply wp_ret. split; [done|]. split; [done|]. split; [by apply running_refl|]. by intros _ [].
    - eapply wp_mono; [by apply wp_mark|]. intros [[res ef']|e] s' (?&?&?); [|done]. naive_solver. }
  intros [[marked ef]|e] s1 (G1 & Ha & Hrest); [|done]. destruct Hrest as [Hrun Hmark].
  destruct marked as [[]|e].
  2:{ apply wp_ret. split; [done|]. by intros ? ? ? [= _ <- _]. }
  apply wp_bind, wp_gets, wp_bind. pose proof Hrun as (Hs1 & Hst1 & _).
  eapply wp_mono.
  { eapply (wp_run_tool _ _ ef); [apply (records_execution (c_tool c))| |apply G1|exact Hs1|exact Hst1].
    apply (good_execute s1 s c row ef cx); auto. }
  intros [[res ef2]|e] s2 [G2 Hrun2]; [|done].
  assert (running s2 row (ef_invocation ef2)) as Hrun' by (by eapply running_trans).
  destruct (rejected _ res) as [r|e].
  2:{ apply wp_ret. split; [done|]. by intros ? ? ? [= _ <- _]. }
  apply (wp_conj _ (λ _ s', good s') (λ r s', ∀ res row' p, r = Ok (res, row', p) → running s' row row')).
  - apply wp_idle; [apply idle_admit|]. intros. by eapply quiet_good.
  - pose proof (idle_admit px agent c r (ef_invocation ef2) progress s2) as (Hq & Hq' & _).
    unfold wp. intros res' row' p Hr. assert (row' = ef_invocation ef2) as ->.
    { revert Hr. clear. unfold admit_output, mbind, stateM_bind, attempt, gets, mret, stateM_ret.
      repeat case_match; simplify_eq/=; congruence. }
    destruct Hrun' as (?&?&?&?&?&?). split; [by apply (quiet_sync s2); [split|]|]. by split_and!.
Qed.

Lemma wp_bind_idle {A B} (m : M A) (f : A → M B) (Q : result B → LoopState W → Prop) s :
  good s → keeps idle m → (∀ e s', good s' → Q (Raise e) s') →
  (∀ a s', quietly s s' → good s' → wp (f a) Q s') → wp (m ≫= f) Q s.
Proof.
  intros G Hm He Hf. apply wp_idle_bind; [done| |].
  - intros a s' Hq. apply Hf; [done|by eapply quiet_good].
  - intros e s' Hq. apply He. by eapply quiet_good.
Qed.
Lemma raised i e s : good s → answers_with i (Raise e) s.
Proof. by split. Qed.

Lemma wp_conclude c row r progress s :
  good s → in_sync s row → inv_call_id row = call_id (c_item c) →
  wp (conclude_call px lease c row r progress) (answers_with (call_id (c_item c))) s.
Proof.
  intros G Hs Hc. unfold conclude_call. cbn zeta.
  apply wp_bind_idle; [done|apply idle_prepare|apply raised|]. intros [r' u] s1 Hq1 G1.
  apply wp_bind, wp_gets, wp_bind.
  eapply wp_mono; [apply wp_finish; [done|by eapply quiet_sync|done]|].
  intros [item|e] s2 [G2 Hi]; [|by apply raised].
  apply wp_bind_idle; [done|idle|apply raised|]. intros [] s3 Hq3 G3. apply wp_ret.
  split; [done|]. intros it p [= <- _]. by apply Hi.
Qed.
Lemma wp_perform c row standing deadline monotonic progress s :
  good s → ready s c row →
  wp (perform_call px lease agent c row standing deadline monotonic progress) (answers_with (call_id (c_item c))) s.
Proof.
  intros G R. unfold perform_call. cbn zeta. apply wp_bind, wp_gets, wp_bind, wp_gets, wp_bind, wp_gets.
  apply wp_bind_idle; [done|idle|apply raised|]. intros t s1 Hq1 G1. apply (quiet_ready _ _ _ _ Hq1) in R.
  apply wp_bind_idle; [done|idle|apply raised|]. intros m s2 Hq2 G2. apply (quiet_ready _ _ _ _ Hq2) in R.
  apply wp_bind_idle; [done|idle|apply raised|]. intros m' s3 Hq3 G3. apply (quiet_ready _ _ _ _ Hq3) in R.
  apply wp_bind_idle; [done|idle|apply raised|]. intros job s4 Hq4 G4. apply (quiet_ready _ _ _ _ Hq4) in R.
  apply wp_bind, wp_gets. destruct (uow_is_open _); [by apply wp_raise, raised|].
  apply wp_bind. eapply wp_mono; [by apply wp_call|].
  intros [[[r row'] p]|e] s5 [G5 Hrun]; [|by apply raised].
  specialize (Hrun r row' p eq_refl). pose proof Hrun as (Hs5 & Hst5 & Hid & _ & Hcall & _).
  destruct R as (_ & _ & _ & _ & Hc).
  apply wp_bind_idle; [done|destruct r; idle|apply raised|]. intros r' s6 Hq6 G6.
  apply wp_conclude; [done|by eapply quiet_sync|congruence].
Qed.
Lemma wp_ask c row s :
  good s → in_sync s row → inv_call_id row = call_id (c_item c) → 
  wp (ask_user px lease row) (answers_with (call_id (c_item c))) s.
Proof.
  intros G Hs Hc. unfold ask_user. cbn zeta. apply wp_bind.
  apply (wp_mono _ (λ _ s', good s')).
  - destruct (suspended_kind row).
    + destruct (_ || _); [by apply wp_raise|by apply wp_ret].
    + apply wp_bind_idle; [done|idle|done|]. intros t s1 Hq G1. apply wp_uow_ret.
      eapply (wp_move _ _ _ _ (λ _ _, True)); [done|by eapply quiet_sync| |intros y; idle|done|done|].
      * split; [done|]. split; [by left|]. by left.
      * intros e s2 Hq2. by eapply quiet_good.
  - intros [y|e] s' G'; [|by apply raised]. by apply wp_raise, raised.
Qed.
Lemma wp_delegate c row progress s :
  good s → in_sync s row → inv_call_id row = call_id (c_item c) →
  wp (delegate px lease agent c row progress) (answers_with (call_id (c_item c))) s.
Proof.
  intros G Hs Hc. unfold delegate. cbn zeta.
  case_bool_decide; [by apply wp_raise, raised|].
  assert (∀ k reason text s, good s → in_sync s row →
    wp (_finish px lease (c_item c) (c_tool c) row (failed_result k reason text false) None ≫= λ item, mret (item, progress))
       (answers_with (call_id (c_item c))) s) as Hrefuse.
  { intros. apply wp_answered. by apply wp_finish. }
  destruct delegations as [materialize|] eqn:D; [|by apply Hrefuse].
  destruct (validate_delegation px _) as [request|e].
  2:{ destruct e; try (by apply wp_raise, raised). by apply Hrefuse. }
  apply wp_bind, wp_gets, wp_bind, wp_gets.
  apply wp_bind_idle; [done|idle|apply raised|]. intros started_ s1 Hq1 G1.
  destruct started_ as [[d children]|e]; [by apply wp_raise, raised|].
  destruct e; try (by apply wp_raise, raised). apply Hrefuse; [done|]. by eapply quiet_sync.
Qed.

(** *** From PROPOSED to RUNNING *)
(** What a started row is to the one it was. *)
Definition onward (s : LoopState W) (row : ToolInvocation) (r : result ToolInvocation) (s' : LoopState W) : Prop :=
  good s' ∧ ∀ row', r = Ok row' → in_sync s' row' ∧ id row' = id row ∧
    idempotency_class row' = idempotency_class row ∧ inv_call_id row' = inv_call_id row ∧
    effect_sent_at row' = effect_sent_at row ∧ acts (l_world s') = acts (l_world s).
Lemma onward_refl s row : good s → in_sync s row → onward s row (Ok row) s.
Proof. intros G Hs. split; [done|]. by intros row' [= <-]. Qed.
Lemma onward_move s row next a y s' :
  good s' → acts (l_world s') = acts (l_world s) → a = y → follows row next y →
  effect_sent_at next = effect_sent_at row → rows (l_world s') !! id y = Some (mark y) → onward s row (Ok a) s'.
Proof.
  intros G' Ha -> (?&?&?&?&?&?) He Hrow. split; [done|]. intros row' [= <-].
  split; [by apply synced_mark|]. split_and!; congruence.
Qed.
Lemma onward_raise s row e s' : good s → quietly s s' → onward s row (Raise e) s'.
Proof. intros G Hq. split; [by eapply quiet_good|done]. Qed.
(** [f] tells, and hands the row on. *)
Lemma told_row t p (y : ToolInvocation) s1 a s2 :
  (_event_in lease t p ≫= λ _, mret y) s1 = (Ok a, s2) → a = y.
Proof. unfold mbind, stateM_bind. by destruct (_event_in _ _ _ _) as [[]?]; intros [= <- _]. Qed.
Lemma wp_start c row standing progress s :
  good s → in_sync s row →
  wp (start_row lease c row standing progress) (λ r s', good s' ∧
     ∀ row' p, r = Ok (row', p) → onward s row (Ok row') s' ∧ status row' = TOOL_RUNNING) s.
Proof.
  intros G Hs. unfold start_row. cbn zeta. apply wp_bind. apply (wp_mono _ (onward s row)).
  { case_bool_decide; [|by apply wp_ret, onward_refl]. unfold authorize_tool_invocation.
    eapply (wp_move_now _ _ _ _ (λ y a, a = y)); [done|done| |intros y; idle|by intros; eapply told_row| |].
    - intros t. split; [done|]. split; [by left|]. by left.
    - intros t a y s' G' Ha Hay Hf _ Hrow. by eapply onward_move.
    - intros e s' Hq. by apply onward_raise. }
  intros [row1|e] s1 [G1 Hn1]; [|by split].
  destruct (Hn1 row1 eq_refl) as (Hs1 & Hid1 & Hc1 & Hi1 & He1 & Ha1).
  apply wp_bind. apply (wp_mono _ (onward s row)).
  { case_bool_decide; [|by apply wp_ret; split; [done|intros ? [= <-]]].
    apply wp_bind_idle; [done|idle|by split|]. intros t s2 Hq2 G2.
    eapply (wp_move _ _ _ _ (λ y a, a = y)); [done|by eapply quiet_sync| |intros y; idle|by intros; eapply told_row| |].
    - split; [done|]. split; [by left|]. by left.
    - intros a y s' G' Ha -> (?&?&?&?&?&?) _ Hrow. split; [done|]. intros row' [= <-].
      split; [by apply synced_mark|]. apply quietly_acts in Hq2. cbn in *. split_and!; congruence.
    - intros e s' Hq. split; [by eapply quiet_good|done]. }
  intros [row2|e] s2 [G2 Hn2]; [|by split].
  case_bool_decide as Hst; [by apply wp_raise; split|].
  apply wp_ret. split; [done|]. intros row' p [= <- _]. split; [split; [done|exact Hn2]|].
  destruct (decide (status row2 = TOOL_RUNNING)); [done|by destruct Hst].
Qed.

(** *** Who lets the call through *)
Lemma closing_good {A} w (p : result A * LoopState W) s e :
  p.1 = Raise e → rows w = rows (l_world s) → acts (l_world p.2) = acts (l_world s) → l_run p.2 = l_run s →
  good s → good (closing w p).2.
Proof. intros Hp Hw Ha Hr G. eapply quiet_good; [|done]. apply closing_quiet; [done|done|done|by right; exists e]. Qed.
(** The card is created with the row that waits for it, or not at all. *)
Lemma wp_waiting request row next s :
  good s → in_sync s row → writes row next →
  wp (in_uow (world (approvals_create request) ≫= λ created,
        catch (transition lease row (status row) next)
              (λ e, Some (attempt (world (approvals_discard_pending (Approvals.id created))) ≫= λ _, raise e)) ≫= λ _,
        mret created)) (λ _ s', good s') s.
Proof.
  intros G Hs Hw. set (body := _ ≫= _). unfold wp. change (in_uow body s) with (closing (l_world s) (body s)).
  pose proof (idle_world (approvals_create request) (λ w, quiet_approval request w) s) as (Hq1 & Hrun1 & _).
  unfold body. unfold mbind, stateM_bind at 1. destruct (world (approvals_create request) s) as [[created_|e] s1] eqn:E1;
    cbn in Hq1, Hrun1; [|eapply closing_good; [done|done|apply Hq1|done|done]].
  assert (good s1) as G1 by (by apply (quiet_good s)). assert (in_sync s1 row) as Hs1 by (by apply (quiet_sync s)).
  assert (rows (l_world s) = rows (l_world s1)) as Hr1 by (symmetry; apply Hq1).
  unfold catch. unfold stateM_bind. pose proof (moved (id row) (status row) next lease (l_world s1)) as [Ma Mr].
  destruct (transition lease row (status row) next s1) as [[y|e] s2] eqn:E2.
  - assert (closing (l_world s) ((mret created_ : M _) s2) =
      closing (l_world s) ((transition lease row (status row) next ≫= λ _, mret created_) s1)) as ->.
    { unfold mbind, stateM_bind. by rewrite E2. }
    apply (closed_move _ _ _ _ (λ _ : ToolInvocation, mret created_) (λ _ _, True) (λ _ s', good s') s1);
      [done|done|done|done|intros; idle|done|done|]. intros e s' Hq. by eapply quiet_good.
  - assert (quietly s1 s2) as [Hq2 Hrun2].
    { revert E2. unfold transition, world. destruct (invocations_transition _ _ _ _ _) as [[y|e'] w] eqn:E3; [done|].
      intros [= _ <-]. split; [|done]. by split. }
    pose proof (idle_world (approvals_discard_pending (Approvals.id created_)) (λ w, quiet_discard _ w) s2) as (Hq3 & Hrun3 & _).
    unfold attempt. destruct (world (approvals_discard_pending (Approvals.id created_)) s2) as [r3 s3]. cbn in Hq3, Hrun3.
    eapply closing_good; [done|exact Hr1| | |done]; cbn; [destruct Hq2, Hq3|]; congruence.
Qed.
Lemma wp_request c row d standing s :
  good s → in_sync s row → wp (_request_approval px lease agent c row d standing) (λ _ s', good s') s.
Proof.
  intros G Hs. unfold _request_approval. cbn zeta.
  destruct (normalized_arguments row) as [args|]; [|by apply wp_raise].
  destruct (ToolInvocations.normalized_arguments_hash row) as [h|]; [|by apply wp_raise].
  apply wp_bind_idle; [done|idle|done|]. intros [] s1 Hq1 G1.
  apply wp_bind_idle; [done|idle|done|]. intros p s2 Hq2 G2.
  apply wp_bind_idle; [done|idle|done|]. intros [] s3 Hq3 G3.
  apply wp_bind, wp_gets.
  apply wp_bind_idle; [done|idle|done|]. intros t s4 Hq4 G4.
  apply wp_bind_idle; [done|idle|done|]. intros i s5 Hq5 G5.
  apply wp_waiting; [done| |].
  - do 5 (eapply quiet_sync; [eassumption|]). done.
  - split; [done|]. split; [by left|by left].
Qed.

(** *** Judgements, grants and approvals *)
Definition is_execution (a : act) : bool := match a with Executed _ _ _ _ => true | _ => false end.
(** Acts may be added, none of them an execution; no row changes. *)
Definition recorded (s s' : LoopState W) : Prop :=
  rows (l_world s') = rows (l_world s) ∧ l_run s' = l_run s ∧
  ∃ ext, acts (l_world s') = acts (l_world s) ++ ext ∧ Forall (λ a, is_execution a = false) ext.
#[local] Instance recorded_pre : PreOrder recorded.
Proof.
  split; [intros s; split; [done|split; [done|exists []; by rewrite app_nil_r]]|].
  intros a b c (R1 & L1 & e1 & A1 & F1) (R2 & L2 & e2 & A2 & F2). split; [congruence|]. split; [congruence|].
  exists (e1 ++ e2). rewrite A2, A1, app_assoc. split; [done|]. by apply Forall_app.
Qed.
Lemma quiet_recorded s s' : quietly s s' → recorded s s'.
Proof. intros [[Hr Ha] Hl]. split; [done|]. split; [done|]. exists []. by rewrite app_nil_r. Qed.
Lemma good_snoc S A a : is_execution a = false → good_view S A → good_view S (A ++ [a]).
Proof.
  intros Ha [I (new & -> & Aud)]. split.
  - apply inv_other; [done|]. intros i. by destruct a.
  - exists (new ++ [a]). split; [by rewrite app_assoc|]. apply audited_snoc; [done|]. by intros * ->.
Qed.
Lemma recorded_good s s' : recorded s s' → good s → good s'.
Proof.
  intros (Hr & Hl & ext & Ha & F) [G Hrun]. split; [|congruence]. rewrite Hr, Ha. clear Hr Ha.
  revert G. generalize (acts (l_world s)). induction F as [|a ext Hx F IH]; intros A G; [by rewrite app_nil_r|].
  rewrite cons_middle, app_assoc. by apply IH, good_snoc.
Qed.
Lemma recorded_sync s s' x : recorded s s' → in_sync s x → in_sync s' x.
Proof. unfold in_sync. by intros (-> & _). Qed.
Lemma recorded_backed s s' spec args i : recorded s s' → backed s spec args i → backed s' spec args i.
Proof.
  intros (_ & _ & ext & Ha & _) (new & E & J). exists (new ++ ext). rewrite Ha, E, app_assoc. split; [done|].
  by apply justified_app.
Qed.
(** A justification found among what was added. *)
Lemma recorded_backs s s' ext spec args i :
  good s → acts (l_world s') = acts (l_world s) ++ ext → justified px ext spec args i → backed s' spec args i.
Proof.
  intros [[_ (new & E & _)] _] Ha J. exists (new ++ ext). rewrite Ha, E, app_assoc. split; [done|].
  destruct J as [(a & d & ? & ?)|[(a & st & ? & ?)|(ap & ap' & a & d & sc & v & ? & ? & ? & ? & ? & ? & ?)]];
    [left; exists a, d|right; left; exists a, st|right; right; exists ap, ap', a, d, sc, v];
    rewrite ?elem_of_app; tauto.
Qed.

(** The action judged is the call. *)
Definition of_call (c : ToolCall) (i : UUID) (a : ProposedAction) : Prop :=
  name a = ts_name (c_tool c) ∧ arguments a = c_arguments c ∧ action_id a = i ∧
  PolicyModel.normalized_arguments_hash a = c_hash c.
Lemma of_call_about c i a : of_call c i a → about px (c_tool c) (c_arguments c) a.
Proof. intros (?&?&_). split; [done|by left]. Qed.
Lemma yields_proposed c row : yields (of_call c (id row)) (_proposed_action px c row).
Proof.
  unfold _proposed_action. do 4 (apply yields_bind_any; intros ?). apply yields_ret. done.
Qed.
Lemma wp_proposed {B} c row (f : ProposedAction → M B) (Q : result B → LoopState W → Prop) s :
  (∀ a s', quietly s s' → of_call c (id row) a → wp (f a) Q s') →
  (∀ e s', quietly s s' → Q (Raise e) s') →
  wp (_proposed_action px c row ≫= f) Q s.
Proof.
  intros Hf He. apply wp_bind. eapply wp_mono; [apply (wp_yields idle); [apply idle_proposed|apply yields_proposed]|].
  intros [a|e] s' [(Hq & Hr & _) Ha]; [apply Hf; [done|by apply Ha]|by apply He].
Qed.
(** A recording port. *)
Lemma wp_records {A} (f : W → result A * W) (k : A → act) (Q : result A → LoopState W → Prop) s :
  records (l_world s) (f (l_world s)) k → (∀ x, is_execution (k x) = false) →
  (∀ x s', recorded s s' → acts (l_world s') = acts (l_world s) ++ [k x] → Q (Ok x) s') →
  (∀ e s', quietly s s' → Q (Raise e) s') →
  wp (world f) Q s.
Proof.
  unfold wp, world, records. destruct (f (l_world s)) as [[x|e] w]; cbn; intros [Hr Ha] Hk Hok He.
  - apply Hok; [|done]. split; [done|]. split; [done|]. exists [k x]. split; [done|]. by repeat constructor.
  - apply He. split; [by split|done].
Qed.

Definition granting (c : ToolCall) (i : UUID) (s : LoopState W) (r : result (option StandingAuthorization))
    (s' : LoopState W) : Prop :=
  recorded s s' ∧ ∀ a, r = Ok (Some a) → allowed a = true → backed s' (c_tool c) (c_arguments c) i.
Lemma wp_standing_authorization c row d deadline s :
  good s → wp (_standing_authorization px agent c row d deadline) (granting c (id row) s) s.
Proof.
  intros G. unfold _standing_authorization. destruct standing_authorizer as [authorize|] eqn:E.
  2:{ apply wp_ret. split; [reflexivity|done]. }
  apply wp_proposed; [|intros e s' Hq; split; [by apply quiet_recorded|done]].
  intros a s1 Hq1 Hact. apply wp_bind, wp_gets, wp_bind, wp_gets, wp_bind, wp_catch, wp_bind.
  eapply wp_records; [by apply (records_standing authorize)|done| |].
  - intros st s2 Hr Ha. apply wp_ret, wp_ret. split; [etrans; [by apply quiet_recorded|done]|].
    intros st' Hst Hall. destruct (allowed st) eqn:Hst_all; cbn in Hst; [|congruence].
    destruct (_ && _) eqn:Hev in Hst; [|done]. injection Hst as <-.
    apply andb_true_iff in Hev as [?%bool_decide_eq_true ?%bool_decide_eq_true].
    eapply (recorded_backs s1 s2 [Granted a st]); [by eapply quiet_good|done|].
    right; left. exists a, st. rewrite list_elem_of_singleton. destruct Hact as (?&?&?&_).
    split; [done|]. split; [split; [done|by left]|]. by split_and!.
  - intros e s2 Hq2. assert (recorded s s2) as Hr by (by etrans; apply quiet_recorded).
    destruct e; first [apply wp_ret, wp_ret; by split|by split].
Qed.
Lemma wp_standing c row d deadline monotonic s :
  good s → wp (standing_in_time px agent c row d deadline monotonic) (granting c (id row) s) s.
Proof.
  intros G. unfold standing_in_time. apply wp_catch.
  apply wp_idle_bind; [idle| |].
  - intros t s1 Hq1. assert (recorded s s1) as Hr1 by (by apply quiet_recorded).
    destruct (monotonic <=? t); [by apply wp_raise, wp_ret|].
    eapply wp_mono; [apply wp_standing_authorization; by eapply quiet_good|].
    intros [a|e] s2 [Hr2 Ha]; [split; [by etrans|done]|].
    assert (recorded s s2) as Hr by (by etrans). destruct e; first [by apply wp_ret|by split].
  - intros e s1 Hq1. assert (recorded s s1) as Hr1 by (by apply quiet_recorded).
    destruct e; first [by apply wp_ret|by split].
Qed.

(** The row as the decision leaves it. *)
Definition same_row (x y : ToolInvocation) : Prop :=
  id y = id x ∧ status y = status x ∧ effect_sent_at y = effect_sent_at x ∧
  idempotency_class y = idempotency_class x ∧ inv_call_id y = inv_call_id x.
Lemma wp_authority c row d granted_ deadline monotonic s :
  good s → in_sync s row → inv_call_id row = call_id (c_item c) →
  (granted_ = true → backed s (c_tool c) (c_arguments c) (id row)) →
  (∀ d', d = Some d' → allowing d' → backed s (c_tool c) (c_arguments c) (id row)) →
  wp (authority px lease agent c row d granted_ deadline monotonic) (λ r s', good s' ∧
     match r with
     | Ok (inl it) => tr_call_id it = call_id (c_item c)
     | Ok (inr (row', _)) => in_sync s' row' ∧ same_row row row' ∧ backed s' (c_tool c) (c_arguments c) (id row)
     | Raise _ => True
     end) s.
Proof.
  intros G Hs Hc Hg Hd. unfold authority. destruct granted_.
  { apply wp_ret. split; [done|]. split; [done|]. split; [done|by apply Hg]. }
  destruct d as [d|]; [|by apply wp_raise]. specialize (Hd d eq_refl). cbn zeta.
  set (row' := row <| policy_decision := Some d |>).
  assert (same_row row row') as Hsame by done.
  assert (∀ s', in_sync s' row → in_sync s' row') as Hsync by (intros s'; by apply synced_copy).
  destruct (decision d) eqn:E.
  - apply wp_ret. split; [done|]. split; [by apply Hsync|]. split; [done|]. apply Hd. unfold allowing. rewrite E. set_solver.
  - apply wp_ret. split; [done|]. split; [by apply Hsync|]. split; [done|]. apply Hd. unfold allowing. rewrite E. set_solver.
  - apply wp_bind. eapply wp_mono; [by apply wp_standing|].
    intros [st|e] s1 [Hr Hst]; [|split; [by eapply recorded_good|done]].
    assert (good s1) as G1 by (by eapply recorded_good).
    assert (in_sync s1 row') as Hs1 by (eapply recorded_sync; [done|by apply Hsync]).
    destruct (match st with Some a => allowed a | None => false end) eqn:Hall.
    + apply wp_ret. split; [done|]. split; [done|]. split; [done|]. destruct st as [a|]; [|done]. by eapply Hst.
    + apply wp_bind. eapply wp_mono; [by apply wp_request|]. by intros [ap|e] s2 G2.
  - apply wp_bind. eapply wp_mono; [apply wp_deny; [done|by apply Hsync|done]|].
    intros [it|e] s1 [G1 Hi]; [|by split]. apply wp_ret. split; [done|by apply Hi].
Qed.

(** What is carried out was not sent before, unless it may be repeated. *)
Lemma resumable_unsent s row :
  good s → in_sync s row → tool_recovery_action row ∈ [RESUME_AUTHORIZATION; REEXECUTE; REPLAY_IDEMPOTENCY_KEY] →
  idempotency_class row = NON_IDEMPOTENT → effect_sent_at row = None.
Proof.
  intros [[I _] _] (m & Hm & Hst & He & _) Hrec Hn. unfold tool_recovery_action in Hrec.
  destruct (_ || _); [set_solver|]. case_bool_decide as Hearly.
  { rewrite <- He. apply (inv_early _ _ _ I _ _ Hm). rewrite Hst. unfold early. set_solver. }
  case_bool_decide; [set_solver|]. rewrite Hn in Hrec.
  case_bool_decide as Hc; [set_solver|]. case_bool_decide; [done|]. case_bool_decide; [done|]. set_solver.
Qed.
Lemma wp_carry_out c row d granted_ progress s :
  good s → in_sync s row → inv_call_id row = call_id (c_item c) →
  tool_recovery_action row ∈ [RESUME_AUTHORIZATION; REEXECUTE; REPLAY_IDEMPOTENCY_KEY] →
  (granted_ = true → backed s (c_tool c) (c_arguments c) (id row)) →
  (∀ d', d = Some d' → allowing d' → backed s (c_tool c) (c_arguments c) (id row)) →
  wp (carry_out px lease agent c row d granted_ progress) (answers_with (call_id (c_item c))) s.
Proof.
  intros G Hs Hc Hrec Hg Hd. pose proof (resumable_unsent _ _ G Hs Hrec) as Hunsent. clear Hrec.
  unfold carry_out. cbn zeta. apply wp_bind, wp_gets.
  apply wp_bind_idle; [done|idle|apply raised|]. intros t s1 Hq1 G1.
  apply wp_bind_idle; [done|idle|apply raised|]. intros m s2 Hq2 G2.
  apply wp_bind_idle; [done|idle|apply raised|]. intros t' s3 Hq3 G3.
  assert (quietly s s3) as Hq by (etrans; [exact Hq1|]; by etrans).
  apply wp_bind. eapply wp_mono.
  { apply wp_authority; [done|by eapply quiet_sync|done| |].
    - intros Hgr. eapply quiet_backed; [apply Hq|by apply Hg].
    - intros d' Hd' Ha. eapply quiet_backed; [apply Hq|by eapply Hd]. }
  intros [[it|[row1 standing]]|e] s4 [G4 Hpost]; [|destruct Hpost as (Hs4 & Hsame & Hback)|by apply raised].
  { apply wp_ret. split; [done|]. by intros ? ? [= <- _]. }
  destruct Hsame as (Hid & _ & He & Hcl & Hcall).
  apply wp_bind. eapply wp_mono; [by apply wp_start|].
  intros [[row2 p]|e] s5 [G5 Hstart]; [|by apply raised].
  destruct (Hstart row2 p eq_refl) as [[_ Hon] Hst2]. destruct (Hon row2 eq_refl) as (Hs5 & Hid2 & Hcl2 & Hcall2 & He2 & Ha2).
  destruct (String.eqb _ _); [apply wp_ask; [done|done|congruence]|].
  destruct (String.eqb _ _); [apply wp_delegate; [done|done|congruence]|].
  apply wp_perform; [done|]. split; [done|]. split; [done|]. split.
  { rewrite Hid2, Hid. by eapply quiet_backed. }
  split; [|congruence]. intros Hn. rewrite He2, He. apply Hunsent. congruence.
Qed.

(** *** The row of a call *)
(** The candidate of a call, under the call's key. *)
Definition candidate_of (c : ToolCall) (i : ToolInvocation) : Prop :=
  status i = PROPOSED ∧ effect_sent_at i = None ∧ result_item i = None ∧ outcome i = None ∧
  inv_call_id i = call_id (c_item c) ∧ ToolInvocations.idempotency_key i = c_key c ∧ run_id i = run0 ∧
  ∃ run step h, c_key c = _idempotency_key px run step (c_item c) (c_tool c) h ∧
    plain (ts_name (c_tool c)) ∧ plain (ts_version (c_tool c)) ∧ plain h.
Lemma candidate_keyed c i : candidate_of c i → keyed px (mark i).
Proof.
  intros (_ & _ & _ & _ & Hc & Hk & _ & run & step & h & E & ?). exists run, step, (c_item c), (c_tool c), h.
  cbn. by rewrite Hk, E, Hc.
Qed.
(** Rows of one key answer one call. *)
Hypothesis key_of_call : ∀ run step c spec h run' step' c' spec' h',
  plain (ts_name spec) → plain (ts_version spec) → plain h →
  plain (ts_name spec') → plain (ts_version spec') → plain h' →
  _idempotency_key px run step c spec h = _idempotency_key px run' step' c' spec' h' → call_id c = call_id c'.
Lemma same_key_call S A c i m k :
  Inv px S A → candidate_of c i → S !! k = Some m → m_key m = c_key c → m_call m = call_id (c_item c).
Proof.
  intros I (_ & _ & _ & _ & _ & _ & _ & run & step & h & E & H1' & H2' & H3') Hm Hk.
  destruct (inv_keyed _ _ _ I _ _ Hm) as (run' & step' & c' & spec' & h' & Ek & -> & ? & ? & ?).
  eapply (key_of_call run' step' c' spec' h' run step (c_item c) (c_tool c) h); try done. congruence.
Qed.
Lemma closing_cases {A} w (p : result A * LoopState W) :
  acts (l_world (closing w p).2) = acts (l_world p.2) ∧ l_run (closing w p).2 = l_run p.2 ∧
  ((∃ e, (closing w p).1 = Raise e ∧ rows (l_world (closing w p).2) = rows w) ∨
   (∃ a, p.1 = Ok a ∧ (closing w p).1 = Ok a ∧ rows (l_world (closing w p).2) = rows (l_world p.2))).
Proof.
  destruct p as [[a|e] s']; cbn.
  - pose proof (quiet_commit (l_world s')) as [Cr Ca].
    destruct (uow_commit (l_world s')) as [[[]|e] w']; cbn in *; [split; [done|split; [done|right; eauto]]|].
    destruct (rolled_back w w'). split; [congruence|]. split; [done|]. left. eauto.
  - destruct (rolled_back w (l_world s')). split; [done|]. split; [done|]. left. eauto.
Qed.
(** The row found or created: stored as it is in memory, under the call's key. *)
Definition row_of (c : ToolCall) (s' : LoopState W) (row : ToolInvocation) : Prop :=
  rows (l_world s') !! id row = Some (mark row) ∧ inv_call_id row = call_id (c_item c) ∧
  run_id row = run0 ∧ ToolInvocations.idempotency_key row = c_key c.
Lemma found_row S A c i row w :
  Inv px S A → candidate_of c i → rows w = S → rows w !! id row = Some (mark row) →
  ToolInvocations.idempotency_key row = c_key c → inv_call_id row = call_id (c_item c).
Proof. intros I Hi HS Hrow Hk. subst. by apply (same_key_call _ _ _ _ (mark row) (id row) I Hi). Qed.
Lemma wp_find_or_create c i s :
  good s → candidate_of c i → wp (find_or_create lease c i) (λ r s', good s' ∧
    acts (l_world s') = acts (l_world s) ∧ rows (l_world s) ⊆ rows (l_world s') ∧
    ∀ row, r = Ok row → row_of c s' row) s.
Proof.
  intros [[I Aud] Hrun] Hi. unfold find_or_create. apply wp_bind, wp_gets.
  set (body := _ ≫= _). unfold wp. change (in_uow body s) with (closing (l_world s) (body s)).
  enough (acts (l_world (body s).2) = acts (l_world s) ∧ l_run (body s).2 = l_run s ∧
    ∀ row, (body s).1 = Ok row → Inv px (rows (l_world (body s).2)) (acts (l_world s)) ∧
      rows (l_world s) ⊆ rows (l_world (body s).2) ∧ row_of c (body s).2 row)
    as (Ha & Hl & Hok).
  { destruct (closing_cases (l_world s) (body s)) as (Hca & Hcl & [(e & -> & Hr)|(row & Hp & -> & Hr)]).
    - split; [|split; [congruence|by rewrite Hr]]. split; [|congruence]. by rewrite Hr, Hca, Ha.
    - destruct (Hok row Hp) as (Gv & Hsub & Hrow). split; [|split; [congruence|split; [by rewrite Hr|]]].
      + split; [rewrite Hr, Hca, Ha; by split|congruence].
      + intros row' [= <-]. unfold row_of. by rewrite Hr. }
  pose proof (found (RunModel.id (l_run s)) (c_key c) (l_world s)) as Hf.
  pose proof (quiet_find (RunModel.id (l_run s)) (c_key c) (l_world s)) as [Hfr Hfa].
  destruct (body s) as [rb sb] eqn:Eb. revert Eb. unfold body, mbind, stateM_bind, world.
  destruct (invocations_find _ _ _) as [[[row|]|e] w1]; cbn [fst snd] in *.
  { intros [= <- <-]. cbn. split; [congruence|]. split; [done|]. intros row' [= <-]. unfold row_of. cbn. rewrite Hfr.
    destruct Hf as (Hrow & Hru & Hk). split; [done|]. split; [done|]. split; [done|]. split; [|split; [congruence|done]].
    by apply (found_row _ _ c i row (l_world s) I Hi eq_refl). }
  2:{ intros [= <- <-]. by split. }
  pose proof (created i lease w1) as [Hca Hcr]. cbn [l_world setter].
  destruct (invocations_create i lease w1) as [[y|e] w2]; cbn [fst snd] in *.
  2:{ intros [= <- <-]. cbn. split; [congruence|done]. }
  set (tell := if bool_decide _ then _ else _).
  assert (keeps idle tell) as Ht by (unfold tell; idle).
  match goal with |- context [tell ?s2] => specialize (Ht s2); destruct (tell s2) as [[[]|e] s3] end;
    destruct Ht as ([Htr Hta] & Htl & _); cbn in Htr, Hta, Htl; intros [= <- <-];
    cbn [fst snd]; (split; [congruence|]); (split; [done|]); [|done].
  intros row [= <-]. unfold row_of. rewrite Htr.
  pose proof Hi as (Hst & He & Hit & _ & Hcall & Hkey & Hri & _).
  destruct Hcr as [(Hr2 & Hrow & Hru & Hk)|(-> & Hn & Hr2)]; rewrite Hr2, Hfr in *.
  - split; [done|]. split; [done|]. split; [done|]. split; [|split; congruence].
    apply (found_row _ _ c i y (l_world s) I Hi eq_refl); congruence.
  - split; [|split; [by apply insert_subseteq|split; [by rewrite lookup_insert_eq|done]]].
    apply inv_create; [exact I|exact Hn|exact Hst|exact He|exact Hit| |by apply (candidate_keyed c)].
    intros j m Hm Hmr. rewrite Hkey. apply (Hf j m Hm). congruence.
Qed.

(** *** An approval resumed *)
(** One recording call in a unit of work. *)
Lemma wp_uow_records {A} (f : W → result A * W) ext (Q : result A → LoopState W → Prop) s :
  rows (f (l_world s)).2 = rows (l_world s) → acts (f (l_world s)).2 = acts (l_world s) ++ ext →
  Forall (λ a, is_execution a = false) ext →
  (∀ a s', (f (l_world s)).1 = Ok a → recorded s s' → acts (l_world s') = acts (l_world s) ++ ext → Q (Ok a) s') →
  (∀ e s', recorded s s' → Q (Raise e) s') → wp (in_uow (world f)) Q s.
Proof.
  intros Hr Ha Hext Hok He. unfold wp. change (in_uow (world f) s) with (closing (l_world s) (world f s)).
  unfold world. destruct (f (l_world s)) as [r w] eqn:E. cbn in Hr, Ha.
  pose proof (closing_cases (l_world s) (r, s <| l_world := w |>)) as (Ca & Cl & [(e & -> & Cr)|(a & Hp & -> & Cr)]).
  - apply He. split; [done|]. split; [done|]. exists ext. by rewrite Ca.
  - cbn in *. apply Hok; [done| |congruence]. split; [congruence|]. split; [done|]. exists ext. by rewrite Ca.
Qed.
Lemma records_ext {A} w (r : result A * W) k :
  records w r k → rows r.2 = rows w ∧ ∃ ext, acts r.2 = acts w ++ ext ∧
    ext = match r.1 with Ok x => [k x] | Raise _ => [] end.
Proof. intros [Hr Ha]. split; [done|]. eexists. split; [|done]. rewrite Ha. destruct r.1; [done|by rewrite app_nil_r]. Qed.
Lemma wp_recovery a who s (Q : result PolicyDecision → LoopState W → Prop) :
  (∀ d s', recorded s s' → acts (l_world s') = acts (l_world s) ++ [Judged a d] → Q (Ok d) s') →
  (∀ e s', quietly s s' → Q (Raise e) s') → wp (recovery_policy a who) Q s.
Proof.
  intros Hok He. unfold recovery_policy. apply wp_bind, wp_gets.
  destruct recovery_evaluate as [f|] eqn:E; cbn [default].
  - eapply wp_records; [by apply (records_recovery f)|done|done|done].
  - eapply wp_records; [apply records_policy|done|done|done].
Qed.
Lemma not_denied ap : denial_of (Approvals.status ap) = None → Approvals.status ap ≠ PENDING → Approvals.status ap = APPROVED.
Proof. by destruct (Approvals.status ap). Qed.
Lemma told_row_keep (t : string) p (y : ToolInvocation) : keeps idle (_event_in lease t p ≫= λ _, mret y).
Proof. idle. Qed.
(** What an approved call starts from. *)
Definition approved_start (c : ToolCall) (i : UUID) (c' : ToolCall) (s' : LoopState W) : Prop :=
  good s' ∧ c_item c' = c_item c ∧ c_tool c' = c_tool c ∧ c_arguments c' = c_arguments c ∧ c_key c' = c_key c ∧
  c_hash c' = c_hash c ∧ (∃ row', row_of c s' row' ∧ id row' = i ∧ status row' = AUTHORIZED) ∧
  backed s' (c_tool c) (c_arguments c) i.
Lemma wp_honour c row s :
  good s → row_of c s row → status row = WAITING_FOR_APPROVAL →
  wp (honour_approval px lease agent c row) (λ r s', good s' ∧
     match r with
     | Ok (inl it) => tr_call_id it = call_id (c_item c)
     | Ok (inr c') => approved_start c (id row) c' s'
     | Raise _ => True
     end) s.
Proof.
  intros G (Hrow & Hcall & Hri & Hkey) Hst. unfold honour_approval. cbn zeta.
  assert (∀ s' reason, good s' → rows (l_world s') = rows (l_world s) →
    wp (_deny_invocation px lease (c_item c) (c_tool c) row reason ≫= λ item, mret (inl item)) (λ r s', good s' ∧
       match r with
       | Ok (inl it) => tr_call_id it = call_id (c_item c)
       | Ok (inr c') => approved_start c (id row) c' s'
       | Raise _ => True
       end) s') as Hdeny.
  { intros s' reason G' Hr. apply wp_then. eapply wp_mono; [apply wp_deny; [done| |done]; apply synced_mark; congruence|].
    intros [it|e] s2 [G2 Hit]; split; auto. }
  apply wp_bind. pose proof (records_approval (id row) (l_world s)) as [Ar Aa].
  eapply (wp_uow_records _ (match (approvals_get_by_action (id row) (l_world s)).1 with
                            | Ok (Some ap) => [ApprovalRead (id row) ap] | _ => [] end)); [done| | | |].
  { rewrite Aa. destruct (approvals_get_by_action _ _).1 as [[ap|]|]; by rewrite ?app_nil_r. }
  { destruct (approvals_get_by_action _ _).1 as [[ap|]|]; by repeat constructor. }
  2:{ intros e s1 Hr1. split; [by eapply recorded_good|done]. }
  intros found_ s1 Hf Hr1 Ha1. rewrite Hf in Ha1. assert (good s1) as G1 by (by eapply recorded_good).
  destruct found_ as [ap|]; [|by apply wp_raise].
  destruct (denial_of (Approvals.status ap)) as [reason|] eqn:Hden; [apply Hdeny; [done|apply Hr1]|].
  case_bool_decide as Hpend; [by apply wp_raise|].
  pose proof (not_denied ap Hden Hpend) as Happ. clear Hden Hpend.
  apply wp_bind_idle; [done|idle|done|]. intros current s2 Hq2 G2.
  apply wp_proposed; [|intros e s3 Hq3; split; [by eapply quiet_good|done]].
  intros a s3 Hq3 Hact. assert (good s3) as G3 by (by eapply quiet_good).
  apply wp_bind, wp_recovery; [|intros e s4 Hq4; split; [by eapply quiet_good|done]].
  intros d s4 Hr4 Ha4. assert (good s4) as G4 by (by eapply recorded_good).
  apply wp_bind. pose proof (records_ext _ _ _ (records_revalidation (id row) (policy_version d) (l_world s4))) as [Vr (ext & Va & Hext)].
  eapply (wp_uow_records _ ext); [done|done| | |].
  { subst ext. destruct (approvals_record_revalidation _ _ _).1; by repeat constructor. }
  2:{ intros e s5 Hr5. split; [by eapply recorded_good|done]. }
  intros ap' s5 Hf5 Hr5 Ha5. rewrite Hf5 in Hext. subst ext. assert (good s5) as G5 by (by eapply recorded_good).
  assert (recorded s s5) as Hrec.
  { etrans; [exact Hr1|]. etrans; [apply quiet_recorded; by etrans|]. by etrans. }
  destruct (revalidation_denial_reason _ _ _ _ _ _) as [reason|] eqn:Hrev; [apply Hdeny; [done|apply Hrec]|].
  apply wp_bind_idle; [done|idle|done|]. intros t s6 Hq6 G6.
  assert (backed s6 (c_tool c) (c_arguments c) (id row)) as Hback.
  { eapply quiet_backed; [by apply quietly_acts|].
    apply (recorded_backs s s5 [ApprovalRead (id row) ap; Judged a d; Revalidated (id row) ap']); [done| |].
    - rewrite Ha5, Ha4, (quietly_acts _ _ Hq3), (quietly_acts _ _ Hq2), Ha1. by rewrite <- !app_assoc.
    - destruct Hact as (Hn & Hargs & Hid & Hh). right; right.
      eexists ap, ap', a, d, (Principal.scopes current), (as_version agent).
      split; [set_solver|]. split; [done|]. split; [set_solver|]. split; [split; [done|by left]|].
      split; [done|]. split; [set_solver|]. by rewrite Hh. }
  apply wp_bind.
  eapply (wp_move _ _ _ _ (λ y a, a = y)); [done| | |intros y; apply told_row_keep|by intros; eapply told_row| |].
  - eapply quiet_sync; [done|]. eapply recorded_sync; [done|]. by apply synced_mark.
  - split; [done|]. split; [by left|]. by left.
  - intros y0 y s7 G7 Ha7 -> (Hid7 & Hst7 & _ & _ & Hcall7 & Hrun7 & Hkey7 & _) _ Hrow7.
    apply wp_ret. split; [done|]. cbn. split; [done|]. do 5 (split; [done|]). split.
    + exists y. split; [|split; [done|done]]. split; [done|]. split; [congruence|]. split; congruence.
    + eapply quiet_backed; [exact Ha7|done].
  - intros e s7 Hq7. split; [by eapply quiet_good|done].
Qed.

Lemma wp_resume carry_on c row progress s :
  good s → row_of c s row → status row = WAITING_FOR_APPROVAL →
  (∀ c' p s', approved_start c (id row) c' s' → wp (carry_on c' p) (answers_with (call_id (c_item c))) s') →
  wp (_resume_approval px lease agent carry_on c row progress) (answers_with (call_id (c_item c))) s.
Proof.
  intros G Hrow Hst Hcarry. unfold _resume_approval. apply wp_bind. eapply wp_mono; [by apply wp_honour|].
  intros [[it|c']|e] s1 [G1 Hr]; [|by apply Hcarry|by apply raised].
  apply wp_ret. split; [done|]. by intros ? ? [= <- _].
Qed.

(** *** One call, under its key *)
Definition keyed_call (c : ToolCall) : Prop :=
  ∃ run step h, c_key c = _idempotency_key px run step (c_item c) (c_tool c) h ∧
    plain (ts_name (c_tool c)) ∧ plain (ts_version (c_tool c)) ∧ plain h.
Lemma wp_candidate c batch s :
  good s → keyed_call c →
  wp (new_candidate c batch) (λ r s', quietly s s' ∧ ∀ i, r = Ok i → candidate_of c i) s.
Proof.
  intros [_ Hrun] Hk. destruct (idle_candidate c batch s) as (Hq & Hl & _). unfold wp. split; [by split|].
  unfold new_candidate, mbind, stateM_bind, gets. 
  destruct (now s) as [[t|e] s1]; [|done]. destruct (fresh_id s1) as [[j|e] s2]; [|done].
  cbn. intros i [= <-]. unfold candidate_of. cbn. by split_and!.
Qed.
Lemma wp_replay c row o s :
  good s → row_of c s row → wp (replay px c row o) (answers (call_id (c_item c))) s.
Proof.
  intros G (Hrow & Hcall & _). pose proof (idle_replay px c row o s) as (Hq & Hl & _). unfold wp.
  split; [by apply (quiet_good s); [split|]|].
  unfold replay, mbind, stateM_bind. destruct (if bool_decide _ then _ else _) as [[[]|e] s1]; [|done].
  cbn. intros it [= <-]. destruct (result_item row) as [it|] eqn:E; [|done]. cbn. rewrite <- Hcall.
  destruct G as [[I _] _]. apply (inv_answer _ _ _ I (id row) (mark row)); [done|]. cbn. by rewrite E.
Qed.
Lemma candidate_again c c' : c_item c' = c_item c → c_tool c' = c_tool c → c_key c' = c_key c →
  keyed_call c → keyed_call c'.
Proof. unfold keyed_call. by intros -> -> ->. Qed.
(** The row found: answered, marked, resumed, or carried out. *)
Lemma wp_found c row d granted_ progress (resume : M (ToolResultItem * list Z)) s :
  good s → row_of c s row →
  (granted_ = true → backed s (c_tool c) (c_arguments c) (id row)) →
  (∀ d', d = Some d' → allowing d' → backed s (c_tool c) (c_arguments c) (id row)) →
  (status row = WAITING_FOR_APPROVAL → wp resume (answers_with (call_id (c_item c))) s) →
  wp (match outcome row with
      | Some o => replay px c row o ≫= λ item, mret (item, progress)
      | None =>
          match tool_recovery_action row with
          | RETURN_OUTCOME => raise (ConflictError "terminal tool invocation has no persisted outcome")
          | MARK_UNCERTAIN => mark_uncertain px lease (c_item c) (c_tool c) row ≫= λ item, mret (item, progress)
          | RESUME_APPROVAL => resume
          | RESUME_AUTHORIZATION | REEXECUTE | REPLAY_IDEMPOTENCY_KEY => carry_out px lease agent c row d granted_ progress
          end
      end) (answers_with (call_id (c_item c))) s.
Proof.
  intros G Hrow Hg Hd Hres. pose proof Hrow as (Hr & Hcall & _).
  destruct (outcome row) as [o|] eqn:Ho; [by apply wp_answered, wp_replay|].
  assert (in_sync s row) as Hs by (by apply synced_mark).
  destruct (tool_recovery_action row) eqn:Hrec;
    try (apply wp_carry_out; [done..|rewrite Hrec; set_solver|done|done]).
  - by apply wp_raise, raised.
  - apply Hres. unfold tool_recovery_action in Hrec. destruct (_ || _); [done|].
    case_bool_decide; [done|]. case_bool_decide; [done|]. by repeat case_bool_decide.
  - apply wp_answered. by apply wp_uncertain.
Qed.
Lemma wp_locked fuel c i d granted_ progress s :
  good s → keyed_call c → candidate_of c i →
  (∀ d', d = Some d' → allowing d' → ∀ j, backed s (c_tool c) (c_arguments c) j) →
  (granted_ = true → ∃ row', row_of c s row' ∧ backed s (c_tool c) (c_arguments c) (id row')) →
  wp (locked px lease agent fuel c i d granted_ progress) (answers_with (call_id (c_item c))) s.
Proof.
  revert c i d granted_ progress s. induction fuel as [|fuel IH]; intros c i d granted_ progress s G Hk Hi Hd Hg.
  all: cbn [locked]; apply wp_bind; eapply wp_mono; [by apply wp_find_or_create|].
  all: intros [row|e] s1 (G1 & Ha1 & Hsub & Hrow); [|by apply raised]; specialize (Hrow row eq_refl).
  all: apply wp_found; [done|done| | |].
  all: try (intros d' Hd' Hall; eapply quiet_backed; [exact Ha1|by eapply Hd]).
  all: try (intros Hgr; destruct (Hg Hgr) as (row' & (Hr' & _ & Hri' & Hkey') & Hb);
    assert (id row' = id row) as <-;
      [destruct G1 as [[I _] _], Hrow as (Hr & _ & Hri & Hkey);
       eapply (inv_unique _ _ _ I _ _ (mark row') (mark row));
         [by eapply lookup_weaken|done|cbn; congruence|cbn; congruence]
      |by eapply quiet_backed]).
  { intros _. by apply wp_raise, raised. }
  intros Hst. apply wp_resume; [done|done|done|].
  intros c' p s2 (G2 & Ei & Et & Eargs & Ek & Eh & (row' & Hrow' & Hid' & Hst') & Hb).
  assert (keyed_call c') as Hk' by (by eapply candidate_again).
  apply wp_bind. eapply wp_mono; [by apply wp_candidate|]. intros [i'|e] s3 [Hq3 Hi']; [|apply raised; by eapply quiet_good].
  rewrite <- Ei. apply IH; [by eapply quiet_good|done|by apply Hi'|done|].
  intros _. exists row'. rewrite Et, Eargs, Hid'. split; [|eapply quiet_backed; [by apply quietly_acts|done]].
  destruct Hrow' as (?&?&?&?). unfold row_of. destruct Hq3 as [[-> _] _]. by rewrite Ei, Ek.
Qed.

(** *** The decision *)
(** The digest of normalized arguments is hexadecimal. *)
Hypothesis hash_plain : ∀ args schema normal h, validate_and_normalize px args schema = Ok (normal, h) → plain h.
Lemma stricter persisted judged :
  allowing persisted → POLICY_DECISION_RANK (decision judged) < POLICY_DECISION_RANK (decision persisted) → allowing judged.
Proof. unfold allowing. destruct (decision persisted), (decision judged); cbn; set_solver by lia. Qed.
Lemma wp_evaluate a who key s :
  good s → wp (_evaluate_once a who key) (λ r s', recorded s s' ∧
    ∀ d, r = Ok d → ∃ ext d', acts (l_world s') = acts (l_world s) ++ ext ∧ Judged a d' ∈ ext ∧ (allowing d → allowing d')) s.
Proof.
  intros G. unfold _evaluate_once. apply wp_bind, wp_gets.
  assert (∀ s', quietly s s' → wp (world (policy_evaluate a who (l_run s))) (λ r s2, recorded s s2 ∧
    ∀ d, r = Ok d → ∃ ext d', acts (l_world s2) = acts (l_world s) ++ ext ∧ Judged a d' ∈ ext ∧ (allowing d → allowing d')) s') as Hfirst.
  { intros s' Hq. eapply wp_records; [apply records_policy|done| |].
    - intros d s2 Hr Ha. split; [etrans; [by apply quiet_recorded|done]|]. intros d0 [= <-].
      exists [Judged a d], d. rewrite Ha, (quietly_acts _ _ Hq). set_solver.
    - intros e s2 Hq2. split; [|done]. etrans; by apply quiet_recorded. }
  destruct recovery_evaluate as [f|] eqn:E; [|by apply Hfirst].
  apply wp_idle_bind; [idle| |intros e s1 Hq; split; [by apply quiet_recorded|done]].
  intros [row|] s1 Hq1; [|by apply Hfirst].
  apply wp_bind. eapply wp_records; [by apply (records_recovery f)|done| |].
  2:{ intros e s2 Hq2. split; [|done]. etrans; by apply quiet_recorded. }
  intros d s2 Hr Ha. assert (recorded s s2) as Hrec by (etrans; [by apply quiet_recorded|done]).
  rewrite (quietly_acts _ _ Hq1) in Ha.
  assert (∀ d0, (allowing d0 → allowing d) → wp (mret d0 : M PolicyDecision) (λ r s2, recorded s s2 ∧
    ∀ d, r = Ok d → ∃ ext d', acts (l_world s2) = acts (l_world s) ++ ext ∧ Judged a d' ∈ ext ∧ (allowing d → allowing d')) s2) as Hret.
  { intros d0 Hd0. apply wp_ret. split; [done|]. intros d1 [= <-]. exists [Judged a d], d. set_solver. }
  destruct (policy_decision row) as [persisted|]; [|by apply Hret]. apply Hret.
  destruct (_ && _) eqn:Hs; [|done]. apply andb_true_iff in Hs as [_ Hs%Z.ltb_lt]. intros Hp. by eapply stricter.
Qed.
Lemma wp_judge c i s :
  good s → keyed_call c → candidate_of c i →
  wp (judge px c i) (λ r s', good s' ∧ ∀ c' i' d, r = Ok (c', i', d) →
    c_item c' = c_item c ∧ keyed_call c' ∧ candidate_of c' i' ∧
    (allowing d → ∀ j, backed s' (c_tool c') (c_arguments c') j)) s.
Proof.
  intros G Hk Hi. unfold judge.
  apply wp_proposed; [|intros e s1 Hq; split; [by eapply quiet_good|done]].
  intros a s1 Hq1 (Hn & Hargs & _). assert (good s1) as G1 by (by eapply quiet_good).
  apply wp_bind. eapply wp_mono; [by apply wp_evaluate|]. intros [d|e] s2 [Hr2 Hd]; [|split; [by eapply recorded_good|done]].
  assert (good s2) as G2 by (by eapply recorded_good). destruct (Hd d eq_refl) as (ext & d' & Ha & Hj & Hall). clear Hd.
  apply wp_bind, wp_gets, wp_bind, wp_gets.
  assert (∀ args, about px (c_tool c) args a → allowing d → ∀ j, backed s2 (c_tool c) args j) as Hback.
  { intros args Hab Had j. eapply recorded_backs; [exact G1|exact Ha|]. left. exists a, d'. auto. }
  case_bool_decide as Hmod.
  - destruct (modified_arguments d) as [m|]; [|by apply wp_bind, wp_raise].
    apply wp_bind, wp_bind, wp_lift. destruct (validate_and_normalize px m (ts_input_schema (c_tool c))) as [[args h]|e] eqn:Ev; [|by split].
    apply wp_ret, wp_ret. split; [done|]. intros c' i' d0 [= <- <- <-]. cbn.
    destruct Hk as (run & step & h0 & Ek & Pn & Pv & Ph).
    assert (plain h) as Phh by (by eapply hash_plain).
    split; [done|]. split; [by exists (l_run s2), (l_step s2), h|]. split.
    + destruct Hi as (?&?&?&?&?&?&?&_). do 5 (split; [done|]). split; [done|]. split; [done|].
      by exists (l_run s2), (l_step s2), h.
    + apply Hback. split; [done|]. right. eauto.
  - apply wp_bind, wp_ret, wp_ret. split; [done|]. intros c' i' d0 [= <- <- <-].
    split; [done|]. split; [done|]. split.
    + destruct Hi as (?&?&?&?&?&?&?&?). by do 7 (split; [done|]).
    + apply Hback. split; [done|]. by left.
Qed.
Lemma wp_execute_once c batch progress s :
  good s → keyed_call c → wp (_execute_once px lease agent c batch progress) (answers_with (call_id (c_item c))) s.
Proof.
  intros G Hk. unfold _execute_once. apply wp_bind. eapply wp_mono; [by apply wp_candidate|].
  intros [i|e] s1 [Hq1 Hi]; [|apply raised; by eapply quiet_good].
  apply wp_bind. eapply wp_mono; [apply wp_judge; [by eapply quiet_good|done|by apply Hi]|].
  intros [[[c' i'] d]|e] s2 [G2 Hj]; [|by apply raised].
  destruct (Hj c' i' d eq_refl) as (<- & Hk' & Hi' & Hb).
  apply wp_locked; [done|done|done| |done]. by intros d' [= <-].
Qed.

(** An authorized row asks for no approval: from it on the bound on approvals is not used. *)
Lemma locked_authorized n m c i progress s :
  good s → candidate_of c i → (∃ row', row_of c s row' ∧ status row' = AUTHORIZED) →
  locked px lease agent n c i None true progress s = locked px lease agent m c i None true progress s.
Proof.
  intros G Hi (row' & (Hr' & _ & Hri' & Hkey') & Hst).
  pose proof (wp_find_or_create c i s G Hi) as Hf. unfold wp in Hf.
  destruct (find_or_create lease c i s) as [[row|e] s1] eqn:E; cbn in Hf.
  2:{ destruct n, m; cbn [locked]; unfold mbind, stateM_bind; by rewrite E. }
  destruct Hf as ([[I _] _] & _ & Hsub & Hrow). destruct (Hrow row eq_refl) as (Hr & _ & Hri & Hkey).
  assert (rows (l_world s1) !! id row' = Some (mark row')) as Hr1 by (by eapply lookup_weaken).
  assert (id row' = id row) as Hid.
  { eapply (inv_unique _ _ _ I _ _ (mark row') (mark row)); [done|done|cbn; congruence|cbn; congruence]. }
  assert (status row = AUTHORIZED) as Hst'.
  { rewrite <- Hst. rewrite Hid in Hr1. assert (Some (mark row') = Some (mark row)) as [=] by congruence. done. }
  assert (tool_recovery_action row = RESUME_AUTHORIZATION ∨ is_Some (outcome row)) as Hrec.
  { unfold tool_recovery_action. destruct (outcome row) eqn:Ho; [right; eauto|left].
    rewrite Hst'. cbn. reflexivity. }
  destruct n, m; cbn [locked]; unfold mbind, stateM_bind; rewrite E;
    (destruct Hrec as [->|[o ->]]; [by destruct (outcome row)|done]).
Qed.
Lemma locked_once n c i d granted_ progress s :
  good s → keyed_call c → candidate_of c i →
  locked px lease agent (S n) c i d granted_ progress s = locked px lease agent approval_rounds c i d granted_ progress s.
Proof.
  intros G Hk Hi. unfold approval_rounds. cbn [locked]. unfold mbind, stateM_bind.
  pose proof (wp_find_or_create c i s G Hi) as Hf. unfold wp in Hf.
  destruct (find_or_create lease c i s) as [[row|e] s1]; [|done]. destruct Hf as (G1 & _ & _ & Hrow).
  specialize (Hrow row eq_refl). destruct (outcome row); [done|].
  destruct (tool_recovery_action row) eqn:Hrec; try done.
  assert (status row = WAITING_FOR_APPROVAL) as Hst.
  { unfold tool_recovery_action in Hrec. destruct (_ || _); [done|].
    case_bool_decide; [done|]. case_bool_decide; [done|]. by repeat case_bool_decide. }
  unfold _resume_approval, mbind, stateM_bind. pose proof (wp_honour c row s1 G1 Hrow Hst) as Hh. unfold wp in Hh.
  destruct (honour_approval px lease agent c row s1) as [[[it|c']|e] s2]; [done| |done].
  destruct Hh as [_ (G2 & Ei & Et & _ & Ek & _ & (row' & Hrow' & _ & Hst') & _)].
  pose proof (wp_candidate c' [] s2 G2 ltac:(by eapply candidate_again)) as Hc. unfold wp in Hc.
  destruct (new_candidate c' [] s2) as [[i'|e] s3]; [|done]. destruct Hc as [Hq Hi'].
  refine (locked_authorized n 0 c' i' progress s3 _ _ _); [by apply (quiet_good s2)|by apply Hi'|].
  exists row'. split; [|done].
  destruct Hrow' as (?&?&?&?). unfold row_of. destruct Hq as [[Hr _] _]. cbn in Hr. by rewrite Hr, Ei, Ek.
Qed.

(** *** Dispatching *)
Hypothesis registry_plain : ∀ a b c d e f g w spec,
  registry_get a b c d e f g w = Ok spec → plain (ts_name spec) ∧ plain (ts_version spec).
Lemma wp_answers_idle (m : M ToolResultItem) i s :
  good s → keeps idle m → yields (λ it, tr_call_id it = i) m → wp m (answers i) s.
Proof.
  intros G Hm Hy. destruct (Hm s) as (Hq & Hl & _). unfold wp. split; [by apply (quiet_good s); [split|]|].
  destruct (m s) as [r s'] eqn:E. cbn. intros it ->. by eapply Hy.
Qed.
Lemma wp_refusal c reason st text d s :
  good s → wp (_refusal px lease c reason st text d) (answers (call_id c)) s.
Proof.
  intros G. apply wp_answers_idle; [done|idle|]. unfold _refusal. cbn zeta.
  apply yields_bind_any. intros []. by apply yields_ret.
Qed.
Lemma wp_resolved c spec deferred who group batch s :
  good s → plain (ts_name spec) → plain (ts_version spec) →
  wp (run_resolved px lease agent c spec deferred who group batch) (answers (call_id c)) s.
Proof.
  intros G Hn Hv. unfold run_resolved. cbn zeta. apply wp_bind, wp_gets, wp_bind, wp_gets, wp_bind, wp_gets.
  do 3 (destruct (_ : bool); [by apply wp_refusal|]).
  destruct (validate_and_normalize px _ _) as [[args h]|e] eqn:Ev.
  2:{ destruct e; try (by apply wp_raise; split). by apply wp_refusal. }
  apply wp_bind_idle; [done|idle|by split|]. intros [] s1 Hq1 G1; [by apply wp_refusal|].
  apply wp_bind. eapply wp_mono.
  { apply wp_execute_once; [done|]. eexists _, _, h. split; [reflexivity|]. split_and!; [done|done|by eapply hash_plain]. }
  intros [[item p]|e] s2 [G2 Hit]; [|by split]. cbn in Hit.
  apply wp_bind_idle; [done| |by split|].
  { destruct (_ && _); [|idle]. apply (keeps_modify _). intros s3. split; [apply quiet_traces|done]. }
  intros [] s3 Hq3 G3. apply wp_ret. split; [done|]. intros it [= <-]. by eapply Hit.
Qed.
Lemma unwrap_call c cp c' : unwrap px agent c cp = Ok (inr c') → call_id c' = call_id c.
Proof.
  unfold unwrap, resolve_deferred_target. destruct (_unwraps_deferred_call c agent); [|by intros [= <-]].
  repeat case_match; intros; simplify_eq; done.
Qed.
Lemma wp_dispatch_one who group batch c s :
  good s → wp (_dispatch_one px lease agent who group batch c) (answers (call_id c)) s.
Proof.
  intros G. unfold _dispatch_one. apply wp_bind, wp_gets, wp_bind, wp_lift.
  destruct (unwrap px agent c _) as [[reason|c']|e] eqn:Eu; [by apply wp_refusal| |by split].
  apply unwrap_call in Eu. rewrite <- Eu. apply wp_bind, wp_gets.
  destruct (_resolve_pinned_tool px _ _ _ _) as [spec|e] eqn:Er.
  - apply registry_plain in Er as [Hn Hv]. by apply wp_resolved.
  - destruct e; try (by apply wp_raise; split). by apply wp_refusal.
Qed.

Lemma wp_in_turn who calls results s :
  good s → wp (in_turn px lease agent who calls results) (λ r s', good s' ∧
    ∀ rs, r = Ok rs → map tr_call_id rs = map tr_call_id results ++ map call_id calls) s.
Proof.
  revert results s. induction calls as [|c calls IH]; intros results s G; cbn [in_turn].
  { apply wp_ret. split; [done|]. intros rs [= <-]. by rewrite app_nil_r. }
  apply wp_bind_idle; [done|idle|by split|]. intros [] s1 Hq1 G1.
  apply wp_bind. eapply wp_mono; [by apply wp_dispatch_one|]. intros [it|e] s2 [G2 Hit]; [|by split].
  apply wp_bind_idle; [done|idle|by split|]. intros [] s3 Hq3 G3.
  eapply wp_mono; [by apply IH|]. intros r s4 [G4 Hr]. split; [done|]. intros rs ->.
  rewrite (Hr rs eq_refl), map_app, <- app_assoc. cbn. by rewrite (Hit it eq_refl).
Qed.
Lemma wp_gather who group calls s :
  good s → wp (gather (_dispatch_one px lease agent who group []) calls) (λ r s', good s' ∧
    ∀ rs, r = Ok rs → Forall2 (λ x c, ∀ it, x = Ok it → tr_call_id it = call_id c) rs calls) s.
Proof.
  revert s. induction calls as [|c calls IH]; intros s G; cbn [gather].
  { apply wp_ret. split; [done|]. by intros rs [= <-]. }
  apply wp_bind, wp_attempt. eapply wp_mono; [by apply wp_dispatch_one|]. intros x s1 [G1 Hx].
  apply wp_bind. eapply wp_mono; [by apply IH|]. intros [rs|e] s2 [G2 Hrs]; [|by split].
  apply wp_ret. split; [done|]. intros rs' [= <-]. constructor; [done|by apply Hrs].
Qed.
Lemma first_failure_ids (rs : list (result ToolResultItem)) calls out :
  Forall2 (λ x c, ∀ it, x = Ok it → tr_call_id it = call_id c) rs calls → first_failure rs = Ok out →
  map tr_call_id out = map call_id calls.
Proof.
  intros HF. revert out. induction HF as [|x c rs calls Hx HF IH]; intros out; cbn [first_failure].
  { by intros [= <-]. }
  destruct x as [it|e]; [|done]. unfold mbind, result_bind. destruct (first_failure rs) as [out'|]; [|done].
  intros [= <-]. cbn. by rewrite (Hx it eq_refl), (IH out' eq_refl).
Qed.
Lemma wp_dispatch who calls s :
  good s → wp (dispatch px lease agent who calls) (λ r s', good s' ∧
    ∀ rs, r = Ok rs → map tr_call_id rs = map call_id calls) s.
Proof.
  intros G. unfold dispatch. apply wp_bind, wp_gets, wp_bind, wp_gets, wp_bind, wp_gets, wp_bind, wp_lift.
  destruct (_parallel_ok _ _ _ _ _ _ _) as [[|]|e]; [| |by split].
  - apply wp_bind_idle; [done|idle|by split|]. intros [] s1 Hq1 G1.
    apply wp_bind_idle; [done|idle|by split|]. intros group s2 Hq2 G2.
    apply wp_bind. eapply wp_mono; [by apply wp_gather|]. intros [rs|e] s3 [G3 Hrs]; [|by split].
    apply wp_bind, wp_lift. destruct (first_failure rs) as [out|e] eqn:Ef; [|by split].
    apply wp_bind_idle; [done|idle|by split|]. intros [] s4 Hq4 G4.
    apply wp_ret. split; [done|]. intros ? [= <-]. eapply first_failure_ids; [by apply Hrs|done].
  - eapply wp_mono; [by apply wp_in_turn|]. done.
Qed.
End audit.
