(* ===== verification/ToolGuarantees.v ===== *)
(** * The guarantees of the tool pipeline

    From the laws of [PipelineSpec.v] and the naming of tools and digests: an idempotency
    key names one call, every execution of a dispatch is audited, the effect of a call that
    cannot be repeated is sent at most once, every result answers its call, and one approval
    round is enough. *)
From S2P Require Import Prelude StateLogic PyDecimal Approvals EventModel RunModel RunSpec Sessions PolicyModel Messages Checkpoints LoopGuards LoopPorts ToolInvocations ToolTrust ToolSpecs ToolOutput ToolPipeline ToolDispatch PipelineSpec.

(** ** Keys *)
Lemma split_app_any c a b : py_split_char c (a +:+ String c b) = py_split_char c a ++ py_split_char c b.
Proof.
  assert (∀ s, ∃ w ws, py_split_char c s = w :: ws) as Hne.
  { intros [|x s]; simpl; [eauto|]. destruct (py_split_char c s); [eauto|]. destruct (Ascii.eqb x c); eauto. }
  induction a as [|x a IH].
  - destruct (Hne b) as (w & ws & E). change (EmptyString +:+ String c b) with (String c b). simpl. rewrite E, Ascii.eqb_refl. done.
  - rewrite str_app_String. simpl. rewrite IH. destruct (Hne a) as (w & ws & ->). cbn [app]. by destruct (Ascii.eqb x c).
Qed.
Lemma concat_split c s : String.concat (String c EmptyString) (py_split_char c s) = s.
Proof.
  induction s as [|x s IH]; [done|]. simpl. destruct (py_split_char c s) as [|w ws] eqn:E; [by destruct s; simpl in E; repeat case_match|].
  destruct (Ascii.eqb_spec x c) as [->|N].
  - change (String.concat (String c "") ("" :: w :: ws)) with (String c (String.concat (String c "") (w :: ws))).
    by rewrite IH.
  - rewrite <- IH. by destruct ws.
Qed.
Lemma split_inj c s t : py_split_char c s = py_split_char c t → s = t.
Proof. intros E. rewrite <- (concat_split c s), <- (concat_split c t). by rewrite E. Qed.

(** How tools, digests and identifiers are written, and that the digest has no collisions. *)
Class Naming (W : Type) `{PipelinePorts W} (px : ToolPipeline) : Prop := {
  naming_digest a b : sha256_hex px a = sha256_hex px b → a = b;
  naming_hash args schema normal h : validate_and_normalize px args schema = Ok (normal, h) → plain h;
  naming_registry a b c d e f g (w : W) spec :
    registry_get a b c d e f g w = Ok spec → plain (ts_name spec) ∧ plain (ts_version spec);
  naming_uuid u : plain (render_uuid px u);
  naming_int n : plain (render_int px n);
}.

Section keys.
Context {W : Type} `{PipelinePorts W} (px : ToolPipeline) `{!Naming W px}.
Lemma material_split run step c spec h :
  plain (ts_name spec) → plain (ts_version spec) → plain h →
  py_split_char ":" (key_material px run step c spec h) =
    ["v1"; render_uuid px (RunModel.id run); render_int px (st_step_number step)] ++
    (py_split_char ":" (call_id c) ++ [ts_name spec; ts_version spec; h]).
Proof.
  intros Hn Hv Hh.
  assert (key_material px run step c spec h = "v1" +:+ String ":" (render_uuid px (RunModel.id run) +:+
    String ":" (render_int px (st_step_number step) +:+ String ":" (call_id c +:+
    String ":" (ts_name spec +:+ String ":" (ts_version spec +:+ String ":" h)))))) as -> by done.
  rewrite !split_app_any.
  rewrite (split_no_sep ":" "v1"), (split_no_sep ":" (render_uuid _ _)), (split_no_sep ":" (render_int _ _)),
    (split_no_sep ":" (ts_name _)), (split_no_sep ":" (ts_version _)), (split_no_sep ":" h);
    [done|done|done|done|apply naming_int|apply naming_uuid|done].
Qed.
Lemma key_names_call run step c spec h run' step' c' spec' h' :
  plain (ts_name spec) → plain (ts_version spec) → plain h →
  plain (ts_name spec') → plain (ts_version spec') → plain h' →
  _idempotency_key px run step c spec h = _idempotency_key px run' step' c' spec' h' →
  (render_uuid px (RunModel.id run) = render_uuid px (RunModel.id run') ∧
   render_int px (st_step_number step) = render_int px (st_step_number step')) ∧
  call_id c = call_id c' ∧ ts_name spec = ts_name spec' ∧ ts_version spec = ts_version spec' ∧ h = h'.
Proof.
  intros ?????? E%naming_digest. apply (f_equal (py_split_char ":")) in E. rewrite !material_split in E by done.
  injection E as Eu Ei E. apply app_inj_2 in E as [Ec [= -> -> ->]]; [|done]. apply split_inj in Ec. done.
Qed.
Lemma key_one_call run step c spec h run' step' c' spec' h' :
  plain (ts_name spec) → plain (ts_version spec) → plain h →
  plain (ts_name spec') → plain (ts_version spec') → plain h' →
  _idempotency_key px run step c spec h = _idempotency_key px run' step' c' spec' h' → call_id c = call_id c'.
Proof. intros ?????? E. by eapply key_names_call in E as (_ & ? & _). Qed.
End keys.

(** An idempotency key names one call: calls whose keys are equal are of the same run
    and step, have the same call id, tool, version and arguments - whatever separators the
    provider's call id contains. *)
Theorem key_identifies_call W `{PipelinePorts W} px `{!Naming W px} run step c spec h run' step' c' spec' h' :
  plain (ts_name spec) → plain (ts_version spec) → plain h →
  plain (ts_name spec') → plain (ts_version spec') → plain h' →
  _idempotency_key px run step c spec h = _idempotency_key px run' step' c' spec' h' →
  (render_uuid px (RunModel.id run) = render_uuid px (RunModel.id run') ∧
   render_int px (st_step_number step) = render_int px (st_step_number step')) ∧
  call_id c = call_id c' ∧ ts_name spec = ts_name spec' ∧ ts_version spec = ts_version spec' ∧ h = h'.
Proof. by apply (key_names_call px). Qed.

(** ** Dispatches *)
Section dispatches.
Context {W : Type} `{PipelineLaws W} (px : ToolPipeline) `{!Naming W px}.

(** A world in which the rows are what the pipeline makes them. *)
Definition sound (w : W) : Prop := Inv px (rows w) (acts w).
Lemma start_good s : sound (l_world s) → good px (acts (l_world s)) (RunModel.id (l_run s)) s.
Proof.
  intros Hs. unfold good, good_view. split; [|done]. split; [done|]. exists [].
  rewrite app_nil_r. split; [done|apply audited_nil].
Qed.
Lemma dispatch_good lease agent who calls s :
  sound (l_world s) →
  let p := dispatch px lease agent who calls s in
  (sound (l_world p.2) ∧ ∃ new, acts (l_world p.2) = acts (l_world s) ++ new ∧ audited px new) ∧
  ∀ rs, p.1 = Ok rs → map tr_call_id rs = map call_id calls.
Proof.
  intros Hs.
  pose proof (start_good s Hs) as G.
  destruct (wp_dispatch px lease agent (acts (l_world s)) (RunModel.id (l_run s))) with (who := who) (calls := calls) (s := s)
    as [[Gv _] Hr].
  - apply (key_one_call px).
  - apply naming_hash.
  - apply naming_registry.
  - done.
  - split; [done|exact Hr].
Qed.

(** Dispatches one after the other, of any run, checkpoint, agent and worker, each ending
    as it may; and between them whatever leaves the rows alone, such as the owner's answers. *)
Inductive dispatched : W → W → Prop :=
| dispatched_once lease agent who calls s : dispatched (l_world s) (l_world (dispatch px lease agent who calls s).2)
| meanwhile w w' : quiet w w' → dispatched w w'.
Lemma dispatched_sound w w' : rtc dispatched w w' → sound w → sound w'.
Proof.
  induction 1 as [|w1 w2 w3 Hd _ IH]; [done|]. intros Hs. apply IH.
  destruct Hd as [lease agent who calls s|w w' [Hr Ha]]; [by apply (dispatch_good lease agent who calls s)|].
  unfold sound. by rewrite Hr, Ha.
Qed.
End dispatches.


(** C1: At most once. Over any sequence of dispatches from an empty store - retried after
    failures at any port, by any worker, under any policy, with approvals answered between
    them - the effect of an invocation that may not be repeated is set going at most once. *)
Theorem effect_at_most_once W `{PipelineLaws W} px `{!Naming W px} w w' i m :
  rows w = ∅ → acts w = [] → rtc (dispatched px) w w' →
  rows w' !! i = Some m → m_class m = NON_IDEMPOTENT → (effects i (acts w') <= 1)%nat.
Proof.
  intros Hr Ha Hd Hm Hn.
  assert (sound px w) as Hs by (unfold sound; rewrite Hr, Ha; apply inv_init).
  by apply (inv_once px _ _ (dispatched_sound px w w' Hd Hs) i m).
Qed.

(** C6: The dispatcher keeps its contract with the run loop: the results answer the calls,
    each under its own id and in their order, a replayed result too. *)
Theorem dispatch_answers_calls W `{PipelineLaws W} px `{!Naming W px} lease agent who calls s rs s' :
  sound px (l_world s) → dispatch px lease agent who calls s = (Ok rs, s') →
  map tr_call_id rs = map call_id calls.
Proof.
  intros Hs E. destruct (dispatch_good px lease agent who calls s Hs) as [_ Hr]. rewrite E in Hr. by apply Hr.
Qed.

(** The approval recursion ends: under its key a call goes through at most one
    approval round, so the bound on rounds changes nothing. *)
Theorem one_approval_round W `{PipelineLaws W} px `{!Naming W px} lease agent n c batch d granted progress s :
  sound px (l_world s) → keyed_call px c →
  (new_candidate c batch ≫= λ i, locked px lease agent (S n) c i d granted progress) s =
  (new_candidate c batch ≫= λ i, locked px lease agent approval_rounds c i d granted progress) s.
Proof.
  intros Hs Hk.
  pose proof (start_good px s Hs) as G.
  pose proof (wp_candidate px (acts (l_world s)) (RunModel.id (l_run s)) c batch s G Hk) as Hc.
  unfold wp in Hc. unfold mbind, stateM_bind. destruct (new_candidate c batch s) as [[i|e] s1]; [|done].
  destruct Hc as [Hq Hi]. apply (locked_once px lease agent (acts (l_world s)) (RunModel.id (l_run s))).
  - apply (key_one_call px).
  - by eapply quiet_good.
  - done.
  - by apply Hi.
Qed.
