(* ===== verification/PipelineWorld.v ===== *)
(** * A desk for the tool pipeline

    The in-memory repositories of invocations and approvals, a policy that reads the tool's
    name, tools that play a script, over the clock, the ids and the log of the scripted
    world, with a journal of what was judged, approved and executed: the laws of
    [PipelineSpec.v] hold of it, and its theorems are at work on whole dispatches. *)
From S2P Require Import Prelude StateLogic PyDecimal EventModel RunModel RunSpec RunStore Sessions PolicyModel Approvals Messages ModelStream Checkpoints Compaction LoopGuards LoopPorts LoopWorld ToolInvocations ToolTrust ToolSpecs ToolOutput ToolPipeline ToolDispatch PipelineSpec ToolGuarantees.

(** The invocations of the desk: a repository in a state its operations lead to. *)
Definition Rows : Type := { r : InvocationRepo.t | InvocationRepo.inv r }.
Definition no_rows : Rows := exist _ InvocationRepo.init InvocationRepo.invocation_init_inv.
Definition after (r : Rows) (o : InvocationRepo.op) : Rows :=
  exist _ (InvocationRepo.step (proj1_sig r) o) (InvocationRepo.invocation_step_inv (proj1_sig r) o (proj2_sig r)).

Record Desk := {
  k_base : World;
  k_rows : Rows;
  k_approvals : ApprovalRepo.t;
  k_acts : list act;
  (** What the next executions do: whether they mark an effect themselves, and how they end. *)
  k_script : list (bool * result ToolResult);
  k_traces : list PipelineTrace;
}.
#[global] Instance desk_eta : Eta Desk := λ w,
  {| k_base := k_base w; k_rows := k_rows w; k_approvals := k_approvals w; k_acts := k_acts w;
     k_script := k_script w; k_traces := k_traces w |}.
Definition did (a : act) (w : Desk) : Desk := w <| k_acts := (k_acts w ++ [a])%list |>.
Definition on_base {A} (f : World → A * World) (w : Desk) : A * Desk :=
  let '(a, b) := f (k_base w) in (a, w <| k_base := b |>).

#[export] Instance desk_view : PipelineView Desk := {|
  rows w := mark <$> InvocationRepo._invocations (proj1_sig (k_rows w));
  acts := k_acts;
|}.
#[export] Instance desk_ports : LoopPorts Desk := {|
  RecallQuery := string;
  clock_now := on_base clock_now;
  new_id := on_base new_id;
  token_check w := (Ok tt, w);
  uow_is_open w := false;
  uow_commit w := (Ok tt, w);
  uow_rollback before after :=
    after <| k_base := uow_rollback (k_base before) (k_base after) |> <| k_rows := k_rows before |>
          <| k_approvals := k_approvals before |>;
  events_append e l := on_base (events_append e l);
  events_list_after a b c d := on_base (events_list_after a b c d);
  runs_update_counters run l := on_base (runs_update_counters run l);
  invocations_list_for_run run _ w := (InvocationRepo.list_for_run (Ok tt) run (proj1_sig (k_rows w)), w);
  artifacts_list_for_run a b := on_base (artifacts_list_for_run a b);
  artifacts_retain_for_reply a b c := on_base (artifacts_retain_for_reply a b c);
  sessions_metadata a b := on_base (sessions_metadata a b);
  browser_profiles_get a b := on_base (browser_profiles_get a b);
  plan_recall run cp := on_base (plan_recall run cp);
  run_recall run q t := on_base (run_recall (W:=World) run q t);
  assemble run cp p := on_base (assemble run cp p);
  compact_context cp n r := on_base (compact_context cp n r);
  estimator_reconcile m a b w := w;
  provider_stream r a := on_base (provider_stream r a);
  on_model_event run e := on_base (on_model_event run e);
  dispatch_tools a b c d e := on_base (dispatch_tools a b c d e);
|}.

(** ** Two tools: posting is allowed, mailing needs the owner; neither may be repeated *)
Definition tool (name : string) : ToolSpec :=
  {| ts_name := name; ts_version := "1"; ts_description := "writes outside"; ts_input_schema := [];
     ts_output_schema := None; ts_side_effect := EXTERNAL_WRITE; ts_risk := PolicyModel.LOW;
     ts_idempotency := NON_IDEMPOTENT; ts_required_scopes := ∅; timeout_seconds := 30;
     maximum_output_bytes := 1000; allow_parallel := false; ts_kind := CAPABILITY; ts_target_kind := "in_process";
     ts_output_trust := EXTERNAL_UNTRUSTED; ts_source := BUILTIN; ts_server_id := None; ts_device_id := None;
     deprecated := false; model_visible := true |}.
Definition known : list string := ["site.post"; "mail.send"].
Definition verdict_on (a : ProposedAction) : PolicyDecision :=
  {| decision := if String.eqb (name a) "mail.send" then REQUIRE_APPROVAL else ALLOW;
     reason_code := "policy.rule"; explanation := ""; modified_arguments := None; policy_version := "p1";
     untrusted_escalation := false |}.
Definition leased (l : option WorkerLease) : bool := bool_decide (is_Some l).
Definition play (spec : ToolSpec) (args : dict) (cx : ToolExecutionContext) (w : Desk) : tool_run Desk :=
  let w := did (Executed spec args cx (rows w !! ec_invocation_id cx)) w in
  match k_script w with
  | [] => Returns (Raise (RuntimeError "the script is exhausted")) w
  | (marks, r) :: rest =>
      let w := w <| k_script := rest |> in
      if marks then MarksEffect w (λ m w, Returns (match m with Ok _ => r | Raise e => Raise e end) w)
      else Returns r w
  end.
Definition approvals_do {A} (f : ApprovalRepo.t → result A * ApprovalRepo.t) (w : Desk) : result A * Desk :=
  let '(r, s) := f (k_approvals w) in (r, w <| k_approvals := s |>).
#[export] Instance desk_pipeline_ports : PipelinePorts Desk := {|
  registry_get name _ _ _ _ _ _ _ :=
    if bool_decide (name ∈ known) then Ok (tool name) else Raise (NotFoundError "tool not found");
  invocations_has_uncertain run name hash _ w :=
    (InvocationRepo.has_uncertain_non_idempotent (Ok tt) run name hash (proj1_sig (k_rows w)), w);
  invocations_find run key w := (InvocationRepo.find_by_idempotency_key run key (proj1_sig (k_rows w)), w);
  invocations_create x l w :=
    ((InvocationRepo.create x (leased l) (proj1_sig (k_rows w))).1,
     w <| k_rows := after (k_rows w) (InvocationRepo.Create x (leased l)) |>);
  invocations_transition i e x l w :=
    ((InvocationRepo.transition i e x (leased l) (proj1_sig (k_rows w))).1,
     w <| k_rows := after (k_rows w) (InvocationRepo.Transition i e x (leased l)) |>);
  approvals_create r := approvals_do (ApprovalRepo.create r);
  approvals_discard_pending i := approvals_do (ApprovalRepo.discard_pending i);
  approvals_get_by_action i w :=
    let r := ApprovalRepo.get_by_action i (k_approvals w) in
    (r, match r with Ok (Some ap) => did (ApprovalRead i ap) w | _ => w end);
  approvals_record_revalidation i v w :=
    let '(r, w) := approvals_do (ApprovalRepo.record_revalidation i v) w in
    (r, match r with Ok ap => did (Revalidated i ap) w | _ => w end);
  policy_evaluate a _ _ w := (Ok (verdict_on a), did (Judged a (verdict_on a)) w);
  recovery_evaluate := None; standing_authorizer := None; before_effect := None; delegations := None;
  artifact_writers := None; job_model_factory := None;
  approval_view_in_session _ := None; approval_view _ := None;
  loop_time w := (w_clock (k_base w), w);
  execute := play;
  diagnostics_snapshot _ := JNull;
  _completed_traces := k_traces;
  set_traces l w := w <| k_traces := l |>;
|}.

(** ** The laws *)
Lemma quiet_base {A} (f : World → A * World) w : quiet w (on_base f w).2.
Proof. unfold on_base. destruct (f (k_base w)). by split. Qed.
Lemma quiet_approvals {A} (f : ApprovalRepo.t → result A * ApprovalRepo.t) w : quiet w (approvals_do f w).2.
Proof. unfold approvals_do. destruct (f (k_approvals w)). by split. Qed.

Lemma desk_found run key (w : Desk) :
  match (invocations_find run key w).1 with
  | Ok (Some x) => rows w !! id x = Some (mark x) ∧ run_id x = run ∧ ToolInvocations.idempotency_key x = key
  | Ok None => ∀ i m, rows w !! i = Some m → m_run m = run → m_key m ≠ key
  | Raise _ => True
  end.
Proof.
  destruct w as [? [r Hr] ? ? ? ?]. cbn. unfold InvocationRepo.find_by_idempotency_key.
  destruct (InvocationRepo._idempotency r !! (run, key)) as [i|] eqn:Hi.
  - destruct (InvocationRepo._invocations r !! i) as [x|] eqn:Hx; [|done].
    pose proof (InvocationRepo.inv_keyed _ Hr _ _ Hx) as <-.
    destruct (InvocationRepo.inv_named _ Hr _ _ Hi) as (y & Hy & [= <- <-]).
    assert (y = x) as -> by congruence. by rewrite lookup_fmap, Hx.
  - intros i m Hm. rewrite lookup_fmap in Hm. apply fmap_Some in Hm as (x & Hx & ->). intros <- <-.
    apply (InvocationRepo.inv_indexed _ Hr) in Hx. cbn in Hi. congruence.
Qed.
Lemma desk_created x l (w : Desk) :
  match (invocations_create x l w).1 with
  | Ok y =>
      rows (invocations_create x l w).2 = rows w ∧ rows w !! id y = Some (mark y) ∧
      run_id y = run_id x ∧ ToolInvocations.idempotency_key y = ToolInvocations.idempotency_key x ∨
      y = x ∧ rows w !! id x = None ∧ rows (invocations_create x l w).2 = <[id x := mark x]> (rows w)
  | Raise _ => rows (invocations_create x l w).2 = rows w
  end.
Proof.
  destruct w as [? [r Hr] ? ? ? ?]. cbn. unfold InvocationRepo.create.
  destruct (leased l); [done|]. case_bool_decide; [done|]. case_bool_decide as Hn; [done|].
  apply eq_None_not_Some in Hn.
  destruct (InvocationRepo._idempotency r !! _) as [i|] eqn:Hi.
  - destruct (InvocationRepo._invocations r !! i) as [y|] eqn:Hy; [|done]. left.
    destruct (InvocationRepo.inv_named _ Hr _ _ Hi) as (z & Hz & [= <- <-]).
    assert (z = y) as -> by congruence. pose proof (InvocationRepo.inv_keyed _ Hr _ _ Hy) as ->.
    by rewrite lookup_fmap, Hy.
  - cbn. right. by rewrite lookup_fmap, Hn, fmap_insert.
Qed.
Lemma desk_moved i e x l (w : Desk) :
  match (invocations_transition i e x l w).1 with
  | Ok y =>
      id y = i ∧ status x ∈ ALLOWED_TOOL_TRANSITIONS e ∧
      (∃ c, mark y = mark (updated c x) ∧ id c = i ∧ rows w !! i = Some (mark c) ∧ status c = e ∧ y = updated c x) ∧
      rows (invocations_transition i e x l w).2 = <[i := mark y]> (rows w)
  | Raise _ => rows (invocations_transition i e x l w).2 = rows w
  end.
Proof.
  destruct w as [? [r Hr] ? ? ? ?]. cbn.
  destruct (InvocationRepo.transition i e x (leased l) r) as [[y|err] r'] eqn:E; cbn.
  - apply InvocationRepo.transition_Ok in E as (c & Hc & <- & -> & Hst & _ & ->).
    pose proof (InvocationRepo.inv_keyed _ Hr _ _ Hc) as <-. split; [done|]. split; [done|]. split.
    + exists c. by rewrite lookup_fmap, Hc.
    + cbn. by rewrite fmap_insert.
  - unfold InvocationRepo.transition in E. by repeat case_match; simplify_eq.
Qed.

#[export] Instance desk_laws : PipelineLaws Desk.
Proof.
  split; intros; try discriminate; try apply quiet_base; try apply quiet_approvals; try by split.
  - cbn. destruct (ApprovalRepo.get_by_action i (k_approvals w)) as [[ap|]|]; by split.
  - cbn. unfold approvals_do. destruct (ApprovalRepo.record_revalidation i v (k_approvals w)) as [[ap|] s]; by split.
  - cbn. unfold play. cbn. by destruct (k_script w) as [|[[|] r] rest].
  - apply desk_found.
  - split; [done|]. apply desk_created.
  - split; [done|]. apply desk_moved.
Qed.

(** ** A deployment, with digests nobody needs to invert *)
Fixpoint strokes (n : nat) : string := match n with O => EmptyString | S n => String "1" (strokes n) end.
Lemma strokes_plain n : plain (strokes n).
Proof. unfold plain. by induction n. Qed.
Definition written_int (n : Z) : string :=
  (if n <? 0 then "-" else "") +:+ strokes (Z.to_nat (Z.abs n)).
Lemma written_int_plain n : plain (written_int n).
Proof. unfold plain, written_int. destruct (n <? 0); apply strokes_plain. Qed.

Definition desk_lexicon : Lexicon :=
  {| tokens_of := λ _, ∅; words_of := py_split_char " "; clause_tokens := py_split_char " ";
     _owner_sentences := py_split_char "."; isalpha := λ _, true |}.
Definition desk_pipeline : ToolPipeline :=
  {| max_parallel_calls := 4; hard_ceiling_multiplier := 8; inline_output_bytes := 4096; maximum_loaded_skills := 3;
     maximum_skill_body_tokens := 1000; expiry_seconds := λ _, 3600; _current_principal := None;
     has_workspaces := false; validate_and_normalize := λ args _, Ok (args, strokes (length args));
     validate_output := λ _ _, Ok tt; read_spec := λ _, tool "unpinned"; dumps_sorted := λ _, "";
     sha256_hex := λ s, s; message_for := λ r, r; render_outcome := outcome_reason_code;
     ToolPipeline.dump_item := λ _, JObj []; render_uuid := λ u, strokes (N.to_nat u); read_uuid := λ _, None;
     render_int := written_int; lexicon := desk_lexicon; sensitive_key := λ _, false; credential_shape := λ _, false;
     is_email_server_id := λ _, false; validate_skill_body := λ b, Ok (JObj b);
     validate_delegation := λ r, Ok (JObj r); content_bytes := λ _, ""; decode_ignore := λ s, s;
     grouped := λ _, ""; capture_sections := λ _ _, 0; reader_note := λ _ _, "";
     browser_context_projection := λ _ _ _, None |}.
#[export] Instance desk_naming : Naming Desk desk_pipeline.
Proof.
  split; cbn.
  - done.
  - intros args _ normal h [= <- <-]. apply strokes_plain.
  - intros name _ _ _ _ _ _ _ spec. case_bool_decide as E; [|done]. intros [= <-].
    unfold known in E. apply elem_of_cons in E as [->|E%list_elem_of_singleton]; [done|]. by subst.
  - intros u. apply strokes_plain.
  - apply written_int_plain.
Qed.

Definition worker : AgentSpec := {| as_version := "1"; enabled_tools := known |}.
Definition owner : Principal.t :=
  {| Principal.tenant_id := "t1"; Principal.principal_id := "p1"; Principal.roles := ∅; Principal.scopes := ∅ |}.
Definition call_of (call : string) (name : string) : ToolCallItem :=
  {| call_id := call; item_index := 0; tc_name := name; tc_arguments := [("body", JStr "hello")];
     raw_arguments := "{}"; parse_error := None; tc_source_event_sequence := None |}.
Definition posted : ToolResult :=
  {| ok := true; res_content := [TextPart "posted"]; res_context_content := None; res_memory_recall := None;
     structured := None; artifacts := []; failure := None; res_output_trust := None; metrics := ∅;
     evidence_key := None |}.
Definition desk_with (script : list (bool * result ToolResult)) : LoopState Desk :=
  {| l_run := l_run script_start; l_checkpoint := l_checkpoint script_start; l_step := l_step script_start;
     l_permit := None;
     l_world := {| k_base := l_world script_start; k_rows := no_rows; k_approvals := ApprovalRepo.init; k_acts := [];
                   k_script := script; k_traces := [] |} |}.
Lemma desk_with_sound script : sound desk_pipeline (l_world (desk_with script)).
Proof. apply inv_init. Qed.
Definition send (calls : list ToolCallItem) (s : LoopState Desk) : result (list ToolResultItem) * LoopState Desk :=
  dispatch desk_pipeline None worker owner calls s.
Lemma send_dispatched calls s : dispatched desk_pipeline (l_world s) (l_world (send calls s).2).
Proof. apply dispatched_once. Qed.
Lemma send_sound calls s : sound desk_pipeline (l_world s) → sound desk_pipeline (l_world (send calls s).2).
Proof. intros Hs. exact (proj1 (proj1 (dispatch_good desk_pipeline None worker owner calls s Hs))). Qed.
Definition executions (w : Desk) : nat :=
  length (List.filter (λ a, match a with Executed _ _ _ _ => true | _ => false end) (k_acts w)).
Definition statuses (w : Desk) : list ToolInvocationStatus :=
  map (λ im, m_status im.2) (map_to_list (rows w)).

(** A post: judged, marked, executed, answered; asked again under the same id, the stored
    answer comes back and nothing is executed. *)
Definition post_once := send [call_of "a:1" "site.post"] (desk_with [(true, Ok posted)]).
Definition post_twice := send [call_of "a:1" "site.post"] post_once.2.
Example post_replayed :
  (executions (l_world post_once.2), statuses (l_world post_once.2)) = (1%nat, [SUCCEEDED]) ∧
  (executions (l_world post_twice.2), statuses (l_world post_twice.2)) = (1%nat, [SUCCEEDED]) ∧
  post_twice.1 = post_once.1.
Proof. vm_compute. split; [done|]. split; reflexivity. Qed.
(** A post cut short after its effect was marked: the next dispatch answers that nobody
    knows, and a call for the same under another id is refused. *)
Definition cut_short := send [call_of "c1" "site.post"] (desk_with [(false, Raise (RunCancelledError "cancelled")); (false, Ok posted)]).
Definition cut_again := send [call_of "c1" "site.post"] cut_short.2.
Definition cut_renamed := send [call_of "c2" "site.post"] cut_again.2.
Definition texts_of (r : result (list ToolResultItem)) : list string :=
  match r with
  | Ok items => concat (map (λ it, map (λ p, match p with TextPart t => t | _ => "" end) (content it)) items)
  | Raise _ => []
  end.
Example cut_is_uncertain :
  (cut_short.1, statuses (l_world cut_short.2)) = (Raise (RunCancelledError "cancelled"), [TOOL_RUNNING]) ∧
  (texts_of cut_again.1, statuses (l_world cut_again.2)) = (["tool.outcome_unknown"], [UNCERTAIN]) ∧
  (texts_of cut_renamed.1, executions (l_world cut_renamed.2)) = (["tool.outcome_unknown"], 1%nat).
Proof. vm_compute. split; [done|]. split; reflexivity. Qed.

(** A mail: the first dispatch asks and suspends; the owner approves; the second executes. *)
Definition mail_asked := send [call_of "m1" "mail.send"] (desk_with [(false, Ok posted)]).
Definition owner_resolves (how : ApprovalResolutionType) (s : LoopState Desk) : LoopState Desk :=
  s <| l_world := (l_world s) <| k_approvals :=
         foldr (λ i ap, (ApprovalRepo.resolve i owner how None None 200 ap).2) (k_approvals (l_world s))
               (map fst (map_to_list (ApprovalRepo._approvals (k_approvals (l_world s))))) |> |>.
Lemma owner_resolves_sound how s :
  sound desk_pipeline (l_world s) → sound desk_pipeline (l_world (owner_resolves how s)).
Proof. by destruct s as [? ? ? ? []]. Qed.
Definition mail_sent := send [call_of "m1" "mail.send"] (owner_resolves APPROVE_ONCE mail_asked.2).
Definition mail_denied := send [call_of "m1" "mail.send"] (owner_resolves RESOLVE_DENY mail_asked.2).
Example mail_flow :
  (executions (l_world mail_asked.2), statuses (l_world mail_asked.2)) = (0%nat, [WAITING_FOR_APPROVAL]) ∧
  (executions (l_world mail_sent.2), statuses (l_world mail_sent.2)) = (1%nat, [SUCCEEDED]) ∧
  (texts_of mail_denied.1, executions (l_world mail_denied.2), statuses (l_world mail_denied.2)) =
    (["approval.denied"], 0%nat, [TOOL_DENIED]).
Proof. vm_compute. split; [done|]. split; reflexivity. Qed.

(** ** The theorems at work *)
Lemma key_identifies_call_witness :
  _idempotency_key desk_pipeline (l_run script_start) (l_step script_start) (call_of "a:1" "site.post") (tool "site.post") "h" ≠
  _idempotency_key desk_pipeline (l_run script_start) (l_step script_start) (call_of "a" "1:site.post") (tool "site.post") "h".
Proof.
  intros E.
  apply (key_identifies_call Desk desk_pipeline) in E as (_ & Hc & _); [discriminate Hc|reflexivity..].
Defined.


Lemma dispatch_answers_calls_witness :
  match post_once.1 with Ok rs => map tr_call_id rs = ["a:1"] | Raise _ => False end.
Proof.
  destruct post_once as [[rs|e] s'] eqn:E.
  - exact (dispatch_answers_calls Desk desk_pipeline None worker owner [call_of "a:1" "site.post"] _ rs s'
             (desk_with_sound _) E).
  - vm_compute in E. discriminate E.
Defined.

Lemma effect_at_most_once_witness :
  statuses (l_world cut_again.2) = [UNCERTAIN] ∧
  ∃ i m, rows (l_world cut_again.2) !! i = Some m ∧ m_class m = NON_IDEMPOTENT ∧
    (effects i (acts (l_world cut_again.2)) <= 1)%nat ∧ effects i (acts (l_world cut_again.2)) = 1%nat.
Proof.
  split; [vm_compute; reflexivity|].
  assert (∃ i m, rows (l_world cut_again.2) !! i = Some m ∧ m_class m = NON_IDEMPOTENT ∧
            effects i (acts (l_world cut_again.2)) = 1%nat) as (i & m & Hm & Hc & He).
  { exists 50%N. eexists. vm_compute. split; [reflexivity|]. by split. }
  exists i, m. split; [exact Hm|]. split; [exact Hc|]. split; [|exact He].
  refine (effect_at_most_once Desk desk_pipeline
            (l_world (desk_with [(false, Raise (RunCancelledError "cancelled")); (false, Ok posted)])) _ i m
            eq_refl eq_refl _ Hm Hc).
  exact (rtc_l _ _ _ _ (send_dispatched [call_of "c1" "site.post"] (desk_with [(false, Raise (RunCancelledError "cancelled")); (false, Ok posted)]))
          (rtc_l _ _ _ _ (send_dispatched [call_of "c1" "site.post"] cut_short.2) (rtc_refl _ _))).
Defined.

Definition mail_call : ToolCall :=
  {| c_item := call_of "m1" "mail.send"; c_tool := tool "mail.send"; c_arguments := [("body", JStr "hello")];
     c_hash := "1"; c_principal := owner; c_group := None;
     c_key := _idempotency_key desk_pipeline (l_run script_start) (l_step script_start) (call_of "m1" "mail.send")
                (tool "mail.send") "1" |}.
Lemma one_approval_round_witness :
  (new_candidate mail_call [] ≫= λ i, locked desk_pipeline None worker 9 mail_call i None true [])
    (owner_resolves APPROVE_ONCE mail_asked.2) =
  (new_candidate mail_call [] ≫= λ i, locked desk_pipeline None worker approval_rounds mail_call i None true [])
    (owner_resolves APPROVE_ONCE mail_asked.2).
Proof.
  refine (one_approval_round Desk desk_pipeline None worker 8 mail_call [] None true [] _ _ _).
  - apply owner_resolves_sound.
    exact (send_sound [call_of "m1" "mail.send"] (desk_with [(false, Ok posted)]) (desk_with_sound _)).
  - exists (l_run script_start), (l_step script_start), "1". by split_and!.
Defined.
