(* ===== verification/Calendar.v ===== *)
(** * The proleptic Gregorian calendar

    What Python's [datetime] and [calendar] compute, as far as recurrence uses it: a [date]
    is the number of days since 1970-01-01, a naive [datetime] the microseconds since its
    midnight. *)
From S2P Require Import Prelude.

Abbreviation date := Z (only parsing).
Definition is_leap (y : Z) : bool := (y mod 4 =? 0) && (negb (y mod 100 =? 0) || (y mod 400 =? 0)).
(** [monthrange(year, month)[1]] *)
Definition monthrange (y m : Z) : Z :=
  if m =? 2 then 28 + Z.b2z (is_leap y)
  else if (m =? 4) || (m =? 6) || (m =? 9) || (m =? 11) then 30 else 31.
Definition days_before_year (y : Z) : Z := 365 * (y - 1) + (y - 1) / 4 - (y - 1) / 100 + (y - 1) / 400.
Definition days_before_month (y m : Z) : Z :=
  if m <=? 1 then 0 else if m =? 2 then 31
  else Z.b2z (is_leap y) +
    (if m =? 3 then 59 else if m =? 4 then 90 else if m =? 5 then 120 else if m =? 6 then 151
     else if m =? 7 then 181 else if m =? 8 then 212 else if m =? 9 then 243 else if m =? 10 then 273
     else if m =? 11 then 304 else 334).
Definition EPOCH_ORDINAL : Z := 719163.
Definition date_of (y m d : Z) : date := days_before_year y + days_before_month y m + d - EPOCH_ORDINAL.
(** [date.min] and [date.max]. *)
Definition MIN_DATE : date := date_of 1 1 1.
Definition MAX_DATE : date := date_of 9999 12 31.
Definition first_day (y : Z) : date := date_of y 1 1.
Definition year_of (n : date) : Z :=
  let y := (n + EPOCH_ORDINAL - 1) * 400 / 146097 + 1 in
  if n <? first_day y then y - 1 else if first_day (y + 1) <=? n then y + 1 else y.
(** The last month that starts by a day of the year. *)
Fixpoint month_in (months : nat) (y doy : Z) : Z :=
  match months with
  | O => 1
  | S k => if days_before_month y (Z.of_nat months) <=? doy then Z.of_nat months else month_in k y doy
  end.
Definition month_of (n : date) : Z := month_in 12 (year_of n) (n - first_day (year_of n)).
Definition day_of (n : date) : Z :=
  n - first_day (year_of n) - days_before_month (year_of n) (month_of n) + 1.
Definition isoweekday (n : date) : Z := (n + 3) mod 7 + 1.

Definition DAY : Z := 86400000000.
Definition SECOND : Z := 1000000.
Definition date_part (wall : Z) : date := wall / DAY.
Definition combine (n : date) (local_time : Z) : Z := n * DAY + local_time.
(** A date, a datetime, or Python's refusal of one beyond the years 1 to 9999. *)
Definition checked_date (n : date) : result date :=
  if (MIN_DATE <=? n) && (n <=? MAX_DATE) then Ok n else Raise (OverflowError "date value out of range").
Definition checked_datetime (t : Z) : result Z :=
  if (MIN_DATE * DAY <=? t) && (t <? (MAX_DATE + 1) * DAY) then Ok t
  else Raise (OverflowError "date value out of range").

(** ** Years *)
Lemma leap_step y : days_before_year (y + 1) = days_before_year y + 365 + Z.b2z (is_leap y).
Proof.
  unfold days_before_year, is_leap. replace (y + 1 - 1) with y by lia.
  assert (∀ k, k > 0 → y / k = (y - 1) / k + Z.b2z (y mod k =? 0)) as Hdiv.
  { intros k Hk. destruct (y mod k =? 0) eqn:E; cbn.
    - apply Z.eqb_eq in E. pose proof (Z.div_mod y k). assert (y - 1 = k * (y / k - 1) + (k - 1)) as -> by lia.
      rewrite Z.mul_comm, Z.div_add_l by lia. rewrite (Z.div_small (k - 1)) by lia. lia.
    - apply Z.eqb_neq in E. pose proof (Z.div_mod y k). pose proof (Z.mod_pos_bound y k).
      assert (y - 1 = (y / k) * k + (y mod k - 1)) as -> by lia.
      rewrite Z.div_add_l by lia. rewrite (Z.div_small (_ - 1)) by lia. lia. }
  rewrite !Hdiv by lia.
  assert (y mod 100 = 0 → y mod 4 = 0) as H100.
  { intros E. pose proof (Z.div_mod y 100). replace y with (25 * (y / 100) * 4) by lia. apply Z.mod_mul. lia. }
  assert (y mod 400 = 0 → y mod 100 = 0) as H400.
  { intros E. pose proof (Z.div_mod y 400). replace y with (4 * (y / 400) * 100) by lia. apply Z.mod_mul. lia. }
  destruct (Z.eqb_spec (y mod 4) 0), (Z.eqb_spec (y mod 100) 0), (Z.eqb_spec (y mod 400) 0); cbn; try lia; tauto.
Qed.
Lemma first_day_step y : first_day (y + 1) = first_day y + 365 + Z.b2z (is_leap y).
Proof. unfold first_day, date_of, days_before_month. cbn. pose proof (leap_step y). lia. Qed.
Lemma first_day_mono y y' : y < y' → first_day y < first_day y'.
Proof.
  intros H. replace y' with (y + 1 + Z.of_nat (Z.to_nat (y' - y - 1))) by lia.
  induction (Z.to_nat _) as [|k IH].
  - pose proof (first_day_step y). replace (y + 1 + Z.of_nat 0) with (y + 1) by lia. destruct (is_leap y); cbn in *; lia.
  - pose proof (first_day_step (y + 1 + Z.of_nat k)).
    replace (y + 1 + Z.of_nat (S k)) with (y + 1 + Z.of_nat k + 1) by lia. destruct (is_leap _); cbn in *; lia.
Qed.
Lemma year_of_spec n : first_day (year_of n) <= n < first_day (year_of n + 1).
Proof.
  unfold year_of. set (y := _ / 146097 + 1).
  assert (first_day (y - 1) <= n < first_day (y + 2)) as Hy.
  { subst y. unfold first_day, date_of, days_before_year, days_before_month, EPOCH_ORDINAL. cbn.
    set (d := n + 719163 - 1). set (q := d * 400 / 146097).
    assert (146097 * q <= d * 400 < 146097 * (q + 1)) as Hq.
    { subst q. pose proof (Z.div_mod (d * 400) 146097). pose proof (Z.mod_pos_bound (d * 400) 146097). lia. }
    split; Z.to_euclidean_division_equations; lia. }
  pose proof (first_day_mono (y - 1) y ltac:(lia)).
  destruct (Z.ltb_spec n (first_day y)).
  - replace (y - 1 + 1) with y by lia. lia.
  - destruct (Z.leb_spec (first_day (y + 1)) n); [replace (y + 1 + 1) with (y + 2) by lia|]; lia.
Qed.
Lemma year_of_unique n y : first_day y <= n < first_day (y + 1) → year_of n = y.
Proof.
  intros H. pose proof (year_of_spec n).
  destruct (Z.lt_trichotomy (year_of n) y) as [L|[?|L]]; [|done|].
  - assert (first_day (year_of n + 1) <= first_day y); [|lia].
    destruct (decide (year_of n + 1 = y)) as [->|]; [lia|]. pose proof (first_day_mono (year_of n + 1) y). lia.
  - assert (first_day (y + 1) <= first_day (year_of n)); [|lia].
    destruct (decide (y + 1 = year_of n)) as [->|]; [lia|]. pose proof (first_day_mono (y + 1) (year_of n)). lia.
Qed.

(** ** Months, counted from January of year 1 *)
Definition _month_index (y m : Z) : Z := (y - 1) * 12 + (m - 1).
Definition month_start (i : Z) : date := date_of (i / 12 + 1) (i mod 12 + 1) 1.
Definition month_index_of (n : date) : Z := _month_index (year_of n) (month_of n).
Definition month_length (i : Z) : Z := monthrange (i / 12 + 1) (i mod 12 + 1).

Ltac each_month m :=
  assert (m = 1 ∨ m = 2 ∨ m = 3 ∨ m = 4 ∨ m = 5 ∨ m = 6 ∨ m = 7 ∨ m = 8 ∨ m = 9 ∨ m = 10 ∨ m = 11 ∨ m = 12)
    as [->|[->|[->|[->|[->|[->|[->|[->|[->|[->|[->| ->]]]]]]]]]]] by lia.

Ltac closed_tests :=
  repeat match goal with
  | |- context [?a =? ?b] => let c := eval vm_compute in (a =? b) in change (a =? b) with c
  | |- context [?a <=? ?b] => let c := eval vm_compute in (a <=? b) in change (a <=? b) with c
  end; cbn [orb].

Lemma month_index_parts y m : 1 <= m <= 12 → _month_index y m / 12 + 1 = y ∧ _month_index y m mod 12 + 1 = m.
Proof.
  unfold _month_index. intros Hm. rewrite (Z.add_comm ((y - 1) * 12)).
  rewrite Z.div_add, Z.mod_add by lia. rewrite Z.div_small, Z.mod_small by lia. lia.
Qed.
Lemma month_start_at y m : 1 <= m <= 12 → month_start (_month_index y m) = date_of y m 1.
Proof. intros Hm. unfold month_start. by destruct (month_index_parts y m Hm) as [-> ->]. Qed.
Lemma month_length_at y m : 1 <= m <= 12 → month_length (_month_index y m) = monthrange y m.
Proof. intros Hm. unfold month_length. by destruct (month_index_parts y m Hm) as [-> ->]. Qed.
Lemma month_index_split i : _month_index (i / 12 + 1) (i mod 12 + 1) = i ∧ 1 <= i mod 12 + 1 <= 12.
Proof. unfold _month_index. pose proof (Z.div_mod i 12). pose proof (Z.mod_pos_bound i 12). lia. Qed.
Lemma monthrange_bounds y m : 28 <= monthrange y m <= 31.
Proof. unfold monthrange. repeat case_match; destruct (is_leap y); cbn; lia. Qed.
Lemma month_step y m : 1 <= m <= 12 →
  date_of (if m =? 12 then y + 1 else y) (if m =? 12 then 1 else m + 1) 1 = date_of y m 1 + monthrange y m.
Proof.
  intros Hm. unfold date_of, monthrange, days_before_month. pose proof (leap_step y).
  each_month m; closed_tests; lia.
Qed.
Lemma month_start_step i : month_start (i + 1) = month_start i + month_length i.
Proof.
  destruct (month_index_split i) as [Ei Hm]. set (y := i / 12 + 1) in *. set (m := i mod 12 + 1) in *.
  rewrite <- Ei. rewrite (month_start_at y m), (month_length_at y m) by done. rewrite <- (month_step y m) by done.
  destruct (Z.eqb_spec m 12) as [E|N].
  - rewrite <- month_start_at by lia. f_equal. unfold _month_index. lia.
  - rewrite <- month_start_at by lia. f_equal. unfold _month_index. lia.
Qed.
Lemma month_start_mono i j : i < j → month_start i + 28 <= month_start j.
Proof.
  intros H. replace j with (i + 1 + Z.of_nat (Z.to_nat (j - i - 1))) by lia.
  assert (∀ k, month_start k + 28 <= month_start (k + 1)) as Hs.
  { intros k. rewrite month_start_step. pose proof (monthrange_bounds (k / 12 + 1) (k mod 12 + 1)). unfold month_length. lia. }
  induction (Z.to_nat _) as [|k IH].
  - replace (i + 1 + Z.of_nat 0) with (i + 1) by lia. apply Hs.
  - pose proof (Hs (i + 1 + Z.of_nat k)). replace (i + 1 + Z.of_nat (S k)) with (i + 1 + Z.of_nat k + 1) by lia. lia.
Qed.
Lemma month_start_le i j : i <= j → month_start i <= month_start j.
Proof. intros H. destruct (decide (i = j)) as [->|]; [lia|]. pose proof (month_start_mono i j). lia. Qed.

Lemma month_ends y m : 1 <= m <= 12 →
  days_before_month y m + monthrange y m =
  if m =? 12 then 365 + Z.b2z (is_leap y) else days_before_month y (m + 1).
Proof. intros Hm. unfold monthrange, days_before_month. each_month m; closed_tests; lia. Qed.
Lemma month_in_spec (k : nat) y doy : (1 <= k <= 12)%nat →
  0 <= doy < days_before_month y (Z.of_nat k) + monthrange y (Z.of_nat k) →
  let m := month_in k y doy in
  1 <= m <= Z.of_nat k ∧ days_before_month y m <= doy < days_before_month y m + monthrange y m.
Proof.
  intros Hk. cbn zeta. induction k as [|k IH]; [lia|]. intros H. cbn [month_in].
  destruct (Z.leb_spec (days_before_month y (Z.of_nat (S k))) doy); [lia|].
  destruct k as [|k]; [change (days_before_month y (Z.of_nat 1)) with 0 in *; lia|].
  pose proof (month_ends y (Z.of_nat (S k)) ltac:(lia)) as He.
  destruct (Z.eqb_spec (Z.of_nat (S k)) 12); [lia|].
  replace (Z.of_nat (S k) + 1) with (Z.of_nat (S (S k))) in He by lia. destruct IH as [? ?]; lia.
Qed.
Lemma civil_spec n :
  1 <= month_of n <= 12 ∧ 1 <= day_of n <= monthrange (year_of n) (month_of n) ∧
  n = date_of (year_of n) (month_of n) (day_of n).
Proof.
  pose proof (year_of_spec n) as Hy. pose proof (first_day_step (year_of n)) as Hs.
  destruct (month_in_spec 12 (year_of n) (n - first_day (year_of n))) as [Hm Hd]; [lia| |].
  { change (Z.of_nat 12) with 12. pose proof (month_ends (year_of n) 12 ltac:(lia)) as He.
    change (if 12 =? 12 then ?a else _) with a in He. lia. }
  split; [exact Hm|]. unfold day_of. fold (month_of n) in Hm, Hd. split; [lia|].
  unfold first_day, date_of. change (days_before_month (year_of n) 1) with 0. lia.
Qed.
Lemma month_index_spec n : month_start (month_index_of n) <= n < month_start (month_index_of n + 1).
Proof.
  destruct (civil_spec n) as (Hm & Hd & En). unfold month_index_of.
  rewrite month_start_step, month_start_at, month_length_at by done. unfold date_of in *. lia.
Qed.
Lemma month_index_unique n i : month_start i <= n < month_start (i + 1) → month_index_of n = i.
Proof.
  intros H. pose proof (month_index_spec n).
  destruct (Z.lt_trichotomy (month_index_of n) i) as [L|[?|L]]; [|done|].
  - pose proof (month_start_le (month_index_of n + 1) i). lia.
  - pose proof (month_start_le (i + 1) (month_index_of n)). lia.
Qed.
Lemma month_index_mono a b : a <= b → month_index_of a <= month_index_of b.
Proof.
  intros H. pose proof (month_index_spec a). pose proof (month_index_spec b).
  destruct (Z.le_gt_cases (month_index_of a) (month_index_of b)) as [|L]; [done|].
  pose proof (month_start_le (month_index_of b + 1) (month_index_of a)). lia.
Qed.
(** The civil date of a valid year, month and day. *)
Lemma civil_date y m d : 1 <= m <= 12 → 1 <= d <= monthrange y m →
  year_of (date_of y m d) = y ∧ month_of (date_of y m d) = m ∧ day_of (date_of y m d) = d.
Proof.
  intros Hm Hd. set (n := date_of y m d).
  assert (month_index_of n = _month_index y m) as Ei.
  { apply month_index_unique. rewrite month_start_step, month_start_at, month_length_at by done.
    subst n. unfold date_of. lia. }
  destruct (civil_spec n) as (Hm' & _ & En).
  assert (year_of n = y ∧ month_of n = m) as [Ey Em].
  { unfold month_index_of in Ei. destruct (month_index_parts (year_of n) (month_of n) Hm') as [E1 E2], (month_index_parts y m Hm) as [F1 F2].
    rewrite Ei in E1, E2. lia. }
  split; [done|]. split; [done|]. rewrite Ey, Em in En. subst n. unfold date_of in En. unfold date_of in *. lia.
Qed.
#[global] Arguments year_of : simpl never.
#[global] Arguments month_of : simpl never.
#[global] Arguments day_of : simpl never.
#[global] Arguments monthrange : simpl never.
