(* ===== verification/Recurrence.v ===== *)
(** * Recurrence ([domain/recurrence.py], the cadences of [domain/schedules.py])

    When a schedule fires: the next instant of a cadence, the latest one, and how many lie
    between two. A zone of [zoneinfo] is what it answers: the offset in force at an instant,
    and the instant of a wall-clock time under each fold. *)
From stdpp Require Import pretty.
From S2P Require Import Prelude Calendar.

(** ** Cadences *)
Record MonthDay := { md_month : Z; md_day : Z }.
#[export] Instance MonthDay_eq_dec : EqDecision MonthDay.
Proof. solve_decision. Defined.
Inductive Cadence :=
| OnceCadence (instant : datetime)
| DailyCadence (local_time : Z) (timezone : string)
| WeeklyCadence (local_time : Z) (weekdays : list Z) (timezone : string)
| MonthlyCadence (local_time : Z) (days_of_month : list Z) (last_day : bool) (timezone : string)
| YearlyCadence (local_time : Z) (dates : list MonthDay) (timezone : string)
| IntervalCadence (every_minutes : Z) (timezone : string).

(** The validators; [zone_known] is whether [ZoneInfo] accepts a name. *)
Definition _validate_local_time (t : Z) : bool := (0 <=? t) && (t <? DAY) && (t mod SECOND =? 0).
(** [value == value.strip()] *)
Fixpoint edges_bare (first : bool) (s : string) : bool :=
  match s with
  | EmptyString => true
  | String c EmptyString => negb (py_isspace c)
  | String c s => (negb first || negb (py_isspace c)) && edges_bare false s
  end.
Definition _validate_timezone (zone_known : string → bool) (z : string) : bool :=
  negb (String.eqb z "") && edges_bare true z && zone_known z.
Definition weekdays_are_unique_iso_values (l : list Z) : bool :=
  negb (bool_decide (l = [])) && forallb (λ d, (1 <=? d) && (d <=? 7)) l && bool_decide (NoDup l).
Definition days_are_unique_calendar_values (l : list Z) : bool :=
  forallb (λ d, (1 <=? d) && (d <=? 31)) l && bool_decide (NoDup l).
Definition date_is_possible (x : MonthDay) : bool :=
  (1 <=? md_month x) && (md_month x <=? 12) && (1 <=? md_day x) && (md_day x <=? monthrange 2000 (md_month x)).
Definition dates_are_unique (l : list MonthDay) : bool := negb (bool_decide (l = [])) && bool_decide (NoDup l).
Definition cadence_valid (zone_known : string → bool) (c : Cadence) : bool :=
  match c with
  | OnceCadence _ => true
  | DailyCadence t z => _validate_local_time t && _validate_timezone zone_known z
  | WeeklyCadence t w z =>
      _validate_local_time t && weekdays_are_unique_iso_values w && _validate_timezone zone_known z
  | MonthlyCadence t days last z =>
      _validate_local_time t && days_are_unique_calendar_values days && _validate_timezone zone_known z &&
      (negb (bool_decide (days = [])) || last)
  | YearlyCadence t dates z =>
      _validate_local_time t && forallb date_is_possible dates && dates_are_unique dates &&
      _validate_timezone zone_known z
  | IntervalCadence n z => (1 <=? n) && (n <=? 1440) && _validate_timezone zone_known z
  end.

(** ** Zones and civil times *)
Record Zone := {
  zone_key : string;
  (** The offset in force at an instant, in microseconds. *)
  utcoffset : datetime → Z;
  (** The instant of a wall-clock time, under fold 1 and fold 0. *)
  from_wall : bool → Z → datetime;
}.
Definition astimezone (z : Zone) (t : datetime) : result Z := checked_datetime (t + utcoffset z t).
Definition instant_at (z : Zone) (local : Z) (fold : bool) : result (list datetime) :=
  candidate ← checked_datetime (from_wall z fold local);
  round_trip ← astimezone z candidate;
  Ok (if round_trip =? local then [candidate] else []).
Definition _valid_instants (z : Zone) (local : Z) : result (list datetime) :=
  a ← instant_at z local false; b ← instant_at z local true; Ok (a ++ b)%list.
Definition min_of (x : Z) (l : list Z) : Z := foldr Z.min x l.
Definition max_of (x : Z) (l : list Z) : Z := foldr Z.max x l.
Definition pad2 (n : Z) : string := (if n <? 10 then "0" else "") +:+ pretty n.
Definition pad4 (n : Z) : string :=
  (if n <? 10 then "000" else if n <? 100 then "00" else if n <? 1000 then "0" else "") +:+ pretty n.
Definition date_isoformat (d : date) : string :=
  pad4 (year_of d) +:+ "-" +:+ pad2 (month_of d) +:+ "-" +:+ pad2 (day_of d).
(** [while local.date() == candidate_date]: the seconds left of the date. *)
Fixpoint resolve_from (z : Zone) (d : date) (left_ : nat) (local : Z) : result datetime :=
  match left_ with
  | O =>
      _ ← checked_datetime local;
      Raise (ValueError ("timezone " +:+ zone_key z +:+ " has no valid instant on " +:+ date_isoformat d))
  | S left_ =>
      instants ← _valid_instants z local;
      match instants with
      | x :: l => Ok (min_of x l)
      | [] => resolve_from z d left_ (local + SECOND)
      end
  end.
Definition seconds_left (local_time : Z) : nat := Z.to_nat ((DAY - local_time + SECOND - 1) / SECOND).
Definition _resolve_civil (z : Zone) (local_time : Z) (d : date) : result datetime :=
  resolve_from z d (seconds_left local_time) (combine d local_time).

(** ** Loops over offsets *)
Inductive attempt := Found (t : datetime) | Next | Stop.
(** [for offset in range(n)], returning what is found. *)
Fixpoint for_offsets (n : nat) (offset : Z) (f : Z → result attempt) : result (option datetime) :=
  match n with
  | O => Ok None
  | S n =>
      r ← f offset;
      match r with
      | Found t => Ok (Some t)
      | Stop => Ok None
      | Next => for_offsets n (offset + 1) f
      end
  end.

(** ** Intervals *)
Definition _EPOCH : datetime := 0.
Definition _interval_index (every_minutes reference : Z) : Z := (reference - _EPOCH) / minutes every_minutes.
Definition _interval_at (every_minutes index : Z) : result datetime :=
  checked_datetime (_EPOCH + index * minutes every_minutes).

(** ** Dates of a period *)
Definition month_days (days : list Z) (last_day : bool) (y m : Z) : list Z :=
  let fits := remove_dups (List.filter (λ d, d <=? monthrange y m) days) in
  merge_sort Z.le (if last_day && negb (bool_decide (monthrange y m ∈ fits)) then monthrange y m :: fits else fits).
Definition _monthly_dates (days : list Z) (last_day : bool) (y m : Z) : list date :=
  map (date_of y m) (month_days days last_day y m).
Definition _yearly_dates (dates : list MonthDay) (y : Z) : list date :=
  map (λ x, date_of y (md_month x) (md_day x))
      (List.filter (λ x, md_day x <=? monthrange y (md_month x)) dates).
Definition MAX_YEAR : Z := 9999.
Definition _shift_month (y m offset : Z) : option (Z * Z) :=
  let index := (y - 1) * 12 + (m - 1) + offset in
  if (index <? 0) || (MAX_YEAR * 12 <=? index) then None
  else Some (index / 12 + 1, index mod 12 + 1).
Definition _matches (c : Cadence) (d : date) : bool :=
  match c with WeeklyCadence _ weekdays _ => bool_decide (isoweekday d ∈ weekdays) | _ => true end.

Section calculator.
Context (ZoneInfo : string → Zone).

(** ** Searches *)
Definition day_attempt (c : Cadence) (z : Zone) (local_time : Z) (keep : datetime → bool) (d : date) : result attempt :=
  d ← checked_date d;
  if _matches c d then
    candidate ← _resolve_civil z local_time d;
    Ok (if keep candidate then Found candidate else Next)
  else Ok Next.
Definition period_attempt (z : Zone) (local_time : Z) (keep : datetime → bool) (pick : Z → list Z → Z)
    (dates : option (list date)) : result attempt :=
  match dates with
  | None => Ok Stop
  | Some dates =>
      candidates ← mapM (_resolve_civil z local_time) dates;
      Ok (match List.filter keep candidates with x :: l => Found (pick x l) | [] => Next end)
  end.
Definition month_at (days : list Z) (last_day : bool) (d : date) (offset : Z) : option (list date) :=
  '(y, m) ← _shift_month (year_of d) (month_of d) offset; Some (_monthly_dates days last_day y m).
Definition after (reference : datetime) (t : datetime) : bool := reference <? t.
Definition until (reference : datetime) (t : datetime) : bool := t <=? reference.
Definition _next_monthly (t : Z) (days : list Z) (last_day : bool) (z : Zone) (reference : datetime)
    : result (option datetime) :=
  local ← astimezone z reference;
  for_offsets 24 0 (λ k, period_attempt z t (after reference) min_of (month_at days last_day (date_part local) k)).
Definition _latest_monthly (t : Z) (days : list Z) (last_day : bool) (z : Zone) (reference : datetime)
    : result (option datetime) :=
  local ← astimezone z reference;
  for_offsets 24 0 (λ k, period_attempt z t (until reference) max_of (month_at days last_day (date_part local) (- k))).
Definition _next_yearly (t : Z) (dates : list MonthDay) (z : Zone) (reference : datetime) : result (option datetime) :=
  local ← astimezone z reference;
  for_offsets 10 0 (λ k, let y := year_of (date_part local) + k in
    period_attempt z t (after reference) min_of (if MAX_YEAR <? y then None else Some (_yearly_dates dates y))).
Definition _latest_yearly (t : Z) (dates : list MonthDay) (z : Zone) (reference : datetime) : result (option datetime) :=
  local ← astimezone z reference;
  for_offsets 10 0 (λ k, let y := year_of (date_part local) - k in
    period_attempt z t (until reference) max_of (if y <? 1 then None else Some (_yearly_dates dates y))).
Definition _next_day (c : Cadence) (days : nat) (t : Z) (z : Zone) (reference : datetime) : result (option datetime) :=
  local ← astimezone z reference;
  for_offsets days 0 (λ k, day_attempt c z t (after reference) (date_part local + k)).
Definition _latest_day (c : Cadence) (days : nat) (t : Z) (z : Zone) (reference : datetime) : result (option datetime) :=
  local ← astimezone z reference;
  for_offsets days 0 (λ k, day_attempt c z t (until reference) (date_part local - k)).

Definition next_after (c : Cadence) (reference : datetime) : result (option datetime) :=
  match c with
  | OnceCadence at_ => Ok (if reference <? at_ then Some at_ else None)
  | IntervalCadence n _ => t ← _interval_at n (_interval_index n reference + 1); Ok (Some t)
  | MonthlyCadence t days last_day z => _next_monthly t days last_day (ZoneInfo z) reference
  | YearlyCadence t dates z => _next_yearly t dates (ZoneInfo z) reference
  | DailyCadence t z => _next_day c 2 t (ZoneInfo z) reference
  | WeeklyCadence t _ z => _next_day c 8 t (ZoneInfo z) reference
  end.
Definition latest_at_or_before (c : Cadence) (reference : datetime) : result (option datetime) :=
  match c with
  | OnceCadence at_ => Ok (if at_ <=? reference then Some at_ else None)
  | IntervalCadence n _ => t ← _interval_at n (_interval_index n reference); Ok (Some t)
  | MonthlyCadence t days last_day z => _latest_monthly t days last_day (ZoneInfo z) reference
  | YearlyCadence t dates z => _latest_yearly t dates (ZoneInfo z) reference
  | DailyCadence t z => _latest_day c 2 t (ZoneInfo z) reference
  | WeeklyCadence t _ z => _latest_day c 8 t (ZoneInfo z) reference
  end.

(** ** Counting *)
Definition sum (l : list Z) : Z := foldr Z.add 0 l.
Definition count_true (l : list bool) : Z := sum (map Z.b2z l).
Definition _count_month_number (start end_ month : Z) : Z :=
  let first := start + (month - 1 - start) mod 12 in
  if first <=? end_ then (end_ - first) / 12 + 1 else 0.
Definition _count_month_numbers (start end_ : Z) (months : list Z) : Z :=
  sum (map (_count_month_number start end_) months).
Definition _leaps_through (y : Z) : Z := y / 4 - y / 100 + y / 400.
Definition _count_leap_years (first last : Z) : Z :=
  if last <? first then 0 else _leaps_through last - _leaps_through (first - 1).
Definition _count_leap_februaries (start end_ : Z) : Z :=
  let first := start + (1 - start) mod 12 in
  if end_ <? first then 0
  else let last := end_ - (end_ - 1) mod 12 in _count_leap_years (first / 12 + 1) (last / 12 + 1).
Definition outside (first last t : datetime) : bool := (t <? first) || (last <? t).
(** A set of one or two periods. *)
Definition boundary (a b : Z) : list Z := if a =? b then [a] else [a; b].
Definition _outside_boundary_months (t : Z) (days : list Z) (last_day : bool) (z : Zone) (first last : datetime)
    : result Z :=
  first_local ← astimezone z first; last_local ← astimezone z last;
  let month i := _monthly_dates days last_day (i / 12 + 1) (i mod 12 + 1) in
  candidates ← mapM (_resolve_civil z t)
    (concat (map month (boundary (month_index_of (date_part first_local)) (month_index_of (date_part last_local)))));
  Ok (count_true (map (outside first last) candidates)).
(** The selected dates of the months from [start] to [end_]. *)
Definition count_months (days : list Z) (last_day : bool) (start end_ : Z) : Z :=
  let total := end_ - start + 1 in
  let february := _count_month_numbers start end_ [2] in
  let leap_february := _count_leap_februaries start end_ in
  let thirty_day := _count_month_numbers start end_ [4; 6; 9; 11] in
  let thirty_one_day := _count_month_numbers start end_ [1; 3; 5; 7; 8; 10; 12] in
  let one day := if day <=? 28 then total
                 else if day =? 29 then total - (february - leap_february)
                 else if day =? 30 then total - february else thirty_one_day in
  let has d := bool_decide (d ∈ days) in
  sum (map one days) +
  (if last_day then
     total - (if has 28 then february - leap_february else 0) - (if has 29 then leap_february else 0) -
     (if has 30 then thirty_day else 0) - (if has 31 then thirty_one_day else 0)
   else 0).
Definition _count_monthly (t : Z) (days : list Z) (last_day : bool) (z : Zone) (first last : datetime) : result Z :=
  first_local ← astimezone z first; last_local ← astimezone z last;
  out ← _outside_boundary_months t days last_day z first last;
  Ok (count_months days last_day (month_index_of (date_part first_local)) (month_index_of (date_part last_local)) - out).
(** The selected dates of the years from [first] to [last]. *)
Definition count_years (dates : list MonthDay) (first last : Z) : Z :=
  let leap_years := _count_leap_years first last in
  sum (map (λ x, if (md_month x =? 2) && (md_day x =? 29) then leap_years else last - first + 1) dates).
Definition _count_yearly (t : Z) (dates : list MonthDay) (z : Zone) (first last : datetime) : result Z :=
  first_local ← astimezone z first; last_local ← astimezone z last;
  let first_year := year_of (date_part first_local) in
  let last_year := year_of (date_part last_local) in
  candidates ← mapM (_resolve_civil z t) (concat (map (_yearly_dates dates) (boundary first_year last_year)));
  Ok (count_years dates first_year last_year - count_true (map (outside first last) candidates)).
Definition count_weekly (weekdays : list Z) (first : date) (day_count : Z) : Z :=
  let days n := count_true (map (λ k, bool_decide (isoweekday (first + Z.of_nat k) ∈ weekdays)) (seq 0 (Z.to_nat n))) in
  day_count / 7 * Z.of_nat (length weekdays) + days (day_count mod 7).
Definition count_between (c : Cadence) (first last : datetime) : result Z :=
  if last <? first then Ok 0
  else match c with
  | OnceCadence at_ => Ok (Z.b2z ((first <=? at_) && (at_ <=? last)))
  | IntervalCadence n _ =>
      before ← checked_datetime (first - 1);
      Ok (_interval_index n last - _interval_index n before)
  | DailyCadence _ z =>
      f ← astimezone (ZoneInfo z) first; l ← astimezone (ZoneInfo z) last;
      Ok (date_part l - date_part f + 1)
  | WeeklyCadence _ weekdays z =>
      f ← astimezone (ZoneInfo z) first; l ← astimezone (ZoneInfo z) last;
      Ok (count_weekly weekdays (date_part f) (date_part l - date_part f + 1))
  | MonthlyCadence t days last_day z => _count_monthly t days last_day (ZoneInfo z) first last
  | YearlyCadence t dates z => _count_yearly t dates (ZoneInfo z) first last
  end.
End calculator.
