(* ===== verification/RecurrenceSpec.v ===== *)
(** * What recurrence promises

    The instants of a cadence, said without a search: the next and the latest instant are
    the nearest ones, the count is their number. *)
From S2P Require Import Prelude Calendar Recurrence.

(** ** The instants of a cadence *)
Definition selected (c : Cadence) (d : date) : bool :=
  match c with
  | DailyCadence _ _ => true
  | WeeklyCadence _ weekdays _ => bool_decide (isoweekday d ∈ weekdays)
  | MonthlyCadence _ days last_day _ =>
      bool_decide (day_of d ∈ days) || last_day && (day_of d =? monthrange (year_of d) (month_of d))
  | YearlyCadence _ dates _ => bool_decide ({| md_month := month_of d; md_day := day_of d |} ∈ dates)
  | _ => false
  end.
(** The wall-clock time and the zone of a civil cadence. *)
Definition civil_part (c : Cadence) : option (Z * string) :=
  match c with
  | DailyCadence t z | WeeklyCadence t _ z | MonthlyCadence t _ _ z | YearlyCadence t _ z => Some (t, z)
  | _ => None
  end.
Definition on_date (z : Zone) (t : Z) (sel : date → bool) (d : date) (x : datetime) : Prop :=
  sel d = true ∧ MIN_DATE <= d <= MAX_DATE ∧ _resolve_civil z t d = Ok x.
Definition occurs (ZoneInfo : string → Zone) (c : Cadence) (x : datetime) : Prop :=
  match c with
  | OnceCadence at_ => x = at_
  | IntervalCadence n _ => ∃ k, x = k * minutes n
  | _ => match civil_part c with
         | Some (t, z) => ∃ d, on_date (ZoneInfo z) t (selected c) d x
         | None => False
         end
  end.

(** ** Zones *)
(** The date on the wall never goes back. *)
Definition orderly (z : Zone) : Prop :=
  ∀ a b, a <= b → date_part (a + utcoffset z a) <= date_part (b + utcoffset z b).
Lemma date_part_bounds w : date_part w * DAY <= w < (date_part w + 1) * DAY.
Proof. unfold date_part, DAY. pose proof (Z.div_mod w 86400000000). pose proof (Z.mod_pos_bound w 86400000000). lia. Qed.
Lemma date_part_of w d : d * DAY <= w < (d + 1) * DAY → date_part w = d.
Proof. unfold date_part, DAY. intros H. symmetry. apply (Z.div_unique w _ d (w - d * 86400000000)); lia. Qed.

Lemma instant_at_wall z local fold l x :
  instant_at z local fold = Ok l → x ∈ l → x + utcoffset z x = local.
Proof.
  unfold instant_at, astimezone, checked_datetime, mbind, result_bind.
  destruct (_ && _); [|done]. destruct (_ && _); [|done].
  destruct (Z.eqb_spec (from_wall z fold local + utcoffset z (from_wall z fold local)) local) as [E|N]; intros [= <-] Hx.
  - apply list_elem_of_singleton in Hx. by subst.
  - set_solver.
Qed.
Lemma valid_instants_wall z local l x : _valid_instants z local = Ok l → x ∈ l → x + utcoffset z x = local.
Proof.
  unfold _valid_instants, mbind, result_bind.
  destruct (instant_at z local false) as [a|] eqn:Ea; [|done]. destruct (instant_at z local true) as [b|] eqn:Eb; [|done].
  intros [= <-] [Hx|Hx]%elem_of_app; [exact (instant_at_wall _ _ _ _ _ Ea Hx)|exact (instant_at_wall _ _ _ _ _ Eb Hx)].
Qed.
Lemma min_of_elem x l : min_of x l ∈ x :: l ∧ ∀ y, y ∈ x :: l → min_of x l <= y.
Proof.
  unfold min_of. induction l as [|a l [IH1 IH2]]; cbn.
  - split; [by left|]. intros y ->%list_elem_of_singleton. lia.
  - split.
    + destruct (Z.min_spec a (foldr Z.min x l)) as [[_ ->]|[_ ->]]; set_solver.
    + intros y Hy. assert (y ∈ x :: l ∨ y = a) as [H| ->] by set_solver; [apply IH2 in H|]; lia.
Qed.
Lemma max_of_elem x l : max_of x l ∈ x :: l ∧ ∀ y, y ∈ x :: l → y <= max_of x l.
Proof.
  unfold max_of. induction l as [|a l [IH1 IH2]]; cbn.
  - split; [by left|]. intros y ->%list_elem_of_singleton. lia.
  - split.
    + destruct (Z.max_spec a (foldr Z.max x l)) as [[_ ->]|[_ ->]]; set_solver.
    + intros y Hy. assert (y ∈ x :: l ∨ y = a) as [H| ->] by set_solver; [apply IH2 in H|]; lia.
Qed.
Lemma resolve_from_wall z d n local x :
  resolve_from z d n local = Ok x →
  local <= x + utcoffset z x < local + Z.of_nat n * SECOND.
Proof.
  revert local. induction n as [|n IH]; intros local; cbn [resolve_from].
  { unfold mbind, result_bind. by destruct (checked_datetime local). }
  unfold mbind at 1, result_bind at 1. destruct (_valid_instants z local) as [[|y l]|] eqn:E; [| |done].
  - intros H%IH. unfold SECOND in *. lia.
  - intros [= <-]. rewrite (valid_instants_wall _ _ _ _ E (proj1 (min_of_elem y l))). unfold SECOND. lia.
Qed.
(** What is resolved for a date is on that date. *)
Lemma resolved_date z t d x : _validate_local_time t = true → _resolve_civil z t d = Ok x →
  date_part (x + utcoffset z x) = d.
Proof.
  unfold _validate_local_time, _resolve_civil. intros Ht H%resolve_from_wall. apply date_part_of.
  unfold combine, seconds_left, SECOND, DAY in *.
  apply andb_true_iff in Ht as [[H0 H1]%andb_true_iff H2]. apply Z.eqb_eq in H2. apply Z.leb_le in H0. apply Z.ltb_lt in H1.
  pose proof (Z.div_mod t 1000000). rewrite Z2Nat.id in H by (apply Z.div_pos; lia).
  replace (86400000000 - t + 1000000 - 1) with ((86400 - t / 1000000) * 1000000 + 999999) in H by lia.
  rewrite Z.div_add_l, (Z.div_small 999999) in H by lia. lia.
Qed.

(** ** A search over periods, forwards or backwards *)
Lemma for_offsets_spec n k f o :
  for_offsets n k f = Ok o →
  match o with
  | Some t => ∃ j, 0 <= j < Z.of_nat n ∧ f (k + j) = Ok (Found t) ∧ ∀ i, 0 <= i < j → f (k + i) = Ok Next
  | None => (∃ j, 0 <= j < Z.of_nat n ∧ f (k + j) = Ok Stop ∧ ∀ i, 0 <= i < j → f (k + i) = Ok Next) ∨
            ∀ i, 0 <= i < Z.of_nat n → f (k + i) = Ok Next
  end.
Proof.
  revert k. induction n as [|n IH]; intros k; cbn [for_offsets].
  { intros [= <-]. right. lia. }
  unfold mbind at 1, result_bind at 1. destruct (f k) as [[t| |]|] eqn:E; [| | |done].
  - intros [= <-]. exists 0. rewrite Z.add_0_r. split; [lia|]. split; [done|]. lia.
  - intros H%IH.
    assert (∀ j, (∀ i, 0 <= i < j → f (k + 1 + i) = Ok Next) → ∀ i, 0 <= i < j + 1 → f (k + i) = Ok Next) as Hall.
    { intros j Hj i Hi. destruct (decide (i = 0)) as [->|]; [by rewrite Z.add_0_r|].
      replace (k + i) with (k + 1 + (i - 1)) by lia. apply Hj. lia. }
    destruct o as [t|]; [|destruct H as [H|H]].
    + destruct H as (j & Hj & Hf & Hn). exists (j + 1). split; [lia|].
      replace (k + (j + 1)) with (k + 1 + j) by lia. split; [done|]. by apply Hall.
    + left. destruct H as (j & Hj & Hf & Hn). exists (j + 1). split; [lia|].
      replace (k + (j + 1)) with (k + 1 + j) by lia. split; [done|]. by apply Hall.
    + right. replace (Z.of_nat (S n)) with (Z.of_nat n + 1) by lia. by apply Hall.
  - intros [= <-]. left. exists 0. rewrite Z.add_0_r. split; [lia|]. split; [done|]. lia.
Qed.

Section search.
Context (z : Zone) (t : Z) (sel : date → bool) (r : datetime).
Hypothesis (Ht : _validate_local_time t = true) (Hz : orderly z).
Definition today : date := date_part (r + utcoffset z r).
Abbreviation on := (on_date z t sel).

Lemma on_mono d x d' x' : on d x → on d' x' → d < d' → x < x'.
Proof.
  intros (_ & _ & Hx) (_ & _ & Hx') Hd. apply resolved_date in Hx, Hx'; [|done..].
  destruct (Z.lt_ge_cases x x') as [|H]; [done|]. pose proof (Hz _ _ H). lia.
Qed.
Lemma on_before d x : on d x → d < today → x < r.
Proof.
  intros (_ & _ & Hx) Hd. apply resolved_date in Hx; [|done]. unfold today in Hd.
  destruct (Z.lt_ge_cases x r) as [|H]; [done|]. pose proof (Hz _ _ H). lia.
Qed.
Lemma on_after d x : on d x → today < d → r < x.
Proof.
  intros (_ & _ & Hx) Hd. apply resolved_date in Hx; [|done]. unfold today in Hd.
  destruct (Z.lt_ge_cases r x) as [|H]; [done|]. pose proof (Hz _ _ H). lia.
Qed.
Lemma on_fun d x x' : on d x → on d x' → x = x'.
Proof. intros (_ & _ & Hx) (_ & _ & Hx'). congruence. Qed.

(** Forwards, [s] is 1 and what comes after the reference is kept; backwards, [s] is -1
    and what does not. *)
Context (s : Z) (keep : datetime → bool).
Hypothesis direction : s = 1 ∧ keep = after r ∨ s = -1 ∧ keep = until r.
Lemma keep_ahead d x : on d x → 0 < s * (d - today) → keep x = true.
Proof.
  intros Ho H. unfold after, until in direction. destruct direction as [[-> ->]|[-> ->]].
  - apply Z.ltb_lt, (on_after d); [done|lia].
  - apply Z.leb_le. pose proof (on_before d x Ho). lia.
Qed.
Lemma keep_behind d x : on d x → s * (d - today) < 0 → keep x = false.
Proof.
  intros Ho H. unfold after, until in direction. destruct direction as [[-> ->]|[-> ->]].
  - apply Z.ltb_ge. pose proof (on_before d x Ho). lia.
  - apply Z.leb_gt. pose proof (on_after d x Ho). lia.
Qed.
Lemma ahead_mono d x d' x' : on d x → on d' x' → 0 < s * (d' - d) → 0 < s * (x' - x).
Proof.
  intros Ho Ho' H. destruct direction as [[-> _]|[-> _]].
  - pose proof (on_mono d x d' x' Ho Ho'). lia.
  - pose proof (on_mono d' x' d x Ho' Ho). lia.
Qed.

Context (P : date → Z) (attempt_ : Z → result attempt) (n : nat).
Hypothesis P_mono : ∀ a b, a <= b → P a <= P b.
Hypothesis today_ok : MIN_DATE <= today <= MAX_DATE.
Hypothesis at_found : ∀ i x, attempt_ i = Ok (Found x) →
  ∃ d, P d = i ∧ on d x ∧ keep x = true ∧
    ∀ d' x', P d' = i → on d' x' → keep x' = true → s * x <= s * x'.
Hypothesis at_next : ∀ i d, attempt_ i = Ok Next → P d = i → sel d = true → MIN_DATE <= d <= MAX_DATE →
  ∃ x, on d x ∧ keep x = false.
Hypothesis at_stop : ∀ i d, 0 <= s * (i - P today) → attempt_ i = Ok Stop → MIN_DATE <= d <= MAX_DATE → s * (P d - i) < 0.
Hypothesis dense : ∀ d, sel d = true → Z.of_nat n <= s * (P d - P today) →
  ∃ d', sel d' = true ∧ 0 < s * (P d' - P today) < Z.of_nat n.

Lemma P_strict a b : 0 < s * (P b - P a) → 0 < s * (b - a).
Proof.
  intros H. destruct direction as [[-> _]|[-> _]].
  - destruct (Z.lt_ge_cases a b) as [|L]; [lia|]. apply P_mono in L. lia.
  - destruct (Z.lt_ge_cases b a) as [|L]; [lia|]. apply P_mono in L. lia.
Qed.
Lemma s_square k : s * (s * k) = k.
Proof. destruct direction as [[-> _]|[-> _]]; lia. Qed.
(** What is kept lies past every period that had nothing. *)
Lemma kept_past j d x :
  (∀ i, 0 <= i < j → attempt_ (P today + s * i) = Ok Next) → on d x → keep x = true → j <= s * (P d - P today).
Proof.
  intros Hn Ho Hk. pose proof (s_square (P d - P today)) as Es.
  assert (0 <= s * (P d - P today)) as H0.
  { destruct (Z.lt_ge_cases (s * (P d - P today)) 0) as [L|]; [|done].
    assert (0 < s * (today - d)) by (apply P_strict; lia). rewrite (keep_behind d x Ho) in Hk; [done|lia]. }
  destruct (Z.lt_ge_cases (s * (P d - P today)) j) as [L|]; [|done].
  specialize (Hn (s * (P d - P today)) ltac:(lia)).
  pose proof Ho as (Hs & Hr & _).
  destruct (at_next _ d Hn ltac:(lia) Hs Hr) as (x' & Ho' & Hk').
  rewrite (on_fun d x x' Ho Ho') in Hk. congruence.
Qed.
Theorem search_exact o :
  for_offsets n 0 (λ k, attempt_ (P today + s * k)) = Ok o →
  match o with
  | Some x => (∃ d, on d x) ∧ keep x = true ∧ ∀ d' x', on d' x' → keep x' = true → s * x <= s * x'
  | None => ∀ d' x', on d' x' → keep x' = false
  end.
Proof.
  intros H. apply for_offsets_spec in H. destruct o as [x|].
  - destruct H as (j & Hj & Hf & Hn). apply at_found in Hf as (d & Pd & Ho & Hk & Hmin).
    split; [by exists d|]. split; [done|]. intros d' x' Ho' Hk'.
    pose proof (kept_past j d' x' Hn Ho' Hk') as Hp. pose proof (s_square (P d' - P today)) as Es.
    destruct (decide (s * (P d' - P today) = j)) as [E|N].
    + apply (Hmin d'); [|done|done]. rewrite <- E in Pd |- *. lia.
    + assert (0 < s * (d' - d)) as Hd.
      { apply P_strict. rewrite Pd. replace (s * (P d' - (P today + s * (0 + j))))
          with (s * (P d' - P today) - s * (s * j)) by lia. rewrite s_square. lia. }
      pose proof (ahead_mono d x d' x' Ho Ho' Hd). lia.
  - intros d x Ho. destruct (keep x) eqn:Hk; [|done]. exfalso. pose proof Ho as (Hs & Hr & _).
    destruct H as [(j & Hj & Hf & Hn)|Hn].
    + pose proof (kept_past j d x Hn Ho Hk) as Hp. apply (at_stop _ d) in Hf; [| |done].
      2: { replace (s * (P today + s * (0 + j) - P today)) with (s * (s * j)) by lia. rewrite s_square. lia. }
      replace (s * (P d - (P today + s * (0 + j)))) with (s * (P d - P today) - s * (s * j)) in Hf by lia.
      rewrite s_square in Hf. lia.
    + pose proof (kept_past (Z.of_nat n) d x Hn Ho Hk) as Hp.
      destruct (dense d Hs Hp) as (d' & Hs' & Hd').
      assert (0 < s * (d' - today)) as Ha by (apply P_strict; lia).
      assert (0 < s * (d - d')) as Hb by (apply P_strict; lia).
      assert (MIN_DATE <= d' <= MAX_DATE) as Hr' by (destruct direction as [[-> _]|[-> _]]; lia).
      pose proof (s_square (P d' - P today)) as Es.
      destruct (at_next _ d' (Hn (s * (P d' - P today)) ltac:(lia)) ltac:(lia) Hs' Hr') as (x' & Ho' & Hk').
      by rewrite (keep_ahead d' x' Ho' Ha) in Hk'.
Qed.
End search.

(** *** Days *)
Lemma day_attempt_Ok c z t keep i res :
  day_attempt c z t keep i = Ok res →
  MIN_DATE <= i <= MAX_DATE ∧
  if _matches c i then ∃ x, _resolve_civil z t i = Ok x ∧ res = (if keep x then Found x else Next) else res = Next.
Proof.
  unfold day_attempt, checked_date, mbind, result_bind.
  destruct ((MIN_DATE <=? i) && (i <=? MAX_DATE)) eqn:E; [|done]. intros H. split; [lia|].
  destruct (_matches c i); [|congruence]. destruct (_resolve_civil z t i) as [x|]; [|done]. exists x. split; congruence.
Qed.
Lemma shifted_week d k : isoweekday (d + 7 * k) = isoweekday d.
Proof. unfold isoweekday. replace (d + 7 * k + 3) with (d + 3 + k * 7) by lia. by rewrite Z.mod_add. Qed.
(** The dates to look at: two for a daily cadence, eight for a weekly one. *)
Definition window (c : Cadence) (days : nat) : Prop :=
  match c with DailyCadence _ _ => days = 2%nat | WeeklyCadence _ _ _ => days = 8%nat | _ => False end.
Lemma window_matches c days d : window c days → _matches c d = selected c d.
Proof. by destruct c. Qed.
Lemma window_dense c days s d a :
  window c days → s = 1 ∨ s = -1 → selected c d = true → Z.of_nat days <= s * (d - a) →
  ∃ d', selected c d' = true ∧ 0 < s * (d' - a) < Z.of_nat days.
Proof.
  intros Hw Hs Hsel Hd. destruct c; try done; cbn in Hw; subst days.
  - exists (a + s). split; [done|]. destruct Hs as [-> | ->]; lia.
  - set (m := (s * (d - a) - 1) mod 7). pose proof (Z.mod_pos_bound (s * (d - a) - 1) 7 ltac:(lia)) as Hm.
    pose proof (Z.div_mod (s * (d - a) - 1) 7 ltac:(lia)) as Hdm.
    exists (a + s * (m + 1)). split; [|fold m in Hm; destruct Hs as [-> | ->]; lia].
    cbn in *. rewrite <- Hsel. f_equal.
    replace d with (a + s * (m + 1) + 7 * (s * ((s * (d - a) - 1) / 7))); [by rewrite shifted_week|].
    fold m in Hdm. destruct Hs as [-> | ->]; lia.
Qed.

(** *** Months and years *)
Lemma mapM_Ok {A B} (f : A → result B) l l' : mapM f l = Ok l' → Forall2 (λ a b, f a = Ok b) l l'.
Proof.
  revert l'. induction l as [|a l IH]; intros l'; cbn; [by intros [= <-]; constructor|].
  unfold mbind, result_bind in *. destruct (f a) as [b|] eqn:E; [|done].
  destruct (mapM f l) as [bs|]; [|done]. intros [= <-]. constructor; [done|]. by apply IH.
Qed.
Lemma period_attempt_Ok z t keep pick dates res :
  (pick = min_of ∨ pick = max_of) → period_attempt z t keep pick dates = Ok res →
  match dates with
  | None => res = Stop
  | Some l => ∃ xs, Forall2 (λ d x, _resolve_civil z t d = Ok x) l xs ∧
      match res with
      | Found x => x ∈ xs ∧ keep x = true ∧
          ∀ y, y ∈ xs → keep y = true → (pick = min_of → x <= y) ∧ (pick = max_of → y <= x)
      | Next => ∀ x, x ∈ xs → keep x = false
      | Stop => False
      end
  end.
Proof.
  intros Hp. unfold period_attempt. destruct dates as [l|]; [|by intros [= <-]].
  unfold mbind, result_bind. destruct (mapM _ l) as [xs|] eqn:E; [|done]. apply mapM_Ok in E. intros [= <-].
  exists xs. split; [done|].
  assert (∀ x, x ∈ List.filter keep xs ↔ x ∈ xs ∧ keep x = true) as Hf.
  { intros x. rewrite !list_elem_of_In. apply List.filter_In. }
  destruct (List.filter keep xs) as [|x l'].
  - intros x Hx. destruct (keep x) eqn:K; [|done]. exfalso. assert (x ∈ @nil Z) by (by apply Hf). set_solver.
  - assert (pick x l' ∈ x :: l') as Hin by (destruct Hp as [-> | ->]; [apply min_of_elem|apply max_of_elem]).
    apply Hf in Hin as [Hin Hk]. split; [done|]. split; [done|]. intros y Hy Ky.
    assert (y ∈ x :: l') as Hyl by (by apply Hf). split; intros ->; [by apply min_of_elem|by apply max_of_elem].
Qed.

Section periods.
Context (z : Zone) (t : Z) (sel : date → bool) (r : datetime) (s : Z) (keep : datetime → bool)
  (pick : Z → list Z → Z) (P : date → Z) (dates_of : Z → option (list date)) (n : nat).
Hypothesis (Ht : _validate_local_time t = true) (Hz : orderly z).
Hypothesis direction : s = 1 ∧ keep = after r ∧ pick = min_of ∨ s = -1 ∧ keep = until r ∧ pick = max_of.
Hypothesis P_mono : ∀ a b, a <= b → P a <= P b.
Hypothesis today_ok : MIN_DATE <= today z r <= MAX_DATE.
Hypothesis dates_some : ∀ i l, dates_of i = Some l →
  ∀ d, d ∈ l ↔ sel d = true ∧ P d = i ∧ MIN_DATE <= d <= MAX_DATE.
Hypothesis dates_none : ∀ i d, 0 <= s * (i - P (today z r)) → dates_of i = None → MIN_DATE <= d <= MAX_DATE →
  s * (P d - i) < 0.
Hypothesis dense : ∀ d, sel d = true → Z.of_nat n <= s * (P d - P (today z r)) →
  ∃ d', sel d' = true ∧ 0 < s * (P d' - P (today z r)) < Z.of_nat n.

Lemma period_search o :
  for_offsets n 0 (λ k, period_attempt z t keep pick (dates_of (P (today z r) + s * k))) = Ok o →
  match o with
  | Some x => (∃ d, on_date z t sel d x) ∧ keep x = true ∧
      ∀ d' x', on_date z t sel d' x' → keep x' = true → s * x <= s * x'
  | None => ∀ d' x', on_date z t sel d' x' → keep x' = false
  end.
Proof.
  assert (pick = min_of ∨ pick = max_of) as Hp by (destruct direction as [(_ & _ & ?)|(_ & _ & ?)]; auto).
  apply (search_exact z t sel r Ht Hz s keep ltac:(tauto) P
    (λ i, period_attempt z t keep pick (dates_of i)) n P_mono today_ok); [| | |exact dense].
  - intros i x H. apply period_attempt_Ok in H; [|done]. destruct (dates_of i) as [l|] eqn:E; [|done].
    destruct H as (xs & Hxs & Hx & Hk & Hmin). apply list_elem_of_lookup in Hx as [j Hx].
    destruct (Forall2_lookup_r _ _ _ _ _ Hxs Hx) as (d & Hd & Hr).
    apply list_elem_of_lookup_2 in Hd. apply (dates_some i l E) in Hd as (Hs & HP & Hrange).
    exists d. split; [done|]. split; [by split|]. split; [done|].
    intros d' x' HP' (Hs' & Hrange' & Hr') Hk'.
    assert (d' ∈ l) as Hd' by (by apply (dates_some i l E)). apply list_elem_of_lookup in Hd' as [j' Hd'].
    destruct (Forall2_lookup_l _ _ _ _ _ Hxs Hd') as (x'' & Hx'' & Hr'').
    assert (x'' = x') as -> by congruence. apply list_elem_of_lookup_2 in Hx''.
    destruct (Hmin x' Hx'' Hk') as [H1 H2].
    destruct direction as [(-> & _ & E')|(-> & _ & E')]; [specialize (H1 E')|specialize (H2 E')]; lia.
  - intros i d H HP Hs Hrange. apply period_attempt_Ok in H; [|done]. destruct (dates_of i) as [l|] eqn:E; [|done].
    destruct H as (xs & Hxs & Hno).
    assert (d ∈ l) as Hd by (by apply (dates_some i l E)). apply list_elem_of_lookup in Hd as [j Hd].
    destruct (Forall2_lookup_l _ _ _ _ _ Hxs Hd) as (x & Hx & Hr). exists x. split; [by split|].
    apply Hno. by eapply list_elem_of_lookup_2.
  - intros i d Hi H Hrange. apply period_attempt_Ok in H; [|done]. destruct (dates_of i) as [l|] eqn:E.
    { by destruct H as (xs & _ & []). }
    by apply (dates_none i d).
Qed.
End periods.

Lemma for_offsets_ext n k f g :
  (∀ i, k <= i < k + Z.of_nat n → f i = g i) → for_offsets n k f = for_offsets n k g.
Proof.
  revert k. induction n as [|n IH]; intros k H; cbn [for_offsets]; [done|].
  rewrite (H k) by lia. unfold mbind, result_bind. destruct (g k) as [[| |]|]; try done. apply IH. intros. apply H. lia.
Qed.

(** *** The calendar's range *)
Lemma month_range d : MIN_DATE <= d <= MAX_DATE ↔ 0 <= month_index_of d < MAX_YEAR * 12.
Proof.
  assert (month_start 0 = MIN_DATE) as E0 by done.
  assert (month_start (MAX_YEAR * 12) = MAX_DATE + 1) as E1 by done.
  pose proof (month_index_spec d). unfold MAX_YEAR in *. split; intros Hd.
  - split.
    + destruct (Z.lt_ge_cases (month_index_of d) 0) as [L|]; [|lia].
      pose proof (month_start_le (month_index_of d + 1) 0). lia.
    + destruct (Z.lt_ge_cases (month_index_of d) (9999 * 12)) as [|L]; [done|].
      pose proof (month_start_le (9999 * 12) (month_index_of d)). lia.
  - pose proof (month_start_le 0 (month_index_of d)). pose proof (month_start_le (month_index_of d + 1) (9999 * 12)). lia.
Qed.
Lemma year_of_index d : year_of d = month_index_of d / 12 + 1 ∧ month_of d = month_index_of d mod 12 + 1.
Proof. destruct (civil_spec d) as (Hm & _). unfold month_index_of. by destruct (month_index_parts (year_of d) (month_of d) Hm) as [-> ->]. Qed.
Lemma year_range d : MIN_DATE <= d <= MAX_DATE ↔ 1 <= year_of d <= MAX_YEAR.
Proof.
  rewrite month_range. destruct (year_of_index d) as [-> _]. unfold MAX_YEAR.
  pose proof (Z.div_mod (month_index_of d) 12). pose proof (Z.mod_pos_bound (month_index_of d) 12). lia.
Qed.
Lemma year_mono a b : a <= b → year_of a <= year_of b.
Proof.
  intros H. destruct (year_of_index a) as [-> _], (year_of_index b) as [-> _].
  pose proof (month_index_mono a b H). pose proof (Z.div_le_mono (month_index_of a) (month_index_of b) 12). lia.
Qed.

(** *** The dates of a month *)
Definition days_ok (days : list Z) : Prop := ∀ d, d ∈ days → 1 <= d <= 31.
Lemma month_days_elem days last_day y m d :
  d ∈ month_days days last_day y m ↔ d ∈ days ∧ d <= monthrange y m ∨ last_day = true ∧ d = monthrange y m.
Proof.
  unfold month_days. rewrite merge_sort_Permutation.
  assert (∀ x, x ∈ remove_dups (List.filter (λ d, d <=? monthrange y m) days) ↔ x ∈ days ∧ x <= monthrange y m) as Hf.
  { intros x. rewrite elem_of_remove_dups, list_elem_of_In, List.filter_In, <- list_elem_of_In. by rewrite Z.leb_le. }
  destruct (last_day && _) eqn:E.
  - apply andb_true_iff in E as [-> _]. rewrite elem_of_cons, Hf. tauto.
  - rewrite Hf. split; [tauto|]. intros [?|[-> ->]]; [done|]. cbn in E.
    apply negb_false_iff, bool_decide_eq_true in E. by apply Hf.
Qed.
Lemma monthly_dates_elem t days last_day zn y m d : days_ok days → 1 <= m <= 12 →
  d ∈ _monthly_dates days last_day y m ↔
  selected (MonthlyCadence t days last_day zn) d = true ∧ month_index_of d = _month_index y m.
Proof.
  intros Hd Hm. unfold _monthly_dates. rewrite list_elem_of_fmap. cbn [selected]. rewrite orb_true_iff, bool_decide_eq_true, andb_true_iff, Z.eqb_eq.
  pose proof (monthrange_bounds y m). split.
  - intros (dd & -> & Hdd). apply month_days_elem in Hdd.
    assert (1 <= dd <= monthrange y m) as Hb by (destruct Hdd as [[H1%Hd ?]|[_ ->]]; lia).
    destruct (civil_date y m dd Hm Hb) as (Ey & Em & Ed). unfold month_index_of. rewrite Ey, Em, Ed. split; [tauto|done].
  - intros [Hs Ei]. destruct (civil_spec d) as (Hm' & Hday & En).
    destruct (year_of_index d) as [Ey Em]. destruct (month_index_parts y m Hm) as [E1 E2].
    rewrite Ei, E1 in Ey. rewrite Ei, E2 in Em. rewrite Ey, Em in *. exists (day_of d). split; [done|].
    apply month_days_elem. intuition lia.
Qed.
Lemma long_month i s : s = 1 ∨ s = -1 → month_length (i + s) = 31 ∨ month_length (i + 2 * s) = 31.
Proof.
  intros Hs. unfold month_length.
  pose proof (Z.div_mod (i + s) 12). pose proof (Z.div_mod (i + 2 * s) 12).
  pose proof (Z.mod_pos_bound (i + s) 12 ltac:(lia)) as H1. pose proof (Z.mod_pos_bound (i + 2 * s) 12 ltac:(lia)) as H2.
  assert ((i + 2 * s) mod 12 = (i + s) mod 12 + s ∨ (i + 2 * s) mod 12 = (i + s) mod 12 + s - 12 ∨
          (i + 2 * s) mod 12 = (i + s) mod 12 + s + 12) as Hm.
  { destruct Hs as [-> | ->]; lia. }
  generalize dependent ((i + 2 * s) mod 12). intros b. generalize dependent ((i + s) mod 12). intros a. intros.
  clear -Hs H1 H2 Hm. unfold monthrange.
  destruct (Z.eqb_spec (a + 1) 2); [right|].
  { destruct (Z.eqb_spec (b + 1) 2); [lia|]. destruct ((b + 1 =? 4) || _ || _ || _) eqn:E; [lia|done]. }
  destruct ((a + 1 =? 4) || _ || _ || _) eqn:Ea; [right|by left].
  destruct (Z.eqb_spec (b + 1) 2); [lia|]. destruct ((b + 1 =? 4) || _ || _ || _) eqn:E; [lia|done].
Qed.
Lemma monthly_dense t days last_day zn s d i : days_ok days → s = 1 ∨ s = -1 →
  selected (MonthlyCadence t days last_day zn) d = true →
  ∃ d', selected (MonthlyCadence t days last_day zn) d' = true ∧ 0 < s * (month_index_of d' - i) < 24.
Proof.
  intros Hd Hs Hsel.
  assert (∃ j, (j = i + s ∨ j = i + 2 * s) ∧ month_length j = 31) as (j & Hj & Hl).
  { destruct (long_month i s Hs); [exists (i + s)|exists (i + 2 * s)]; auto. }
  destruct (month_index_split j) as [Ej Hm]. set (y := j / 12 + 1) in *. set (m := j mod 12 + 1) in *.
  assert (monthrange y m = 31) as Hr by done.
  assert (∃ dd, dd ∈ month_days days last_day y m) as (dd & Hdd).
  { cbn [selected] in Hsel. apply orb_true_iff in Hsel as [Hin%bool_decide_eq_true|[-> _]%andb_true_iff].
    - exists (day_of d). apply month_days_elem. left. split; [done|]. apply Hd in Hin. lia.
    - exists (monthrange y m). apply month_days_elem. auto. }
  exists (date_of y m dd).
  assert (date_of y m dd ∈ _monthly_dates days last_day y m) as Hin by (apply list_elem_of_fmap; eauto).
  apply (monthly_dates_elem t days last_day zn) in Hin as [? ->]; [|done..].
  split; [done|]. rewrite Ej. destruct Hs as [-> | ->]; lia.
Qed.
Definition dates_of_month (days : list Z) (last_day : bool) (i : Z) : option (list date) :=
  if (i <? 0) || (MAX_YEAR * 12 <=? i) then None else Some (_monthly_dates days last_day (i / 12 + 1) (i mod 12 + 1)).
Definition dates_of_year (dates : list MonthDay) (y : Z) : option (list date) :=
  if (y <? 1) || (MAX_YEAR <? y) then None else Some (_yearly_dates dates y).
Lemma month_at_index days last_day d k :
  month_at days last_day d k = dates_of_month days last_day (month_index_of d + k).
Proof.
  unfold dates_of_month, month_at, _shift_month, month_index_of, _month_index. cbn zeta. by destruct (_ || _).
Qed.

(** *** The dates of a year *)
Definition possible (dates : list MonthDay) : Prop :=
  ∀ x, x ∈ dates → 1 <= md_month x <= 12 ∧ 1 <= md_day x <= monthrange 2000 (md_month x).
Lemma yearly_dates_elem t dates zn y d : possible dates →
  d ∈ _yearly_dates dates y ↔ selected (YearlyCadence t dates zn) d = true ∧ year_of d = y.
Proof.
  intros Hp. unfold _yearly_dates. rewrite list_elem_of_fmap. cbn [selected]. rewrite bool_decide_eq_true. split.
  - intros (x & -> & Hx). rewrite list_elem_of_In, List.filter_In, <- list_elem_of_In, Z.leb_le in Hx.
    destruct Hx as [Hx Hl]. destruct (Hp x Hx) as [Hm Hdd].
    destruct (civil_date y (md_month x) (md_day x) Hm ltac:(lia)) as (-> & -> & ->). by destruct x.
  - intros [Hin <-]. destruct (civil_spec d) as (Hm & Hdd & En).
    exists {| md_month := month_of d; md_day := day_of d |}. cbn. split; [done|].
    rewrite list_elem_of_In, List.filter_In, <- list_elem_of_In, Z.leb_le. cbn. split; [done|lia].
Qed.
Lemma monthrange_leap y m : monthrange y m = monthrange 2000 m - (if m =? 2 then 1 - Z.b2z (is_leap y) else 0).
Proof. unfold monthrange. destruct (m =? 2); [|lia]. change (is_leap 2000) with true. cbn. lia. Qed.
Lemma leap_near y s : s = 1 ∨ s = -1 → ∃ k, 0 < k <= 8 ∧ is_leap (y + s * k) = true.
Proof.
  intros Hs.
  assert (∃ k, 0 < k <= 4 ∧ (y + s * k) mod 4 = 0) as (k & Hk & E).
  { destruct Hs as [-> | ->].
    - exists (4 - y mod 4). pose proof (Z.mod_pos_bound y 4). pose proof (Z.div_mod y 4). split; [lia|].
      replace (y + 1 * (4 - y mod 4)) with ((y / 4 + 1) * 4) by lia. apply Z.mod_mul. lia.
    - exists (if y mod 4 =? 0 then 4 else y mod 4). pose proof (Z.mod_pos_bound y 4). pose proof (Z.div_mod y 4).
      destruct (Z.eqb_spec (y mod 4) 0); (split; [lia|]).
      + replace (y + -1 * 4) with ((y / 4 - 1) * 4) by lia. apply Z.mod_mul. lia.
      + replace (y + -1 * (y mod 4)) with ((y / 4) * 4) by lia. apply Z.mod_mul. lia. }
  destruct (decide ((y + s * k) mod 100 = 0)) as [E1|N].
  - exists (k + 4). split; [lia|]. unfold is_leap.
    replace (y + s * (k + 4)) with (y + s * k + s * 4) by lia. set (v := y + s * k) in *.
    assert ((v + s * 4) mod 4 = 0) as -> by (rewrite Z.mod_add by lia; done).
    assert ((v + s * 4) mod 100 ≠ 0) as N; [|by apply Z.eqb_neq in N; rewrite N].
    intros F. pose proof (Z.div_mod v 100). pose proof (Z.div_mod (v + s * 4) 100). destruct Hs as [-> | ->]; lia.
  - exists k. split; [lia|]. unfold is_leap. rewrite E. apply Z.eqb_neq in N. by rewrite N.
Qed.
Lemma yearly_dense t dates zn s d y : possible dates → s = 1 ∨ s = -1 →
  selected (YearlyCadence t dates zn) d = true →
  ∃ d', selected (YearlyCadence t dates zn) d' = true ∧ 0 < s * (year_of d' - y) < 10.
Proof.
  intros Hp Hs Hsel. destruct (leap_near y s Hs) as (k & Hk & Hl). set (y' := y + s * k) in *.
  pose proof Hsel as Hin. cbn [selected] in Hin. apply bool_decide_eq_true in Hin.
  destruct (Hp _ Hin) as [Hm Hd]. cbn in Hm, Hd.
  assert (monthrange y' (month_of d) = monthrange 2000 (month_of d)) as Er.
  { rewrite monthrange_leap, Hl. destruct (_ =? 2); cbn; lia. }
  exists (date_of y' (month_of d) (day_of d)).
  destruct (civil_date y' (month_of d) (day_of d) Hm ltac:(lia)) as (E1 & E2 & E3).
  cbn [selected]. rewrite E1, E2, E3. split; [done|]. subst y'. destruct Hs as [-> | ->]; lia.
Qed.

(** ** The nearest instant *)
Lemma astimezone_Ok z r local : astimezone z r = Ok local →
  local = r + utcoffset z r ∧ MIN_DATE <= today z r <= MAX_DATE.
Proof.
  unfold astimezone, checked_datetime. destruct (_ && _) eqn:E; [|done]. intros [= <-]. split; [done|].
  unfold today. pose proof (date_part_bounds (r + utcoffset z r)). unfold DAY in *. lia.
Qed.
Lemma days_valid days : days_are_unique_calendar_values days = true → days_ok days ∧ NoDup days.
Proof.
  unfold days_are_unique_calendar_values. intros [H Hn%bool_decide_eq_true]%andb_true_iff. split; [|done]. intros d Hd.
  rewrite forallb_forall in H. specialize (H d ltac:(by apply list_elem_of_In)). lia.
Qed.
Lemma dates_valid dates : forallb date_is_possible dates = true → possible dates.
Proof.
  intros H x Hx. rewrite forallb_forall in H. specialize (H x ltac:(by apply list_elem_of_In)).
  unfold date_is_possible in H. lia.
Qed.

Ltac conjuncts V :=
  repeat match type of V with (_ && _) = true => let H := fresh "V" in apply andb_true_iff in V as [V H] end.
Lemma occurs_civil ZoneInfo c t z x :
  civil_part c = Some (t, z) → occurs ZoneInfo c x ↔ ∃ d, on_date (ZoneInfo z) t (selected c) d x.
Proof. intros Hc. destruct c; cbn in Hc; simplify_eq; reflexivity. Qed.
Lemma valid_time zone_known c t z :
  cadence_valid zone_known c = true → civil_part c = Some (t, z) → _validate_local_time t = true.
Proof.
  intros V Hc. destruct c; cbn in Hc; cbn [cadence_valid] in V; simplify_eq; conjuncts V; done.
Qed.

Section nearest.
Context (ZoneInfo : string → Zone) (zone_known : string → bool) (c : Cadence) (r : datetime).
Hypothesis valid : cadence_valid zone_known c = true.
Hypothesis zones : ∀ t z, civil_part c = Some (t, z) → orderly (ZoneInfo z).

Definition nearest (s : Z) (keep : datetime → bool) (o : option datetime) : Prop :=
  match o with
  | Some x => occurs ZoneInfo c x ∧ keep x = true ∧ ∀ x', occurs ZoneInfo c x' → keep x' = true → s * x <= s * x'
  | None => ∀ x', occurs ZoneInfo c x' → keep x' = false
  end.
Definition heading (s : Z) (keep : datetime → bool) : Prop := s = 1 ∧ keep = after r ∨ s = -1 ∧ keep = until r.
Lemma civil_nearest s keep t z o :
  civil_part c = Some (t, z) →
  match o with
  | Some x => (∃ d, on_date (ZoneInfo z) t (selected c) d x) ∧ keep x = true ∧
      ∀ d' x', on_date (ZoneInfo z) t (selected c) d' x' → keep x' = true → s * x <= s * x'
  | None => ∀ d' x', on_date (ZoneInfo z) t (selected c) d' x' → keep x' = false
  end → nearest s keep o.
Proof.
  intros Hc. pose proof (λ x, occurs_civil ZoneInfo c t z x Hc) as Ho. unfold nearest. destruct o as [x|].
  - intros (Hx & Hk & Hmin). split; [by apply Ho|]. split; [done|]. intros x' (d' & Hd')%Ho. by apply (Hmin d').
  - intros H x' (d' & Hd')%Ho. by apply (H d').
Qed.
Lemma civil_time t z : civil_part c = Some (t, z) → _validate_local_time t = true.
Proof. exact (valid_time zone_known c t z valid). Qed.

Lemma day_search days t z s keep o :
  civil_part c = Some (t, z) → window c days → heading s keep →
  (local ← astimezone (ZoneInfo z) r;
   for_offsets days 0 (λ k, day_attempt c (ZoneInfo z) t keep (date_part local + s * k))) = Ok o →
  nearest s keep o.
Proof.
  intros Hc Hw Hh. unfold mbind, result_bind. destruct (astimezone (ZoneInfo z) r) as [local|] eqn:E; [|done].
  apply astimezone_Ok in E as [-> Hr]. fold (today (ZoneInfo z) r). intros H.
  apply (civil_nearest s keep t z); [done|].
  revert H. apply (search_exact (ZoneInfo z) t (selected c) r (civil_time t z Hc) (zones t z Hc) s keep Hh (λ d, d)
    (day_attempt c (ZoneInfo z) t keep) days); [done|done| | | |].
  - intros i x [Hi Ha]%day_attempt_Ok. rewrite (window_matches c days) in Ha by done.
    destruct (selected c i) eqn:Es; [|done]. destruct Ha as (y & Hy & Ha). destruct (keep y) eqn:K; [|done].
    injection Ha as ->. exists i. split; [done|]. split; [by split|]. split; [done|].
    intros d' x' -> (_ & _ & Hx') _. assert (x' = y) by congruence. subst. lia.
  - intros i d [Hi Ha]%day_attempt_Ok -> Hs Hrange. rewrite (window_matches c days), Hs in Ha by done.
    destruct Ha as (y & Hy & Ha). exists y. split; [by split|]. by destruct (keep y).
  - intros i d _ [Hi Ha]%day_attempt_Ok _. destruct (_matches c i); [|done]. destruct Ha as (y & Hy & Ha).
    by destruct (keep y).
  - intros d Hs Hd. apply (window_dense c days s d); [done| |done|done]. destruct Hh as [[-> _]|[-> _]]; auto.
Qed.

Lemma month_search t days last_day zn s keep pick o :
  c = MonthlyCadence t days last_day zn →
  (s = 1 ∧ keep = after r ∧ pick = min_of ∨ s = -1 ∧ keep = until r ∧ pick = max_of) →
  (local ← astimezone (ZoneInfo zn) r;
   for_offsets 24 0 (λ k, period_attempt (ZoneInfo zn) t keep pick (month_at days last_day (date_part local) (s * k)))) = Ok o →
  nearest s keep o.
Proof.
  intros Ec Hh. assert (civil_part c = Some (t, zn)) as Hc by by rewrite Ec.
  assert (days_ok days) as Hd.
  { pose proof valid as V. rewrite Ec in V. cbn [cadence_valid] in V. conjuncts V. by apply days_valid. }
  unfold mbind, result_bind. destruct (astimezone (ZoneInfo zn) r) as [local|] eqn:E; [|done].
  apply astimezone_Ok in E as [-> Hr]. fold (today (ZoneInfo zn) r). intros H.
  apply (civil_nearest s keep t zn); [done|].
  rewrite (for_offsets_ext 24 0 _ (λ k, period_attempt (ZoneInfo zn) t keep pick
    (dates_of_month days last_day (month_index_of (today (ZoneInfo zn) r) + s * k)))) in H by (intros; by rewrite month_at_index).
  revert H. apply period_search; [by apply civil_time with zn|by apply (zones t)|done|apply month_index_mono|done| | |].
  - intros i l Hi d. unfold dates_of_month in Hi. destruct (_ || _) eqn:E; [done|]. injection Hi as <-.
    destruct (month_index_split i) as [Ei Hm]. rewrite (monthly_dates_elem t days last_day zn) by done. rewrite Ei, Ec.
    split; [|tauto]. intros [? <-]. split; [done|]. split; [done|]. apply month_range. lia.
  - intros i d Hi Hn Hrange. unfold dates_of_month in Hn. destruct (_ || _) eqn:E; [|done]. apply month_range in Hrange, Hr.
    destruct Hh as [[-> _]|[-> _]]; lia.
  - intros d Hs Hdist. destruct Hh as [[Es _]|[Es _]]; rewrite Ec in Hs |- *;
      apply (monthly_dense t days last_day zn s d); auto.
Qed.

Lemma year_search t dates zn s keep pick (bounded : Z → bool) o :
  c = YearlyCadence t dates zn →
  (s = 1 ∧ keep = after r ∧ pick = min_of ∧ bounded = (λ y, MAX_YEAR <? y) ∨
   s = -1 ∧ keep = until r ∧ pick = max_of ∧ bounded = (λ y, y <? 1)) →
  (local ← astimezone (ZoneInfo zn) r;
   for_offsets 10 0 (λ k, let y := year_of (date_part local) + s * k in
     period_attempt (ZoneInfo zn) t keep pick (if bounded y then None else Some (_yearly_dates dates y)))) = Ok o →
  nearest s keep o.
Proof.
  intros Ec Hh. assert (civil_part c = Some (t, zn)) as Hc by by rewrite Ec.
  assert (possible dates) as Hd.
  { pose proof valid as V. rewrite Ec in V. cbn [cadence_valid] in V. conjuncts V. by apply dates_valid. }
  unfold mbind, result_bind. destruct (astimezone (ZoneInfo zn) r) as [local|] eqn:E; [|done].
  apply astimezone_Ok in E as [-> Hr]. fold (today (ZoneInfo zn) r). intros H.
  apply (civil_nearest s keep t zn); [done|]. pose proof (proj1 (year_range _) Hr) as Hy.
  rewrite (for_offsets_ext 10 0 _ (λ k, period_attempt (ZoneInfo zn) t keep pick
    (dates_of_year dates (year_of (today (ZoneInfo zn) r) + s * k)))) in H.
  2: { intros k Hk. cbn zeta. f_equal. unfold dates_of_year.
       destruct Hh as [(-> & _ & _ & ->)|(-> & _ & _ & ->)];
         [rewrite (proj2 (Z.ltb_ge _ 1)) by lia|rewrite (proj2 (Z.ltb_ge MAX_YEAR _)) by lia; rewrite orb_false_r]; done. }
  revert H. apply period_search; [by apply civil_time with zn|by apply (zones t)| |apply year_mono|done| | |].
  - destruct Hh as [(? & ? & ? & _)|(? & ? & ? & _)]; auto.
  - intros i l Hi d. unfold dates_of_year in Hi. destruct (_ || _) eqn:E; [done|]. injection Hi as <-.
    rewrite (yearly_dates_elem t dates zn), Ec by done. split; [|tauto]. intros [? <-]. split; [done|]. split; [done|].
    apply year_range. lia.
  - intros i d Hi Hn Hrange. unfold dates_of_year in Hn. destruct (_ || _) eqn:E; [|done]. apply year_range in Hrange.
    destruct Hh as [[-> _]|[-> _]]; lia.
  - intros d Hs Hdist. destruct Hh as [[Es _]|[Es _]]; rewrite Ec in Hs |- *;
      apply (yearly_dense t dates zn s d); auto.
Qed.
End nearest.

Lemma result_bind_ext {A B} (m : result A) (f g : A → result B) : (∀ a, f a = g a) → (m ≫= f) = (m ≫= g).
Proof. unfold mbind, result_bind. destruct m; auto. Qed.
Lemma interval_index_spec n r : 1 <= n →
  _interval_index n r * minutes n <= r < (_interval_index n r + 1) * minutes n.
Proof.
  intros Hn. unfold _interval_index, _EPOCH, minutes. rewrite Z.sub_0_r.
  pose proof (Z.div_mod r (n * 60000000) ltac:(lia)). pose proof (Z.mod_pos_bound r (n * 60000000) ltac:(lia)). lia.
Qed.
Lemma interval_at_Ok n k x : _interval_at n k = Ok x → x = k * minutes n.
Proof. unfold _interval_at, checked_datetime, _EPOCH. by destruct (_ && _); intros [= <-]. Qed.
Lemma interval_valid zone_known n z : cadence_valid zone_known (IntervalCadence n z) = true → 1 <= n <= 1440.
Proof. cbn [cadence_valid]. intros V. conjuncts V. lia. Qed.

Lemma next_nearest ZoneInfo zone_known c r o :
  cadence_valid zone_known c = true → (∀ t z, civil_part c = Some (t, z) → orderly (ZoneInfo z)) →
  next_after ZoneInfo c r = Ok o → nearest ZoneInfo c 1 (after r) o.
Proof.
  intros V Hz. destruct c as [at_|t z|t w z|t days last z|t dates z|n z]; cbn [next_after]; intros H.
  - injection H as <-. unfold nearest, after. destruct (Z.ltb_spec r at_); cbn.
    + split; [done|]. split; [by apply Z.ltb_lt|]. by intros x' ->.
    + intros x' ->. by apply Z.ltb_ge.
  - apply (day_search ZoneInfo zone_known (DailyCadence t z) r V Hz 2 t z 1 (after r)); [done|done|by left|].
    rewrite <- H. unfold _next_day. apply result_bind_ext. intros local. apply for_offsets_ext. intros i _. f_equal. lia.
  - apply (day_search ZoneInfo zone_known (WeeklyCadence t w z) r V Hz 8 t z 1 (after r)); [done|done|by left|].
    rewrite <- H. unfold _next_day. apply result_bind_ext. intros local. apply for_offsets_ext. intros i _. f_equal. lia.
  - apply (month_search ZoneInfo zone_known (MonthlyCadence t days last z) r V Hz t days last z 1 (after r) min_of); [done|by left|].
    rewrite <- H. unfold _next_monthly. apply result_bind_ext. intros local. apply for_offsets_ext. intros i _. do 2 f_equal. lia.
  - apply (year_search ZoneInfo zone_known (YearlyCadence t dates z) r V Hz t dates z 1 (after r) min_of (λ y, MAX_YEAR <? y));
      [done|by left|].
    rewrite <- H. unfold _next_yearly. apply result_bind_ext. intros local. apply for_offsets_ext. intros i _. cbn zeta.
    by rewrite Z.mul_1_l.
  - apply interval_valid in V as [V _]. unfold mbind, result_bind in H. destruct (_interval_at _ _) as [x|] eqn:E; [|done].
    injection H as <-. apply interval_at_Ok in E as ->. pose proof (interval_index_spec n r V).
    unfold nearest, after. split; [by eexists|]. split; [apply Z.ltb_lt; lia|]. intros x' [k ->] Hk%Z.ltb_lt.
    assert (_interval_index n r + 1 <= k); unfold minutes in *; nia.
Qed.
Lemma latest_nearest ZoneInfo zone_known c r o :
  cadence_valid zone_known c = true → (∀ t z, civil_part c = Some (t, z) → orderly (ZoneInfo z)) →
  latest_at_or_before ZoneInfo c r = Ok o → nearest ZoneInfo c (-1) (until r) o.
Proof.
  intros V Hz. destruct c as [at_|t z|t w z|t days last z|t dates z|n z]; cbn [latest_at_or_before]; intros H.
  - injection H as <-. unfold nearest, until. destruct (Z.leb_spec at_ r); cbn.
    + split; [done|]. split; [by apply Z.leb_le|]. by intros x' ->.
    + intros x' ->. by apply Z.leb_gt.
  - apply (day_search ZoneInfo zone_known (DailyCadence t z) r V Hz 2 t z (-1) (until r)); [done|done|by right|].
    rewrite <- H. unfold _latest_day. apply result_bind_ext. intros local. apply for_offsets_ext. intros i _. f_equal; lia.
  - apply (day_search ZoneInfo zone_known (WeeklyCadence t w z) r V Hz 8 t z (-1) (until r)); [done|done|by right|].
    rewrite <- H. unfold _latest_day. apply result_bind_ext. intros local. apply for_offsets_ext. intros i _. f_equal; lia.
  - apply (month_search ZoneInfo zone_known (MonthlyCadence t days last z) r V Hz t days last z (-1) (until r) max_of); [done|by right|].
    rewrite <- H. unfold _latest_monthly. apply result_bind_ext. intros local. apply for_offsets_ext. intros i _. do 2 f_equal; lia.
  - apply (year_search ZoneInfo zone_known (YearlyCadence t dates z) r V Hz t dates z (-1) (until r) max_of (λ y, y <? 1));
      [done|by right|].
    rewrite <- H. unfold _latest_yearly. apply result_bind_ext. intros local. apply for_offsets_ext. intros i _. cbn zeta.
    by replace (year_of (date_part local) + -1 * i) with (year_of (date_part local) - i) by lia.
  - apply interval_valid in V as [V _]. unfold mbind, result_bind in H. destruct (_interval_at _ _) as [x|] eqn:E; [|done].
    injection H as <-. apply interval_at_Ok in E as ->. pose proof (interval_index_spec n r V).
    unfold nearest, until. split; [by eexists|]. split; [apply Z.leb_le; lia|]. intros x' [k ->] Hk%Z.leb_le.
    assert (k <= _interval_index n r); unfold minutes in *; nia.
Qed.

(** C19: A schedule misses nothing and fires nothing twice: the next instant of a cadence is
    the first of its instants after the reference, the latest one the last that is not
    after it, and there is none when the search answers none - across months without the
    day, leap years, and clocks set forward and back. *)
Theorem nearest_instants ZoneInfo zone_known c r :
  cadence_valid zone_known c = true → (∀ t z, civil_part c = Some (t, z) → orderly (ZoneInfo z)) →
  (∀ x, next_after ZoneInfo c r = Ok (Some x) →
     occurs ZoneInfo c x ∧ r < x ∧ ∀ x', occurs ZoneInfo c x' → r < x' → x <= x') ∧
  (next_after ZoneInfo c r = Ok None → ∀ x', occurs ZoneInfo c x' → x' <= r) ∧
  (∀ x, latest_at_or_before ZoneInfo c r = Ok (Some x) →
     occurs ZoneInfo c x ∧ x <= r ∧ ∀ x', occurs ZoneInfo c x' → x' <= r → x' <= x) ∧
  (latest_at_or_before ZoneInfo c r = Ok None → ∀ x', occurs ZoneInfo c x' → r < x').
Proof.
  intros V Hz. unfold after, until.
  split; [|split; [|split]].
  - intros x (Ho & Hk & Hmin)%(next_nearest _ zone_known); [|done..]. unfold after in *. split; [done|]. split; [by apply Z.ltb_lt|].
    intros x' Hx' Hr. specialize (Hmin x' Hx' (proj2 (Z.ltb_lt _ _) Hr)). lia.
  - intros Hn%(next_nearest _ zone_known) x' Hx'; [|done..]. specialize (Hn x' Hx'). unfold after in Hn. by apply Z.ltb_ge in Hn.
  - intros x (Ho & Hk & Hmin)%(latest_nearest _ zone_known); [|done..]. unfold until in *. split; [done|]. split; [by apply Z.leb_le|].
    intros x' Hx' Hr. specialize (Hmin x' Hx' (proj2 (Z.leb_le _ _) Hr)). lia.
  - intros Hn%(latest_nearest _ zone_known) x' Hx'; [|done..]. specialize (Hn x' Hx'). unfold until in Hn. by apply Z.leb_gt in Hn.
Qed.
