(* ===== verification/RecurrenceCount.v ===== *)
(** * Counting the instants of a cadence

    The closed forms of [count_between] against the reference: the list of the instants. *)
From S2P Require Import Prelude Calendar Recurrence RecurrenceSpec.

(** ** Sums *)
Lemma sum_cons x l : sum (x :: l) = x + sum l.
Proof. done. Qed.
Lemma sum_app a b : sum (a ++ b) = sum a + sum b.
Proof. induction a as [|x a IH]; [done|]. cbn [app]. rewrite !sum_cons, IH. lia. Qed.
Lemma count_true_app a b : count_true (a ++ b) = count_true a + count_true b.
Proof. unfold count_true. by rewrite map_app, sum_app. Qed.
Lemma count_true_filter {A} (f : A → bool) l : count_true (map f l) = Z.of_nat (length (List.filter f l)).
Proof.
  induction l as [|x l IH]; [done|]. cbn [map List.filter]. unfold count_true in *. cbn [map]. rewrite sum_cons, IH.
  destruct (f x); cbn [Z.b2z length]; lia.
Qed.
Lemma sum_map_add {A} (f g : A → Z) l : sum (map (λ x, f x + g x) l) = sum (map f l) + sum (map g l).
Proof. induction l as [|x l IH]; [done|]. cbn [map]. rewrite !sum_cons, IH. lia. Qed.
Lemma sum_map_ext {A} (f g : A → Z) l : (∀ x, x ∈ l → f x = g x) → sum (map f l) = sum (map g l).
Proof.
  induction l as [|x l IH]; intros H; [done|]. cbn [map]. rewrite !sum_cons, (H x), IH; [done| |by left].
  intros y Hy. apply H. by right.
Qed.
Lemma count_filter_split {A} (f : A → bool) l :
  Z.of_nat (length (List.filter f l)) = Z.of_nat (length l) - count_true (map (λ x, negb (f x)) l).
Proof.
  induction l as [|x l IH]; [done|]. cbn [map List.filter length]. unfold count_true in *. cbn [map]. rewrite sum_cons.
  destruct (f x); cbn [Z.b2z length negb]; lia.
Qed.

(** ** Increments of the closed forms *)
Lemma month_number_step start end_ m : 1 <= m <= 12 → start <= end_ + 1 →
  _count_month_number start (end_ + 1) m = _count_month_number start end_ m + Z.b2z ((end_ + 1) mod 12 + 1 =? m).
Proof.
  intros Hm Hs. unfold _count_month_number. set (first := start + (m - 1 - start) mod 12).
  assert (start <= first < start + 12 ∧ ∃ q, first = 12 * q + (m - 1)) as [Hf [q Eq]].
  { subst first. pose proof (Z.mod_pos_bound (m - 1 - start) 12). split; [lia|].
    exists (- ((m - 1 - start) / 12)). pose proof (Z.div_mod (m - 1 - start) 12). lia. }
  clearbody first. subst first. pose proof (Z.div_mod (end_ + 1) 12 ltac:(lia)) as De.
  pose proof (Z.mod_pos_bound (end_ + 1) 12 ltac:(lia)) as Be.
  set (e := (end_ + 1) / 12) in *. set (f := (end_ + 1) mod 12) in *. clearbody e f.
  assert (end_ = 12 * e + f - 1) as -> by lia.
  destruct (Z.eqb_spec (f + 1) m); cbn [Z.b2z];
    repeat match goal with |- context [?a <=? ?b] => destruct (Z.leb_spec a b) end;
    Z.to_euclidean_division_equations; lia.
Qed.
Lemma month_numbers_step start end_ ms : (∀ m, m ∈ ms → 1 <= m <= 12) → NoDup ms → start <= end_ + 1 →
  _count_month_numbers start (end_ + 1) ms =
  _count_month_numbers start end_ ms + Z.b2z (bool_decide ((end_ + 1) mod 12 + 1 ∈ ms)).
Proof.
  intros Hm Hn Hs. unfold _count_month_numbers.
  rewrite (sum_map_ext _ (λ m, _count_month_number start end_ m + Z.b2z ((end_ + 1) mod 12 + 1 =? m)));
    [|intros m Hin; apply month_number_step; [by apply Hm|done]].
  rewrite sum_map_add. f_equal. clear Hm. set (x := (end_ + 1) mod 12 + 1). clearbody x.
  induction Hn as [|m ms Hnin Hn IH]; [done|]. cbn. unfold sum in IH. rewrite IH.
  destruct (Z.eqb_spec x m) as [->|N].
  - rewrite (bool_decide_false (m ∈ ms)), bool_decide_true by (done || by left). done.
  - rewrite (bool_decide_ext (x ∈ m :: ms) (x ∈ ms)) by (rewrite elem_of_cons; tauto). done.
Qed.
Lemma leaps_step y : _leaps_through (y + 1) = _leaps_through y + Z.b2z (is_leap (y + 1)).
Proof.
  pose proof (leap_step (y + 1)) as H. unfold days_before_year in H. unfold _leaps_through.
  replace (y + 1 + 1 - 1) with (y + 1) in H by lia. replace (y + 1 - 1) with y in H by lia. lia.
Qed.
Lemma leap_years_step first last : first <= last + 1 →
  _count_leap_years first (last + 1) = _count_leap_years first last + Z.b2z (is_leap (last + 1)).
Proof.
  intros H. unfold _count_leap_years. rewrite leaps_step. rewrite (proj2 (Z.ltb_ge (last + 1) first)) by lia.
  destruct (Z.ltb_spec last first); [|lia]. replace (first - 1) with last by lia. lia.
Qed.
Lemma leap_februaries_step start end_ : start <= end_ + 1 →
  _count_leap_februaries start (end_ + 1) =
  _count_leap_februaries start end_ + Z.b2z (((end_ + 1) mod 12 + 1 =? 2) && is_leap ((end_ + 1) / 12 + 1)).
Proof.
  intros Hs. unfold _count_leap_februaries. set (first := start + (1 - start) mod 12).
  assert (start <= first < start + 12 ∧ ∃ q, first = 12 * q + 1) as [Hf [q Eq]].
  { subst first. pose proof (Z.mod_pos_bound (1 - start) 12). split; [lia|].
    exists (- ((1 - start) / 12)). pose proof (Z.div_mod (1 - start) 12). lia. }
  clearbody first. subst first. pose proof (Z.div_mod (end_ + 1) 12 ltac:(lia)) as De.
  pose proof (Z.mod_pos_bound (end_ + 1) 12 ltac:(lia)) as Be.
  set (e := (end_ + 1) / 12) in *. set (f := (end_ + 1) mod 12) in *. clearbody e f.
  assert ((12 * q + 1) / 12 = q) as -> by (Z.to_euclidean_division_equations; lia).
  destruct (Z.eqb_spec (f + 1) 2) as [E|N]; cbn [andb].
  - assert ((end_ + 1 - 1) mod 12 = 0) as E1 by (Z.to_euclidean_division_equations; lia).
    rewrite E1. replace ((end_ + 1 - 0) / 12) with e by (Z.to_euclidean_division_equations; lia).
    rewrite (proj2 (Z.ltb_ge (end_ + 1) _)) by lia.
    destruct (Z.ltb_spec end_ (12 * q + 1)).
    + assert (q = e) as -> by lia. rewrite leap_years_step by lia.
      assert (_count_leap_years (e + 1) e = 0) as -> by (unfold _count_leap_years; by rewrite (proj2 (Z.ltb_lt e (e + 1))) by lia).
      lia.
    + replace (end_ - (end_ - 1) mod 12) with (12 * (e - 1) + 1) by (Z.to_euclidean_division_equations; lia).
      replace ((12 * (e - 1) + 1) / 12 + 1) with e by (Z.to_euclidean_division_equations; lia).
      rewrite leap_years_step by lia. done.
  - rewrite Z.add_0_r. destruct (Z.ltb_spec (end_ + 1) (12 * q + 1)), (Z.ltb_spec end_ (12 * q + 1)); try lia.
    do 2 f_equal. Z.to_euclidean_division_equations; lia.
Qed.

(** ** The closed forms are the lengths of the lists *)
Lemma increments (F : Z → Z) (L : Z → list date) a b :
  F (a - 1) = 0 → (∀ i, a <= i + 1 → F (i + 1) = F i + Z.of_nat (length (L (i + 1)))) → a <= b + 1 →
  F b = Z.of_nat (length (concat (map L (seqZ a (b - a + 1))))).
Proof.
  intros H0 Hs Hab. replace b with (a + Z.of_nat (Z.to_nat (b - a + 1)) - 1) by lia.
  induction (Z.to_nat (b - a + 1)) as [|k IH].
  - rewrite Z.add_0_r, H0. by replace (a - 1 - a + 1) with 0 by lia.
  - replace (a + Z.of_nat (S k) - 1) with (a + Z.of_nat k - 1 + 1) by lia. rewrite Hs, IH by lia.
    replace (a + Z.of_nat k - 1 + 1 - a + 1) with (Z.of_nat (S k)) by lia. rewrite seqZ_S.
    replace (a + Z.of_nat k - 1 - a + 1) with (Z.of_nat k) by lia.
    rewrite map_app, concat_app, length_app. cbn [map concat]. rewrite app_nil_r.
    replace (a + Z.of_nat k - 1 + 1) with (a + Z.of_nat k) by lia. lia.
Qed.
Lemma remove_dups_NoDup {A} `{EqDecision A} (l : list A) : NoDup l → length (remove_dups l) = length l.
Proof.
  intros H. apply Permutation_length, NoDup_Permutation; [apply NoDup_remove_dups|done|]. intros x. apply elem_of_remove_dups.
Qed.
Lemma month_days_length days last_day y m : NoDup days →
  Z.of_nat (length (month_days days last_day y m)) =
  count_true (map (λ d, d <=? monthrange y m) days) + Z.b2z (last_day && negb (bool_decide (monthrange y m ∈ days))).
Proof.
  intros Hn. unfold month_days. rewrite (Permutation_length (merge_sort_Permutation _ _)), count_true_filter.
  rewrite (bool_decide_ext (monthrange y m ∈ remove_dups _) (monthrange y m ∈ days)).
  - destruct (last_day && _); cbn [length Z.b2z]; (rewrite remove_dups_NoDup by (by apply NoDup_List_filter)); lia.
  - rewrite elem_of_remove_dups, elem_List_filter, Z.leb_refl. tauto.
Qed.
Lemma month_days_NoDup days last_day y m : NoDup (month_days days last_day y m).
Proof.
  unfold month_days. rewrite merge_sort_Permutation. destruct (last_day && _) eqn:E; [|apply NoDup_remove_dups].
  apply andb_true_iff in E as [_ E%negb_true_iff]. apply bool_decide_eq_false in E. constructor; [done|apply NoDup_remove_dups].
Qed.
Definition month_list (days : list Z) (last_day : bool) (i : Z) : list date :=
  _monthly_dates days last_day (i / 12 + 1) (i mod 12 + 1).
Lemma has_day (days : list Z) k d : bool_decide (k ∈ d :: days) = (k =? d) || bool_decide (k ∈ days).
Proof. apply Bool.eq_iff_eq_true. rewrite orb_true_iff, !bool_decide_eq_true, Z.eqb_eq. set_solver. Qed.
Lemma one_step (days : list Z) (f g : Z → Z) r : (∀ d, d ∈ days → f d = g d + Z.b2z (d <=? r)) →
  sum (map f days) = sum (map g days) + count_true (map (λ d, d <=? r) days).
Proof.
  intros H. rewrite (sum_map_ext f (λ d, g d + Z.b2z (d <=? r))) by done. rewrite sum_map_add.
  unfold count_true. by rewrite map_map.
Qed.
(** The days of a month beyond the 28th, by the sets of the months. *)
Lemma month_reaches y m : 1 <= m <= 12 →
  (29 <=? monthrange y m) = negb ((m =? 2) && negb (is_leap y)) ∧
  (30 <=? monthrange y m) = negb (m =? 2) ∧
  (31 <=? monthrange y m) = bool_decide (m ∈ [1; 3; 5; 7; 8; 10; 12]).
Proof. intros Hm. unfold monthrange. each_month m; destruct (is_leap y); by vm_compute. Qed.
Lemma month_last y m : 1 <= m <= 12 →
  monthrange y m =
  if m =? 2 then if is_leap y then 29 else 28 else if bool_decide (m ∈ [4; 6; 9; 11]) then 30 else 31.
Proof. intros Hm. unfold monthrange. each_month m; destruct (is_leap y); by vm_compute. Qed.
Lemma month_kinds m : 1 <= m <= 12 →
  bool_decide (m ∈ [2]) = (m =? 2) ∧
  bool_decide (m ∈ [1; 3; 5; 7; 8; 10; 12]) = negb ((m =? 2) || bool_decide (m ∈ [4; 6; 9; 11])) ∧
  (m = 2 → bool_decide (m ∈ [4; 6; 9; 11]) = false).
Proof. intros Hm. each_month m; (split; [|split]; [by vm_compute..|]); (by vm_compute) || (intros; lia). Qed.
Lemma count_months_step days last_day a b : days_ok days → NoDup days → a <= b + 1 →
  count_months days last_day a (b + 1) =
  count_months days last_day a b + Z.of_nat (length (month_list days last_day (b + 1))).
Proof.
  intros Hd Hn Hab. unfold month_list, _monthly_dates. rewrite length_map, month_days_length by done.
  unfold count_months. cbn zeta. rewrite !month_numbers_step, leap_februaries_step by
    (done || (intros k Hk; set_solver by lia) || (apply (bool_decide_eq_true _); reflexivity)).
  set (m := (b + 1) mod 12 + 1). set (y := (b + 1) / 12 + 1).
  pose proof (Z.mod_pos_bound (b + 1) 12 ltac:(lia)) as Hb. assert (1 <= m <= 12) as Hm by (subst m; lia). clearbody m y. clear Hb.
  generalize (_count_month_numbers a b [2]), (_count_leap_februaries a b), (_count_month_numbers a b [4; 6; 9; 11]),
    (_count_month_numbers a b [1; 3; 5; 7; 8; 10; 12]). intros n2 nl n30 n31.
  destruct (month_kinds m Hm) as (-> & K31 & K2). destruct (month_reaches y m Hm) as (R29 & R30 & R31). rewrite K31 in *.
  pose proof (monthrange_bounds y m) as Hr.
  rewrite (one_step days _ (λ day, if day <=? 28 then b - a + 1
    else if day =? 29 then b - a + 1 - (n2 - nl) else if day =? 30 then b - a + 1 - n2 else n31) (monthrange y m)).
  - destruct last_day; cbn [andb Z.b2z]; [|lia]. rewrite (month_last y m Hm).
    destruct (Z.eqb_spec m 2) as [E|N]; [rewrite K2 by done|]; cbn [orb andb];
      destruct (is_leap y), (bool_decide (m ∈ [4; 6; 9; 11])); cbn [orb andb negb];
      destruct (bool_decide (28 ∈ days)), (bool_decide (29 ∈ days)),
        (bool_decide (30 ∈ days)), (bool_decide (31 ∈ days)); cbn [Z.b2z negb]; lia.
  - intros d Hin%Hd. destruct (Z.leb_spec d 28); [rewrite (proj2 (Z.leb_le d (monthrange y m))) by lia; cbn [Z.b2z negb andb]; lia|].
    destruct (Z.eqb_spec d 29) as [->|]; [|destruct (Z.eqb_spec d 30) as [->|]; [|replace d with 31 by lia]].
    + rewrite R29. destruct (m =? 2), (is_leap y); cbn [Z.b2z negb andb]; lia.
    + rewrite R30. destruct (m =? 2); cbn [Z.b2z negb andb]; lia.
    + by rewrite R31.
Qed.
Lemma count_months_length days last_day a b : days_ok days → NoDup days → a <= b + 1 →
  count_months days last_day a b = Z.of_nat (length (concat (map (month_list days last_day) (seqZ a (b - a + 1))))).
Proof.
  intros Hd Hn Hab. apply (increments (count_months days last_day a)); [|intros; by apply count_months_step|done].
  unfold count_months.
  assert (∀ m, _count_month_number a (a - 1) m = 0) as H0.
  { intros m. unfold _count_month_number. pose proof (Z.mod_pos_bound (m - 1 - a) 12 ltac:(lia)).
    by rewrite (proj2 (Z.leb_gt (a + (m - 1 - a) mod 12) (a - 1))) by lia. }
  assert (∀ ms, _count_month_numbers a (a - 1) ms = 0) as H1.
  { intros ms. unfold _count_month_numbers. induction ms as [|m ms IH]; [done|]. cbn [map]. by rewrite sum_cons, H0, IH. }
  assert (_count_leap_februaries a (a - 1) = 0) as H2.
  { unfold _count_leap_februaries. pose proof (Z.mod_pos_bound (1 - a) 12 ltac:(lia)).
    by rewrite (proj2 (Z.ltb_lt (a - 1) (a + (1 - a) mod 12))) by lia. }
  rewrite !H1, H2. replace (a - 1 - a + 1) with 0 by lia.
  rewrite (sum_map_ext _ (λ _, 0)) by (intros d _; by repeat case_match).
  assert (sum (map (λ _, 0) days) = 0) as -> by (clear; induction days as [|d days IH]; [done|]; cbn [map]; by rewrite sum_cons, IH).
  destruct last_day; [|done]. by repeat case_match.
Qed.
Lemma count_years_length dates a b : possible dates → a <= b + 1 →
  count_years dates a b = Z.of_nat (length (concat (map (_yearly_dates dates) (seqZ a (b - a + 1))))).
Proof.
  intros Hp Hab. apply (increments (count_years dates a)); [| |done].
  - unfold count_years, _count_leap_years. rewrite (proj2 (Z.ltb_lt (a - 1) a)) by lia.
    replace (a - 1 - a + 1) with 0 by lia. rewrite (sum_map_ext _ (λ _, 0)) by (intros x _; by case_match).
    clear. induction dates as [|x dates IH]; [done|]. cbn [map]. by rewrite sum_cons, IH.
  - intros i Hi. unfold _yearly_dates. rewrite length_map, <- count_true_filter. unfold count_true. rewrite map_map.
    unfold count_years. rewrite leap_years_step by done. rewrite <- sum_map_add. apply sum_map_ext.
    intros x Hx. destruct (Hp x Hx) as [Hm Hd]. pose proof (monthrange_leap (i + 1) (md_month x)) as E.
    destruct (Z.eqb_spec (md_month x) 2) as [E2|N2], (Z.eqb_spec (md_day x) 29) as [E29|N29]; cbn [andb];
      try (rewrite (proj2 (Z.leb_le (md_day x) (monthrange (i + 1) (md_month x)))); cbn [Z.b2z]; lia).
    + rewrite E29, E, E2. change (monthrange 2000 2) with 29.
      destruct (is_leap (i + 1)); cbn [Z.b2z]; [|]; try (by rewrite Z.add_0_r); lia.
    + rewrite E2 in *. change (monthrange 2000 2) with 29 in *.
      rewrite (proj2 (Z.leb_le (md_day x) (monthrange (i + 1) 2))) by (destruct (is_leap (i + 1)); cbn [Z.b2z] in E; lia).
      cbn [Z.b2z]. lia.
Qed.

(** *** Weeks *)
Definition on_weekdays (w : list Z) (d : date) : bool := bool_decide (isoweekday d ∈ w).
Definition in_week (w : list Z) (d : date) : Z :=
  count_true (map (λ k, on_weekdays w (d + k)) [0; 1; 2; 3; 4; 5; 6]).
(** Every seven days meet each weekday once. *)
Lemma week_total w d : (∀ k, k ∈ w → 1 <= k <= 7) → NoDup w → in_week w d = Z.of_nat (length w).
Proof.
  intros Hw Hn. induction Hn as [|k w Hk Hn IH].
  - unfold in_week, on_weekdays. cbn. done.
  - assert (in_week (k :: w) d = 1 + in_week w d) as ->; [|rewrite IH by (intros; apply Hw; by right); cbn [length]; lia].
    assert (1 <= k <= 7) as Hb by (apply Hw; by left). clear IH Hw Hn.
    unfold in_week, count_true. rewrite !map_map.
    rewrite (sum_map_ext _ (λ j, Z.b2z (isoweekday (d + j) =? k) + Z.b2z (on_weekdays w (d + j)))).
    + rewrite sum_map_add. f_equal. unfold isoweekday. cbn [map sum foldr].
      pose proof (Z.mod_pos_bound (d + 3) 7 ltac:(lia)). pose proof (Z.div_mod (d + 3) 7 ltac:(lia)) as E.
      set (q := (d + 3) / 7) in *. set (m := (d + 3) mod 7) in *.
      assert (∀ j, (d + j + 3) mod 7 = (m + j) mod 7) as Hj.
      { intros j. replace (d + j + 3) with (m + j + q * 7) by lia. apply Z.mod_add. lia. }
      rewrite !Hj. clearbody m. clear E.
      assert (m = 0 ∨ m = 1 ∨ m = 2 ∨ m = 3 ∨ m = 4 ∨ m = 5 ∨ m = 6) as Hm by lia.
      assert (k = 1 ∨ k = 2 ∨ k = 3 ∨ k = 4 ∨ k = 5 ∨ k = 6 ∨ k = 7) as Hk' by lia.
      clear -Hm Hk'. destruct_or!; subst; done.
    + intros j _. unfold on_weekdays. rewrite has_day.
      destruct (Z.eqb_spec (isoweekday (d + j)) k) as [E|N]; cbn [orb Z.b2z]; [|done].
      by rewrite bool_decide_false by by rewrite E.
Qed.
Lemma week_tail w d n :
  count_true (map (λ k, bool_decide (isoweekday (d + Z.of_nat k) ∈ w)) (seq 0 (Z.to_nat n))) =
  count_true (map (on_weekdays w) (seqZ d n)).
Proof.
  unfold seqZ. rewrite map_map. f_equal. apply map_ext. intros k. unfold on_weekdays. by rewrite (Z.add_comm d).
Qed.
Lemma week_shift w d n : count_true (map (on_weekdays w) (seqZ (d + 7) n)) = count_true (map (on_weekdays w) (seqZ d n)).
Proof.
  unfold seqZ. rewrite !map_map. f_equal. apply map_ext. intros k. unfold on_weekdays.
  replace (Z.of_nat k + (d + 7)) with (Z.of_nat k + d + 7 * 1) by lia. by rewrite shifted_week.
Qed.
Lemma count_weekly_length w d n : (∀ k, k ∈ w → 1 <= k <= 7) → NoDup w → 0 <= n →
  count_weekly w d n = Z.of_nat (length (List.filter (on_weekdays w) (seqZ d n))).
Proof.
  intros Hw Hn H0. unfold count_weekly. cbv beta zeta. rewrite week_tail, <- count_true_filter.
  pose proof (Z.div_mod n 7 ltac:(lia)) as En. pose proof (Z.mod_pos_bound n 7 ltac:(lia)) as Hr.
  set (r := n mod 7) in *. pose proof (Z.div_pos n 7 H0 ltac:(lia)) as Hq. set (q := n / 7) in *. clearbody r q. subst n. clear H0.
  rewrite <- (Z2Nat.id q Hq). clear Hq. revert d. induction (Z.to_nat q) as [|k IH]; intros d; [by rewrite Z.mul_0_r|].
  replace (7 * Z.of_nat (S k) + r) with (7 + (7 * Z.of_nat k + r)) by lia. rewrite seqZ_app by lia.
  rewrite map_app, count_true_app, week_shift, <- IH. pose proof (week_total w d Hw Hn) as E. unfold in_week in E.
  replace (map (on_weekdays w) (seqZ d 7)) with (map (λ k, on_weekdays w (d + k)) [0; 1; 2; 3; 4; 5; 6]).
  - rewrite E. lia.
  - change (seqZ d 7) with (map (λ i, Z.of_nat i + d) [0; 1; 2; 3; 4; 5; 6]%nat). cbn [map].
    repeat (f_equal; [by rewrite Z.add_comm|]). by rewrite Z.add_comm.
Qed.

(** ** From dates to instants *)
Lemma Forall2_NoDup {A B} (R : A → B → Prop) l l' :
  Forall2 R l l' → NoDup l → (∀ a a' b, R a b → R a' b → a = a') → NoDup l'.
Proof.
  intros H Hn Hinj. induction H as [|a b l l' Hab H IH]; [constructor|]. apply NoDup_cons in Hn as [Ha Hn].
  constructor; [|by apply IH]. intros Hb. apply list_elem_of_lookup in Hb as [j Hb].
  destruct (Forall2_lookup_r _ _ _ _ _ H Hb) as (a' & Ha' & Hab'). apply Ha.
  rewrite (Hinj a a' b Hab Hab'). by eapply list_elem_of_lookup_2.
Qed.
Definition inside (first last t : datetime) : bool := negb (outside first last t).
Lemma inside_iff first last t : inside first last t = true ↔ first <= t <= last.
Proof. unfold inside, outside. destruct (Z.ltb_spec t first), (Z.ltb_spec last t); cbn; (split; [done || lia|lia || done]). Qed.
Lemma outside_inside first last t : outside first last t = false ↔ first <= t <= last.
Proof. rewrite <- inside_iff. unfold inside. by destruct (outside first last t). Qed.

Section instants.
Context (z : Zone) (t : Z) (sel : date → bool) (first last : datetime).
Hypothesis (Ht : _validate_local_time t = true) (Hz : orderly z).
Abbreviation resolves := (λ d x, _resolve_civil z t d = Ok x).
(** The instants of a period: those of its dates, less those outside. *)
Lemma instants_of_dates D xs :
  Forall2 resolves D xs → NoDup D → (∀ d, d ∈ D → sel d = true ∧ MIN_DATE <= d <= MAX_DATE) →
  (∀ d x, on_date z t sel d x → first <= x <= last → d ∈ D) →
  ∃ l, NoDup l ∧ (∀ x, x ∈ l ↔ (∃ d, on_date z t sel d x) ∧ first <= x <= last) ∧
    Z.of_nat (length D) - count_true (map (outside first last) xs) = Z.of_nat (length l).
Proof.
  intros Hxs Hn Hin Hall. exists (List.filter (inside first last) xs). split; [|split].
  - apply NoDup_List_filter, (Forall2_NoDup _ _ _ Hxs Hn). intros a a' b Ha Hb.
    apply (resolved_date z t) in Ha, Hb; [|done..]. congruence.
  - intros x. rewrite elem_List_filter, inside_iff. split.
    + intros [[j Hx]%list_elem_of_lookup Hr]. split; [|done].
      destruct (Forall2_lookup_r _ _ _ _ _ Hxs Hx) as (d & Hd & Hdx). exists d.
      apply list_elem_of_lookup_2, Hin in Hd as [Hs Hr']. by split.
    + intros [(d & Hd) Hr]. split; [|done]. pose proof (Hall d x Hd Hr) as [j Hj]%list_elem_of_lookup.
      destruct (Forall2_lookup_l _ _ _ _ _ Hxs Hj) as (x' & Hx' & Hdx).
      destruct Hd as (_ & _ & Hd). assert (x = x') as -> by congruence. by eapply list_elem_of_lookup_2.
  - rewrite count_filter_split. rewrite (Forall2_length _ _ _ Hxs). f_equal. f_equal. apply map_ext.
    intros x. unfold inside. by rewrite negb_involutive.
Qed.

(** The reference: the instants of the cadence from [first] to [last], listed once each. *)
Definition number_of_instants (n : Z) : Prop :=
  ∃ l, NoDup l ∧ (∀ x, x ∈ l ↔ (∃ d, on_date z t sel d x) ∧ first <= x <= last) ∧ n = Z.of_nat (length l).
(** Every selected date between the dates of the ends has an instant. *)
Definition between_resolve : Prop :=
  ∀ d, sel d = true → today z first <= d <= today z last → ∃ x, _resolve_civil z t d = Ok x.
Hypothesis (Hresolve : between_resolve) (Hle : first <= last).
Hypothesis first_ok : MIN_DATE <= today z first <= MAX_DATE.
Hypothesis last_ok : MIN_DATE <= today z last <= MAX_DATE.
Lemma today_le : today z first <= today z last.
Proof. by apply Hz. Qed.
Lemma on_between d x : on_date z t sel d x → first <= x <= last → today z first <= d <= today z last.
Proof.
  intros Ho Hx. split.
  - destruct (Z.le_gt_cases (today z first) d) as [|L]; [done|]. pose proof (on_before z t sel first Ht Hz d x Ho L). lia.
  - destruct (Z.le_gt_cases d (today z last)) as [|L]; [done|]. pose proof (on_after z t sel last Ht Hz d x Ho L). lia.
Qed.
Lemma resolve_all D : (∀ d, d ∈ D → ∃ x, _resolve_civil z t d = Ok x) → ∃ xs, Forall2 resolves D xs.
Proof.
  induction D as [|d D IH]; intros H; [by exists []|].
  destruct (H d) as [x Hx]; [by left|]. destruct IH as [xs Hxs]; [intros; apply H; by right|]. exists (x :: xs). by constructor.
Qed.
Lemma none_outside D xs : Forall2 resolves D xs → (∀ d x, d ∈ D → resolves d x → first <= x <= last) →
  count_true (map (outside first last) xs) = 0.
Proof.
  induction 1 as [|d x D xs Hd H IH]; intros Hin; [done|]. cbn [map]. unfold count_true. cbn [map]. rewrite sum_cons.
  rewrite (proj2 (outside_inside first last x)) by (apply (Hin d); [by left|done]).
  unfold count_true in IH. rewrite IH; [done|]. intros. eapply Hin; [by right|done].
Qed.
(** Strictly between the periods of the ends, everything is inside. *)
Lemma strictly_inside d x : sel d = true → resolves d x →
  today z first < d < today z last → first <= x <= last.
Proof.
  intros Hs Hx Hd. assert (on_date z t sel d x) as Ho by (split; [done|]; split; [lia|done]).
  pose proof (on_after z t sel first Ht Hz d x Ho). pose proof (on_before z t sel last Ht Hz d x Ho). lia.
Qed.

(** Days, between two instants of the cadence. *)
Lemma count_days :
  (∃ d, on_date z t sel d first) → (∃ d, on_date z t sel d last) →
  number_of_instants (Z.of_nat (length (List.filter sel (seqZ (today z first) (today z last - today z first + 1))))).
Proof.
  intros [d1 H1] [d2 H2]. pose proof today_le.
  assert (d1 = today z first) as -> by (symmetry; apply (resolved_date z t); [done|apply H1]).
  assert (d2 = today z last) as -> by (symmetry; apply (resolved_date z t); [done|apply H2]).
  set (D := List.filter sel _).
  assert (∀ d, d ∈ D ↔ sel d = true ∧ today z first <= d <= today z last) as HD.
  { intros d. subst D. rewrite elem_List_filter, elem_of_seqZ. lia. }
  destruct (resolve_all D) as [xs Hxs]; [intros d [Hs Hd]%HD; by apply Hresolve|].
  destruct (instants_of_dates D xs Hxs) as (l & Hl & Hin & En).
  - apply NoDup_List_filter, NoDup_seqZ.
  - intros d [Hs Hd]%HD. split; [done|]. lia.
  - intros d x Ho Hx. apply HD. split; [apply Ho|]. by apply (on_between d x).
  - exists l. split; [done|]. split; [done|]. rewrite <- En.
    rewrite (none_outside D xs Hxs); [lia|]. intros d x [Hs Hd]%HD Hr.
    destruct (decide (d = today z first)) as [->|]; [|destruct (decide (d = today z last)) as [->|]; [|apply (strictly_inside d); [done..|lia]]].
    + destruct H1 as (_ & _ & H1). assert (x = first) as -> by congruence. lia.
    + destruct H2 as (_ & _ & H2). assert (x = last) as -> by congruence. lia.
Qed.

(** Periods: the dates of all of them, less the instants of the first and the last period
    that lie outside. *)
Context (P : date → Z) (L : Z → list date).
Hypothesis P_mono : ∀ a b, a <= b → P a <= P b.
Abbreviation a := (P (today z first)).
Abbreviation b := (P (today z last)).
Hypothesis L_elem : ∀ i d, a <= i <= b → d ∈ L i ↔ sel d = true ∧ P d = i.
Hypothesis L_NoDup : ∀ i, NoDup (L i).
Hypothesis L_range : ∀ d, a <= P d <= b → MIN_DATE <= d <= MAX_DATE.
Definition all_dates : list date := concat (map L (seqZ a (b - a + 1))).
Lemma a_le_b : a <= b.
Proof. apply P_mono, today_le. Qed.
Lemma all_dates_elem d : d ∈ all_dates ↔ sel d = true ∧ a <= P d <= b.
Proof.
  unfold all_dates. rewrite elem_concat_map. split.
  - intros (i & Hi%elem_of_seqZ & Hd). apply L_elem in Hd; [|lia]. destruct Hd as [? <-]. split; [done|lia].
  - intros [Hs Hd]. exists (P d). rewrite elem_of_seqZ. split; [lia|by apply L_elem].
Qed.
Lemma all_dates_NoDup : NoDup all_dates.
Proof.
  unfold all_dates.
  assert (∀ i, i ∈ seqZ a (b - a + 1) → a <= i <= b) as Hi by (intros i Hi%elem_of_seqZ; lia).
  pose proof (NoDup_seqZ a (b - a + 1)) as Hn. induction Hn as [|i js Hnin Hn IH]; [constructor|]. cbn [map concat].
  apply NoDup_app. split; [done|]. split; [|apply IH; intros; apply Hi; by right].
  intros d Hd Hd'. apply L_elem in Hd; [|apply Hi; by left]. destruct Hd as [_ Ed].
  apply elem_concat_map in Hd' as (j & Hj & Hd'). apply L_elem in Hd'; [|apply Hi; by right]. destruct Hd' as [_ Ed'].
  apply Hnin. congruence.
Qed.
Lemma period_spread : a < b → all_dates = (L a ++ concat (map L (seqZ (a + 1) (b - a - 1))) ++ L b)%list.
Proof.
  intros H. unfold all_dates. replace (b - a + 1) with (1 + (b - a - 1 + 1)) by lia. rewrite !seqZ_app by lia.
  rewrite !map_app, !concat_app. replace (a + 1 + (b - a - 1)) with b by lia.
  change (seqZ a 1) with [Z.of_nat 0 + a]. change (seqZ b 1) with [Z.of_nat 0 + b]. cbn [map concat]. by rewrite !app_nil_r, !Z.add_0_l.
Qed.
Lemma resolved_alike D xs ys : Forall2 resolves D xs → Forall2 resolves D ys → xs = ys.
Proof.
  intros H. revert ys. induction H as [|d x D xs Hd H IH]; intros ys Hys; inversion Hys as [|? y ? ys' Hy Hys']; subst; [done|].
  f_equal; [congruence|by apply IH].
Qed.
Lemma boundary_elem i : i ∈ boundary a b ↔ i = a ∨ i = b.
Proof. unfold boundary. destruct (Z.eqb_spec a b) as [->|]; set_solver. Qed.
Lemma boundary_outside D xs ys :
  D = all_dates → Forall2 resolves D xs → Forall2 resolves (concat (map L (boundary a b))) ys →
  count_true (map (outside first last) xs) = count_true (map (outside first last) ys).
Proof.
  intros -> Hxs Hys. pose proof a_le_b. unfold boundary in Hys. destruct (Z.eqb_spec a b) as [E|N].
  - do 2 f_equal. apply (resolved_alike all_dates); [done|]. unfold all_dates. rewrite <- E.
    by replace (a - a + 1) with 1 by lia.
  - rewrite period_spread in Hxs by lia. cbn [map concat] in Hys. rewrite app_nil_r in Hys.
    apply Forall2_app_inv_l in Hxs as (x1 & x23 & H1 & (x2 & x3 & H2 & H3 & ->)%Forall2_app_inv_l & ->).
    apply Forall2_app_inv_l in Hys as (y1 & y3 & G1 & G3 & ->).
    rewrite !map_app, !count_true_app, (resolved_alike _ _ _ H1 G1), (resolved_alike _ _ _ H3 G3).
    rewrite (none_outside _ x2 H2); [lia|]. intros d x (i & Hi%elem_of_seqZ & Hd)%elem_concat_map Hr.
    apply L_elem in Hd; [|lia]. destruct Hd as [Hs <-]. apply (strictly_inside d x Hs Hr).
    split; [destruct (Z.lt_ge_cases (today z first) d) as [|G%P_mono]|destruct (Z.lt_ge_cases d (today z last)) as [|G%P_mono]]; lia.
Qed.
Lemma count_periods cs :
  mapM (_resolve_civil z t) (concat (map L (boundary a b))) = Ok cs →
  number_of_instants (Z.of_nat (length all_dates) - count_true (map (outside first last) cs)).
Proof.
  intros Hcs%mapM_Ok. pose proof a_le_b. destruct (resolve_all all_dates) as [xs Hxs].
  { intros d [Hs Hd]%all_dates_elem. destruct (decide (P d = a ∨ P d = b)) as [E|N].
    - assert (d ∈ concat (map L (boundary a b))) as [j Hj]%list_elem_of_lookup.
      { apply elem_concat_map. exists (P d). rewrite boundary_elem, L_elem by lia. done. }
      destruct (Forall2_lookup_l _ _ _ _ _ Hcs Hj) as (x & _ & Hx). by exists x.
    - apply Hresolve; [done|].
      split; [destruct (Z.lt_ge_cases (today z first) d) as [|G%P_mono]|destruct (Z.lt_ge_cases d (today z last)) as [|G%P_mono]]; lia. }
  rewrite <- (boundary_outside all_dates xs cs eq_refl Hxs Hcs).
  destruct (instants_of_dates all_dates xs Hxs all_dates_NoDup) as (l & Hl & Hin & En).
  - intros d [Hs Hd]%all_dates_elem. split; [done|by apply L_range].
  - intros d x Ho Hx. apply all_dates_elem. split; [apply Ho|]. destruct (on_between d x Ho Hx). split; by apply P_mono.
  - exists l. by rewrite En.
Qed.
End instants.

Lemma month_list_NoDup days last_day i : days_ok days → NoDup (month_list days last_day i).
Proof.
  intros Hd. unfold month_list, _monthly_dates. destruct (month_index_split i) as [_ Hm].
  apply NoDup_fmap_2_strong; [|apply month_days_NoDup]. intros d1 d2 H1 H2 E.
  assert (∀ d, d ∈ month_days days last_day (i / 12 + 1) (i mod 12 + 1) → 1 <= d <= monthrange (i / 12 + 1) (i mod 12 + 1)) as Hb.
  { intros d [[H%Hd ?]|[_ ->]]%month_days_elem; [lia|]. pose proof (monthrange_bounds (i / 12 + 1) (i mod 12 + 1)). lia. }
  destruct (civil_date _ _ _ Hm (Hb _ H1)) as (_ & _ & E1), (civil_date _ _ _ Hm (Hb _ H2)) as (_ & _ & E2).
  rewrite <- E1, <- E2. by rewrite E.
Qed.
Lemma yearly_dates_NoDup dates y : possible dates → NoDup dates → NoDup (_yearly_dates dates y).
Proof.
  intros Hp Hn. unfold _yearly_dates. apply NoDup_fmap_2_strong; [|by apply NoDup_List_filter]. intros x1 x2 H1 H2 E.
  apply elem_List_filter in H1 as [H1 L1%Z.leb_le], H2 as [H2 L2%Z.leb_le].
  destruct (Hp _ H1) as [M1 D1], (Hp _ H2) as [M2 D2].
  destruct (civil_date y _ (md_day x1) M1 ltac:(lia)) as (_ & A1 & B1), (civil_date y _ (md_day x2) M2 ltac:(lia)) as (_ & A2 & B2).
  rewrite E in A1, B1. destruct x1, x2. cbn in *. congruence.
Qed.

(** ** The count *)
Definition by_days (c : Cadence) : bool := match c with DailyCadence _ _ | WeeklyCadence _ _ _ => true | _ => false end.
Definition number_between (ZoneInfo : string → Zone) (c : Cadence) (first last : datetime) (n : Z) : Prop :=
  ∃ l, NoDup l ∧ (∀ x, x ∈ l ↔ occurs ZoneInfo c x ∧ first <= x <= last) ∧ n = Z.of_nat (length l).
Lemma civil_number ZoneInfo c t z first last n : civil_part c = Some (t, z) →
  number_of_instants (ZoneInfo z) t (selected c) first last n → number_between ZoneInfo c first last n.
Proof.
  intros Hc (l & Hl & Hin & En). exists l. split; [done|]. split; [|done]. intros x. rewrite (occurs_civil ZoneInfo c t z x Hc). apply Hin.
Qed.
Lemma interval_number ZoneInfo n z first last : 1 <= n → first <= last →
  number_between ZoneInfo (IntervalCadence n z) first last (_interval_index n last - _interval_index n (first - 1)).
Proof.
  intros Hn Hle. pose proof (interval_index_spec n last Hn). pose proof (interval_index_spec n (first - 1) Hn).
  set (i := _interval_index n (first - 1)) in *. set (j := _interval_index n last) in *. clearbody i j. unfold minutes in *.
  exists (map (λ k, k * (n * 60000000)) (seqZ (i + 1) (j - i))). split; [|split].
  - apply NoDup_fmap_2; [|apply NoDup_seqZ]. intros x y E. nia.
  - intros x. rewrite list_elem_of_fmap. cbn [occurs]. unfold minutes. setoid_rewrite elem_of_seqZ. split.
    + intros (k & -> & Hk). split; [by exists k|]. nia.
    + intros [[k ->] Hk]. exists k. split; [done|]. nia.
  - rewrite length_map, length_seqZ. assert (i <= j) by nia. lia.
Qed.

Lemma weekdays_valid w : weekdays_are_unique_iso_values w = true → (∀ k, k ∈ w → 1 <= k <= 7) ∧ NoDup w.
Proof.
  unfold weekdays_are_unique_iso_values. intros [[_ H]%andb_true_iff Hn%bool_decide_eq_true]%andb_true_iff. split; [|done].
  intros k Hk. rewrite forallb_forall in H. specialize (H k ltac:(by apply list_elem_of_In)). lia.
Qed.

Section exact.
Context (ZoneInfo : string → Zone) (zone_known : string → bool) (c : Cadence) (first last : datetime) (n : Z).
Hypothesis valid : cadence_valid zone_known c = true.
Hypothesis zones : ∀ t z, civil_part c = Some (t, z) → orderly (ZoneInfo z).
Hypothesis resolve : ∀ t z, civil_part c = Some (t, z) → between_resolve (ZoneInfo z) t (selected c) first last.
Hypothesis ends : by_days c = true → occurs ZoneInfo c first ∧ occurs ZoneInfo c last.
Hypothesis (Hle : first <= last).
Abbreviation exact := (number_between ZoneInfo c first last).

(** A civil cadence: its time is valid, and the dates of the ends are in the calendar. *)
Lemma civil_ends {A} t z (f : Z → Z → result A) r : civil_part c = Some (t, z) →
  (a ← astimezone (ZoneInfo z) first; b ← astimezone (ZoneInfo z) last; f a b) = Ok r →
  MIN_DATE <= today (ZoneInfo z) first <= MAX_DATE ∧ MIN_DATE <= today (ZoneInfo z) last <= MAX_DATE ∧
  _validate_local_time t = true ∧
  f (first + utcoffset (ZoneInfo z) first) (last + utcoffset (ZoneInfo z) last) = Ok r.
Proof.
  intros Hc. unfold mbind, result_bind. destruct (astimezone (ZoneInfo z) first) as [a|] eqn:Ea; [|done].
  destruct (astimezone (ZoneInfo z) last) as [b|] eqn:Eb; [|done].
  apply astimezone_Ok in Ea as [-> Ha], Eb as [-> Hb]. intros H.
  split; [done|]. split; [done|]. split; [|done]. exact (valid_time zone_known c t z valid Hc).
Qed.
Lemma day_count t z :
  civil_part c = Some (t, z) → by_days c = true →
  MIN_DATE <= today (ZoneInfo z) first <= MAX_DATE → MIN_DATE <= today (ZoneInfo z) last <= MAX_DATE →
  exact (Z.of_nat (length (List.filter (selected c) (seqZ (today (ZoneInfo z) first)
    (today (ZoneInfo z) last - today (ZoneInfo z) first + 1))))).
Proof.
  intros Hc Hd H1 H2. apply (civil_number ZoneInfo c t z); [done|]. destruct (ends Hd) as [E1 E2].
  apply (occurs_civil ZoneInfo c t z _ Hc) in E1, E2.
  apply count_days; eauto. exact (valid_time zone_known c t z valid Hc).
Qed.
Lemma monthly_exact t days last_day zn : c = MonthlyCadence t days last_day zn →
  _count_monthly t days last_day (ZoneInfo zn) first last = Ok n → exact n.
Proof.
  intros Ec H. assert (civil_part c = Some (t, zn)) as Hc by by rewrite Ec.
  assert (days_ok days ∧ NoDup days) as [Hd Hn].
  { pose proof valid as V. rewrite Ec in V. cbn [cadence_valid] in V. conjuncts V. by apply days_valid. }
  apply (civil_ends t zn _ n Hc) in H as (H1 & H2 & Ht & H). apply (civil_number ZoneInfo c t zn); [done|].
  unfold _outside_boundary_months in H. fold (today (ZoneInfo zn) first) (today (ZoneInfo zn) last) in H.
  assert (∃ cs, mapM (_resolve_civil (ZoneInfo zn) t) (concat (map (month_list days last_day)
      (boundary (month_index_of (today (ZoneInfo zn) first)) (month_index_of (today (ZoneInfo zn) last))))) = Ok cs ∧
      n = count_months days last_day (month_index_of (today (ZoneInfo zn) first)) (month_index_of (today (ZoneInfo zn) last)) -
          count_true (map (outside first last) cs)) as (cs & Hcs & ->).
  { revert H. unfold mbind, result_bind. destruct (astimezone (ZoneInfo zn) first) as [a|] eqn:Ea; [|done].
    destruct (astimezone (ZoneInfo zn) last) as [b|] eqn:Eb; [|done].
    apply astimezone_Ok in Ea as [-> _], Eb as [-> _]. cbv zeta. fold (today (ZoneInfo zn) first) (today (ZoneInfo zn) last).
    destruct (mapM _ _) as [cs|] eqn:E; [|done]. intros [= <-]. by exists cs. }
  pose proof (month_index_mono _ _ (today_le (ZoneInfo zn) first last (zones t zn Hc) Hle)) as Hab.
  rewrite count_months_length by (done || lia).
  apply (count_periods (ZoneInfo zn) t (selected c) first last Ht (zones t zn Hc) (resolve t zn Hc) Hle H1 H2 month_index_of
    (month_list days last_day) month_index_mono); [| |apply month_range in H1, H2; intros d Hd'; apply month_range; lia|done].
  - intros i d Hi. unfold month_list. destruct (month_index_split i) as [Ei Hm].
    rewrite (monthly_dates_elem t days last_day zn) by done. by rewrite Ei, Ec.
  - intros i. by apply month_list_NoDup.
Qed.
Lemma yearly_exact t dates zn : c = YearlyCadence t dates zn →
  _count_yearly t dates (ZoneInfo zn) first last = Ok n → exact n.
Proof.
  intros Ec H. assert (civil_part c = Some (t, zn)) as Hc by by rewrite Ec.
  assert (possible dates ∧ NoDup dates) as [Hd Hn].
  { pose proof valid as V. rewrite Ec in V. cbn [cadence_valid] in V. conjuncts V. split; [by apply dates_valid|].
    match goal with H : dates_are_unique _ = true |- _ => apply andb_true_iff in H as [_ H]; by apply bool_decide_eq_true in H end. }
  apply (civil_ends t zn _ n Hc) in H as (H1 & H2 & Ht & H). apply (civil_number ZoneInfo c t zn); [done|].
  fold (today (ZoneInfo zn) first) (today (ZoneInfo zn) last) in H. cbv zeta in H. unfold mbind, result_bind in H.
  destruct (mapM _ _) as [cs|] eqn:Hcs; [|done]. injection H as <-.
  pose proof (year_mono _ _ (today_le (ZoneInfo zn) first last (zones t zn Hc) Hle)) as Hab.
  rewrite count_years_length by (done || lia).
  apply (count_periods (ZoneInfo zn) t (selected c) first last Ht (zones t zn Hc) (resolve t zn Hc) Hle H1 H2 year_of
    (_yearly_dates dates) year_mono); [| |apply year_range in H1, H2; intros d Hd'; apply year_range; lia|done].
  - intros i d Hi. rewrite (yearly_dates_elem t dates zn) by done. by rewrite Ec.
  - intros i. by apply yearly_dates_NoDup.
Qed.
End exact.

(** C25: The number of runs a schedule reports as missed is the number of instants it had:
    counting arithmetic over months, leap years and weeks gives as many as there are
    instants of the cadence from the first to the last, both counted. Days and weeks are
    counted between two instants of the cadence, and every selected date between the ends
    has an instant (a date a clock skips entirely has none). *)
Theorem count_exact ZoneInfo zone_known c first last n :
  cadence_valid zone_known c = true → (∀ t z, civil_part c = Some (t, z) → orderly (ZoneInfo z)) →
  (∀ t z, civil_part c = Some (t, z) → between_resolve (ZoneInfo z) t (selected c) first last) →
  (by_days c = true → occurs ZoneInfo c first ∧ occurs ZoneInfo c last) →
  count_between ZoneInfo c first last = Ok n →
  ∃ l, NoDup l ∧ (∀ x, x ∈ l ↔ occurs ZoneInfo c x ∧ first <= x <= last) ∧ n = Z.of_nat (length l).
Proof.
  intros V Hz Hr He. unfold count_between. destruct (Z.ltb_spec last first) as [L|L].
  { intros [= <-]. exists []. split; [constructor|]. split; [|done]. intros x. split; [set_solver|lia]. }
  intros H. change (number_between ZoneInfo c first last n).
  destruct c as [at_|t z|t w z|t days last_day z|t dates z|k z].
  - injection H as <-. unfold number_between. cbn [occurs].
    destruct (Z.leb_spec first at_), (Z.leb_spec at_ last); cbn [andb Z.b2z];
      [exists [at_]; split; [apply NoDup_singleton|]; split; [|done];
       intros x; rewrite list_elem_of_singleton; split; [intros ->; lia|tauto]|..];
      (exists []; split; [constructor|]; split; [|done]; intros x; split; [set_solver|intros [-> ?]; lia]).
  - apply (civil_ends ZoneInfo zone_known _ first last V t z) in H as (H1 & H2 & _ & [= <-]); [|done].
    fold (today (ZoneInfo z) first) (today (ZoneInfo z) last).
    pose proof (day_count ZoneInfo zone_known _ first last V Hz Hr He L t z eq_refl eq_refl H1 H2) as D.
    cbn [selected] in D. rewrite List_filter_true, length_seqZ in D.
    pose proof (today_le (ZoneInfo z) first last (Hz t z eq_refl) L). rewrite Z2Nat.id in D by lia. done.
  - apply (civil_ends ZoneInfo zone_known _ first last V t z) in H as (H1 & H2 & _ & [= <-]); [|done].
    fold (today (ZoneInfo z) first) (today (ZoneInfo z) last).
    pose proof (today_le (ZoneInfo z) first last (Hz t z eq_refl) L).
    pose proof V as V'. cbn [cadence_valid] in V'. conjuncts V'. destruct (weekdays_valid w) as [W1 W2]; [done|].
    rewrite count_weekly_length by (done || lia).
    exact (day_count ZoneInfo zone_known (WeeklyCadence t w z) first last V Hz Hr He L t z eq_refl eq_refl H1 H2).
  - by apply (monthly_exact ZoneInfo zone_known _ first last n V Hz Hr He L t days last_day z).
  - by apply (yearly_exact ZoneInfo zone_known _ first last n V Hz Hr He L t dates z).
  - apply interval_valid in V. unfold checked_datetime, mbind, result_bind in H. destruct (_ && _); [|done].
    injection H as <-. apply interval_number; [lia|done].
Qed.
