(* ===== verification/RecurrenceWorld.v ===== *)
(** * A schedule always has a next instant; concrete zones

    Every cadence but a single instant has a next instant wherever the dates ahead have one,
    a clock that skips a whole evening has dates that do not, and concrete zones show the
    hypotheses of the recurrence theorems can hold. *)
From S2P Require Import Prelude Calendar Recurrence RecurrenceSpec RecurrenceCount.

(** ** A selected date comes soon *)
Lemma month_start_within i k : 0 <= k → month_start (i + k) <= month_start i + 31 * k.
Proof.
  intros H. rewrite <- (Z2Nat.id k H). clear H. induction (Z.to_nat k) as [|j IH]; [rewrite Z.add_0_r; lia|].
  replace (i + Z.of_nat (S j)) with (i + Z.of_nat j + 1) by lia. rewrite month_start_step. unfold month_length.
  pose proof (monthrange_bounds ((i + Z.of_nat j) / 12 + 1) ((i + Z.of_nat j) mod 12 + 1)). lia.
Qed.
Lemma first_day_within y k : 0 <= k → first_day (y + k) <= first_day y + 366 * k.
Proof.
  intros H. rewrite <- (Z2Nat.id k H). clear H. induction (Z.to_nat k) as [|j IH]; [rewrite Z.add_0_r; lia|].
  replace (y + Z.of_nat (S j)) with (y + Z.of_nat j + 1) by lia. rewrite first_day_step.
  destruct (is_leap (y + Z.of_nat j)); cbn [Z.b2z]; lia.
Qed.
Lemma month_near a d k : 0 <= k → 0 <= month_index_of d - month_index_of a <= k → -31 < d - a < 31 * (k + 1).
Proof.
  intros Hk H. pose proof (month_index_spec a) as Ha. pose proof (month_index_spec d) as Hd.
  pose proof (month_start_within (month_index_of a) (k + 1) ltac:(lia)).
  pose proof (month_start_le (month_index_of d + 1) (month_index_of a + (k + 1)) ltac:(lia)).
  pose proof (month_start_le (month_index_of a) (month_index_of d) ltac:(lia)).
  pose proof (month_start_within (month_index_of a) 1 ltac:(lia)). lia.
Qed.
Lemma first_day_le y y' : y <= y' → first_day y <= first_day y'.
Proof. intros H. destruct (decide (y = y')) as [->|]; [lia|]. pose proof (first_day_mono y y'). lia. Qed.
Lemma year_near a d k : 0 <= k → 0 <= year_of d - year_of a <= k → -366 < d - a < 366 * (k + 1).
Proof.
  intros Hk H. pose proof (year_of_spec a) as Ha. pose proof (year_of_spec d) as Hd.
  pose proof (first_day_within (year_of a) (k + 1) ltac:(lia)).
  pose proof (first_day_le (year_of d + 1) (year_of a + (k + 1)) ltac:(lia)).
  pose proof (first_day_le (year_of a) (year_of d) ltac:(lia)).
  pose proof (first_day_within (year_of a) 1 ltac:(lia)). lia.
Qed.
Definition HORIZON : Z := 3660.
Lemma some_selected zone_known c t z : cadence_valid zone_known c = true → civil_part c = Some (t, z) →
  ∃ d, selected c d = true.
Proof.
  intros V Hc. destruct c as [|t' z'|t' w z'|t' days last_day z'|t' dates z'|]; try done; cbn [cadence_valid] in V.
  - by exists 0.
  - conjuncts V. unfold weekdays_are_unique_iso_values in V1. conjuncts V1. destruct w as [|k w]; [done|].
    cbn [forallb] in V3. apply andb_true_iff in V3 as [Hk _]. exists (k - 4). cbn [selected].
    assert (isoweekday (k - 4) = k) as ->; [|apply bool_decide_eq_true; by left].
    unfold isoweekday. replace (k - 4 + 3) with (k - 1) by lia. rewrite Z.mod_small; lia.
  - conjuncts V. destruct (days_valid days V2) as [Hd _].
    assert (∃ k, 1 <= k <= 31 ∧ (k ∈ days ∨ last_day = true)) as (k & Hk & H).
    { destruct days as [|k days]; [|exists k; split; [apply Hd|left]; by left].
      exists 31. split; [lia|]. right. by destruct last_day. }
    destruct H as [Hin| ->].
    + exists (date_of 2000 1 k). destruct (civil_date 2000 1 k) as (E1 & E2 & E3); [lia|done|].
      cbn [selected]. by rewrite E3, bool_decide_true.
    + exists (date_of 2000 1 31). cbn [selected]. rewrite orb_true_iff. by right.
  - conjuncts V. apply andb_true_iff in V1 as [Hne _]. destruct dates as [|x dates]; [done|].
    pose proof (dates_valid (x :: dates) V2 x ltac:(by left)) as [Hm Hd].
    exists (date_of 2000 (md_month x) (md_day x)). destruct (civil_date 2000 _ _ Hm Hd) as (E1 & E2 & E3).
    cbn [selected]. rewrite E2, E3. apply bool_decide_eq_true. destruct x as [m d]. by left.
Qed.
Lemma selected_soon zone_known c t z a : cadence_valid zone_known c = true → civil_part c = Some (t, z) →
  ∃ d, selected c d = true ∧ 0 < d - a <= HORIZON.
Proof.
  intros V Hc. destruct (some_selected zone_known c t z V Hc) as [d Hs]. unfold HORIZON.
  destruct c as [|t' z'|t' w z'|t' days last_day z'|t' dates z'|]; try done.
  - exists (a + 1). split; [done|lia].
  - destruct (window_dense (WeeklyCadence t' w z') 8 1 (d + 7 * (8 + Z.abs (a - d))) a) as (d' & Hs' & Hd'); [done|by left| |lia|].
    + cbn [selected] in *. by rewrite shifted_week.
    + exists d'. split; [done|lia].
  - cbn [cadence_valid] in V. conjuncts V. destruct (days_valid days V2) as [Hd _].
    destruct (monthly_dense t' days last_day z' 1 d (month_index_of a) Hd ltac:(by left) Hs) as (d' & Hs' & Hd').
    exists d'. split; [done|]. pose proof (month_near a d' 23 ltac:(lia) ltac:(lia)).
    destruct (Z.lt_ge_cases a d') as [|L]; [lia|]. apply month_index_mono in L. lia.
  - cbn [cadence_valid] in V. conjuncts V.
    destruct (yearly_dense t' dates z' 1 d (year_of a) (dates_valid dates V2) ltac:(by left) Hs) as (d' & Hs' & Hd').
    exists d'. split; [done|]. pose proof (year_near a d' 9 ltac:(lia) ltac:(lia)).
    destruct (Z.lt_ge_cases a d') as [|L]; [lia|]. apply year_mono in L. lia.
Qed.

(** ** The search returns *)
Lemma for_offsets_total n k f : (∀ i, k <= i < k + Z.of_nat n → ∃ a, f i = Ok a) → ∃ o, for_offsets n k f = Ok o.
Proof.
  revert k. induction n as [|n IH]; intros k H; cbn [for_offsets]; [by eexists|].
  destruct (H k ltac:(lia)) as [a ->]. unfold mbind at 1, result_bind at 1. destruct a; eauto.
  apply IH. intros. apply H. lia.
Qed.
Lemma mapM_total {A B} (f : A → result B) l : (∀ a, a ∈ l → ∃ b, f a = Ok b) → ∃ bs, mapM f l = Ok bs.
Proof.
  induction l as [|a l IH]; intros H; cbn [mapM]; [by eexists|]. unfold mbind, result_bind in *.
  destruct (H a ltac:(by left)) as [b ->]. destruct IH as [bs ->]; [intros; apply H; by right|]. by eexists.
Qed.
Lemma period_attempt_total z t keep pick dates :
  (∀ l, dates = Some l → ∀ d, d ∈ l → ∃ x, _resolve_civil z t d = Ok x) →
  ∃ a, period_attempt z t keep pick dates = Ok a.
Proof.
  intros H. unfold period_attempt. destruct dates as [l|]; [|by eexists].
  destruct (mapM_total (_resolve_civil z t) l (H l eq_refl)) as [xs Hx].
  rewrite Hx. unfold mbind, result_bind. by eexists.
Qed.

Section live.
Context (ZoneInfo : string → Zone) (zone_known : string → bool) (c : Cadence) (r : datetime) (t : Z) (z : string).
Hypothesis valid : cadence_valid zone_known c = true.
Hypothesis civil : civil_part c = Some (t, z).
Hypothesis (Hz : orderly (ZoneInfo z)).
Abbreviation now := (today (ZoneInfo z) r).
Hypothesis in_calendar : MIN_DATE <= now - HORIZON ∧ now + HORIZON <= MAX_DATE.
Hypothesis near : ∀ d, now - HORIZON <= d <= now + HORIZON → ∃ x, _resolve_civil (ZoneInfo z) t d = Ok x.
Lemma local_now : astimezone (ZoneInfo z) r = Ok (r + utcoffset (ZoneInfo z) r).
Proof.
  unfold astimezone, checked_datetime. pose proof (date_part_bounds (r + utcoffset (ZoneInfo z) r)) as H.
  fold now in H. unfold HORIZON, DAY in *.
  assert (MIN_DATE * 86400000000 <= r + utcoffset (ZoneInfo z) r < (MAX_DATE + 1) * 86400000000) as Hr by lia.
  by rewrite (proj2 (Z.leb_le _ _)), (proj2 (Z.ltb_lt _ _)) by apply Hr.
Qed.
Lemma next_returns : ∃ o, next_after ZoneInfo c r = Ok o.
Proof.
  assert (∀ d, now <= d <= now + 10 → ∃ a, day_attempt c (ZoneInfo z) t (after r) d = Ok a) as Hday.
  { intros d Hd. unfold day_attempt, checked_date. unfold HORIZON in *.
    rewrite (proj2 (Z.leb_le _ _)), (proj2 (Z.leb_le _ _)) by lia. unfold mbind, result_bind. cbn [andb].
    destruct (_matches c d); [|by eexists]. destruct (near d) as [x ->]; [lia|]. by eexists. }
  pose proof local_now as Hlocal. pose proof valid as V. pose proof civil as Hc. clear valid civil.
  destruct c as [|t' z'|t' w z'|t' days last_day z'|t' dates z'|]; try done; cbn in Hc; simplify_eq; cbn [next_after];
    unfold _next_day, _next_monthly, _next_yearly; rewrite Hlocal; unfold mbind at 1, result_bind at 1; fold now.
  - apply for_offsets_total. intros i Hi. apply Hday. lia.
  - apply for_offsets_total. intros i Hi. apply Hday. lia.
  - apply for_offsets_total. intros i Hi. apply period_attempt_total. intros l Hl d Hin. apply near.
    rewrite month_at_index in Hl. unfold dates_of_month in Hl. destruct (_ || _); [done|]. injection Hl as <-.
    destruct (month_index_split (month_index_of now + i)) as [Ei Hm]. cbn [cadence_valid] in V. conjuncts V.
    destruct (days_valid days) as [Hd _]; [done|]. apply (monthly_dates_elem t days last_day z) in Hin as [_ E]; [|done..].
    rewrite Ei in E. pose proof (month_near now d i ltac:(lia) ltac:(lia)). unfold HORIZON. lia.
  - apply for_offsets_total. intros i Hi. cbv zeta. apply period_attempt_total. intros l Hl d Hin. apply near.
    destruct (MAX_YEAR <? _); [done|]. injection Hl as <-. cbn [cadence_valid] in V. conjuncts V.
    apply (yearly_dates_elem t dates z) in Hin as [_ E]; [|by apply dates_valid].
    pose proof (year_near now d i ltac:(lia) ltac:(lia)). unfold HORIZON. lia.
Qed.
Lemma next_found : ∃ x, next_after ZoneInfo c r = Ok (Some x).
Proof.
  destruct next_returns as [[x|] E]; [by eexists|]. exfalso.
  assert (∀ t' z', civil_part c = Some (t', z') → orderly (ZoneInfo z')) as Hz' by (intros t' z' H; rewrite civil in H; by injection H as <- <-).
  apply (next_nearest _ zone_known _ _ _ valid Hz') in E. unfold nearest in E.
  destruct (selected_soon zone_known c t z now valid civil) as (d & Hs & Hd). unfold HORIZON in *.
  destruct (near d ltac:(lia)) as [x Hx].
  assert (on_date (ZoneInfo z) t (selected c) d x) as Ho by (split; [done|]; split; [lia|done]).
  pose proof (on_after (ZoneInfo z) t (selected c) r (valid_time zone_known c t z valid civil) Hz d x Ho ltac:(lia)).
  specialize (E x (proj2 (occurs_civil ZoneInfo c t z x civil) (ex_intro _ d Ho))). unfold after in E. lia.
Qed.
End live.

(** ** Zones with one transition *)
Definition HOUR : Z := 3600 * SECOND.
Definition moment (y m d h mi : Z) : datetime := combine (date_of y m d) (h * HOUR + mi * 60 * SECOND).
(** [zoneinfo]'s rule: under fold 0 a wall-clock time that a gap skips or an overlap repeats
    is read with the offset before the transition, under fold 1 with the one after it. *)
Definition one_shift (key : string) (shift : datetime) (before after_ : Z) : Zone := {|
  zone_key := key;
  utcoffset x := if x <? shift then before else after_;
  from_wall fold w :=
    w - (if w <? shift + (if fold then Z.min before after_ else Z.max before after_) then before else after_);
|}.
Lemma one_shift_orderly key shift before after_ :
  before <= after_ ∨ date_part (shift + before - 1) <= date_part (shift + after_) →
  orderly (one_shift key shift before after_).
Proof.
  assert (∀ x y, x <= y → date_part x <= date_part y) as Hmono by (intros; apply Z.div_le_mono; unfold DAY; lia).
  intros H a b Hab. cbn. destruct (Z.ltb_spec a shift), (Z.ltb_spec b shift); try (apply Hmono; lia).
  destruct H as [H|H]; [apply Hmono; lia|].
  etransitivity; [|etransitivity; [exact H|]]; apply Hmono; lia.
Qed.
(** Eastern time through the autumn of 2025, and West Greenland through the spring: on
    2025-03-29 the clocks in Nuuk go from 23:00 to midnight. *)
Definition new_york : Zone := one_shift "America/New_York" (moment 2025 11 2 6 0) (-4 * HOUR) (-5 * HOUR).
Definition nuuk : Zone := one_shift "America/Nuuk" (moment 2025 3 30 1 0) (-2 * HOUR) (-1 * HOUR).
Definition zones (key : string) : Zone := if String.eqb key "America/Nuuk" then nuuk else new_york.
Lemma new_york_orderly : orderly new_york.
Proof. apply one_shift_orderly. right. by vm_compute. Qed.
Lemma nuuk_orderly : orderly nuuk.
Proof. apply one_shift_orderly. left. by vm_compute. Qed.
Lemma zones_orderly c t z : civil_part c = Some (t, z) → orderly (zones z).
Proof. intros _. unfold zones. destruct (String.eqb z "America/Nuuk"); [apply nuuk_orderly|apply new_york_orderly]. Qed.
Definition every_zone (_ : string) : bool := true.

(** Instants of a run of dates that have one at the time asked for, by evaluation. *)
Definition resolvable (z : Zone) (t : Z) (d : date) : bool :=
  match _valid_instants z (combine d t) with Ok (_ :: _) => true | _ => false end.
Lemma resolvable_ok z t d : _validate_local_time t = true → resolvable z t d = true → ∃ x, _resolve_civil z t d = Ok x.
Proof.
  unfold resolvable, _resolve_civil, _validate_local_time. intros Ht H.
  assert (∃ n, seconds_left t = S n) as [n ->].
  { exists (pred (seconds_left t)). unfold seconds_left, SECOND, DAY in *.
    assert (1 <= (86400000000 - t + 1000000 - 1) / 1000000) by (apply Z.div_le_lower_bound; lia). lia. }
  cbn [resolve_from]. destruct (_valid_instants z (combine d t)) as [[|x l]|]; [done| |done]. by eexists.
Qed.
(** Where the clocks go back no date is without its wall-clock times. *)
Lemma checked_ok w : MIN_DATE * DAY <= w → w < (MAX_DATE + 1) * DAY → checked_datetime w = Ok w.
Proof. unfold checked_datetime. intros H1 H2. by rewrite (proj2 (Z.leb_le _ _)), (proj2 (Z.ltb_lt _ _)). Qed.
Lemma autumn_resolves key shift before after_ t d :
  (- DAY <? after_) && (after_ <=? before) && (before <? DAY) = true → _validate_local_time t = true →
  MIN_DATE + 2 <= d <= MAX_DATE - 3 →
  ∃ x, _resolve_civil (one_shift key shift before after_) t d = Ok x.
Proof.
  intros Hb Ht Hd. apply resolvable_ok; [done|]. unfold resolvable, _valid_instants, instant_at, astimezone, one_shift. cbn [from_wall utcoffset].
  unfold _validate_local_time in Ht. rewrite !andb_true_iff in Hb, Ht. destruct Hb as [[H1 H2] H3], Ht as [[H4 H5] _].
  apply Z.ltb_lt in H1, H3, H5. apply Z.leb_le in H2, H4. rewrite Z.max_l, Z.min_r by lia. unfold combine.
  assert (MIN_DATE * DAY + 2 * DAY <= d * DAY + t < MAX_DATE * DAY - 2 * DAY) as Hw by (unfold DAY in *; lia).
  generalize dependent (d * DAY + t). intros w Hw. cbv zeta.
  assert (∀ a, - DAY < a < DAY → checked_datetime (w - a) = Ok (w - a)) as Hin by (intros; apply checked_ok; unfold DAY in *; lia).
  assert (∀ a b, - DAY < a < DAY → - DAY < b < DAY → checked_datetime (w - a + b) = Ok (w - a + b)) as Hback
    by (intros; apply checked_ok; unfold DAY in *; lia).
  assert (- DAY < after_ < DAY ∧ - DAY < before < DAY) as [Ha Hbe] by lia.
  destruct (Z.ltb_spec w (shift + before)), (Z.ltb_spec w (shift + after_)); try lia;
    rewrite !Hin by done; unfold mbind, result_bind;
    repeat match goal with |- context [?x <? shift] => destruct (Z.ltb_spec x shift); try lia end;
    rewrite !Hback by done;
    repeat match goal with |- context [?x =? w] => destruct (Z.eqb_spec x w); try lia end; done.
Qed.

(** Half past one at night is there twice on 2025-11-02; the 31st, only in some months. *)
Definition half_past_one : Z := HOUR + 30 * 60 * SECOND.
Definition nightly : Cadence := DailyCadence half_past_one "America/New_York".
Definition month_ends : Cadence := MonthlyCadence half_past_one [30; 31] true "America/New_York".
Lemma nightly_valid : cadence_valid every_zone nightly = true.
Proof. by vm_compute. Qed.
Lemma month_ends_valid : cadence_valid every_zone month_ends = true.
Proof. by vm_compute. Qed.
(** The first of the two, and then the next night. *)
Lemma nightly_next :
  next_after zones nightly (moment 2025 11 2 4 0) = Ok (Some (moment 2025 11 2 5 30)) ∧
  next_after zones nightly (moment 2025 11 2 5 30) = Ok (Some (moment 2025 11 3 6 30)).
Proof. split; by vm_compute. Qed.
Lemma month_ends_count :
  count_between zones month_ends (moment 2024 1 15 0 0) (moment 2025 3 30 12 0) = Ok 23.
Proof. by vm_compute. Qed.
(** A schedule at ten to midnight in Nuuk: two days before the jump the next run is there,
    from the evening before the jump on nothing is, not even the run of the day after. *)
Definition evening : Cadence := DailyCadence (23 * HOUR + 50 * 60 * SECOND) "America/Nuuk".
Lemma nightly_schedule_stops :
  cadence_valid every_zone evening = true ∧
  next_after zones evening (moment 2025 3 28 12 0) = Ok (Some (moment 2025 3 29 1 50)) ∧
  next_after zones evening (moment 2025 3 29 2 0) =
    Raise (ValueError "timezone America/Nuuk has no valid instant on 2025-03-29") ∧
  latest_at_or_before zones evening (moment 2025 3 30 12 0) =
    Raise (ValueError "timezone America/Nuuk has no valid instant on 2025-03-29").
Proof. repeat split; by vm_compute. Qed.

(** ** The theorems at these cadences *)
Lemma nearest_instants_witness :
  (∀ t z, civil_part nightly = Some (t, z) → orderly (zones z)) ∧
  next_after zones nightly (moment 2025 11 2 4 0) = Ok (Some (moment 2025 11 2 5 30)) ∧
  ∀ x', occurs zones nightly x' → moment 2025 11 2 4 0 < x' → moment 2025 11 2 5 30 <= x'.
Proof.
  split; [exact (zones_orderly nightly)|]. split; [exact (proj1 nightly_next)|].
  exact (proj2 (proj2 (proj1 (nearest_instants zones every_zone nightly (moment 2025 11 2 4 0)
    nightly_valid (zones_orderly nightly)) _ (proj1 nightly_next)))).
Defined.

Lemma month_ends_between t z : civil_part month_ends = Some (t, z) →
  between_resolve (zones z) t (selected month_ends) (moment 2024 1 15 0 0) (moment 2025 3 30 12 0).
Proof.
  intros [= <- <-] d Hs Hd.
  assert (MIN_DATE + 2 <= today (zones "America/New_York") (moment 2024 1 15 0 0) ∧
    today (zones "America/New_York") (moment 2025 3 30 12 0) <= MAX_DATE - 4) as [? ?] by by vm_compute.
  apply autumn_resolves; [by vm_compute..|lia].
Qed.
Lemma not_by_days : by_days month_ends = true → occurs zones month_ends (moment 2024 1 15 0 0) ∧ occurs zones month_ends (moment 2025 3 30 12 0).
Proof. done. Qed.
Lemma count_exact_witness :
  count_between zones month_ends (moment 2024 1 15 0 0) (moment 2025 3 30 12 0) = Ok 23 ∧
  ∃ l, NoDup l ∧ (∀ x, x ∈ l ↔ occurs zones month_ends x ∧ moment 2024 1 15 0 0 <= x <= moment 2025 3 30 12 0) ∧
    23 = Z.of_nat (length l).
Proof.
  split; [exact month_ends_count|].
  exact (count_exact zones every_zone month_ends (moment 2024 1 15 0 0) (moment 2025 3 30 12 0) 23 month_ends_valid
    (zones_orderly month_ends) month_ends_between not_by_days month_ends_count).
Defined.

(** A schedule goes on for ever: wherever the dates within ten years of the reference have an
    instant, the next one of a daily, weekly, monthly or yearly cadence is found, is an
    instant of the cadence and is in the future - no window of the search is too small. *)
Theorem next_run_exists ZoneInfo zone_known c r t z :
  cadence_valid zone_known c = true → civil_part c = Some (t, z) → orderly (ZoneInfo z) →
  MIN_DATE <= today (ZoneInfo z) r - HORIZON ∧ today (ZoneInfo z) r + HORIZON <= MAX_DATE →
  (∀ d, today (ZoneInfo z) r - HORIZON <= d <= today (ZoneInfo z) r + HORIZON →
     ∃ x, _resolve_civil (ZoneInfo z) t d = Ok x) →
  ∃ x, next_after ZoneInfo c r = Ok (Some x) ∧ occurs ZoneInfo c x ∧ r < x.
Proof.
  intros V Hc Hz Hcal Hnear. destruct (next_found ZoneInfo zone_known c r t z V Hc Hz Hcal Hnear) as [x E]. exists x.
  split; [done|]. assert (∀ t' z', civil_part c = Some (t', z') → orderly (ZoneInfo z')) as Hz'.
  { intros t' z' H. rewrite Hc in H. by injection H as <- <-. }
  apply (next_nearest _ zone_known _ _ _ V Hz') in E as (Ho & Hk & _). split; [done|]. by apply Z.ltb_lt.
Qed.

Definition spring : datetime := moment 2025 4 1 12 0.
Lemma spring_calendar :
  MIN_DATE <= today (zones "America/New_York") spring - HORIZON ∧ today (zones "America/New_York") spring + HORIZON <= MAX_DATE.
Proof. by vm_compute. Qed.
Lemma spring_near d :
  today (zones "America/New_York") spring - HORIZON <= d <= today (zones "America/New_York") spring + HORIZON →
  ∃ x, _resolve_civil (zones "America/New_York") half_past_one d = Ok x.
Proof.
  intros Hd. assert (MIN_DATE + 2 <= today (zones "America/New_York") spring - HORIZON ∧
    today (zones "America/New_York") spring + HORIZON <= MAX_DATE - 3) as [? ?] by by vm_compute.
  apply autumn_resolves; [by vm_compute..|lia].
Qed.
Lemma next_run_exists_witness :
  ∃ x, next_after zones month_ends spring = Ok (Some x) ∧ occurs zones month_ends x ∧ spring < x.
Proof.
  exact (next_run_exists zones every_zone month_ends spring half_past_one "America/New_York" month_ends_valid eq_refl
    new_york_orderly spring_calendar spring_near).
Defined.
