(* ===== verification/CanonicalJson.v ===== *)
(** * Canonical JSON ([domain/canonical.py]) and tool schemas ([tools/validation.py])

    The text under which tool arguments are hashed and compared, and what a tool's schema
    must be. Unicode normalisation, the text of a float and the JSON Schema validator are
    parameters. The numbers of [json] are finite and have no negative zero, so the refusal
    of other floats never applies to them. *)
From stdpp Require Import pretty.
From S2P Require Import Prelude.

(** ** [json.dumps(ensure_ascii=False)] *)
Definition quote : Ascii.ascii := "034"%char.
Definition backslash : Ascii.ascii := "092"%char.
Definition hex_digit (n : N) : Ascii.ascii := Ascii.ascii_of_N (if (n <? 10)%N then 48 + n else 87 + n).
Definition escape_char (c : Ascii.ascii) : string :=
  let n := Ascii.N_of_ascii c in
  if Ascii.eqb c quote || Ascii.eqb c backslash then String backslash (String c "")
  else if (n =? 8)%N then String backslash "b"
  else if (n =? 9)%N then String backslash "t"
  else if (n =? 10)%N then String backslash "n"
  else if (n =? 12)%N then String backslash "f"
  else if (n =? 13)%N then String backslash "r"
  else if (n <? 32)%N then String backslash ("u00" +:+ String (hex_digit (n / 16)) (String (hex_digit (n mod 16)) ""))
  else String c "".
Fixpoint escape (s : string) : string :=
  match s with EmptyString => "" | String c s => escape_char c +:+ escape s end.
Definition dumps_str (s : string) : string := String quote (escape s +:+ String quote "").

Definition key_le (a b : string * json) : Prop := String.le a.1 b.1.
#[export] Instance key_le_dec a b : Decision (key_le a b) := _.
(** [sort_keys=True], at every level. *)
Fixpoint sort_keys (v : json) : json :=
  match v with
  | JArr l => JArr (map sort_keys l)
  | JObj o => JObj (merge_sort key_le (map (λ kv, (kv.1, sort_keys kv.2)) o))
  | v => v
  end.

Section dumps.
Context (float_repr : Z → Z → string).
(** With the separators of items and of keys. *)
Fixpoint render (comma colon : string) (v : json) : string :=
  match v with
  | JNull => "null"
  | JBool b => if b then "true" else "false"
  | JInt z => pretty z
  | JFloat m e => float_repr m e
  | JStr s => dumps_str s
  | JArr l => "[" +:+ String.concat comma (map (render comma colon) l) +:+ "]"
  | JObj o => "{" +:+ String.concat comma (map (λ kv, dumps_str kv.1 +:+ colon +:+ render comma colon kv.2) o) +:+ "}"
  end.

(** ** Canonical values *)
Context (nfc : string → string).
Definition item_le (a b : string * result json) : Prop := String.le a.1 b.1.
#[local] Instance item_le_dec a b : Decision (item_le a b) := _.
(** The loop over the sorted items, [normalized] the dictionary so far. *)
Fixpoint fold_items (normalized : dict) (items : list (string * result json)) : result dict :=
  match items with
  | [] => Ok normalized
  | (key, child) :: items =>
      if bool_decide (nfc key ∈ map fst normalized)
      then Raise (ToolValidationError "JSON contains colliding normalized keys")
      else child ← child; fold_items (normalized ++ [(nfc key, child)])%list items
  end.
Fixpoint canonical_value (v : json) : result json :=
  match v with
  | JStr s => Ok (JStr (nfc s))
  | JArr l =>
      l ← (fix go (l : list json) : result (list json) :=
             match l with
             | [] => Ok []
             | v :: l => v ← canonical_value v; l ← go l; Ok (v :: l)
             end) l;
      Ok (JArr l)
  | JObj o =>
      normalized ← fold_items [] (merge_sort item_le (map (λ kv, (kv.1, canonical_value kv.2)) o));
      Ok (JObj normalized)
  | v => Ok v
  end.
Definition canonical_json (v : json) : result string :=
  v ← canonical_value v; Ok (render "," ":" (sort_keys v)).

(** ** Schemas *)
Definition MAX_SCHEMA_BYTES : Z := 4 * 1024 * 1024.
Definition SUPPORTED_SCHEMA_DIALECTS : list string :=
  ["https://json-schema.org/draft/2020-12/schema"; "https://json-schema.org/draft/2020-12/schema#"].
Fixpoint _walk (v : json) : list json :=
  v :: match v with
       | JObj o => concat (map (λ kv, JStr kv.1 :: _walk kv.2) o)
       | JArr l => concat (map _walk l)
       | _ => []
       end.
(** [part in s] *)
Fixpoint contains_text (part s : string) : bool :=
  py_startswith part s || match s with EmptyString => false | String _ s => contains_text part s end.
Definition remote_reference (v : json) : bool :=
  match v with
  | JObj o => match as_str (dict_get "$ref" o) with Some r => contains_text "://" r | None => false end
  | _ => false
  end.
(** The length of the UTF-8 encoding: code points from 128 on take two bytes. *)
Fixpoint utf8_length (s : string) : Z :=
  match s with EmptyString => 0 | String c s => (if (Ascii.N_of_ascii c <? 128)%N then 1 else 2) + utf8_length s end.
(** [dialect is not None and dialect not in ...], of a set of strings. *)
Definition dialect_refused (dialect : option json) : result bool :=
  match dialect with
  | None | Some JNull => Ok false
  | Some (JStr d) => Ok (negb (bool_decide (d ∈ SUPPORTED_SCHEMA_DIALECTS)))
  | Some (JArr _) => Raise (TypeError "unhashable type: 'list'")
  | Some (JObj _) => Raise (TypeError "unhashable type: 'dict'")
  | Some _ => Ok true
  end.
(** [check_schema] is whether [Draft202012Validator.check_schema] passes, [conforms] whether
    a validator finds no [ValidationError]; any other exception of it is raised on. *)
Context (check_schema : dict → bool) (conforms : dict → dict → result bool) (sha256_hex : string → string).
Definition validate_schema (schema : dict) : result unit :=
  refused ← dialect_refused (dict_get "$schema" schema);
  raise_if (refused : bool) with ToolValidationError "tool schema must use JSON Schema Draft 2020-12";
  raise_if MAX_SCHEMA_BYTES <? utf8_length (render ", " ": " (sort_keys (JObj schema)))
    with ToolValidationError "tool schema exceeds 4 MiB";
  raise_if existsb remote_reference (_walk (JObj schema))
    with ToolValidationError "remote JSON Schema references are forbidden";
  raise_if negb (check_schema schema) with ToolValidationError "invalid Draft 2020-12 tool schema";
  Ok tt.

(** ** Arguments *)
Definition has_key (key : string) (d : dict) : bool := bool_decide (is_Some (dict_get key d)).
Definition dict_or (key : string) (fallback : json) (d : dict) : json := default fallback (dict_get key d).
Fixpoint _apply_defaults (schema instance : json) : json :=
  match schema, instance with
  | JObj s, JObj o =>
      if bool_decide (as_str (dict_get "type" s) = Some "object") then
        (** [properties = schema.get("properties", {})], and the loop over it *)
        (fix properties (s : dict) : json :=
           match s with
           | [] => JObj o
           | (key, value) :: s =>
               if String.eqb key "properties" then
                 match value with
                 | JObj props =>
                     JObj ((fix each (props : dict) (o : dict) : dict :=
                        match props with
                        | [] => o
                        | (name, JObj sub as subschema) :: props =>
                            let o := if negb (has_key name o) && has_key "default" sub
                                     then dict_set name (dict_or "default" JNull sub) o else o in
                            let o := match dict_get name o with
                                     | Some v => dict_set name (_apply_defaults subschema v) o
                                     | None => o
                                     end in
                            each props o
                        | _ :: props => each props o
                        end) props o)
                 | _ => JObj o
                 end
               else properties s
           end) s
      else instance
  | _, _ => instance
  end.
Definition validate_and_normalize (arguments schema : dict) : result (dict * string * string) :=
  normalized ← canonical_value (_apply_defaults (JObj schema) (JObj arguments));
  match normalized with
  | JObj normalized =>
      fits ← conforms schema normalized;
      raise_if negb (fits : bool) with ToolValidationError "tool arguments do not match the declared schema";
      rendered ← canonical_json (JObj normalized);
      Ok (normalized, rendered, sha256_hex rendered)
  | _ => Raise (ToolValidationError "tool arguments must normalize to an object")
  end.
End dumps.

(** ** Texts that end where they end *)
Lemma app_inj_l a s t : a +:+ s = a +:+ t → s = t.
Proof. induction a as [|c a IH]; [done|]. change (String c a +:+ ?x) with (String c (a +:+ x)). intros [= H]. by apply IH. Qed.
(** What follows a value. *)
Definition closes (s : string) : Prop :=
  match s with "" => True | String c _ => c = ","%char ∨ c = "]"%char ∨ c = "}"%char end.
Fixpoint every_char (f : Ascii.ascii → bool) (s : string) : bool :=
  match s with EmptyString => true | String c s => f c && every_char f s end.
Lemma every_char_app f s t : every_char f (s +:+ t) = every_char f s && every_char f t.
Proof.
  induction s as [|c s IH]; [done|]. change (String c s +:+ t) with (String c (s +:+ t)). cbn [every_char].
  by rewrite IH, andb_assoc.
Qed.
Definition int_char (c : Ascii.ascii) : bool :=
  let n := Ascii.N_of_ascii c in (48 <=? n)%N && (n <=? 57)%N || Ascii.eqb c "-".
Definition number_char (c : Ascii.ascii) : bool :=
  int_char c || Ascii.eqb c "." || Ascii.eqb c "e" || Ascii.eqb c "+".
Lemma int_number s : every_char int_char s = true → every_char number_char s = true.
Proof.
  induction s as [|c s IH]; [done|]. cbn [every_char]. intros [Hc Hs]%andb_true_iff. unfold number_char at 1. by rewrite Hc, IH.
Qed.
Lemma closes_number c s : closes (String c s) → number_char c = false.
Proof. by intros [->|[->| ->]]. Qed.
Lemma numbers_end a b s t :
  every_char number_char a = true → every_char number_char b = true → closes s → closes t →
  a +:+ s = b +:+ t → a = b ∧ s = t.
Proof.
  revert b. induction a as [|c a IH]; intros [|d b] Ha Hb Hs Ht H.
  - done.
  - exfalso. change (s = String d (b +:+ t)) in H. subst s. apply closes_number in Hs. cbn [every_char] in Hb.
    by rewrite Hs in Hb.
  - exfalso. change (String c (a +:+ s) = t) in H. subst t. apply closes_number in Ht. cbn [every_char] in Ha.
    by rewrite Ht in Ha.
  - change (String c (a +:+ s) = String d (b +:+ t)) in H. injection H as -> H. cbn [every_char] in Ha, Hb.
    apply andb_true_iff in Ha as [_ Ha], Hb as [_ Hb]. destruct (IH b Ha Hb Hs Ht H) as [-> ->]. done.
Qed.
Lemma pretty_N_go_char x s : every_char int_char s = true → every_char int_char (pretty_N_go x s) = true.
Proof.
  revert s. induction (N.lt_wf_0 x) as [x _ IH]; intros s Hs.
  destruct (decide (x = 0)%N) as [->|]; [by rewrite pretty_N_go_0|]. rewrite pretty_N_go_step by lia.
  apply IH; [apply N.div_lt; lia|]. cbn [every_char]. rewrite Hs, andb_true_r.
  pose proof (N.mod_lt x 10 ltac:(lia)). unfold pretty_N_char. repeat case_match; done.
Qed.
Lemma pretty_N_char_ok x : every_char int_char (pretty (x : N)) = true.
Proof. unfold pretty, pretty_N. destruct (decide _); [done|]. by apply pretty_N_go_char. Qed.
Lemma pretty_int z : every_char int_char (pretty (z : Z)) = true.
Proof.
  destruct z as [|p|p]; [done| |]; cbn [pretty pretty_Z].
  - apply (pretty_N_char_ok (N.pos p)).
  - change ("-" +:+ pretty p) with (String "-" (pretty p)). cbn [every_char]. apply (pretty_N_char_ok (N.pos p)).
Qed.

(** *** Strings *)
Fixpoint prefix_of_text (a b : string) : bool :=
  match a, b with
  | EmptyString, _ => true
  | String c a, String d b => Ascii.eqb c d && prefix_of_text a b
  | _, _ => false
  end.
Lemma app_comparable a b s t : a +:+ s = b +:+ t → prefix_of_text a b = true ∨ prefix_of_text b a = true.
Proof.
  revert b. induction a as [|c a IH]; intros b H; [by left|]. destruct b as [|d b]; [by right|].
  change (String c (a +:+ s) = String d (b +:+ t)) in H. injection H as -> H. cbn [prefix_of_text]. rewrite Ascii.eqb_refl. by apply IH.
Qed.
Definition all_chars : list Ascii.ascii := map Ascii.ascii_of_nat (seq 0 256).
Lemma all_chars_elem c : c ∈ all_chars.
Proof.
  apply list_elem_of_fmap. exists (Ascii.nat_of_ascii c). split; [by rewrite Ascii.ascii_nat_embedding|].
  apply elem_of_seq. pose proof (Ascii.nat_ascii_bounded c). lia.
Qed.
(** No escape is the beginning of another, and none begins with the closing quote. *)
Definition escapes_apart (c d : Ascii.ascii) : bool :=
  Ascii.eqb c d || negb (prefix_of_text (escape_char c) (escape_char d)).
Lemma escapes_apart_all c d : escapes_apart c d = true.
Proof.
  assert (forallb (λ c, forallb (escapes_apart c) all_chars) all_chars = true) as H by by vm_compute.
  rewrite forallb_forall in H. specialize (H c). rewrite <- list_elem_of_In in H. specialize (H (all_chars_elem c)).
  rewrite forallb_forall in H. apply H. rewrite <- list_elem_of_In. apply all_chars_elem.
Qed.
Lemma escape_not_quote c : ∃ d s, escape_char c = String d s ∧ d ≠ quote.
Proof.
  unfold escape_char. destruct (Ascii.eqb c quote) eqn:E; cbn [orb]; [by eexists _, _|].
  repeat case_match; try (by eexists _, _). eexists _, _. split; [done|]. intros ->. by rewrite Ascii.eqb_refl in E.
Qed.
Lemma escape_end a b s t : escape a +:+ String quote s = escape b +:+ String quote t → a = b ∧ s = t.
Proof.
  revert b. induction a as [|c a IH]; intros [|d b]; cbn [escape]; rewrite ?str_app_assoc; intros H.
  - by injection H as ->.
  - exfalso. destruct (escape_not_quote d) as (x & r & E & Hx). rewrite E in H. injection H as Hq _. congruence.
  - exfalso. destruct (escape_not_quote c) as (x & r & E & Hx). rewrite E in H. injection H as Hq _. congruence.
  - assert (c = d) as ->.
    { pose proof (escapes_apart_all c d) as Hcd. pose proof (escapes_apart_all d c) as Hdc. unfold escapes_apart in *.
      destruct (Ascii.eqb_spec c d) as [|N]; [done|]. destruct (Ascii.eqb_spec d c) as [E|_]; [by rewrite E in N|].
      destruct (app_comparable _ _ _ _ H) as [E|E]; rewrite E in *; done. }
    apply app_inj_l in H. by destruct (IH b H) as [-> ->].
Qed.
Lemma dumps_str_end a b s t : dumps_str a +:+ s = dumps_str b +:+ t → a = b ∧ s = t.
Proof.
  unfold dumps_str. intros H. change (String quote ?x +:+ ?y) with (String quote (x +:+ y)) in H. injection H as H.
  rewrite !str_app_assoc in H. by apply escape_end.
Qed.

(** *** Values *)
Section injective.
Context (float_repr : Z → Z → string).
(** The text of a float: digits with a point or an exponent. *)
Definition float_text (s : string) : Prop := every_char number_char s = true ∧ every_char int_char s = false.
Hypothesis floats : ∀ m e, float_text (float_repr m e).
Abbreviation text := (render float_repr "," ":").

(** Equal but for floats, which are equal when their texts are. *)
Inductive same_text : json → json → Prop :=
| same_null : same_text JNull JNull
| same_bool b : same_text (JBool b) (JBool b)
| same_int z : same_text (JInt z) (JInt z)
| same_float m e m' e' : float_repr m e = float_repr m' e' → same_text (JFloat m e) (JFloat m' e')
| same_str s : same_text (JStr s) (JStr s)
| same_arr l k : Forall2 same_text l k → same_text (JArr l) (JArr k)
| same_obj o p : Forall2 (λ a b, a.1 = b.1 ∧ same_text a.2 b.2) o p → same_text (JObj o) (JObj p).

Lemma pretty_N_go_nonempty x c s : pretty_N_go x (String c s) ≠ "".
Proof.
  revert c s. induction (N.lt_wf_0 x) as [x _ IH]; intros c s.
  destruct (decide (x = 0)%N) as [->|]; [by rewrite pretty_N_go_0|]. rewrite pretty_N_go_step by lia. apply IH, N.div_lt; lia.
Qed.
Lemma pretty_N_nonempty x : pretty (x : N) ≠ "".
Proof.
  unfold pretty, pretty_N. destruct (decide _); [done|]. rewrite pretty_N_go_step by lia. apply pretty_N_go_nonempty.
Qed.
Definition head_ok (v : json) (c : Ascii.ascii) : Prop :=
  match v with
  | JNull => c = "n"%char | JBool true => c = "t"%char | JBool false => c = "f"%char
  | JInt _ | JFloat _ _ => number_char c = true
  | JStr _ => c = quote | JArr _ => c = "["%char | JObj _ => c = "{"%char
  end.
Lemma number_head s : s ≠ "" → every_char number_char s = true → ∃ c r, s = String c r ∧ number_char c = true.
Proof. destruct s as [|c r]; [done|]. cbn [every_char]. intros _ [Hc _]%andb_true_iff. eauto. Qed.
Lemma text_head v : ∃ c r, text v = String c r ∧ head_ok v c.
Proof.
  destruct v as [|[]|z|m e|s|l|o]; try by eexists _, _.
  - apply number_head; [|apply int_number, pretty_int].
    destruct z as [|p|p]; [done|apply (pretty_N_nonempty (N.pos p))|done].
  - destruct (floats m e) as [H1 H2]. apply number_head; [|done]. cbn [render]. by intros E; rewrite E in H2.
Qed.
Lemma head_not_close v c : head_ok v c → c ≠ ","%char ∧ c ≠ "]"%char ∧ c ≠ "}"%char.
Proof. destruct v as [|[]| | | | |]; cbn [head_ok]; intros H; repeat split; intros ->; done. Qed.

(** A list of texts between commas, and its closing bracket. *)
Lemma concat_cons a l : String.concat "," (a :: l) = a +:+ match l with [] => "" | _ => "," +:+ String.concat "," l end.
Proof. destruct l; [by rewrite str_app_nil_r|done]. Qed.
Lemma parts_end {A} (f : A → string) (E : A → A → Prop) (z : Ascii.ascii) l k s t :
  z = "]"%char ∨ z = "}"%char →
  Forall (λ x, ∀ y s t, closes s → closes t → f x +:+ s = f y +:+ t → E x y ∧ s = t) l →
  (∀ x, ∃ c r, f x = String c r ∧ c ≠ z) →
  String.concat "," (map f l) +:+ String z s = String.concat "," (map f k) +:+ String z t →
  Forall2 E l k ∧ s = t.
Proof.
  intros Hz Hl Hf. revert k. induction Hl as [|x l Hx Hl IH]; intros [|y k] H; cbn [map] in H.
  - injection H as ->. by split; [constructor|].
  - exfalso. rewrite concat_cons, str_app_assoc in H. destruct (Hf y) as (c & r & Ey & Hc). rewrite Ey in H.
    injection H as Hq _. congruence.
  - exfalso. rewrite concat_cons, str_app_assoc in H. destruct (Hf x) as (c & r & Ex & Hc). rewrite Ex in H.
    injection H as Hq _. congruence.
  - rewrite !concat_cons, !str_app_assoc in H.
    assert (∀ l' u, closes ((match map f l' with [] => "" | _ => "," +:+ String.concat "," (map f l') end) +:+ String z u)) as Hcl.
    { intros [|x' l'] u; [|by left]. change (closes (String z u)). unfold closes. tauto. }
    destruct (Hx y _ _ (Hcl l s) (Hcl k t) H) as [Exy Hr].
    destruct l as [|x' l], k as [|y' k]; cbn [map] in Hr; rewrite ?str_app_assoc in Hr.
    + injection Hr as ->. split; [by repeat constructor|done].
    + exfalso. injection Hr as Hq _. destruct Hz; congruence.
    + exfalso. injection Hr as Hq _. destruct Hz; congruence.
    + injection Hr as Hr. destruct (IH (y' :: k)) as [HF ->]; [exact Hr|]. split; [by constructor|done].
Qed.
Lemma text_injective v : ∀ w s t, closes s → closes t → text v +:+ s = text w +:+ t → same_text v w ∧ s = t.
Proof.
  induction v as [|b|z|m e|a|l IH|o IH] using json_nested_ind; intros w s t Hs Ht H.
  all: destruct (text_head w) as (c & r & Ew & Hw);
    match type of H with text ?v +:+ _ = _ => destruct (text_head v) as (c' & r' & Ev & Hv) end;
    pose proof H as H'; rewrite Ew, Ev in H'; injection H' as -> _; clear r r' Ew Ev.
  - destruct w as [|[]| | | | |]; cbn [head_ok] in Hw, Hv; subst; try done. split; [constructor|]. by apply (app_inj_l "null").
  - destruct b, w as [|[]| | | | |]; cbn [head_ok] in Hw, Hv; subst; try done; (split; [constructor|]);
      [by apply (app_inj_l "true")|by apply (app_inj_l "false")].
  - destruct w as [|[]|z'|m' e'| | |]; cbn [head_ok] in Hw, Hv; subst; try done; cbn [render] in H.
    + apply numbers_end in H as [E ->]; [|by apply int_number, pretty_int|by apply int_number, pretty_int|done|done].
      split; [|done]. apply (inj pretty) in E as ->. constructor.
    + exfalso. destruct (floats m' e') as [F1 F2].
      apply numbers_end in H as [E ->]; [|by apply int_number, pretty_int|done..]. by rewrite <- E, pretty_int in F2.
  - destruct (floats m e) as [F1 F2]. destruct w as [|[]|z'|m' e'| | |]; cbn [head_ok] in Hw, Hv; subst; try done; cbn [render] in H.
    + exfalso. apply numbers_end in H as [E ->]; [|done|by apply int_number, pretty_int|done..]. by rewrite E, pretty_int in F2.
    + destruct (floats m' e') as [G1 G2]. apply numbers_end in H as [E ->]; [|done..]. split; [by constructor|done].
  - destruct w as [|[]| | | | |]; cbn [head_ok] in Hw, Hv; subst; try done. cbn [render] in H.
    apply dumps_str_end in H as [-> ->]. by split; [constructor|].
  - destruct w as [|[]| | | |k|]; cbn [head_ok] in Hw, Hv; subst; try done. cbn [render] in H.
    change ("[" +:+ ?x) with (String "[" x) in H. injection H as H. rewrite !str_app_assoc in H.
    apply (parts_end text same_text "]" l k s t) in H as [HF ->]; [by split; [constructor|]|by left|done|].
    intros x. destruct (text_head x) as (c & r & E & Hx). apply head_not_close in Hx. eexists _, _. split; [done|tauto].
  - destruct w as [|[]| | | | |p]; cbn [head_ok] in Hw, Hv; subst; try done. cbn [render] in H.
    change ("{" +:+ ?x) with (String "{" x) in H. injection H as H. rewrite !str_app_assoc in H.
    apply (parts_end (λ kv, dumps_str kv.1 +:+ ":" +:+ text kv.2) (λ a b, a.1 = b.1 ∧ same_text a.2 b.2) "}" o p s t) in H as [HF ->];
      [by split; [constructor|]|by right| |].
    + eapply Forall_impl; [exact IH|]. intros [k v] Hkv [k' v'] s' t' Hs' Ht' H'. cbn [fst snd] in *.
      rewrite !str_app_assoc in H'. apply dumps_str_end in H' as [-> H']. injection H' as H'.
      apply Hkv in H' as [? ->]; done.
    + intros [k v]. by eexists _, _.
Qed.
Lemma same_text_render v w : same_text v w → text v = text w.
Proof.
  revert w. induction v as [|b|z|m e|s|l IH|o IH] using json_nested_ind; intros w H; inversion H as [| | | | |? k Hk|? p Hp]; subst;
    try done.
  - cbn [render]. enough (map text l = map text k) as -> by done. clear H.
    revert k Hk. induction IH as [|x l Hx IH IHl]; intros k Hk; inversion Hk; subst; [done|]. cbn [map]. f_equal; [by apply Hx|by apply IHl].
  - cbn [render]. set (f := λ kv : string * json, dumps_str kv.1 +:+ ":" +:+ text kv.2).
    enough (map f o = map f p) as -> by done. clear H.
    revert p Hp. induction IH as [|x o Hx IH IHo]; intros p Hp; inversion Hp as [|? y ? ? [E1 E2]]; subst; [done|]. cbn [map].
    f_equal; [unfold f; by rewrite E1, (Hx _ E2)|by apply IHo].
Qed.
End injective.

(** ** When two values have one canonical text *)
Section equal.
Context (float_repr : Z → Z → string) (nfc : string → string).
(** The same value up to the order of keys, normalisation and the text of a float. *)
Inductive same : json → json → Prop :=
| same_up_null : same JNull JNull
| same_up_bool b : same (JBool b) (JBool b)
| same_up_int z : same (JInt z) (JInt z)
| same_up_float m e m' e' : float_repr m e = float_repr m' e' → same (JFloat m e) (JFloat m' e')
| same_up_str s t : nfc s = nfc t → same (JStr s) (JStr t)
| same_up_arr l k : Forall2 same l k → same (JArr l) (JArr k)
| same_up_obj o p p' : p' ≡ₚ p → Forall2 (λ a b, nfc a.1 = nfc b.1 ∧ same a.2 b.2) o p' → same (JObj o) (JObj p).
(** [c] is the value the text of [v] is printed from. *)
Inductive prints_from : json → json → Prop :=
| from_null : prints_from JNull JNull
| from_bool b : prints_from (JBool b) (JBool b)
| from_int z : prints_from (JInt z) (JInt z)
| from_float m e : prints_from (JFloat m e) (JFloat m e)
| from_str s : prints_from (JStr s) (JStr (nfc s))
| from_arr l k : Forall2 prints_from l k → prints_from (JArr l) (JArr k)
| from_obj o o' l : o' ≡ₚ o → Forall2 (λ a b, b.1 = nfc a.1 ∧ prints_from a.2 b.2) o' l →
    StronglySorted key_le l → NoDup (map fst l) → prints_from (JObj o) (JObj l).

Lemma Forall2_perm_r {A B} (R : A → B → Prop) l k k' :
  Forall2 R l k → k ≡ₚ k' → ∃ l', l ≡ₚ l' ∧ Forall2 R l' k'.
Proof.
  intros H Hp. revert l H. induction Hp as [|x k k' Hp IH|x y k|k k2 k3 Hp1 IH1 Hp2 IH2]; intros l H.
  - inversion H. subst. by exists [].
  - inversion H as [|a ? l' ? Ha Hl]; subst. destruct (IH l' Hl) as (l2 & Hp2 & Hf). exists (a :: l2). split; [by constructor|by constructor].
  - inversion H as [|a ? l' ? Ha Hl]; subst. inversion Hl as [|b ? l2 ? Hb Hl2]; subst.
    exists (b :: a :: l2). split; [apply Permutation_swap|by repeat constructor].
  - destruct (IH1 l H) as (l2 & Hq & Hf). destruct (IH2 l2 Hf) as (l3 & Hq' & Hf'). exists l3. split; [by transitivity l2|done].
Qed.
Lemma Forall2_perm_l {A B} (R : A → B → Prop) l k l' :
  Forall2 R l k → l ≡ₚ l' → ∃ k', k ≡ₚ k' ∧ Forall2 R l' k'.
Proof.
  intros H%Forall2_flip Hp. destruct (Forall2_perm_r _ _ _ _ H Hp) as (k' & Hk & Hf). exists k'. split; [done|]. by apply Forall2_flip.
Qed.
Lemma fold_items_Ok acc items d : fold_items nfc acc items = Ok d →
  ∃ l, d = (acc ++ l)%list ∧ Forall2 (λ i kv, kv.1 = nfc i.1 ∧ i.2 = Ok kv.2) items l ∧
    (NoDup (map fst acc) → NoDup (map fst d)).
Proof.
  revert acc. induction items as [|[k r] items IH]; intros acc; cbn [fold_items].
  - intros [= <-]. exists []. rewrite app_nil_r. done.
  - destruct (bool_decide (nfc k ∈ map fst acc)) eqn:E; [done|]. apply bool_decide_eq_false in E.
    unfold mbind, result_bind. destruct r as [v|]; [|done]. intros (l & -> & Hf & Hn)%IH.
    exists ((nfc k, v) :: l). rewrite <- app_assoc in *. split; [done|]. split; [by constructor|]. intros Ha. apply Hn.
    rewrite map_app. apply NoDup_app. split; [done|]. split; [set_solver|apply NoDup_singleton].
Qed.
#[local] Instance string_le_total : Total String.le := _.
Lemma key_le_total : Total key_le.
Proof. intros a b. apply (total String.le). Qed.
Lemma key_le_trans : Transitive key_le.
Proof. intros a b c. unfold key_le. by transitivity b.1. Qed.
Lemma sorted_items l : StronglySorted key_le (merge_sort key_le l).
Proof. apply StronglySorted_merge_sort; [apply key_le_trans|apply key_le_total]. Qed.
Lemma canonical_prints_from v : ∀ c, canonical_value nfc v = Ok c → prints_from v (sort_keys c).
Proof.
  induction v as [|b|z|m e|s|l IH|o IH] using json_nested_ind; intros c; cbn [canonical_value]; try (intros [= <-]; by constructor).
  - unfold mbind, result_bind. match goal with |- context [match ?go l with _ => _ end] => set (g := go) end.
    destruct (g l) as [k|] eqn:E; [|done]. intros [= <-]. cbn [sort_keys]. constructor.
    revert k E. induction IH as [|v l Hv IH IHl]; intros k; cbn; [by intros [= <-]|].
    destruct (canonical_value nfc v) as [c|]; [|done]. destruct (g l) as [k'|]; [|done]. intros [= <-].
    cbn [map]. constructor; [by apply Hv|by apply IHl].
  - unfold mbind, result_bind. destruct (fold_items _ _ _) as [d|] eqn:E; [|done]. intros [= <-].
    apply fold_items_Ok in E as (l & -> & Hf & Hn). cbn [app] in *. cbn [sort_keys].
    set (items := map (λ kv, (kv.1, canonical_value nfc kv.2)) o) in *.
    destruct (Forall2_perm_l _ _ _ _ Hf (merge_sort_Permutation item_le items)) as (l2 & Hp & Hf2).
    assert (Forall2 (λ a b, b.1 = nfc a.1 ∧ prints_from a.2 b.2) o (map (λ kv, (kv.1, sort_keys kv.2)) l2)) as Hf3.
    { subst items. clear -Hf2 IH. revert l2 Hf2. induction IH as [|[k v] o Hv IH IHo]; intros l2 H; inversion H as [|? [k' c] ? l' [E1 E2] Hl]; subst; cbn in *.
      - constructor.
      - constructor; [|by apply IHo]. cbn. split; [done|by apply Hv]. }
    destruct (Forall2_perm_r _ _ _ (merge_sort key_le (map (λ kv, (kv.1, sort_keys kv.2)) l)) Hf3) as (o' & Ho & Hf4).
    { rewrite merge_sort_Permutation. by rewrite Hp. }
    apply (from_obj o o'); [by symmetry|done|apply sorted_items|]. rewrite merge_sort_Permutation, map_map. cbn [fst].
    apply Hn. constructor.
Qed.

(** Chained lists: three relations between four lists of one length. *)
Lemma Forall2_chain {A B C D} (R1 : A → B → Prop) (R2 : B → D → Prop) (R3 : C → D → Prop) (R : A → C → Prop) l1 l2 l3 l4 :
  Forall2 R1 l1 l2 → Forall2 R2 l2 l4 → Forall2 R3 l3 l4 →
  (∀ a b c d, a ∈ l1 → R1 a b → R2 b d → R3 c d → R a c) → Forall2 R l1 l3.
Proof.
  intros H1 H2 H3 H. revert l4 l3 H2 H3. induction H1 as [|a b l1 l2 Hab H1 IH]; intros l4 l3 H2 H3.
  - inversion H2; subst. inversion H3; subst. constructor.
  - inversion H2 as [|? d ? l4' Hbd H2']; subst. inversion H3 as [|c ? l3' ? Hcd H3']; subst. constructor.
    + apply (H a b c d); [by left|done..].
    + apply (IH ltac:(intros; eapply H; [by right|done..]) l4'); done.
Qed.
Lemma Forall2_square {A B C D} (R1 : A → B → Prop) (R2 : A → C → Prop) (R3 : C → D → Prop) (R : B → D → Prop) l1 l2 l3 l4 :
  Forall2 R1 l1 l2 → Forall2 R2 l1 l3 → Forall2 R3 l3 l4 →
  (∀ a b c d, a ∈ l1 → R1 a b → R2 a c → R3 c d → R b d) → Forall2 R l2 l4.
Proof.
  intros H1 H2 H3 H. revert l3 l4 H2 H3. induction H1 as [|a b l1 l2 Hab H1 IH]; intros l3 l4 H2 H3.
  - inversion H2; subst. inversion H3; subst. constructor.
  - inversion H2 as [|? c ? l3' Hac H2']; subst. inversion H3 as [|? d ? l4' Hcd H3']; subst. constructor.
    + apply (H a b c d); [by left|done..].
    + apply (IH ltac:(intros; eapply H; [by right|done..]) l3'); done.
Qed.
Lemma sorted_keys_transfer (E : json → json → Prop) l k :
  Forall2 (λ a b, a.1 = b.1 ∧ E a.2 b.2) l k → StronglySorted key_le l → StronglySorted key_le k.
Proof.
  intros H Hs. induction H as [|a b l k [Hk _] H IH]; [constructor|]. inversion Hs as [|? ? Hs' Ha]; subst.
  constructor; [by apply IH|]. clear -H Ha Hk. induction H as [|x y l k [Hx _] H IH]; [constructor|].
  inversion Ha; subst. constructor; [|by apply IH]. unfold key_le in *. by rewrite <- Hk, <- Hx.
Qed.
Lemma NoDup_keys_inj (l : dict) a b : NoDup (map fst l) → a ∈ l → b ∈ l → a.1 = b.1 → a = b.
Proof.
  induction l as [|x l IH]; [set_solver|]. cbn [map]. intros [Hx Hn]%NoDup_cons. rewrite !elem_of_cons.
  assert (∀ y, y ∈ l → y.1 ≠ x.1) as Hne.
  { intros y Hy E. apply Hx. rewrite <- E. apply list_elem_of_fmap. by exists y. }
  intros [->|Ha] [->|Hb] E; [done|by destruct (Hne b Hb)|by destruct (Hne a Ha)|by apply IH].
Qed.
Lemma sorted_unique l k : l ≡ₚ k → StronglySorted key_le l → StronglySorted key_le k → NoDup (map fst k) → l = k.
Proof.
  intros Hp Hl Hk Hn. apply (StronglySorted_unique_strong key_le); [|done..].
  intros a b Ha Hb Hab Hba. apply (NoDup_keys_inj k); [done|by rewrite <- Hp|done|]. unfold key_le in *.
  by apply (anti_symm String.le).
Qed.
Lemma prints_obj o c : prints_from (JObj o) c →
  ∃ l k, c = JObj l ∧ k ≡ₚ l ∧ Forall2 (λ a b, b.1 = nfc a.1 ∧ prints_from a.2 b.2) o k ∧
    StronglySorted key_le l ∧ NoDup (map fst l).
Proof.
  inversion 1 as [| | | | | |? o' l Ho Hf Hs Hn]; subst. destruct (Forall2_perm_l _ _ _ _ Hf Ho) as (k & Hk & Hf').
  exists l, k. split; [done|]. split; [by symmetry|done].
Qed.
Lemma text_same v w c d : prints_from v c → prints_from w d → same_text float_repr c d → same v w.
Proof.
  revert w c d. induction v as [|b|z|m e|s|l IH|o IH] using json_nested_ind; intros w c d Hc Hd Ht; inversion Hc; subst;
    inversion Ht; subst; inversion Hd; subst; try by constructor.
  - constructor. eapply (Forall2_chain _ _ _ same); [done|done|done|]. rewrite Forall_forall in IH.
    intros x c y d Hx G1 G2 G3. by apply (IH x Hx y c d).
  - rewrite Forall_forall in IH.
    match goal with
    | Ho : ?o' ≡ₚ o, H1 : Forall2 _ ?o' ?l, H2 : Forall2 _ ?l ?k, Hp : ?p' ≡ₚ ?p, H3 : Forall2 _ ?p' ?k |- _ =>
        assert (Forall2 (λ a b, nfc a.1 = nfc b.1 ∧ same a.2 b.2) o' p') as HF;
        [apply (Forall2_chain _ _ _ _ _ _ _ _ H1 H2 H3)
        |destruct (Forall2_perm_l _ _ _ _ HF Ho) as (p2 & Hp2 & HF2); apply (same_up_obj o p p2); [by rewrite <- Hp2|done]]
    end.
    intros [k1 x] [k2 c] [k3 y] [k4 d] Hx [E1 G1] [E2 G2] [E3 G3]. cbn in *. split; [congruence|].
    apply (IH (k1, x)) with c d; [|done..].
    match goal with Ho : _ ≡ₚ o |- _ => by rewrite <- Ho end.
Qed.
Lemma same_same_text v w c d : prints_from v c → prints_from w d → same v w → same_text float_repr c d.
Proof.
  revert w c d. induction v as [|b|z|m e|s|l IH|o IH] using json_nested_ind; intros w c d Hc Hd Hs; inversion Hc; subst;
    inversion Hs; subst; inversion Hd; subst; try by constructor.
  - match goal with H : nfc s = _ |- _ => rewrite H end. constructor.
  - constructor. rewrite Forall_forall in IH.
    eapply (Forall2_square _ _ _ (same_text float_repr)); [done|done|done|].
    intros x c y d Hx G1 G2 G3. by apply (IH x Hx y c d).
  - rewrite Forall_forall in IH. clear H0 H1 H2 H3 H6 H7 H8 H9.
    match goal with Hp : ?q ≡ₚ ?p, HF : Forall2 _ o ?q |- _ => rename Hp into Hperm, HF into Hsame end.
    apply prints_obj in Hc as (l1 & k1 & [= ->] & P1 & F1 & S1 & N1), Hd as (l2 & k2 & [= ->] & P2 & F2 & S2 & N2).
    destruct (Forall2_perm_l _ _ _ _ F2 (Permutation_sym Hperm)) as (k3 & P3 & F3).
    assert (Forall2 (λ a b, a.1 = b.1 ∧ same_text float_repr a.2 b.2) k1 k3) as HF.
    { apply (Forall2_square _ _ _ _ _ _ _ _ F1 Hsame F3).
      intros [k x] [k' c] [k'' y] [k4 d] Hx [E1 G1] [E2 G2] [E3 G3]. cbn in *. split; [congruence|].
      by apply (IH (k, x) Hx y c d). }
    destruct (Forall2_perm_l _ _ _ _ HF P1) as (k4 & P4 & HF2). constructor.
    assert (k4 = l2) as <-; [|done].
    apply sorted_unique; [by rewrite <- P4, <- P3|by apply (sorted_keys_transfer (same_text float_repr) l1)|done..].
Qed.
End equal.

(** Canonical texts are equal exactly when the values are the same JSON. *)
Lemma canonical_json_exact float_repr nfc v w a b :
  (∀ m e, float_text (float_repr m e)) →
  canonical_json float_repr nfc v = Ok a → canonical_json float_repr nfc w = Ok b →
  a = b ↔ same float_repr nfc v w.
Proof.
  intros Hf. unfold canonical_json, mbind, result_bind.
  destruct (canonical_value nfc v) as [c|] eqn:Ec; [|done]. destruct (canonical_value nfc w) as [d|] eqn:Ed; [|done].
  intros [= <-] [= <-]. apply (canonical_prints_from nfc) in Ec, Ed. split.
  - intros E. apply (text_same float_repr nfc v w _ _ Ec Ed).
    apply (text_injective float_repr Hf (sort_keys c) (sort_keys d) "" "" I I). by rewrite !str_app_nil_r.
  - intros H. apply (same_same_text float_repr nfc v w _ _ Ec Ed) in H.
    by apply same_text_render.
Qed.

Section arguments.
Context (nfc : string → string).
Hypothesis nfc_idempotent : ∀ s, nfc (nfc s) = nfc s.
Lemma canonical_same float_repr v : ∀ c, canonical_value nfc v = Ok c → same float_repr nfc v c.
Proof.
  induction v as [|b|z|m e|s|l IH|o IH] using json_nested_ind; intros c; cbn [canonical_value]; try (intros [= <-]; by constructor).
  - unfold mbind, result_bind. match goal with |- context [match ?go l with _ => _ end] => set (g := go) end.
    destruct (g l) as [k|] eqn:E; [|done]. intros [= <-]. constructor.
    revert k E. induction IH as [|v l Hv IH IHl]; intros k; cbn; [by intros [= <-]|].
    destruct (canonical_value nfc v) as [c|]; [|done]. destruct (g l) as [k'|]; [|done]. intros [= <-].
    constructor; [by apply Hv|by apply IHl].
  - unfold mbind, result_bind. destruct (fold_items _ _ _) as [d|] eqn:E; [|done]. intros [= <-].
    apply fold_items_Ok in E as (l & -> & Hf & _). cbn [app] in *.
    set (items := map (λ kv, (kv.1, canonical_value nfc kv.2)) o) in *.
    destruct (Forall2_perm_l _ _ _ _ Hf (merge_sort_Permutation item_le items)) as (l2 & Hp & Hf2).
    apply (same_up_obj _ _ o l l2); [by symmetry|]. subst items. clear -Hf2 IH nfc_idempotent.
    revert l2 Hf2. induction IH as [|[k v] o Hv IH IHo]; intros l2 H; inversion H as [|? [k' c] ? l' [E1 E2] Hl]; subst; cbn in *.
    + constructor.
    + constructor; [|by apply IHo]. cbn. split; [by rewrite E1, nfc_idempotent|by apply Hv].
Qed.
(** Canonicalizing twice prints the same text. *)
Lemma canonical_json_again float_repr c n a b :
  (∀ m e, float_text (float_repr m e)) → canonical_value nfc c = Ok n →
  canonical_json float_repr nfc c = Ok a → canonical_json float_repr nfc n = Ok b → a = b.
Proof. intros Hf Hn Ha Hb. apply (canonical_json_exact float_repr nfc c n a b Hf Ha Hb). by apply canonical_same. Qed.
End arguments.

(** C16: The hash of the arguments of a tool call identifies them: two accepted argument
    objects have the same hash exactly when, with the defaults of the schema filled in, they
    are the same JSON up to the order of keys and Unicode normalisation - no quote,
    backslash, comma or bracket in a string makes two different arguments hash alike. *)
Theorem arguments_identified float_repr nfc conforms sha256_hex schema x y nx rx hx ny ry hy :
  (∀ m e, float_text (float_repr m e)) → (∀ s, nfc (nfc s) = nfc s) →
  (∀ a b, sha256_hex a = sha256_hex b → a = b) →
  validate_and_normalize float_repr nfc conforms sha256_hex x schema = Ok (nx, rx, hx) →
  validate_and_normalize float_repr nfc conforms sha256_hex y schema = Ok (ny, ry, hy) →
  hx = hy ↔ same float_repr nfc (_apply_defaults (JObj schema) (JObj x)) (_apply_defaults (JObj schema) (JObj y)).
Proof.
  intros Hf Hn Hs.
  assert (∀ a n r h, validate_and_normalize float_repr nfc conforms sha256_hex a schema = Ok (n, r, h) →
    canonical_json float_repr nfc (_apply_defaults (JObj schema) (JObj a)) = Ok r ∧ h = sha256_hex r) as H.
  { intros a n r h. unfold validate_and_normalize. generalize (_apply_defaults (JObj schema) (JObj a)). intros c.
    unfold mbind, result_bind. destruct (canonical_value nfc c) as [v|] eqn:E; [|done]. destruct v as [| | | | | |d]; try done.
    destruct (conforms schema d) as [[]|]; [|done..]. cbn [negb].
    destruct (canonical_json float_repr nfc (JObj d)) as [t|] eqn:Et; [|done]. intros [= <- <- <-]. split; [|done].
    destruct (canonical_json float_repr nfc c) as [t'|] eqn:Et'.
    - f_equal. by apply (canonical_json_again nfc Hn float_repr c (JObj d)).
    - unfold canonical_json, mbind, result_bind in Et'. by rewrite E in Et'. }
  intros Hx%H Hy%H. destruct Hx as [Hx ->], Hy as [Hy ->].
  rewrite <- (canonical_json_exact float_repr nfc _ _ rx ry Hf Hx Hy). split; [apply Hs|by intros ->].
Qed.

(** ** The theorem at concrete arguments: a default filled in, and another order of keys *)
Definition exponent_text (m e : Z) : string := pretty m +:+ "e" +:+ pretty e.
Lemma every_char_e m e : every_char int_char (exponent_text m e) = false.
Proof. unfold exponent_text. rewrite every_char_app. by rewrite andb_false_r. Qed.
Lemma exponent_float m e : float_text (exponent_text m e).
Proof.
  split; [|apply every_char_e]. unfold exponent_text. rewrite every_char_app. change ("e" +:+ pretty e) with (String "e" (pretty e)).
  cbn [every_char]. by rewrite !int_number by apply pretty_int.
Qed.
Definition search_schema : dict :=
  [("type", JStr "object");
   ("properties", JObj [("query", JObj [("type", JStr "string")]); ("limit", JObj [("default", JInt 10)])])].
Definition short_call : dict := [("query", JStr "a,b")].
Definition long_call : dict := [("limit", JInt 10); ("query", JStr "a,b")].
Definition search_text : string :=
  "{" +:+ dumps_str "limit" +:+ ":10," +:+ dumps_str "query" +:+ ":" +:+ dumps_str "a,b" +:+ "}".
Abbreviation search_arguments x :=
  (validate_and_normalize exponent_text (λ s, s) (λ _ _, Ok true) (λ s, s) x search_schema).
Lemma arguments_identified_witness :
  search_arguments short_call = Ok (long_call, search_text, search_text) ∧
  search_arguments long_call = Ok (long_call, search_text, search_text) ∧
  same exponent_text (λ s, s) (_apply_defaults (JObj search_schema) (JObj short_call))
    (_apply_defaults (JObj search_schema) (JObj long_call)).
Proof.
  assert (search_arguments short_call = Ok (long_call, search_text, search_text)) as Hx by by vm_compute.
  assert (search_arguments long_call = Ok (long_call, search_text, search_text)) as Hy by by vm_compute.
  split; [exact Hx|]. split; [exact Hy|].
  exact (proj1 (arguments_identified exponent_text (λ s, s) (λ _ _, Ok true) (λ s, s) search_schema short_call long_call
    long_call search_text search_text long_call search_text search_text exponent_float (λ s, eq_refl) (λ a b H, H) Hx Hy) eq_refl).
Defined.
(** A schema naming its dialect by an array is not refused but breaks the check. *)
Lemma dialect_array_raises float_repr check_schema :
  validate_schema float_repr check_schema [("$schema", JArr [])] = Raise (TypeError "unhashable type: 'list'").
Proof. done. Qed.
