(* ===== verification/ToolRegistry.v ===== *)
(** * The tool registry ([tools/registry.py], [policy/scopes.py])

    What a tool must declare to be registered, and the catalog: built-in tools by name and
    version, and dynamic tools - those of MCP servers and of devices - by the tenant and the
    principal they were registered for. *)
From S2P Require Import Prelude PolicyModel Messages RunModel Sessions Policy Checkpoints ToolInvocations ToolTrust ToolSpecs ToolPipeline CanonicalJson.

(** ** Names and scopes *)
Definition lower_letter (c : Ascii.ascii) : bool := let n := Ascii.N_of_ascii c in (97 <=? n)%N && (n <=? 122)%N.
Definition name_char (c : Ascii.ascii) : bool :=
  let n := Ascii.N_of_ascii c in lower_letter c || (48 <=? n)%N && (n <=? 57)%N || Ascii.eqb c "_".
(** A lower-case letter, then lower-case letters, digits and underscores. *)
Definition identifier (s : string) : bool :=
  match s with EmptyString => false | String c s => lower_letter c && every_char name_char s end.
(** Two or more of them with dots between, the pattern of tool names and of scopes. *)
Definition dotted (s : string) : bool :=
  let parts := py_split_char "." s in (1 <? length parts)%nat && forallb identifier parts.
Definition TOOL_NAME : string → bool := dotted.
Definition _SCOPE : string → bool := dotted.
Definition PLATFORM_SCOPES : list string :=
  ["session.read"; "session.write"; "run.read"; "run.write"; "run.cancel"; "run.delegate"; "approval.read";
   "approval.resolve"; "artifact.read"; "artifact.write"; "media.generate"; "workspace.read"; "workspace.write";
   "sandbox.execute"; "skill.write"; "demo.write"; "knowledge.write"; "browser.profile.read"; "browser.profile.write";
   "browser.grant.read"; "browser.grant.write"; "schedule.read"; "schedule.write"; "schedule.cancel"; "schedule.run";
   "device.read"; "device.write"; "notification.read"; "notification.write"; "surface.read"; "surface.write";
   "memory.read"; "memory.write"; "people.read"; "people.write"; "records.read"; "records.write"; "cockpit.read";
   "cockpit.write"; "jobs.write"; "jobs.run"; "code.read"; "code.write"; "persona.read"; "persona.write";
   "settings.read"; "settings.write"; "email.read"; "email.write"; "call.read"; "call.cancel"; "call.delete"].
(** [repr] of a string. *)
Definition repr_char (q c : Ascii.ascii) : string :=
  let n := Ascii.N_of_ascii c in
  if Ascii.eqb c q || Ascii.eqb c backslash then String backslash (String c "")
  else if (n =? 9)%N then String backslash "t"
  else if (n =? 10)%N then String backslash "n"
  else if (n =? 13)%N then String backslash "r"
  else if (n <? 32)%N || (127 <=? n)%N && (n <=? 160)%N || (n =? 173)%N
  then String backslash (String "x" (String (hex_digit (n / 16)) (String (hex_digit (n mod 16)) "")))
  else String c "".
Fixpoint repr_body (q : Ascii.ascii) (s : string) : string :=
  match s with EmptyString => "" | String c s => repr_char q c +:+ repr_body q s end.
Definition py_repr (s : string) : string :=
  let q := if str_has "'" s && negb (str_has quote s) then quote else "'"%char in
  String q (repr_body q s +:+ String q "").
(** The loop over a set, in the order [scopes] gives. *)
Fixpoint check_scopes (scopes : list string) (mcp_server_id : option string) : result unit :=
  match scopes with
  | [] => Ok tt
  | scope :: scopes =>
      if negb (_SCOPE scope) then Raise (ToolValidationError ("invalid required scope " +:+ py_repr scope))
      else match mcp_server_id with
           | None =>
               if negb (bool_decide (scope ∈ PLATFORM_SCOPES))
               then Raise (ToolValidationError ("unknown platform scope " +:+ py_repr scope))
               else check_scopes scopes mcp_server_id
           | Some server =>
               if negb (py_startswith ("mcp." +:+ server +:+ ".") scope)
               then Raise (ToolValidationError "MCP tools may require only their server scope namespace")
               else check_scopes scopes mcp_server_id
           end
  end.
Definition validate_required_scopes (scopes : gset string) (mcp_server_id : option string) : result unit :=
  check_scopes (elements scopes) mcp_server_id.
Definition missing_scopes (required granted : gset string) : gset string := required ∖ granted.

(** ** Registration *)
Definition BUILTIN_DOMAINS : list string :=
  ["system"; "math"; "workspace"; "sandbox"; "artifact"; "image"; "video"; "demo"; "delegate"; "conversation"; "context";
   "skill"; "memory"; "people"; "records"; "cockpit"; "job"; "run"; "code"; "email"; "knowledge"; "web"; "browser";
   "schedule"; "tool"].
Definition RESERVED_DOMAINS : list string := ["mcp"; "device"].
Definition GLOBAL_MAXIMUM_OUTPUT_BYTES : Z := 4 * 1024 * 1024.
Definition CONTROL_TOOL_NAMES : list string :=
  ["conversation.ask_user"; "delegate.run"; "context.update_working_state"; "skill.load"; "tool.call"].
Definition UNSUBSCRIBE_TARGET_KIND : string := "unsubscribe_endpoint".
(** [name.partition(".")[0]] *)
Definition tool_domain (name : string) : string := hd "" (py_split_char "." name).
Definition is_source (spec : ToolSpec) (s : ToolSource) : bool := bool_decide (ts_source spec = s).
Definition target_is (spec : ToolSpec) (kind : string) : bool := String.eqb (ts_target_kind spec) kind.
Definition untrusted_output (spec : ToolSpec) : ToolSpec := {|
  ts_name := ts_name spec; ts_version := ts_version spec; ts_description := ts_description spec;
  ts_input_schema := ts_input_schema spec; ts_output_schema := ts_output_schema spec;
  ts_side_effect := ts_side_effect spec; ts_risk := ts_risk spec; ts_idempotency := ts_idempotency spec;
  ts_required_scopes := ts_required_scopes spec; timeout_seconds := timeout_seconds spec;
  maximum_output_bytes := maximum_output_bytes spec; allow_parallel := allow_parallel spec; ts_kind := ts_kind spec;
  ts_target_kind := ts_target_kind spec; ts_output_trust := EXTERNAL_UNTRUSTED; ts_source := ts_source spec;
  ts_server_id := ts_server_id spec; ts_device_id := ts_device_id spec; deprecated := deprecated spec;
  model_visible := model_visible spec |}.
(** The declarations of the five kinds of tools with a fixed classification. *)
Definition control_ok (spec : ToolSpec) : bool :=
  bool_decide (ts_name spec ∈ CONTROL_TOOL_NAMES) && bool_decide (ts_side_effect spec = SE_NONE) &&
  bool_decide (ts_idempotency spec ∈ [READ_ONLY; IDEMPOTENT]) && target_is spec "in_process".
Definition web_ok (spec : ToolSpec) : bool :=
  is_source spec BUILTIN && String.eqb (tool_domain (ts_name spec)) "web" &&
  bool_decide (ts_side_effect spec = NETWORK_READ) && bool_decide (ts_idempotency spec = READ_ONLY) &&
  bool_decide (ts_output_trust spec = EXTERNAL_UNTRUSTED).
Definition browser_read (spec : ToolSpec) : bool :=
  bool_decide (ts_name spec ∈ ["browser.navigate"; "browser.observe"]) && bool_decide (ts_side_effect spec = NETWORK_READ) &&
  bool_decide (ts_risk spec = LOW) && bool_decide (ts_idempotency spec = READ_ONLY) && negb (allow_parallel spec).
Definition browser_write (spec : ToolSpec) : bool :=
  bool_decide (ts_name spec ∈ ["browser.act"; "browser.upload"]) && bool_decide (ts_side_effect spec = EXTERNAL_WRITE) &&
  bool_decide (ts_risk spec = HIGH) && bool_decide (ts_idempotency spec = NON_IDEMPOTENT) && negb (allow_parallel spec).
Definition browser_ok (spec : ToolSpec) : bool :=
  is_source spec BUILTIN && String.eqb (tool_domain (ts_name spec)) "browser" &&
  (browser_read spec || browser_write spec) && bool_decide (ts_output_trust spec = EXTERNAL_UNTRUSTED).
Definition unsubscribe_ok (spec : ToolSpec) : bool :=
  is_source spec BUILTIN && bool_decide (ts_side_effect spec = EXTERNAL_WRITE) && bool_decide (ts_risk spec = MEDIUM) &&
  bool_decide (ts_idempotency spec = IDEMPOTENT) && negb (allow_parallel spec).

Section registration.
Context (float_repr : Z → Z → string) (check_schema : dict → bool).
Definition validate_registration (spec : ToolSpec) : result ToolSpec :=
  let name := ts_name spec in
  let domain := tool_domain name in
  let builtin := is_source spec BUILTIN in
  raise_if (96 <? String.length name)%nat || negb (TOOL_NAME name) with ToolValidationError "invalid tool name";
  raise_if builtin && bool_decide (domain ∈ RESERVED_DOMAINS)
    with ToolValidationError "builtin tools may not use reserved domains";
  raise_if builtin && negb (bool_decide (domain ∈ BUILTIN_DOMAINS)) with ToolValidationError "unknown builtin tool domain";
  raise_if negb builtin && bool_decide (domain ∈ BUILTIN_DOMAINS)
    with ToolValidationError "external tools may not use builtin-owned domains";
  raise_if is_source spec MCP && negb (String.eqb domain "mcp")
    with ToolValidationError "MCP tools must use the mcp namespace";
  raise_if is_source spec MCP && negb (match ts_server_id spec with Some s => identifier s | None => false end)
    with ToolValidationError "MCP tools require a valid server id";
  raise_if is_source spec MCP && negb (py_startswith ("mcp." +:+ default "None" (ts_server_id spec) +:+ ".") name)
    with ToolValidationError "MCP tool name does not match its server id";
  raise_if is_source spec DEVICE && negb (String.eqb domain "device")
    with ToolValidationError "device tools must use the device namespace";
  raise_if is_source spec DEVICE && (bool_decide (ts_device_id spec = None) || negb (target_is spec "device"))
    with ToolValidationError "device tools require a device target and a device identifier";
  raise_if negb (is_source spec DEVICE) && negb (bool_decide (ts_device_id spec = None))
    with ToolValidationError "only device tools carry a device identifier";
  _ ← validate_required_scopes (ts_required_scopes spec) (if is_source spec MCP then ts_server_id spec else None);
  _ ← validate_schema float_repr check_schema (ts_input_schema spec);
  _ ← match ts_output_schema spec with Some s => validate_schema float_repr check_schema s | None => Ok tt end;
  raise_if (timeout_seconds spec <=? 0) || (maximum_output_bytes spec <=? 0)
    with ToolValidationError "tool limits must be positive";
  raise_if GLOBAL_MAXIMUM_OUTPUT_BYTES <? maximum_output_bytes spec
    with ToolValidationError "tool output limit exceeds the global ceiling";
  raise_if bool_decide (ts_kind spec = CONTROL) && negb (control_ok spec)
    with ToolValidationError "control tool classification is invalid";
  raise_if bool_decide (name ∈ CONTROL_TOOL_NAMES) && negb (bool_decide (ts_kind spec = CONTROL))
    with ToolValidationError "declared control tool must use the control kind";
  raise_if target_is spec "web_provider" && negb (web_ok spec)
    with ToolValidationError "web provider target classification is invalid";
  raise_if target_is spec "browser_provider" && negb (browser_ok spec)
    with ToolValidationError "browser provider target classification is invalid";
  raise_if negb (Bool.eqb (target_is spec UNSUBSCRIBE_TARGET_KIND) (String.eqb name UNSUBSCRIBE_TOOL_NAME)) ||
      String.eqb name UNSUBSCRIBE_TOOL_NAME && negb (unsubscribe_ok spec)
    with ToolValidationError "unsubscribe endpoint target classification is invalid";
  Ok (if bool_decide (ts_source spec ∈ [MCP; DEVICE; SANDBOX]) || target_is spec "sandbox"
      then untrusted_output spec else spec).
End registration.

(** ** The catalog *)
Section catalog.
Context {I : Type} (tool_spec : I → ToolSpec) (float_repr : Z → Z → string) (check_schema : dict → bool).
Record RegisteredTool := { spec : ToolSpec; implementation : I }.
(** Keys: name and version; tenant, principal, name and version. *)
Abbreviation static_key := (string * string)%type.
Abbreviation scope_key := (string * option string * string)%type.
Abbreviation dynamic_key := (string * option string * string * string)%type.
Record StaticToolRegistry := {
  _tools : gmap static_key RegisteredTool;
  _latest : gmap string string;
  _dynamic_tools : gmap dynamic_key RegisteredTool;
  _dynamic_latest : gmap scope_key string;
}.
Definition empty_registry : StaticToolRegistry :=
  {| _tools := ∅; _latest := ∅; _dynamic_tools := ∅; _dynamic_latest := ∅ |}.
Definition key_name (k : dynamic_key) : string := k.1.2.
Definition dynamic_keys (r : StaticToolRegistry) : list dynamic_key := (map_to_list (_dynamic_tools r)).*1.
Abbreviation M := (stateM StaticToolRegistry).
Definition checked (t : I) : M ToolSpec := lift (validate_registration float_repr check_schema (tool_spec t)).
Definition register (t : I) : M unit :=
  s ← checked t;
  r ← get_state;
  let key := (ts_name s, ts_version s) in
  if bool_decide (is_Some (_tools r !! key)) || existsb (λ k, String.eqb (key_name k) (ts_name s)) (dynamic_keys r)
  then raise (ConflictError "duplicate tool name and version")
  else modify (λ r, {|
    _tools := <[key := {| spec := s; implementation := t |}]> (_tools r);
    _latest := <[ts_name s := ts_version s]> (_latest r);
    _dynamic_tools := _dynamic_tools r; _dynamic_latest := _dynamic_latest r |}).
(** [not principal_id] *)
Definition absent (p : option string) : bool := match p with Some s => String.eqb s "" | None => true end.
Definition register_dynamic (t : I) (tenant_id : string) (principal_id : option string) : M unit :=
  s ← checked t;
  if negb (bool_decide (ts_source s ∈ [MCP; DEVICE]))
  then raise (ToolValidationError "only MCP discovery and device capabilities may dynamically register tools")
  else if String.eqb tenant_id "" then raise (ToolValidationError "dynamic tool registration requires a tenant")
  else if is_source s DEVICE && absent principal_id
  then raise (ToolValidationError "dynamic device registration requires a principal")
  else if is_source s MCP && negb (bool_decide (principal_id = None))
  then raise (ToolValidationError "dynamic MCP registration is tenant scoped")
  else
    r ← get_state;
    if bool_decide (is_Some (_latest r !! ts_name s))
    then raise (ConflictError "dynamic tool name is reserved by a static registration")
    else
      let key := (tenant_id, principal_id, ts_name s, ts_version s) in
      if bool_decide (is_Some (_dynamic_tools r !! key)) then raise (ConflictError "duplicate dynamic tool name and version")
      else modify (λ r, {|
        _tools := _tools r; _latest := _latest r;
        _dynamic_tools := <[key := {| spec := s; implementation := t |}]> (_dynamic_tools r);
        _dynamic_latest := <[(tenant_id, principal_id, ts_name s) := ts_version s]> (_dynamic_latest r) |}).
(** The versions left under a name, sorted. *)
Definition remaining (tenant_id : string) (principal_id : option string) (name : string) (tools : gmap dynamic_key RegisteredTool)
    : list string :=
  merge_sort String.le (omap (λ k : dynamic_key, let '(t, p, n, v) := k in
    if bool_decide (t = tenant_id) && bool_decide (p = principal_id) && bool_decide (n = name) then Some v else None)
    (map_to_list tools).*1).
Definition unregister_dynamic (name version tenant_id : string) (principal_id : option string) : M unit :=
  modify (λ r,
    let tools := delete (tenant_id, principal_id, name, version) (_dynamic_tools r) in
    let scope := (tenant_id, principal_id, name) in
    {| _tools := _tools r; _latest := _latest r; _dynamic_tools := tools;
       _dynamic_latest :=
         if negb (bool_decide (_dynamic_latest r !! scope = Some version)) then _dynamic_latest r
         else match last (remaining tenant_id principal_id name tools) with
              | Some v => <[scope := v]> (_dynamic_latest r)
              | None => delete scope (_dynamic_latest r)
              end |}).

(** ** Lookup *)
Definition agrees {A} `{EqDecision A} (asked : option A) (value : option A) : bool :=
  match asked with None => true | Some _ => bool_decide (value = asked) end.
Definition _identity_matches (s : ToolSpec) (source : option ToolSource) (server_id device_id : option string) : bool :=
  agrees source (Some (ts_source s)) && agrees server_id (ts_server_id s) && agrees device_id (ts_device_id s).
Section lookup.
Context (name : string) (version : option string) (source : option ToolSource) (server_id device_id : option string)
  (r : StaticToolRegistry).
Definition dynamic_answer (tenant_id : string) (scoped_principal : option string) : option RegisteredTool :=
  match (match version with None => _dynamic_latest r !! (tenant_id, scoped_principal, name) | Some v => Some v end) with
  | None => None
  | Some v =>
      match _dynamic_tools r !! (tenant_id, scoped_principal, name, v) with
      | Some dynamic => if _identity_matches (spec dynamic) source server_id device_id then Some dynamic else None
      | None => None
      end
  end.
Fixpoint first_answer (tenant_id : string) (scopes : list (option string)) : option RegisteredTool :=
  match scopes with
  | [] => None
  | p :: scopes => match dynamic_answer tenant_id p with Some t => Some t | None => first_answer tenant_id scopes end
  end.
Definition dynamic_scopes (principal_id : option string) : list (option string) :=
  match principal_id with Some p => [Some p; None] | None => [None] end.
Definition static_answer : result RegisteredTool :=
  match (match version with None => _latest r !! name | Some v => Some v end) with
  | None => Raise (NotFoundError "tool not found")
  | Some v =>
      match _tools r !! (name, v) with
      | None => Raise (NotFoundError "tool not found")
      | Some t => if _identity_matches (spec t) source server_id device_id then Ok t else Raise (NotFoundError "tool not found")
      end
  end.
Definition get (tenant_id principal_id : option string) : result RegisteredTool :=
  match tenant_id ≫= λ t, first_answer t (dynamic_scopes principal_id) with
  | Some dynamic => Ok dynamic
  | None => static_answer
  end.
End lookup.

(** ** What a session is offered *)
Definition visible_names (who : Principal) (r : StaticToolRegistry) : list string :=
  merge_sort String.le (omap (λ k : scope_key, let '(t, p, n) := k in
    if bool_decide (t = Principal.tenant_id who) && (bool_decide (p = None) || bool_decide (p = Some (Principal.principal_id who)))
    then Some n else None) (map_to_list (_dynamic_latest r)).*1).
(** [dict.fromkeys]: the first of each. *)
Fixpoint first_of_each (seen l : list string) : list string :=
  match l with
  | [] => []
  | n :: l => if bool_decide (n ∈ seen) then first_of_each seen l else n :: first_of_each (n :: seen) l
  end.
Definition offer (who : Principal) (r : StaticToolRegistry) (name : string) : option ToolSpec :=
  match get name None None None None r (Some (Principal.tenant_id who)) (Some (Principal.principal_id who)) with
  | Ok t => if deprecated (spec t) || negb (bool_decide (ts_required_scopes (spec t) ⊆ Principal.scopes who))
            then None else Some (spec t)
  | Raise _ => None
  end.
Definition name_le (a b : ToolSpec) : Prop := String.le (ts_name a) (ts_name b).
#[local] Instance name_le_dec a b : Decision (name_le a b) := _.
Definition specs_for_session (agent : AgentSpec) (who : Principal) (r : StaticToolRegistry) : list ToolSpec :=
  merge_sort name_le (omap (offer who r) (first_of_each [] (enabled_tools agent ++ visible_names who r))).
End catalog.
#[global] Arguments RegisteredTool I : clear implicits.
#[global] Arguments StaticToolRegistry I : clear implicits.
