(* ===== verification/ToolRegistrySpec.v ===== *)
(** * What the tool registry promises

    Names belong to those who may register them, what a tenant or a principal is offered
    depends on nobody else's registrations, and a lookup answers only registered tools. *)
From S2P Require Import Prelude PolicyModel Messages RunModel Sessions Policy Checkpoints ToolInvocations ToolTrust ToolSpecs ToolPipeline CanonicalJson ToolRegistry.

(** ** Registration *)
Ltac refusals :=
  repeat match goal with
  | |- (if ?b then Raise _ else _) = Ok _ → _ => let E := fresh "E" in destruct b eqn:E; [done|]
  end.
Section accepted.
Context (float_repr : Z → Z → string) (check_schema : dict → bool).
Abbreviation validate := (validate_registration float_repr check_schema).
Definition external (s : ToolSpec) : Prop := ts_source s ≠ BUILTIN.
(** What registration guarantees of a spec. *)
Record accepted (s : ToolSpec) : Prop := {
  acc_name : dotted (ts_name s) = true;
  acc_builtin : ts_source s = BUILTIN ↔ tool_domain (ts_name s) ∈ BUILTIN_DOMAINS;
  acc_mcp : ts_source s = MCP → ∃ server, ts_server_id s = Some server ∧ identifier server = true ∧
    tool_domain (ts_name s) = "mcp" ∧ py_startswith ("mcp." +:+ server +:+ ".") (ts_name s) = true ∧
    ∀ scope, scope ∈ ts_required_scopes s → py_startswith ("mcp." +:+ server +:+ ".") scope = true;
  acc_device : ts_source s = DEVICE → tool_domain (ts_name s) = "device" ∧ ts_device_id s ≠ None ∧ ts_target_kind s = "device";
  acc_scopes : ts_source s ≠ MCP → ∀ scope, scope ∈ ts_required_scopes s → scope ∈ PLATFORM_SCOPES;
  acc_trust : external s → ts_output_trust s = EXTERNAL_UNTRUSTED;
  acc_limits : 0 < timeout_seconds s ∧ 0 < maximum_output_bytes s <= GLOBAL_MAXIMUM_OUTPUT_BYTES;
  acc_control : ts_kind s = CONTROL ↔ ts_name s ∈ CONTROL_TOOL_NAMES;
  acc_browser : ts_target_kind s = "browser_provider" → ts_source s = BUILTIN ∧ ts_output_trust s = EXTERNAL_UNTRUSTED ∧
    allow_parallel s = false ∧ (ts_side_effect s = NETWORK_READ ∨ ts_side_effect s = EXTERNAL_WRITE ∧ ts_risk s = HIGH);
  acc_unsubscribe : ts_target_kind s = UNSUBSCRIBE_TARGET_KIND ↔ ts_name s = UNSUBSCRIBE_TOOL_NAME;
}.
Lemma check_scopes_Ok l server : check_scopes l server = Ok tt →
  ∀ scope, scope ∈ l → match server with
    | None => scope ∈ PLATFORM_SCOPES
    | Some s => py_startswith ("mcp." +:+ s +:+ ".") scope = true end.
Proof.
  induction l as [|x l IH]; cbn [check_scopes]; [set_solver|]. destruct (negb (_SCOPE x)); [done|].
  destruct server as [s|].
  - destruct (py_startswith _ x) eqn:E; cbn [negb]; [|done]. intros H scope [->|Hin]%elem_of_cons; [done|by apply IH].
  - destruct (bool_decide (x ∈ _)) eqn:E; cbn [negb]; [|done]. apply bool_decide_eq_true in E.
    intros H scope [->|Hin]%elem_of_cons; [done|by apply IH].
Qed.
Lemma source_true s (k : ToolSource) : is_source s k = true ↔ ts_source s = k.
Proof. apply bool_decide_eq_true. Qed.
Lemma guard (b c : bool) : b && negb c = false → b = true → c = true.
Proof. by destruct b, c. Qed.
Lemma guard_not (b c : bool) : b && c = false → b = true → c = false.
Proof. by destruct b, c. Qed.
Lemma relabelled (b : bool) s : let s' := if b then untrusted_output s else s in
  ts_name s' = ts_name s ∧ ts_version s' = ts_version s ∧ ts_source s' = ts_source s ∧ ts_server_id s' = ts_server_id s ∧
  ts_device_id s' = ts_device_id s ∧ ts_required_scopes s' = ts_required_scopes s ∧ timeout_seconds s' = timeout_seconds s ∧
  maximum_output_bytes s' = maximum_output_bytes s ∧ ts_kind s' = ts_kind s ∧ ts_target_kind s' = ts_target_kind s ∧
  allow_parallel s' = allow_parallel s ∧ ts_side_effect s' = ts_side_effect s ∧ ts_risk s' = ts_risk s ∧
  (b = true → ts_output_trust s' = EXTERNAL_UNTRUSTED).
Proof. by destruct b. Qed.
Lemma validate_accepted s s' : validate s = Ok s' →
  accepted s' ∧ ts_name s' = ts_name s ∧ ts_version s' = ts_version s ∧ ts_source s' = ts_source s.
Proof.
  unfold validate_registration. cbv zeta. refusals. unfold mbind, result_bind.
  destruct (validate_required_scopes _ _) as [[]|] eqn:Esc; [|done]. destruct (validate_schema _ _ _); [|done].
  destruct (match ts_output_schema s with Some o => validate_schema float_repr check_schema o | None => Ok tt end); [|done]. refusals. intros [= <-].
  set (b := bool_decide (ts_source s ∈ [MCP; DEVICE; SANDBOX]) || target_is s "sandbox").
  assert (b = true ∨ ts_source s = BUILTIN) as Hb.
  { subst b. rewrite orb_true_iff, bool_decide_eq_true. destruct (ts_source s); set_solver. }
  destruct (relabelled b s) as (F1 & F2 & F3 & F4 & F5 & F6 & F7 & F8 & F9 & F10 & F11 & F12 & F13 & F14). clearbody b.
  split; [|done].
  constructor; rewrite ?F1, ?F2, ?F3, ?F4, ?F5, ?F6, ?F7, ?F8, ?F9, ?F10, ?F11, ?F12, ?F13.
  - apply orb_false_iff in E as [_ E]. by apply negb_false_iff in E.
  - split; intros H.
    + apply source_true in H. pose proof (guard _ _ E1 H) as G. by apply bool_decide_eq_true in G.
    + apply (bool_decide_eq_true_2 _) in H. apply source_true. destruct (is_source s BUILTIN); [done|]. cbn [negb andb] in E2. congruence.
  - intros H%source_true. pose proof (guard _ _ E3 H) as G3. pose proof (guard _ _ E4 H) as G4. pose proof (guard _ _ E5 H) as G5.
    apply String.eqb_eq in G3. destruct (ts_server_id s) as [server|]; [|done]. exists server. cbn [default] in G5.
    rewrite H in Esc. pose proof (check_scopes_Ok _ _ Esc) as G. split; [done|]. split; [done|]. split; [done|]. split; [done|].
    intros scope Hs. apply (G scope). by apply elem_of_elements.
  - intros H%source_true. pose proof (guard _ _ E6 H) as G6. apply String.eqb_eq in G6.
    pose proof (guard_not _ _ E7 H) as [G7 G8%negb_false_iff]%orb_false_iff. apply bool_decide_eq_false in G7.
    split; [done|]. split; [done|]. by apply String.eqb_eq in G8.
  - intros H scope Hs. destruct (is_source s MCP) eqn:EM; [by apply source_true in EM|].
    apply (check_scopes_Ok _ _ Esc). by apply elem_of_elements.
  - unfold external. rewrite F3. intros H. by destruct Hb as [->|].
  - apply orb_false_iff in E9 as [G1 G2]. apply Z.leb_gt in G1, G2. apply Z.ltb_ge in E10. clear -G1 G2 E10. lia.
  - split; intros H.
    + apply (bool_decide_eq_true_2 _) in H. pose proof (guard _ _ E11 H) as G. unfold control_ok in G.
      apply andb_true_iff in G as [[[G _]%andb_true_iff _]%andb_true_iff _]. by apply bool_decide_eq_true in G.
    + apply (bool_decide_eq_true_2 _) in H. pose proof (guard _ _ E12 H) as G. by apply bool_decide_eq_true in G.
  - intros H. assert (target_is s "browser_provider" = true) as Ht by by apply String.eqb_eq.
    pose proof (guard _ _ E14 Ht) as G. unfold browser_ok in G.
    apply andb_true_iff in G as [[[G1%source_true _]%andb_true_iff G2]%andb_true_iff G3%bool_decide_eq_true].
    split; [done|]. split; [by destruct b|].
    unfold browser_read, browser_write in G2. apply orb_true_iff in G2 as [G2|G2];
      apply andb_true_iff in G2 as [[[[_ A1%bool_decide_eq_true]%andb_true_iff A2%bool_decide_eq_true]%andb_true_iff _]%andb_true_iff A3%negb_true_iff];
      auto.
  - apply orb_false_iff in E15 as [G _]. apply negb_false_iff, Bool.eqb_prop in G. unfold target_is in G.
    rewrite <- String.eqb_eq, G. apply String.eqb_eq.
Qed.
End accepted.

(** *** Whose name it is *)
Lemma startswith_rest p s : py_startswith p s = true → ∃ t, s = p +:+ t.
Proof.
  revert s. induction p as [|c p IH]; intros s; [by exists s|]. destruct s as [|d s]; [done|]. cbn [py_startswith].
  intros [->%Ascii.eqb_eq H]%andb_true_iff. destruct (IH s H) as [t ->]. by exists t.
Qed.
Lemma identifier_no_dot s : identifier s = true → str_has "." s = false.
Proof.
  assert (∀ c, name_char c = true → Ascii.eqb c "." = false) as Hc.
  { intros c H. destruct (Ascii.eqb_spec c ".") as [->|]; [by vm_compute in H|done]. }
  destruct s as [|c s]; [done|]. cbn [identifier]. intros [H1 H2]%andb_true_iff. cbn [str_has]. rewrite Hc; [|by unfold name_char; rewrite H1].
  cbn [orb]. induction s as [|d s IH]; [done|]. cbn [every_char str_has] in *. apply andb_true_iff in H2 as [H2 H3].
  by rewrite (Hc d H2), IH.
Qed.
Lemma server_of_name server name : identifier server = true → py_startswith ("mcp." +:+ server +:+ ".") name = true →
  ∃ rest, py_split_char "." name = "mcp" :: server :: rest.
Proof.
  intros Hi [t ->]%startswith_rest. exists (py_split_char "." t).
  change (("mcp." +:+ server +:+ ".") +:+ t) with ("mcp" +:+ String "." ((server +:+ ".") +:+ t)).
  rewrite split_app_sep by done. rewrite str_app_assoc. change ("." +:+ t) with (String "." t).
  by rewrite split_app_sep by by apply identifier_no_dot.
Qed.
Lemma names_owned s1 s2 : accepted s1 → accepted s2 → ts_name s1 = ts_name s2 →
  (ts_source s1 = BUILTIN ↔ ts_source s2 = BUILTIN) ∧
  (ts_source s1 = MCP → ts_source s2 ≠ DEVICE) ∧
  (ts_source s1 = MCP → ts_source s2 = MCP → ts_server_id s1 = ts_server_id s2).
Proof.
  intros A1 A2 E. split; [|split].
  - by rewrite (acc_builtin s1 A1), (acc_builtin s2 A2), E.
  - intros H1 H2. destruct (acc_mcp s1 A1 H1) as (? & _ & _ & G1 & _), (acc_device s2 A2 H2) as [G2 _]. rewrite E, G2 in G1. done.
  - intros H1 H2. destruct (acc_mcp s1 A1 H1) as (v1 & -> & I1 & _ & S1 & _), (acc_mcp s2 A2 H2) as (v2 & -> & I2 & _ & S2 & _).
    destruct (server_of_name v1 _ I1 S1) as [r1 R1], (server_of_name v2 _ I2 S2) as [r2 R2]. rewrite E, R2 in R1. congruence.
Qed.

(** ** Histories of the catalog *)
Section catalog.
Context {T : Type} (tool_spec : T → ToolSpec) (float_repr : Z → Z → string) (check_schema : dict → bool).
Inductive op :=
| Register (t : T)
| RegisterDynamic (t : T) (tenant_id : string) (principal_id : option string)
| UnregisterDynamic (name version tenant_id : string) (principal_id : option string).
Abbreviation registry := (StaticToolRegistry T).
Definition perform (o : op) (r : registry) : registry :=
  match o with
  | Register t => (register tool_spec float_repr check_schema t r).2
  | RegisterDynamic t tenant p => (register_dynamic tool_spec float_repr check_schema t tenant p r).2
  | UnregisterDynamic n v tenant p => (unregister_dynamic n v tenant p r).2
  end.
Definition performs (ops : list op) (r : registry) : registry := foldl (λ r o, perform o r) r ops.
Record sound (r : registry) : Prop := {
  static_entry n v t : _tools r !! (n, v) = Some t → ts_name (spec t) = n ∧ ts_version (spec t) = v ∧ accepted (spec t) ∧ is_Some (_latest r !! n);
  static_latest n v : _latest r !! n = Some v → is_Some (_tools r !! (n, v));
  dynamic_entry tn p n v t : _dynamic_tools r !! (tn, p, n, v) = Some t →
    ts_name (spec t) = n ∧ ts_version (spec t) = v ∧ accepted (spec t) ∧ _latest r !! n = None ∧ tn ≠ "" ∧
    (ts_source (spec t) = MCP ∧ p = None ∨ ts_source (spec t) = DEVICE ∧ ∃ q, p = Some q ∧ q ≠ "") ∧
    is_Some (_dynamic_latest r !! (tn, p, n));
  dynamic_latest tn p n v : _dynamic_latest r !! (tn, p, n) = Some v → is_Some (_dynamic_tools r !! (tn, p, n, v));
}.
Lemma empty_sound : sound empty_registry.
Proof. constructor; intros *; cbn; rewrite lookup_empty; done. Qed.
Lemma remaining_elem (tn : string) (p : option string) (n : string) (m : gmap (string * option string * string * string) (RegisteredTool T)) (v : string) :
  v ∈ remaining tn p n m ↔ is_Some (m !! (tn, p, n, v)).
Proof.
  unfold remaining. rewrite merge_sort_Permutation, list_elem_of_omap. split.
  - intros ([[[t' p'] n'] v'] & Hk & H). apply list_elem_of_fmap in Hk as ([k x] & E & Hk%elem_of_map_to_list). cbn in E. subst k.
    destruct (bool_decide (t' = tn)) eqn:E1, (bool_decide (p' = p)) eqn:E2, (bool_decide (n' = n)) eqn:E3; cbn in H; try done.
    apply bool_decide_eq_true in E1, E2, E3. subst. injection H as ->. by exists x.
  - intros [x Hx]. exists (tn, p, n, v). split; [|by rewrite !bool_decide_true].
    apply list_elem_of_fmap. exists ((tn, p, n, v), x). split; [done|]. by apply elem_of_map_to_list.
Qed.

(** The steps of [register] and [register_dynamic] that get through. *)
Lemma checked_step (A : Type) (t : T) (k : ToolSpec → stateM registry A) r :
  (s ← checked tool_spec float_repr check_schema t; k s) r =
  match validate_registration float_repr check_schema (tool_spec t) with Ok s => k s r | Raise e => (Raise e, r) end.
Proof. unfold mbind, stateM_bind, checked, lift. by destruct (validate_registration _ _ _). Qed.
Lemma register_step t r : perform (Register t) r = r ∨ ∃ s,
  accepted s ∧ _tools r !! (ts_name s, ts_version s) = None ∧
  (∀ k, is_Some (_dynamic_tools r !! k) → key_name k ≠ ts_name s) ∧
  perform (Register t) r = {|
    _tools := <[(ts_name s, ts_version s) := {| spec := s; implementation := t |}]> (_tools r);
    _latest := <[ts_name s := ts_version s]> (_latest r);
    _dynamic_tools := _dynamic_tools r; _dynamic_latest := _dynamic_latest r |}.
Proof.
  cbn [perform]. unfold register. rewrite checked_step. destruct (validate_registration _ _ _) as [s|] eqn:E; [|by left].
  apply validate_accepted in E as [Ha _]. unfold mbind, stateM_bind, get_state. cbv beta iota zeta.
  destruct (bool_decide _ || _) eqn:D; [by left|]. apply orb_false_iff in D as [D1%bool_decide_eq_false D2].
  right. exists s. split; [done|]. split; [by apply eq_None_not_Some|]. split; [|done].
  intros k [x Hk] En. assert (existsb (λ k, String.eqb (key_name k) (ts_name s)) (dynamic_keys r) = true); [|congruence].
  apply existsb_exists. exists k. rewrite <- list_elem_of_In. split; [|by apply String.eqb_eq].
  apply list_elem_of_fmap. exists (k, x). split; [done|]. by apply elem_of_map_to_list.
Qed.
Lemma register_dynamic_step t tn p r : perform (RegisterDynamic t tn p) r = r ∨ ∃ s,
  accepted s ∧ _latest r !! ts_name s = None ∧ tn ≠ "" ∧
  (ts_source s = MCP ∧ p = None ∨ ts_source s = DEVICE ∧ ∃ q, p = Some q ∧ q ≠ "") ∧
  perform (RegisterDynamic t tn p) r = {|
    _tools := _tools r; _latest := _latest r;
    _dynamic_tools := <[(tn, p, ts_name s, ts_version s) := {| spec := s; implementation := t |}]> (_dynamic_tools r);
    _dynamic_latest := <[(tn, p, ts_name s) := ts_version s]> (_dynamic_latest r) |}.
Proof.
  cbn [perform]. unfold register_dynamic. rewrite checked_step. destruct (validate_registration _ _ _) as [s|] eqn:E; [|by left].
  apply validate_accepted in E as [Ha _].
  destruct (bool_decide (ts_source s ∈ [MCP; DEVICE])) eqn:E1; cbn [negb]; [|by left].
  destruct (String.eqb tn "") eqn:E2; [by left|]. destruct (is_source s DEVICE && absent p) eqn:E3; [by left|].
  destruct (is_source s MCP && negb (bool_decide (p = None))) eqn:E4; [by left|].
  unfold mbind, stateM_bind, get_state. cbv beta iota zeta.
  destruct (bool_decide (is_Some (_latest r !! ts_name s))) eqn:E5; [by left|].
  destruct (bool_decide (is_Some (_dynamic_tools r !! _))) eqn:E6; [by left|].
  right. exists s. split; [done|]. apply bool_decide_eq_false in E5. split; [by apply eq_None_not_Some|].
  split; [by apply String.eqb_neq|]. split; [|done].
  apply bool_decide_eq_true in E1. rewrite !elem_of_cons in E1. destruct E1 as [E1|[E1|E1]]; [left|right|set_solver].
  - split; [done|]. pose proof (guard _ _ E4 (proj2 (source_true s MCP) E1)) as G. by apply bool_decide_eq_true in G.
  - split; [done|]. pose proof (guard_not _ _ E3 (proj2 (source_true s DEVICE) E1)) as G.
    destruct p as [q|]; [|done]. exists q. split; [done|]. by apply String.eqb_neq.
Qed.
Lemma perform_sound o r : sound r → sound (perform o r).
Proof.
  intros S. destruct o as [t|t tn p|n v tn p].
  - destruct (register_step t r) as [->|(s & Ha & Hnew & Hdyn & ->)]; [done|]. constructor; cbn.
    + intros n v x [[[= <- <-] <-]|[Hne Hx]]%lookup_insert_Some; cbn.
      * split; [done|]. split; [done|]. split; [done|]. by rewrite lookup_insert_eq.
      * destruct (static_entry r S n v x Hx) as (? & ? & ? & ?). split; [done|]. split; [done|]. split; [done|].
        apply lookup_insert_is_Some'. by right.
    + intros n v [[<- <-]|[Hne Hv]]%lookup_insert_Some; [by rewrite lookup_insert_eq|].
      apply lookup_insert_is_Some'. right. by apply (static_latest r S).
    + intros tn p n v x Hx. destruct (dynamic_entry r S tn p n v x Hx) as (E1 & E2 & A & L & H).
      split; [done|]. split; [done|]. split; [done|]. split; [|done].
      rewrite lookup_insert_ne; [done|]. intros <-. by destruct (Hdyn (tn, p, ts_name s, v)); [eexists|].
    + apply (dynamic_latest r S).
  - destruct (register_dynamic_step t tn p r) as [->|(s & Ha & Hl & Htn & Hs & ->)]; [done|]. constructor; cbn.
    + apply (static_entry r S).
    + apply (static_latest r S).
    + intros tn' p' n v x [[[= <- <- <- <-] <-]|[Hne Hx]]%lookup_insert_Some; cbn.
      * repeat (split; [done|]). by rewrite lookup_insert_eq.
      * destruct (dynamic_entry r S tn' p' n v x Hx) as (? & ? & ? & ? & ? & ? & ?). repeat (split; [done|]).
        apply lookup_insert_is_Some'. by right.
    + intros tn' p' n v [[[= <- <- <-] <-]|[Hne Hv]]%lookup_insert_Some; [by rewrite lookup_insert_eq|].
      apply lookup_insert_is_Some'. right. by apply (dynamic_latest r S).
  - cbn [perform]. unfold unregister_dynamic, modify. cbv beta iota zeta.
    set (tools := delete (tn, p, n, v) (_dynamic_tools r)).
    assert (∀ tn' p' n' v', is_Some (tools !! (tn', p', n', v')) ↔
      is_Some (_dynamic_tools r !! (tn', p', n', v')) ∧ (tn', p', n', v') ≠ (tn, p, n, v)) as Ht.
    { intros tn' p' n' v'. subst tools. unfold is_Some. setoid_rewrite lookup_delete_Some. split; [intros [x [? ?]]|intros [[x ?] ?]]; eauto. }
    constructor; cbn.
    + apply (static_entry r S).
    + apply (static_latest r S).
    + intros tn' p' n' v' x Hx. assert (is_Some (tools !! (tn', p', n', v'))) as Hs by eauto. pose proof Hs as [Hold Hne]%Ht.
      subst tools. apply lookup_delete_Some in Hx as [_ Hx].
      destruct (dynamic_entry r S tn' p' n' v' x Hx) as (? & ? & ? & ? & ? & ? & Hl). repeat (split; [done|]).
      destruct (negb _) eqn:E; [done|]. destruct (decide ((tn', p', n') = (tn, p, n))) as [[= -> -> ->]|N].
      * apply remaining_elem in Hs. destruct (last (remaining tn p n _)) eqn:El; [by rewrite lookup_insert_eq|].
        apply last_None in El. rewrite El in Hs. set_solver.
      * destruct (last (remaining tn p n _)); [by rewrite lookup_insert_ne|by rewrite lookup_delete_ne].
    + intros tn' p' n' v'. destruct (negb (bool_decide _)) eqn:E.
      * intros Hv. apply Ht. split; [by apply (dynamic_latest r S)|]. intros [= -> -> -> ->].
        apply negb_true_iff, bool_decide_eq_false in E. done.
      * destruct (last (remaining tn p n tools)) as [w|] eqn:El.
        -- intros [[[= <- <- <-] <-]|[Hne Hv]]%lookup_insert_Some.
           ++ apply remaining_elem. apply last_Some in El as [l ->]. set_solver.
           ++ apply Ht. split; [by apply (dynamic_latest r S)|]. intros [= -> -> -> ->]. done.
        -- intros [Hne Hv]%lookup_delete_Some. apply Ht. split; [by apply (dynamic_latest r S)|]. intros [= -> -> -> ->]. done.
Qed.
Lemma performs_sound ops r : sound r → sound (performs ops r).
Proof. revert r. induction ops as [|o ops IH]; intros r S; [done|]. apply IH. by apply perform_sound. Qed.

(** *** Other tenants and other principals *)
(** A registration, or its end, in another tenant, or for another principal of the tenant. *)
Definition foreign (tenant principal : string) (o : op) : Prop :=
  match o with
  | Register _ => False
  | RegisterDynamic _ tn p | UnregisterDynamic _ _ tn p => tn ≠ tenant ∨ ∃ q, p = Some q ∧ q ≠ principal
  end.
(** What a lookup of the principal reads. *)
Definition alike (tenant principal : string) (r r' : registry) : Prop :=
  _tools r' = _tools r ∧ _latest r' = _latest r ∧
  ∀ p, p = None ∨ p = Some principal →
    (∀ n v, _dynamic_tools r' !! (tenant, p, n, v) = _dynamic_tools r !! (tenant, p, n, v)) ∧
    (∀ n, _dynamic_latest r' !! (tenant, p, n) = _dynamic_latest r !! (tenant, p, n)).
Lemma foreign_alike tenant principal o r : foreign tenant principal o → alike tenant principal r (perform o r).
Proof.
  intros F. destruct o as [t|t tn p|n v tn p]; [done| |].
  - destruct (register_dynamic_step t tn p r) as [->|(s & _ & _ & _ & _ & ->)]; [done|]. split; [done|]. split; [done|].
    intros p' Hp'. cbn. cbn in F.
    assert ((tn, p) ≠ (tenant, p')) as N by (intros [= -> ->]; destruct F as [F|(q & -> & Hq)]; [done|]; destruct Hp'; congruence).
    split; intros *; rewrite lookup_insert_ne; [done|congruence|done|congruence].
  - cbn [perform]. unfold unregister_dynamic, modify. cbv beta iota zeta. split; [done|]. split; [done|].
    intros p' Hp'. cbn. cbn in F.
    assert ((tn, p) ≠ (tenant, p')) as N by (intros [= -> ->]; destruct F as [F|(q & -> & Hq)]; [done|]; destruct Hp'; congruence).
    split; intros *; [rewrite lookup_delete_ne; [done|congruence]|].
    destruct (negb _); [done|]. destruct (last _); [rewrite lookup_insert_ne|rewrite lookup_delete_ne]; (done || congruence).
Qed.
Lemma foreign_alikes tenant principal ops r : Forall (foreign tenant principal) ops → alike tenant principal r (performs ops r).
Proof.
  intros H. revert r. induction H as [|o ops Ho H IH]; intros r; [done|].
  change (performs (o :: ops) r) with (performs ops (perform o r)).
  destruct (foreign_alike tenant principal o r Ho) as (A1 & A2 & A3). destruct (IH (perform o r)) as (B1 & B2 & B3).
  split; [congruence|]. split; [congruence|]. intros p Hp. destruct (A3 p Hp) as [A4 A5], (B3 p Hp) as [B4 B5].
  split; intros; [by rewrite B4, A4|by rewrite B5, A5].
Qed.
Lemma alike_get tenant principal r r' name version source server device p :
  alike tenant principal r r' → p = None ∨ p = Some principal →
  get name version source server device r' (Some tenant) p = get name version source server device r (Some tenant) p.
Proof.
  intros (A1 & A2 & A3) Hp. unfold get, static_answer. rewrite A1, A2. cbn [mbind option_bind].
  assert (∀ q, q = None ∨ q = Some principal →
    dynamic_answer name version source server device r' tenant q = dynamic_answer name version source server device r tenant q) as Hq.
  { intros q Hq. destruct (A3 q Hq) as [A4 A5]. unfold dynamic_answer. rewrite A5. case_match; [|done]. by rewrite A4. }
  assert (first_answer name version source server device r' tenant (dynamic_scopes p) =
    first_answer name version source server device r tenant (dynamic_scopes p)) as ->; [|done].
  destruct Hp as [-> | ->]; cbn [dynamic_scopes first_answer]; rewrite ?Hq by auto; done.
Qed.
Lemma omap_keys_alike {K A} `{Countable K} (f : K → option string) (m m' : gmap K A) :
  (∀ k, f k ≠ None → m' !! k = m !! k) → omap f (map_to_list m').*1 ≡ₚ omap f (map_to_list m).*1.
Proof.
  assert (∀ m : gmap K A, omap f (map_to_list m).*1 ≡ₚ omap f (map_to_list (filter (λ kv, f kv.1 ≠ None) m)).*1) as Hf.
  { intros n. assert (map_to_list (filter (λ kv, f kv.1 ≠ None) n) ≡ₚ filter (λ kv, f kv.1 ≠ None) (map_to_list n)) as ->.
    { apply NoDup_Permutation; [apply NoDup_map_to_list|apply NoDup_filter, NoDup_map_to_list|]. intros [k x].
      rewrite elem_of_map_to_list, map_lookup_filter_Some, list_elem_of_filter, elem_of_map_to_list. tauto. }
    clear. induction (map_to_list n) as [|[k x] l IH]; [done|].
    assert (omap f ((k, x) :: l).*1 = match f k with Some y => y :: omap f l.*1 | None => omap f l.*1 end) as -> by done.
    destruct (f k) as [y|] eqn:E.
    - rewrite filter_cons_True by (cbn; congruence).
      assert (omap f ((k, x) :: filter (λ kv, f kv.1 ≠ None) l).*1 = y :: omap f (filter (λ kv, f kv.1 ≠ None) l).*1) as ->
        by (cbn; by rewrite E). by constructor.
    - rewrite filter_cons_False by (cbn; congruence). done. }
  intros Hk. rewrite (Hf m'), (Hf m). assert (filter (λ kv, f kv.1 ≠ None) m' = filter (λ kv, f kv.1 ≠ None) m) as ->; [|done].
  apply map_eq. intros k. apply option_eq. intros x. rewrite !map_lookup_filter_Some. cbn. split; intros [Hx Hn]; (split; [|done]);
    [by rewrite <- Hk|by rewrite Hk].
Qed.
Lemma sorted_strings l k : l ≡ₚ k → merge_sort String.le l = merge_sort String.le k.
Proof.
  intros H. apply (StronglySorted_unique String.le); [apply StronglySorted_merge_sort; apply _..|].
  by rewrite !merge_sort_Permutation.
Qed.
Lemma alike_visible who r r' : alike (Principal.tenant_id who) (Principal.principal_id who) r r' → visible_names who r' = visible_names who r.
Proof.
  intros (_ & _ & A). unfold visible_names. apply sorted_strings, omap_keys_alike. intros [[t p] n] Hk.
  destruct (bool_decide (t = _)) eqn:E1; [|done]. apply bool_decide_eq_true in E1 as ->.
  destruct (bool_decide (p = None)) eqn:E2; [apply bool_decide_eq_true in E2; apply (A p); by left|].
  destruct (bool_decide (p = Some _)) eqn:E3; [apply bool_decide_eq_true in E3; apply (A p); by right|done].
Qed.
Lemma alike_offer who r r' name : alike (Principal.tenant_id who) (Principal.principal_id who) r r' → offer who r' name = offer who r name.
Proof. intros A. unfold offer. rewrite (alike_get _ _ r r' _ _ _ _ _ _ A); [done|by right]. Qed.
Lemma alike_session agent who r r' :
  alike (Principal.tenant_id who) (Principal.principal_id who) r r' → specs_for_session agent who r' = specs_for_session agent who r.
Proof.
  intros A. unfold specs_for_session. rewrite (alike_visible who r r' A). f_equal.
  generalize (first_of_each [] (enabled_tools agent ++ visible_names who r)). intros l.
  induction l as [|n l IH]; [done|]. cbn [omap list_omap]. rewrite (alike_offer who r r' n A). by rewrite IH.
Qed.

(** ** What a lookup answers *)
Lemma agrees_spec {A} `{EqDecision A} (asked value : option A) : agrees asked value = true → asked = None ∨ value = asked.
Proof. unfold agrees. destruct asked; [|by left]. intros H%bool_decide_eq_true. by right. Qed.
(** Where an answer comes from: a static entry, or a dynamic one of the tenant - for all of
    it when it is a server's tool, for one principal when it is a device's. *)
Definition comes_from (r : registry) (tenant_id principal_id : option string) (name : string) (t : RegisteredTool T) : Prop :=
  _tools r !! (name, ts_version (spec t)) = Some t ∨
  ∃ tn, tenant_id = Some tn ∧ _latest r !! name = None ∧
    ((ts_source (spec t) = MCP ∧ _dynamic_tools r !! (tn, None, name, ts_version (spec t)) = Some t) ∨
     (ts_source (spec t) = DEVICE ∧ ∃ p, principal_id = Some p ∧ _dynamic_tools r !! (tn, Some p, name, ts_version (spec t)) = Some t)).
Lemma dynamic_answer_sound r name version source server device tn p t : sound r →
  dynamic_answer name version source server device r tn p = Some t →
  _dynamic_tools r !! (tn, p, name, ts_version (spec t)) = Some t ∧ (∀ v, version = Some v → ts_version (spec t) = v) ∧
  _identity_matches (spec t) source server device = true.
Proof.
  intros S. unfold dynamic_answer. destruct (match version with None => _ | Some v => Some v end) as [v|] eqn:Ev; [|done].
  destruct (_dynamic_tools r !! _) as [x|] eqn:Ex; [|done]. destruct (_identity_matches _ _ _ _) eqn:Ei; [|done]. intros [= <-].
  destruct (dynamic_entry r S tn p name v x Ex) as (_ & <- & _). split; [done|]. split; [|done].
  intros v' ->. congruence.
Qed.
Lemma get_sound r name version source server device tenant_id principal_id t : sound r →
  get name version source server device r tenant_id principal_id = Ok t →
  ts_name (spec t) = name ∧ (∀ v, version = Some v → ts_version (spec t) = v) ∧ accepted (spec t) ∧
  _identity_matches (spec t) source server device = true ∧ comes_from r tenant_id principal_id name t.
Proof.
  intros S. unfold get. destruct (tenant_id ≫= _) as [x|] eqn:E.
  - intros [= ->]. destruct tenant_id as [tn|]; [|done]. cbn [mbind option_bind] in E.
    assert (∃ p, (p = None ∨ principal_id = p ∧ p ≠ None) ∧ dynamic_answer name version source server device r tn p = Some t) as (p & Hp & Ha).
    { destruct principal_id as [q|]; cbn [dynamic_scopes first_answer] in E.
      - destruct (dynamic_answer _ _ _ _ _ _ tn (Some q)) as [y|] eqn:E1; [injection E as ->; exists (Some q); split; [by right|done]|].
        destruct (dynamic_answer _ _ _ _ _ _ tn None) as [y|] eqn:E2; [injection E as ->; exists None; split; [by left|done]|done].
      - destruct (dynamic_answer _ _ _ _ _ _ tn None) as [y|] eqn:E2; [injection E as ->; exists None; split; [by left|done]|done]. }
    apply (dynamic_answer_sound r) in Ha as (Hx & Hv & Hi); [|done].
    destruct (dynamic_entry r S _ _ _ _ _ Hx) as (En & _ & A & L & _ & Hs & _).
    split; [done|]. split; [done|]. split; [done|]. split; [done|]. right. exists tn. split; [done|]. split; [done|].
    destruct Hs as [[? ->]|(? & q & -> & _)]; [by left|right]. split; [done|]. exists q. destruct Hp as [|[-> _]]; done.
  - unfold static_answer. destruct (match version with None => _ | Some v => Some v end) as [v|] eqn:Ev; [|done].
    destruct (_tools r !! (name, v)) as [x|] eqn:Ex; [|done]. destruct (_identity_matches _ _ _ _) eqn:Ei; [|done]. intros [= <-].
    destruct (static_entry r S _ _ _ Ex) as (? & <- & ? & _). split; [done|]. split; [intros v' ->; congruence|].
    split; [done|]. split; [done|]. by left.
Qed.
(** A built-in's name answers the built-in. *)
Lemma not_shadowed r name version source server device tenant_id principal_id t : sound r → is_Some (_latest r !! name) →
  get name version source server device r tenant_id principal_id = Ok t → _tools r !! (name, ts_version (spec t)) = Some t.
Proof.
  intros S [v Hl] H. apply (get_sound r) in H as (_ & _ & _ & _ & [H|(tn & _ & Hn & _)]); [done| |done]. congruence.
Qed.
End catalog.

(** ** What a session is offered *)
Lemma first_of_each_spec seen l : NoDup (first_of_each seen l) ∧ ∀ n, n ∈ first_of_each seen l ↔ n ∈ l ∧ n ∉ seen.
Proof.
  revert seen. induction l as [|x l IH]; intros seen; cbn [first_of_each]; [split; [constructor|set_solver]|].
  destruct (bool_decide (x ∈ seen)) eqn:E.
  - apply bool_decide_eq_true in E. destruct (IH seen) as [H1 H2]. split; [done|]. intros n. rewrite H2. set_solver.
  - apply bool_decide_eq_false in E. destruct (IH (x :: seen)) as [H1 H2]. split.
    + constructor; [rewrite H2; set_solver|done].
    + intros n. clear IH. rewrite !elem_of_cons, H2, elem_of_cons. split.
      * intros [->|[Hn Hs]]; [by split; [left|]|]. split; [by right|]. tauto.
      * intros [[->|Hn] Hs]; [by left|]. destruct (decide (n = x)) as [->|]; [by left|]. right. tauto.
Qed.
Section session.
Context {T : Type} (r : StaticToolRegistry T) (S : sound r) (agent : AgentSpec) (who : Principal).
Abbreviation own_get name := (get name None None None None r (Some (Principal.tenant_id who)) (Some (Principal.principal_id who))).
Lemma offer_spec name s : offer who r name = Some s ↔
  ∃ t, spec t = s ∧ own_get name = Ok t ∧ ts_name s = name ∧ deprecated s = false ∧ ts_required_scopes s ⊆ Principal.scopes who.
Proof.
  unfold offer. destruct (own_get name) as [t|] eqn:E; [|split; [done|by intros (t & _ & ? & _)]].
  pose proof (get_sound r _ _ _ _ _ _ _ _ S E) as [En _]. split.
  - destruct (_ || _) eqn:G; [done|]. intros [= <-]. apply orb_false_iff in G as [G1 G2%negb_false_iff%bool_decide_eq_true]. by exists t.
  - intros (t' & <- & [= <-] & _ & Hd & Hs). rewrite Hd, bool_decide_true by done. done.
Qed.
Lemma visible_elem name : name ∈ visible_names who r ↔
  ∃ p, (p = None ∨ p = Some (Principal.principal_id who)) ∧ is_Some (_dynamic_latest r !! (Principal.tenant_id who, p, name)).
Proof.
  unfold visible_names. rewrite merge_sort_Permutation, list_elem_of_omap. split.
  - intros ([[t p] n] & Hk & H). apply list_elem_of_fmap in Hk as ([k v] & E & Hk%elem_of_map_to_list). cbn in E. subst k.
    destruct (bool_decide (t = _)) eqn:E1; [|done]. apply bool_decide_eq_true in E1 as ->. cbn [andb] in H.
    destruct (bool_decide (p = None) || bool_decide (p = Some (Principal.principal_id who))) eqn:E2; [|done]. injection H as ->.
    exists p. rewrite orb_true_iff, !bool_decide_eq_true in E2. split; [done|by exists v].
  - intros (p & Hp & v & Hv). exists (Principal.tenant_id who, p, name). split.
    + apply list_elem_of_fmap. exists ((Principal.tenant_id who, p, name), v). split; [done|]. by apply elem_of_map_to_list.
    + rewrite bool_decide_true by done. cbn [andb].
      assert (bool_decide (p = None) || bool_decide (p = Some (Principal.principal_id who)) = true) as ->; [|done].
      by rewrite orb_true_iff, !bool_decide_eq_true.
Qed.
Lemma session_elem s : s ∈ specs_for_session agent who r ↔
  (ts_name s ∈ enabled_tools agent ∨ ts_name s ∈ visible_names who r) ∧ offer who r (ts_name s) = Some s.
Proof.
  unfold specs_for_session. rewrite merge_sort_Permutation, list_elem_of_omap.
  destruct (first_of_each_spec [] (enabled_tools agent ++ visible_names who r)) as [_ H]. split.
  - intros (n & [Hn _]%H & Ho). pose proof Ho as (t & _ & _ & En & _)%offer_spec. subst n. split; [|done]. by apply elem_of_app.
  - intros [Hn Ho]. exists (ts_name s). split; [|done]. apply H. split; [by apply elem_of_app|set_solver].
Qed.
Lemma name_le_total : Total name_le.
Proof. intros a b. apply (total String.le). Qed.
Lemma name_le_trans : Transitive name_le.
Proof. intros a b c. unfold name_le. by transitivity (ts_name b). Qed.
Lemma session_sorted : StronglySorted name_le (specs_for_session agent who r) ∧ NoDup (map ts_name (specs_for_session agent who r)).
Proof.
  unfold specs_for_session. split; [apply StronglySorted_merge_sort; [apply name_le_trans|apply name_le_total]|].
  rewrite (merge_sort_Permutation name_le _). destruct (first_of_each_spec [] (enabled_tools agent ++ visible_names who r)) as [H _].
  induction H as [|n l Hn Hl IH]; [constructor|]. cbn [omap list_omap]. destruct (offer who r n) as [s|] eqn:E; [|done].
  apply offer_spec in E as (t & _ & _ & <- & _). cbn [map]. constructor; [|done]. intros Hin. apply Hn.
  apply list_elem_of_fmap in Hin as (s' & E & Hs'). apply list_elem_of_omap in Hs' as (n' & Hn' & Ho').
  apply offer_spec in Ho' as (_ & _ & _ & <- & _). by rewrite E.
Qed.
End session.

(** C10: Tenants share a registry and see nothing of each other: whatever is registered or
    withdrawn in other tenants, or on the devices of other principals of the tenant, every
    lookup of a principal and the tools its sessions are offered stay the same. *)
Theorem tenant_isolation T (tool_spec : T → ToolSpec) float_repr check_schema ops r agent who :
  Forall (foreign (Principal.tenant_id who) (Principal.principal_id who)) ops →
  let r' := performs tool_spec float_repr check_schema ops r in
  (∀ name version source server device p, p = None ∨ p = Some (Principal.principal_id who) →
     get name version source server device r' (Some (Principal.tenant_id who)) p =
     get name version source server device r (Some (Principal.tenant_id who)) p) ∧
  specs_for_session agent who r' = specs_for_session agent who r.
Proof.
  intros H r'. pose proof (foreign_alikes tool_spec float_repr check_schema _ _ ops r H) as A. split.
  - intros name version source server device p Hp. by apply (alike_get _ _ _ _ _ _ _ _ _ _ A).
  - by apply alike_session.
Qed.

(** C22: Whatever was registered and withdrawn before, a lookup answers a tool of the name, the
    version and the owner asked for, which passed every check of registration, and which is
    a built-in or was registered for the tenant - for the principal, when it is a device's;
    the name of a built-in answers the built-in, and two answers under one name, whoever
    asks, are both built-in or neither, and never the tools of two MCP servers. *)
Theorem lookup_sound T (tool_spec : T → ToolSpec) float_repr check_schema ops name version source server device tenant principal t :
  let r := performs tool_spec float_repr check_schema ops empty_registry in
  get name version source server device r tenant principal = Ok t →
  ts_name (spec t) = name ∧ (∀ v, version = Some v → ts_version (spec t) = v) ∧ accepted (spec t) ∧
  _identity_matches (spec t) source server device = true ∧ comes_from r tenant principal name t ∧
  (is_Some (_latest r !! name) → _tools r !! (name, ts_version (spec t)) = Some t) ∧
  ∀ version' source' server' device' tenant' principal' t',
    get name version' source' server' device' r tenant' principal' = Ok t' →
    (ts_source (spec t) = BUILTIN ↔ ts_source (spec t') = BUILTIN) ∧
    (ts_source (spec t) = MCP → ts_source (spec t') = MCP → ts_server_id (spec t) = ts_server_id (spec t')).
Proof.
  intros r H. assert (sound r) as S by apply performs_sound, empty_sound.
  destruct (get_sound r _ _ _ _ _ _ _ _ S H) as (En & Hv & A & Hi & Hc). repeat (split; [done|]).
  split; [intros Hl; by apply (not_shadowed r _ _ _ _ _ _ _ _ S Hl H)|].
  intros version' source' server' device' tenant' principal' t' H'.
  destruct (get_sound r _ _ _ _ _ _ _ _ S H') as (En' & _ & A' & _).
  destruct (names_owned _ _ A A') as (N1 & _ & N3); [congruence|]. done.
Qed.

(** A session is offered exactly what its principal may use: each enabled or dynamic name
    once, in order, with the tool a lookup of the principal answers, when that tool is not
    deprecated and the principal holds all its scopes - and nothing else. *)
Theorem session_offers_exact T (tool_spec : T → ToolSpec) float_repr check_schema ops agent who :
  let r := performs tool_spec float_repr check_schema ops empty_registry in
  StronglySorted name_le (specs_for_session agent who r) ∧ NoDup (map ts_name (specs_for_session agent who r)) ∧
  ∀ s, s ∈ specs_for_session agent who r ↔
    (ts_name s ∈ enabled_tools agent ∨
     ∃ p, (p = None ∨ p = Some (Principal.principal_id who)) ∧ is_Some (_dynamic_latest r !! (Principal.tenant_id who, p, ts_name s))) ∧
    deprecated s = false ∧ ts_required_scopes s ⊆ Principal.scopes who ∧
    ∃ t, spec t = s ∧
      get (ts_name s) None None None None r (Some (Principal.tenant_id who)) (Some (Principal.principal_id who)) = Ok t.
Proof.
  intros r. assert (sound r) as S by apply performs_sound, empty_sound.
  destruct (session_sorted r S agent who) as [H1 H2]. split; [done|]. split; [done|]. intros s.
  rewrite session_elem, visible_elem, offer_spec by done. split.
  - intros [Hn (t & E & Hg & _ & Hd & Hs)]. split; [done|]. split; [done|]. split; [done|]. by exists t.
  - intros (Hn & Hd & Hs & t & E & Hg). split; [done|]. exists t. done.
Qed.

(** ** The theorems on a small catalog *)
Definition small_tool (source : ToolSource) (name version : string) (server device : option string) (kind : string)
    (scopes : gset string) : ToolSpec := {|
  ts_name := name; ts_version := version; ts_description := ""; ts_input_schema := []; ts_output_schema := None;
  ts_side_effect := NETWORK_READ; ts_risk := LOW; ts_idempotency := READ_ONLY; ts_required_scopes := scopes;
  timeout_seconds := 30; maximum_output_bytes := 4096; allow_parallel := false; ts_kind := CAPABILITY; ts_target_kind := kind;
  ts_output_trust := INTERNAL_TOOL; ts_source := source; ts_server_id := server; ts_device_id := device;
  deprecated := false; model_visible := true |}.
Definition add_tool : ToolSpec := small_tool BUILTIN "math.add" "1" None None "in_process" ∅.
Definition notes_tool : ToolSpec := small_tool MCP "mcp.notes.search" "v1" (Some "notes") None "mcp" {["mcp.notes.read"]}.
Definition sms_tool : ToolSpec := small_tool DEVICE "device.sms.send" "1" None (Some "phone") "device" {["device.write"]}.
Abbreviation small := (performs (λ s : ToolSpec, s) (λ _ _, "0.0") (λ _, true)).
Definition home_ops : list (@op ToolSpec) := [Register add_tool; RegisterDynamic notes_tool "home" None].
Definition other_ops : list (@op ToolSpec) :=
  [RegisterDynamic notes_tool "office" None; RegisterDynamic sms_tool "home" (Some "bob"); UnregisterDynamic "mcp.notes.search" "v1" "office" None].
Definition alice : Principal :=
  {| Principal.tenant_id := "home"; Principal.principal_id := "alice"; Principal.roles := ∅; Principal.scopes := {["mcp.notes.read"]} |}.
Definition small_agent : AgentSpec := {| as_version := "1"; enabled_tools := ["math.add"; "web.search"] |}.
Lemma other_foreign : Forall (foreign "home" "alice") other_ops.
Proof.
  apply Forall_cons. split; [by left|]. apply Forall_cons. split; [right; by exists "bob"|].
  apply Forall_cons. split; [by left|constructor].
Qed.
(** What Alice is offered, before and after what others register. *)
Lemma alice_offers :
  map ts_name (specs_for_session small_agent alice (small home_ops empty_registry)) = ["math.add"; "mcp.notes.search"] ∧
  map ts_name (specs_for_session small_agent alice (small (home_ops ++ other_ops) empty_registry)) = ["math.add"; "mcp.notes.search"].
Proof. split; by vm_compute. Qed.
Lemma tenant_isolation_witness :
  Forall (foreign "home" "alice") other_ops ∧
  specs_for_session small_agent alice (small other_ops (small home_ops empty_registry)) =
  specs_for_session small_agent alice (small home_ops empty_registry).
Proof.
  split; [exact other_foreign|].
  exact (proj2 (tenant_isolation ToolSpec (λ s, s) (λ _ _, "0.0") (λ _, true) other_ops (small home_ops empty_registry)
    small_agent alice other_foreign)).
Defined.
Definition notes_entry : RegisteredTool ToolSpec := {| spec := untrusted_output notes_tool; implementation := notes_tool |}.
Lemma notes_found :
  get "mcp.notes.search" None None None None (small (home_ops ++ other_ops) empty_registry) (Some "home") (Some "alice") = Ok notes_entry.
Proof. by vm_compute. Qed.
Lemma lookup_sound_witness :
  get "mcp.notes.search" None None None None (small (home_ops ++ other_ops) empty_registry) (Some "home") (Some "alice") = Ok notes_entry ∧
  accepted (spec notes_entry).
Proof.
  split; [exact notes_found|].
  exact (proj1 (proj2 (proj2 (lookup_sound ToolSpec (λ s, s) (λ _ _, "0.0") (λ _, true) (home_ops ++ other_ops) "mcp.notes.search"
    None None None None (Some "home") (Some "alice") notes_entry notes_found)))).
Defined.
