(* ===== verification/McpMapping.v ===== *)
(** * MCP discovery ([mcp/mapping.py])

    What a remote server says its tools are becomes tool specifications of the platform:
    named by the server they come from, classified by its configuration, or left out. *)
From S2P Require Import Prelude PolicyModel Messages RunModel Sessions Policy Checkpoints ToolInvocations ToolTrust ToolSpecs ToolPipeline CanonicalJson ToolRegistry ToolRegistrySpec.

Record MCPRemoteTool := {
  rt_name : string;
  rt_description : string;
  rt_input_schema : dict;
  application_only : bool;
}.
(** What mapping reads of an [MCPServerConfig]. *)
Record MCPServerConfig := {
  mcp_server_id : string;
  mcp_side_effect : SideEffectClass;
  mcp_risk : RiskLevel;
  mcp_idempotency : IdempotencyClass;
  mcp_required_scopes : gset string;
  mcp_timeout_seconds : Z;
  mcp_maximum_output_bytes : Z;
}.
Record MappedRemoteTool := { mapped_name : string; mapped_spec : ToolSpec }.
Record MCPMappingReport := {
  report_hash : string;
  report_accepted : list MappedRemoteTool;
  report_rejected : list string;
  report_conflicts : list (list string);
}.

(** ** Names *)
(** [_UNSAFE_NAME.sub("_", ...)], then [_UNDERSCORES.sub("_", ...)]. *)
Definition safe_char (c : Ascii.ascii) : Ascii.ascii := if name_char c then c else "_"%char.
Fixpoint collapse (after_underscore : bool) (s : string) : string :=
  match s with
  | EmptyString => ""
  | String c s =>
      let c := safe_char c in
      if Ascii.eqb c "_" then (if after_underscore then collapse true s else String "_" (collapse true s))
      else String c (collapse false s)
  end.
(** [s.strip("_")] *)
Fixpoint lstrip_underscores (s : string) : string :=
  match s with String c s' => if Ascii.eqb c "_" then lstrip_underscores s' else s | EmptyString => "" end.
Fixpoint rstrip_underscores (s : string) : string :=
  match s with
  | EmptyString => ""
  | String c s =>
      match rstrip_underscores s with
      | EmptyString => if Ascii.eqb c "_" then "" else String c ""
      | s => String c s
      end
  end.
Definition is_digit (c : Ascii.ascii) : bool := let n := Ascii.N_of_ascii c in (48 <=? n)%N && (n <=? 57)%N.
Definition head_is_digit (s : string) : bool := match s with String c _ => is_digit c | EmptyString => true end.

Section mapping.
(** [nfc_lower] is normalisation to NFC and lower case. *)
Context (float_repr : Z → Z → string) (check_schema : dict → bool) (nfc_lower sha256_hex : string → string).
Definition normalize_remote_name (remote_name : string) : string :=
  let normalized := rstrip_underscores (lstrip_underscores (collapse false (nfc_lower remote_name))) in
  let normalized := if head_is_digit normalized then "t_" +:+ normalized else normalized in
  if (48 <? String.length normalized)%nat
  then String.substring 0 40 normalized +:+ "_" +:+ String.substring 0 7 (sha256_hex remote_name)
  else normalized.

(** ** Schemas *)
(** [stack] from its top; every pass takes one value off it. *)
Fixpoint inspect_loop (fuel : nat) (maximum_depth : Z) (stack : list (json * Z)) (deepest : Z) (contains_ref : bool) : Z * bool :=
  match fuel, stack with
  | S fuel, (current, depth) :: stack =>
      let deepest := Z.max deepest depth in
      if maximum_depth <? deepest then (deepest, contains_ref)
      else match current with
           | JObj o =>
               inspect_loop fuel maximum_depth (rev (map (λ kv, (kv.2, depth + 1)) o) ++ stack)%list deepest
                 (contains_ref || has_key "$ref" o)
           | JArr l => inspect_loop fuel maximum_depth (rev (map (λ v, (v, depth + 1)) l) ++ stack)%list deepest contains_ref
           | _ => inspect_loop fuel maximum_depth stack deepest contains_ref
           end
  | _, _ => (deepest, contains_ref)
  end.
(** The number of values in a value: as many passes. *)
Fixpoint json_size (v : json) : nat :=
  S match v with
    | JArr l => sum_list (map json_size l)
    | JObj o => sum_list (map (λ kv, json_size kv.2) o)
    | _ => 0
    end.
Definition _inspect_schema (value : json) (maximum_depth : Z) : Z * bool :=
  inspect_loop (json_size value) maximum_depth [(value, 1)] 1 false.
(** [text.encode("utf-8")[:n].decode(errors="ignore")] *)
Fixpoint _truncate_utf8 (text : string) (maximum_bytes : Z) : string :=
  match text with
  | EmptyString => ""
  | String c text =>
      let n := if (Ascii.N_of_ascii c <? 128)%N then 1 else 2 in
      if n <=? maximum_bytes then String c (_truncate_utf8 text (maximum_bytes - n)) else ""
  end.

(** ** Mapping *)
Definition description_maximum_bytes : Z := 1024.
Definition schema_maximum_depth : Z := 16.
Definition schema_maximum_bytes : Z := 32768.
Definition declaration (t : MCPRemoteTool) : json :=
  JObj [("name", JStr (rt_name t)); ("description", JStr (rt_description t)); ("input_schema", JObj (rt_input_schema t));
        ("application_only", JBool (application_only t))].
Definition canonical_json_bytes (v : json) : string := render float_repr "," ":" (sort_keys v).
Definition declaration_le (a b : MCPRemoteTool) : Prop :=
  if decide (rt_name a = rt_name b)
  then String.le (canonical_json_bytes (declaration a)) (canonical_json_bytes (declaration b))
  else String.le (rt_name a) (rt_name b).
#[local] Instance declaration_le_dec a b : Decision (declaration_le a b).
Proof. unfold declaration_le. destruct (decide (rt_name a = rt_name b)); apply _. Defined.
Definition remote_le (a b : MCPRemoteTool) : Prop := String.le (rt_name a) (rt_name b).
#[local] Instance remote_le_dec a b : Decision (remote_le a b) := _.

Section server.
Context (config : MCPServerConfig) (remote_tools : list MCPRemoteTool).
Definition inspected (t : MCPRemoteTool) : Z * bool := _inspect_schema (JObj (rt_input_schema t)) schema_maximum_depth.
Definition catalog_hash : string :=
  sha256_hex (canonical_json_bytes (JArr (map declaration (merge_sort declaration_le
    (List.filter (λ t, (inspected t).1 <=? schema_maximum_depth) remote_tools))))).
Definition registry_name (t : MCPRemoteTool) : string :=
  "mcp." +:+ mcp_server_id config +:+ "." +:+ normalize_remote_name (rt_name t).
(** The tools under a registry name, and the groups of more than one, by name. *)
Definition under_name (name : string) : list MCPRemoteTool :=
  List.filter (λ t, String.eqb (registry_name t) name) remote_tools.
Definition conflicts : list (list string) :=
  map (λ n, merge_sort String.le (map rt_name (under_name n)))
    (List.filter (λ n, (1 <? length (under_name n))%nat) (merge_sort String.le (remove_dups (map registry_name remote_tools)))).
Definition remote_spec (t : MCPRemoteTool) : ToolSpec := {|
  ts_name := registry_name t; ts_version := catalog_hash;
  ts_description := _truncate_utf8 (rt_description t) description_maximum_bytes;
  ts_input_schema := rt_input_schema t; ts_output_schema := None;
  ts_side_effect := mcp_side_effect config; ts_risk := mcp_risk config; ts_idempotency := mcp_idempotency config;
  ts_required_scopes := mcp_required_scopes config; timeout_seconds := mcp_timeout_seconds config;
  maximum_output_bytes := mcp_maximum_output_bytes config; allow_parallel := false; ts_kind := CAPABILITY;
  ts_target_kind := "mcp"; ts_output_trust := EXTERNAL_UNTRUSTED; ts_source := MCP;
  ts_server_id := Some (mcp_server_id config); ts_device_id := None; deprecated := false;
  model_visible := negb (application_only t) |}.
Definition map_tool (t : MCPRemoteTool) : result ToolSpec :=
  raise_if schema_maximum_depth <? (inspected t).1 with ToolValidationError "MCP input schema exceeds depth 16";
  raise_if schema_maximum_bytes <? utf8_length (render float_repr ", " ": " (sort_keys (JObj (rt_input_schema t))))
    with ToolValidationError "MCP input schema exceeds 32 KiB";
  raise_if (inspected t).2 with ToolValidationError "MCP input schema references are forbidden";
  _ ← validate_schema float_repr check_schema (rt_input_schema t);
  validate_registration float_repr check_schema (remote_spec t).
(** The loop over the tools sorted by name. *)
Fixpoint map_tools (colliding : list string) (tools : list MCPRemoteTool) (accepted : list MappedRemoteTool) (rejected : list string)
    : result (list MappedRemoteTool * list string) :=
  match tools with
  | [] => Ok (accepted, rejected)
  | t :: tools =>
      if bool_decide (rt_name t ∈ colliding) then map_tools colliding tools accepted rejected
      else match map_tool t with
           | Ok spec => map_tools colliding tools (accepted ++ [{| mapped_name := rt_name t; mapped_spec := spec |}])%list rejected
           | Raise (ToolValidationError _ | ValueError _) => map_tools colliding tools accepted (rejected ++ [rt_name t])%list
           | Raise e => Raise e
           end
  end.
Definition map_discovered_tools : result MCPMappingReport :=
  '(accepted, rejected) ← map_tools (concat conflicts) (merge_sort remote_le remote_tools) [] [];
  Ok {| report_hash := catalog_hash; report_accepted := accepted; report_rejected := merge_sort String.le rejected;
        report_conflicts := conflicts |}.
End server.
End mapping.

(** ** The inspection of a schema, without its stack *)
Fixpoint json_depth (v : json) : Z :=
  1 + match v with
      | JArr l => foldr Z.max 0 (map json_depth l)
      | JObj o => foldr Z.max 0 (map (λ kv, json_depth kv.2) o)
      | _ => 0
      end.
Fixpoint ref_anywhere (v : json) : bool :=
  match v with
  | JArr l => existsb ref_anywhere l
  | JObj o => has_key "$ref" o || existsb (λ kv, ref_anywhere kv.2) o
  | _ => false
  end.
Definition stack_size (stack : list (json * Z)) : nat := sum_list (map (λ vd, json_size vd.1) stack).
Definition too_deep (maximum : Z) (vd : json * Z) : Prop := maximum < vd.2 + json_depth vd.1 - 1.
Lemma foldr_max_le (l : list Z) b : 0 <= b → foldr Z.max 0 l <= b ↔ ∀ x, x ∈ l → x <= b.
Proof.
  intros Hb. induction l as [|x l IH]; cbn [foldr]; [split; [intros _ x Hx; set_solver|done]|].
  rewrite Z.max_lub_iff, IH. split; [intros [H1 H2] y [->|Hy]%elem_of_cons; auto|intros H; split; intros; apply H; [by left|by right]].
Qed.
Lemma foldr_max_pos (l : list Z) : 0 <= foldr Z.max 0 l.
Proof. induction l as [|x l IH]; cbn [foldr]; lia. Qed.
Lemma json_depth_pos v : 1 <= json_depth v.
Proof.
  destruct v as [| | | | |l|o]; cbn [json_depth]; try lia.
  - pose proof (foldr_max_pos (map json_depth l)). lia.
  - pose proof (foldr_max_pos (map (λ kv, json_depth kv.2) o)). lia.
Qed.
Lemma sum_list_app (l k : list nat) : sum_list (l ++ k) = (sum_list l + sum_list k)%nat.
Proof. apply sum_list_with_app. Qed.
Lemma sum_list_rev (l : list nat) : sum_list (rev l) = sum_list l.
Proof. induction l as [|x l IH]; [done|]. cbn [rev]. rewrite sum_list_app, IH. cbn. lia. Qed.
Lemma json_size_pos v : (0 < json_size v)%nat.
Proof. destruct v; cbn; lia. Qed.
Lemma existsb_ext_elem {A} (f : A → bool) l k : (∀ x, x ∈ l ↔ x ∈ k) → existsb f l = existsb f k.
Proof.
  intros H. apply Bool.eq_iff_eq_true. rewrite !existsb_exists. setoid_rewrite <- list_elem_of_In.
  split; intros (x & Hx & Hf); exists x; (split; [by apply H|done]).
Qed.
(** Pushing the children of a value. *)
Lemma push_children {A} (l : list A) (child : A → json) d rest maximum :
  let stack := (rev (map (λ x, (child x, d + 1)) l) ++ rest)%list in
  stack_size stack = (sum_list (map (λ x, json_size (child x)) l) + stack_size rest)%nat ∧
  existsb (λ vd : json * Z, ref_anywhere vd.1) stack = existsb (λ x, ref_anywhere (child x)) l || existsb (λ vd, ref_anywhere vd.1) rest ∧
  (d <= maximum →
   (∀ vd, vd ∈ stack → ¬ too_deep maximum vd) ↔
   d + foldr Z.max 0 (map (λ x, json_depth (child x)) l) <= maximum ∧ ∀ vd, vd ∈ rest → ¬ too_deep maximum vd).
Proof.
  cbn zeta. split; [|split].
  - unfold stack_size. rewrite map_app, map_rev, sum_list_app, sum_list_rev, map_map. done.
  - rewrite existsb_app. f_equal. rewrite (existsb_ext_elem _ _ (map (λ x, (child x, d + 1)) l)).
    + induction l as [|x l IH]; [done|]. cbn [map existsb]. by rewrite IH.
    + intros x. by rewrite !list_elem_of_In, <- in_rev.
  - intros Hd.
    assert (d + foldr Z.max 0 (map (λ x, json_depth (child x)) l) <= maximum ↔
      ∀ x, x ∈ l → d + json_depth (child x) <= maximum) as ->.
    { pose proof (foldr_max_le (map (λ x, json_depth (child x)) l) (maximum - d) ltac:(lia)) as H.
      split; [intros Hm x Hx; assert (json_depth (child x) <= maximum - d); [|lia]; apply H; [lia|]; apply list_elem_of_fmap; eauto|].
      intros Hx. assert (foldr Z.max 0 (map (λ x, json_depth (child x)) l) <= maximum - d); [|lia]. apply H.
      intros y (x & -> & Hin)%list_elem_of_fmap. specialize (Hx x Hin). lia. }
    split.
    + intros H. split; [|intros vd Hvd; apply H; apply elem_of_app; by right]. intros x Hx.
      assert (¬ too_deep maximum (child x, d + 1)) as Hn; [|unfold too_deep in Hn; cbn in Hn; lia].
      apply H, elem_of_app. left. rewrite list_elem_of_In, <- in_rev, <- list_elem_of_In. apply list_elem_of_fmap. eauto.
    + intros [H1 H2] vd [Hv|Hv]%elem_of_app; [|by apply H2].
      rewrite list_elem_of_In, <- in_rev, <- list_elem_of_In in Hv. apply list_elem_of_fmap in Hv as (x & -> & Hx).
      specialize (H1 x Hx). unfold too_deep. cbn. lia.
Qed.
Lemma inspect_loop_spec fuel maximum stack deepest ref : (stack_size stack <= fuel)%nat → deepest <= maximum →
  ((∀ vd, vd ∈ stack → ¬ too_deep maximum vd) ↔ (inspect_loop fuel maximum stack deepest ref).1 <= maximum) ∧
  ((inspect_loop fuel maximum stack deepest ref).1 <= maximum →
   (inspect_loop fuel maximum stack deepest ref).2 = ref || existsb (λ vd, ref_anywhere vd.1) stack).
Proof.
  revert stack deepest ref. induction fuel as [|fuel IH]; intros [|[v d] stack] deepest ref Hs Hd; cbn [inspect_loop].
  1, 3: cbn; rewrite orb_false_r; split; [split; [done|intros _ vd Hvd; set_solver]|done].
  { unfold stack_size in Hs. cbn in Hs. pose proof (json_size_pos v). lia. }
  destruct (Z.ltb_spec maximum (Z.max deepest d)) as [L|L]; cbn [fst snd].
  { split; [|lia]. split; [|lia]. intros H. exfalso. apply (H (v, d)); [by left|]. unfold too_deep. cbn.
    pose proof (json_depth_pos v). lia. }
  assert (stack_size ((v, d) :: stack) = (json_size v + stack_size stack)%nat) as Es by done. rewrite Es in Hs.
  assert (∀ P : json * Z → Prop, (∀ vd, vd ∈ (v, d) :: stack → P vd) ↔ P (v, d) ∧ ∀ vd, vd ∈ stack → P vd) as Hcons.
  { intros P. split; [intros H; split; intros; apply H; [by left|by right]|intros [H1 H2] vd [->|Hvd]%elem_of_cons; auto]. }
  rewrite Hcons. cbn [existsb fst]. destruct v as [| | | | |l|o]; cbn [json_size ref_anywhere] in *.
  1-5: destruct (IH stack (Z.max deepest d) ref ltac:(lia) ltac:(lia)) as [H1 H2]; split; [|exact H2]; rewrite <- H1;
    unfold too_deep; cbn [fst snd json_depth]; split; [tauto|intros H; split; [lia|done]].
  - destruct (push_children l (λ v, v) d stack maximum) as (P1 & P2 & P3). cbn beta in *.
    change (map (λ x : json, json_size x) l) with (map json_size l) in P1.
    change (map (λ x : json, json_depth x) l) with (map json_depth l) in P3.
    change (existsb (λ x : json, ref_anywhere x) l) with (existsb ref_anywhere l) in P2.
    destruct (IH (rev (map (λ v, (v, d + 1)) l) ++ stack)%list (Z.max deepest d) ref) as [H1 H2]; [rewrite P1; lia|lia|].
    split; [|intros H; rewrite (H2 H), P2; by rewrite orb_assoc].
    rewrite <- H1, P3 by lia. unfold too_deep. cbn [fst snd json_depth]. split; intros [G1 G2]; (split; [lia|done]).
  - destruct (push_children o snd d stack maximum) as (P1 & P2 & P3).
    destruct (IH (rev (map (λ kv, (kv.2, d + 1)) o) ++ stack)%list (Z.max deepest d) (ref || has_key "$ref" o)) as [H1 H2]; [rewrite P1; lia|lia|].
    split; [|intros H; rewrite (H2 H), P2; by rewrite !orb_assoc].
    rewrite <- H1, P3 by lia. unfold too_deep. cbn [fst snd json_depth]. split; intros [G1 G2]; (split; [lia|done]).
Qed.
(** Within its depth, a schema is inspected in full. *)
Lemma inspect_exact v maximum : 1 <= maximum →
  ((_inspect_schema v maximum).1 <= maximum ↔ json_depth v <= maximum) ∧
  (json_depth v <= maximum → (_inspect_schema v maximum).2 = ref_anywhere v).
Proof.
  intros Hm. unfold _inspect_schema.
  destruct (inspect_loop_spec (json_size v) maximum [(v, 1)] 1 false) as [H1 H2]; [unfold stack_size; cbn; lia|done|].
  assert ((∀ vd, vd ∈ [(v, 1)] → ¬ too_deep maximum vd) ↔ json_depth v <= maximum) as E.
  { unfold too_deep. split; [intros H; specialize (H (v, 1) ltac:(by left)); cbn in H; lia|].
    intros H vd ->%list_elem_of_singleton. cbn. lia. }
  rewrite E in H1. split; [by symmetry|]. intros H. rewrite H2 by by apply H1. cbn. by rewrite orb_false_r.
Qed.

(** ** What can go wrong *)
Definition unhashable (dialect : option json) : Prop := ∃ v, dialect = Some v ∧ match v with JArr _ | JObj _ => True | _ => False end.
Definition refusal (e : exn) : Prop := ∃ m, e = ToolValidationError m.
Lemma check_scopes_raise l server e : check_scopes l server = Raise e → refusal e.
Proof.
  unfold refusal. induction l as [|x l IH]; cbn [check_scopes]; [done|]. destruct (negb (_SCOPE x)); [intros [= <-]; eauto|].
  destruct server as [s|]; (destruct (negb _); [intros [= <-]; eauto|done]).
Qed.
Lemma validate_schema_raise float_repr check_schema s e : validate_schema float_repr check_schema s = Raise e →
  refusal e ∨ (∃ m, e = TypeError m) ∧ unhashable (dict_get "$schema" s).
Proof.
  unfold validate_schema, unhashable, refusal, mbind, result_bind.
  destruct (dict_get "$schema" s) as [[| | | |d| |]|]; cbn [dialect_refused];
    try (intros [= <-]; right; split; [eauto|]; by eexists); try (intros [= <-]; left; by eexists).
  all: repeat match goal with |- (if ?b then Raise _ else _) = Raise _ → _ => destruct b; [intros [= <-]; left; eauto|] end; done.
Qed.
Lemma validate_registration_raise float_repr check_schema s e :
  validate_schema float_repr check_schema (ts_input_schema s) = Ok tt → ts_output_schema s = None →
  validate_registration float_repr check_schema s = Raise e → refusal e.
Proof.
  intros Hi Ho. unfold validate_registration, refusal. cbv zeta.
  repeat match goal with |- (if ?b then Raise _ else _) = Raise _ → _ => destruct b; [intros [= <-]; eauto|] end.
  unfold mbind, result_bind. destruct (validate_required_scopes _ _) as [[]|e'] eqn:Es.
  2: { intros [= <-]. by apply check_scopes_raise in Es. }
  rewrite Hi, Ho.
  repeat match goal with |- (if ?b then Raise _ else _) = Raise _ → _ => destruct b; [intros [= <-]; eauto|] end. done.
Qed.

(** ** Every tool is accounted for *)
Section report.
Context (float_repr : Z → Z → string) (check_schema : dict → bool) (nfc_lower sha256_hex : string → string).
Context (config : MCPServerConfig) (tools : list MCPRemoteTool).
Abbreviation name_of := (registry_name nfc_lower sha256_hex config).
Abbreviation mapped := (map_tool float_repr check_schema nfc_lower sha256_hex config tools).
Abbreviation group := (under_name nfc_lower sha256_hex config tools).
Definition shared_names : list string :=
  List.filter (λ n, (1 <? length (group n))%nat) (merge_sort String.le (remove_dups (map name_of tools))).
Abbreviation collided := (concat (conflicts nfc_lower sha256_hex config tools)).

Lemma shared_NoDup : NoDup shared_names.
Proof. apply NoDup_List_filter. rewrite merge_sort_Permutation. apply NoDup_remove_dups. Qed.
Lemma shared_elem n : n ∈ shared_names ↔ (1 < length (group n))%nat.
Proof.
  unfold shared_names. rewrite elem_List_filter, merge_sort_Permutation, elem_of_remove_dups, Nat.ltb_lt.
  split; [tauto|]. intros H. split; [|done]. destruct (group n) as [|t l] eqn:E; [cbn in H; lia|].
  assert (t ∈ group n) as [Ht En]%elem_List_filter by (rewrite E; by left). apply String.eqb_eq in En.
  apply list_elem_of_fmap. by exists t.
Qed.
Lemma collided_perm : collided ≡ₚ concat (map (λ n, map rt_name (group n)) shared_names).
Proof.
  unfold conflicts. fold shared_names. induction shared_names as [|n l IH]; [done|]. cbn [map concat].
  by rewrite IH, merge_sort_Permutation.
Qed.
Definition collides (t : MCPRemoteTool) : bool := bool_decide (name_of t ∈ shared_names).
Lemma collided_elem t : t ∈ tools → rt_name t ∈ collided ↔ collides t = true.
Proof.
  intros Ht. rewrite collided_perm, elem_concat_map. unfold collides. rewrite bool_decide_eq_true. split.
  - intros (n & Hn & (t' & En & [_ E%String.eqb_eq]%elem_List_filter)%list_elem_of_fmap). unfold registry_name in *. by rewrite En, E.
  - intros H. exists (name_of t). split; [done|]. apply list_elem_of_fmap. exists t. split; [done|].
    apply elem_List_filter. split; [done|]. apply String.eqb_refl.
Qed.
Lemma List_filter_Permutation {A} (f : A → bool) l k : l ≡ₚ k → List.filter f l ≡ₚ List.filter f k.
Proof.
  induction 1 as [|x l k H IH|x y l|l1 l2 l3 H1 IH1 H2 IH2]; cbn [List.filter]; [done| | |by etransitivity].
  - destruct (f x); by rewrite IH.
  - destruct (f x), (f y); [apply Permutation_swap|done..].
Qed.
Lemma split_by {A} (f g h : A → bool) l : (∀ x, f x = g x || h x) → (∀ x, g x = true → h x = false) →
  List.filter f l ≡ₚ List.filter g l ++ List.filter h l.
Proof.
  intros H1 H2. induction l as [|x l IH]; [done|]. cbn [List.filter]. rewrite H1. destruct (g x) eqn:G; cbn [orb].
  - rewrite (H2 x G), IH. done.
  - destruct (h x); [|done]. rewrite IH. apply Permutation_middle.
Qed.
Lemma groups_perm (names : list string) : NoDup names →
  concat (map (λ n, map rt_name (group n)) names) ≡ₚ map rt_name (List.filter (λ t, bool_decide (name_of t ∈ names)) tools).
Proof.
  induction 1 as [|n names Hn Hnd IH]; cbn [map concat].
  - rewrite (filter_ext _ (λ _, false)); [by induction tools|]. intros t. by apply bool_decide_eq_false_2, not_elem_of_nil.
  - rewrite IH, <- map_app. apply Permutation_map. symmetry. apply split_by.
    + intros t. apply Bool.eq_iff_eq_true. rewrite orb_true_iff, String.eqb_eq, !bool_decide_eq_true, elem_of_cons. done.
    + intros t E%String.eqb_eq. apply bool_decide_eq_false. by rewrite E.
Qed.
Lemma partition_perm :
  map rt_name tools ≡ₚ map rt_name (List.filter (λ t, negb (collides t)) tools) ++ collided.
Proof.
  rewrite collided_perm, (groups_perm _ shared_NoDup), <- map_app. apply Permutation_map.
  rewrite <- (split_by (λ _, true)).
  - by rewrite List_filter_true.
  - intros t. unfold collides. by destruct (bool_decide _).
  - intros t. unfold collides. by destruct (bool_decide _).
Qed.

(** *** The loop *)
Lemma map_tools_spec colliding l acc rej acc' rej' :
  map_tools float_repr check_schema nfc_lower sha256_hex config tools colliding l acc rej = Ok (acc', rej') →
  ∃ a r, acc' = (acc ++ a)%list ∧ rej' = (rej ++ r)%list ∧
    map rt_name (List.filter (λ t, negb (bool_decide (rt_name t ∈ colliding))) l) ≡ₚ map mapped_name a ++ r ∧
    (∀ m, m ∈ a → ∃ t, t ∈ l ∧ rt_name t = mapped_name m ∧ rt_name t ∉ colliding ∧ mapped t = Ok (mapped_spec m)) ∧
    ∃ k, k `sublist_of` List.filter (λ t, negb (bool_decide (rt_name t ∈ colliding))) l ∧
      Forall2 (λ t m, mapped t = Ok (mapped_spec m)) k a.
Proof.
  revert acc rej. induction l as [|t l IH]; intros acc rej; cbn [map_tools List.filter].
  { intros [= <- <-]. exists [], []. rewrite !app_nil_r. split; [done|]. split; [done|]. split; [done|]. split; [set_solver|].
    exists []. by split; [|constructor]. }
  destruct (bool_decide (rt_name t ∈ colliding)) eqn:E; cbn [negb].
  { intros (a & r & -> & -> & Hp & Ha & Hk)%IH. exists a, r. split; [done|]. split; [done|]. split; [done|]. split; [|done].
    intros m Hm. destruct (Ha m Hm) as (t' & ? & ?). exists t'. split; [by right|done]. }
  apply bool_decide_eq_false in E. destruct (mapped t) as [s|e] eqn:Em.
  - intros (a & r & -> & -> & Hp & Ha & k & Hk & Hf)%IH. exists ({| mapped_name := rt_name t; mapped_spec := s |} :: a), r.
    split; [by rewrite <- app_assoc|]. split; [done|]. split; [cbn [map app]; by rewrite Hp|]. split.
    + intros m [->|Hm]%elem_of_cons; [exists t; split; [by left|done]|].
      destruct (Ha m Hm) as (t' & ? & ?). exists t'. split; [by right|done].
    + exists (t :: k). split; [by apply sublist_skip|by constructor].
  - assert (map_tools float_repr check_schema nfc_lower sha256_hex config tools colliding l acc (rej ++ [rt_name t]) = Ok (acc', rej') →
      ∃ a r, acc' = (acc ++ a)%list ∧ rej' = (rej ++ r)%list ∧
      map rt_name (t :: List.filter (λ t, negb (bool_decide (rt_name t ∈ colliding))) l) ≡ₚ map mapped_name a ++ r ∧
      (∀ m, m ∈ a → ∃ t', t' ∈ t :: l ∧ rt_name t' = mapped_name m ∧ rt_name t' ∉ colliding ∧ mapped t' = Ok (mapped_spec m)) ∧
      ∃ k, k `sublist_of` t :: List.filter (λ t, negb (bool_decide (rt_name t ∈ colliding))) l ∧
        Forall2 (λ t m, mapped t = Ok (mapped_spec m)) k a) as Hrej.
    { intros (a & r & -> & -> & Hp & Ha & k & Hk & Hf)%IH. exists a, (rt_name t :: r).
      split; [done|]. split; [by rewrite <- app_assoc|]. split; [cbn [map]; rewrite Hp; apply Permutation_middle|]. split.
      - intros m Hm. destruct (Ha m Hm) as (t' & ? & ?). exists t'. split; [by right|done].
      - exists k. split; [by apply sublist_cons|done]. }
    destruct e; (done || exact Hrej).
Qed.
Lemma map_tools_raise colliding l acc rej e :
  map_tools float_repr check_schema nfc_lower sha256_hex config tools colliding l acc rej = Raise e →
  (∃ m, e = TypeError m) ∧ ∃ t, t ∈ l ∧ unhashable (dict_get "$schema" (rt_input_schema t)).
Proof.
  revert acc rej. induction l as [|t l IH]; intros acc rej; cbn [map_tools]; [done|].
  assert (∀ acc rej, map_tools float_repr check_schema nfc_lower sha256_hex config tools colliding l acc rej = Raise e →
    (∃ m, e = TypeError m) ∧ ∃ t', t' ∈ t :: l ∧ unhashable (dict_get "$schema" (rt_input_schema t'))) as Hl.
  { intros acc' rej' (H & t' & Ht' & Hu)%IH. split; [done|]. exists t'. split; [by right|done]. }
  destruct (bool_decide _); [apply Hl|]. destruct (mapped t) as [s|e'] eqn:Em; [apply Hl|].
  assert (refusal e' ∨ (∃ m, e' = TypeError m) ∧ unhashable (dict_get "$schema" (rt_input_schema t))) as He.
  { revert Em. unfold map_tool.
    repeat match goal with |- (if ?b then Raise _ else _) = Raise _ → _ => destruct b; [intros [= <-]; left; by eexists|] end.
    unfold mbind, result_bind. destruct (validate_schema _ _ _) as [[]|e''] eqn:Es.
    - intros Hr. left. by apply (validate_registration_raise float_repr check_schema (remote_spec float_repr nfc_lower sha256_hex config tools t)).
    - intros [= ->]. by apply validate_schema_raise in Es. }
  destruct He as [[m ->]|[[m ->] Hu]]; [apply Hl|]. intros [= <-]. split; [by eexists|]. exists t. split; [by left|done].
Qed.
(** Tools that do not collide have names of their own. *)
Lemma alone_NoDup : NoDup (map name_of (List.filter (λ t, negb (collides t)) tools)).
Proof.
  assert (∀ l, (∀ t, t ∈ l → (length (List.filter (λ t', String.eqb (name_of t') (name_of t)) l) <= 1)%nat) → NoDup (map name_of l)) as H.
  { induction l as [|t l IH]; intros H; cbn [map]; [constructor|]. constructor.
    - intros (t' & E & Ht')%list_elem_of_fmap. specialize (H t ltac:(by left)). cbn [List.filter] in H.
      rewrite String.eqb_refl in H. cbn [length] in H.
      assert (t' ∈ List.filter (λ t', String.eqb (name_of t') (name_of t)) l) as Hin.
      { apply elem_List_filter. split; [done|]. rewrite E. apply String.eqb_refl. }
      destruct (List.filter _ l); [set_solver|cbn in H; lia].
    - apply IH. intros t' Ht'. specialize (H t' ltac:(by right)). cbn [List.filter] in H. case_match; cbn in H; lia. }
  apply H. intros t [Ht Hc]%elem_List_filter. apply negb_true_iff, bool_decide_eq_false in Hc. rewrite shared_elem in Hc.
  etransitivity; [|apply Nat.nlt_ge, Hc]. unfold under_name. clear. induction tools as [|x l IH]; [done|].
  cbn [List.filter]. destruct (negb (collides x)); cbn [List.filter]; destruct (String.eqb _ _); cbn [length]; lia.
Qed.
End report.

(** What registration makes of a remote tool's specification. *)
Lemma validate_spec float_repr check_schema s s' : validate_registration float_repr check_schema s = Ok s' → ts_source s = MCP →
  s' = untrusted_output s.
Proof.
  unfold validate_registration. cbv zeta. refusals. unfold mbind, result_bind.
  destruct (validate_required_scopes _ _) as [[]|]; [|done]. destruct (validate_schema _ _ _); [|done].
  destruct (match ts_output_schema s with Some o => validate_schema float_repr check_schema o | None => Ok tt end); [|done].
  refusals. intros [= <-] H. rewrite H. done.
Qed.

(** C12: No tool a server announces is lost or doubled: each is accepted, rejected or reported in
    a conflict, once for each time it was announced, and no two accepted tools share a
    name. An accepted tool passed registration under the name of its server, with the
    classification, the scopes and the limits of the configuration - nothing of them the
    server's own - an untrusted output and no parallel calls, and its schema is no deeper
    than allowed and refers to nothing. *)
Theorem mapping_accounts float_repr check_schema nfc_lower sha256_hex config tools report :
  map_discovered_tools float_repr check_schema nfc_lower sha256_hex config tools = Ok report →
  map rt_name tools ≡ₚ map mapped_name (report_accepted report) ++ report_rejected report ++ concat (report_conflicts report) ∧
  NoDup (map (λ m, ts_name (mapped_spec m)) (report_accepted report)) ∧
  ∀ m, m ∈ report_accepted report → ∃ t, t ∈ tools ∧ rt_name t = mapped_name m ∧
    let s := mapped_spec m in
    accepted s ∧ ts_name s = registry_name nfc_lower sha256_hex config t ∧ ts_version s = report_hash report ∧
    ts_source s = MCP ∧ ts_server_id s = Some (mcp_server_id config) ∧ ts_side_effect s = mcp_side_effect config ∧
    ts_risk s = mcp_risk config ∧ ts_idempotency s = mcp_idempotency config ∧ ts_required_scopes s = mcp_required_scopes config ∧
    timeout_seconds s = mcp_timeout_seconds config ∧ maximum_output_bytes s = mcp_maximum_output_bytes config ∧
    ts_output_trust s = EXTERNAL_UNTRUSTED ∧ allow_parallel s = false ∧ ts_input_schema s = rt_input_schema t ∧
    json_depth (JObj (rt_input_schema t)) <= schema_maximum_depth ∧ ref_anywhere (JObj (rt_input_schema t)) = false.
Proof.
  unfold map_discovered_tools, mbind, result_bind. set (c := conflicts nfc_lower sha256_hex config tools).
  destruct (map_tools _ _ _ _ _ _ _ _ _ _) as [[acc rej]|] eqn:E; [|done]. intros [= <-]. cbn [report_accepted report_rejected report_conflicts report_hash].
  apply map_tools_spec in E as (a & r & -> & -> & Hp & Ha & k & Hk & Hf). cbn [app] in *.
  assert (∀ l, (∀ t, t ∈ l → t ∈ tools) → List.filter (λ t, negb (bool_decide (rt_name t ∈ concat c))) l =
    List.filter (λ t, negb (collides nfc_lower sha256_hex config tools t)) l) as Hc.
  { intros l. induction l as [|t l IH]; intros Hl; [done|]. cbn [List.filter].
    rewrite IH by (intros; apply Hl; by right).
    assert (bool_decide (rt_name t ∈ concat c) = collides nfc_lower sha256_hex config tools t) as ->; [|done].
    apply Bool.eq_iff_eq_true. rewrite bool_decide_eq_true. apply collided_elem, Hl. by left. }
  rewrite Hc in Hp, Hk by (intros t Ht; by rewrite (merge_sort_Permutation remote_le) in Ht).
  assert (∀ f, List.filter f (merge_sort remote_le tools) ≡ₚ List.filter f tools) as Hs.
  { intros f. apply List_filter_Permutation, merge_sort_Permutation. }
  assert (∀ t s, map_tool float_repr check_schema nfc_lower sha256_hex config tools t = Ok s →
    validate_schema float_repr check_schema (rt_input_schema t) = Ok tt ∧ (inspected t).1 <= schema_maximum_depth ∧ (inspected t).2 = false ∧
    validate_registration float_repr check_schema (remote_spec float_repr nfc_lower sha256_hex config tools t) = Ok s) as Hm.
  { intros t s. unfold map_tool.
    repeat match goal with |- (if ?b then Raise _ else _) = Ok _ → _ => let G := fresh "G" in destruct b eqn:G; [done|] end.
    unfold mbind, result_bind. destruct (validate_schema _ _ _) as [[]|]; [|done]. intros H. apply Z.ltb_ge in G. done. }
  split; [|split].
  - rewrite (partition_perm nfc_lower sha256_hex config tools), <- Hs, Hp, (merge_sort_Permutation String.le r). fold c. by rewrite app_assoc.
  - assert (map (λ m, ts_name (mapped_spec m)) a = map (registry_name nfc_lower sha256_hex config) k) as ->.
    { clear -Hf Hm. induction Hf as [|t m k a Ht Hf IH]; [done|]. cbn [map]. f_equal; [|done].
      apply Hm in Ht as (_ & _ & _ & Ht). by apply validate_accepted in Ht as (_ & -> & _). }
    eapply sublist_NoDup; [|by apply (fmap_sublist (registry_name nfc_lower sha256_hex config))].
    change (list_fmap ?A ?B ?f ?l) with (map f l). rewrite Hs. apply alone_NoDup.
  - intros m Hin. destruct (Ha m Hin) as (t & Ht & En & _ & Hr). exists t. rewrite (merge_sort_Permutation remote_le) in Ht.
    split; [done|]. split; [done|]. cbv zeta. apply Hm in Hr as (_ & Hd & Href & Hr).
    pose proof (validate_accepted _ _ _ _ Hr) as (A & _). apply validate_spec in Hr; [|done]. rewrite Hr in *.
    destruct (inspect_exact (JObj (rt_input_schema t)) schema_maximum_depth ltac:(done)) as [I1 I2].
    apply I1 in Hd. rewrite <- I2 by done. done.
Qed.

(** C40: Mapping what a server announces fails in one case alone: a tool whose schema names its
    dialect by an array or an object, which breaks the set lookup; every other fault of a
    tool rejects that tool and keeps the others. *)
Theorem mapping_fails_only float_repr check_schema nfc_lower sha256_hex config tools e :
  map_discovered_tools float_repr check_schema nfc_lower sha256_hex config tools = Raise e →
  (∃ m, e = TypeError m) ∧ ∃ t, t ∈ tools ∧ unhashable (dict_get "$schema" (rt_input_schema t)).
Proof.
  unfold map_discovered_tools, mbind, result_bind. destruct (map_tools _ _ _ _ _ _ _ _ _ _) as [[]|e'] eqn:E; [done|]. intros [= <-].
  apply map_tools_raise in E as (He & t & Ht & Hu). split; [done|]. exists t. by rewrite (merge_sort_Permutation remote_le) in Ht.
Qed.

(** ** A server with six tools *)
Definition demo_config : MCPServerConfig := {|
  mcp_server_id := "notes"; mcp_side_effect := NETWORK_READ; mcp_risk := LOW; mcp_idempotency := READ_ONLY;
  mcp_required_scopes := {["mcp.notes.read"]}; mcp_timeout_seconds := 30; mcp_maximum_output_bytes := 65536 |}.
Definition demo_tool (name : string) (schema : dict) : MCPRemoteTool :=
  {| rt_name := name; rt_description := "A tool."; rt_input_schema := schema; application_only := false |}.
Definition plain_schema : dict := [("type", JStr "object")].
Definition demo_tools : list MCPRemoteTool :=
  [demo_tool "search" plain_schema; demo_tool "list-all" plain_schema; demo_tool "list.all" plain_schema;
   demo_tool "refers" [("$ref", JStr "#/x")]; demo_tool "2fast" plain_schema;
   demo_tool "deep" (Nat.iter 9 (λ s, [("properties", JObj [("a", JObj s)])]) plain_schema)].
Abbreviation demo := (map_discovered_tools (λ _ _, "0.0") (λ _, true) (λ s, s) (λ _, "0123456789") demo_config).
Definition demo_report : MCPMappingReport := match demo demo_tools with Ok r => r | Raise _ => {| report_hash := ""; report_accepted := []; report_rejected := []; report_conflicts := [] |} end.
Lemma demo_mapped : demo demo_tools = Ok demo_report.
Proof. by vm_compute. Qed.
Lemma demo_names :
  map (λ m, ts_name (mapped_spec m)) (report_accepted demo_report) = ["mcp.notes.t_2fast"; "mcp.notes.search"] ∧
  report_rejected demo_report = ["deep"; "refers"] ∧ report_conflicts demo_report = [["list-all"; "list.all"]].
Proof. repeat split; by vm_compute. Qed.
Lemma mapping_accounts_witness :
  demo demo_tools = Ok demo_report ∧ NoDup (map (λ m, ts_name (mapped_spec m)) (report_accepted demo_report)).
Proof.
  split; [exact demo_mapped|].
  exact (proj1 (proj2 (mapping_accounts (λ _ _, "0.0") (λ _, true) (λ s, s) (λ _, "0123456789") demo_config demo_tools demo_report
    demo_mapped))).
Defined.
(** One tool with an array for its dialect, and the whole server has none. *)
Definition bad_dialect : list MCPRemoteTool := demo_tool "odd" [("$schema", JArr [])] :: demo_tools.
Lemma bad_dialect_fails : demo bad_dialect = Raise (TypeError "unhashable type: 'list'").
Proof. by vm_compute. Qed.
Lemma mapping_fails_only_witness :
  demo bad_dialect = Raise (TypeError "unhashable type: 'list'") ∧
  ∃ t, t ∈ bad_dialect ∧ unhashable (dict_get "$schema" (rt_input_schema t)).
Proof.
  split; [exact bad_dialect_fails|].
  exact (proj2 (mapping_fails_only (λ _ _, "0.0") (λ _, true) (λ s, s) (λ _, "0123456789") demo_config bad_dialect _ bad_dialect_fails)).
Defined.
