(* ===== verification/ProcessEvents.v ===== *)
(** * Process events ([domain/events.py: ProcessEvent], [InMemoryProcessEventRepository])

    The log of what no session owns: one event per derivation key, never changed once it is
    appended. *)
From S2P Require Import Prelude Messages Sessions.

Record ProcessEvent := {
  pe_id : UUID;
  pe_event_type : string;
  pe_payload_schema_version : Z;
  pe_actor_type : string;
  pe_actor_id : option string;
  pe_payload : dict;
  pe_derivation_key : string;
  pe_created_at : datetime;
}.
(** Equality of [model_dump(exclude={"created_at"})]. *)
Definition same_content (a b : ProcessEvent) : bool :=
  bool_decide (pe_id a = pe_id b) && bool_decide (pe_event_type a = pe_event_type b) &&
  bool_decide (pe_payload_schema_version a = pe_payload_schema_version b) &&
  bool_decide (pe_actor_type a = pe_actor_type b) && bool_decide (pe_actor_id a = pe_actor_id b) &&
  dict_eqb (pe_payload a) (pe_payload b) && bool_decide (pe_derivation_key a = pe_derivation_key b).

Module ProcessEventRepo.
Definition t : Type := gmap string ProcessEvent.
Definition key (e : ProcessEvent) : datetime * UUID := (pe_created_at e, pe_id e).
Definition different_content : exn := ConflictError "process event derivation identifies different content".

Definition append (event : ProcessEvent) (s : t) : result ProcessEvent * t :=
  match s !! pe_derivation_key event with
  | Some existing => (if same_content existing event then Ok existing else Raise different_content, s)
  | None => (Ok event, <[pe_derivation_key event := event]> s)
  end.
Definition get_by_derivation (derivation_key : string) (s : t) : option ProcessEvent := s !! derivation_key.
Definition list_events (event_type : option string) (s : t) : list ProcessEvent :=
  sort_asc key (List.filter (λ e, match event_type with None => true | Some x => String.eqb (pe_event_type e) x end)
    (map_to_list s).*2).
Definition has_str (d : dict) (k v : string) : bool :=
  match dict_get k d with Some (JStr x) => String.eqb x v | _ => false end.
Definition list_filtered (uuid_str : UUID → string) (tenant_id principal_id : string) (session_id : option UUID)
    (event_types : gset string) (limit : Z) (s : t) : result (list ProcessEvent) :=
  if bool_decide (event_types = ∅) then Raise (ValueError "process event types cannot be empty")
  else if limit <=? 0 then Raise (ValueError "process event limit must be positive")
  else
    let rows := List.filter (λ e,
      bool_decide (pe_event_type e ∈ event_types) && has_str (pe_payload e) "tenant_id" tenant_id &&
      has_str (pe_payload e) "principal_id" principal_id &&
      match session_id with None => true | Some x => has_str (pe_payload e) "session_id" (uuid_str x) end)
      (map_to_list s).*2 in
    Ok (reverse (take (Z.to_nat limit) (sort_desc key rows))).

(** Every event is filed under its own key. *)
Definition keyed (s : t) : Prop := ∀ k e, s !! k = Some e → pe_derivation_key e = k.

(** The log grows: what it holds it holds for ever. *)
Definition grows (s s' : t) : Prop := s ⊆ s'.
#[global] Instance grows_preorder : PreOrder grows.
Proof. split; [intros s; reflexivity|intros a b c; apply transitivity]. Qed.
Lemma append_grows e s : grows s (append e s).2.
Proof.
  unfold append, grows. destruct (s !! pe_derivation_key e) eqn:E; [done|]. by apply insert_subseteq.
Qed.
Lemma append_keyed e s : keyed s → keyed (append e s).2.
Proof.
  unfold append, keyed. intros H k x. destruct (s !! pe_derivation_key e) eqn:E; [by apply H|]. cbn [snd].
  intros [[<- <-]|[_ Hx]]%lookup_insert_Some; [done|by apply H].
Qed.
Lemma append_holds e s r : (append e s).1 = Ok r → (append e s).2 !! pe_derivation_key e = Some r.
Proof.
  unfold append. destruct (s !! pe_derivation_key e) eqn:E; cbn [fst snd]; [|intros [= <-]; apply lookup_insert_eq].
  destruct (same_content _ _); [|done]. by intros [= <-].
Qed.
Lemma append_fresh e s : s !! pe_derivation_key e = None → append e s = (Ok e, <[pe_derivation_key e := e]> s).
Proof. unfold append. by intros ->. Qed.
Lemma append_other e s k : k ≠ pe_derivation_key e → (append e s).2 !! k = s !! k.
Proof.
  intros Hk. unfold append. destruct (s !! pe_derivation_key e); [done|]. cbn [snd]. by apply lookup_insert_ne.
Qed.
End ProcessEventRepo.
