(* ===== verification/Schedules.v ===== *)
(** * Schedules: the data of [domain/schedules.py]

    A schedule, its immutable revisions and the occurrences it left, with the validators of
    their classes. The cadences are in [Recurrence]. *)
From stdpp Require Import pretty.
From S2P Require Import Prelude PyDecimal RunModel Sessions Calendar Recurrence.

(** [datetime.isoformat()] of an aware UTC instant. *)
Definition padded (width : nat) (n : Z) : string :=
  let s := pretty n in joined (repeat "0" (width - String.length s)) +:+ s.
Definition time_of_day (t : datetime) : Z := t - DAY * date_part t.
Definition hours_minutes (t : datetime) : string :=
  let m := time_of_day t / minutes 1 in padded 2 (m / 60) +:+ ":" +:+ padded 2 (m mod 60).
Definition isoformat (t : datetime) : string :=
  let micro := t mod SECOND in
  date_isoformat (date_part t) +:+ "T" +:+ hours_minutes t +:+ ":" +:+ padded 2 (time_of_day t / SECOND mod 60) +:+
  (if micro =? 0 then "" else "." +:+ padded 6 micro) +:+ "+00:00".

(** ** Call plans *)
Record CallPlan := {
  retry_every_minutes : option Z;
  retry_until : option datetime;
  follow_up_after_answer_minutes : option Z;
}.
#[export] Instance CallPlan_eq_dec : EqDecision CallPlan.
Proof. solve_decision. Defined.
Definition within (lo hi : Z) (v : option Z) : bool :=
  match v with None => true | Some x => (lo <=? x) && (x <=? hi) end.
(** The field bounds ([ge=1, le=30]; [ge=1, le=60]). *)
Definition CallPlan_fields (p : CallPlan) : bool :=
  within 1 30 (retry_every_minutes p) && within 1 60 (follow_up_after_answer_minutes p).
Definition plan_is_complete (p : CallPlan) : result CallPlan :=
  raise_if negb (eqb (bool_decide (retry_every_minutes p = None)) (bool_decide (retry_until p = None)))
    with ValueError "call plan retries need both an interval and an end";
  raise_if bool_decide (retry_until p = None) && bool_decide (follow_up_after_answer_minutes p = None)
    with ValueError "call plan needs retries, a follow-up, or both";
  Ok p.
Definition MAX_CALL_PLAN_CALLS : Z := 10.
Definition MAX_CALL_PLAN_SPAN : timedelta := minutes 60.
Definition max_calls (p : CallPlan) (first_at : datetime) : Z :=
  match retry_every_minutes p, retry_until p with
  | Some every, Some until => 1 + (until - first_at) / minutes every
  | _, _ => 1
  end.
Definition validate_for (p : CallPlan) (first_at : datetime) : result unit :=
  match retry_until p with
  | None => Ok tt
  | Some until =>
      raise_if until <=? first_at with ValueError "call plan retries must end after the first call";
      raise_if MAX_CALL_PLAN_SPAN <? until - first_at
        with ValueError "call plan retries must end within an hour of the first call";
      raise_if MAX_CALL_PLAN_CALLS <? max_calls p first_at
        with ValueError "call plan places at most ten calls before a follow-up";
      Ok tt
  end.
Definition is_once (c : Cadence) : bool := match c with OnceCadence _ => true | _ => false end.
Definition check_call_plan (plan : option CallPlan) (c : Cadence) : result unit :=
  match plan, c with
  | None, _ => Ok tt
  | Some p, OnceCadence first_at => validate_for p first_at
  | Some _, _ => Raise (ValueError "a call plan requires a one-time cadence")
  end.

(** ** Schedules *)
Inductive ScheduleState := SCHEDULE_ACTIVE | PAUSED | SCHEDULE_COMPLETED | SCHEDULE_CANCELLED.
#[export] Instance ScheduleState_eq_dec : EqDecision ScheduleState.
Proof. solve_decision. Defined.
Definition ScheduleState_value (s : ScheduleState) : string :=
  match s with
  | SCHEDULE_ACTIVE => "ACTIVE" | PAUSED => "PAUSED" | SCHEDULE_COMPLETED => "COMPLETED"
  | SCHEDULE_CANCELLED => "CANCELLED"
  end.
Definition ended (s : ScheduleState) : bool := bool_decide (s ∈ [SCHEDULE_COMPLETED; SCHEDULE_CANCELLED]).
Inductive SchedulePauseReason := PAUSED_BY_USER | FAILURE_LIMIT.
#[export] Instance SchedulePauseReason_eq_dec : EqDecision SchedulePauseReason.
Proof. solve_decision. Defined.
Inductive ScheduleNotify := EVERY_REPORT | ATTENTION_ONLY.
#[export] Instance ScheduleNotify_eq_dec : EqDecision ScheduleNotify.
Proof. solve_decision. Defined.

Module Schedule.
Record t := {
  id : UUID;
  tenant_id : string;
  principal_id : string;
  state : ScheduleState;
  pause_reason : option SchedulePauseReason;
  current_revision : Z;
  next_fire_at : option datetime;
  consecutive_failures : Z;
  created_at : datetime;
  updated_at : datetime;
}.
#[global] Instance eta_t : Eta t := λ s,
  {| id := id s; tenant_id := tenant_id s; principal_id := principal_id s; state := state s;
     pause_reason := pause_reason s; current_revision := current_revision s;
     next_fire_at := next_fire_at s; consecutive_failures := consecutive_failures s;
     created_at := created_at s; updated_at := updated_at s |}.
#[global] Instance t_eq_dec : EqDecision t.
Proof. solve_decision. Defined.
(** [(schedule.updated_at, schedule.id)] *)
Definition key (s : t) : datetime * UUID := (updated_at s, id s).
(** The field bounds ([ge=1], [ge=0], [min_length=1]). *)
Definition fields (s : t) : bool :=
  negb (String.eqb (tenant_id s) "") && negb (String.eqb (principal_id s) "") &&
  (1 <=? current_revision s) && (0 <=? consecutive_failures s).
Definition state_is_consistent (s : t) : result t :=
  raise_if bool_decide (state s = PAUSED) && bool_decide (pause_reason s = None)
    with ValueError "paused schedule requires a pause reason";
  raise_if negb (bool_decide (state s = PAUSED)) && negb (bool_decide (pause_reason s = None))
    with ValueError "only a paused schedule may carry a pause reason";
  raise_if ended (state s) && negb (bool_decide (next_fire_at s = None))
    with ValueError "terminal schedule must not have a next firing";
  raise_if updated_at s <? created_at s with ValueError "schedule updated_at precedes created_at";
  Ok s.
(** A schedule that an instance of the class can be: its field bounds and its validator. *)
Definition valid (s : t) : bool := fields s && is_ok (state_is_consistent s).
End Schedule.

(** ** Revisions and definitions *)
Inductive ScheduleTask := AgentRunTask | JobTask (slug : string) (revision_id grant_id : UUID).
#[export] Instance ScheduleTask_eq_dec : EqDecision ScheduleTask.
Proof. solve_decision. Defined.
Definition is_job (t : ScheduleTask) : bool := match t with JobTask _ _ _ => true | AgentRunTask => false end.

(** What a run may spend must be bounded; a job may spend nothing. *)
Definition limits_unbounded (job : bool) (l : RunLimits) : bool :=
  let least := if job then 0 else 1 in
  (max_steps l <=? 0) || (max_model_calls l <? least) || (max_tool_calls l <? least) ||
  match max_cost l with
  | None => true
  | Some cost => dec_ltb cost (dec_of_Z 0) || (negb job && dec_eqb cost (dec_of_Z 0))
  end.
Definition cadence_timezone (c : Cadence) : option string :=
  match c with
  | OnceCadence _ => None
  | DailyCadence _ z | WeeklyCadence _ _ z | MonthlyCadence _ _ _ z | YearlyCadence _ _ z | IntervalCadence _ z => Some z
  end.

(** [ScheduleDefinition]: what its owner writes. *)
Module ScheduleDefinition.
Record t := {
  title : string;
  instruction : string;
  task : ScheduleTask;
  agent_id : UUID;
  agent_version : string;
  policy_profile : string;
  requested_scopes : gset string;
  browser_profile_id : option UUID;
  limits : RunLimits;
  run_timeout_seconds : Z;
  cadence : Cadence;
  misfire_grace_seconds : Z;
  max_consecutive_failures : Z;
  call_plan : option CallPlan;
  notify : ScheduleNotify;
  mcp_servers : gset string;
}.
#[global] Instance eta_t : Eta t := λ d,
  {| title := title d; instruction := instruction d; task := task d; agent_id := agent_id d;
     agent_version := agent_version d; policy_profile := policy_profile d;
     requested_scopes := requested_scopes d; browser_profile_id := browser_profile_id d;
     limits := limits d; run_timeout_seconds := run_timeout_seconds d; cadence := cadence d;
     misfire_grace_seconds := misfire_grace_seconds d;
     max_consecutive_failures := max_consecutive_failures d; call_plan := call_plan d;
     notify := notify d; mcp_servers := mcp_servers d |}.
(** The field bounds ([gt=0], [min_length], [max_length]). *)
Definition fields (d : t) : bool :=
  let len s := Z.of_nat (String.length s) in
  (1 <=? len (title d)) && (len (title d) <=? 1024) &&
  (1 <=? len (instruction d)) && (len (instruction d) <=? 65536) &&
  (1 <=? len (agent_version d)) && (1 <=? len (policy_profile d)) &&
  (0 <? run_timeout_seconds d) && (0 <? misfire_grace_seconds d) && (0 <? max_consecutive_failures d).
Definition execution_is_finite (d : t) : result t :=
  let job := is_job (task d) in
  raise_if job && (negb (bool_decide (call_plan d = None)) || negb (bool_decide (browser_profile_id d = None)))
    with ValueError "A job task has no browser binding or call plan.";
  raise_if job && negb (bool_decide (mcp_servers d = ∅))
    with ValueError "A job task reads the MCP servers its grant names.";
  raise_if limits_unbounded job (limits d) with ValueError "scheduled run limits must all be finite positive values";
  raise_if negb (bool_decide (deadline_at (limits d) = None))
    with ValueError "scheduled definition deadline is derived at materialization";
  _ ← check_call_plan (call_plan d) (cadence d);
  Ok d.
Definition timezone (d : t) : option string := cadence_timezone (cadence d).
End ScheduleDefinition.

Module Revision.
Record t := {
  schedule_id : UUID;
  revision : Z;
  title : string;
  instruction : string;
  task : ScheduleTask;
  agent_id : UUID;
  agent_version : string;
  policy_profile : string;
  requested_scopes : gset string;
  browser_profile_id : option UUID;
  limits : RunLimits;
  run_timeout_seconds : Z;
  cadence : Cadence;
  timezone : option string;
  misfire_grace_seconds : Z;
  max_consecutive_failures : Z;
  notify : ScheduleNotify;
  created_by_principal_id : string;
  created_at : datetime;
  call_plan : option CallPlan;
  mcp_servers : gset string;
}.
Definition execution_is_finite_and_cadence_is_consistent (r : t) : result t :=
  let job := is_job (task r) in
  raise_if job && (negb (bool_decide (call_plan r = None)) || negb (bool_decide (browser_profile_id r = None)))
    with ValueError "A job task has no browser binding or call plan.";
  raise_if job && negb (bool_decide (mcp_servers r = ∅))
    with ValueError "A job task reads the MCP servers its grant names.";
  raise_if limits_unbounded job (limits r) with ValueError "scheduled run limits must all be finite positive values";
  raise_if negb (bool_decide (deadline_at (limits r) = None))
    with ValueError "scheduled revision deadline is derived at materialization";
  _ ← (if is_once (cadence r) then
         raise_if negb (bool_decide (timezone r = None)) with ValueError "one-time cadence has no timezone"; Ok tt
       else raise_if negb (bool_decide (timezone r = cadence_timezone (cadence r)))
         with ValueError "cadence timezone must match revision timezone"; Ok tt);
  _ ← check_call_plan (call_plan r) (cadence r);
  Ok r.
End Revision.

(** ** Occurrences *)
Inductive OccurrenceTrigger := SCHEDULED | MANUAL.
#[export] Instance OccurrenceTrigger_eq_dec : EqDecision OccurrenceTrigger.
Proof. solve_decision. Defined.
Definition OccurrenceTrigger_value (t : OccurrenceTrigger) : string :=
  match t with SCHEDULED => "SCHEDULED" | MANUAL => "MANUAL" end.
Inductive OccurrenceDisposition :=
| MATERIALIZED | MISSED | SKIPPED_OVERLAP | AUTHORIZATION_FAILED | CONFIGURATION_FAILED.
#[export] Instance OccurrenceDisposition_eq_dec : EqDecision OccurrenceDisposition.
Proof. solve_decision. Defined.
Definition OccurrenceDisposition_value (d : OccurrenceDisposition) : string :=
  match d with
  | MATERIALIZED => "MATERIALIZED" | MISSED => "MISSED" | SKIPPED_OVERLAP => "SKIPPED_OVERLAP"
  | AUTHORIZATION_FAILED => "AUTHORIZATION_FAILED" | CONFIGURATION_FAILED => "CONFIGURATION_FAILED"
  end.
Definition COCKPIT_REFRESH_KEY_PREFIX : string := "cockpit.refresh:".
Definition COCKPIT_REFRESH_MIN_AGE : timedelta := minutes 1.
Definition cockpit_refresh_key (now : datetime) : string :=
  COCKPIT_REFRESH_KEY_PREFIX +:+ date_isoformat (date_part now) +:+ "T" +:+ hours_minutes now +:+ "Z".
Definition is_cockpit_refresh (manual_request_key : option string) : bool :=
  match manual_request_key with None => false | Some k => py_startswith COCKPIT_REFRESH_KEY_PREFIX k end.

Module Occurrence.
Record t := {
  id : UUID;
  schedule_id : UUID;
  schedule_revision : Z;
  nominal_fire_at : datetime;
  disposition : OccurrenceDisposition;
  session_id : option UUID;
  run_id : option UUID;
  reason_code : option string;
  authority_version : option string;
  materialized_at : option datetime;
  links_erased_at : option datetime;
  created_at : datetime;
  trigger : OccurrenceTrigger;
  manual_request_key : option string;
}.
#[global] Instance t_eq_dec : EqDecision t.
Proof. solve_decision. Defined.
(** [(value.nominal_fire_at, value.id)] *)
Definition key (o : t) : datetime * UUID := (nominal_fire_at o, id o).
Definition present {A} (v : option A) : bool := match v with Some _ => true | None => false end.
Definition manual_key_matches_trigger (o : t) : result t :=
  raise_if negb (eqb (bool_decide (trigger o = MANUAL)) (present (manual_request_key o)))
    with ValueError "only a manual occurrence carries a request key, and it must";
  raise_if bool_decide (trigger o = MANUAL) && negb (bool_decide (disposition o = MATERIALIZED))
    with ValueError "a manual occurrence is recorded only once it starts a run";
  Ok o.
Fixpoint whitespace (s : string) : bool :=
  match s with EmptyString => true | String c s => py_isspace c && whitespace s end.
Definition materialization_is_consistent (o : t) (at_ : datetime) : result t :=
  _ ← match links_erased_at o with
      | None => raise_if negb (present (session_id o)) || negb (present (run_id o))
          with ValueError "materialized occurrence requires session and run links"; Ok tt
      | Some _ => raise_if present (session_id o) || present (run_id o)
          with ValueError "erased materialized occurrence must clear both links"; Ok tt
      end;
  raise_if present (reason_code o) with ValueError "materialized occurrence cannot carry a reason code";
  raise_if at_ <? nominal_fire_at o with ValueError "materialized occurrence cannot precede its nominal instant";
  raise_if match links_erased_at o with Some erased => erased <? at_ | None => false end
    with ValueError "materialized links cannot be erased before materialization";
  Ok o.
Definition disposition_is_consistent (o : t) : result t :=
  if bool_decide (disposition o = MATERIALIZED) then
    match authority_version o, materialized_at o with
    | Some _, Some at_ => materialization_is_consistent o at_
    | _, _ => Raise (ValueError "materialized occurrence requires authority and time")
    end
  else
    raise_if present (session_id o) || present (run_id o) || present (materialized_at o) || present (links_erased_at o)
      with ValueError "non-materialized occurrence cannot carry materialization or erasure state";
    raise_if match reason_code o with None => true | Some r => whitespace r end
      with ValueError "non-materialized occurrence requires a stable reason code";
    Ok o.
(** [ge=1]; [min_length=1, max_length=255] *)
Definition fields (o : t) : bool :=
  (1 <=? schedule_revision o) &&
  match manual_request_key o with
  | None => true
  | Some k => (1 <=? Z.of_nat (String.length k)) && (Z.of_nat (String.length k) <=? 255)
  end.
Definition make (o : t) : result t :=
  raise_if negb (fields o) with ValueError "validation error for ScheduleOccurrence";
  _ ← manual_key_matches_trigger o; disposition_is_consistent o.
End Occurrence.

Record ScheduledRunLink := { link_occurrence : Occurrence.t; link_tenant_id : string; link_principal_id : string }.
Record ScheduleIdempotencyRecord := {
  sir_tenant_id : string;
  sir_principal_id : string;
  sir_key : string;
  sir_request_hash : string;
  sir_schedule_id : UUID;
  sir_created_at : datetime;
}.
#[export] Instance ScheduleIdempotencyRecord_eq_dec : EqDecision ScheduleIdempotencyRecord.
Proof. solve_decision. Defined.

(** ** What a firing is decided by *)
Record AuthoritySnapshot := { authority_principal : Principal; authority_version : string; authority_enabled : bool }.
Inductive ScheduleAdmissionOutcome := ADMISSION_ALLOW | ADMISSION_RETRY | ADMISSION_REJECT.
#[export] Instance ScheduleAdmissionOutcome_eq_dec : EqDecision ScheduleAdmissionOutcome.
Proof. solve_decision. Defined.
Record ScheduleAdmissionDecision := { admission_outcome : ScheduleAdmissionOutcome; admission_reason : option string }.
Definition reason_matches_outcome (d : ScheduleAdmissionDecision) : result ScheduleAdmissionDecision :=
  let allow := bool_decide (admission_outcome d = ADMISSION_ALLOW) in
  raise_if allow && negb (bool_decide (admission_reason d = None)) with ValueError "allowed admission cannot carry a reason";
  raise_if negb allow && match admission_reason d with None => true | Some r => String.eqb r "" end
    with ValueError "denied admission requires a stable reason";
  Ok d.
Inductive ScheduleRefreshOutcome := REFRESH_STARTED | REFRESH_RUNNING | REFRESH_RECENT | REFRESH_REFUSED.
Record ScheduleRefresh := {
  refresh_schedule_id : UUID;
  refresh_outcome : ScheduleRefreshOutcome;
  refresh_reason : option string;
}.
Definition FEED_KEEPING_SCOPE : string := "cockpit.write".
Definition check_interval_cadence (c : Cadence) (requested_scopes : gset string) : result unit :=
  match c with
  | IntervalCadence _ _ =>
      raise_if negb (bool_decide (FEED_KEEPING_SCOPE ∈ requested_scopes))
        with ValueError "an interval cadence keeps a Cockpit feed; request publish_cockpit_feed"; Ok tt
  | _ => Ok tt
  end.
