(* ===== verification/ScheduleStore.v ===== *)
(** * The schedule repository ([adapters/persistence/schedules.py], in memory)

    Schedules, revisions, occurrences and idempotency records in one store, with one
    definition per method of [InMemoryScheduleRepository], and its invariant: every
    occurrence and current revision belongs to a schedule that is there, and no scheduled
    instant, request key or id is recorded twice. *)
From S2P Require Import Prelude RunModel Sessions Calendar Recurrence Schedules.

Record ScheduleCursor := { sc_updated_at : datetime; sc_id : UUID }.
Record OccurrenceCursor := { oc_nominal_fire_at : datetime; oc_id : UUID }.
Definition _positive_limit (limit : Z) : result Z :=
  raise_if limit <=? 0 with ValueError "schedule repository limit must be positive"; Ok limit.
Definition schedule_owned_by (s : Schedule.t) (p : Principal) : bool :=
  owned_by (Schedule.tenant_id s) (Schedule.principal_id s) p.
(** [max(values, key=key)], and [None] of no values. *)
Definition latest_of {A} (key : A → Z * N) (l : list A) : option A :=
  match l with
  | [] => None
  | x :: l => Some (foldl (λ m y, if key_ltb (key m) (key y) then y else m) x l)
  end.
(** The page of a descending index below a cursor. *)
Definition below {A} (key : A → Z * N) (cursor : option (Z * N)) (l : list A) : list A :=
  match cursor with None => l | Some c => List.filter (λ x, key_ltb (key x) c) l end.

Module ScheduleRepo.
Record t := {
  _schedules : gmap UUID Schedule.t;
  _revisions : gmap (UUID * Z) Revision.t;
  (** In insertion order. *)
  _occurrences : list Occurrence.t;
  _occurrence_keys : gmap (UUID * datetime) UUID;
  _idempotency : gmap (string * string * string) ScheduleIdempotencyRecord;
}.
#[global] Instance t_eta : Eta t := λ s,
  {| _schedules := _schedules s; _revisions := _revisions s; _occurrences := _occurrences s;
     _occurrence_keys := _occurrence_keys s; _idempotency := _idempotency s |}.
Definition init : t :=
  {| _schedules := ∅; _revisions := ∅; _occurrences := []; _occurrence_keys := ∅; _idempotency := ∅ |}.

Definition schedule_missing : exn := NotFoundError "schedule not found".
Definition revision_missing : exn := NotFoundError "schedule revision not found".

Definition create (schedule : Schedule.t) (revision : Revision.t) (s : t) : result Schedule.t * t :=
  if negb (bool_decide (Schedule.id schedule = Revision.schedule_id revision)) ||
     negb (bool_decide (Schedule.current_revision schedule = Revision.revision revision))
  then (Raise (ConflictError "schedule and initial revision do not match"), s)
  else if bool_decide (is_Some (_schedules s !! Schedule.id schedule))
  then (Raise (ConflictError "schedule already exists"), s)
  else (Ok schedule,
        s <| _schedules := <[Schedule.id schedule := schedule]> (_schedules s) |>
          <| _revisions := <[(Schedule.id schedule, Revision.revision revision) := revision]> (_revisions s) |>).
Definition get (schedule_id : UUID) (principal : Principal) (s : t) : result Schedule.t :=
  match _schedules s !! schedule_id with
  | Some schedule => if schedule_owned_by schedule principal then Ok schedule else Raise schedule_missing
  | None => Raise schedule_missing
  end.
Definition lock (schedule_id : UUID) (principal : Principal) (s : t) : result Schedule.t := get schedule_id principal s.
Definition get_revision (schedule_id : UUID) (revision : Z) (principal : Principal) (s : t) : result Revision.t :=
  _ ← get schedule_id principal s;
  match _revisions s !! (schedule_id, revision) with Some v => Ok v | None => Raise revision_missing end.
Definition get_revisions (identities : list (UUID * Z)) (principal : Principal) (s : t)
    : result (gmap (UUID * Z) Revision.t) :=
  foldl (λ acc identity,
    found ← acc;
    revision ← get_revision identity.1 identity.2 principal s;
    Ok (<[identity := revision]> found)) (Ok ∅) identities.
Definition list_schedules (principal : Principal) (limit : Z) (cursor : option ScheduleCursor)
    (states : option (list ScheduleState)) (s : t) : result (list Schedule.t) :=
  limit ← _positive_limit limit;
  let values := List.filter (λ x, schedule_owned_by x principal &&
    match states with None => true | Some l => bool_decide (Schedule.state x ∈ l) end) (table_rows (_schedules s)) in
  Ok (take (Z.to_nat limit)
        (below Schedule.key ((λ c, (sc_updated_at c, sc_id c)) <$> cursor) (sort_desc Schedule.key values))).
Definition purge_terminal (tenant_id : string) (before : datetime) (limit : Z) (s : t) : result Z * t :=
  match _positive_limit limit with
  | Raise e => (Raise e, s)
  | Ok limit =>
      let candidates := take (Z.to_nat limit) (sort_asc Schedule.key (List.filter (λ x,
        String.eqb (Schedule.tenant_id x) tenant_id && ended (Schedule.state x) &&
        (Schedule.updated_at x <=? before)) (table_rows (_schedules s)))) in
      let schedule_ids : gset UUID := list_to_set (Schedule.id <$> candidates) in
      if bool_decide (schedule_ids = ∅) then (Ok 0, s)
      else
        let kept o := negb (bool_decide (Occurrence.schedule_id o ∈ schedule_ids)) in
        let occurrence_ids : gset UUID :=
          list_to_set (Occurrence.id <$> List.filter (λ o, negb (kept o)) (_occurrences s)) in
        (Ok (Z.of_nat (size schedule_ids)),
         {| _schedules := filter (λ kv, kv.1 ∉ schedule_ids) (_schedules s);
            _revisions := filter (λ kv, kv.1.1 ∉ schedule_ids) (_revisions s);
            _occurrences := List.filter (λ o, negb (bool_decide (Occurrence.id o ∈ occurrence_ids))) (_occurrences s);
            _occurrence_keys := filter (λ kv, kv.2 ∉ occurrence_ids) (_occurrence_keys s);
            _idempotency := filter (λ kv, sir_schedule_id kv.2 ∉ schedule_ids) (_idempotency s) |})
  end.

(** ** What is due *)
Definition firing (x : Schedule.t) : option datetime :=
  if bool_decide (Schedule.state x = SCHEDULE_ACTIVE) then Schedule.next_fire_at x else None.
Definition is_due (now : datetime) (x : Schedule.t) : bool :=
  match firing x with Some at_ => at_ <=? now | None => false end.
Definition due_key (x : Schedule.t) : datetime * UUID := (default 0 (Schedule.next_fire_at x), Schedule.id x).
Definition due (now : datetime) (limit : Z) (s : t) : result (list UUID) :=
  limit ← _positive_limit limit;
  Ok (take (Z.to_nat limit) (Schedule.id <$> sort_asc due_key (List.filter (is_due now) (table_rows (_schedules s))))).
Definition next_fire_at (s : t) : option datetime :=
  match omap firing (table_rows (_schedules s)) with [] => None | x :: l => Some (foldl Z.min x l) end.
Definition lock_due (schedule_id : UUID) (now : datetime) (s : t) : option Schedule.t :=
  match _schedules s !! schedule_id with
  | Some schedule => if is_due now schedule then Some schedule else None
  | None => None
  end.

(** ** Changes, each against the row that was read *)
Definition put (updated : Schedule.t) (s : t) : t := s <| _schedules := <[Schedule.id updated := updated]> (_schedules s) |>.
Definition advance (previous updated : Schedule.t) (s : t) : result Schedule.t * t :=
  if negb (bool_decide (_schedules s !! Schedule.id previous = Some previous))
  then (Raise (ConflictError "schedule changed before its decision was persisted"), s)
  else if negb (bool_decide (Schedule.id updated = Schedule.id previous)) ||
          negb (bool_decide (Schedule.current_revision updated = Schedule.current_revision previous))
  then (Raise (ConflictError "schedule decision cannot change identity or revision"), s)
  else (Ok updated, put updated s).
Definition replace (previous updated : Schedule.t) (revision : option Revision.t) (s : t) : result Schedule.t * t :=
  if negb (bool_decide (_schedules s !! Schedule.id previous = Some previous))
  then (Raise (ConflictError "schedule changed before mutation"), s)
  else if negb (bool_decide (Schedule.id updated = Schedule.id previous))
  then (Raise (ConflictError "schedule mutation cannot change identity"), s)
  else match revision with
  | None =>
      if negb (bool_decide (Schedule.current_revision updated = Schedule.current_revision previous))
      then (Raise (ConflictError "state mutation cannot change revision"), s)
      else (Ok updated, put updated s)
  | Some r =>
      let number := Revision.revision r in
      if negb (bool_decide (Revision.schedule_id r = Schedule.id previous)) ||
         negb (number =? Schedule.current_revision previous + 1) ||
         negb (Schedule.current_revision updated =? number) ||
         bool_decide (is_Some (_revisions s !! (Schedule.id previous, number)))
      then (Raise (ConflictError "schedule revision mutation is inconsistent"), s)
      else (Ok updated, put updated (s <| _revisions := <[(Schedule.id previous, number) := r]> (_revisions s) |>))
  end.

(** ** Occurrences *)
Definition occurrence_of (id : UUID) (l : list Occurrence.t) : option Occurrence.t :=
  List.find (λ o, bool_decide (Occurrence.id o = id)) l.
Definition same_request (schedule_id : UUID) (k : string) (o : Occurrence.t) : bool :=
  bool_decide (Occurrence.schedule_id o = schedule_id) && bool_decide (Occurrence.manual_request_key o = Some k).
Definition manual_occurrence (schedule_id : UUID) (k : string) (s : t) : option Occurrence.t :=
  List.find (same_request schedule_id k) (_occurrences s).
(** Python's [==]: the row there is the one to insert, or another. *)
Definition settle (existing occurrence : Occurrence.t) (msg : string) : result Occurrence.t :=
  if bool_decide (existing = occurrence) then Ok existing else Raise (ConflictError msg).
Definition insert (occurrence : Occurrence.t) (s : t) : result Occurrence.t * t :=
  let schedule := Occurrence.schedule_id occurrence in
  let key := (schedule, Occurrence.nominal_fire_at occurrence) in
  let scheduled := bool_decide (Occurrence.trigger occurrence = SCHEDULED) in
  if negb (bool_decide (is_Some (_schedules s !! schedule))) then (Raise schedule_missing, s)
  else if negb (bool_decide (is_Some (_revisions s !! (schedule, Occurrence.schedule_revision occurrence))))
  then (Raise revision_missing, s)
  else match Occurrence.manual_request_key occurrence ≫= λ k, manual_occurrence schedule k s with
  | Some existing => (settle existing occurrence "manual occurrence key already used", s)
  | None =>
      match (if scheduled then _occurrence_keys s !! key else None) with
      | Some existing_id =>
          match occurrence_of existing_id (_occurrences s) with
          | Some existing => (settle existing occurrence "schedule occurrence already exists with different content", s)
          | None => (Raise (KeyError "occurrence"), s)
          end
      | None =>
          if bool_decide (is_Some (occurrence_of (Occurrence.id occurrence) (_occurrences s)))
          then (Raise (ConflictError "schedule occurrence identifier already exists"), s)
          else (Ok occurrence,
                s <| _occurrences := (_occurrences s ++ [occurrence])%list |>
                  <| _occurrence_keys :=
                       if scheduled then <[key := Occurrence.id occurrence]> (_occurrence_keys s) else _occurrence_keys s |>)
      end
  end.
Definition get_occurrence_by_nominal (schedule_id : UUID) (nominal : datetime) (s : t) : result (option Occurrence.t) :=
  match _occurrence_keys s !! (schedule_id, nominal) with
  | None => Ok None
  | Some id => match occurrence_of id (_occurrences s) with Some o => Ok (Some o) | None => Raise (KeyError "occurrence") end
  end.
Definition of_schedule (schedule_id : UUID) (o : Occurrence.t) : bool := bool_decide (Occurrence.schedule_id o = schedule_id).
Definition latest_occurrence_at_or_before (schedule_id : UUID) (instant : datetime) (s : t) : option Occurrence.t :=
  latest_of Occurrence.key (List.filter (λ o, of_schedule schedule_id o &&
    bool_decide (Occurrence.trigger o = SCHEDULED) && (Occurrence.nominal_fire_at o <=? instant)) (_occurrences s)).
Definition materialized (schedule_id : UUID) (o : Occurrence.t) : bool :=
  of_schedule schedule_id o && bool_decide (Occurrence.disposition o = MATERIALIZED).
Definition latest_materialized_occurrence (schedule_id : UUID) (s : t) : option Occurrence.t :=
  latest_of Occurrence.key (List.filter (materialized schedule_id) (_occurrences s)).
Definition count_manual_since (schedule_id : UUID) (since : datetime) (s : t) : Z :=
  Z.of_nat (length (List.filter (λ o, of_schedule schedule_id o && bool_decide (Occurrence.trigger o = MANUAL) &&
    negb (is_cockpit_refresh (Occurrence.manual_request_key o)) && (since <=? Occurrence.created_at o)) (_occurrences s))).
Definition occurrence_by_run (run_id : UUID) (s : t) : result (option ScheduledRunLink) :=
  match List.filter (λ o, bool_decide (Occurrence.run_id o = Some run_id)) (_occurrences s) with
  | [] => Ok None
  | [o] =>
      match _schedules s !! Occurrence.schedule_id o with
      | Some schedule => Ok (Some {| link_occurrence := o; link_tenant_id := Schedule.tenant_id schedule;
                                     link_principal_id := Schedule.principal_id schedule |})
      | None => Raise (KeyError "schedule")
      end
  | _ => Raise (ConflictError "run is linked to multiple schedule occurrences")
  end.
Definition list_occurrences (schedule_id : UUID) (principal : Principal) (limit : Z) (cursor : option OccurrenceCursor)
    (s : t) : result (list Occurrence.t) :=
  _ ← get schedule_id principal s;
  limit ← _positive_limit limit;
  Ok (take (Z.to_nat limit) (below Occurrence.key ((λ c, (oc_nominal_fire_at c, oc_id c)) <$> cursor)
    (sort_desc Occurrence.key (List.filter (of_schedule schedule_id) (_occurrences s))))).

(** ** Idempotency records *)
Definition get_idempotency (tenant_id principal_id key : string) (s : t) : option ScheduleIdempotencyRecord :=
  _idempotency s !! (tenant_id, principal_id, key).
Definition create_idempotency (record : ScheduleIdempotencyRecord) (s : t) : result ScheduleIdempotencyRecord * t :=
  let key := (sir_tenant_id record, sir_principal_id record, sir_key record) in
  match _idempotency s !! key with
  | Some existing =>
      (if bool_decide (existing = record) then Ok existing
       else Raise (ConflictError "schedule idempotency key reused with different request"), s)
  | None =>
      match _schedules s !! sir_schedule_id record with
      | Some schedule =>
          if bool_decide (Schedule.tenant_id schedule = sir_tenant_id record) &&
             bool_decide (Schedule.principal_id schedule = sir_principal_id record)
          then (Ok record, s <| _idempotency := <[key := record]> (_idempotency s) |>)
          else (Raise schedule_missing, s)
      | None => (Raise schedule_missing, s)
      end
  end.
End ScheduleRepo.
