(* ===== verification/ScheduleStoreSpec.v ===== *)
(** * The invariant of the schedule repository

    Every operation of [ScheduleStore] keeps it, so after any history a scheduled instant, a
    request key and an id name one occurrence, each of a schedule and a revision that are
    there; and until its schedule is purged nothing changes an occurrence or a revision. *)
From S2P Require Import Prelude RunModel Sessions Recurrence Schedules ScheduleStore.
Import ScheduleRepo.

Lemma occurrence_of_Some id l o : occurrence_of id l = Some o → o ∈ l ∧ Occurrence.id o = id.
Proof. unfold occurrence_of. intros [Hin E%bool_decide_eq_true]%List.find_some. by rewrite list_elem_of_In. Qed.
Lemma occurrence_of_None id l : occurrence_of id l = None ↔ id ∉ Occurrence.id <$> l.
Proof.
  unfold occurrence_of. split.
  - intros H (o & -> & Hin)%list_elem_of_fmap. apply list_elem_of_In in Hin.
    apply (List.find_none _ _ H) in Hin. by rewrite bool_decide_eq_false in Hin.
  - intros H. destruct (List.find _ l) eqn:E; [|done]. apply occurrence_of_Some in E as [Hin <-].
    contradict H. by apply list_elem_of_fmap_2.
Qed.
Lemma occurrence_of_mem id l o : NoDup (Occurrence.id <$> l) → o ∈ l → Occurrence.id o = id → occurrence_of id l = Some o.
Proof.
  intros Hnd Hin Ho. destruct (occurrence_of id l) as [o'|] eqn:E.
  - apply occurrence_of_Some in E as [Hin' Ho']. f_equal.
    apply list_elem_of_lookup in Hin as [j Hj], Hin' as [j' Hj'].
    assert (j = j') as <-; [|congruence].
    apply (NoDup_lookup _ _ _ id Hnd); rewrite list_lookup_fmap, ?Hj, ?Hj'; cbn; congruence.
  - apply occurrence_of_None in E. contradict E. subst id. by apply list_elem_of_fmap_2.
Qed.
Lemma manual_occurrence_Some i k s o : manual_occurrence i k s = Some o →
  o ∈ _occurrences s ∧ Occurrence.schedule_id o = i ∧ Occurrence.manual_request_key o = Some k.
Proof.
  unfold manual_occurrence, same_request. intros [Hin H]%List.find_some. rewrite list_elem_of_In.
  apply andb_true_iff in H as [?%bool_decide_eq_true ?%bool_decide_eq_true]. done.
Qed.
Lemma manual_occurrence_None i k s o : manual_occurrence i k s = None → o ∈ _occurrences s →
  Occurrence.schedule_id o = i → Occurrence.manual_request_key o ≠ Some k.
Proof.
  unfold manual_occurrence, same_request. intros H Hin Hi. apply list_elem_of_In in Hin.
  apply (List.find_none _ _ H) in Hin. rewrite andb_false_iff, !bool_decide_eq_false in Hin. naive_solver.
Qed.

(** ** The invariant *)
Record inv (s : t) : Prop := {
  inv_ids : ∀ i x, _schedules s !! i = Some x → Schedule.id x = i;
  inv_current : ∀ i x, _schedules s !! i = Some x → is_Some (_revisions s !! (i, Schedule.current_revision x));
  inv_revisions : ∀ i n r, _revisions s !! (i, n) = Some r → Revision.schedule_id r = i ∧ Revision.revision r = n;
  inv_latest : ∀ i n x, is_Some (_revisions s !! (i, n)) → _schedules s !! i = Some x → n <= Schedule.current_revision x;
  inv_owned : ∀ i n, is_Some (_revisions s !! (i, n)) → is_Some (_schedules s !! i);
  inv_links : ∀ o, o ∈ _occurrences s →
    is_Some (_revisions s !! (Occurrence.schedule_id o, Occurrence.schedule_revision o));
  inv_occurrence_ids : NoDup (Occurrence.id <$> _occurrences s);
  inv_keys : ∀ i t k, _occurrence_keys s !! (i, t) = Some k ↔
    ∃ o, o ∈ _occurrences s ∧ Occurrence.id o = k ∧ Occurrence.schedule_id o = i ∧
         Occurrence.nominal_fire_at o = t ∧ Occurrence.trigger o = SCHEDULED;
  inv_requests : ∀ o o' k, o ∈ _occurrences s → o' ∈ _occurrences s →
    Occurrence.schedule_id o = Occurrence.schedule_id o' → Occurrence.manual_request_key o = Some k →
    Occurrence.manual_request_key o' = Some k → o = o';
}.
Lemma empty_inv : inv init.
Proof. split; cbn; try apply NoDup_nil_2; intros *; rewrite ?lookup_empty, ?elem_of_nil; try (by intros [? ?]); set_solver. Qed.
Lemma inv_same_id s o o' : inv s → o ∈ _occurrences s → o' ∈ _occurrences s → Occurrence.id o = Occurrence.id o' → o = o'.
Proof.
  intros I Ho Ho' E. apply (occurrence_of_mem _ _ _ (inv_occurrence_ids _ I) Ho) in E.
  rewrite (occurrence_of_mem _ _ o' (inv_occurrence_ids _ I)) in E; naive_solver.
Qed.

Lemma create_inv x r s : inv s → inv (create x r s).2.
Proof.
  intros I. unfold create. destruct (_ || _) eqn:E; [done|]. apply orb_false_iff in E as [E1 E2].
  rewrite negb_false_iff, bool_decide_eq_true in E1, E2. case_bool_decide as Hn; [done|]. apply eq_None_not_Some in Hn.
  assert (∀ n, _revisions s !! (Schedule.id x, n) = None) as Hr.
  { intros n. destruct (_revisions s !! _) eqn:E; [|done]. destruct (inv_owned _ I (Schedule.id x) n ltac:(by rewrite E)). congruence. }
  split; cbn.
  - intros i y [[<- <-]|[? ?]]%lookup_insert_Some; [done|by apply (inv_ids _ I)].
  - intros i y [[<- <-]|[Hi Hy]]%lookup_insert_Some; [rewrite E2, lookup_insert_eq; by eexists|].
    rewrite lookup_insert_ne by congruence. by apply (inv_current _ I).
  - intros i n q [[[= <- <-] <-]|[? Hq]]%lookup_insert_Some; [done|by apply (inv_revisions _ I)].
  - intros i n y Hq [[<- <-]|[Hi Hy]]%lookup_insert_Some.
    + destruct (decide (n = Revision.revision r)); [lia|]. rewrite lookup_insert_ne, Hr in Hq by congruence. by destruct Hq.
    + rewrite lookup_insert_ne in Hq by congruence. by eapply (inv_latest _ I).
  - intros i n. rewrite !lookup_insert_is_Some'. intros [[= <- <-]|H]; [by left|right; by eapply (inv_owned _ I)].
  - intros o Ho. rewrite lookup_insert_is_Some'. right. by apply (inv_links _ I).
  - apply I.
  - apply I.
  - apply I.
Qed.
Lemma put_inv x y s : inv s → _schedules s !! Schedule.id x = Some x → Schedule.id y = Schedule.id x →
  Schedule.current_revision y = Schedule.current_revision x → inv (put y s).
Proof.
  intros I Hx Hi Hr. split; cbn; try apply I.
  - intros i z [[<- <-]|[? ?]]%lookup_insert_Some; [done|by apply (inv_ids _ I)].
  - intros i z [[<- <-]|[? ?]]%lookup_insert_Some; [|by apply (inv_current _ I)].
    rewrite Hr, Hi. by apply (inv_current _ I).
  - intros i n z Hn [[<- <-]|[? ?]]%lookup_insert_Some; [|by eapply (inv_latest _ I)].
    rewrite Hr, Hi in *. by eapply (inv_latest _ I).
  - intros i n Hn. rewrite lookup_insert_is_Some'. right. by eapply (inv_owned _ I).
Qed.
Lemma put_revision_inv x y r s : inv s → _schedules s !! Schedule.id x = Some x → Schedule.id y = Schedule.id x →
  Revision.schedule_id r = Schedule.id x → Revision.revision r = Schedule.current_revision x + 1 →
  Schedule.current_revision y = Revision.revision r →
  inv (put y (s <| _revisions := <[(Schedule.id x, Revision.revision r) := r]> (_revisions s) |>)).
Proof.
  intros I Hx Hi Hs Hn Hy. split; cbn; try apply I.
  - intros i z [[<- <-]|[? ?]]%lookup_insert_Some; [done|by apply (inv_ids _ I)].
  - intros i z [[<- <-]|[? ?]]%lookup_insert_Some; rewrite lookup_insert_is_Some'; [left; congruence|right].
    by apply (inv_current _ I).
  - intros i n q [[[= <- <-] <-]|[? Hq]]%lookup_insert_Some; [done|by apply (inv_revisions _ I)].
  - intros i n z Hq Hz%lookup_insert_Some. rewrite lookup_insert_is_Some' in Hq.
    destruct Hz as [[<- <-]|[Hne Hz]], Hq as [[= Hq1 Hq2]|Hq].
    + lia.
    + rewrite Hi in Hq. pose proof (inv_latest _ I _ _ _ Hq Hx). lia.
    + congruence.
    + by eapply (inv_latest _ I).
  - intros i n. rewrite !lookup_insert_is_Some'. intros [[= <- <-]|H]; [left; by rewrite Hi|right; by eapply (inv_owned _ I)].
  - intros o Ho. rewrite lookup_insert_is_Some'. right. by apply (inv_links _ I).
Qed.
Lemma advance_Ok x y s z : (advance x y s).1 = Ok z →
  _schedules s !! Schedule.id x = Some x ∧ Schedule.id y = Schedule.id x ∧
  Schedule.current_revision y = Schedule.current_revision x ∧ z = y ∧ advance x y s = (Ok y, put y s).
Proof.
  unfold advance. case_bool_decide as H1; [|done]. cbn [negb]. destruct (_ || _) eqn:E; [done|].
  apply orb_false_iff in E as [E1 E2]. rewrite negb_false_iff, bool_decide_eq_true in E1, E2. by intros [= <-].
Qed.
Lemma advance_state x y s : (advance x y s).2 = s ∨ (advance x y s).1 = Ok y.
Proof. unfold advance. repeat (case_match; try by left). by right. Qed.
Lemma advance_inv x y s : inv s → inv (advance x y s).2.
Proof.
  intros I. destruct (advance_state x y s) as [->|H]; [done|]. apply advance_Ok in H as (H1 & H2 & H3 & _ & ->).
  by apply (put_inv x).
Qed.
Lemma replace_inv x y r s : inv s → inv (replace x y r s).2.
Proof.
  intros I. unfold replace. case_bool_decide as H1; [|done]. cbn [negb]. case_bool_decide as H2; [|done]. cbn [negb].
  destruct r as [r|].
  - destruct (_ || _) eqn:E; [done|]. rewrite !orb_false_iff, !negb_false_iff, bool_decide_eq_true in E.
    destruct E as [[[E1 E2%Z.eqb_eq] E3%Z.eqb_eq] _]. by apply put_revision_inv.
  - case_bool_decide as H3; [|done]. by apply (put_inv x).
Qed.

(** A row that an insertion adds, and what it had to be. *)
Definition insertable (o : Occurrence.t) (s : t) : Prop :=
  is_Some (_schedules s !! Occurrence.schedule_id o) ∧
  is_Some (_revisions s !! (Occurrence.schedule_id o, Occurrence.schedule_revision o)) ∧
  (∀ o' k, o' ∈ _occurrences s → Occurrence.schedule_id o' = Occurrence.schedule_id o →
     Occurrence.manual_request_key o = Some k → Occurrence.manual_request_key o' ≠ Some k) ∧
  (Occurrence.trigger o = SCHEDULED →
     _occurrence_keys s !! (Occurrence.schedule_id o, Occurrence.nominal_fire_at o) = None) ∧
  Occurrence.id o ∉ Occurrence.id <$> _occurrences s.
Definition with_occurrence (o : Occurrence.t) (s : t) : t :=
  s <| _occurrences := (_occurrences s ++ [o])%list |>
    <| _occurrence_keys := if bool_decide (Occurrence.trigger o = SCHEDULED)
         then <[(Occurrence.schedule_id o, Occurrence.nominal_fire_at o) := Occurrence.id o]> (_occurrence_keys s)
         else _occurrence_keys s |>.
Lemma settle_Ok a b msg r : settle a b msg = Ok r → r = b ∧ a = b.
Proof. unfold settle. case_bool_decide as E; [|done]. intros H. injection H as <-. done. Qed.
Lemma insert_cases o s :
  (insertable o s ∧ insert o s = (Ok o, with_occurrence o s)) ∨
  ((insert o s).2 = s ∧ ∀ r, (insert o s).1 = Ok r → r = o ∧ (inv s → o ∈ _occurrences s)).
Proof.
  unfold insert, insertable. case_bool_decide as H1; [|right; by split]. cbn [negb].
  case_bool_decide as H2; [|right; by split]. cbn [negb].
  destruct (_ ≫= _) as [existing|] eqn:E.
  - right. split; [done|]. intros r [-> ->]%settle_Ok.
    destruct (Occurrence.manual_request_key o) as [k|] eqn:Ek; [|done]. cbn in E.
    apply manual_occurrence_Some in E as (Hin & _ & _). done.
  - destruct (if bool_decide _ then _ else _) as [id'|] eqn:Ekey.
    + right. destruct (occurrence_of id' (_occurrences s)) as [existing|] eqn:Eo; [|by split]. split; [done|].
      intros r [-> ->]%settle_Ok.
      apply occurrence_of_Some in Eo as [Hin _]. done.
    + destruct (bool_decide (is_Some _)) eqn:H3; [right; by split|].
      apply bool_decide_eq_false, eq_None_not_Some, occurrence_of_None in H3.
      left. split; [|unfold with_occurrence; by case_bool_decide]. split_and!; try done.
      * intros o' k Ho' Hi Hk. rewrite Hk in E. cbn in E. by eapply manual_occurrence_None.
      * intros Ht. by rewrite bool_decide_true in Ekey.
Qed.
(** A row with a new request key and a new scheduled instant is added, or refused. *)
Lemma insert_absent o s : (Occurrence.trigger o = SCHEDULED →
    _occurrence_keys s !! (Occurrence.schedule_id o, Occurrence.nominal_fire_at o) = None) →
  (∀ k, Occurrence.manual_request_key o = Some k → manual_occurrence (Occurrence.schedule_id o) k s = None) →
  (insertable o s ∧ insert o s = (Ok o, with_occurrence o s)) ∨ ∃ e, insert o s = (Raise e, s).
Proof.
  intros Hkey Hreq. destruct (insert_cases o s) as [?|[Hs _]]; [by left|]. right. unfold insert in *.
  case_bool_decide; [|by eexists]. case_bool_decide; [|by eexists]. cbn [negb] in *.
  destruct (Occurrence.manual_request_key o ≫= _) as [x|] eqn:E.
  { destruct (Occurrence.manual_request_key o) as [k|]; [|done]. cbn in E. by rewrite (Hreq k) in E. }
  destruct (if bool_decide (Occurrence.trigger o = SCHEDULED) then _ else _) eqn:Ek.
  { case_bool_decide; [|done]. by rewrite Hkey in Ek. }
  destruct (bool_decide (is_Some (occurrence_of _ _))); [by eexists|]. cbn [snd] in Hs. exfalso.
  assert (length (_occurrences s ++ [o]) = length (_occurrences s)) as Hlen by (by rewrite <- Hs at 2).
  rewrite length_app in Hlen. cbn in Hlen. lia.
Qed.
Lemma with_occurrence_inv o s : inv s → insertable o s → inv (with_occurrence o s).
Proof.
  intros I (H1 & H2 & H3 & H4 & H5). split; cbn; try apply I.
  - intros o' [Ho'|Ho'%list_elem_of_singleton]%elem_of_app; [by apply (inv_links _ I)|by subst].
  - rewrite fmap_app. apply NoDup_app. split; [apply I|]. split; [|apply NoDup_singleton].
    intros k Hk Hk'%list_elem_of_singleton. by subst k.
  - intros i t k. transitivity ((Occurrence.trigger o = SCHEDULED ∧ Occurrence.schedule_id o = i ∧
      Occurrence.nominal_fire_at o = t ∧ Occurrence.id o = k) ∨ _occurrence_keys s !! (i, t) = Some k).
    + case_bool_decide as Ht; [|naive_solver]. rewrite lookup_insert_Some. split.
      * intros [[[= <- <-] <-]|[_ ?]]; [by left|by right].
      * intros [(_ & <- & <- & <-)|Hk]; [by left|]. right. split; [|done]. intros E. rewrite <- E, (H4 Ht) in Hk. done.
    + rewrite (inv_keys _ I). cbn. setoid_rewrite elem_of_app. setoid_rewrite list_elem_of_singleton. split.
      * intros [(? & ? & ? & ?)|(o' & ? & ?)]; [by exists o; eauto 6|exists o'; eauto].
      * intros (o' & [Ho'| ->] & ? & ? & ? & ?); [right; exists o'; eauto 6|by left].
  - intros a b k [Ha| ->%list_elem_of_singleton]%elem_of_app [Hb| ->%list_elem_of_singleton]%elem_of_app E Hka Hkb;
      [by eapply (inv_requests _ I)| | |done].
    + by destruct (H3 a k).
    + by destruct (H3 b k).
Qed.
Lemma insert_inv o s : inv s → inv (insert o s).2.
Proof. intros I. destruct (insert_cases o s) as [[Hi ->]|[-> _]]; [by apply with_occurrence_inv|done]. Qed.
Lemma purge_inv tenant before limit s : inv s → inv (purge_terminal tenant before limit s).2.
Proof.
  intros I. unfold purge_terminal. destruct (_positive_limit limit); [|done]. cbv zeta.
  generalize (list_to_set (C := gset UUID) (Schedule.id <$> take (Z.to_nat a) (sort_asc Schedule.key (List.filter
    (λ x, String.eqb (Schedule.tenant_id x) tenant && ended (Schedule.state x) && (Schedule.updated_at x <=? before))
    (table_rows (_schedules s)))))). intros gone. case_bool_decide; [done|].
  set (ids := list_to_set (C := gset UUID) _).
  assert (∀ o, o ∈ _occurrences s → Occurrence.id o ∈ ids ↔ Occurrence.schedule_id o ∈ gone) as Hids.
  { intros o Ho. unfold ids. rewrite elem_of_list_to_set, list_elem_of_fmap. setoid_rewrite elem_List_filter.
    setoid_rewrite negb_involutive. setoid_rewrite bool_decide_eq_true. split; [|naive_solver].
    intros (o' & E & Ho' & Hg). by rewrite (inv_same_id s o o'). }
  assert (∀ o, o ∈ List.filter (λ o, negb (bool_decide (Occurrence.id o ∈ ids))) (_occurrences s) ↔
    o ∈ _occurrences s ∧ Occurrence.schedule_id o ∉ gone) as Hkept.
  { intros o. rewrite elem_List_filter, negb_true_iff, bool_decide_eq_false. split; intros [Ho H']; (split; [done|]); by rewrite Hids in *. }
  split; cbn.
  - intros i x [? _]%map_lookup_filter_Some. by apply (inv_ids _ I).
  - intros i x [Hx Hi]%map_lookup_filter_Some. destruct (inv_current _ I i x Hx) as [r Hr]. exists r.
    by apply map_lookup_filter_Some.
  - intros i n r [Hr _]%map_lookup_filter_Some. by apply (inv_revisions _ I).
  - intros i n x [r [Hr _]%map_lookup_filter_Some] [Hx _]%map_lookup_filter_Some. by eapply (inv_latest _ I).
  - intros i n [r [Hr Hi]%map_lookup_filter_Some]. destruct (inv_owned _ I i n ltac:(by eexists)) as [x Hx]. exists x.
    by apply map_lookup_filter_Some.
  - intros o [Ho Hg]%Hkept. destruct (inv_links _ I o Ho) as [r Hr]. exists r. by apply map_lookup_filter_Some.
  - apply NoDup_fmap_2_strong.
    + intros o o' [Ho _]%Hkept [Ho' _]%Hkept. by apply (inv_same_id s).
    + eapply NoDup_List_filter, NoDup_fmap_1, (inv_occurrence_ids _ I).
  - intros i t k. rewrite map_lookup_filter_Some, (inv_keys _ I). cbn. setoid_rewrite Hkept. split.
    + intros [(o & Ho & <- & <- & <- & Ht) Hk]. exists o. by rewrite Hids in Hk.
    + intros (o & [Ho Hg] & <- & <- & <- & Ht). split; [by exists o|]. by rewrite Hids.
  - intros o o' k [Ho _]%Hkept [Ho' _]%Hkept. by apply (inv_requests _ I).
Qed.
Lemma create_idempotency_inv r s : inv s → inv (create_idempotency r s).2.
Proof. intros I. unfold create_idempotency. repeat case_match; cbn [snd]; try done. split; apply I. Qed.

(** ** The latest row of a list *)
Section latest.
Context {A : Type} (key : A → Z * N).
Lemma latest_fold l x : let m := foldl (λ m y, if key_ltb (key m) (key y) then y else m) x l in
  m ∈ x :: l ∧ ∀ y, y ∈ x :: l → key_leb (key y) (key m) = true.
Proof.
  revert x. induction l as [|y l IH]; intros x; cbn [foldl].
  - split; [by left|]. intros z ->%list_elem_of_singleton. apply key_leb_refl.
  - cbv zeta in *. destruct (key_ltb (key x) (key y)) eqn:E.
    + destruct (IH y) as [Hin Hmax]. split; [by right|]. intros z [-> |[-> |Hz]%elem_of_cons]%elem_of_cons.
      * eapply key_leb_trans; [by apply key_ltb_le|]. apply Hmax. by left.
      * apply Hmax. by left.
      * apply Hmax. by right.
    + destruct (IH x) as [Hin Hmax]. rewrite key_ltb_leb, negb_false_iff in E. split; [set_solver|].
      intros z [-> |[-> |Hz]%elem_of_cons]%elem_of_cons.
      * apply Hmax. by left.
      * eapply key_leb_trans; [done|]. apply Hmax. by left.
      * apply Hmax. by right.
Qed.
Lemma latest_of_Some l m : latest_of key l = Some m → m ∈ l ∧ ∀ y, y ∈ l → key_leb (key y) (key m) = true.
Proof. destruct l as [|x l]; [done|]. intros H. injection H as <-. apply latest_fold. Qed.
Lemma latest_of_None l : latest_of key l = None → l = [].
Proof. by destruct l. Qed.
(** A row that lies above the others is the latest one. *)
Lemma latest_of_last l x : x ∈ l → (∀ y, y ∈ l → (key y).1 < (key x).1 ∨ y = x) → latest_of key l = Some x.
Proof.
  intros Hx Hl. destruct (latest_of key l) as [m|] eqn:E; [|apply latest_of_None in E; set_solver].
  apply latest_of_Some in E as [Hm Hmax]. f_equal. destruct (Hl m Hm) as [Hlt|]; [|done].
  specialize (Hmax x Hx). unfold key_leb in Hmax. lia.
Qed.
End latest.

(** ** Histories *)
Inductive op :=
| Create (schedule : Schedule.t) (revision : Revision.t)
| Advance (previous updated : Schedule.t)
| Replace (previous updated : Schedule.t) (revision : option Revision.t)
| Insert (occurrence : Occurrence.t)
| PurgeTerminal (tenant_id : string) (before : datetime) (limit : Z)
| CreateIdempotency (record : ScheduleIdempotencyRecord).
Definition step (s : t) (o : op) : t :=
  match o with
  | Create x r => (create x r s).2
  | Advance x y => (advance x y s).2
  | Replace x y r => (replace x y r s).2
  | Insert o => (insert o s).2
  | PurgeTerminal tenant before limit => (purge_terminal tenant before limit s).2
  | CreateIdempotency r => (create_idempotency r s).2
  end.
Definition run (l : list op) : t := foldl step init l.
Lemma step_inv s o : inv s → inv (step s o).
Proof.
  destruct o; [apply create_inv|apply advance_inv|apply replace_inv|apply insert_inv|apply purge_inv|apply create_idempotency_inv].
Qed.
Lemma run_inv l : inv (run l).
Proof.
  unfold run. assert (∀ s, inv s → inv (foldl step s l)) as H; [|apply H, empty_inv].
  induction l as [|o l IH]; intros s I; [done|]. by apply IH, step_inv.
Qed.

(** What lasts: an occurrence and a revision stay as they were recorded while their schedule is there. *)
Definition lasts (s s' : t) : Prop :=
  (∀ o, o ∈ _occurrences s → is_Some (_schedules s' !! Occurrence.schedule_id o) → o ∈ _occurrences s') ∧
  (∀ i n r, _revisions s !! (i, n) = Some r → is_Some (_schedules s' !! i) → _revisions s' !! (i, n) = Some r).
Lemma lasts_same s s' : _occurrences s ⊆ _occurrences s' → _revisions s ⊆ _revisions s' → lasts s s'.
Proof. intros Ho Hr. split; [auto|]. intros i n r H _. eapply lookup_weaken; [apply H|done]. Qed.
Lemma step_lasts s o : inv s → lasts s (step s o).
Proof.
  intros I. destruct o as [x r|x y|x y r|o|tenant before limit|r]; cbn [step].
  - unfold create. repeat case_match; cbn [snd]; try by apply lasts_same. apply lasts_same; [done|]. cbn.
    apply insert_subseteq. destruct (_revisions s !! _) eqn:E; [|done]. destruct (inv_owned _ I _ _ (mk_is_Some _ _ E)) as [z Hz].
    match goal with H : bool_decide (is_Some _) = false |- _ => apply bool_decide_eq_false in H; destruct H; by exists z end.
  - destruct (advance_state x y s) as [->|H]; [by apply lasts_same|]. apply advance_Ok in H as (_ & _ & _ & _ & ->).
    by apply lasts_same.
  - unfold replace. repeat case_match; cbn [snd]; try by apply lasts_same. apply lasts_same; [done|]. cbn.
    apply insert_subseteq. rewrite !orb_false_iff, !bool_decide_eq_false in *. destruct_and!. by apply eq_None_not_Some.
  - destruct (insert_cases o s) as [[_ ->]|[-> _]]; [|by apply lasts_same]. apply lasts_same; [|done]. cbn. set_solver.
  - unfold purge_terminal. destruct (_positive_limit limit); [|by apply lasts_same]. cbv zeta.
    case_bool_decide; [by apply lasts_same|]. cbn. split.
    + intros o Ho [x [_ Hx]%map_lookup_filter_Some]. cbn in *. rewrite elem_List_filter, negb_true_iff, bool_decide_eq_false.
      split; [done|]. rewrite elem_of_list_to_set. intros (o' & E & [Ho' Hg]%elem_List_filter)%list_elem_of_fmap.
      rewrite negb_involutive, bool_decide_eq_true in Hg. apply Hx. cbn. by rewrite (inv_same_id s o o').
    + intros i n r Hr [x [_ Hx]%map_lookup_filter_Some]. cbn. by apply map_lookup_filter_Some.
  - unfold create_idempotency. repeat case_match; cbn [snd]; by apply lasts_same.
Qed.
Lemma run_snoc l x : run (l ++ [x]) = step (run l) x.
Proof. unfold run. by rewrite foldl_app. Qed.

(** C24: After any history of the repository's operations, no id, no instant of a schedule's cadence
    and no request key of a schedule names two occurrences; a scheduled occurrence is found
    at its instant; and whatever is done next, an occurrence stays as it was recorded as
    long as its schedule is there. *)
Theorem nothing_recorded_twice l o o' :
  o ∈ _occurrences (run l) → o' ∈ _occurrences (run l) →
  (Occurrence.id o = Occurrence.id o' ∨
   Occurrence.schedule_id o = Occurrence.schedule_id o' ∧
    (Occurrence.trigger o = SCHEDULED ∧ Occurrence.trigger o' = SCHEDULED ∧
       Occurrence.nominal_fire_at o = Occurrence.nominal_fire_at o' ∨
     ∃ k, Occurrence.manual_request_key o = Some k ∧ Occurrence.manual_request_key o' = Some k) → o = o') ∧
  (Occurrence.trigger o = SCHEDULED →
     get_occurrence_by_nominal (Occurrence.schedule_id o) (Occurrence.nominal_fire_at o) (run l) = Ok (Some o)) ∧
  (∀ x, is_Some (_schedules (run (l ++ [x])) !! Occurrence.schedule_id o) → o ∈ _occurrences (run (l ++ [x]))).
Proof.
  intros Ho Ho'. pose proof (run_inv l) as I.
  assert (∀ o, o ∈ _occurrences (run l) → Occurrence.trigger o = SCHEDULED →
    _occurrence_keys (run l) !! (Occurrence.schedule_id o, Occurrence.nominal_fire_at o) = Some (Occurrence.id o)) as Hkey.
  { intros a Ha Ht. apply (inv_keys _ I). by exists a. }
  split_and!.
  - intros [E|[Es [(Ht & Ht' & En)|(k & Hk & Hk')]]]; [by eapply inv_same_id| |by eapply (inv_requests _ I)].
    pose proof (Hkey o Ho Ht) as K. rewrite Es, En, (Hkey o' Ho' Ht') in K. injection K as K. by eapply inv_same_id.
  - intros Ht. unfold get_occurrence_by_nominal. rewrite (Hkey o Ho Ht).
    by rewrite (occurrence_of_mem _ _ o (inv_occurrence_ids _ I)).
  - intros x. rewrite run_snoc. by apply step_lasts.
Qed.
