(* ===== verification/CallPlans.v ===== *)
(** * Call plans ([domain/call_plans.py])

    A plan calls once, again while nobody answers, and once more after an answer; each step
    is decided from the closed results of the calls before it. However the calls end, the
    plan places a bounded number of them, all within its window, and none that it cannot
    account for. *)
From stdpp Require Import pretty.
From S2P Require Import Prelude Calendar Recurrence Schedules.

Definition RESULT_WAIT : timedelta := minutes 20.
Definition CALL_PLAN_STEP_EVENT : string := "schedule.call_plan.step".
Definition CALL_PLAN_SESSION_METADATA_KEY : string := "call_plan_step".
Definition call_plan_step_key (uuid_str : UUID → string) (schedule_id : UUID) (attempt : Z) : string :=
  CALL_PLAN_STEP_EVENT +:+ ":" +:+ uuid_str schedule_id +:+ ":" +:+ pretty attempt.

Inductive CallPlanStepKind := FIRST | RETRY | FOLLOW_UP | REPORT.
#[export] Instance CallPlanStepKind_eq_dec : EqDecision CallPlanStepKind.
Proof. solve_decision. Defined.
Definition CallPlanStepKind_value (k : CallPlanStepKind) : string :=
  match k with FIRST => "first" | RETRY => "retry" | FOLLOW_UP => "follow_up" | REPORT => "report" end.
Inductive CallResult := CALL_PENDING | ANSWERED | NO_ANSWER | BUSY | VOICEMAIL | CALL_FAILED | NO_CALL | CALL_UNKNOWN.
#[export] Instance CallResult_eq_dec : EqDecision CallResult.
Proof. solve_decision. Defined.
Inductive CallPlanReportReason :=
| REPORT_ANSWERED | NOT_REACHED_REPORT | FOLLOW_UP_ANSWERED | FOLLOW_UP_NOT_REACHED | REPORT_NO_CALL | REPORT_UNKNOWN.
#[export] Instance CallPlanReportReason_eq_dec : EqDecision CallPlanReportReason.
Proof. solve_decision. Defined.

Record CallPlanAttempt := {
  at_kind : CallPlanStepKind;
  at_nominal : datetime;
  at_materialized : datetime;
  at_result : CallResult;
  at_ended : option datetime;
}.
Record CallPlanHistoryEntry := { he_nominal : datetime; he_kind : CallPlanStepKind; he_result : CallResult }.
Record CallPlanStep := {
  step_attempt : Z;
  step_kind : CallPlanStepKind;
  step_fire_at : datetime;
  step_reason : option CallPlanReportReason;
  step_history : list CallPlanHistoryEntry;
  step_answered_at : option datetime;
}.

Definition NOT_REACHED : list CallResult := [NO_ANSWER; BUSY; VOICEMAIL; CALL_FAILED].
Definition _CALLS : list CallPlanStepKind := [FIRST; RETRY].
Definition _WORDS (r : CallResult) : string :=
  match r with
  | ANSWERED => "answered" | NO_ANSWER => "no answer" | BUSY => "busy" | VOICEMAIL => "voicemail"
  | CALL_FAILED => "did not connect" | NO_CALL => "no call placed"
  | CALL_UNKNOWN | CALL_PENDING => "outcome unknown"
  end.
Definition _REPORTS (r : CallPlanReportReason) : string :=
  match r with
  | REPORT_ANSWERED => "The call was answered."
  | NOT_REACHED_REPORT => "No call was answered."
  | FOLLOW_UP_ANSWERED => "The call and its follow-up were both answered."
  | FOLLOW_UP_NOT_REACHED => "The call was answered, but the follow-up was not."
  | REPORT_NO_CALL => "A planned call was not placed, so the plan stopped."
  | REPORT_UNKNOWN => "A call's outcome could not be confirmed, so no further call was placed."
  end.

(** ** The next step *)
Definition history_entry (a : CallPlanAttempt) : CallPlanHistoryEntry :=
  {| he_nominal := at_nominal a; he_kind := at_kind a;
     he_result := if bool_decide (at_result a = CALL_PENDING) then CALL_UNKNOWN else at_result a |}.
Definition report (attempts : list CallPlanAttempt) (last : CallPlanAttempt) (now : datetime)
    (reason : CallPlanReportReason) : CallPlanStep :=
  {| step_attempt := Z.of_nat (length attempts) + 1; step_kind := REPORT;
     step_fire_at := Z.max now (at_nominal last + seconds 1); step_reason := Some reason;
     step_history := map history_entry attempts; step_answered_at := None |}.
Definition calls (attempts : list CallPlanAttempt) : Z :=
  Z.of_nat (length (List.filter (λ a, bool_decide (at_kind a ∈ _CALLS)) attempts)).
Definition next_call_plan_step (plan : CallPlan) (first_at : datetime) (attempts : list CallPlanAttempt)
    (now : datetime) : result (option CallPlanStep) :=
  match last attempts with
  | None => Raise IndexError
  | Some last =>
      let step kind fire_at answered_at :=
        {| step_attempt := Z.of_nat (length attempts) + 1; step_kind := kind; step_fire_at := fire_at;
           step_reason := None; step_history := map history_entry attempts; step_answered_at := answered_at |} in
      let report := report attempts last now in
      if bool_decide (at_result last = CALL_PENDING) && (now - at_materialized last <? RESULT_WAIT) then Ok None
      else Ok (Some (
        if bool_decide (at_kind last = FOLLOW_UP) then
          report (if bool_decide (at_result last = ANSWERED) then FOLLOW_UP_ANSWERED else FOLLOW_UP_NOT_REACHED)
        else if bool_decide (at_result last = ANSWERED) then
          match follow_up_after_answer_minutes plan with
          | None => report REPORT_ANSWERED
          | Some m => step FOLLOW_UP (Z.max now (default now (at_ended last) + minutes m)) (Some (at_nominal last))
          end
        else if bool_decide (at_result last = NO_CALL) then report REPORT_NO_CALL
        else if negb (bool_decide (at_result last ∈ NOT_REACHED)) then report REPORT_UNKNOWN
        else match retry_every_minutes plan, retry_until plan with
        | Some every, Some until =>
            let fire_at := Z.max now (at_nominal last + minutes every) in
            if (calls attempts <? max_calls plan first_at) && (fire_at <=? until) then step RETRY fire_at None
            else report NOT_REACHED_REPORT
        | _, _ => report NOT_REACHED_REPORT
        end))
  end.

(** ** The line appended to the instruction *)
Definition calls_tail : string :=
  " Place this one call now. The platform places any retry or follow-up the plan sets and reports the outcome to the owner, so do not schedule or promise another call. Leave no voicemail unless the instruction asks for one.".
Definition history_words (l : list CallPlanHistoryEntry) : string :=
  String.concat "; " (map (λ e, hours_minutes (he_nominal e) +:+ " UTC " +:+ _WORDS (he_result e)) l).
Definition call_plan_note (plan : CallPlan) (first_at : datetime) (step : option CallPlanStep) : result string :=
  let follow_up := match follow_up_after_answer_minutes plan with None => 0 | Some m => if m =? 0 then 0 else 1 end in
  let total := pretty (max_calls plan first_at + follow_up) in
  match step with
  | None => Ok ("Platform note: this is call 1 of up to " +:+ total +:+ " in a call plan." +:+ calls_tail)
  | Some step =>
      match step_kind step with
      | RETRY => Ok ("Platform note: this is call " +:+ pretty (step_attempt step) +:+ " of up to " +:+ total +:+
          " in a call plan. Earlier calls: " +:+ history_words (step_history step) +:+ "." +:+ calls_tail)
      | FOLLOW_UP =>
          let answered := match step_answered_at step with
            | None => "an earlier call"
            | Some t => "the call at " +:+ hours_minutes t +:+ " UTC" end in
          Ok ("Platform note: this is the follow-up call in a call plan; " +:+ answered +:+
          " was answered. Place it now, using the instruction's follow-up brief, and have it open by asking whether they are happy to talk; if the person asks not to be called again, end the call politely. Do not schedule or promise another call. Leave no voicemail unless the instruction asks for one.")
      | _ =>
          match step_reason step with
          | None => Raise (AssertionError "")
          | Some reason => Ok ("Platform note: the call plan has ended and no further call will be placed. Calls: " +:+
              history_words (step_history step) +:+ ". " +:+ _REPORTS reason +:+
              " Do not place any call. Tell the owner the outcome in one or two sentences.")
          end
      end
  end.

(** ** Every execution of a plan

    Each call after the first is the step that was decided from the ones before it, at the
    time decided, whatever its result turns out to be. *)
Section executions.
Context (plan : CallPlan) (first_at : datetime).
Inductive executed : list CallPlanAttempt → Prop :=
| executed_first a : at_kind a = FIRST → executed [a]
| executed_next l now step a :
    executed l → next_call_plan_step plan first_at l now = Ok (Some step) → step_kind step ≠ REPORT →
    at_kind a = step_kind step → at_nominal a = step_fire_at step →
    executed (l ++ [a])%list.

(** What is decided, by cases: only an unanswered call is retried, only an answered one followed up. *)
Lemma next_step_cases l now step : next_call_plan_step plan first_at l now = Ok (Some step) →
  step_kind step = REPORT ∨
  ∃ a, last l = Some a ∧ at_kind a ≠ FOLLOW_UP ∧
    ((step_kind step = FOLLOW_UP ∧ at_result a = ANSWERED ∧ is_Some (follow_up_after_answer_minutes plan)) ∨
     (step_kind step = RETRY ∧ at_result a ∈ NOT_REACHED ∧ calls l < max_calls plan first_at ∧
      ∃ every until, retry_every_minutes plan = Some every ∧ retry_until plan = Some until ∧
        at_nominal a + minutes every <= step_fire_at step ∧ now <= step_fire_at step <= until)).
Proof.
  unfold next_call_plan_step. destruct (last l) as [a|]; [|done]. destruct (_ && _); [done|].
  intros H. injection H as <-. case_bool_decide as Hk; [by left|].
  case_bool_decide as Ha.
  { destruct (follow_up_after_answer_minutes plan) eqn:E; [|by left]. right. exists a. split_and!; [done..|left].
    split_and!; [done..|by eexists]. }
  case_bool_decide as Hn; [by left|]. case_bool_decide as Hr; cbn [negb]; [|by left].
  destruct (retry_every_minutes plan) as [every|] eqn:Ee; [|by left].
  destruct (retry_until plan) as [until|] eqn:Eu; [|by left]. destruct (_ && _) eqn:E; [|by left].
  apply andb_true_iff in E as [Ec%Z.ltb_lt Ef%Z.leb_le]. right. exists a. split_and!; [done..|right].
  split_and!; [done..|]. exists every, until. split_and!; try done; cbn; lia.
Qed.
Lemma calls_app l k : calls (l ++ k)%list = calls l + calls k.
Proof. unfold calls. rewrite List.filter_app, length_app. lia. Qed.
Lemma calls_one a : calls [a] = Z.b2z (bool_decide (at_kind a ∈ _CALLS)).
Proof. unfold calls. cbn. by case_bool_decide. Qed.

(** What holds of the calls placed so far. *)
Record orderly_calls (l : list CallPlanAttempt) : Prop := {
  oc_bounded : calls l <= Z.max 1 (max_calls plan first_at);
  oc_follow_up : ∀ i a, l !! i = Some a → at_kind a = FOLLOW_UP → S i = length l;
  oc_kinds : ∀ a, a ∈ l → at_kind a ≠ REPORT;
  oc_retry : ∀ i a b, l !! i = Some a → l !! S i = Some b → at_kind b = RETRY →
    at_result a ∈ NOT_REACHED ∧ ∃ every until, retry_every_minutes plan = Some every ∧ retry_until plan = Some until ∧
      at_nominal a + minutes every <= at_nominal b <= until;
  oc_answered : ∀ i a b, l !! i = Some a → l !! S i = Some b → at_kind b = FOLLOW_UP → at_result a = ANSWERED;
  oc_unknown : ∀ i a, l !! i = Some a → S i ≠ length l → at_result a ∈ ANSWERED :: NOT_REACHED;
}.
Lemma last_index (l : list CallPlanAttempt) a i b : last l = Some a → l !! i = Some b → S i = length l → b = a.
Proof. rewrite last_lookup. intros H1 H2 H3. rewrite <- H3 in H1. cbn in H1. congruence. Qed.
Lemma executed_orderly l : executed l → orderly_calls l.
Proof.
  induction 1 as [a Ha|l now step a Hl IH Hs Hk Hka Hn].
  - split; try (intros [|i] *; cbn; naive_solver).
    + rewrite calls_one. destruct (bool_decide _); cbn; lia.
    + intros b ->%list_elem_of_singleton. by rewrite Ha.
  - apply next_step_cases in Hs as [?|(p & Hp & Hpk & Hc)]; [done|].
    assert (∀ i x y, (l ++ [a])%list !! i = Some x → (l ++ [a])%list !! S i = Some y →
      (l !! i = Some x ∧ l !! S i = Some y) ∨ (x = p ∧ y = a ∧ S i = length l)) as Hpair.
    { intros i x y Hx Hy. destruct (decide (S i < length l)%nat).
      - rewrite !lookup_app_l in * by lia. by left.
      - right. apply lookup_lt_Some in Hy as Hlt. rewrite length_app in Hlt. cbn in Hlt.
        assert (S i = length l) as E by lia. rewrite lookup_app_l in Hx by lia.
        rewrite E, list_lookup_middle in Hy by done. split_and!; [by eapply last_index|congruence|done]. }
    split.
    + rewrite calls_app, calls_one. pose proof (oc_bounded _ IH). destruct Hc as [(E & _)|(E & _ & Hlt & _)];
        rewrite Hka, E; [change (bool_decide (FOLLOW_UP ∈ _CALLS)) with false|change (bool_decide (RETRY ∈ _CALLS)) with true];
        cbn [Z.b2z]; lia.
    + intros i x Hx Hf. apply lookup_lt_Some in Hx as Hlt. rewrite length_app in *. cbn in *.
      destruct (decide (i < length l)%nat); [|lia]. rewrite lookup_app_l in Hx by done.
      pose proof (oc_follow_up _ IH i x Hx Hf) as E. by rewrite (last_index l p i x Hp Hx E) in Hf.
    + intros x [Hx| ->%list_elem_of_singleton]%elem_of_app; [by apply (oc_kinds _ IH)|by rewrite Hka].
    + intros i x y Hx Hy Hr. destruct (Hpair i x y Hx Hy) as [[Hx' Hy']|(-> & -> & _)]; [by apply (oc_retry _ IH i)|].
      rewrite Hka in Hr. destruct Hc as [(E & _)|(_ & Hnr & _ & every & until & Ee & Eu & Hge & _ & Hle)]; [congruence|].
      split; [done|]. exists every, until. by rewrite Hn.
    + intros i x y Hx Hy Hr. destruct (Hpair i x y Hx Hy) as [[Hx' Hy']|(-> & -> & _)]; [by apply (oc_answered _ IH i x y)|].
      rewrite Hka in Hr. destruct Hc as [(_ & Ea & _)|(E & _)]; [done|congruence].
    + intros i x Hx Hi. rewrite length_app in Hi. cbn in Hi. apply lookup_lt_Some in Hx as Hlt. rewrite length_app in Hlt.
      cbn in Hlt. rewrite lookup_app_l in Hx by lia. destruct (decide (S i = length l)) as [E|]; [|by apply (oc_unknown _ IH i)].
      rewrite (last_index l p i x Hp Hx E). destruct Hc as [(_ & -> & _)|(_ & Hnr & _)]; [by left|by right].
Qed.

Lemma executed_first_only l i a b : executed l → l !! i = Some a → l !! S i = Some b → at_kind b ≠ FIRST.
Proof.
  intros H. revert i a b. induction H as [c Hc|l now step c Hl IH Hs Hk Hka Hn]; intros i a b Ha Hb; [by destruct i|].
  destruct (decide (S i < length l)%nat); [rewrite !lookup_app_l in * by lia; exact (IH i a b Ha Hb)|].
  apply lookup_lt_Some in Hb as Hlt. rewrite length_app in Hlt. cbn [length] in Hlt.
  rewrite lookup_app_r in Hb by lia. replace (S i - length l)%nat with O in Hb by lia. injection Hb as <-.
  rewrite Hka. apply next_step_cases in Hs as [-> |(? & _ & _ & [[-> _]|[-> _]])]; done.
Qed.
Lemma calls_all l : (∀ x, x ∈ l → at_kind x ∈ _CALLS) → calls l = Z.of_nat (length l).
Proof.
  unfold calls. intros H. f_equal. f_equal. induction l as [|x l IH]; [done|]. cbn.
  rewrite bool_decide_true by (apply H; by left). f_equal. apply IH. intros. apply H. by right.
Qed.
(** Every call but the last is a first call or a retry. *)
Lemma calls_follow_up l : executed l → Z.of_nat (length l) <= calls l + 1.
Proof.
  intros H%executed_orderly. destruct l as [|a l _] using rev_ind; [unfold calls; cbn; lia|].
  rewrite calls_app, calls_one, calls_all, length_app; [cbn [length]; destruct (bool_decide _); cbn [Z.b2z]; lia|].
  intros x [i Hi]%list_elem_of_lookup. assert ((l ++ [a])%list !! i = Some x) as Hi' by by apply lookup_app_l_Some.
  pose proof (oc_kinds _ H x (list_elem_of_lookup_2 _ _ _ Hi')). apply lookup_lt_Some in Hi.
  destruct (at_kind x) eqn:E; [by left|right; by left| |done].
  apply (oc_follow_up _ H) in Hi'; [|done]. rewrite length_app in Hi'. cbn in Hi'. lia.
Qed.
End executions.

(** The window of a plan admits at least one call. *)
Lemma max_calls_bounds plan first_at : CallPlan_fields plan = true → validate_for plan first_at = Ok tt →
  1 <= max_calls plan first_at <= MAX_CALL_PLAN_CALLS.
Proof.
  unfold CallPlan_fields, within, validate_for, max_calls, MAX_CALL_PLAN_CALLS, minutes. intros [Hf _]%andb_true_iff H.
  destruct (retry_until plan) as [until|]; [|destruct (retry_every_minutes plan); lia].
  apply raise_if_ok in H as [H1%Z.leb_gt H]. apply raise_if_ok in H as [H2 H]. apply raise_if_ok in H as [H3%Z.ltb_ge _].
  destruct (retry_every_minutes plan) as [every|]; [|lia]. split; [|done].
  assert (0 <= (until - first_at) / (every * 60000000)) by (apply Z.div_pos; lia). lia.
Qed.

(** C15: However its calls end, a call plan that was accepted places at most the calls its
    window has room for, ten of them at most, and one follow-up: it retries only a call that reached nobody, no sooner than its interval and
    within its window; it follows up only an answered call, once and last; and a call whose
    outcome is pending, unknown or that was never placed is the last one. *)
Theorem call_plan_bounded plan first_at l :
  CallPlan_fields plan = true → validate_for plan first_at = Ok tt → executed plan first_at l →
  calls l <= max_calls plan first_at <= MAX_CALL_PLAN_CALLS ∧ Z.of_nat (length l) <= MAX_CALL_PLAN_CALLS + 1 ∧
  (∀ i a b, l !! i = Some a → l !! S i = Some b →
     (at_kind b = RETRY ∧ at_result a ∈ NOT_REACHED ∧ ∃ every until, retry_every_minutes plan = Some every ∧
        retry_until plan = Some until ∧ at_nominal a + minutes every <= at_nominal b <= until) ∨
     (at_kind b = FOLLOW_UP ∧ at_result a = ANSWERED ∧ S (S i) = length l)).
Proof.
  intros Hf Hv Hl. pose proof (executed_orderly _ _ _ Hl) as O. pose proof (max_calls_bounds _ _ Hf Hv) as Hm.
  pose proof (oc_bounded _ _ _ O) as Hb. pose proof (calls_follow_up _ _ _ Hl) as Hlen.
  split_and!; [lia..|]. intros i a b Ha Hbi. destruct (at_kind b) eqn:E.
  - by destruct (executed_first_only plan first_at l i a b Hl Ha Hbi).
  - left. split; [done|]. by apply (oc_retry _ _ _ O i).
  - right. split_and!; [done|by eapply (oc_answered _ _ _ O)|by apply (oc_follow_up _ _ _ O _ b)].
  - by apply list_elem_of_lookup_2, (oc_kinds _ _ _ O) in Hbi.
Qed.

(** Call at three, twice more at ten-minute intervals while nobody answers, then follow up. *)
Definition dentist : CallPlan :=
  {| retry_every_minutes := Some 10; retry_until := Some (minutes 200); follow_up_after_answer_minutes := Some 15 |}.
Definition call (k : CallPlanStepKind) (at_ : datetime) (r : CallResult) : CallPlanAttempt :=
  {| at_kind := k; at_nominal := at_; at_materialized := at_; at_result := r; at_ended := None |}.
Definition dentist_calls : list CallPlanAttempt :=
  [call FIRST (minutes 180) NO_ANSWER; call RETRY (minutes 190) BUSY; call RETRY (minutes 200) ANSWERED;
   call FOLLOW_UP (minutes 217) NO_ANSWER].
Lemma dentist_executed : executed dentist (minutes 180) dentist_calls.
Proof.
  eapply (executed_next _ _ [_; _; _] (minutes 202)); [|by vm_compute|done..].
  eapply (executed_next _ _ [_; _] (minutes 191)); [|by vm_compute|done..].
  eapply (executed_next _ _ [_] (minutes 182)); [|by vm_compute|done..]. by constructor.
Qed.
(** Nothing more is called after that: the owner is told. *)
Lemma dentist_reported : ∃ step, next_call_plan_step dentist (minutes 180) dentist_calls (minutes 230) = Ok (Some step) ∧
  step_kind step = REPORT ∧ step_reason step = Some FOLLOW_UP_NOT_REACHED.
Proof. eexists. split; [by vm_compute|done]. Qed.
Lemma call_plan_bounded_witness :
  calls dentist_calls <= MAX_CALL_PLAN_CALLS ∧ Z.of_nat (length dentist_calls) <= MAX_CALL_PLAN_CALLS + 1 ∧
  ∃ a b, dentist_calls !! 2%nat = Some a ∧ dentist_calls !! 3%nat = Some b ∧ at_kind b = FOLLOW_UP ∧ at_result a = ANSWERED.
Proof.
  destruct (call_plan_bounded dentist (minutes 180) dentist_calls ltac:(by vm_compute) ltac:(by vm_compute) dentist_executed)
    as (H1 & H2 & H3).
  split_and!; [lia|done|]. exists (call RETRY (minutes 200) ANSWERED), (call FOLLOW_UP (minutes 217) NO_ANSWER).
  destruct (H3 2%nat _ _ eq_refl eq_refl) as [[? _]|(? & ? & _)]; done.
Defined.
