(* ===== verification/Materializer.v ===== *)
(** * The schedule materializer ([scheduling/materializer.py])

    One transaction turns a due schedule into an occurrence: a run that starts, or the
    recorded reason why none does; and the schedule moves on. An owner can also start a run
    now. [Uow] is [ScheduleUnitOfWork]: the schedule repository and the process events as
    they are, and a world for the other stores, the clock and the ids. *)
From S2P Require Import Prelude PyDecimal EventModel RunModel Sessions Messages StateLogic Calendar Recurrence.
From S2P Require Import Schedules ScheduleStore ProcessEvents CallPlans.

(** The part of [AgentSpec] a firing reads. *)
Record AgentPin := { pinned_agent_id : UUID; pinned_agent_version : string; pinned_policy_profile : string }.

(** What the materializer and the accountant call. *)
Class SchedulePorts (W : Type) := {
  clock_now : W → datetime * W;
  new_id : W → UUID * W;
  runs_get : UUID → Principal → W → result Run * W;
  sessions_get : UUID → Principal → W → result Session.t * W;
  principals_current : string → string → W → result (option AuthoritySnapshot) * W;
  agents_get_version : UUID → string → W → result AgentPin * W;
  admission_check : string → Revision.t → datetime → W → result ScheduleAdmissionDecision * W;
  sessions_create : Session.t → W → result unit * W;
  (** The sequence of the event. *)
  events_append : NewEvent → W → result Z * W;
  runs_create : Run → W → result unit * W;
  (** [None] is a unit of work without a queue. *)
  queue_enqueue : option (Run → Z → datetime → W → result unit * W);
  set_seed_event_sequence : UUID → Z → W → result unit * W;
  seed_checkpoint : Run → Z → Principal → W → result unit * W;
  (** [NotificationProducer]: whether a notification was stored, and the process event it
      leaves when its outbox refused one. *)
  notify_occurrence : option (Schedule.t → Occurrence.t → Revision.t → W → result (bool * option ProcessEvent) * W);
  notify_accounted : option (Schedule.t → Occurrence.t → Revision.t → Run → W → result (bool * option ProcessEvent) * W);
  write_probe : string → W → result unit * W;
  (** The world after a rollback, of the one the transaction began in and the one it left. *)
  rolled_back : W → W → W;
}.

Record Uow (W : Type) := { schedules : ScheduleRepo.t; process_events : ProcessEventRepo.t; world : W }.
Arguments schedules {W}. Arguments process_events {W}. Arguments world {W}.
#[export] Instance Uow_eta W : Eta (Uow W) := λ u,
  {| schedules := schedules u; process_events := process_events u; world := world u |}.

Section uow.
Context {W : Type} `{SchedulePorts W}.
Abbreviation M := (stateM (Uow W)).
Definition on_world {A} (f : W → result A * W) : M A := λ u,
  let '(r, w) := f (world u) in (r, u <| world := w |>).
Definition total {A} (f : W → A * W) : W → result A * W := λ w, let '(a, w) := f w in (Ok a, w).
Definition on_schedules {A} (f : ScheduleRepo.t → result A * ScheduleRepo.t) : M A := λ u,
  let '(r, s) := f (schedules u) in (r, u <| schedules := s |>).
Definition read_schedules {A} (f : ScheduleRepo.t → result A) : M A := λ u, (f (schedules u), u).
Definition append_event (e : ProcessEvent) : M ProcessEvent := λ u,
  let '(r, p) := ProcessEventRepo.append e (process_events u) in (r, u <| process_events := p |>).
Definition now_ : M datetime := on_world (total clock_now).
Definition fresh : M UUID := on_world (total new_id).
Definition probe (boundary : string) : M unit := on_world (write_probe boundary).
(** [async with uow_factory() as uow]: an exception leaves the stores as they were. *)
Definition transaction {A} (m : M A) : M A := λ u,
  match m u with
  | (Ok a, u') => (Ok a, u')
  | (Raise e, u') => (Raise e, u <| world := rolled_back (world u) (world u') |>)
  end.
(** The audit event of a producer whose outbox refused the notification. *)
Definition producer (m : M (bool * option ProcessEvent)) : M bool :=
  r ← m;
  match r.2 with None => mret r.1 | Some e => _ ← append_event e; mret r.1 end.
End uow.

Definition MANUAL_RUNS_PER_DAY : Z := 5.
Definition REFRESH_PAGE_SIZE : nat := 50.
Definition SESSION_SCHEDULE_ID_METADATA_KEY : string := "schedule_id".
Definition SESSION_SCHEDULE_MCP_SERVERS_METADATA_KEY : string := "schedule_mcp_servers".

Definition owner_of (s : Schedule.t) : Principal :=
  {| Principal.tenant_id := Schedule.tenant_id s; Principal.principal_id := Schedule.principal_id s;
     Principal.roles := ∅; Principal.scopes := ∅ |}.
Definition opt_str (v : option string) : json := match v with None => JNull | Some s => JStr s end.
Definition _keeps_a_feed (r : Revision.t) : bool :=
  negb (is_once (Revision.cadence r)) && bool_decide (FEED_KEEPING_SCOPE ∈ Revision.requested_scopes r).

(** ** The schedule after a firing *)
Definition moved (schedule : Schedule.t) (state : ScheduleState) (reason : option SchedulePauseReason)
    (next : option datetime) (failures : Z) (now : datetime) : Schedule.t :=
  schedule <| Schedule.state := state |> <| Schedule.pause_reason := reason |> <| Schedule.next_fire_at := next |>
           <| Schedule.consecutive_failures := failures |> <| Schedule.updated_at := now |>.
Definition _advanced_schedule (schedule : Schedule.t) (revision : Revision.t) (next_fire_at : option datetime)
    (now : datetime) (failed awaiting_call_result : bool) : Schedule.t :=
  let failures := Schedule.consecutive_failures schedule + (if failed then 1 else 0) in
  if awaiting_call_result then moved schedule SCHEDULE_ACTIVE None None failures now
  else if is_once (Revision.cadence revision) || bool_decide (next_fire_at = None) then
    moved schedule SCHEDULE_COMPLETED None None failures now
  else if failed && (Revision.max_consecutive_failures revision <=? failures) then
    moved schedule PAUSED (Some FAILURE_LIMIT) None failures now
  else moved schedule SCHEDULE_ACTIVE None next_fire_at failures now.

(** Why no run starts, and how that is recorded. *)
Record Refusal := {
  refused_disposition : OccurrenceDisposition;
  refused_reason : string;
  refused_authority : option string;
  counts_as_failure : bool;
  tells_owner : bool;
}.
Definition refusal (d : OccurrenceDisposition) (reason : string) (authority : option string) : Refusal :=
  {| refused_disposition := d; refused_reason := reason; refused_authority := authority;
     counts_as_failure := true; tells_owner := true |}.

Section materializer.
Context {W : Type} `{SchedulePorts W} (ZoneInfo : string → Zone) (uuid_str : UUID → string).
(** [CallPlanStep.model_validate] of a recorded step. *)
Context (read_step : json → result CallPlanStep).
Abbreviation M := (stateM (Uow W)).
Definition opt_uuid (v : option UUID) : json := match v with None => JNull | Some i => JStr (uuid_str i) end.

(** ** Process events *)
Definition scheduler_event (id : UUID) (event_type : string) (schedule : Schedule.t) (payload : dict) (key : string)
    (now : datetime) : ProcessEvent :=
  {| pe_id := id; pe_event_type := event_type; pe_payload_schema_version := 1; pe_actor_type := "scheduler";
     pe_actor_id := Some (Schedule.principal_id schedule); pe_payload := payload; pe_derivation_key := key;
     pe_created_at := now |}.
Definition disposition_suffix (d : OccurrenceDisposition) : string :=
  match d with
  | MATERIALIZED => "materialized" | MISSED => "missed" | SKIPPED_OVERLAP => "skipped_overlap"
  | AUTHORIZATION_FAILED => "authorization_failed" | CONFIGURATION_FAILED => "configuration_failed"
  end.
Definition _append_occurrence_event (occurrence : Occurrence.t) (schedule : Schedule.t) (next_state : ScheduleState)
    (now : datetime) : M unit :=
  id ← fresh;
  _ ← append_event (scheduler_event id
    ("schedule.occurrence." +:+ disposition_suffix (Occurrence.disposition occurrence)) schedule
    [("schedule_id", JStr (uuid_str (Schedule.id schedule)));
     ("schedule_revision", JInt (Occurrence.schedule_revision occurrence));
     ("tenant_id", JStr (Schedule.tenant_id schedule)); ("principal_id", JStr (Schedule.principal_id schedule));
     ("actor", JStr "scheduler"); ("event_time", JStr (isoformat now));
     ("previous_state", JStr (ScheduleState_value (Schedule.state schedule)));
     ("next_state", JStr (ScheduleState_value next_state));
     ("occurrence_id", JStr (uuid_str (Occurrence.id occurrence)));
     ("nominal_fire_at", JStr (isoformat (Occurrence.nominal_fire_at occurrence)));
     ("disposition", JStr (OccurrenceDisposition_value (Occurrence.disposition occurrence)));
     ("trigger", JStr (OccurrenceTrigger_value (Occurrence.trigger occurrence)));
     ("reason_code", opt_str (Occurrence.reason_code occurrence));
     ("session_id", opt_uuid (Occurrence.session_id occurrence)); ("run_id", opt_uuid (Occurrence.run_id occurrence))]
    ("schedule.occurrence:" +:+ uuid_str (Occurrence.id occurrence)) now);
  mret tt.
Definition coalesced_key (schedule : Schedule.t) (revision : Revision.t) (last_nominal_at : datetime) : string :=
  "schedule.misfires_coalesced:" +:+ uuid_str (Schedule.id schedule) +:+ ":" +:+
  pretty.pretty (Revision.revision revision) +:+ ":" +:+ isoformat last_nominal_at.
Definition coalesced_event (id : UUID) (schedule : Schedule.t) (revision : Revision.t)
    (first_nominal_at last_nominal_at now : datetime) (count : Z) : ProcessEvent :=
  scheduler_event id "schedule.misfires_coalesced" schedule
    [("schedule_id", JStr (uuid_str (Schedule.id schedule))); ("schedule_revision", JInt (Revision.revision revision));
     ("tenant_id", JStr (Schedule.tenant_id schedule)); ("principal_id", JStr (Schedule.principal_id schedule));
     ("actor", JStr "scheduler"); ("event_time", JStr (isoformat now));
     ("first_nominal_at", JStr (isoformat first_nominal_at)); ("last_nominal_at", JStr (isoformat last_nominal_at));
     ("count", JInt count)]
    (coalesced_key schedule revision last_nominal_at) now.
Definition _append_coalesced_misfires (schedule : Schedule.t) (revision : Revision.t)
    (first_nominal_at last_nominal_at now : datetime) : M unit :=
  count ← lift (count_between ZoneInfo (Revision.cadence revision) first_nominal_at last_nominal_at);
  if count <=? 1 then mret tt
  else
    id ← fresh;
    _ ← append_event (coalesced_event id schedule revision first_nominal_at last_nominal_at now count);
    mret tt.

(** ** A firing that starts no run *)
Definition auto_pauses (schedule advanced : Schedule.t) : bool :=
  bool_decide (Schedule.state schedule = SCHEDULE_ACTIVE) && bool_decide (Schedule.state advanced = PAUSED) &&
  bool_decide (Schedule.pause_reason advanced = Some FAILURE_LIMIT).
Definition auto_paused_event (id : UUID) (schedule : Schedule.t) (next_state : ScheduleState) (occurrence run : json)
    (occurrence_id : UUID) (event_time now : datetime) : ProcessEvent :=
  scheduler_event id "schedule.auto_paused" schedule
    [("schedule_id", JStr (uuid_str (Schedule.id schedule))); ("revision", JInt (Schedule.current_revision schedule));
     ("tenant_id", JStr (Schedule.tenant_id schedule)); ("principal_id", JStr (Schedule.principal_id schedule));
     ("previous_state", JStr (ScheduleState_value (Schedule.state schedule)));
     ("next_state", JStr (ScheduleState_value next_state)); ("occurrence_id", occurrence); ("run_id", run);
     ("event_time", JStr (isoformat event_time))]
    ("schedule.auto_paused:" +:+ uuid_str occurrence_id) now.
Definition _record_failure (schedule : Schedule.t) (revision : Revision.t) (nominal : datetime)
    (next_fire_at : option datetime) (now : datetime) (why : Refusal) : M Occurrence.t :=
  id ← fresh;
  occurrence ← lift (Occurrence.make
    {| Occurrence.id := id; Occurrence.schedule_id := Schedule.id schedule;
       Occurrence.schedule_revision := Revision.revision revision; Occurrence.nominal_fire_at := nominal;
       Occurrence.disposition := refused_disposition why; Occurrence.session_id := None; Occurrence.run_id := None;
       Occurrence.reason_code := Some (refused_reason why); Occurrence.authority_version := refused_authority why;
       Occurrence.materialized_at := None; Occurrence.links_erased_at := None; Occurrence.created_at := now;
       Occurrence.trigger := SCHEDULED; Occurrence.manual_request_key := None |});
  _ ← on_schedules (ScheduleRepo.insert occurrence);
  _ ← probe "occurrence";
  let advanced := _advanced_schedule schedule revision next_fire_at now (counts_as_failure why) false in
  _ ← _append_occurrence_event occurrence schedule (Schedule.state advanced) now;
  _ ← probe "process_event";
  _ ← match notify_occurrence with
      | Some notify =>
          if tells_owner why then
            produced ← producer (on_world (notify schedule occurrence revision));
            if (produced : bool) then probe "notification" else mret tt
          else mret tt
      | None => mret tt
      end;
  _ ← (if auto_pauses schedule advanced then
         event_id ← fresh;
         _ ← append_event (auto_paused_event event_id schedule (Schedule.state advanced) (JStr (uuid_str id)) JNull
                             id now now);
         mret tt
       else mret tt);
  _ ← on_schedules (ScheduleRepo.advance schedule advanced);
  _ ← probe "schedule";
  mret occurrence.

(** ** A firing that starts a run *)
Definition scheduler_message (session : UUID) (run : option UUID) (event_type : string) (version : Z)
    (schedule : Schedule.t) (payload : dict) : NewEvent :=
  {| ev_session_id := session; ev_run_id := run; ev_event_type := event_type; ev_payload_schema_version := version;
     ev_actor_type := "scheduler"; ev_actor_id := Some (Schedule.principal_id schedule); ev_payload := payload;
     ev_trace_id := None; ev_derivation_key := None |}.
Definition task_json (t : ScheduleTask) : json :=
  match t with
  | AgentRunTask => JObj [("kind", JStr "agent_run")]
  | JobTask slug revision_id grant_id => JObj [("kind", JStr "job"); ("slug", JStr slug);
      ("revision_id", JStr (uuid_str revision_id)); ("grant_id", JStr (uuid_str grant_id))]
  end.
(** [sorted] of a set of strings. *)
Definition text_le (a b : string) : Prop := String.leb a b = true.
#[local] Instance text_le_dec a b : Decision (text_le a b) := decide (_ = _).
Definition sorted_strings (s : gset string) : list string := merge_sort text_le (elements s).
(** What differs between a cadence's run, a plan's call and a run on request. *)
Record Start := {
  st_trigger : OccurrenceTrigger;
  st_request_key : option string;
  st_instruction : string;
  st_scopes : gset string;
  st_metadata : dict;
  st_reporting : bool;
}.
Definition session_metadata (schedule : Schedule.t) (revision : Revision.t) (occurrence nominal : json) (start : Start)
    : dict :=
  let when (b : bool) k v : dict := if b then [(k, v)] else [] in
  dict_update
   (match Revision.browser_profile_id revision with
    | Some b => [(SESSION_BROWSER_PROFILE_METADATA_KEY, JStr (uuid_str b))] | None => [] end ++
    when (is_job (Revision.task revision)) "job_task" (task_json (Revision.task revision)) ++
    when (negb (bool_decide (Revision.mcp_servers revision = ∅)) && negb (st_reporting start))
      SESSION_SCHEDULE_MCP_SERVERS_METADATA_KEY (JArr (map JStr (sorted_strings (Revision.mcp_servers revision)))) ++
    [(SESSION_SCHEDULE_ID_METADATA_KEY, JStr (uuid_str (Schedule.id schedule)));
     ("schedule_revision", JInt (Revision.revision revision)); ("schedule_occurrence_id", occurrence);
     ("nominal_fire_at", nominal)] ++
    st_metadata start ++
    when (bool_decide (FEED_KEEPING_SCOPE ∈ Revision.requested_scopes revision))
      SESSION_COCKPIT_REFRESH_METADATA_KEY (JBool true))%list [].
Definition scheduled_run (id session : UUID) (schedule : Schedule.t) (revision : Revision.t) (agent : AgentPin)
    (start : Start) (deadline now : datetime) : Run :=
  {| RunModel.id := id; RunModel.session_id := session; parent_run_id := None;
     RunModel.kind := if is_job (Revision.task revision) then JOB else INTERACTIVE;
     RunModel.tenant_id := Schedule.tenant_id schedule; principal_scopes := st_scopes start;
     RunModel.agent_id := pinned_agent_id agent; RunModel.agent_version := pinned_agent_version agent;
     RunModel.status := QUEUED; step_count := 0; model_call_count := 0; tool_call_count := 0;
     RunModel.limits := (Revision.limits revision) <| deadline_at := Some deadline |>; usage := RunUsage_default;
     lease_owner := None; lease_expires_at := None; lease_epoch := 0; attempts := 0; lease_expirations := 0;
     priority := 10; scheduled_for := Some now; run_deadline_at := Some deadline; cancel_requested_at := None;
     failure := None; final_message := None; export_consent := false; provider_pin := None;
     seed_event_sequence := 0; RunModel.created_at := now; RunModel.updated_at := now |}.
Definition _start_run (schedule : Schedule.t) (revision : Revision.t) (agent : AgentPin) (authority : AuthoritySnapshot)
    (nominal now : datetime) (start : Start) : M Occurrence.t :=
  session_id ← fresh; run_id ← fresh; id ← fresh;
  occurrence ← lift (Occurrence.make
    {| Occurrence.id := id; Occurrence.schedule_id := Schedule.id schedule;
       Occurrence.schedule_revision := Revision.revision revision; Occurrence.nominal_fire_at := nominal;
       Occurrence.disposition := MATERIALIZED; Occurrence.session_id := Some session_id;
       Occurrence.run_id := Some run_id; Occurrence.reason_code := None;
       Occurrence.authority_version := Some (authority_version authority); Occurrence.materialized_at := Some now;
       Occurrence.links_erased_at := None; Occurrence.created_at := now; Occurrence.trigger := st_trigger start;
       Occurrence.manual_request_key := st_request_key start |});
  _ ← on_schedules (ScheduleRepo.insert occurrence);
  _ ← probe "occurrence";
  _ ← on_world (sessions_create
    {| Session.id := session_id; Session.tenant_id := Schedule.tenant_id schedule;
       Session.principal_id := Schedule.principal_id schedule; Session.agent_id := pinned_agent_id agent;
       Session.agent_version := pinned_agent_version agent; Session.status := ACTIVE;
       Session.title := Some (Revision.title revision);
       Session.metadata := list_to_map
         (session_metadata schedule revision (JStr (uuid_str id)) (JStr (isoformat nominal)) start);
       Session.created_at := now; Session.updated_at := now |});
  _ ← probe "session";
  _ ← on_world (events_append (scheduler_message session_id None "session.created" 2 schedule
    [("agent_id", JStr (uuid_str (pinned_agent_id agent))); ("title", JStr (Revision.title revision))]));
  _ ← probe "session_event";
  deadline ← lift (checked_datetime (now + seconds (Revision.run_timeout_seconds revision)));
  run ← lift (deadline_matches_limits (scheduled_run run_id session_id schedule revision agent start deadline now));
  _ ← match queue_enqueue with
      | None => on_world (runs_create run)
      | Some enqueue => on_world (enqueue run (priority run) now)
      end;
  _ ← probe "run";
  sequence ← on_world (events_append (scheduler_message session_id (Some run_id) "user.message.created" 1 schedule
    [("content", JStr (st_instruction start))]));
  _ ← on_world (set_seed_event_sequence run_id sequence);
  _ ← probe "instruction";
  _ ← on_world (events_append (scheduler_message session_id (Some run_id) "run.queued" 1 schedule
    [("run_id", JStr (uuid_str run_id)); ("priority", JInt (priority run));
     ("schedule_id", JStr (uuid_str (Schedule.id schedule))); ("schedule_revision", JInt (Revision.revision revision));
     ("schedule_occurrence_id", JStr (uuid_str id)); ("authority_version", JStr (authority_version authority))]));
  _ ← probe "queued_event";
  let who := authority_principal authority in
  _ ← on_world (seed_checkpoint run sequence
    {| Principal.tenant_id := Principal.tenant_id who; Principal.principal_id := Principal.principal_id who;
       Principal.roles := Principal.roles who; Principal.scopes := st_scopes start |});
  _ ← probe "checkpoint";
  mret occurrence.
Definition of_cadence (revision : Revision.t) : Start :=
  {| st_trigger := SCHEDULED; st_request_key := None; st_instruction := Revision.instruction revision;
     st_scopes := Revision.requested_scopes revision; st_metadata := []; st_reporting := false |}.
Definition on_request (revision : Revision.t) (key : string) : Start :=
  {| st_trigger := MANUAL; st_request_key := Some key; st_instruction := Revision.instruction revision;
     st_scopes := Revision.requested_scopes revision; st_metadata := []; st_reporting := false |}.

(** ** The decision: the checks of a firing, in their order *)
Inductive Verdict :=
| Refused (why : Refusal)
| RetryLater
| Allowed (authority : AuthoritySnapshot) (agent : AgentPin).
(** Whether the run of the latest occurrence is still going. *)
Definition in_flight (schedule : Schedule.t) : M bool :=
  latest ← read_schedules (λ s, Ok (ScheduleRepo.latest_materialized_occurrence (Schedule.id schedule) s));
  match latest ≫= Occurrence.run_id with
  | Some run_id =>
      linked ← on_world (runs_get run_id (owner_of schedule)); mret (negb (is_terminal (RunModel.status linked)))
  | None => mret false
  end.
(** [try: await agents.get_version(...) except NotFoundError] *)
Definition find_agent (revision : Revision.t) : M (option AgentPin) := λ u,
  match on_world (agents_get_version (Revision.agent_id revision) (Revision.agent_version revision)) u with
  | (Ok agent, u') => (Ok (Some agent), u')
  | (Raise (NotFoundError _), u') => (Ok None, u')
  | (Raise e, u') => (Raise e, u')
  end.
Definition is_interval (c : Cadence) : bool := match c with IntervalCadence _ _ => true | _ => false end.
Definition in_flight_refusal (revision : Revision.t) : Refusal :=
  {| refused_disposition := SKIPPED_OVERLAP; refused_reason := "schedule.in_flight"; refused_authority := None;
     counts_as_failure := false; tells_owner := negb (is_interval (Revision.cadence revision)) |}.
Definition judge (schedule : Schedule.t) (revision : Revision.t) (nominal now : datetime) : M Verdict :=
  busy ← in_flight schedule;
  if (busy : bool) then mret (Refused (in_flight_refusal revision))
  else
  latest_start ← lift (checked_datetime (nominal + seconds (Revision.misfire_grace_seconds revision)));
  if latest_start <? now then mret (Refused (refusal MISSED "schedule.misfire_grace_expired" None))
  else
  current ← on_world (principals_current (Schedule.tenant_id schedule) (Schedule.principal_id schedule));
  match current with
  | None => mret (Refused (refusal AUTHORIZATION_FAILED "schedule.principal_missing" None))
  | Some authority =>
      let refuse d reason := mret (Refused (refusal d reason (Some (authority_version authority)))) in
      if negb (authority_enabled authority) then refuse AUTHORIZATION_FAILED "schedule.principal_disabled"
      else if negb (bool_decide (Revision.requested_scopes revision ⊆ Principal.scopes (authority_principal authority)))
      then refuse AUTHORIZATION_FAILED "schedule.scope_revoked"
      else
      found ← find_agent revision;
      match found with
      | None => refuse CONFIGURATION_FAILED "schedule.agent_version_missing"
      | Some agent =>
          if negb (String.eqb (pinned_policy_profile agent) (Revision.policy_profile revision))
          then refuse CONFIGURATION_FAILED "schedule.policy_profile_mismatch"
          else
          admission ← on_world (admission_check (Schedule.tenant_id schedule) revision now);
          match admission_outcome admission with
          | ADMISSION_RETRY => mret RetryLater
          | ADMISSION_REJECT =>
              match admission_reason admission with
              | None => raise (AssertionError "")
              | Some reason => refuse MISSED reason
              end
          | ADMISSION_ALLOW => mret (Allowed authority agent)
          end
      end
  end.

(** ** The step of a call plan that a firing places *)
Definition _materialized_count (schedule : Schedule.t) : M Z :=
  occurrences ← read_schedules
    (ScheduleRepo.list_occurrences (Schedule.id schedule) (owner_of schedule) 100 None);
  mret (Z.of_nat (length (List.filter (λ o, bool_decide (Occurrence.disposition o = MATERIALIZED)) occurrences))).
(** [None] is a step that was never decided. *)
Definition plan_start (schedule : Schedule.t) (revision : Revision.t) : M (option Start) :=
  match Revision.call_plan revision with
  | None => mret (Some (of_cadence revision))
  | Some plan =>
      count ← _materialized_count schedule;
      let attempt := 1 + count in
      step ← (if attempt <=? 1 then mret (Some None) else
        decided ← gets (λ u, ProcessEventRepo.get_by_derivation
          (call_plan_step_key uuid_str (Schedule.id schedule) attempt) (process_events u));
        match decided with
        | None => mret None
        | Some e =>
            match dict_get "step" (pe_payload e) with
            | None => raise (KeyError "step")
            | Some v => step ← lift (read_step v); mret (Some (Some step))
            end
        end);
      match step with
      | None => mret None
      | Some step =>
          let kind := match step with None => FIRST | Some st => step_kind st end in
          let reporting := bool_decide (kind = REPORT) in
          match Revision.cadence revision with
          | OnceCadence first_at =>
              note ← lift (call_plan_note plan first_at step);
              mret (Some {| st_trigger := SCHEDULED; st_request_key := None;
                st_instruction := Revision.instruction revision +:+ String "010"%char (String "010"%char note);
                st_scopes := if reporting then ∅ else Revision.requested_scopes revision;
                st_metadata := [(CALL_PLAN_SESSION_METADATA_KEY,
                  JObj [("kind", JStr (CallPlanStepKind_value kind)); ("attempt", JInt attempt)])];
                st_reporting := reporting |})
          | _ => raise (AssertionError "")
          end
      end
  end.

(** ** A due schedule *)
Definition fire (schedule : Schedule.t) (revision : Revision.t) (first nominal now : datetime) : M (option Occurrence.t) :=
  next_fire_at ← lift (next_after ZoneInfo (Revision.cadence revision) now);
  _ ← _append_coalesced_misfires schedule revision first nominal now;
  verdict ← judge schedule revision nominal now;
  match verdict with
  | Refused why => o ← _record_failure schedule revision nominal next_fire_at now why; mret (Some o)
  | RetryLater => mret None
  | Allowed authority agent =>
      start ← plan_start schedule revision;
      match start with
      | None =>
          o ← _record_failure schedule revision nominal next_fire_at now
            (refusal CONFIGURATION_FAILED "schedule.call_plan_step_missing" (Some (authority_version authority)));
          mret (Some o)
      | Some start =>
          occurrence ← _start_run schedule revision agent authority nominal now start;
          let awaiting := negb (bool_decide (Revision.call_plan revision = None)) && negb (st_reporting start) in
          let advanced := _advanced_schedule schedule revision next_fire_at now false awaiting in
          _ ← _append_occurrence_event occurrence schedule (Schedule.state advanced) now;
          _ ← probe "process_event";
          _ ← on_schedules (ScheduleRepo.advance schedule advanced);
          _ ← probe "schedule";
          mret (Some occurrence)
      end
  end.
Definition materialize_at (schedule_id : UUID) (now : datetime) : M (option Occurrence.t) :=
  locked ← read_schedules (λ s, Ok (ScheduleRepo.lock_due schedule_id now s));
  match locked with
  | None => read_schedules (λ s, Ok (ScheduleRepo.latest_occurrence_at_or_before schedule_id now s))
  | Some schedule =>
      revision ← read_schedules
        (ScheduleRepo.get_revision (Schedule.id schedule) (Schedule.current_revision schedule) (owner_of schedule));
      nominal ← lift (if bool_decide (Revision.call_plan revision = None)
                      then latest_at_or_before ZoneInfo (Revision.cadence revision) now
                      else Ok (Schedule.next_fire_at schedule));
      match nominal, Schedule.next_fire_at schedule with
      | Some nominal, Some first =>
          if nominal <? first then mret None
          else
            existing ← read_schedules (ScheduleRepo.get_occurrence_by_nominal (Schedule.id schedule) nominal);
            match existing with
            | Some o => mret (Some o)
            | None => fire schedule revision first nominal now
            end
      | _, _ => mret None
      end
  end.
Definition materialize (schedule_id : UUID) : M (option Occurrence.t) :=
  now ← now_; transaction (materialize_at schedule_id now).

(** ** Runs on request *)
Definition _manual_start_checks (schedule : Schedule.t) (revision : Revision.t) (now : datetime)
    : M (AuthoritySnapshot * AgentPin) :=
  let disabled := raise (ConflictFor "schedule.principal_disabled" "the schedule's owner cannot run it") in
  current ← on_world (principals_current (Schedule.tenant_id schedule) (Schedule.principal_id schedule));
  match current with
  | None => disabled
  | Some authority =>
      if negb (authority_enabled authority) then disabled
      else if negb (bool_decide (Revision.requested_scopes revision ⊆ Principal.scopes (authority_principal authority)))
      then raise (ConflictFor "schedule.scope_revoked" "the schedule asks for access it no longer has")
      else
      found ← find_agent revision;
      match found with
      | None => raise (ConflictFor "schedule.agent_version_missing" "the schedule's agent is gone")
      | Some agent =>
          if negb (String.eqb (pinned_policy_profile agent) (Revision.policy_profile revision))
          then raise (ConflictFor "schedule.policy_profile_mismatch" "the schedule's policy changed")
          else
          admission ← on_world (admission_check (Schedule.tenant_id schedule) revision now);
          match admission_outcome admission with
          | ADMISSION_RETRY =>
              raise (RateLimitedError (match admission_reason admission with
                | Some r => if String.eqb r "" then "schedule.admission_busy" else r
                | None => "schedule.admission_busy" end) "scheduled work is busy; try again in a minute")
          | ADMISSION_REJECT =>
              let msg := "the spending ceiling for scheduled work is reached" in
              raise (match admission_reason admission with Some r => ConflictFor r msg | None => ConflictError msg end)
          | ADMISSION_ALLOW => mret (authority, agent)
          end
      end
  end.
Definition start_on_request (schedule : Schedule.t) (revision : Revision.t) (key : string) (now : datetime)
    (checks : AuthoritySnapshot * AgentPin) : M Occurrence.t :=
  occurrence ← _start_run schedule revision checks.2 checks.1 now now (on_request revision key);
  _ ← _append_occurrence_event occurrence schedule (Schedule.state schedule) now;
  _ ← probe "process_event";
  mret occurrence.
Definition materialize_manual_at (principal : Principal) (schedule_id : UUID) (expected_revision : Z)
    (request_key : string) (now : datetime) : M (Occurrence.t * bool) :=
  schedule ← read_schedules (ScheduleRepo.lock schedule_id principal);
  existing ← read_schedules (λ s, Ok (ScheduleRepo.manual_occurrence (Schedule.id schedule) request_key s));
  match existing with
  | Some o => mret (o, true)
  | None =>
  if negb (bool_decide (Schedule.state schedule ∈ [SCHEDULE_ACTIVE; PAUSED]))
  then raise (ConflictFor "schedule.terminal" "the schedule has ended")
  else if negb (Schedule.current_revision schedule =? expected_revision)
  then raise (ConflictFor "schedule.revision_conflict" "the schedule changed; read it again")
  else
  revision ← read_schedules
    (ScheduleRepo.get_revision (Schedule.id schedule) (Schedule.current_revision schedule) (owner_of schedule));
  if is_once (Revision.cadence revision)
  then raise (ConflictFor "schedule.run_now_one_time" "a one-time schedule runs only at its time")
  else
  busy ← in_flight schedule;
  if (busy : bool) then raise (ConflictFor "schedule.run_active" "a run of this schedule is still going")
  else
  since ← lift (checked_datetime (now - DAY));
  taken ← read_schedules (λ s, Ok (ScheduleRepo.count_manual_since (Schedule.id schedule) since s));
  if MANUAL_RUNS_PER_DAY <=? taken
  then raise (RateLimitedError "schedule.run_now_daily_limit" "this schedule already ran on request five times today")
  else
  checks ← _manual_start_checks schedule revision now;
  occurrence ← start_on_request schedule revision request_key now checks;
  mret (occurrence, false)
  end.
Definition materialize_manual (principal : Principal) (schedule_id : UUID) (expected_revision : Z) (request_key : string)
    : M (Occurrence.t * bool) :=
  if is_cockpit_refresh (Some request_key)
  then raise (ConflictFor "schedule.run_key_reserved" "this request key is reserved for Cockpit refreshes")
  else now ← now_; transaction (materialize_manual_at principal schedule_id expected_revision request_key now).

(** ** Refreshing the feeds of a Cockpit *)
(** The pages of the active schedules, from a cursor on. *)
Fixpoint feed_pages (pages : nat) (principal : Principal) (cursor : option ScheduleCursor) (found : list UUID)
    : M (option (list UUID)) :=
  match pages with
  | O => mret None
  | S pages =>
      page ← read_schedules (ScheduleRepo.list_schedules principal (Z.of_nat REFRESH_PAGE_SIZE + 1) cursor
        (Some [SCHEDULE_ACTIVE]));
      let visible := take REFRESH_PAGE_SIZE page in
      let identity x := (Schedule.id x, Schedule.current_revision x) in
      revisions ← read_schedules (ScheduleRepo.get_revisions (map identity visible) principal);
      kept ← lift (mapM (λ x, match revisions !! identity x with
        | Some r => Ok (if _keeps_a_feed r then [Schedule.id x] else [])
        | None => Raise (KeyError "revision") end) visible);
      let found := (found ++ concat kept)%list in
      match last visible with
      | Some tail =>
          if (length page <=? REFRESH_PAGE_SIZE)%nat then mret (Some found)
          else feed_pages pages principal
                 (Some {| sc_updated_at := Schedule.updated_at tail; sc_id := Schedule.id tail |}) found
      | None => mret (Some found)
      end
  end.
Definition sorted_ids (l : list UUID) : list UUID := sort_asc (λ i, (0, i)) l.
(** A page more than there are schedules is a page more than the loop can take. *)
Definition _feed_schedule_ids (principal : Principal) : M (list UUID) :=
  pages ← gets (λ u, S (size (ScheduleRepo._schedules (schedules u))));
  found ← feed_pages pages principal None [];
  mret (sorted_ids (default [] found)).
(** [try: ... except (ConflictError, RateLimitedError)] *)
Definition refused_reason_of (e : exn) : option (option string) :=
  match e with
  | ConflictError _ => Some None
  | ConflictFor reason _ | RateLimitedError reason _ => Some (Some reason)
  | _ => None
  end.
Definition try_checks (schedule : Schedule.t) (revision : Revision.t) (now : datetime)
    : M ((AuthoritySnapshot * AgentPin) + string) := λ u,
  match _manual_start_checks schedule revision now u with
  | (Ok checks, u') => (Ok (inl checks), u')
  | (Raise e, u') =>
      match refused_reason_of e with
      | Some reason => (Ok (inr (match reason with
          | Some r => if String.eqb r "" then "schedule.refresh_refused" else r
          | None => "schedule.refresh_refused" end)), u')
      | None => (Raise e, u')
      end
  end.
(** [try: lock ... except NotFoundError] *)
Definition lock_found (schedule_id : UUID) (principal : Principal) : M (option Schedule.t) := λ u,
  match ScheduleRepo.lock schedule_id principal (schedules u) with
  | Ok x => (Ok (Some x), u)
  | Raise (NotFoundError _) => (Ok None, u)
  | Raise e => (Raise e, u)
  end.
Definition _refresh_at (principal : Principal) (schedule_id : UUID) (key : string) (now : datetime)
    : M (option ScheduleRefresh) :=
  let answer schedule outcome reason :=
    mret (Some {| refresh_schedule_id := Schedule.id schedule; refresh_outcome := outcome; refresh_reason := reason |}) in
  locked ← lock_found schedule_id principal;
  match locked with
  | None => mret None
  | Some schedule =>
  if negb (bool_decide (Schedule.state schedule = SCHEDULE_ACTIVE)) then mret None else
  revision ← read_schedules
    (ScheduleRepo.get_revision (Schedule.id schedule) (Schedule.current_revision schedule) (owner_of schedule));
  if negb (_keeps_a_feed revision) then mret None else
  latest ← read_schedules (λ s, Ok (ScheduleRepo.latest_materialized_occurrence (Schedule.id schedule) s));
  busy ← in_flight schedule;
  if (busy : bool) then answer schedule REFRESH_RUNNING None else
  repeated ← read_schedules (λ s, Ok (ScheduleRepo.manual_occurrence (Schedule.id schedule) key s));
  let recent := match latest ≫= Occurrence.materialized_at with
                | Some started_at => now - started_at <? COCKPIT_REFRESH_MIN_AGE | None => false end in
  if recent || bool_decide (is_Some repeated) then answer schedule REFRESH_RECENT None else
  checks ← try_checks schedule revision now;
  match checks with
  | inr reason => answer schedule REFRESH_REFUSED (Some reason)
  | inl checks =>
      _ ← start_on_request schedule revision key now checks;
      answer schedule REFRESH_STARTED None
  end
  end.
Definition _refresh_one (principal : Principal) (schedule_id : UUID) : M (option ScheduleRefresh) :=
  now ← now_; transaction (_refresh_at principal schedule_id (cockpit_refresh_key now) now).
Fixpoint refresh_all (principal : Principal) (ids : list UUID) : M (list ScheduleRefresh) :=
  match ids with
  | [] => mret []
  | i :: ids =>
      refresh ← _refresh_one principal i;
      rest ← refresh_all principal ids;
      mret (match refresh with Some x => x :: rest | None => rest end)
  end.
Definition refresh_feeds (principal : Principal) : M (list ScheduleRefresh) :=
  ids ← transaction (_feed_schedule_ids principal);
  refresh_all principal ids.
End materializer.
