(* ===== verification/ScheduleAccounting.v ===== *)
(** * Accounting of scheduled runs ([scheduling/accounting.py])

    When the run of an occurrence has ended its outcome is counted once: a failure of the
    cadence towards the limit that pauses it, a success back to zero, a run on request not
    at all. *)
From S2P Require Import Prelude PyDecimal RunModel Sessions Messages StateLogic Recurrence Schedules ScheduleStore.
From S2P Require Import ProcessEvents CallPlans Materializer.

Definition _FAILURE_DETAIL_KEYS : list string := ["provider"; "provider_code"; "http_status"; "provider_parameter"]%string.
Definition _failure_classification (run : Run) : json :=
  match RunModel.failure run with
  | Some f =>
      if bool_decide (RunModel.status run = FAILED) then
        JObj ([("reason", JStr (FailureReason_value (RunModel.reason f))); ("error_class", JStr (error_class f))] ++
              omap (λ key, match details f !! key with
                | Some (DStr v) => Some (key, JStr v) | Some (DInt v) => Some (key, JInt v) | None => None end)
                _FAILURE_DETAIL_KEYS)%list
      else JNull
  | None => JNull
  end.

(** What the outcome of a run makes of the count, and whether it pauses the schedule. *)
Definition counted_failures (manual : bool) (status : RunStatus) (failures : Z) : Z :=
  if manual then failures
  else if bool_decide (status = COMPLETED) then 0
  else if bool_decide (status = FAILED) then failures + 1
  else failures.
Definition outcome_pauses (manual : bool) (status : RunStatus) (failures : Z) (revision : Revision.t)
    (schedule : Schedule.t) : bool :=
  negb manual && bool_decide (status = FAILED) && (Revision.max_consecutive_failures revision <=? failures) &&
  bool_decide (Schedule.state schedule = SCHEDULE_ACTIVE).
Definition accounted (schedule : Schedule.t) (failures : Z) (pauses : bool) (now : datetime) : Schedule.t :=
  schedule <| Schedule.state := if pauses then PAUSED else Schedule.state schedule |>
           <| Schedule.pause_reason := if pauses then Some FAILURE_LIMIT else Schedule.pause_reason schedule |>
           <| Schedule.consecutive_failures := failures |> <| Schedule.updated_at := now |>.

Section accounting.
Context {W : Type} `{SchedulePorts W} (uuid_str : UUID → string).
Abbreviation M := (stateM (Uow W)).
(** A completed call of a plan: its report tells the owner. *)
Definition _quiet_plan_call (revision : Revision.t) (run : Run) (owner : Principal) : M bool :=
  if bool_decide (Revision.call_plan revision = None) || negb (bool_decide (RunModel.status run = COMPLETED))
  then mret false
  else
    session ← on_world (sessions_get (RunModel.session_id run) owner);
    mret (match Session.metadata session !! CALL_PLAN_SESSION_METADATA_KEY with
          | Some (JObj step) =>
              negb (match dict_get "kind" step with
                    | Some (JStr k) => String.eqb k (CallPlanStepKind_value REPORT) | _ => false end)
          | _ => false
          end).
Definition accounted_key (occurrence : Occurrence.t) : string :=
  "schedule.run_accounted:" +:+ uuid_str (Occurrence.id occurrence).
Definition owner_of_link (link : ScheduledRunLink) : Principal :=
  {| Principal.tenant_id := link_tenant_id link; Principal.principal_id := link_principal_id link;
     Principal.roles := ∅; Principal.scopes := ∅ |}.
Definition recorded (key : string) : M bool :=
  gets (λ u, bool_decide (is_Some (ProcessEventRepo.get_by_derivation key (process_events u)))).
Definition record_outcome (schedule : Schedule.t) (occurrence : Occurrence.t) (run : Run) (failures : Z) : M unit :=
  id ← fresh; event_time ← now_; created_at ← now_;
  _ ← append_event (scheduler_event id "schedule.run_accounted" schedule
    [("schedule_id", JStr (uuid_str (Schedule.id schedule)));
     ("schedule_revision", JInt (Occurrence.schedule_revision occurrence));
     ("tenant_id", JStr (Schedule.tenant_id schedule)); ("principal_id", JStr (Schedule.principal_id schedule));
     ("occurrence_id", JStr (uuid_str (Occurrence.id occurrence))); ("run_id", JStr (uuid_str (RunModel.id run)));
     ("run_status", JStr (RunStatus_value (RunModel.status run))); ("failure", _failure_classification run);
     ("consecutive_failures", JInt failures); ("event_time", JStr (isoformat event_time))]
    (accounted_key occurrence) created_at);
  probe "process_event".
Definition tell_owner (updated : Schedule.t) (occurrence : Occurrence.t) (revision : Revision.t) (run : Run)
    (owner : Principal) : M unit :=
  let quiet := bool_decide (RunModel.status run = COMPLETED) &&
    (bool_decide (Revision.notify revision = ATTENTION_ONLY) ||
     is_cockpit_refresh (Occurrence.manual_request_key occurrence)) in
  match notify_accounted with
  | None => mret tt
  | Some notify =>
      if quiet then mret tt
      else
        plan_call ← _quiet_plan_call revision run owner;
        if (plan_call : bool) then mret tt
        else
          produced ← producer (on_world (notify updated occurrence revision run));
          if (produced : bool) then probe "notification" else mret tt
  end.
Definition account_in (run_id : UUID) : M bool :=
  link ← read_schedules (ScheduleRepo.occurrence_by_run run_id);
  match link with
  | None => mret false
  | Some link =>
  let occurrence := link_occurrence link in
  before ← recorded (accounted_key occurrence);
  if (before : bool) then mret false else
  let owner := owner_of_link link in
  schedule ← read_schedules (ScheduleRepo.lock (Occurrence.schedule_id occurrence) owner);
  meanwhile ← recorded (accounted_key occurrence);
  if (meanwhile : bool) then mret false else
  run ← on_world (runs_get run_id owner);
  if negb (is_terminal (RunModel.status run)) then mret false else
  revision ← read_schedules
    (ScheduleRepo.get_revision (Schedule.id schedule) (Occurrence.schedule_revision occurrence) owner);
  let manual := bool_decide (Occurrence.trigger occurrence = MANUAL) in
  let failures := counted_failures manual (RunModel.status run) (Schedule.consecutive_failures schedule) in
  let auto_paused := outcome_pauses manual (RunModel.status run) failures revision schedule in
  now ← now_;
  let updated := accounted schedule failures auto_paused now in
  _ ← (if bool_decide (updated = schedule) then mret tt
       else _ ← on_schedules (ScheduleRepo.replace schedule updated None); probe "schedule");
  _ ← record_outcome schedule occurrence run failures;
  _ ← tell_owner updated occurrence revision run owner;
  _ ← (if auto_paused then
         id ← fresh; event_time ← now_; created_at ← now_;
         _ ← append_event (auto_paused_event uuid_str id schedule PAUSED
           (JStr (uuid_str (Occurrence.id occurrence))) (JStr (uuid_str (RunModel.id run)))
           (Occurrence.id occurrence) event_time created_at);
         probe "auto_pause_event"
       else mret tt);
  mret true
  end.
Definition account (run_id : UUID) : M bool := transaction (account_in run_id).
End accounting.
