(* ===== verification/MaterializerSpec.v ===== *)
(** * What a firing does

    The effect of each part of the materializer on the schedules and the process events;
    that a due schedule is decided once, at its latest instant, and never twice. *)
From S2P Require Import Prelude PyDecimal RunModel Sessions Messages StateLogic Calendar Recurrence RecurrenceSpec.
From S2P Require Import Schedules ScheduleStore ScheduleStoreSpec ProcessEvents CallPlans Materializer.

(** ** Instants *)
Section instants.
Context (ZoneInfo : string → Zone) (zone_known : string → bool).
Lemma search_kept z r n f keep x :
  (∀ local k, f local k = Ok (Found x) → keep x = true) →
  (local ← astimezone z r; for_offsets n 0 (f local)) = Ok (Some x) → keep x = true.
Proof.
  intros Hf. unfold mbind, result_bind. destruct (astimezone z r) as [local|]; [|done].
  intros (j & _ & Hj & _)%for_offsets_spec. by eapply Hf.
Qed.
Lemma day_found c z t keep d x : day_attempt c z t keep d = Ok (Found x) → keep x = true.
Proof.
  intros [_ H]%day_attempt_Ok. destruct (_matches c d); [|done]. destruct H as (y & _ & H).
  destruct (keep y) eqn:E; [|done]. by injection H as ->.
Qed.
Lemma period_found z t keep pick dates x : pick = min_of ∨ pick = max_of →
  period_attempt z t keep pick dates = Ok (Found x) → keep x = true.
Proof. intros Hp H%period_attempt_Ok; [|done]. destruct dates; [|done]. destruct H as (xs & _ & _ & ? & _). done. Qed.
Lemma next_later c r x : cadence_valid zone_known c = true → next_after ZoneInfo c r = Ok (Some x) → r < x.
Proof.
  intros V H. destruct c as [at_|t z|t w z|t days last z|t dates z|n z]; cbn [next_after] in H.
  - destruct (Z.ltb_spec r at_); congruence.
  - apply (search_kept _ _ _ _ (after r)) in H; [by apply Z.ltb_lt|]. intros ? ? ?%day_found. done.
  - apply (search_kept _ _ _ _ (after r)) in H; [by apply Z.ltb_lt|]. intros ? ? ?%day_found. done.
  - apply (search_kept _ _ _ _ (after r)) in H; [by apply Z.ltb_lt|]. intros ? ? ?%period_found; [done|by left].
  - apply (search_kept _ _ _ _ (after r)) in H; [by apply Z.ltb_lt|]. intros ? ? ?%period_found; [done|by left].
  - apply interval_valid in V as [V _]. unfold mbind, result_bind in H. destruct (_interval_at _ _) as [y|] eqn:E; [|done].
    injection H as <-. apply interval_at_Ok in E as ->. pose proof (interval_index_spec n r V). lia.
Qed.
Lemma latest_no_later c r x : cadence_valid zone_known c = true → latest_at_or_before ZoneInfo c r = Ok (Some x) → x <= r.
Proof.
  intros V H. destruct c as [at_|t z|t w z|t days last z|t dates z|n z]; cbn [latest_at_or_before] in H.
  - destruct (Z.leb_spec at_ r); congruence.
  - apply (search_kept _ _ _ _ (until r)) in H; [by apply Z.leb_le|]. intros ? ? ?%day_found. done.
  - apply (search_kept _ _ _ _ (until r)) in H; [by apply Z.leb_le|]. intros ? ? ?%day_found. done.
  - apply (search_kept _ _ _ _ (until r)) in H; [by apply Z.leb_le|]. intros ? ? ?%period_found; [done|by right].
  - apply (search_kept _ _ _ _ (until r)) in H; [by apply Z.leb_le|]. intros ? ? ?%period_found; [done|by right].
  - apply interval_valid in V as [V _]. unfold mbind, result_bind in H. destruct (_interval_at _ _) as [y|] eqn:E; [|done].
    injection H as <-. apply interval_at_Ok in E as ->. pose proof (interval_index_spec n r V). lia.
Qed.
End instants.

(** ** The parts of a unit of work *)
Section effects.
Context {W : Type} `{SchedulePorts W}.
Abbreviation M := (stateM (Uow W)).

(** What leaves the schedules, or the schedules and the process events, alone. *)
Definition same_schedules (u u' : Uow W) : Prop := schedules u' = schedules u.
Definition world_only (u u' : Uow W) : Prop := schedules u' = schedules u ∧ process_events u' = process_events u.
#[global] Instance same_schedules_preorder : PreOrder same_schedules.
Proof. split; [done|]. intros a b c. unfold same_schedules. congruence. Qed.
#[global] Instance world_only_preorder : PreOrder world_only.
Proof. split; [done|]. intros a b c [? ?] [? ?]. split; congruence. Qed.
Lemma world_only_schedules u u' : world_only u u' → same_schedules u u'.
Proof. by intros []. Qed.

Lemma keeps_on_world {A} (f : W → result A * W) : keeps world_only (on_world f).
Proof. intros u. unfold on_world. by destruct (f (world u)). Qed.
Lemma keeps_read {A} (f : ScheduleRepo.t → result A) : keeps world_only (read_schedules f).
Proof. intros u. done. Qed.
Lemma keeps_clock : keeps world_only now_.
Proof. apply keeps_on_world. Qed.
Lemma keeps_fresh : keeps world_only fresh.
Proof. apply keeps_on_world. Qed.
Lemma keeps_probe b : keeps world_only (probe b).
Proof. apply keeps_on_world. Qed.
Lemma keeps_process_event e : keeps same_schedules (append_event e).
Proof. intros u. unfold append_event. by destruct (ProcessEventRepo.append e (process_events u)). Qed.
Lemma keeps_on_world_schedules {A} (f : W → result A * W) : keeps same_schedules (on_world f).
Proof. eapply keeps_weaken; [apply keeps_on_world|]. by intros ? ? []. Qed.
Lemma keeps_fresh_schedules : keeps same_schedules fresh.
Proof. apply keeps_on_world_schedules. Qed.
Lemma keeps_now_schedules : keeps same_schedules now_.
Proof. apply keeps_on_world_schedules. Qed.
Lemma keeps_probe_schedules b : keeps same_schedules (probe b).
Proof. apply keeps_on_world_schedules. Qed.
Lemma keeps_read_schedules {A} (f : ScheduleRepo.t → result A) : keeps same_schedules (read_schedules f).
Proof. by intros u. Qed.
Lemma wp_on_schedules {A} (f : ScheduleRepo.t → result A * ScheduleRepo.t) (Q : result A → Uow W → Prop) u :
  Q (f (schedules u)).1 (u <| schedules := (f (schedules u)).2 |>) → wp (on_schedules f) Q u.
Proof. unfold wp, on_schedules. by destruct (f (schedules u)). Qed.
Lemma wp_read {A} (f : ScheduleRepo.t → result A) (Q : result A → Uow W → Prop) u :
  Q (f (schedules u)) u → wp (read_schedules f) Q u.
Proof. done. Qed.
Lemma wp_append e (Q : result ProcessEvent → Uow W → Prop) u :
  Q (ProcessEventRepo.append e (process_events u)).1
    (u <| process_events := (ProcessEventRepo.append e (process_events u)).2 |>) → wp (append_event e) Q u.
Proof. unfold wp, append_event. by destruct (ProcessEventRepo.append e (process_events u)). Qed.
(** A transaction that returns is its body; one that raises leaves the stores as they were. *)
Lemma transaction_Ok {A} (m : M A) u a u' : transaction m u = (Ok a, u') ↔ m u = (Ok a, u').
Proof. unfold transaction. destruct (m u) as [[]]; naive_solver. Qed.
Lemma transaction_Raise {A} (m : M A) u e u' : transaction m u = (Raise e, u') → world_only u u'.
Proof. unfold transaction. destruct (m u) as [[]]; [done|]. by intros [= _ <-]. Qed.
End effects.
#[export] Hint Resolve keeps_on_world keeps_read keeps_clock keeps_fresh keeps_probe keeps_process_event
  keeps_on_world_schedules keeps_fresh_schedules keeps_now_schedules keeps_probe_schedules keeps_read_schedules : keeps.

Section firing.
Context {W : Type} `{SchedulePorts W} (ZoneInfo : string → Zone) (uuid_str : UUID → string).
Context (read_step : json → result CallPlanStep).
Abbreviation M := (stateM (Uow W)).

Lemma keeps_occurrence_event o s st now : keeps same_schedules (_append_occurrence_event uuid_str o s st now : M unit).
Proof. unfold _append_occurrence_event. keeps. Qed.
Lemma keeps_coalesced s r a b now : keeps same_schedules (_append_coalesced_misfires ZoneInfo uuid_str s r a b now : M unit).
Proof. unfold _append_coalesced_misfires. keeps. Qed.
Lemma keeps_producer (m : M (bool * option ProcessEvent)) : keeps same_schedules m → keeps same_schedules (producer m).
Proof. intros Hm. unfold producer. apply keeps_bind; [apply _|done|]. intros [p [e|]]; keeps. Qed.
Lemma keeps_in_flight s : keeps world_only (in_flight s : M bool).
Proof. unfold in_flight. keeps. Qed.
Lemma keeps_find_agent r : keeps world_only (find_agent r : M (option AgentPin)).
Proof.
  intros u. unfold find_agent. pose proof (keeps_on_world (agents_get_version (Revision.agent_id r) (Revision.agent_version r)) u) as K.
  destruct (on_world _ u) as [[|[]]]; done.
Qed.
Hint Resolve keeps_occurrence_event keeps_coalesced keeps_in_flight keeps_find_agent : keeps.
Lemma keeps_judge s r nominal now : keeps world_only (judge s r nominal now : M Verdict).
Proof. unfold judge. keeps. Qed.
Lemma keeps_plan_start s r : keeps world_only (plan_start uuid_str read_step s r : M (option Start)).
Proof. unfold plan_start, _materialized_count. keeps. Qed.
Lemma keeps_start_checks s r now : keeps world_only (_manual_start_checks s r now : M (AuthoritySnapshot * AgentPin)).
Proof. unfold _manual_start_checks. cbv zeta. keeps. Qed.

(** ** What is inserted *)
(** What a computation does to the schedules: nothing, or it inserts a row, as [P] says. *)
Definition inserts {A} (P : Occurrence.t → ScheduleRepo.t → Prop) (u : Uow W) (r : result A) (u' : Uow W) : Prop :=
  (same_schedules u u' ∧ ∃ e, r = Raise e) ∨
  ∃ o, ScheduleStoreSpec.insertable o (schedules u) ∧ P o (schedules u').
(** The steps after the insertion keep what it did. *)
Lemma wp_after {A B} (R : Uow W → Uow W → Prop) (m : M A) (k : A → M B) (Q : result B → Uow W → Prop) u :
  keeps R m → (∀ a u', R u u' → wp (k a) Q u') → (∀ e u', R u u' → Q (Raise e) u') → wp (m ≫= k) Q u.
Proof. intros Hm Hk He. by apply (wp_keeps_bind R). Qed.
Lemma wp_insert {B} o (k : Occurrence.t → M B) (Q : result B → Uow W → Prop) u :
  (Occurrence.trigger o = SCHEDULED →
     ScheduleRepo._occurrence_keys (schedules u) !! (Occurrence.schedule_id o, Occurrence.nominal_fire_at o) = None) →
  (∀ k, Occurrence.manual_request_key o = Some k →
     ScheduleRepo.manual_occurrence (Occurrence.schedule_id o) k (schedules u) = None) →
  (∀ e, Q (Raise e) u) →
  (insertable o (schedules u) → wp (k o) Q (u <| schedules := with_occurrence o (schedules u) |>)) →
  wp (on_schedules (ScheduleRepo.insert o) ≫= k) Q u.
Proof.
  intros Hkey Hreq He Hk. apply wp_bind, wp_on_schedules.
  destruct (insert_absent o (schedules u) Hkey Hreq) as [[Hi ->]|[e ->]]; cbn [fst snd]; [by apply Hk|].
  replace (u <| schedules := schedules u |>) with u by (by destruct u). apply He.
Qed.

(** *** A run that starts *)
Definition starts_as (schedule : Schedule.t) (revision : Revision.t) (nominal now : datetime) (start : Start)
    (o : Occurrence.t) : Prop :=
  Occurrence.schedule_id o = Schedule.id schedule ∧ Occurrence.schedule_revision o = Revision.revision revision ∧
  Occurrence.nominal_fire_at o = nominal ∧ Occurrence.disposition o = MATERIALIZED ∧
  Occurrence.trigger o = st_trigger start ∧ Occurrence.manual_request_key o = st_request_key start ∧
  Occurrence.materialized_at o = Some now ∧ is_Some (Occurrence.run_id o).
Lemma make_Ok o o' : Occurrence.make o = Ok o' → o' = o.
Proof.
  unfold Occurrence.make. intros [_ E]%raise_if_ok. unfold mbind, result_bind in E.
  destruct (Occurrence.manual_key_matches_trigger o); [|done]. unfold Occurrence.disposition_is_consistent in E.
  case_bool_decide; [|by repeat (apply raise_if_ok in E as [_ E]); simplify_eq].
  destruct (Occurrence.authority_version o), (Occurrence.materialized_at o); try done.
  unfold Occurrence.materialization_is_consistent, mbind, result_bind in E.
  destruct (match Occurrence.links_erased_at o with Some _ => _ | None => _ end); [|done].
  repeat (apply raise_if_ok in E as [_ E]). by simplify_eq.
Qed.
Lemma start_run_effect schedule revision agent authority nominal now start u :
  (st_trigger start = SCHEDULED →
     ScheduleRepo._occurrence_keys (schedules u) !! (Schedule.id schedule, nominal) = None) →
  (∀ k, st_request_key start = Some k → ScheduleRepo.manual_occurrence (Schedule.id schedule) k (schedules u) = None) →
  wp (_start_run uuid_str schedule revision agent authority nominal now start : M Occurrence.t)
    (λ r u', process_events u' = process_events u ∧
       ((schedules u' = schedules u ∧ ∃ e, r = Raise e) ∨
        ∃ o, starts_as schedule revision nominal now start o ∧ insertable o (schedules u) ∧
             schedules u' = with_occurrence o (schedules u) ∧ ∀ o', r = Ok o' → o' = o)) u.
Proof.
  intros Hkey Hreq. unfold _start_run.
  apply (wp_after world_only); [eauto with keeps| |by intros e u' []; eauto]. intros session_id u1 [E1 P1].
  apply (wp_after world_only); [eauto with keeps| |intros e u' []; split; [congruence|left; split; [congruence|eauto]]].
  intros run_id u2 [E2 P2].
  apply (wp_after world_only); [eauto with keeps| |intros e u' []; split; [congruence|left; split; [congruence|eauto]]].
  intros id u3 [E3 P3].
  assert (schedules u3 = schedules u ∧ process_events u3 = process_events u) as [E P] by (split; congruence).
  clear E1 P1 E2 P2 E3 P3 u1 u2. apply wp_bind, wp_lift. destruct (Occurrence.make _) as [o|e] eqn:Ho; [|by eauto].
  apply make_Ok in Ho. assert (starts_as schedule revision nominal now start o) as Hs by (subst o; split_and!; try done; by eexists).
  clear Ho. rewrite <- E in Hkey, Hreq. destruct Hs as (Hi & Hs). pose proof Hs as (_ & Hn & _ & Ht & Hr & _).
  apply wp_insert.
  - rewrite Hi, Hn, Ht. done.
  - rewrite Hi, Hr. done.
  - eauto.
  - intros Hins. rewrite E in Hins. eapply (wp_mono _ (λ r u', world_only (u3 <| schedules := with_occurrence o (schedules u3) |>) u' ∧ ∀ o', r = Ok o' → o' = o)).
    + apply wp_yields; [keeps|]. repeat (apply yields_bind_any; intros ?). by apply yields_ret.
    + intros r u' [[E' P'] Hret]. cbn in E', P'. rewrite E in E'. split; [congruence|]. right. exists o. done.
Qed.

(** *** A firing that is refused *)
Definition refused_as (schedule : Schedule.t) (revision : Revision.t) (nominal : datetime) (why : Refusal)
    (o : Occurrence.t) : Prop :=
  Occurrence.schedule_id o = Schedule.id schedule ∧ Occurrence.schedule_revision o = Revision.revision revision ∧
  Occurrence.nominal_fire_at o = nominal ∧ Occurrence.disposition o = refused_disposition why ∧
  Occurrence.trigger o = SCHEDULED ∧ Occurrence.reason_code o = Some (refused_reason why) ∧
  Occurrence.manual_request_key o = None ∧ Occurrence.run_id o = None.
(** The schedules after a decision that returned: the row is there, and the schedule has moved on. *)
Definition decided (schedule : Schedule.t) (o : Occurrence.t) (advanced : Schedule.t) (s s' : ScheduleRepo.t) : Prop :=
  insertable o s ∧ ScheduleRepo._schedules s !! Schedule.id schedule = Some schedule ∧
  Schedule.id advanced = Schedule.id schedule ∧
  Schedule.current_revision advanced = Schedule.current_revision schedule ∧
  s' = ScheduleRepo.put advanced (with_occurrence o s).
Lemma wp_advance {B} schedule advanced (k : Schedule.t → M B) (Q : result B → Uow W → Prop) u :
  (∀ e, Q (Raise e) u) →
  (ScheduleRepo._schedules (schedules u) !! Schedule.id schedule = Some schedule →
   Schedule.id advanced = Schedule.id schedule → Schedule.current_revision advanced = Schedule.current_revision schedule →
   wp (k advanced) Q (u <| schedules := ScheduleRepo.put advanced (schedules u) |>)) →
  wp (on_schedules (ScheduleRepo.advance schedule advanced) ≫= k) Q u.
Proof.
  intros He Hk. apply wp_bind, wp_on_schedules. destruct (advance_state schedule advanced (schedules u)) as [E|E].
  - destruct (ScheduleRepo.advance schedule advanced (schedules u)) as [[y|e] s'] eqn:A; cbn [fst snd] in *; subst s'.
    + destruct (advance_Ok schedule advanced (schedules u) y) as (H1 & H2 & H3 & -> & Ha); [by rewrite A|].
      rewrite A in Ha. injection Ha as Ha. specialize (Hk H1 H2 H3). by rewrite <- Ha in Hk.
    + replace (u <| schedules := schedules u |>) with u by (by destruct u). apply He.
  - destruct (advance_Ok schedule advanced (schedules u) advanced E) as (H1 & H2 & H3 & _ & ->). by apply Hk.
Qed.

(** *** What holds when a computation returns: one that raises is rolled back *)
Definition returns {A} (Q : A → Uow W → Prop) (m : M A) (u : Uow W) : Prop := wp m (λ r u', ∀ a, r = Ok a → Q a u') u.
Lemma returns_ret {A} (Q : A → Uow W → Prop) a u : Q a u → returns Q (mret a) u.
Proof. intros HQ. apply wp_ret. by intros ? [= <-]. Qed.
Lemma returns_raise {A} (Q : A → Uow W → Prop) e u : returns Q (raise e) u.
Proof. by apply wp_raise. Qed.
Lemma returns_after {A B} (R : Uow W → Uow W → Prop) (m : M A) (k : A → M B) Q u :
  keeps R m → (∀ a u', R u u' → returns Q (k a) u') → returns Q (m ≫= k) u.
Proof. intros Hm Hk. by apply (wp_keeps_bind R). Qed.
Lemma returns_bind {A B} (P : A → Uow W → Prop) (m : M A) (k : A → M B) Q u :
  returns P m u → (∀ a u', P a u' → returns Q (k a) u') → returns Q (m ≫= k) u.
Proof.
  intros Hm Hk. apply wp_bind. eapply wp_mono; [apply Hm|]. intros [a|e] u' HP; [by apply Hk, HP|done].
Qed.
Lemma returns_lift {A B} (r : result A) (k : A → M B) Q u : (∀ a, r = Ok a → returns Q (k a) u) → returns Q (lift r ≫= k) u.
Proof. intros Hk. apply wp_bind, wp_lift. destruct r; [by apply Hk|done]. Qed.
Lemma returns_read {A B} (f : ScheduleRepo.t → result A) (k : A → M B) Q u :
  (∀ a, f (schedules u) = Ok a → returns Q (k a) u) → returns Q (read_schedules f ≫= k) u.
Proof. intros Hk. apply wp_bind, wp_read. destruct (f (schedules u)) eqn:E; [by apply Hk|done]. Qed.

Lemma record_failure_effect schedule revision nominal next now why u :
  ScheduleRepo._occurrence_keys (schedules u) !! (Schedule.id schedule, nominal) = None →
  returns (λ o u', refused_as schedule revision nominal why o ∧
      decided schedule o (_advanced_schedule schedule revision next now (counts_as_failure why) false)
        (schedules u) (schedules u'))
    (_record_failure uuid_str schedule revision nominal next now why) u.
Proof.
  intros Hkey. unfold _record_failure. apply (returns_after world_only); [eauto with keeps|]. intros id u1 [E1 P1].
  apply returns_lift. intros o Ho%make_Ok. assert (refused_as schedule revision nominal why o) as Ha by by subst o.
  pose proof Ha as (Hi & _ & Hn & _ & Ht & _ & Hr & _). clear Ho. apply wp_insert; [by rewrite Hi, Hn, E1|by rewrite Hr|done|].
  intros Hins. rewrite E1 in Hins.
  set (advanced := _advanced_schedule schedule revision next now (counts_as_failure why) false).
  set (u2 := u1 <| schedules := with_occurrence o (schedules u1) |>).
  assert (schedules u2 = with_occurrence o (schedules u)) as E2 by (cbn; by rewrite E1). generalize dependent u2. intros u2 E2.
  apply (returns_after same_schedules); [keeps|]. intros _ u3 S3. apply (returns_after same_schedules); [keeps|]. intros _ u4 S4.
  apply (returns_after same_schedules); [keeps|]. intros _ u5 S5.
  apply (returns_after same_schedules).
  { destruct notify_occurrence as [notify|]; [|keeps]. destruct (tells_owner why); [|keeps].
    apply keeps_bind; [apply _|apply keeps_producer; keeps|]. intros []; keeps. }
  intros _ u6 S6. apply (returns_after same_schedules); [keeps|]. intros _ u7 S7.
  assert (schedules u7 = with_occurrence o (schedules u)) as E7 by (unfold same_schedules in *; congruence).
  apply wp_advance; [done|]. intros Hrow Hid Hcur. apply (returns_after same_schedules); [keeps|]. intros _ u8 S8.
  apply returns_ret. split; [done|]. unfold same_schedules in S8. rewrite E7 in Hrow. split_and!; try done.
  rewrite S8. cbn. by rewrite E7.
Qed.

(** *** A due schedule is decided, or left to be tried again *)
(** How a firing leaves its schedule: advanced to the next instant of the cadence, and waiting
    for the result of a call only where there is a plan of calls. *)
Definition advances (schedule : Schedule.t) (revision : Revision.t) (now : datetime) (advanced : Schedule.t) : Prop :=
  ∃ next failed awaiting, next_after ZoneInfo (Revision.cadence revision) now = Ok next ∧
    (awaiting = true → Revision.call_plan revision ≠ None) ∧
    advanced = _advanced_schedule schedule revision next now failed awaiting.
Definition fired_as (schedule : Schedule.t) (revision : Revision.t) (nominal now : datetime) (o : Occurrence.t)
    (advanced : Schedule.t) : Prop :=
  Occurrence.schedule_id o = Schedule.id schedule ∧ Occurrence.nominal_fire_at o = nominal ∧
  Occurrence.trigger o = SCHEDULED ∧ advances schedule revision now advanced.
(** The instant a firing is for: the last of the cadence's instants that have been reached, or
    the next call of a plan. *)
Definition latest_due (schedule : Schedule.t) (revision : Revision.t) (now x : datetime) : Prop :=
  match Revision.call_plan revision with
  | None => occurs ZoneInfo (Revision.cadence revision) x ∧ x <= now ∧
      ∀ t, occurs ZoneInfo (Revision.cadence revision) t → t <= now → t <= x
  | Some _ => Schedule.next_fire_at schedule = Some x ∧ x <= now
  end.
(** A schedule that has moved past the present: an active one fires next at the first instant to
    come, or waits for a call of its plan; one that is over has no instant to come, and one is
    paused only at its failure limit. *)
Definition moved_past (revision : Revision.t) (now : datetime) (x : Schedule.t) : Prop :=
  match Schedule.state x with
  | SCHEDULE_ACTIVE =>
      match Schedule.next_fire_at x with
      | Some t => occurs ZoneInfo (Revision.cadence revision) t ∧ now < t ∧
          ∀ t', occurs ZoneInfo (Revision.cadence revision) t' → now < t' → t <= t'
      | None => Revision.call_plan revision ≠ None
      end
  | SCHEDULE_COMPLETED => Schedule.next_fire_at x = None ∧
      (is_once (Revision.cadence revision) = true ∨ ∀ t, occurs ZoneInfo (Revision.cadence revision) t → t <= now)
  | PAUSED => Schedule.next_fire_at x = None ∧ Schedule.pause_reason x = Some FAILURE_LIMIT ∧
      Revision.max_consecutive_failures revision <= Schedule.consecutive_failures x
  | SCHEDULE_CANCELLED => False
  end.
Lemma advances_past zone_known schedule revision now x :
  cadence_valid zone_known (Revision.cadence revision) = true →
  (∀ t z, civil_part (Revision.cadence revision) = Some (t, z) → orderly (ZoneInfo z)) →
  advances schedule revision now x → moved_past revision now x.
Proof.
  intros V Hz (next & failed & awaiting & E%(next_nearest _ zone_known) & Hw & ->); [|done..].
  unfold moved_past, _advanced_schedule, nearest, after in *. destruct awaiting; [by apply Hw|].
  destruct (_ || _) eqn:Eo; cbn.
  - split; [done|]. apply orb_true_iff in Eo as [Eo|Eo%bool_decide_eq_true]; [by left|right]. subst next.
    intros t Ht%E. by apply Z.ltb_ge.
  - apply orb_false_iff in Eo as [_ Eo%bool_decide_eq_false]. destruct next as [t|]; [|done].
    destruct (_ && _) eqn:Ef; cbn.
    + apply andb_true_iff in Ef as [-> Ef%Z.leb_le]. done.
    + destruct E as (Ho & Hlt%Z.ltb_lt & Hmin). split_and!; [done..|].
      intros t' Ho' Hlt'%Z.ltb_lt. specialize (Hmin t' Ho' Hlt'). lia.
Qed.
Lemma advances_later zone_known schedule revision now x t :
  cadence_valid zone_known (Revision.cadence revision) = true →
  advances schedule revision now x → Schedule.next_fire_at x = Some t → now < t.
Proof.
  intros V (next & failed & awaiting & E & _ & ->). unfold _advanced_schedule, moved.
  destruct awaiting; [done|]. destruct (_ || _); [done|]. destruct (_ && _); [done|]. cbn. intros ->.
  by eapply next_later.
Qed.
(** Only admission puts a firing off. *)
Definition admission_waits (schedule : Schedule.t) (revision : Revision.t) (now : datetime) : Prop := ∃ w d w',
  admission_check (Schedule.tenant_id schedule) revision now w = (Ok d, w') ∧ admission_outcome d = ADMISSION_RETRY.
Lemma yields_on_world {A} (f : W → result A * W) : yields (λ a, ∃ w w', f w = (Ok a, w')) (on_world f).
Proof. intros u a u'. unfold on_world. destruct (f (world u)) as [r w] eqn:E. intros [= -> _]. by eauto. Qed.
Lemma judge_waits schedule revision nominal now :
  yields (λ v, v = RetryLater → admission_waits schedule revision now) (judge schedule revision nominal now : M Verdict).
Proof.
  unfold judge. apply yields_bind_any. intros []; [by apply yields_ret|]. apply yields_bind_any. intros latest_start.
  destruct (_ <? _); [by apply yields_ret|]. apply yields_bind_any. intros [authority|]; [|by apply yields_ret].
  cbv zeta. destruct (negb (authority_enabled authority)); [by apply yields_ret|]. destruct (negb _); [by apply yields_ret|].
  apply yields_bind_any. intros [agent|]; [|by apply yields_ret]. destruct (negb _); [by apply yields_ret|].
  eapply yields_bind; [apply yields_on_world|]. intros d (w & w' & Hd). destruct (admission_outcome d) eqn:E.
  - by apply yields_ret.
  - apply yields_ret. intros _. by exists w, d, w'.
  - destruct (admission_reason d); [by apply yields_ret|apply yields_raise].
Qed.
(** A plan's firing is a scheduled one. *)
Definition of_schedule (start : option Start) : Prop :=
  ∀ x, start = Some x → st_trigger x = SCHEDULED ∧ st_request_key x = None.
Lemma plan_start_scheduled schedule revision : yields of_schedule (plan_start uuid_str read_step schedule revision : M (option Start)).
Proof.
  unfold plan_start. destruct (Revision.call_plan revision) as [plan|]; [|by apply yields_ret; intros x [= <-]].
  apply yields_bind_any. intros count. apply yields_bind_any. intros [step|]; [|by apply yields_ret].
  destruct (Revision.cadence revision); try apply yields_raise. apply yields_bind_any. intros note.
  apply yields_ret. by intros x [= <-].
Qed.
Lemma fire_effect schedule revision first nominal now u :
  ScheduleRepo._occurrence_keys (schedules u) !! (Schedule.id schedule, nominal) = None →
  returns (λ res u', match res with
      | None => schedules u' = schedules u ∧ admission_waits schedule revision now
      | Some o => ∃ advanced, fired_as schedule revision nominal now o advanced ∧
          decided schedule o advanced (schedules u) (schedules u')
      end)
    (fire ZoneInfo uuid_str read_step schedule revision first nominal now) u.
Proof.
  intros Hkey. unfold fire. apply returns_lift. intros next Hnext.
  apply (returns_after same_schedules); [eauto with keeps|]. intros _ u1 S1.
  apply (returns_bind (λ v u', world_only u1 u' ∧ (v = RetryLater → admission_waits schedule revision now))).
  { eapply wp_mono; [apply wp_yields; [apply keeps_judge|apply judge_waits]|].
    intros r u' [Hw Hy] a Ha. split; [done|by apply Hy]. }
  intros verdict u2 [[S2 _] Hwaits].
  assert (schedules u2 = schedules u) as E2 by (unfold same_schedules in *; congruence). clear S1 S2 u1.
  rewrite <- E2 in Hkey |- *. destruct verdict as [why| |authority agent].
  - eapply returns_bind; [by apply record_failure_effect|]. intros o u3 [Ha Hd]. apply returns_ret.
    eexists. split; [|exact Hd]. destruct Ha as (? & _ & ? & _ & ? & _). split_and!; try done. by eexists next, _, false.
  - apply returns_ret. split; [done|by apply Hwaits].
  - apply (returns_bind (λ start u', world_only u2 u' ∧ of_schedule start)).
    { eapply wp_mono; [apply wp_yields; [apply keeps_plan_start|apply plan_start_scheduled]|].
      intros r u' [Hw Hy] a Ha. split; [done|by apply Hy]. }
    intros start u3 [[S3 _] Hstart]. rewrite <- S3 in Hkey |- *.
    destruct start as [start|].
    2:{ eapply returns_bind; [by apply record_failure_effect|]. intros o u4 [Ha Hd]. apply returns_ret.
        eexists. split; [|exact Hd]. destruct Ha as (? & _ & ? & _ & ? & _). split_and!; try done. by eexists next, _, false. }
    destruct (Hstart start eq_refl) as [Ht Hr].
    eapply (returns_bind (λ o u', starts_as schedule revision nominal now start o ∧ insertable o (schedules u3) ∧
      schedules u' = with_occurrence o (schedules u3))).
    { eapply wp_mono; [apply start_run_effect; [done|congruence]|].
      intros r u' [_ [[_ [e ->]]|(o & Ho & Hi & Hs & Hret)]]; [done|]. intros a Ha. by rewrite (Hret a Ha). }
    intros o u4 (Ho & Hi & S4). apply (returns_after same_schedules); [eauto with keeps|]. intros _ u5 S5.
    apply (returns_after same_schedules); [eauto with keeps|]. intros _ u6 S6.
    assert (schedules u6 = with_occurrence o (schedules u3)) as E6 by (unfold same_schedules in *; congruence).
    apply wp_advance; [done|]. intros Hrow Hid Hcur. apply (returns_after same_schedules); [eauto with keeps|].
    intros _ u7 S7. apply returns_ret. destruct Ho as (Ho1 & _ & Ho2 & _ & Ho3 & _).
    eexists. split.
    { split_and!; [done..|by rewrite Ho3|]. eexists next, false, _. split_and!; [done| |reflexivity].
      intros [E%negb_true_iff _]%andb_true_iff. by apply bool_decide_eq_false in E. }
    rewrite E6 in Hrow. split_and!; [done..|]. unfold same_schedules in S7. rewrite S7. cbn. by rewrite E6.
Qed.

(** ** Nothing that is due was fired before *)
(** A schedule's next firing lies after every instant that was decided for it. *)
Definition ahead (s : ScheduleRepo.t) : Prop := ∀ i x t o,
  ScheduleRepo._schedules s !! i = Some x → Schedule.next_fire_at x = Some t → o ∈ ScheduleRepo._occurrences s →
  Occurrence.schedule_id o = i → Occurrence.trigger o = SCHEDULED → Occurrence.nominal_fire_at o < t.
Definition revisions_valid (zone_known : string → bool) (s : ScheduleRepo.t) : Prop := ∀ k r,
  ScheduleRepo._revisions s !! k = Some r → cadence_valid zone_known (Revision.cadence r) = true.
Lemma lock_due_Some i now s x : ScheduleRepo.lock_due i now s = Some x →
  ScheduleRepo._schedules s !! i = Some x ∧ Schedule.state x = SCHEDULE_ACTIVE ∧
  ∃ t, Schedule.next_fire_at x = Some t ∧ t <= now.
Proof.
  unfold ScheduleRepo.lock_due, ScheduleRepo.is_due, ScheduleRepo.firing.
  destruct (ScheduleRepo._schedules s !! i) as [y|] eqn:E; [|done]. case_bool_decide as Ha; [|done].
  destruct (Schedule.next_fire_at y) as [t|] eqn:Et; [|done]. destruct (Z.leb_spec t now); [|done].
  intros [= <-]. split_and!; [done..|]. by exists t.
Qed.
Lemma get_revision_Ok i n p s r : ScheduleRepo.get_revision i n p s = Ok r → ScheduleRepo._revisions s !! (i, n) = Some r.
Proof.
  unfold ScheduleRepo.get_revision, mbind, result_bind. destruct (ScheduleRepo.get _ _ _); [|done].
  destruct (_ !! _); [|done]. by intros [= <-].
Qed.
Lemma by_nominal_None i t s : ScheduleRepo.get_occurrence_by_nominal i t s = Ok None →
  ScheduleRepo._occurrence_keys s !! (i, t) = None.
Proof. unfold ScheduleRepo.get_occurrence_by_nominal. destruct (_ !! _); [|done]. by destruct (ScheduleRepo.occurrence_of _ _). Qed.
Lemma by_nominal_Some i t s o : inv s → ScheduleRepo.get_occurrence_by_nominal i t s = Ok (Some o) →
  o ∈ ScheduleRepo._occurrences s ∧ Occurrence.schedule_id o = i ∧ Occurrence.nominal_fire_at o = t ∧
  Occurrence.trigger o = SCHEDULED.
Proof.
  intros I. unfold ScheduleRepo.get_occurrence_by_nominal. destruct (_ !! _) as [id|] eqn:E; [|done].
  apply (inv_keys _ I) in E as (o' & Ho & Hid & Hs & Ht & Htr).
  rewrite (occurrence_of_mem _ _ _ (inv_occurrence_ids _ I) Ho Hid). by intros [= <-].
Qed.

(** What a decision leaves: the row, a schedule that is no longer due, and everything ahead. *)
Definition decided_once (schedule : Schedule.t) (revision : Revision.t) (first nominal now : datetime) (o : Occurrence.t)
    (s s' : ScheduleRepo.t) : Prop :=
  let i := Schedule.id schedule in
  o ∉ ScheduleRepo._occurrences s ∧
  ScheduleRepo._occurrences s' = (ScheduleRepo._occurrences s ++ [o])%list ∧
  Occurrence.schedule_id o = i ∧ Occurrence.trigger o = SCHEDULED ∧ Occurrence.nominal_fire_at o = nominal ∧
  first <= nominal <= now ∧ ScheduleRepo.lock_due i now s' = None ∧
  (∃ advanced, ScheduleRepo._schedules s' !! i = Some advanced ∧ advances schedule revision now advanced) ∧
  ScheduleRepo.latest_occurrence_at_or_before i now s' = Some o ∧ inv s' ∧ ahead s'.
Lemma decided_is_once zone_known schedule revision first nominal now o advanced s s' :
  inv s → ahead s → cadence_valid zone_known (Revision.cadence revision) = true →
  Schedule.next_fire_at schedule = Some first → first <= nominal <= now →
  fired_as schedule revision nominal now o advanced → decided schedule o advanced s s' →
  decided_once schedule revision first nominal now o s s'.
Proof.
  intros I A V Hf Hn (Hi & Ho & Ht & Hnext) (Hins & Hrow & Hid & Hcur & ->).
  pose proof (with_occurrence_inv o s I Hins) as I1. destruct Hins as (_ & _ & _ & _ & Hnew).
  assert (∀ t, Schedule.next_fire_at advanced = Some t → now < t) as Hlater.
  { intros t. by eapply advances_later. }
  assert (∀ o', o' ∈ ScheduleRepo._occurrences s → Occurrence.schedule_id o' = Schedule.id schedule →
    Occurrence.trigger o' = SCHEDULED → Occurrence.nominal_fire_at o' < first) as Hbefore.
  { intros o' Ho' Hs' Ht'. by eapply (A (Schedule.id schedule) schedule). }
  split_and!; try done; try lia.
  - contradict Hnew. by apply list_elem_of_fmap_2.
  - unfold ScheduleRepo.lock_due, ScheduleRepo.is_due, ScheduleRepo.firing. cbn. rewrite Hid, lookup_insert_eq.
    case_bool_decide; [|done]. destruct (Schedule.next_fire_at advanced) as [t|] eqn:E; [|done].
    specialize (Hlater t eq_refl). by destruct (Z.leb_spec t now); [lia|].
  - exists advanced. split; [|done]. cbn. by rewrite Hid, lookup_insert_eq.
  - unfold ScheduleRepo.latest_occurrence_at_or_before. cbn. apply latest_of_last.
    + rewrite elem_List_filter, elem_of_app, list_elem_of_singleton. split; [by right|].
      unfold ScheduleRepo.of_schedule. rewrite !bool_decide_true by done. cbn. apply Z.leb_le. lia.
    + intros o' [Ho' E]%elem_List_filter. unfold ScheduleRepo.of_schedule in E.
      rewrite !andb_true_iff, !bool_decide_eq_true in E. destruct E as [[E1 E2] _].
      apply elem_of_app in Ho' as [Ho'|Ho'%list_elem_of_singleton]; [left|by right].
      unfold Occurrence.key. cbn. specialize (Hbefore o' Ho' E1 E2). lia.
  - by apply (put_inv schedule).
  - intros i x t o' Hx Hxt Ho' Hi' Ht'. cbn in Hx, Ho'. apply elem_of_app in Ho'.
    apply lookup_insert_Some in Hx as [[E <-]|[E Hx]].
    + specialize (Hlater t Hxt). destruct Ho' as [Ho'|Ho'%list_elem_of_singleton]; [|subst o'; lia].
      specialize (Hbefore o' Ho' ltac:(congruence) Ht'). lia.
    + destruct Ho' as [Ho'|Ho'%list_elem_of_singleton]; [by eapply (A i x)|subst o'; congruence].
Qed.

Lemma materialize_not_due i now u : ScheduleRepo.lock_due i now (schedules u) = None →
  materialize_at ZoneInfo uuid_str read_step i now u =
    (Ok (ScheduleRepo.latest_occurrence_at_or_before i now (schedules u)), u).
Proof. intros E. unfold materialize_at, mbind at 1, stateM_bind, read_schedules at 1. by rewrite E. Qed.
(** A schedule's next firing is an instant of its cadence: one that is due has been reached. *)
Definition on_cadence (schedule : Schedule.t) (revision : Revision.t) : Prop :=
  ∀ t, Schedule.next_fire_at schedule = Some t → occurs ZoneInfo (Revision.cadence revision) t.
Lemma materialize_due zone_known i now u schedule revision :
  inv (schedules u) → ahead (schedules u) → cadence_valid zone_known (Revision.cadence revision) = true →
  ScheduleRepo.lock_due i now (schedules u) = Some schedule →
  ScheduleRepo._revisions (schedules u) !! (i, Schedule.current_revision schedule) = Some revision →
  returns (λ res u', match res with
      | None => schedules u' = schedules u ∧ (admission_waits schedule revision now ∨
          Revision.call_plan revision = None ∧ ∃ nominal first, Schedule.next_fire_at schedule = Some first ∧
            latest_at_or_before ZoneInfo (Revision.cadence revision) now = Ok nominal ∧
            ∀ n, nominal = Some n → n < first)
      | Some o => ∃ first nominal, Schedule.next_fire_at schedule = Some first ∧
          (if bool_decide (Revision.call_plan revision = None)
           then latest_at_or_before ZoneInfo (Revision.cadence revision) now
           else Ok (Some first)) = Ok (Some nominal) ∧
          decided_once schedule revision first nominal now o (schedules u) (schedules u')
      end)
    (materialize_at ZoneInfo uuid_str read_step i now) u.
Proof.
  intros I A V Hdue Hcurrent. destruct (lock_due_Some _ _ _ _ Hdue) as (Hrow & _ & first & Hfirst & Hle).
  pose proof (inv_ids _ I _ _ Hrow) as Hid. unfold materialize_at. apply returns_read. rewrite Hdue. intros _ [= <-].
  apply returns_read. intros r Hrev%get_revision_Ok. rewrite Hid, Hcurrent in Hrev. injection Hrev as <-.
  apply returns_lift. intros nominal Hnom. rewrite Hfirst in *. destruct nominal as [nominal|].
  2:{ apply returns_ret. split; [done|]. case_bool_decide; [|done]. right. split; [done|]. by exists None, first. }
  destruct (Z.ltb_spec nominal first).
  { apply returns_ret. split; [done|]. case_bool_decide; [|injection Hnom; lia]. right. split; [done|].
    exists (Some nominal), first. split_and!; [done..|]. by intros n [= <-]. }
  assert (nominal <= now) as Hnow.
  { case_bool_decide; [by eapply latest_no_later|]. injection Hnom as <-. done. }
  apply returns_read. intros [existing|] Hex.
  - apply (by_nominal_Some _ _ _ _ I) in Hex as (Ho & Hs & Hn & Ht). rewrite Hid in Hs.
    pose proof (A i schedule first existing Hrow Hfirst Ho Hs Ht). lia.
  - eapply wp_mono; [apply fire_effect, by_nominal_None, Hex|]. intros q u' Hq res ->. specialize (Hq res eq_refl).
    destruct res as [o|]; [|naive_solver]. destruct Hq as (advanced & Hf & Hd). exists first, nominal.
    split_and!; [done..|]. by eapply decided_is_once.
Qed.
Lemma on_cadence_reached zone_known schedule revision now first nominal :
  cadence_valid zone_known (Revision.cadence revision) = true →
  (∀ t z, civil_part (Revision.cadence revision) = Some (t, z) → orderly (ZoneInfo z)) →
  on_cadence schedule revision → Schedule.next_fire_at schedule = Some first → first <= now →
  latest_at_or_before ZoneInfo (Revision.cadence revision) now = Ok nominal → ∃ n, nominal = Some n ∧ first <= n.
Proof.
  intros V Hz Hc Hf Hle E%(latest_nearest _ zone_known); [|done..]. specialize (Hc _ Hf). unfold nearest, until in E.
  destruct nominal as [n|]; [|specialize (E first Hc); lia]. exists n. split; [done|].
  destruct E as (_ & _ & E). specialize (E first Hc). lia.
Qed.

(** The instant chosen is the latest that is due. *)
Lemma chosen_latest_due zone_known schedule revision now first nominal :
  cadence_valid zone_known (Revision.cadence revision) = true →
  (∀ t z, civil_part (Revision.cadence revision) = Some (t, z) → orderly (ZoneInfo z)) →
  Schedule.next_fire_at schedule = Some first → nominal <= now →
  (if bool_decide (Revision.call_plan revision = None)
   then latest_at_or_before ZoneInfo (Revision.cadence revision) now else Ok (Some first)) = Ok (Some nominal) →
  latest_due schedule revision now nominal.
Proof.
  intros V Hz Hf Hle. unfold latest_due. destruct (Revision.call_plan revision) as [plan|].
  - rewrite bool_decide_false by done. by intros [= ->].
  - rewrite bool_decide_true by done. intros (Ho & _ & Hmax)%(latest_nearest _ zone_known); [|done..].
    split_and!; [done..|]. intros t Ht Hn. specialize (Hmax t Ht (proj2 (Z.leb_le _ _) Hn)). lia.
Qed.

End firing.
