(* ===== verification/ScheduleSafety.v ===== *)
(** * What starts a scheduled run

    The worlds behind the materializer's ports are given the laws of what they stand for:
    only the run repository and the queue launch a run, and nothing but time changes who may
    do what. Then every run a schedule starts - on its cadence, on request, or for a Cockpit -
    is one its owner may start at that moment, and no other. *)
From S2P Require Import Prelude PyDecimal EventModel RunModel Sessions Messages StateLogic Calendar Recurrence.
From S2P Require Import Schedules ScheduleStore ScheduleStoreSpec ProcessEvents CallPlans Materializer MaterializerSpec.

(** What can be seen of a world: the runs launched, the authorities, and which runs are over. *)
Class ScheduleView (W : Type) := {
  launched : W → list Run;
  authority_of : W → string → string → option AuthoritySnapshot;
  run_over : W → UUID → bool;
}.
Definition still {W} `{ScheduleView W} (w w' : W) : Prop :=
  launched w' = launched w ∧ authority_of w' = authority_of w ∧ run_over w' = run_over w.
Class ScheduleLaws (W : Type) `{SchedulePorts W, ScheduleView W} : Prop := {
  clock_still w : still w (clock_now w).2;
  ids_still w : still w (new_id w).2;
  runs_get_still i p w : still w (runs_get i p w).2;
  principals_still a b w : still w (principals_current a b w).2;
  agents_still i v w : still w (agents_get_version i v w).2;
  admission_still t r now w : still w (admission_check t r now w).2;
  sessions_create_still s w : still w (sessions_create s w).2;
  events_append_still e w : still w (events_append e w).2;
  seed_sequence_still i n w : still w (set_seed_event_sequence i n w).2;
  seed_checkpoint_still r n p w : still w (seed_checkpoint r n p w).2;
  probe_still b w : still w (write_probe b w).2;
  notify_still notify s o r w : notify_occurrence = Some notify → still w (notify s o r w).2;
  (** What is read is what is there. *)
  runs_get_over i p w r w' : runs_get i p w = (Ok r, w') → run_over w i = is_terminal (RunModel.status r);
  principals_exact t p w a w' : principals_current t p w = (Ok a, w') → a = authority_of w t p;
  (** Creating a run launches it, or fails and launches nothing. *)
  create_launches r w : authority_of (runs_create r w).2 = authority_of w ∧
    (launched (runs_create r w).2 = launched w ∨ launched (runs_create r w).2 = (launched w ++ [r])%list);
  enqueue_launches enqueue r p t w : queue_enqueue = Some enqueue →
    authority_of (enqueue r p t w).2 = authority_of w ∧
    (launched (enqueue r p t w).2 = launched w ∨ launched (enqueue r p t w).2 = (launched w ++ [r])%list);
}.

Section safety.
Context {W : Type} `{ScheduleLaws W} (ZoneInfo : string → Zone) (uuid_str : UUID → string).
Context (read_step : json → result CallPlanStep).
Abbreviation M := (stateM (Uow W)).

(** ** What keeps the world still *)
Definition quiet (u u' : Uow W) : Prop := still (world u) (world u').
#[global] Instance quiet_preorder : PreOrder quiet.
Proof. split; [done|]. intros a b c (? & ? & ?) (? & ? & ?). split_and!; congruence. Qed.
Lemma quiet_on_world {A} (f : W → result A * W) : (∀ w, still w (f w).2) → keeps quiet (on_world f).
Proof. intros Hf u. unfold on_world, quiet. specialize (Hf (world u)). by destruct (f (world u)). Qed.
Lemma quiet_total {A} (f : W → A * W) : (∀ w, still w (f w).2) → keeps quiet (on_world (total f)).
Proof. intros Hf. apply quiet_on_world. intros w. unfold total. specialize (Hf w). by destruct (f w). Qed.
Lemma quiet_now : keeps quiet now_.
Proof. apply quiet_total, clock_still. Qed.
Lemma quiet_fresh : keeps quiet fresh.
Proof. apply quiet_total, ids_still. Qed.
Lemma quiet_probe b : keeps quiet (probe b).
Proof. apply quiet_on_world, probe_still. Qed.
Lemma quiet_append e : keeps quiet (append_event e).
Proof. intros u. unfold append_event, quiet. by destruct (ProcessEventRepo.append e (process_events u)). Qed.
Lemma quiet_on_schedules {A} (f : ScheduleRepo.t → result A * ScheduleRepo.t) : keeps quiet (on_schedules f).
Proof. intros u. unfold on_schedules, quiet. by destruct (f (schedules u)). Qed.
Lemma quiet_read {A} (f : ScheduleRepo.t → result A) : keeps quiet (read_schedules f).
Proof. by intros u. Qed.
Lemma quiet_runs_get i p : keeps quiet (on_world (runs_get i p)).
Proof. apply quiet_on_world, runs_get_still. Qed.
Lemma quiet_principals a b : keeps quiet (on_world (principals_current a b)).
Proof. apply quiet_on_world, principals_still. Qed.
Lemma quiet_admission t r now : keeps quiet (on_world (admission_check t r now)).
Proof. apply quiet_on_world, admission_still. Qed.
Lemma quiet_session s : keeps quiet (on_world (sessions_create s)).
Proof. apply quiet_on_world, sessions_create_still. Qed.
Lemma quiet_event e : keeps quiet (on_world (events_append e)).
Proof. apply quiet_on_world, events_append_still. Qed.
Lemma quiet_seed i n : keeps quiet (on_world (set_seed_event_sequence i n)).
Proof. apply quiet_on_world, seed_sequence_still. Qed.
Lemma quiet_checkpoint r n p : keeps quiet (on_world (seed_checkpoint r n p)).
Proof. apply quiet_on_world, seed_checkpoint_still. Qed.
Lemma quiet_find_agent r : keeps quiet (find_agent r : M (option AgentPin)).
Proof.
  intros u. unfold find_agent.
  pose proof (quiet_on_world (agents_get_version (Revision.agent_id r) (Revision.agent_version r)) (agents_still _ _) u) as K.
  destruct (on_world _ u) as [[|[]]]; done.
Qed.
Hint Resolve quiet_now quiet_fresh quiet_probe quiet_append quiet_on_schedules quiet_read quiet_runs_get quiet_principals
  quiet_admission quiet_session quiet_event quiet_seed quiet_checkpoint quiet_find_agent : keeps.
Lemma quiet_in_flight s : keeps quiet (in_flight s : M bool).
Proof. unfold in_flight. keeps. Qed.
Lemma quiet_occurrence_event o s st now : keeps quiet (_append_occurrence_event uuid_str o s st now : M unit).
Proof. unfold _append_occurrence_event. keeps. Qed.
Lemma quiet_coalesced s r a b now : keeps quiet (_append_coalesced_misfires ZoneInfo uuid_str s r a b now : M unit).
Proof. unfold _append_coalesced_misfires. keeps. Qed.
Hint Resolve quiet_in_flight quiet_occurrence_event quiet_coalesced : keeps.
Lemma quiet_judge s r nominal now : keeps quiet (judge s r nominal now : M Verdict).
Proof. unfold judge. keeps. Qed.
Lemma quiet_plan_start s r : keeps quiet (plan_start uuid_str read_step s r : M (option Start)).
Proof. unfold plan_start, _materialized_count. keeps. Qed.
Lemma quiet_checks s r now : keeps quiet (_manual_start_checks s r now : M (AuthoritySnapshot * AgentPin)).
Proof. unfold _manual_start_checks. cbv zeta. keeps. Qed.
Lemma quiet_record_failure s r nominal next now why :
  keeps quiet (_record_failure uuid_str s r nominal next now why : M Occurrence.t).
Proof.
  unfold _record_failure. do 4 (apply keeps_bind; [apply _|solve [keeps]|intros ?]).
  cbv zeta. do 2 (apply keeps_bind; [apply _|solve [keeps]|intros ?]). apply keeps_bind; [apply _| |intros ?].
  - destruct notify_occurrence as [notify|] eqn:E; [|keeps]. destruct (tells_owner why); [|keeps]. unfold producer.
    apply keeps_bind; [apply _| |intros []; keeps]. apply keeps_bind; [apply _| |intros [p [e|]]; keeps].
    apply quiet_on_world. intros w. by eapply notify_still.
  - keeps.
Qed.
Lemma quiet_try_checks s r now : keeps quiet (try_checks s r now : M ((AuthoritySnapshot * AgentPin) + string)).
Proof.
  intros u. unfold try_checks. pose proof (quiet_checks s r now u) as K. destruct (_manual_start_checks s r now u) as [[|e] u']; [done|].
  by destruct (refused_reason_of e).
Qed.
Lemma quiet_lock_found i p : keeps quiet (lock_found i p : M (option Schedule.t)).
Proof. intros u. unfold lock_found. by destruct (ScheduleRepo.lock i p (schedules u)) as [|[]]. Qed.

(** ** Who may start a run of a schedule, and when *)
Definition may_run (u : Uow W) (schedule : Schedule.t) (revision : Revision.t) (a : AuthoritySnapshot) : Prop :=
  authority_of (world u) (Schedule.tenant_id schedule) (Schedule.principal_id schedule) = Some a ∧
  authority_enabled a = true ∧ Revision.requested_scopes revision ⊆ Principal.scopes (authority_principal a).
(** The run of the latest occurrence is over. *)
Definition free (u : Uow W) (schedule : Schedule.t) : Prop := ∀ o i,
  ScheduleRepo.latest_materialized_occurrence (Schedule.id schedule) (schedules u) = Some o →
  Occurrence.run_id o = Some i → run_over (world u) i = true.
Definition stored (s : ScheduleRepo.t) (schedule : Schedule.t) : Prop := ∃ i, ScheduleRepo._schedules s !! i = Some schedule.
Definition current (s : ScheduleRepo.t) (schedule : Schedule.t) (revision : Revision.t) : Prop :=
  stored s schedule ∧ ScheduleRepo._revisions s !! (Schedule.id schedule, Schedule.current_revision schedule) = Some revision.
(** A run that a schedule of [u] may start at [now]. *)
Definition may_start (u : Uow W) (now : datetime) (run : Run) : Prop := ∃ schedule revision a,
  current (schedules u) schedule revision ∧ may_run u schedule revision a ∧ free u schedule ∧
  RunModel.tenant_id run = Schedule.tenant_id schedule ∧ RunModel.status run = QUEUED ∧
  principal_scopes run ⊆ Revision.requested_scopes revision ∧
  RunModel.limits run =
    (Revision.limits revision) <| deadline_at := Some (now + seconds (Revision.run_timeout_seconds revision)) |>.
(** No run was launched, or one that might be. *)
Definition guarded (u : Uow W) (now : datetime) (u' : Uow W) : Prop :=
  authority_of (world u') = authority_of (world u) ∧
  (launched (world u') = launched (world u) ∨
   ∃ run, launched (world u') = (launched (world u) ++ [run])%list ∧ may_start u now run).
Lemma quiet_guarded u now u' : quiet u u' → guarded u now u'.
Proof. intros (L & A & _). split; [done|by left]. Qed.
Lemma guarded_quiet u now u1 u2 : guarded u now u1 → quiet u1 u2 → guarded u now u2.
Proof.
  intros [Ha Hl] (L & A & _). split; [congruence|]. destruct Hl as [Hl|(run & Hl & Hm)]; [left; congruence|right].
  exists run. split; [congruence|done].
Qed.
Lemma wp_rest {A} (m : M A) u0 now u : keeps quiet m → guarded u0 now u → wp m (λ _ u', guarded u0 now u') u.
Proof. intros Hm Hg. apply (wp_keeps quiet); [done|]. intros _ u' Hq. by eapply guarded_quiet. Qed.
(** The steps before a launch. *)
Lemma wp_before {A B} (m : M A) (k : A → M B) u0 now u : keeps quiet m → quiet u0 u →
  (∀ a u', quiet u0 u' → wp (k a) (λ _ u', guarded u0 now u') u') → wp (m ≫= k) (λ _ u', guarded u0 now u') u.
Proof.
  intros Hm Hu Hk. apply (wp_after quiet); [done| |].
  - intros a u' Hq. apply Hk. by etrans.
  - intros e u' Hq. apply quiet_guarded. by etrans.
Qed.
Lemma checked_datetime_Ok t t' : checked_datetime t = Ok t' → t' = t.
Proof. unfold checked_datetime. destruct (_ && _); [|done]. by intros [= <-]. Qed.
Lemma wp_launch run u0 now u : quiet u0 u → may_start u0 now run →
  wp (match queue_enqueue with
      | None => on_world (runs_create run)
      | Some enqueue => on_world (enqueue run (priority run) now)
      end) (λ _ u', guarded u0 now u') u.
Proof.
  intros (L & A & _) Hm. unfold wp, guarded, on_world. destruct queue_enqueue as [enqueue|] eqn:E.
  - destruct (enqueue_launches enqueue run (priority run) now (world u) E) as [A' L'].
    destruct (enqueue run (priority run) now (world u)) as [r w]. cbn in *. split; [congruence|].
    destruct L' as [L'|L']; [left; congruence|right; exists run; split; [congruence|done]].
  - destruct (create_launches run (world u)) as [A' L'].
    destruct (runs_create run (world u)) as [r w]. cbn in *. split; [congruence|].
    destruct L' as [L'|L']; [left; congruence|right; exists run; split; [congruence|done]].
Qed.
Lemma start_run_guarded schedule revision agent authority nominal now start a u0 u :
  quiet u0 u → current (schedules u0) schedule revision → may_run u0 schedule revision a → free u0 schedule →
  st_scopes start ⊆ Revision.requested_scopes revision →
  wp (_start_run uuid_str schedule revision agent authority nominal now start : M Occurrence.t) (λ _ u', guarded u0 now u') u.
Proof.
  intros Hu Hc Hr Hf Hs. unfold _start_run. do 3 (apply wp_before; [eauto with keeps|done|]; clear u Hu; intros ? u Hu).
  apply wp_before; [apply keeps_lift, _|done|]. clear u Hu. intros o u Hu.
  do 6 (apply wp_before; [eauto with keeps|done|]; clear u Hu; intros ? u Hu).
  apply wp_bind, wp_lift. destruct (checked_datetime _) as [deadline|e] eqn:E; [|by apply quiet_guarded].
  apply checked_datetime_Ok in E as ->. apply wp_bind, wp_lift.
  destruct (deadline_matches_limits _) as [run|e] eqn:E; [|by apply quiet_guarded].
  apply raise_if_ok in E as [_ E]. injection E as <-. apply wp_bind. eapply wp_mono.
  - apply wp_launch; [done|]. exists schedule, revision, a. by split_and!.
  - intros [[]|e] u' Hg; [|done]. apply wp_rest; [keeps|done].
Qed.

(** ** What the checks establish *)
Lemma quiet_free u u' schedule : quiet u u' → schedules u' = schedules u → free u' schedule → free u schedule.
Proof. intros (_ & _ & R) E F o i Ho Hi. rewrite <- R. apply (F o); [by rewrite E|done]. Qed.
Lemma quiet_may_run u u' schedule revision a : quiet u u' → may_run u' schedule revision a → may_run u schedule revision a.
Proof. intros (_ & A & _) (? & ? & ?). split_and!; [by rewrite <- A|done..]. Qed.
Definition seen (u u' : Uow W) : Prop := quiet u u' ∧ schedules u' = schedules u.
#[global] Instance seen_preorder : PreOrder seen.
Proof. split; [by split|]. intros a b c [Q1 S1] [Q2 S2]. split; [by etrans|congruence]. Qed.
Lemma keeps_seen {A} (m : M A) : keeps quiet m → keeps world_only m → keeps seen m.
Proof. intros Hq Hw u. split; [apply Hq|apply Hw]. Qed.
Lemma in_flight_free schedule u : wp (in_flight schedule) (λ r u', seen u u' ∧ (r = Ok false → free u schedule)) u.
Proof.
  split; [apply keeps_seen; [apply quiet_in_flight|apply keeps_in_flight]|]. intros E o i Ho Hi.
  unfold in_flight, mbind at 1, stateM_bind, read_schedules in E. rewrite Ho in E. cbn in E. rewrite Hi in E.
  unfold mbind, stateM_bind, on_world in E. destruct (runs_get i (owner_of schedule) (world u)) as [[run|] w] eqn:Er; [|done].
  cbn in E. injection E as E%negb_false_iff. by rewrite (runs_get_over _ _ _ _ _ Er).
Qed.
Lemma principals_seen t p u : wp (on_world (principals_current t p))
  (λ r u', seen u u' ∧ ∀ a, r = Ok a → a = authority_of (world u) t p) u.
Proof.
  split; [apply keeps_seen; [apply quiet_principals|apply keeps_on_world]|]. unfold on_world.
  destruct (principals_current t p (world u)) as [r w] eqn:E. cbn. intros a ->. by apply principals_exact in E.
Qed.
Lemma judge_admits schedule revision nominal now u : wp (judge schedule revision nominal now)
  (λ r u', seen u u' ∧ ∀ a agent, r = Ok (Allowed a agent) → may_run u schedule revision a ∧ free u schedule) u.
Proof.
  apply wp_conj; [apply keeps_seen; [apply quiet_judge|apply keeps_judge]|]. unfold judge.
  apply wp_bind. eapply wp_mono; [apply in_flight_free|]. intros [[]|e] u1 [Hs1 Hfree]; [by apply wp_ret| |done].
  specialize (Hfree eq_refl). apply wp_bind, wp_lift. destruct (checked_datetime _) as [latest|]; [|done].
  destruct (_ <? _); [by apply wp_ret|]. apply wp_bind. eapply wp_mono; [apply principals_seen|].
  intros [[authority|]|e] u2 [Hs2 Ha]; [|by apply wp_ret|done]. specialize (Ha _ eq_refl). cbv zeta.
  destruct (authority_enabled authority) eqn:Een; [|by apply wp_ret]. case_bool_decide as Hsub; [|by apply wp_ret]. cbn [negb].
  destruct Hs1 as [Q1 _]. pose proof (quiet_may_run u u1 schedule revision authority Q1 ltac:(by split_and!)) as Hmay.
  eapply (wp_mono _ (λ r _, ∀ v, r = Ok v → ∀ a agent, v = Allowed a agent → a = authority)).
  { apply wp_value, yields_bind_any. intros [agent|]; [|apply yields_ret; intros ? ? [=]].
    destruct (negb _); [apply yields_ret; intros ? ? [=]|]. apply yields_bind_any. intros d. destruct (admission_outcome d).
    - apply yields_ret. by intros ? ? [= -> _].
    - apply yields_ret. intros ? ? [=].
    - destruct (admission_reason d); [|apply yields_raise]. apply yields_ret. intros ? ? [=]. }
  intros r u3 Hr a agent ->. by rewrite (Hr _ eq_refl a agent eq_refl).
Qed.
Lemma checks_admit schedule revision now u : wp (_manual_start_checks schedule revision now)
  (λ r u', seen u u' ∧ ∀ c, r = Ok c → may_run u schedule revision c.1) u.
Proof.
  apply wp_conj; [apply keeps_seen; [apply quiet_checks|apply keeps_start_checks]|]. unfold _manual_start_checks. cbv zeta.
  apply wp_bind. eapply wp_mono; [apply principals_seen|].
  intros [[authority|]|e] u1 [Hs1 Ha]; [|done|done]. specialize (Ha _ eq_refl).
  destruct (authority_enabled authority) eqn:Een; [|done]. case_bool_decide as Hsub; [|done]. cbn [negb].
  eapply (wp_mono _ (λ r _, ∀ c, r = Ok c → c.1 = authority)).
  { apply wp_value, yields_bind_any. intros [agent|]; [|apply yields_raise]. destruct (negb _); [apply yields_raise|].
    apply yields_bind_any. intros d. destruct (admission_outcome d); [by apply yields_ret|apply yields_raise..]. }
  intros r u3 Hr c ->. rewrite (Hr _ eq_refl). by split_and!.
Qed.

(** ** Firing, and starting on request *)
Lemma plan_start_scopes schedule revision :
  yields (λ start, ∀ x, start = Some x → st_scopes x ⊆ Revision.requested_scopes revision)
    (plan_start uuid_str read_step schedule revision : M (option Start)).
Proof.
  unfold plan_start. destruct (Revision.call_plan revision) as [plan|]; [|by apply yields_ret; intros x [= <-]].
  apply yields_bind_any. intros count. apply yields_bind_any. intros [step|]; [|by apply yields_ret].
  destruct (Revision.cadence revision); try apply yields_raise. apply yields_bind_any. intros note.
  apply yields_ret. intros x [= <-]. cbn. case_bool_decide; [apply empty_subseteq|done].
Qed.
Lemma wp_seen {A B} (P : A → Prop) (m : M A) (k : A → M B) u0 now u : seen u0 u →
  wp m (λ r u', seen u u' ∧ ∀ a, r = Ok a → P a) u →
  (∀ a u', seen u0 u' → P a → wp (k a) (λ _ u', guarded u0 now u') u') → wp (m ≫= k) (λ _ u', guarded u0 now u') u.
Proof.
  intros Hu Hm Hk. apply wp_bind. eapply wp_mono; [apply Hm|]. intros [a|e] u' [Hs Hp].
  - apply Hk; [exact (transitivity Hu Hs)|by apply Hp].
  - apply quiet_guarded. destruct Hu as [Q _], Hs as [Q' _]. exact (transitivity Q Q').
Qed.
Lemma seen_read {A} (f : ScheduleRepo.t → result A) u :
  wp (read_schedules f) (λ r u', seen u u' ∧ ∀ a, r = Ok a → f (schedules u) = Ok a) u.
Proof. by split. Qed.
Lemma seen_read_any {A} (f : ScheduleRepo.t → result A) u :
  wp (read_schedules f) (λ r u', seen u u' ∧ ∀ a, r = Ok a → True) u.
Proof. by split. Qed.
Lemma seen_lift {A} (r : result A) u : wp (lift r) (λ r' u', seen u u' ∧ ∀ a, r' = Ok a → r = Ok a) u.
Proof. by split. Qed.
Lemma seen_quiet u0 u u1 : seen u0 u → seen u u1 → quiet u0 u1.
Proof. intros [Q _] [Q' _]. exact (transitivity Q Q'). Qed.
Lemma fire_guarded schedule revision first nominal now u0 u :
  seen u0 u → current (schedules u0) schedule revision →
  wp (fire ZoneInfo uuid_str read_step schedule revision first nominal now) (λ _ u', guarded u0 now u') u.
Proof.
  intros Hu Hc. unfold fire. eapply wp_seen; [done|apply seen_lift|]. clear u Hu. intros next u Hu _.
  apply (wp_seen (λ _, True)); [done| |].
  { apply wp_conj; [|done]. split; [apply quiet_coalesced|apply (keeps_coalesced ZoneInfo uuid_str)]. }
  clear u Hu. intros _ u Hu _. apply wp_bind. eapply wp_mono; [apply judge_admits|].
  intros [[why| |authority agent]|e] u1 [Hs Hadm].
  - apply wp_before; [apply quiet_record_failure| |]; [by eapply seen_quiet|]. intros o u2 Hq.
    apply wp_ret. by apply quiet_guarded.
  - apply wp_ret, quiet_guarded. by eapply seen_quiet.
  - destruct (Hadm authority agent eq_refl) as [Hmay Hfree]. destruct Hu as [Q0 S0].
    apply (quiet_may_run u0) in Hmay; [|done]. apply (quiet_free u0) in Hfree; [|done..].
    pose proof (seen_quiet _ _ _ (conj Q0 S0) Hs) as Q1. clear Hs Hadm Q0 S0 u. apply wp_bind.
    eapply wp_mono; [apply wp_yields; [apply quiet_plan_start|apply plan_start_scopes]|].
    intros [[start|]|e] u2 [Q2 Hscopes]; [| |apply quiet_guarded; exact (transitivity Q1 Q2)].
    2:{ apply wp_before; [apply quiet_record_failure|exact (transitivity Q1 Q2)|]. intros o u3 Hq. apply wp_ret. by apply quiet_guarded. }
    specialize (Hscopes _ eq_refl start eq_refl). apply wp_bind. eapply wp_mono.
    + eapply start_run_guarded; [exact (transitivity Q1 Q2)|done..].
    + intros [o|e] u3 Hg; [|done]. cbv zeta. apply wp_rest; [keeps|done].
  - apply quiet_guarded. by eapply seen_quiet.
Qed.
Hint Resolve quiet_judge quiet_checks quiet_try_checks quiet_lock_found : keeps.

Lemma materialize_guarded i now u : guarded u now (materialize_at ZoneInfo uuid_str read_step i now u).2.
Proof.
  change (wp (materialize_at ZoneInfo uuid_str read_step i now) (λ _ u', guarded u now u') u). unfold materialize_at.
  eapply wp_seen; [done|apply seen_read|]. intros [schedule|] u1 Hu Hdue; [|by apply quiet_guarded; destruct Hu].
  eapply wp_seen; [done|apply seen_read|]. intros revision u2 Hu2 Hrev.
  assert (current (schedules u) schedule revision) as Hc.
  { destruct Hu as [_ E]. rewrite <- E. apply get_revision_Ok in Hrev. injection Hdue as Hdue.
    apply lock_due_Some in Hdue as [Hrow _]. split; [exists i; by rewrite E|done]. }
  clear u1 Hu Hdue Hrev. rename u2 into u1, Hu2 into Hu.
  eapply wp_seen; [done|apply seen_lift|]. clear u1 Hu. intros [nominal|] u1 Hu _; [|by apply quiet_guarded; destruct Hu].
  destruct (Schedule.next_fire_at schedule) as [first|]; [|by apply quiet_guarded; destruct Hu].
  destruct (_ <? _); [by apply quiet_guarded; destruct Hu|].
  apply (wp_seen (λ _, True)); [done|apply seen_read_any|]. clear u1 Hu. intros [o|] u1 Hu _; [by apply quiet_guarded; destruct Hu|].
  by apply fire_guarded.
Qed.
Lemma get_stored i p s x : ScheduleRepo.get i p s = Ok x → stored s x.
Proof.
  unfold ScheduleRepo.get. destruct (_ !! _) eqn:E; [|done]. destruct (schedule_owned_by _ _); [|done].
  intros [= <-]. by exists i.
Qed.
Lemma start_on_request_guarded schedule revision key now checks u0 u :
  quiet u0 u → current (schedules u0) schedule revision → may_run u0 schedule revision checks.1 → free u0 schedule →
  wp (start_on_request uuid_str schedule revision key now checks : M Occurrence.t) (λ _ u', guarded u0 now u') u.
Proof.
  intros Hq Hc Hm Hf. unfold start_on_request. apply wp_bind. eapply wp_mono; [by eapply start_run_guarded|].
  intros [o|e] u' Hg; [|done]. apply wp_rest; [keeps|done].
Qed.
Lemma manual_guarded principal i expected_revision key now u :
  guarded u now (materialize_manual_at uuid_str principal i expected_revision key now u).2.
Proof.
  change (wp (materialize_manual_at uuid_str principal i expected_revision key now) (λ _ u', guarded u now u') u).
  unfold materialize_manual_at. eapply wp_seen; [done|apply seen_read|]. intros schedule u1 Hu Hlock%get_stored.
  apply (wp_seen (λ _, True)); [done|apply seen_read_any|]. clear u1 Hu. intros [o|] u1 Hu _; [by apply quiet_guarded; destruct Hu|].
  destruct (negb _); [by apply quiet_guarded; destruct Hu|]. destruct (negb _); [by apply quiet_guarded; destruct Hu|].
  eapply wp_seen; [done|apply seen_read|]. intros revision u2 Hu2 Hrev%get_revision_Ok.
  assert (current (schedules u) schedule revision) as Hc by (split; [done|]; destruct Hu as [_ <-]; done).
  clear u1 Hu Hrev. rename u2 into u1, Hu2 into Hu.
  destruct (is_once _); [by apply quiet_guarded; destruct Hu|].
  apply (wp_seen (λ b, b = false → free u schedule)); [done| |].
  { eapply wp_mono; [apply in_flight_free|]. intros r u' [Hs Hf]. split; [done|]. intros b -> ->.
    destruct Hu as [Q S]. by apply (quiet_free u u1), Hf. }
  clear u1 Hu. intros [] u1 Hu Hfree; [by apply quiet_guarded; destruct Hu|]. specialize (Hfree eq_refl).
  eapply wp_seen; [done|apply seen_lift|]. clear u1 Hu. intros since u1 Hu _.
  apply (wp_seen (λ _, True)); [done|apply seen_read_any|]. clear u1 Hu. intros taken u1 Hu _.
  destruct (_ <=? _); [by apply quiet_guarded; destruct Hu|].
  apply (wp_seen (λ c, may_run u schedule revision c.1)); [done| |].
  { eapply wp_mono; [apply checks_admit|]. intros r u' [Hs Hm]. split; [done|]. intros c ->.
    destruct Hu as [Q _]. by apply (quiet_may_run u u1), Hm. }
  clear u1 Hu. intros checks u1 [Q _] Hm. apply wp_bind. eapply wp_mono; [by apply start_on_request_guarded|].
  intros [o|e] u2 Hg; [|done]. by apply wp_ret.
Qed.
Lemma refresh_guarded principal i key now u : guarded u now (_refresh_at uuid_str principal i key now u).2.
Proof.
  change (wp (_refresh_at uuid_str principal i key now) (λ _ u', guarded u now u') u). unfold _refresh_at. cbv zeta.
  apply (wp_seen (λ o, ∀ x, o = Some x → stored (schedules u) x)); [done| |].
  { unfold wp, lock_found. destruct (ScheduleRepo.lock i principal (schedules u)) as [x|[]] eqn:E; split; try done.
    - by intros ? [= <-] ? [= <-]; apply get_stored in E.
    - by intros ? [= <-]. }
  intros [schedule|] u1 Hu Hlock; [specialize (Hlock schedule eq_refl)|by apply quiet_guarded; destruct Hu].
  destruct (negb _); [by apply quiet_guarded; destruct Hu|].
  eapply wp_seen; [done|apply seen_read|]. intros revision u2 Hu2 Hrev%get_revision_Ok.
  assert (current (schedules u) schedule revision) as Hc by (split; [done|]; destruct Hu as [_ <-]; done).
  clear u1 Hu Hrev. rename u2 into u1, Hu2 into Hu.
  destruct (negb _); [by apply quiet_guarded; destruct Hu|].
  apply (wp_seen (λ _, True)); [done|apply seen_read_any|]. clear u1 Hu. intros latest u1 Hu _.
  apply (wp_seen (λ b, b = false → free u schedule)); [done| |].
  { eapply wp_mono; [apply in_flight_free|]. intros r u' [Hs Hf]. split; [done|]. intros b -> ->.
    destruct Hu as [Q S]. by apply (quiet_free u u1), Hf. }
  clear u1 Hu. intros [] u1 Hu Hfree; [by apply quiet_guarded; destruct Hu|]. specialize (Hfree eq_refl).
  apply (wp_seen (λ _, True)); [done|apply seen_read_any|]. clear u1 Hu. intros repeated u1 Hu _.
  destruct (_ || _); [by apply quiet_guarded; destruct Hu|].
  apply (wp_seen (λ c, ∀ checks, c = inl checks → may_run u schedule revision checks.1)); [done| |].
  { apply (wp_mono _ (λ r u', seen u1 u' ∧ ∀ c, r = Ok (inl c) → may_run u1 schedule revision c.1)).
    - unfold wp, try_checks. pose proof (checks_admit schedule revision now u1) as K. unfold wp in K.
      destruct (_manual_start_checks schedule revision now u1) as [[c|e] u']; cbn in *.
      + destruct K as [Hs K]. split; [done|]. intros c' [= <-]. by apply K.
      + destruct K as [Hs _]. destruct (refused_reason_of e); by split.
    - intros r u' [Hs Hm]. split; [done|]. intros c -> checks ->. destruct Hu as [Q _].
      by apply (quiet_may_run u u1), Hm. }
  clear u1 Hu. intros [checks|reason] u1 [Q _] Hm; [|by apply quiet_guarded]. specialize (Hm checks eq_refl).
  apply wp_bind. eapply wp_mono; [by apply start_on_request_guarded|]. intros [o|e] u2 Hg; [|done]. by apply wp_ret.
Qed.

(** C3: A scheduled run is started by somebody who may: whatever the three ways to start one do,
    they launch at most one run, in the tenant of a schedule whose owner's authority is
    enabled and covers the scopes of its current revision at that moment; the run gets none
    but those scopes, the revision's limits and a deadline; and the run of the schedule's
    latest occurrence is over. *)
Theorem scheduled_runs_authorised u now i principal expected_revision key :
  guarded u now (materialize_at ZoneInfo uuid_str read_step i now u).2 ∧
  guarded u now (materialize_manual_at uuid_str principal i expected_revision key now u).2 ∧
  guarded u now (_refresh_at uuid_str principal i key now u).2.
Proof. split_and!; [apply materialize_guarded|apply manual_guarded|apply refresh_guarded]. Qed.
End safety.
