(* ===== verification/ScheduleOutcomes.v ===== *)
(** * Outcomes are counted once

    What accounting for a scheduled run does to its schedule, case by case ([outcome_rule]),
    for which run, when there is nothing to count, and that it is done once. *)
From S2P Require Import Prelude PyDecimal RunModel Sessions Messages StateLogic Calendar Recurrence.
From S2P Require Import Schedules ScheduleStore ScheduleStoreSpec ProcessEvents CallPlans Materializer MaterializerSpec.
From S2P Require Import ScheduleAccounting.

Section outcomes.
Context {W : Type} `{SchedulePorts W} (uuid_str : UUID → string).
Abbreviation M := (stateM (Uow W)).

(** ** The log only grows *)
Definition log_grows (u u' : Uow W) : Prop := ProcessEventRepo.grows (process_events u) (process_events u').
#[global] Instance log_grows_preorder : PreOrder log_grows.
Proof. split; [intros u; unfold log_grows; reflexivity|]. intros a b c. unfold log_grows. apply transitivity. Qed.
Lemma grows_on_world {A} (f : W → result A * W) : keeps log_grows (on_world f).
Proof. intros u. unfold on_world, log_grows. by destruct (f (world u)). Qed.
Lemma grows_append e : keeps log_grows (append_event e).
Proof.
  intros u. unfold append_event, log_grows. pose proof (ProcessEventRepo.append_grows e (process_events u)) as G.
  by destruct (ProcessEventRepo.append e (process_events u)).
Qed.
Lemma grows_on_schedules {A} (f : ScheduleRepo.t → result A * ScheduleRepo.t) : keeps log_grows (on_schedules f).
Proof. intros u. unfold on_schedules, log_grows. by destruct (f (schedules u)). Qed.
Lemma grows_fresh : keeps log_grows fresh.
Proof. apply grows_on_world. Qed.
Lemma grows_now : keeps log_grows now_.
Proof. apply grows_on_world. Qed.
Lemma grows_probe b : keeps log_grows (probe b).
Proof. apply grows_on_world. Qed.
Hint Resolve grows_on_world grows_append grows_on_schedules grows_fresh grows_now grows_probe : keeps.

(** What does not touch the schedules and only adds to the log. *)
Definition logs (u u' : Uow W) : Prop := same_schedules u u' ∧ log_grows u u'.
#[global] Instance logs_preorder : PreOrder logs.
Proof. split; [intros u; split; reflexivity|]. intros a b c [] []. split; by etrans. Qed.
Lemma keeps_logs {A} (m : M A) : keeps same_schedules m → keeps log_grows m → keeps logs m.
Proof. by split. Qed.
Lemma logs_world {A} (m : M A) : keeps world_only m → keeps logs m.
Proof.
  intros Hm. eapply keeps_weaken; [exact Hm|]. intros u u' [E1 E2]. split; [done|]. unfold log_grows. by rewrite E2.
Qed.
Lemma logs_append e : keeps logs (append_event e).
Proof. apply keeps_logs; [apply keeps_process_event|apply grows_append]. Qed.
Lemma logs_on_world {A} (f : W → result A * W) : keeps logs (on_world f).
Proof. apply logs_world, keeps_on_world. Qed.
Lemma logs_probe b : keeps logs (probe b).
Proof. apply logs_on_world. Qed.
Lemma logs_fresh : keeps logs fresh.
Proof. apply logs_on_world. Qed.
Lemma logs_now : keeps logs now_.
Proof. apply logs_on_world. Qed.
Lemma logs_producer (m : M (bool * option ProcessEvent)) : keeps logs m → keeps logs (producer m).
Proof.
  intros Hm. unfold producer. apply keeps_bind; [apply _|done|]. intros [p' [e|]]; cbn; [|apply keeps_ret, _].
  apply keeps_bind; [apply _|apply logs_append|intros ?; apply keeps_ret, _].
Qed.
Lemma logs_quiet_plan_call r run p : keeps logs (_quiet_plan_call r run p : M bool).
Proof. apply logs_world. unfold _quiet_plan_call. keeps. Qed.
Hint Resolve logs_append logs_on_world logs_probe logs_fresh logs_now logs_producer logs_quiet_plan_call : keeps.
Lemma logs_tell_owner s o r run p : keeps logs (tell_owner s o r run p : M unit).
Proof. unfold tell_owner. keeps. Qed.
Lemma logs_record_outcome s o run n : keeps logs (record_outcome uuid_str s o run n : M unit).
Proof. unfold record_outcome. keeps. Qed.
Definition has (key : string) (u : Uow W) : Prop := is_Some (ProcessEventRepo.get_by_derivation key (process_events u)).
Lemma logs_has key u u' : logs u u' → has key u → has key u'.
Proof. intros [_ G] [e He]. exists e. by eapply lookup_weaken. Qed.
Lemma record_outcome_recorded s o run n (u : Uow W) :
  returns (λ _ u', has (accounted_key uuid_str o) u') (record_outcome uuid_str s o run n) u.
Proof.
  unfold record_outcome. do 3 (apply (returns_after (λ _ _, True)); [done|]; clear u; intros ? u _).
  apply (returns_bind (λ _ u', has (accounted_key uuid_str o) u')).
  - apply wp_append. intros e He. apply ProcessEventRepo.append_holds in He. by eexists.
  - intros _ u1 Hh. apply (wp_keeps world_only); [apply keeps_probe|]. intros r u2 [_ P2] b _. unfold has. by rewrite P2.
Qed.

(** ** What accounting writes *)
Lemma wp_recorded {B} key (k : bool → M B) Q u :
  (has key u → returns Q (k true) u) → (¬ has key u → returns Q (k false) u) → returns Q (recorded key ≫= k) u.
Proof. intros Ht Hf. apply wp_bind, wp_gets. unfold has in *. case_bool_decide; [by apply Ht|by apply Hf]. Qed.
Lemma returns_world {A B} (f : W → result A * W) (k : A → M B) Q (u : Uow W) :
  (∀ a w, f (world u) = (Ok a, w) → returns Q (k a) (u <| world := w |>)) → returns Q (on_world f ≫= k) u.
Proof.
  intros Hk. apply wp_bind. unfold wp, on_world. destruct (f (world u)) as [[a|e] w]; [by apply Hk|done].
Qed.
(** The rule: a run on request leaves the count alone, a success of the cadence takes it back to
    zero, a failure adds one and at the limit pauses a schedule that is active, a cancelled run
    leaves it alone; no other outcome ends a run. *)
Definition standing (x : Schedule.t) : ScheduleState * option SchedulePauseReason :=
  (Schedule.state x, Schedule.pause_reason x).
Definition outcome_rule (trigger : OccurrenceTrigger) (status : RunStatus) (limit : Z) (x x' : Schedule.t) : Prop :=
  let before := Schedule.consecutive_failures x in
  let after := Schedule.consecutive_failures x' in
  match status, trigger with
  | QUEUED, _ | RUNNING, _ | WAITING_FOR_APPROVAL, _ | WAITING_FOR_USER, _ => False
  | _, MANUAL | CANCELLED, SCHEDULED => after = before ∧ standing x' = standing x
  | COMPLETED, SCHEDULED => after = 0 ∧ standing x' = standing x
  | FAILED, SCHEDULED => after = before + 1 ∧
      (Schedule.state x = SCHEDULE_ACTIVE ∧ limit <= before + 1 → standing x' = (PAUSED, Some FAILURE_LIMIT)) ∧
      (Schedule.state x ≠ SCHEDULE_ACTIVE ∨ before + 1 < limit → standing x' = standing x)
  end.
(** What no outcome changes. *)
Definition same_schedule (x x' : Schedule.t) : Prop :=
  Schedule.id x' = Schedule.id x ∧ Schedule.tenant_id x' = Schedule.tenant_id x ∧
  Schedule.principal_id x' = Schedule.principal_id x ∧ Schedule.current_revision x' = Schedule.current_revision x ∧
  Schedule.next_fire_at x' = Schedule.next_fire_at x ∧ Schedule.created_at x' = Schedule.created_at x.
(** The run the transaction reads for an occurrence's owner. *)
Definition reads_run (run_id : UUID) (u : Uow W) (link : ScheduledRunLink) (run : Run) (w : W) : Prop :=
  runs_get run_id (owner_of_link link) (world u) = (Ok run, w).
Definition counted (run_id : UUID) (u u' : Uow W) (link : ScheduledRunLink) : Prop :=
  let o := link_occurrence link in
  o ∈ ScheduleRepo._occurrences (schedules u) ∧ Occurrence.run_id o = Some run_id ∧
  ∃ schedule revision run w now w' updated,
  ScheduleRepo._schedules (schedules u) !! Occurrence.schedule_id o = Some schedule ∧
  ScheduleRepo._revisions (schedules u) !! (Occurrence.schedule_id o, Occurrence.schedule_revision o) = Some revision ∧
  reads_run run_id u link run w ∧ clock_now w = (now, w') ∧
  ¬ has (accounted_key uuid_str o) u ∧ has (accounted_key uuid_str o) u' ∧
  outcome_rule (Occurrence.trigger o) (RunModel.status run) (Revision.max_consecutive_failures revision) schedule updated ∧
  same_schedule schedule updated ∧ Schedule.updated_at updated = now ∧
  schedules u' = ScheduleRepo.put updated (schedules u).
Lemma accounted_rule schedule revision trigger status now :
  is_terminal status = true →
  let manual := bool_decide (trigger = MANUAL) in
  let failures := counted_failures manual status (Schedule.consecutive_failures schedule) in
  outcome_rule trigger status (Revision.max_consecutive_failures revision) schedule
    (accounted schedule failures (outcome_pauses manual status failures revision schedule) now).
Proof.
  intros Hend. cbv zeta. unfold counted_failures, outcome_pauses, outcome_rule, standing, accounted.
  destruct status, trigger; try done. rewrite (bool_decide_false (SCHEDULED = MANUAL)), (bool_decide_false (FAILED = COMPLETED)),
    (bool_decide_true (FAILED = FAILED)) by done. cbn [negb andb]. split; [done|].
  destruct (Z.leb_spec (Revision.max_consecutive_failures revision) (Schedule.consecutive_failures schedule + 1)).
  - case_bool_decide as Ha; split; [done|intros [?|?]; [done|lia]|by intros []|done].
  - split; [intros []; lia|done].
Qed.
Lemma by_run_Some run_id s link : ScheduleRepo.occurrence_by_run run_id s = Ok (Some link) →
  link_occurrence link ∈ ScheduleRepo._occurrences s ∧ Occurrence.run_id (link_occurrence link) = Some run_id.
Proof.
  unfold ScheduleRepo.occurrence_by_run. destruct (List.filter _ _) as [|o [|]] eqn:E; [done| |done].
  destruct (_ !! _); [|done]. intros [= <-]. cbn.
  assert (o ∈ List.filter (λ o, bool_decide (Occurrence.run_id o = Some run_id)) (ScheduleRepo._occurrences s)) as Ho
    by (rewrite E; by left).
  apply elem_List_filter in Ho as [Ho Hr%bool_decide_eq_true]. done.
Qed.
Lemma get_row i p s x : inv s → ScheduleRepo.get i p s = Ok x → ScheduleRepo._schedules s !! i = Some x ∧ Schedule.id x = i.
Proof.
  intros I. unfold ScheduleRepo.get. destruct (_ !! _) eqn:E; [|done]. destruct (schedule_owned_by _ _); [|done].
  intros [= <-]. split; [done|]. by apply (inv_ids _ I).
Qed.
Lemma accounted_put (u : Uow W) schedule updated : inv (schedules u) →
  ScheduleRepo._schedules (schedules u) !! Schedule.id schedule = Some schedule → Schedule.id updated = Schedule.id schedule →
  returns (λ _ u', process_events u' = process_events u ∧ schedules u' = ScheduleRepo.put updated (schedules u))
    (if bool_decide (updated = schedule) then mret tt
     else _ ← on_schedules (ScheduleRepo.replace schedule updated None); probe "schedule") u.
Proof.
  intros I Hrow Hid. case_bool_decide as E.
  - apply returns_ret. split; [done|]. subst updated. unfold ScheduleRepo.put. destruct (schedules u). cbn in *.
    f_equal. symmetry. by apply insert_id.
  - apply wp_bind, wp_on_schedules. unfold ScheduleRepo.replace. rewrite Hrow, !bool_decide_true by done. cbn [negb].
    destruct (negb _); [by intros ? ?|].
    apply (wp_keeps world_only); [apply keeps_probe|]. intros r u' [E1 E2] a _. by rewrite E1, E2.
Qed.
Lemma logs_pause_event (b : bool) s a c i : keeps logs
  (if b then
     id ← fresh; event_time ← now_; created_at ← now_;
     _ ← append_event (auto_paused_event uuid_str id s PAUSED a c i event_time created_at);
     probe "auto_pause_event"
   else mret tt).
Proof. keeps. Qed.

(** ** Accounting, and accounting again *)
Lemma by_run_put run_id (u u' : Uow W) link schedule updated :
  ScheduleRepo.occurrence_by_run run_id (schedules u) = Ok (Some link) →
  ScheduleRepo._schedules (schedules u) !! Occurrence.schedule_id (link_occurrence link) = Some schedule →
  Schedule.id updated = Occurrence.schedule_id (link_occurrence link) →
  schedules u' = ScheduleRepo.put updated (schedules u) →
  ∃ link', ScheduleRepo.occurrence_by_run run_id (schedules u') = Ok (Some link') ∧
           link_occurrence link' = link_occurrence link.
Proof.
  intros Hl Hrow Hid ->. unfold ScheduleRepo.occurrence_by_run in *. cbn.
  destruct (List.filter _ _) as [|o [|]]; [done| |done]. destruct (_ !! Occurrence.schedule_id o) eqn:E; [|done].
  injection Hl as <-. cbn in *. rewrite Hid, lookup_insert_eq. by eexists.
Qed.
Lemma account_again run_id (u : Uow W) link :
  ScheduleRepo.occurrence_by_run run_id (schedules u) = Ok (Some link) →
  has (accounted_key uuid_str (link_occurrence link)) u → account uuid_str run_id u = (Ok false, u).
Proof.
  intros Hl Hh. apply transaction_Ok. unfold account_in, mbind at 1, stateM_bind, read_schedules at 1. rewrite Hl.
  unfold mbind at 1, stateM_bind, recorded, gets at 1. by rewrite bool_decide_true.
Qed.
(** Why nothing is counted: no occurrence started the run, its outcome is recorded, or it runs. *)
Definition nothing_counted (run_id : UUID) (u : Uow W) (b : bool) (u' : Uow W) : Prop :=
  b = false ∧ world_only u u' ∧
  (ScheduleRepo.occurrence_by_run run_id (schedules u) = Ok None ∨
   ∃ link, ScheduleRepo.occurrence_by_run run_id (schedules u) = Ok (Some link) ∧
     (has (accounted_key uuid_str (link_occurrence link)) u ∨
      ∃ run w, reads_run run_id u link run w ∧ is_terminal (RunModel.status run) = false)).
Lemma account_effect run_id (u : Uow W) : inv (schedules u) →
  returns (λ b u', nothing_counted run_id u b u' ∨ b = true ∧ ∃ link,
      ScheduleRepo.occurrence_by_run run_id (schedules u) = Ok (Some link) ∧ counted run_id u u' link)
    (account_in uuid_str run_id) u.
Proof.
  intros I. unfold account_in. apply returns_read. intros [link|] Hlink.
  2:{ apply returns_ret. left. split_and!; [done..|by left]. }
  cbv zeta. set (o := link_occurrence link). set (owner := owner_of_link link).
  assert (has (accounted_key uuid_str o) u → returns (λ b u', nothing_counted run_id u b u' ∨ b = true ∧ ∃ link,
    ScheduleRepo.occurrence_by_run run_id (schedules u) = Ok (Some link) ∧ counted run_id u u' link) (mret false) u) as Hold.
  { intros Hh. apply returns_ret. left. split_and!; [done..|]. right. exists link. split; [done|by left]. }
  apply wp_recorded; [exact Hold|intros Hnew].
  apply returns_read. intros schedule [Hrow Hid]%get_row; [|done].
  apply wp_recorded; [exact Hold|intros _]. clear Hold.
  apply returns_world. intros run w Hrun.
  destruct (is_terminal (RunModel.status run)) eqn:Hend; cbn [negb].
  2:{ apply returns_ret. left. split_and!; [done..|]. right. exists link. split; [done|]. right. by exists run, w. }
  apply returns_read. intros revision Hrev%get_revision_Ok.
  apply returns_world. intros now w' Hnow. unfold total in Hnow. cbn in Hnow. destruct (clock_now w) as [? ?] eqn:Hclock.
  injection Hnow as -> ->. set (u2 := u <| world := w |> <| world := w' |>).
  assert (schedules u2 = schedules u ∧ process_events u2 = process_events u) as [E P] by done.
  set (updated := accounted _ _ _ _). eapply returns_bind.
  { apply accounted_put; [by rewrite E|by rewrite E, Hid|done]. }
  intros _ u3 [P3 E3]. apply wp_bind. eapply wp_mono; [apply wp_conj|].
  { apply (wp_keeps logs _ (λ _ u', logs u3 u')); [apply logs_record_outcome|by intros]. }
  { apply record_outcome_recorded. }
  intros [[]|e] u4 [L4 Hh]; [|by intros ? ?]. specialize (Hh tt eq_refl).
  apply (returns_after logs); [apply logs_tell_owner|]. intros [] u5 L5.
  apply (returns_after logs); [apply logs_pause_event|]. intros [] u6 L6. apply returns_ret. right. split; [done|].
  exists link. split; [done|]. destruct (by_run_Some _ _ _ Hlink) as [Hin Hof]. split_and!; [done..|].
  exists schedule, revision, run, w, now, w', updated. rewrite Hid in Hrev.
  split_and!; try done.
  - eapply logs_has; [|exact Hh]. by etrans.
  - by apply accounted_rule.
  - destruct L4 as [S4 _], L5 as [S5 _], L6 as [S6 _]. rewrite S6, S5, S4, E3, E. done.
Qed.

(** C21: An outcome is counted once. Accounting for a run either counts nothing, because no
    occurrence started that run, its outcome is recorded already or it has not ended, and
    then changes nothing; or it counts the outcome of the run the occurrence names: it was
    not recorded before and is from then on; no row but that schedule's is changed, and in it
    a failure of the cadence adds one to the consecutive failures, pausing an active schedule
    that reaches its limit, a success resets them, a cancelled run and a run on request leave
    them alone; and accounting for the same run again reports nothing and changes nothing. *)
Theorem outcome_counted_once run_id (u : Uow W) b u' : inv (schedules u) →
  account uuid_str run_id u = (Ok b, u') →
  nothing_counted run_id u b u' ∨
  b = true ∧ ∃ link, ScheduleRepo.occurrence_by_run run_id (schedules u) = Ok (Some link) ∧ counted run_id u u' link ∧
    account uuid_str run_id u' = (Ok false, u').
Proof.
  intros I Hm%(proj1 (transaction_Ok _ _ _ _)). pose proof (account_effect run_id u I) as Hd.
  unfold returns, wp in Hd. rewrite Hm in Hd. cbn [fst snd] in Hd. destruct (Hd b eq_refl) as [?|(-> & link & Hl & Hc)]; [by left|right].
  split; [done|]. exists link. split_and!; [done..|].
  destruct Hc as (_ & _ & schedule & revision & run & w & now & w' & updated & Hrow & _ & _ & _ & _ & Hh & _ & (Hid & _) & _ & Hs).
  destruct (by_run_put run_id u u' link schedule updated Hl Hrow) as (link' & Hl' & E); [|done|].
  { rewrite Hid. by apply (inv_ids _ I). }
  apply (account_again run_id u' link' Hl'). by rewrite E.
Qed.
End outcomes.
