(* ===== verification/FeedRefresh.v ===== *)
(** * The feeds a Cockpit refreshes

    The pages [_feed_schedule_ids] reads end, and together they are the active feed-keeping
    schedules of the principal, each once. *)
From S2P Require Import Prelude PyDecimal RunModel Sessions Messages StateLogic Calendar Recurrence.
From S2P Require Import Schedules ScheduleStore ScheduleStoreSpec ProcessEvents CallPlans Materializer MaterializerSpec.

Lemma List_filter_is {A} (f : A → bool) l : List.filter f l = filter (λ x, f x = true) l.
Proof.
  induction l as [|x l IH]; [done|]. cbn [List.filter]. rewrite filter_cons, IH.
  destruct (f x) eqn:E; [by rewrite decide_True|by rewrite decide_False by congruence].
Qed.
Lemma mapM_map {A B} (f : A → result B) (g : A → B) l : (∀ x, x ∈ l → f x = Ok (g x)) → mapM f l = Ok (map g l).
Proof.
  induction l as [|x l IH]; intros Hf; [done|]. cbn. rewrite (Hf x) by set_solver. cbn.
  rewrite IH by set_solver. done.
Qed.

Section rows.
Context (principal : Principal) (s : ScheduleRepo.t).
Hypothesis (I : inv s).
(** The index the pages walk through. *)
Definition mine (x : Schedule.t) : bool :=
  schedule_owned_by x principal && bool_decide (Schedule.state x ∈ [SCHEDULE_ACTIVE]).
Definition index : list Schedule.t := sort_desc Schedule.key (List.filter mine (table_rows (ScheduleRepo._schedules s))).
Lemma elem_of_index x : x ∈ index ↔
  ScheduleRepo._schedules s !! Schedule.id x = Some x ∧ schedule_owned_by x principal = true ∧
  Schedule.state x = SCHEDULE_ACTIVE.
Proof.
  unfold index, mine. rewrite (sort_desc_perm Schedule.key), elem_List_filter, (elem_of_table Schedule.id) by apply (inv_ids _ I).
  rewrite andb_true_iff, bool_decide_eq_true, list_elem_of_singleton. done.
Qed.
Lemma index_inj x y : x ∈ index → y ∈ index → Schedule.key x = Schedule.key y → x = y.
Proof. rewrite !elem_of_index. intros [Hx _] [Hy _] [= _ E]. rewrite E in Hx. congruence. Qed.
Lemma index_NoDup : NoDup index.
Proof.
  unfold index. rewrite (sort_desc_perm Schedule.key). apply NoDup_List_filter, (table_NoDup Schedule.id), (inv_ids _ I).
Qed.
Lemma index_below n x : index !! n = Some x → below Schedule.key (Some (Schedule.key x)) index = drop (S n) index.
Proof.
  intros Hx. unfold below. rewrite List_filter_is. apply keyset_page;
    [apply sort_desc_sorted|apply index_inj|apply index_NoDup|done].
Qed.
Lemma index_size : (length index <= size (ScheduleRepo._schedules s))%nat.
Proof.
  unfold index. rewrite (sort_desc_perm Schedule.key). etrans; [apply List.filter_length_le|].
  unfold table_rows. by rewrite length_fmap, length_map_to_list.
Qed.

(** The revisions of a page. *)
Definition identity (x : Schedule.t) : UUID * Z := (Schedule.id x, Schedule.current_revision x).
Lemma index_revision x : x ∈ index → ∃ r, ScheduleRepo._revisions s !! identity x = Some r ∧
  ScheduleRepo.get_revision (Schedule.id x) (Schedule.current_revision x) principal s = Ok r.
Proof.
  intros (Hx & Ho & _)%elem_of_index. destruct (inv_current _ I _ _ Hx) as [r Hr]. exists r. split; [done|].
  unfold ScheduleRepo.get_revision, ScheduleRepo.get. rewrite Hx, Ho. cbn. by rewrite Hr.
Qed.
Lemma revisions_found (l : list Schedule.t) (m : gmap (UUID * Z) Revision.t) : (∀ x, x ∈ l → x ∈ index) → ∃ m' : gmap (UUID * Z) Revision.t,
  foldl (λ acc identity, found ← acc; revision ← ScheduleRepo.get_revision identity.1 identity.2 principal s;
           Ok (<[identity := revision]> found)) (Ok m) (map identity l) = Ok m' ∧
  ∀ k, k ∈ map identity l ∨ m !! k = ScheduleRepo._revisions s !! k → m' !! k = ScheduleRepo._revisions s !! k.
Proof.
  revert m. induction l as [|x l IH]; intros m Hl.
  - exists m. split; [done|]. intros k [?%elem_of_nil|]; done.
  - destruct (index_revision x) as (r & Hr & E); [apply Hl; by left|]. cbn [map foldl].
    destruct (IH (<[identity x := r]> m)) as (m' & E' & Hm); [intros y Hy; apply Hl; by right|].
    exists m'. split.
    + rewrite <- E'. f_equal. change (identity x).1 with (Schedule.id x).
      change (identity x).2 with (Schedule.current_revision x). by rewrite E.
    + intros k Hk. apply Hm. destruct (decide (k = identity x)) as [-> |Hne]; [right; by rewrite lookup_insert_eq|].
      rewrite lookup_insert_ne by done. destruct Hk as [[?|?]%elem_of_cons|?]; [done|by left|by right].
Qed.
Definition feeds (l : list Schedule.t) : list UUID :=
  concat (map (λ x, match ScheduleRepo._revisions s !! identity x with
    | Some r => if _keeps_a_feed r then [Schedule.id x] else [] | None => [] end) l).
Lemma feeds_app l l' : feeds (l ++ l') = (feeds l ++ feeds l')%list.
Proof. unfold feeds. by rewrite map_app, concat_app. Qed.
Lemma elem_of_feeds l i : i ∈ feeds l ↔ ∃ x r, x ∈ l ∧ Schedule.id x = i ∧
  ScheduleRepo._revisions s !! identity x = Some r ∧ _keeps_a_feed r = true.
Proof.
  unfold feeds. rewrite list_elem_of_In, in_concat. split.
  - intros (y & (x & <- & Hx)%in_map_iff & Hi). destruct (_ !! _) as [r|] eqn:E; [|done].
    destruct (_keeps_a_feed r) eqn:F; [|done]. destruct Hi as [<-|[]]. exists x, r. by rewrite list_elem_of_In.
  - intros (x & r & Hx & <- & E & F). exists [Schedule.id x]. split; [|by left]. apply in_map_iff. exists x.
    rewrite E, F. by rewrite <- list_elem_of_In.
Qed.
Lemma feeds_NoDup l : NoDup (Schedule.id <$> l) → NoDup (feeds l).
Proof.
  induction l as [|x l IH]; intros Hnd; [constructor|]. apply NoDup_cons in Hnd as [Hx Hnd].
  change (x :: l) with ([x] ++ l)%list. rewrite feeds_app. apply NoDup_app. split_and!; [|..|by apply IH].
  - unfold feeds. cbn. destruct (_ !! _) as [r|]; [destruct (_keeps_a_feed r)|]; repeat constructor; by intros ?%elem_of_nil.
  - intros i (y & r & ->%list_elem_of_singleton & <- & _)%elem_of_feeds (z & r' & Hz & E & _)%elem_of_feeds.
    apply Hx. rewrite <- E. by apply list_elem_of_fmap_2.
Qed.
Lemma index_ids : NoDup (Schedule.id <$> index).
Proof.
  apply NoDup_fmap_2_strong; [|apply index_NoDup].
  intros x y (Hx & _)%elem_of_index (Hy & _)%elem_of_index E. rewrite E in Hx. congruence.
Qed.
End rows.
Lemma sorted_ids_sorted l : StronglySorted N.le (sorted_ids l).
Proof.
  unfold sorted_ids. induction (sort_asc_sorted (λ i : N, (0, i)) l) as [|x l' _ IH Hx]; constructor; [done|].
  eapply Forall_impl; [exact Hx|]. intros y. unfold asc, key_leb. cbn. by rewrite N.leb_le.
Qed.

Section pages.
Context {W : Type} `{SchedulePorts W} (principal : Principal).
Abbreviation M := (stateM (Uow W)).
Lemma page_of (u : Uow W) k cursor :
  below Schedule.key ((λ c, (sc_updated_at c, sc_id c)) <$> cursor) (index principal (schedules u)) =
    drop k (index principal (schedules u)) →
  ScheduleRepo.list_schedules principal (Z.of_nat REFRESH_PAGE_SIZE + 1) cursor (Some [SCHEDULE_ACTIVE]) (schedules u) =
    Ok (take (S REFRESH_PAGE_SIZE) (drop k (index principal (schedules u)))).
Proof. intros E. by rewrite <- E. Qed.
Lemma feed_pages_all pages k cursor found (u : Uow W) :
  let l := index principal (schedules u) in
  inv (schedules u) → (length l - k < pages)%nat →
  below Schedule.key ((λ c, (sc_updated_at c, sc_id c)) <$> cursor) l = drop k l →
  feed_pages pages principal cursor found u = (Ok (Some (found ++ feeds (schedules u) (drop k l))%list), u).
Proof.
  cbv zeta. intros I. revert k cursor found. induction pages as [|pages IH]; intros k cursor found Hp Hc; [lia|].
  cbn [feed_pages]. unfold mbind at 1, stateM_bind, read_schedules at 1. rewrite (page_of u k cursor Hc).
  set (l := index principal (schedules u)) in *. set (visible := take REFRESH_PAGE_SIZE _).
  assert (visible = take REFRESH_PAGE_SIZE (drop k l)) as Hv by (unfold visible; rewrite take_take; f_equal; lia).
  assert (∀ x, x ∈ visible → x ∈ l) as Hin.
  { intros x Hx. rewrite <- (take_drop k l), <- (take_drop REFRESH_PAGE_SIZE (drop k l)), !elem_of_app, <- Hv. by right; left. }
  destruct (revisions_found principal (schedules u) I visible ∅ Hin) as (revisions & E & Hrev).
  unfold mbind at 1, stateM_bind, read_schedules at 1. change (λ x, (Schedule.id x, Schedule.current_revision x)) with identity.
  unfold ScheduleRepo.get_revisions. rewrite E. clear E. unfold mbind at 1, stateM_bind, lift at 1.
  erewrite (mapM_map _ (λ x, match ScheduleRepo._revisions (schedules u) !! identity x with
    | Some r => if _keeps_a_feed r then [Schedule.id x] else [] | None => [] end)).
  2:{ intros x Hx. change (Schedule.id x, Schedule.current_revision x) with (identity x).
      rewrite (Hrev (identity x)) by (left; by apply list_elem_of_fmap_2).
      destruct (index_revision principal (schedules u) I x (Hin x Hx)) as (r & -> & _). done. }
  change (concat (map _ visible)) with (feeds (schedules u) visible). rewrite length_take.
  assert ((length (drop k l) <= REFRESH_PAGE_SIZE)%nat → visible = drop k l) as Hshort by (intros; rewrite Hv; by apply take_ge).
  destruct (last visible) as [tail|] eqn:Ht.
  2:{ apply last_None in Ht. rewrite Hshort; [done|]. rewrite Ht in Hv. destruct (drop k l); [cbn; lia|discriminate Hv]. }
  destruct (Nat.leb_spec (S REFRESH_PAGE_SIZE `min` length (drop k l)) REFRESH_PAGE_SIZE); [by rewrite Hshort by lia|].
  assert (length visible = REFRESH_PAGE_SIZE) as Hlen by (rewrite Hv, length_take; lia).
  assert (l !! (k + pred REFRESH_PAGE_SIZE)%nat = Some tail) as Hl.
  { rewrite last_lookup, Hlen, Hv, lookup_take_lt, lookup_drop in Ht by (unfold REFRESH_PAGE_SIZE; lia). exact Ht. }
  rewrite (IH (k + REFRESH_PAGE_SIZE)%nat).
  - do 3 f_equal. rewrite <- app_assoc, <- feeds_app, Hv, <- drop_drop, take_drop. done.
  - rewrite length_drop in *. unfold REFRESH_PAGE_SIZE in *. lia.
  - cbn [fmap option_fmap option_map sc_updated_at sc_id]. apply (index_below principal (schedules u) I) in Hl.
    replace (k + REFRESH_PAGE_SIZE)%nat with (S (k + pred REFRESH_PAGE_SIZE)) by (unfold REFRESH_PAGE_SIZE; lia). exact Hl.
Qed.

(** C18: A Cockpit refreshes exactly the principal's feeds: the pages of schedules always end,
    and the ids they give are, once each and in order, those of the active recurring
    schedules of the principal whose current revision may write to the Cockpit. *)
Theorem feeds_exact (u : Uow W) : inv (schedules u) → ∃ ids,
  _feed_schedule_ids principal u = (Ok ids, u) ∧ NoDup ids ∧ StronglySorted N.le ids ∧
  ∀ i, i ∈ ids ↔ ∃ x r, ScheduleRepo._schedules (schedules u) !! i = Some x ∧
    Schedule.tenant_id x = Principal.tenant_id principal ∧ Schedule.principal_id x = Principal.principal_id principal ∧
    Schedule.state x = SCHEDULE_ACTIVE ∧
    ScheduleRepo._revisions (schedules u) !! (i, Schedule.current_revision x) = Some r ∧
    is_once (Revision.cadence r) = false ∧ FEED_KEEPING_SCOPE ∈ Revision.requested_scopes r.
Proof.
  intros I. set (l := index principal (schedules u)). exists (sorted_ids (feeds (schedules u) l)).
  pose proof (index_size principal (schedules u)) as Hn. fold l in Hn. split_and!.
  - unfold _feed_schedule_ids, mbind at 1, stateM_bind, gets at 1.
    unfold mbind at 1, stateM_bind. rewrite (feed_pages_all _ 0 None []); [by rewrite drop_0|done|cbn; fold l; lia|by rewrite drop_0].
  - unfold sorted_ids. rewrite (sort_asc_perm _). by apply feeds_NoDup, index_ids.
  - apply sorted_ids_sorted.
  - intros i. unfold sorted_ids. rewrite (sort_asc_perm _), elem_of_feeds. unfold l.
    setoid_rewrite elem_of_index; [|done]. unfold schedule_owned_by, owned_by, _keeps_a_feed, identity.
    setoid_rewrite andb_true_iff. setoid_rewrite bool_decide_eq_true. setoid_rewrite negb_true_iff. split.
    + intros (x & r & (Hx & [Ht Hp] & Ha) & <- & E & F & G). eauto 12.
    + intros (x & r & Hx & Ht & Hp & Ha & E & F & G). exists x, r. rewrite (inv_ids _ I _ _ Hx). done.
Qed.
End pages.
