(* ===== verification/ScheduleWorker.v ===== *)
(** * The schedule worker ([scheduling/worker.py])

    One scan materializes the schedules that are due, each on its own; then the worker sleeps
    until the next one is, or until it is woken. Durations are in microseconds. *)
From S2P Require Import Prelude PyDecimal RunModel Sessions Messages StateLogic Calendar Recurrence.
From S2P Require Import Schedules ScheduleStore ScheduleStoreSpec ProcessEvents CallPlans Materializer MaterializerSpec.

Record ScheduleWorker := { scan_batch : Z; fallback_poll : timedelta; admission_backoff : timedelta }.
Definition make_worker (w : ScheduleWorker) : result ScheduleWorker :=
  raise_if scan_batch w <=? 0 with ValueError "schedule scan batch must be positive";
  raise_if fallback_poll w <=? 0 with ValueError "schedule fallback poll must be positive";
  raise_if admission_backoff w <=? 0 with ValueError "schedule admission backoff must be positive";
  Ok w.

Section worker.
Context {W : Type} `{SchedulePorts W} (ZoneInfo : string → Zone) (uuid_str : UUID → string).
Context (read_step : json → result CallPlanStep) (worker : ScheduleWorker).
Abbreviation M := (stateM (Uow W)).
(** A schedule whose materialization raises is logged, and the scan goes on. *)
Definition attempted (schedule_id : UUID) : M Z := λ u,
  match materialize ZoneInfo uuid_str read_step schedule_id u with
  | (Ok _, u') => (Ok 1, u')
  | (Raise _, u') => (Ok 0, u')
  end.
Fixpoint scan (due : list UUID) : M Z :=
  match due with
  | [] => mret 0
  | schedule_id :: due => one ← attempted schedule_id; rest ← scan due; mret (one + rest)
  end.
Definition run_once : M Z :=
  due ← transaction (now ← now_; read_schedules (ScheduleRepo.due now (scan_batch worker)));
  scan due.
Definition sleep_for (next : option datetime) (now : datetime) : timedelta :=
  match next with
  | None => fallback_poll worker
  | Some t =>
      let until_due := t - now in
      if until_due <=? 0 then Z.min (admission_backoff worker) (fallback_poll worker)
      else Z.min until_due (fallback_poll worker)
  end.
Definition wait_seconds : M timedelta :=
  next ← transaction (read_schedules (λ s, Ok (ScheduleRepo.next_fire_at s)));
  match next with
  | None => mret (sleep_for None 0)
  | Some t => now ← now_; mret (sleep_for (Some t) now)
  end.

(** The worker sleeps, but never past the next firing nor longer than its poll. *)
Lemma sleep_bounds next now : make_worker worker = Ok worker →
  0 < sleep_for next now <= fallback_poll worker ∧ ∀ t, next = Some t → now < t → now + sleep_for next now <= t.
Proof.
  unfold make_worker. intros [Hb E]%raise_if_ok. apply raise_if_ok in E as [Hf E]. apply raise_if_ok in E as [Ha _].
  unfold sleep_for. destruct next as [t|]; [|split; [lia|done]]. split; [destruct (Z.leb_spec (t - now) 0); lia|].
  intros t' [= <-] Hlt. destruct (Z.leb_spec (t - now) 0); lia.
Qed.
(** What is next is the first firing of an active schedule. *)
Lemma min_spec x l : let m := foldl Z.min x l in m ∈ x :: l ∧ ∀ y, y ∈ x :: l → m <= y.
Proof.
  revert x. induction l as [|z l IH]; intros x; cbn [foldl]; [set_solver by lia|]. destruct (IH (Z.min x z)) as [Hin Hle].
  split.
  - apply elem_of_cons in Hin as [-> |Hin]; [|by do 2 right]. destruct (Z.min_spec x z) as [[_ ->]|[_ ->]]; [by left|by right; left].
  - pose proof (Hle (Z.min x z) ltac:(by left)). intros y [-> |[-> |Hy]%elem_of_cons]%elem_of_cons; [lia|lia|].
    apply Hle. by right.
Qed.
Lemma next_fire_at_first s i x t : inv s → ScheduleRepo._schedules s !! i = Some x → Schedule.state x = SCHEDULE_ACTIVE →
  Schedule.next_fire_at x = Some t → ∃ t', ScheduleRepo.next_fire_at s = Some t' ∧ t' <= t.
Proof.
  intros I Hx Ha Ht. unfold ScheduleRepo.next_fire_at.
  assert (t ∈ omap ScheduleRepo.firing (table_rows (ScheduleRepo._schedules s))) as Hin.
  { apply list_elem_of_omap. exists x. rewrite (elem_of_table Schedule.id) by apply (inv_ids _ I).
    rewrite (inv_ids _ I _ _ Hx). split; [done|]. unfold ScheduleRepo.firing. by rewrite bool_decide_true. }
  destruct (omap _ _) as [|y l]; [by apply elem_of_nil in Hin|]. exists (foldl Z.min y l). split; [done|]. by apply min_spec.
Qed.
(** A scan never fails on a schedule: it counts those that did not raise. *)
Lemma scan_returns due u : ∃ n u', scan due u = (Ok n, u') ∧ 0 <= n <= Z.of_nat (length due).
Proof.
  revert u. induction due as [|i due IH]; intros u; [by exists 0, u|].
  cbn [scan]. unfold mbind at 1, stateM_bind, attempted. destruct (materialize _ _ _ _ u) as [[o|e] u1].
  - destruct (IH u1) as (n & u2 & E & Hn). exists (1 + n), u2. unfold mbind, stateM_bind. rewrite E. cbn. split; [done|lia].
  - destruct (IH u1) as (n & u2 & E & Hn). exists (0 + n), u2. unfold mbind, stateM_bind. rewrite E. cbn. split; [done|lia].
Qed.
End worker.
