(* ===== verification/ScheduleService.v ===== *)
(** * The lifecycle of schedules ([application/schedule_service.py])

    What an owner does with schedules: create, read, update, patch, pause, resume, cancel.
    Each operation checks a scope, then runs one transaction on the repository and the
    process events ([Uow] of [Materializer]); a request key makes creating and patching
    safe to repeat. *)
From S2P Require Import Prelude PyDecimal RunModel Sessions Messages StateLogic Calendar Recurrence.
From S2P Require Import Schedules ScheduleStore ProcessEvents CallPlans Materializer.

#[export] Instance Cadence_eq_dec : EqDecision Cadence.
Proof. solve_decision. Defined.

(** ** What a definition names elsewhere *)
Record JobAccess := { access_hosts : list string; access_feeds : gset string; access_mcp_servers : gset string; access_model_cost : decimal }.
Record JobRevision := { job_revision_id : UUID; commit_sha : option string; manifest_feeds : gset string }.
Record JobGrant := { grant_id_ : UUID; grant_access : JobAccess; grant_approval_id : option UUID }.
Record JobRecord := { archived : bool; job_revisions : gmap UUID JobRevision; job_grants : gmap UUID JobGrant }.
Definition access_is_external (a : JobAccess) : bool :=
  negb (bool_decide (access_hosts a = [])) || negb (bool_decide (access_feeds a = ∅)) ||
  negb (bool_decide (access_mcp_servers a = ∅)) || dec_ltb (dec_of_Z 0) (access_model_cost a).
Record MCPServerRow := {
  row_server_id : string; row_required_scopes : gset string; row_enabled : bool; row_owner_managed : bool }.
Inductive BrowserProfileStatus :=
| PROFILE_PROVISIONING | PROFILE_AUTHENTICATION_REQUIRED | PROFILE_READY | PROFILE_NEEDS_USER | PROFILE_REVOKED.
#[export] Instance BrowserProfileStatus_eq_dec : EqDecision BrowserProfileStatus.
Proof. solve_decision. Defined.
Record ScheduleDefinitionLimits := {
  max_run_timeout_seconds : Z;
  max_misfire_grace_seconds : Z;
  max_steps_per_run : Z;
  max_model_calls_per_run : Z;
  max_tool_calls_per_run : Z;
  max_cost_per_run : decimal;
}.

(** [^gmail_(?:[a-z][a-z0-9_]{0,31}_)?(?:read|write|send)$] *)
Definition lower (c : Ascii.ascii) : bool := let n := Ascii.N_of_ascii c in ((97 <=? n) && (n <=? 122))%N.
Definition lower_word (c : Ascii.ascii) : bool :=
  let n := Ascii.N_of_ascii c in lower c || ((48 <=? n) && (n <=? 57))%N || Ascii.eqb c "_".
Fixpoint all_chars (f : Ascii.ascii → bool) (s : string) : bool :=
  match s with EmptyString => true | String c s => f c && all_chars f s end.
Definition str_take (n : nat) (s : string) : string := String.substring 0 n s.
(** The name between the first underscore and the mode, its own underscore included. *)
Definition account_part (s : string) : bool :=
  match s with
  | EmptyString => true
  | String c _ => lower c && all_chars lower_word s && py_endswith "_" s && (2 <=? String.length s)%nat &&
                  (String.length s <=? 33)%nat
  end.
Definition is_email_server_id (server_id : string) : bool :=
  py_startswith "gmail_" server_id &&
  (let rest := str_drop 6 server_id in
   existsb (λ mode, py_endswith mode rest && account_part (str_take (String.length rest - String.length mode) rest))
     ["read"; "write"; "send"]).
Definition schedule_may_name (c : MCPServerRow) : bool :=
  row_owner_managed c || is_email_server_id (row_server_id c) || String.eqb (row_server_id c) "svp_read".

(** What the service reads elsewhere; the worker it wakes. *)
Class ServicePorts (W : Type) := {
  jobs_get : Principal → string → W → result JobRecord * W;
  mcp_servers_get : string → string → W → result (option MCPServerRow) * W;
  browser_profiles_get : UUID → Principal → W → result BrowserProfileStatus * W;
  wake_worker : option (W → result unit * W);
}.

Record ScheduleRecord := { record_schedule : Schedule.t; record_revision : Revision.t; replayed : bool }.
Record Page (A : Type) := { page_items : list A; next_cursor : option string }.
Arguments page_items {A}. Arguments next_cursor {A}.
Record ScheduleDefinitionPatch := {
  patch_title : option string;
  patch_instruction : option string;
  patch_cadence : option Cadence;
  patch_mcp_servers : option (gset string);
}.
Definition at_least_one_field_changes (p : ScheduleDefinitionPatch) : result ScheduleDefinitionPatch :=
  raise_if bool_decide (patch_title p = None) && bool_decide (patch_instruction p = None) &&
    bool_decide (patch_cadence p = None) && bool_decide (patch_mcp_servers p = None)
    with ValueError "schedule update requires at least one changed field";
  Ok p.

(** ** Between definitions and revisions *)
Definition _revision (schedule : Schedule.t) (d : ScheduleDefinition.t) (principal : Principal) (now : datetime)
    : result Revision.t :=
  Revision.execution_is_finite_and_cadence_is_consistent
    {| Revision.schedule_id := Schedule.id schedule; Revision.revision := Schedule.current_revision schedule;
       Revision.title := ScheduleDefinition.title d; Revision.instruction := ScheduleDefinition.instruction d;
       Revision.task := ScheduleDefinition.task d; Revision.agent_id := ScheduleDefinition.agent_id d;
       Revision.agent_version := ScheduleDefinition.agent_version d;
       Revision.policy_profile := ScheduleDefinition.policy_profile d;
       Revision.requested_scopes := ScheduleDefinition.requested_scopes d;
       Revision.browser_profile_id := ScheduleDefinition.browser_profile_id d;
       Revision.limits := ScheduleDefinition.limits d;
       Revision.run_timeout_seconds := ScheduleDefinition.run_timeout_seconds d;
       Revision.cadence := ScheduleDefinition.cadence d; Revision.timezone := ScheduleDefinition.timezone d;
       Revision.misfire_grace_seconds := ScheduleDefinition.misfire_grace_seconds d;
       Revision.max_consecutive_failures := ScheduleDefinition.max_consecutive_failures d;
       Revision.notify := ScheduleDefinition.notify d;
       Revision.created_by_principal_id := Principal.principal_id principal; Revision.created_at := now;
       Revision.call_plan := ScheduleDefinition.call_plan d; Revision.mcp_servers := ScheduleDefinition.mcp_servers d |}.
Definition definition_of (r : Revision.t) : ScheduleDefinition.t :=
  {| ScheduleDefinition.title := Revision.title r; ScheduleDefinition.instruction := Revision.instruction r;
     ScheduleDefinition.task := Revision.task r; ScheduleDefinition.agent_id := Revision.agent_id r;
     ScheduleDefinition.agent_version := Revision.agent_version r;
     ScheduleDefinition.policy_profile := Revision.policy_profile r;
     ScheduleDefinition.requested_scopes := Revision.requested_scopes r;
     ScheduleDefinition.browser_profile_id := Revision.browser_profile_id r;
     ScheduleDefinition.limits := Revision.limits r;
     ScheduleDefinition.run_timeout_seconds := Revision.run_timeout_seconds r;
     ScheduleDefinition.cadence := Revision.cadence r;
     ScheduleDefinition.misfire_grace_seconds := Revision.misfire_grace_seconds r;
     ScheduleDefinition.max_consecutive_failures := Revision.max_consecutive_failures r;
     ScheduleDefinition.call_plan := Revision.call_plan r; ScheduleDefinition.notify := Revision.notify r;
     ScheduleDefinition.mcp_servers := Revision.mcp_servers r |}.
Definition _definition_from_revision (r : Revision.t) : result ScheduleDefinition.t :=
  ScheduleDefinition.execution_is_finite (definition_of r).
(** [definition == current_definition], of a patched copy: what a patch leaves alone is the same object. *)
Definition same_definition (a b : ScheduleDefinition.t) : bool :=
  String.eqb (ScheduleDefinition.title a) (ScheduleDefinition.title b) &&
  String.eqb (ScheduleDefinition.instruction a) (ScheduleDefinition.instruction b) &&
  bool_decide (ScheduleDefinition.cadence a = ScheduleDefinition.cadence b) &&
  bool_decide (ScheduleDefinition.mcp_servers a = ScheduleDefinition.mcp_servers b) &&
  bool_decide (ScheduleDefinition.requested_scopes a = ScheduleDefinition.requested_scopes b).
Definition idempotency_mismatch : exn :=
  ConflictFor "schedule.idempotency_mismatch" "schedule idempotency key was reused with different content".
Definition _expected (schedule : Schedule.t) (expected_revision : Z) : result unit :=
  raise_if negb (expected_revision =? Schedule.current_revision schedule)
    with ConflictFor "schedule.revision_conflict" "schedule revision changed"; Ok tt.
Definition _idempotency_key (value : string) : result string :=
  raise_if String.eqb value "" || Occurrence.whitespace value || (255 <? String.length value)%nat
    with ScheduleValidationError "schedule.idempotency_key_invalid" "Idempotency-Key must contain 1 to 255 characters";
  Ok value.

Section service.
Context {W : Type} `{SchedulePorts W, ServicePorts W} (ZoneInfo : string → Zone) (uuid_str : UUID → string).
(** Of the job grants, [uuid5]; of the credential scanner, its regular expressions. *)
Context (revision_grant_id : UUID → UUID → UUID) (contains_credential : string → bool).
Context (limits : ScheduleDefinitionLimits).
(** SHA-256 of the sorted JSON of a request, in hexadecimal; its fields dumped by pydantic. *)
Context (sha256_json : json → string) (dump_definition : ScheduleDefinition.t → dict).
Context (dump_patch : ScheduleDefinitionPatch → dict).
Abbreviation M := (stateM (Uow W)).

Definition require_scope (principal : Principal) (scope : string) : result unit :=
  raise_if negb (bool_decide (scope ∈ Principal.scopes principal))
    with AuthorizationError ("missing required scope: " +:+ scope); Ok tt.
Definition grant_covers_revision (g : JobGrant) (r : JobRevision) : bool :=
  negb (access_is_external (grant_access g)) ||
  match grant_approval_id g with
  | Some approval => bool_decide (grant_id_ g = revision_grant_id approval (job_revision_id r))
  | None => false
  end.
Definition without (key : string) (drop : bool) (d : dict) : dict :=
  if drop then List.filter (λ kv, negb (String.eqb kv.1 key)) d else d.
Definition _definition_hash (d : ScheduleDefinition.t) : string :=
  sha256_json (JObj (without "notify" (bool_decide (ScheduleDefinition.notify d = EVERY_REPORT))
    (without "call_plan" (bool_decide (ScheduleDefinition.call_plan d = None))
      (without "browser_profile_id" (bool_decide (ScheduleDefinition.browser_profile_id d = None)) (dump_definition d))))).
Definition _patch_hash (schedule_id : UUID) (expected_revision : Z) (p : ScheduleDefinitionPatch) : string :=
  sha256_json (JObj [("schedule_id", JStr (uuid_str schedule_id)); ("expected_revision", JInt expected_revision);
    ("patch", JObj (dump_patch p))]).

(** ** Validating a definition *)
Definition invalid (reason msg : string) : exn := ScheduleValidationError reason msg.
Fixpoint server_scopes (tenant_id : string) (servers : list string) (scopes : gset string) : M (gset string) :=
  match servers with
  | [] => mret scopes
  | server_id :: servers =>
      row ← on_world (mcp_servers_get tenant_id server_id);
      match row with
      | Some row =>
          if row_enabled row && schedule_may_name row
          then server_scopes tenant_id servers (scopes ∪ row_required_scopes row)
          else raise (invalid "schedule.mcp_server_unavailable"
                 ("MCP server '" +:+ server_id +:+ "' cannot be used by a schedule"))
      | None => raise (invalid "schedule.mcp_server_unavailable"
                 ("MCP server '" +:+ server_id +:+ "' cannot be used by a schedule"))
      end
  end.
Definition mcp_server_scopes (tenant_id : string) (servers : gset string) : M (gset string) :=
  server_scopes tenant_id (sorted_strings servers) ∅.
Definition dropped_scopes (servers : gset string) : gset string :=
  set_map (λ server_id, "mcp." +:+ server_id +:+ ".use") servers.
Definition _server_updates (principal : Principal) (d : ScheduleDefinition.t) (servers : gset string)
    : M ScheduleDefinition.t :=
  needed ← mcp_server_scopes (Principal.tenant_id principal) servers;
  mret (d <| ScheduleDefinition.mcp_servers := servers |>
          <| ScheduleDefinition.requested_scopes :=
               (ScheduleDefinition.requested_scopes d ∖ dropped_scopes (ScheduleDefinition.mcp_servers d)) ∪ needed |>).
Definition validate_job (principal : Principal) (d : ScheduleDefinition.t) (slug : string) (revision_id grant_id : UUID)
    (existing_task : option ScheduleTask) : M unit :=
  _ ← lift (require_scope principal "jobs.run");
  job ← on_world (jobs_get principal slug);
  match job_revisions job !! revision_id, job_grants job !! grant_id with
  | Some revision, Some grant =>
      if archived job || bool_decide (commit_sha revision = None)
      then raise (invalid "schedule.job_unavailable" "Select a published job revision and its approved grant.")
      else
      let access := grant_access grant in
      needed ← mcp_server_scopes (Principal.tenant_id principal) (access_mcp_servers access);
      let feeds : gset string := if bool_decide (access_feeds access = ∅) then ∅ else {["cockpit.read"; "cockpit.write"]} in
      if negb (bool_decide (ScheduleDefinition.requested_scopes d = {["jobs.run"]} ∪ feeds ∪ needed))
      then raise (invalid "schedule.job_scopes" "Job schedule scopes must match its grant.")
      else if negb (bool_decide (access_feeds access ⊆ manifest_feeds revision))
      then raise (invalid "schedule.job_feeds" "The job revision must declare the grant's feeds.")
      else if negb (bool_decide (Some (ScheduleDefinition.task d) = existing_task)) && negb (grant_covers_revision grant revision)
      then raise (invalid "schedule.job_grant_revision" "The grant must be approved for the selected job revision.")
      else mret tt
  | _, _ => raise (invalid "schedule.job_unavailable" "Select a published job revision and its approved grant.")
  end.
(** [except NotFoundError]: the profile is unavailable. *)
Definition browser_profile (i : UUID) (principal : Principal) : M BrowserProfileStatus := λ u,
  match on_world (browser_profiles_get i principal) u with
  | (Raise (NotFoundError _), u') =>
      (Raise (invalid "schedule.browser_profile_unavailable" "browser profile is unavailable"), u')
  | r => r
  end.
Definition validate_browser (principal : Principal) (d : ScheduleDefinition.t) : M unit :=
  match ScheduleDefinition.browser_profile_id d with
  | None => mret tt
  | Some i =>
      _ ← lift (require_scope principal "browser.profile.read");
      if negb (bool_decide ("browser.profile.read" ∈ ScheduleDefinition.requested_scopes d))
      then raise (invalid "schedule.browser_scope_required" "a browser schedule must request browser.profile.read")
      else
        status ← browser_profile i principal;
        if bool_decide (status = PROFILE_READY) then mret tt
        else raise (invalid "schedule.browser_profile_unavailable" "browser profile is not ready")
  end.
(** [try: check(...) except ValueError]. *)
Definition as_invalid (reason : string) (r : result unit) : result unit :=
  match r with Raise (ValueError msg) => Raise (invalid reason msg) | r => r end.
Definition exceeds : string := "schedule definition exceeds tenant limits".
Definition ceiling_checks (d : ScheduleDefinition.t) : list (Z * Z * string) :=
  let l := ScheduleDefinition.limits d in
  [(ScheduleDefinition.run_timeout_seconds d, max_run_timeout_seconds limits, "schedule.run_timeout_limit");
   (ScheduleDefinition.misfire_grace_seconds d, max_misfire_grace_seconds limits, "schedule.misfire_grace_limit");
   (max_steps l, max_steps_per_run limits, "schedule.max_steps_limit");
   (max_model_calls l, max_model_calls_per_run limits, "schedule.max_model_calls_limit");
   (max_tool_calls l, max_tool_calls_per_run limits, "schedule.max_tool_calls_limit")]%string.
Fixpoint check_ceilings (l : list (Z * Z * string)) : result unit :=
  match l with
  | [] => Ok tt
  | (actual, maximum, reason) :: l => raise_if maximum <? actual with invalid reason exceeds; check_ceilings l
  end.
(** The checks that read nothing. *)
Definition check_definition (principal : Principal) (d : ScheduleDefinition.t) : result unit :=
  _ ← as_invalid "schedule.call_plan_invalid"
        (check_call_plan (ScheduleDefinition.call_plan d) (ScheduleDefinition.cadence d));
  _ ← as_invalid "schedule.interval_needs_feed"
        (check_interval_cadence (ScheduleDefinition.cadence d) (ScheduleDefinition.requested_scopes d));
  raise_if negb (bool_decide (ScheduleDefinition.requested_scopes d ⊆ Principal.scopes principal))
    with invalid "schedule.scope_not_granted" "requested schedule scopes exceed the caller's authority";
  raise_if contains_credential (ScheduleDefinition.instruction d)
    with invalid "schedule.instruction_contains_credential" "schedule instruction failed credential validation";
  raise_if contains_credential (ScheduleDefinition.title d)
    with invalid "schedule.title_contains_credential" "schedule title failed credential validation";
  _ ← check_ceilings (ceiling_checks d);
  match max_cost (ScheduleDefinition.limits d) with
  | None => Raise (invalid "schedule.max_cost_limit" "schedule definition must set a finite cost bound")
  | Some cost =>
      raise_if dec_ltb (max_cost_per_run limits) cost with invalid "schedule.max_cost_limit" exceeds; Ok tt
  end.
Definition _validate_definition (principal : Principal) (d : ScheduleDefinition.t) (existing_task : option ScheduleTask)
    : M unit :=
  _ ← match ScheduleDefinition.task d with
      | JobTask slug revision_id grant_id =>
          _ ← validate_job principal d slug revision_id grant_id existing_task;
          if bool_decide (ScheduleDefinition.mcp_servers d = ∅) then mret tt
          else raise (invalid "schedule.job_mcp_servers" "A job reads the MCP servers its grant names.")
      | AgentRunTask => mret tt
      end;
  needed ← mcp_server_scopes (Principal.tenant_id principal) (ScheduleDefinition.mcp_servers d);
  if negb (bool_decide (needed ⊆ ScheduleDefinition.requested_scopes d))
  then raise (invalid "schedule.mcp_scope_required" "A schedule must request its MCP servers' scopes.")
  else if negb (is_job (ScheduleDefinition.task d)) &&
          bool_decide ("mcp.svp_read.use" ∈ ScheduleDefinition.requested_scopes d) &&
          negb (bool_decide ("svp_read" ∈ ScheduleDefinition.mcp_servers d))
  then raise (invalid "schedule.mcp_scope_unnamed" "A schedule must name Scale VP to hold its scope.")
  else
  _ ← validate_browser principal d;
  _ ← lift (check_definition principal d);
  agent ← on_world (agents_get_version (ScheduleDefinition.agent_id d) (ScheduleDefinition.agent_version d));
  if String.eqb (pinned_policy_profile agent) (ScheduleDefinition.policy_profile d) then mret tt
  else raise (invalid "schedule.policy_profile_mismatch"
         "schedule policy profile does not match the pinned agent version").

(** ** Operations *)
Definition _record (principal : Principal) (schedule_id : UUID) (replay : bool) : M ScheduleRecord :=
  schedule ← read_schedules (ScheduleRepo.get schedule_id principal);
  revision ← read_schedules (ScheduleRepo.get_revision (Schedule.id schedule) (Schedule.current_revision schedule) principal);
  mret {| record_schedule := schedule; record_revision := revision; replayed := replay |}.
Definition opt_instant (t : option datetime) : json := match t with None => JNull | Some t => JStr (isoformat t) end.
Definition _event (event_type : string) (principal : Principal) (schedule : Schedule.t) (previous : option Schedule.t)
    : M unit :=
  event_id ← fresh; created_at ← now_;
  _ ← append_event {| pe_id := event_id; pe_event_type := event_type; pe_payload_schema_version := 1;
    pe_actor_type := "principal"; pe_actor_id := Some (Principal.principal_id principal);
    pe_payload :=
      [("schedule_id", JStr (uuid_str (Schedule.id schedule))); ("revision", JInt (Schedule.current_revision schedule));
       ("tenant_id", JStr (Schedule.tenant_id schedule)); ("principal_id", JStr (Schedule.principal_id schedule));
       ("previous_state", match previous with None => JNull | Some p => JStr (ScheduleState_value (Schedule.state p)) end);
       ("next_state", JStr (ScheduleState_value (Schedule.state schedule)));
       ("previous_next_fire_at", opt_instant (previous ≫= Schedule.next_fire_at));
       ("next_fire_at", opt_instant (Schedule.next_fire_at schedule))];
    pe_derivation_key := event_type +:+ ":" +:+ uuid_str (Schedule.id schedule) +:+ ":" +:+ uuid_str event_id;
    pe_created_at := created_at |};
  mret tt.
(** A worker that cannot be woken is only logged. *)
Definition _wake : M unit := λ u,
  match wake_worker with
  | None => (Ok tt, u)
  | Some wake => (Ok tt, u <| world := (wake (world u)).2 |>)
  end.
Definition get_idempotency (principal : Principal) (key : string) : M (option ScheduleIdempotencyRecord) :=
  gets (λ u, ScheduleRepo.get_idempotency (Principal.tenant_id principal) (Principal.principal_id principal) key (schedules u)).
Definition create_idempotency (principal : Principal) (key hash : string) (schedule_id : UUID) (now : datetime) : M unit :=
  _ ← on_schedules (ScheduleRepo.create_idempotency
    {| sir_tenant_id := Principal.tenant_id principal; sir_principal_id := Principal.principal_id principal; sir_key := key;
       sir_request_hash := hash; sir_schedule_id := schedule_id; sir_created_at := now |});
  mret tt.
Definition _reject_started_call_plan (revision : Revision.t) : M unit :=
  latest ← gets (λ u, ScheduleRepo.latest_materialized_occurrence (Revision.schedule_id revision) (schedules u));
  if negb (bool_decide (Revision.call_plan revision = None)) && bool_decide (is_Some latest)
  then raise (ConflictFor "schedule.call_plan_started" "a call plan cannot change after its first call")
  else mret tt.
Definition no_future (msg : string) : exn := invalid "schedule.no_future_occurrence" msg.
Definition existing_job (r : Revision.t) : option ScheduleTask :=
  if is_job (Revision.task r) then Some (Revision.task r) else None.
(** [try: ... except ConflictError] *)
Definition on_conflict {A} (m : M A) (handler : exn → M A) : M A := λ u,
  match m u with
  | (Raise (ConflictError _ as e), u') | (Raise (ConflictFor _ _ as e), u') => handler e u'
  | r => r
  end.
(** An answer, and whether the worker has to be woken for it. *)
Definition woken {A} (m : M (A * bool)) : M A :=
  transaction m ≫= λ r : A * bool,
  _ ← (if r.2 then _wake else mret tt);
  mret r.1.

Definition first_schedule (schedule_id : UUID) (principal : Principal) (next : datetime) (now : datetime) : result Schedule.t :=
  Schedule.state_is_consistent
    {| Schedule.id := schedule_id; Schedule.tenant_id := Principal.tenant_id principal;
       Schedule.principal_id := Principal.principal_id principal; Schedule.state := SCHEDULE_ACTIVE;
       Schedule.pause_reason := None; Schedule.current_revision := 1; Schedule.next_fire_at := Some next;
       Schedule.consecutive_failures := 0; Schedule.created_at := now; Schedule.updated_at := now |}.
Definition create_in (principal : Principal) (d : ScheduleDefinition.t) (key hash : string) : M (ScheduleRecord * bool) :=
  existing ← get_idempotency principal key;
  match existing with
  | Some record =>
      if negb (String.eqb (sir_request_hash record) hash) then raise idempotency_mismatch
      else answer ← _record principal (sir_schedule_id record) true; mret (answer, false)
  | None =>
      _ ← _validate_definition principal d None;
      now ← now_;
      next ← lift (next_after ZoneInfo (ScheduleDefinition.cadence d) (now - 1));
      match next with
      | None => raise (no_future "schedule cadence has no occurrence at or after creation")
      | Some next =>
          schedule_id ← fresh;
          schedule ← lift (first_schedule schedule_id principal next now);
          revision ← lift (_revision schedule d principal now);
          _ ← on_schedules (ScheduleRepo.create schedule revision);
          _ ← create_idempotency principal key hash (Schedule.id schedule) now;
          _ ← _event "schedule.created" principal schedule None;
          mret ({| record_schedule := schedule; record_revision := revision; replayed := false |}, true)
      end
  end.
Definition create (principal : Principal) (d : ScheduleDefinition.t) (idempotency_key : string) : M ScheduleRecord :=
  _ ← lift (require_scope principal "schedule.write");
  key ← lift (_idempotency_key idempotency_key);
  let hash := _definition_hash d in
  on_conflict (woken (create_in principal d key hash)) (λ e, transaction (
    existing ← get_idempotency principal key;
    match existing with
    | Some record => if String.eqb (sir_request_hash record) hash then _record principal (sir_schedule_id record) true else raise e
    | None => raise e
    end)).

(** The schedule at its next revision, and when it fires next. *)
Definition revised (current : Schedule.t) (next : option datetime) (now : datetime) : Schedule.t :=
  current <| Schedule.current_revision := Schedule.current_revision current + 1 |>
          <| Schedule.next_fire_at := next |> <| Schedule.updated_at := now |>.
Definition next_run (current : Schedule.t) (c : Cadence) (now : datetime) (msg : string) : result (option datetime) :=
  if bool_decide (Schedule.state current = SCHEDULE_ACTIVE) then
    next ← next_after ZoneInfo c now;
    raise_if bool_decide (next = None) with no_future msg; Ok next
  else Ok None.
Definition terminal_update : exn := ConflictFor "schedule.terminal" "terminal schedule cannot be updated".
Definition update_in (principal : Principal) (schedule_id : UUID) (expected_revision : Z) (d : ScheduleDefinition.t)
    : M (ScheduleRecord * bool) :=
  current ← read_schedules (ScheduleRepo.get schedule_id principal);
  _ ← lift (_expected current expected_revision);
  if ended (Schedule.state current) then raise terminal_update else
  prior ← read_schedules (ScheduleRepo.get_revision schedule_id (Schedule.current_revision current) principal);
  _ ← _reject_started_call_plan prior;
  _ ← _validate_definition principal d (existing_job prior);
  now ← now_;
  next ← lift (next_run current (ScheduleDefinition.cadence d) now "schedule cadence has no occurrence at or after update");
  let updated := revised current next now in
  revision ← lift (_revision updated d principal now);
  _ ← on_schedules (ScheduleRepo.replace current updated (Some revision));
  _ ← _event "schedule.updated" principal updated (Some current);
  mret ({| record_schedule := updated; record_revision := revision; replayed := false |}, true).
Definition update (principal : Principal) (schedule_id : UUID) (expected_revision : Z) (d : ScheduleDefinition.t)
    : M ScheduleRecord :=
  _ ← lift (require_scope principal "schedule.write");
  woken (update_in principal schedule_id expected_revision d).

Definition set_if {A B} (f : A → B → A) (v : option B) (a : A) : A := match v with Some v => f a v | None => a end.
Definition patched_fields (d : ScheduleDefinition.t) (p : ScheduleDefinitionPatch) : ScheduleDefinition.t :=
  set_if (λ (d : ScheduleDefinition.t) v, d <| ScheduleDefinition.cadence := v |>) (patch_cadence p)
    (set_if (λ (d : ScheduleDefinition.t) v, d <| ScheduleDefinition.instruction := v |>) (patch_instruction p)
      (set_if (λ (d : ScheduleDefinition.t) v, d <| ScheduleDefinition.title := v |>) (patch_title p) d)).
Definition patch_in (principal : Principal) (schedule_id : UUID) (expected_revision : Z) (p : ScheduleDefinitionPatch)
    (key hash : string) : M (ScheduleRecord * bool) :=
  existing ← get_idempotency principal key;
  match existing with
  | Some record =>
      if negb (String.eqb (sir_request_hash record) hash) || negb (bool_decide (sir_schedule_id record = schedule_id))
      then raise idempotency_mismatch
      else answer ← _record principal schedule_id true; mret (answer, false)
  | None =>
  current ← read_schedules (ScheduleRepo.get schedule_id principal);
  _ ← lift (_expected current expected_revision);
  if ended (Schedule.state current) then raise terminal_update else
  prior ← read_schedules (ScheduleRepo.get_revision schedule_id (Schedule.current_revision current) principal);
  _ ← _reject_started_call_plan prior;
  before ← lift (_definition_from_revision prior);
  d ← match patch_mcp_servers p with
      | Some servers => d ← _server_updates principal before servers; mret (patched_fields d p)
      | None => mret (patched_fields before p)
      end;
  _ ← _validate_definition principal d (existing_job prior);
  now ← now_;
  if same_definition d before then
    _ ← create_idempotency principal key hash schedule_id now;
    mret ({| record_schedule := current; record_revision := prior; replayed := false |}, false)
  else
    next ← lift (next_run current (ScheduleDefinition.cadence d) now "schedule cadence has no occurrence after update");
    let updated := revised current next now in
    revision ← lift (_revision updated d principal now);
    _ ← on_schedules (ScheduleRepo.replace current updated (Some revision));
    _ ← create_idempotency principal key hash schedule_id now;
    _ ← _event "schedule.updated" principal updated (Some current);
    mret ({| record_schedule := updated; record_revision := revision; replayed := false |}, true)
  end.
Definition patch (principal : Principal) (schedule_id : UUID) (expected_revision : Z) (p : ScheduleDefinitionPatch)
    (idempotency_key : string) : M ScheduleRecord :=
  _ ← lift (require_scope principal "schedule.write");
  key ← lift (_idempotency_key idempotency_key);
  let hash := _patch_hash schedule_id expected_revision p in
  on_conflict (woken (patch_in principal schedule_id expected_revision p key hash)) (λ e, transaction (
    existing ← get_idempotency principal key;
    match existing with
    | None => raise e
    | Some record =>
        if negb (String.eqb (sir_request_hash record) hash) || negb (bool_decide (sir_schedule_id record = schedule_id))
        then raise idempotency_mismatch
        else _record principal schedule_id true
    end)).

Definition turned (current : Schedule.t) (st : ScheduleState) (reason : option SchedulePauseReason)
    (next : option datetime) (now : datetime) : Schedule.t :=
  current <| Schedule.state := st |> <| Schedule.pause_reason := reason |> <| Schedule.next_fire_at := next |>
          <| Schedule.updated_at := now |>.
Definition pause_in (principal : Principal) (schedule_id : UUID) (expected_revision : Z) : M (ScheduleRecord * bool) :=
  current ← read_schedules (ScheduleRepo.get schedule_id principal);
  _ ← lift (_expected current expected_revision);
  if bool_decide (Schedule.state current = PAUSED) then answer ← _record principal schedule_id false; mret (answer, false)
  else if negb (bool_decide (Schedule.state current = SCHEDULE_ACTIVE))
  then raise (ConflictFor "schedule.terminal" "schedule cannot be paused")
  else
    now ← now_;
    let updated := turned current PAUSED (Some PAUSED_BY_USER) None now in
    _ ← on_schedules (ScheduleRepo.replace current updated None);
    revision ← read_schedules (ScheduleRepo.get_revision schedule_id (Schedule.current_revision updated) principal);
    _ ← _event "schedule.paused" principal updated (Some current);
    mret ({| record_schedule := updated; record_revision := revision; replayed := false |}, false).
Definition pause (principal : Principal) (schedule_id : UUID) (expected_revision : Z) : M ScheduleRecord :=
  _ ← lift (require_scope principal "schedule.write");
  woken (pause_in principal schedule_id expected_revision).
Definition resume_in (principal : Principal) (schedule_id : UUID) (expected_revision : Z) : M (ScheduleRecord * bool) :=
  current ← read_schedules (ScheduleRepo.get schedule_id principal);
  _ ← lift (_expected current expected_revision);
  if bool_decide (Schedule.state current = SCHEDULE_ACTIVE)
  then answer ← _record principal schedule_id false; mret (answer, false)
  else if negb (bool_decide (Schedule.state current = PAUSED))
  then raise (ConflictFor "schedule.terminal" "schedule cannot be resumed")
  else
    revision ← read_schedules (ScheduleRepo.get_revision schedule_id (Schedule.current_revision current) principal);
    now ← now_;
    next ← lift (next_after ZoneInfo (Revision.cadence revision) now);
    match next with
    | None => raise (no_future "schedule has no future occurrence")
    | Some next =>
        let updated := turned current SCHEDULE_ACTIVE None (Some next) now in
        _ ← on_schedules (ScheduleRepo.replace current updated None);
        _ ← _event "schedule.resumed" principal updated (Some current);
        mret ({| record_schedule := updated; record_revision := revision; replayed := false |}, true)
    end.
Definition resume (principal : Principal) (schedule_id : UUID) (expected_revision : Z) : M ScheduleRecord :=
  _ ← lift (require_scope principal "schedule.write");
  woken (resume_in principal schedule_id expected_revision).
Definition cancel_in (principal : Principal) (schedule_id : UUID) (expected_revision : Z) : M (ScheduleRecord * bool) :=
  current ← read_schedules (ScheduleRepo.get schedule_id principal);
  _ ← lift (_expected current expected_revision);
  if bool_decide (Schedule.state current = SCHEDULE_CANCELLED)
  then answer ← _record principal schedule_id false; mret (answer, false)
  else if bool_decide (Schedule.state current = SCHEDULE_COMPLETED)
  then raise (ConflictFor "schedule.terminal" "completed schedule cannot be cancelled")
  else
    now ← now_;
    let updated := turned current SCHEDULE_CANCELLED None None now in
    _ ← on_schedules (ScheduleRepo.replace current updated None);
    revision ← read_schedules (ScheduleRepo.get_revision schedule_id (Schedule.current_revision updated) principal);
    _ ← _event "schedule.cancelled" principal updated (Some current);
    mret ({| record_schedule := updated; record_revision := revision; replayed := false |}, false).
Definition cancel (principal : Principal) (schedule_id : UUID) (expected_revision : Z) : M ScheduleRecord :=
  _ ← lift (require_scope principal "schedule.cancel");
  woken (cancel_in principal schedule_id expected_revision).

(** ** Reading *)
Definition get (principal : Principal) (schedule_id : UUID) : M ScheduleRecord :=
  _ ← lift (require_scope principal "schedule.read");
  transaction (_record principal schedule_id false).
(** A cursor is base64 of JSON: [None] is one that does not decode. *)
Context (decode_schedule_cursor : string → option ScheduleCursor) (encode_schedule_cursor : ScheduleCursor → string).
Context (decode_occurrence_cursor : string → option OccurrenceCursor) (encode_occurrence_cursor : OccurrenceCursor → string).
Definition decoded {A} (decode : string → option A) (msg : string) (v : option string) : result (option A) :=
  match v with
  | None => Ok None
  | Some v => match decode v with Some c => Ok (Some c) | None => Raise (ValueError msg) end
  end.
(** The cursor after a page, when a row was left over. *)
Definition page_of_rows {A B} (limit : Z) (values : list A) (shown : list B) (cursor_of : B → string) : Page B :=
  {| page_items := shown;
     next_cursor := if limit <? Z.of_nat (length values) then cursor_of <$> last shown else None |}.
Definition list_schedules (principal : Principal) (limit : Z) (cursor : option string)
    (states : option (list ScheduleState)) : M (Page ScheduleRecord) :=
  _ ← lift (require_scope principal "schedule.read");
  if limit <=? 0 then raise (ValueError "schedule list limit must be positive") else
  parsed ← lift (decoded decode_schedule_cursor "schedule cursor is malformed" cursor);
  transaction (
    rows ← read_schedules (ScheduleRepo.list_schedules principal (limit + 1) parsed states);
    let visible := take (Z.to_nat limit) rows in
    let identity x := (Schedule.id x, Schedule.current_revision x) in
    revisions ← read_schedules (ScheduleRepo.get_revisions (map identity visible) principal);
    records ← lift (mapM (λ x, match revisions !! identity x with
      | Some r => Ok {| record_schedule := x; record_revision := r; replayed := false |}
      | None => Raise (KeyError "revision") end) visible);
    mret (page_of_rows limit rows records (λ r, encode_schedule_cursor
      {| sc_updated_at := Schedule.updated_at (record_schedule r); sc_id := Schedule.id (record_schedule r) |}))).
Definition list_occurrences (principal : Principal) (schedule_id : UUID) (limit : Z) (cursor : option string)
    : M (Page Occurrence.t) :=
  _ ← lift (require_scope principal "schedule.read");
  if limit <=? 0 then raise (ValueError "schedule occurrence limit must be positive") else
  parsed ← lift (decoded decode_occurrence_cursor "schedule occurrence cursor is malformed" cursor);
  values ← transaction (read_schedules (ScheduleRepo.list_occurrences schedule_id principal (limit + 1) parsed));
  mret (page_of_rows limit values (take (Z.to_nat limit) values) (λ o, encode_occurrence_cursor
    {| oc_nominal_fire_at := Occurrence.nominal_fire_at o; oc_id := Occurrence.id o |})).
End service.
