(* ===== verification/ScheduleServiceSpec.v ===== *)
(** * What a lifecycle operation does

    An operation changes at most the one schedule it names: one of its caller's that has not
    ended, at the revision the caller read. A definition it stores is one the caller has the
    scopes for, within the limits; repeating a creation gives the same schedule again. *)
From S2P Require Import Prelude PyDecimal RunModel Sessions Messages StateLogic Calendar Recurrence.
From S2P Require Import Schedules ScheduleStore ScheduleStoreSpec ProcessEvents CallPlans Materializer MaterializerSpec.
From S2P Require Import ScheduleService.

Section spec.
Context {W : Type} `{SchedulePorts W, ServicePorts W} (ZoneInfo : string → Zone) (uuid_str : UUID → string).
Context (revision_grant_id : UUID → UUID → UUID) (contains_credential : string → bool).
Context (limits : ScheduleDefinitionLimits) (sha256_json : json → string).
Context (dump_patch : ScheduleDefinitionPatch → dict).
Abbreviation M := (stateM (Uow W)).

(** ** What only reads *)
Lemma reads_server_scopes tenant l scopes : keeps world_only (server_scopes tenant l scopes : M (gset string)).
Proof. revert scopes. induction l as [|x l IH]; intros scopes; cbn [server_scopes]; keeps. Qed.
Lemma reads_mcp_scopes tenant servers : keeps world_only (mcp_server_scopes tenant servers : M (gset string)).
Proof. apply reads_server_scopes. Qed.
Hint Resolve reads_mcp_scopes : keeps.
Lemma reads_job p d s r g t : keeps world_only (validate_job revision_grant_id p d s r g t : M unit).
Proof. unfold validate_job. cbv zeta. keeps. Qed.
Lemma reads_profile i p : keeps world_only (browser_profile i p : M BrowserProfileStatus).
Proof.
  intros u. unfold browser_profile. pose proof (keeps_on_world (browser_profiles_get i p) u) as K.
  by destruct (on_world _ u) as [[|[]]].
Qed.
Hint Resolve reads_job reads_profile : keeps.
Lemma reads_browser p d : keeps world_only (validate_browser p d : M unit).
Proof. unfold validate_browser. keeps. Qed.
Hint Resolve reads_browser : keeps.
Lemma reads_validate p d t : keeps world_only (_validate_definition revision_grant_id contains_credential limits p d t : M unit).
Proof. unfold _validate_definition. keeps. Qed.
Lemma reads_record p i b : keeps world_only (_record p i b : M ScheduleRecord).
Proof. unfold _record. keeps. Qed.
Lemma reads_updates p d servers : keeps world_only (_server_updates p d servers : M ScheduleDefinition.t).
Proof. unfold _server_updates. keeps. Qed.
Lemma reads_started r : keeps world_only (_reject_started_call_plan r : M unit).
Proof. unfold _reject_started_call_plan. keeps. Qed.
Lemma reads_wake : keeps world_only (_wake : M unit).
Proof. intros u. unfold _wake. by destruct wake_worker. Qed.
Lemma same_event t p s b : keeps same_schedules (_event uuid_str t p s b : M unit).
Proof. unfold _event. keeps. Qed.
Lemma same_record p i b : keeps same_schedules (_record p i b : M ScheduleRecord).
Proof. eapply keeps_weaken; [apply reads_record|apply world_only_schedules]. Qed.
Lemma reads_idempotency p key : keeps world_only (get_idempotency p key : M (option ScheduleIdempotencyRecord)).
Proof. apply keeps_gets, _. Qed.
Hint Resolve reads_idempotency same_record reads_validate reads_record reads_updates reads_started reads_wake same_event : keeps.

(** ** What a definition that passed is *)
Definition allowed (principal : Principal) (d : ScheduleDefinition.t) : Prop :=
  ScheduleDefinition.requested_scopes d ⊆ Principal.scopes principal ∧
  max_steps (ScheduleDefinition.limits d) <= max_steps_per_run limits ∧
  max_model_calls (ScheduleDefinition.limits d) <= max_model_calls_per_run limits ∧
  max_tool_calls (ScheduleDefinition.limits d) <= max_tool_calls_per_run limits ∧
  ScheduleDefinition.misfire_grace_seconds d <= max_misfire_grace_seconds limits ∧
  ScheduleDefinition.run_timeout_seconds d <= max_run_timeout_seconds limits ∧
  ∃ cost, max_cost (ScheduleDefinition.limits d) = Some cost ∧ dec_ltb (max_cost_per_run limits) cost = false.
Lemma ceilings_Ok l t : check_ceilings l = Ok t → ∀ a m r, (a, m, r) ∈ l → a <= m.
Proof.
  induction l as [|[[a m] r] l IH]; cbn [check_ceilings]; [intros _ ? ? ? []%elem_of_nil|].
  intros [Hle Hl]%raise_if_ok a' m' r' [[= -> -> ->]|?]%elem_of_cons; [lia|by eapply IH].
Qed.
Lemma check_definition_Ok principal d t : check_definition contains_credential limits principal d = Ok t → allowed principal d.
Proof.
  unfold check_definition, mbind, result_bind. destruct (as_invalid _ _); [|done]. destruct (as_invalid _ _); [|done].
  intros [Hs E]%raise_if_ok. apply raise_if_ok in E as [_ E]. apply raise_if_ok in E as [_ E].
  destruct (check_ceilings _) as [v|] eqn:Ec; [|done]. pose proof (ceilings_Ok _ _ Ec) as Hc. clear Ec.
  apply negb_false_iff, bool_decide_eq_true in Hs. unfold ceiling_checks in Hc.
  destruct (max_cost _) as [cost|] eqn:Em; [|done]. apply raise_if_ok in E as [Hcost _].
  split_and!; [done|eapply (Hc _ _ "schedule.max_steps_limit")|eapply (Hc _ _ "schedule.max_model_calls_limit")|
    eapply (Hc _ _ "schedule.max_tool_calls_limit")|eapply (Hc _ _ "schedule.misfire_grace_limit")|
    eapply (Hc _ _ "schedule.run_timeout_limit")|by exists cost]; rewrite !elem_of_cons; auto 9.
Qed.
Lemma validate_Ok principal d t u :
  returns (λ _ u', world_only u u' ∧ allowed principal d)
    (_validate_definition revision_grant_id contains_credential limits principal d t) u.
Proof.
  apply (wp_mono _ (λ r u', world_only u u' ∧ ∀ a, r = Ok a → allowed principal d)); [|by intros r u' [? Ha] a ->; split; [done|eapply Ha]].
  apply wp_yields; [apply reads_validate|]. unfold _validate_definition. do 2 (apply yields_bind_any; intros ?).
  destruct (negb _); [apply yields_raise|]. destruct (_ && _); [apply yields_raise|]. apply yields_bind_any; intros _.
  intros st v st'. unfold mbind at 1, stateM_bind, lift. destruct (check_definition _ _ _ _) eqn:E; [|done]. intros _.
  by eapply check_definition_Ok.
Qed.

(** ** What an operation changes *)
Inductive lifecycle :=
| Update (d : ScheduleDefinition.t)
| Patch (p : ScheduleDefinitionPatch) (idempotency_key : string)
| Pause
| Resume
| Cancel.
Definition perform (op : lifecycle) (principal : Principal) (i : UUID) (n : Z) : M ScheduleRecord :=
  match op with
  | Update d => update ZoneInfo uuid_str revision_grant_id contains_credential limits principal i n d
  | Patch p key => patch ZoneInfo uuid_str revision_grant_id contains_credential limits sha256_json dump_patch principal i n p key
  | Pause => pause uuid_str principal i n
  | Resume => resume ZoneInfo uuid_str principal i n
  | Cancel => cancel uuid_str principal i n
  end.
(** The states an operation leads between. *)
Definition leads (op : lifecycle) (x y : Schedule.t) : Prop :=
  match op with
  | Update _ | Patch _ _ => Schedule.state y = Schedule.state x ∧ Schedule.pause_reason y = Schedule.pause_reason x
  | Pause => Schedule.state x = SCHEDULE_ACTIVE ∧ Schedule.state y = PAUSED ∧ Schedule.pause_reason y = Some PAUSED_BY_USER
  | Resume => Schedule.state x = PAUSED ∧ Schedule.state y = SCHEDULE_ACTIVE ∧ Schedule.pause_reason y = None
  | Cancel => Schedule.state y = SCHEDULE_CANCELLED ∧ Schedule.pause_reason y = None
  end.
(** An active schedule fires next at the first instant of its cadence after that moment, no other fires. *)
Definition fires (y : Schedule.t) (r : Revision.t) : Prop :=
  if bool_decide (Schedule.state y = SCHEDULE_ACTIVE) then
    ∃ now t, Schedule.next_fire_at y = Some t ∧ next_after ZoneInfo (Revision.cadence r) now = Ok (Some t)
  else Schedule.next_fire_at y = None.
Definition within_authority (principal : Principal) (r : Revision.t) : Prop :=
  Revision.requested_scopes r ⊆ Principal.scopes principal ∧ max_steps (Revision.limits r) <= max_steps_per_run limits ∧
  max_model_calls (Revision.limits r) <= max_model_calls_per_run limits ∧
  max_tool_calls (Revision.limits r) <= max_tool_calls_per_run limits ∧
  Revision.misfire_grace_seconds r <= max_misfire_grace_seconds limits ∧
  Revision.run_timeout_seconds r <= max_run_timeout_seconds limits ∧
  ∃ cost, max_cost (Revision.limits r) = Some cost ∧ dec_ltb (max_cost_per_run limits) cost = false.
Definition same_runs (s s' : ScheduleRepo.t) : Prop :=
  ScheduleRepo._occurrences s' = ScheduleRepo._occurrences s ∧
  ScheduleRepo._occurrence_keys s' = ScheduleRepo._occurrence_keys s.
Definition untouched (s s' : ScheduleRepo.t) : Prop :=
  ScheduleRepo._schedules s' = ScheduleRepo._schedules s ∧ ScheduleRepo._revisions s' = ScheduleRepo._revisions s.
Definition one_changed (op : lifecycle) (principal : Principal) (i : UUID) (n : Z) (s s' : ScheduleRepo.t) : Prop := ∃ x y,
  ScheduleRepo._schedules s !! i = Some x ∧ schedule_owned_by x principal = true ∧ Schedule.current_revision x = n ∧
  ended (Schedule.state x) = false ∧ ScheduleRepo._schedules s' = <[i := y]> (ScheduleRepo._schedules s) ∧ leads op x y ∧
  Schedule.tenant_id y = Schedule.tenant_id x ∧ Schedule.principal_id y = Schedule.principal_id x ∧
  Schedule.created_at y = Schedule.created_at x ∧ Schedule.consecutive_failures y = Schedule.consecutive_failures x ∧
  ((ScheduleRepo._revisions s' = ScheduleRepo._revisions s ∧ Schedule.current_revision y = n ∧
    ∃ r, ScheduleRepo._revisions s !! (i, n) = Some r ∧ fires y r) ∨
   ∃ r, ScheduleRepo._revisions s !! (i, n + 1) = None ∧
     ScheduleRepo._revisions s' = <[(i, n + 1) := r]> (ScheduleRepo._revisions s) ∧
     Schedule.current_revision y = n + 1 ∧ within_authority principal r ∧ fires y r).
Definition effect (op : lifecycle) (principal : Principal) (i : UUID) (n : Z) (s s' : ScheduleRepo.t) : Prop :=
  same_runs s s' ∧ (untouched s s' ∨ one_changed op principal i n s s').
Lemma effect_untouched op p i n (u u' : Uow W) : schedules u' = schedules u → effect op p i n (schedules u) (schedules u').
Proof. intros ->. by repeat split; left. Qed.

(** ** The steps *)
Lemma returns_replace {B} x y (k : Schedule.t → M B) Q u :
  (ScheduleRepo._schedules (schedules u) !! Schedule.id x = Some x → Schedule.id y = Schedule.id x →
   Schedule.current_revision y = Schedule.current_revision x →
   returns Q (k y) (u <| schedules := ScheduleRepo.put y (schedules u) |>)) →
  returns Q (on_schedules (ScheduleRepo.replace x y None) ≫= k) u.
Proof.
  intros Hk. apply wp_bind, wp_on_schedules. unfold ScheduleRepo.replace. case_bool_decide; [|by intros ? ?].
  case_bool_decide; [|by intros ? ?]. case_bool_decide; [|by intros ? ?]. by apply Hk.
Qed.
Lemma returns_revise {B} x y r (k : Schedule.t → M B) Q u :
  (ScheduleRepo._schedules (schedules u) !! Schedule.id x = Some x → Schedule.id y = Schedule.id x →
   Revision.revision r = Schedule.current_revision x + 1 → Schedule.current_revision y = Revision.revision r →
   ScheduleRepo._revisions (schedules u) !! (Schedule.id x, Revision.revision r) = None →
   returns Q (k y) (u <| schedules := ScheduleRepo.put y ((schedules u) <| ScheduleRepo._revisions :=
     <[(Schedule.id x, Revision.revision r) := r]> (ScheduleRepo._revisions (schedules u)) |>) |>)) →
  returns Q (on_schedules (ScheduleRepo.replace x y (Some r)) ≫= k) u.
Proof.
  intros Hk. apply wp_bind, wp_on_schedules. unfold ScheduleRepo.replace. case_bool_decide; [|by intros ? ?].
  case_bool_decide; [|by intros ? ?]. cbn [negb]. destruct (_ || _) eqn:E; [by intros ? ?|].
  rewrite !orb_false_iff, !negb_false_iff, bool_decide_eq_true, bool_decide_eq_false, <- eq_None_not_Some in E.
  destruct E as [[[_ E2%Z.eqb_eq] E3%Z.eqb_eq] E4]. by apply Hk.
Qed.
Lemma get_owned i p s x : inv s → ScheduleRepo.get i p s = Ok x →
  ScheduleRepo._schedules s !! i = Some x ∧ Schedule.id x = i ∧ schedule_owned_by x p = true.
Proof.
  intros I. unfold ScheduleRepo.get. destruct (_ !! _) eqn:E; [|done]. destruct (schedule_owned_by _ _) eqn:O; [|done].
  intros [= <-]. split_and!; [done|by apply (inv_ids _ I)|done].
Qed.
Lemma expected_Ok x n t : _expected x n = Ok t → Schedule.current_revision x = n.
Proof. unfold _expected. intros [E%negb_false_iff%Z.eqb_eq _]%raise_if_ok. done. Qed.
Lemma revision_Ok x d p now r : _revision x d p now = Ok r →
  Revision.schedule_id r = Schedule.id x ∧ Revision.revision r = Schedule.current_revision x ∧
  Revision.cadence r = ScheduleDefinition.cadence d ∧ (allowed p d → within_authority p r).
Proof.
  unfold _revision, Revision.execution_is_finite_and_cadence_is_consistent.
  intros [_ E]%raise_if_ok. do 3 (apply raise_if_ok in E as [_ E]). unfold mbind, result_bind in E.
  destruct (if is_once _ then _ else _); [|done]. destruct (check_call_plan _ _); [|done]. by injection E as <-.
Qed.
(** A transaction that returns did what its body did. *)
Lemma returns_transaction {A} (Q : A → Uow W → Prop) (m : M A) u : returns Q m u → returns Q (transaction m) u.
Proof. unfold returns, wp, transaction. by destruct (m u) as [[]]. Qed.
Lemma returns_woken {A} (Q : A → Uow W → Prop) (m : M (A * bool)) u :
  (∀ a u1 u2, Q a u1 → world_only u1 u2 → Q a u2) → returns (λ r, Q r.1) m u → returns Q (woken m) u.
Proof.
  intros HQ Hm. unfold woken. eapply returns_bind; [by apply returns_transaction|]. intros [a []] u1 Hr; cbn [fst snd] in *.
  - apply (returns_after world_only); [apply reads_wake|]. intros _ u2 Hw. apply returns_ret. by eapply HQ.
  - apply (returns_after world_only); [apply keeps_ret, _|]. intros _ u2 Hw. apply returns_ret. by eapply HQ.
Qed.
Definition acts (op : lifecycle) (p : Principal) (i : UUID) (n : Z) (u : Uow W) (_ : ScheduleRecord) (u' : Uow W) : Prop :=
  effect op p i n (schedules u) (schedules u').
Lemma acts_world op p i n u a u1 u2 : acts op p i n u a u1 → world_only u1 u2 → acts op p i n u a u2.
Proof. unfold acts. by intros Ha [-> _]. Qed.
(** The end of an operation: what is left changes no schedule. *)
Lemma returns_rest {A} (m : M A) (Q : Uow W → Prop) u :
  keeps same_schedules m → (∀ u', same_schedules u u' → Q u') → returns (λ _ u', Q u') m u.
Proof. intros Hm HQ. apply (wp_keeps same_schedules); [done|]. intros r u' Hs a _. by apply HQ. Qed.
Lemma answered_acts op p i n j b (u : Uow W) :
  returns (λ r, acts op p i n u r.1) (answer ← _record p j b; mret (answer, false)) u.
Proof. apply (returns_rest _ (λ u', effect op p i n (schedules u) (schedules u'))); [keeps|apply effect_untouched]. Qed.
(** A schedule put in its place, its revision kept. *)
Lemma put_effect op p i n (u u' : Uow W) x y r :
  ScheduleRepo._schedules (schedules u) !! i = Some x → schedule_owned_by x p = true → Schedule.current_revision x = n →
  ended (Schedule.state x) = false → Schedule.id y = i → Schedule.current_revision y = n → leads op x y →
  Schedule.tenant_id y = Schedule.tenant_id x → Schedule.principal_id y = Schedule.principal_id x →
  Schedule.created_at y = Schedule.created_at x → Schedule.consecutive_failures y = Schedule.consecutive_failures x →
  ScheduleRepo._revisions (schedules u) !! (i, n) = Some r → fires y r →
  schedules u' = ScheduleRepo.put y (schedules u) → effect op p i n (schedules u) (schedules u').
Proof.
  intros Hx Ho Hn He Hi Hy Hl ? ? ? ? Hr Hf ->. split; [done|]. right. exists x, y. cbn. rewrite Hi. split_and!; try done.
  left. split_and!; [done..|]. by exists r.
Qed.
Lemma pause_acts p i n u : inv (schedules u) → returns (λ r, acts Pause p i n u r.1) (pause_in uuid_str p i n) u.
Proof.
  intros I. unfold pause_in. apply returns_read. intros x (Hx & Hid & Ho)%get_owned; [|done].
  apply returns_lift. intros t Hn%expected_Ok. case_bool_decide; [apply answered_acts|].
  case_bool_decide as Ha; cbn [negb]; [|apply returns_raise]. apply (returns_after world_only); [apply keeps_clock|].
  intros now u1 [E1 _]. apply returns_replace. intros _ _ _. apply returns_read. intros r Hr%get_revision_Ok.
  cbn in Hr. rewrite E1, Hn in Hr. apply (returns_rest _ (λ u', effect Pause p i n (schedules u) (schedules u'))); [keeps|].
  intros u2 S2. apply (put_effect Pause p i n u u2 x (turned x PAUSED (Some PAUSED_BY_USER) None now) r); try done;
    [by rewrite Ha|by rewrite S2; cbn; rewrite E1].
Qed.
Lemma resume_acts p i n u : inv (schedules u) → returns (λ r, acts Resume p i n u r.1) (resume_in ZoneInfo uuid_str p i n) u.
Proof.
  intros I. unfold resume_in. apply returns_read. intros x (Hx & Hid & Ho)%get_owned; [|done].
  apply returns_lift. intros t Hn%expected_Ok. case_bool_decide; [apply answered_acts|].
  case_bool_decide as Ha; cbn [negb]; [|apply returns_raise]. apply returns_read. intros r Hr%get_revision_Ok. rewrite Hn in Hr.
  apply (returns_after world_only); [apply keeps_clock|]. intros now u1 [E1 _]. apply returns_lift. intros [next|] Hnext; [|apply returns_raise].
  apply returns_replace. intros _ _ _. apply (returns_rest _ (λ u', effect Resume p i n (schedules u) (schedules u'))); [keeps|].
  intros u2 S2. apply (put_effect Resume p i n u u2 x (turned x SCHEDULE_ACTIVE None (Some next) now) r); try done;
    [by rewrite Ha|by exists now, next|by rewrite S2; cbn; rewrite E1].
Qed.
Lemma cancel_acts p i n u : inv (schedules u) → returns (λ r, acts Cancel p i n u r.1) (cancel_in uuid_str p i n) u.
Proof.
  intros I. unfold cancel_in. apply returns_read. intros x (Hx & Hid & Ho)%get_owned; [|done].
  apply returns_lift. intros t Hn%expected_Ok. case_bool_decide as Hc; [apply answered_acts|].
  case_bool_decide as Hd; [apply returns_raise|]. apply (returns_after world_only); [apply keeps_clock|].
  intros now u1 [E1 _]. apply returns_replace. intros _ _ _. apply returns_read. intros r Hr%get_revision_Ok.
  cbn in Hr. rewrite E1, Hn in Hr. apply (returns_rest _ (λ u', effect Cancel p i n (schedules u) (schedules u'))); [keeps|].
  intros u2 S2. apply (put_effect Cancel p i n u u2 x (turned x SCHEDULE_CANCELLED None None now) r); try done;
    [by destruct (Schedule.state x)|by rewrite S2; cbn; rewrite E1].
Qed.

(** A request key changes no other row. *)
Definition same_rows (u u' : Uow W) : Prop := same_runs (schedules u) (schedules u') ∧ untouched (schedules u) (schedules u').
#[global] Instance same_rows_preorder : PreOrder same_rows.
Proof. split; [done|]. intros a b c [[? ?] [? ?]] [[? ?] [? ?]]. repeat split; congruence. Qed.
Lemma rows_same {A} (m : M A) : keeps same_schedules m → keeps same_rows m.
Proof. intros Hm. eapply keeps_weaken; [exact Hm|]. unfold same_rows. by intros u u' ->. Qed.
Lemma rows_idempotency p key hash i now : keeps same_rows (create_idempotency p key hash i now : M unit).
Proof.
  unfold create_idempotency. apply keeps_bind; [apply _| |intros; apply rows_same; keeps]. intros u. unfold on_schedules.
  unfold ScheduleRepo.create_idempotency. by repeat case_match; simplify_eq.
Qed.
Lemma rows_event t p s b : keeps same_rows (_event uuid_str t p s b : M unit).
Proof. apply rows_same, same_event. Qed.
Hint Resolve rows_idempotency rows_event : keeps.
Lemma returns_settled {A} (m : M A) (Q : Uow W → Prop) u :
  keeps same_rows m → (∀ u', same_rows u u' → Q u') → returns (λ _ u', Q u') m u.
Proof. intros Hm HQ. apply (wp_keeps same_rows); [done|]. intros r u' Hs a _. by apply HQ. Qed.
Lemma effect_same op p i n (u u' : Uow W) : same_rows u u' → effect op p i n (schedules u) (schedules u').
Proof. intros [? ?]. split; [done|by left]. Qed.
Definition revised_by (x : Schedule.t) (r : Revision.t) (next : option datetime) (now : datetime) (s s' : ScheduleRepo.t) : Prop :=
  same_runs s s' ∧ ScheduleRepo._schedules s' = <[Schedule.id x := revised x next now]> (ScheduleRepo._schedules s) ∧
  ScheduleRepo._revisions s !! (Schedule.id x, Revision.revision r) = None ∧
  ScheduleRepo._revisions s' = <[(Schedule.id x, Revision.revision r) := r]> (ScheduleRepo._revisions s).
Lemma revised_fires x c now msg next r : next_run ZoneInfo x c now msg = Ok next → Revision.cadence r = c →
  fires (revised x next now) r.
Proof.
  unfold next_run, fires. change (Schedule.state (revised x next now)) with (Schedule.state x). intros Hn <-.
  case_bool_decide; [|by injection Hn as <-]. unfold mbind, result_bind in Hn. destruct (next_after _ _ _) as [v|] eqn:E; [|done].
  apply raise_if_ok in Hn as [Hb [= <-]]. apply bool_decide_eq_false in Hb. destruct v as [v|]; [|done]. by exists now, v.
Qed.
Lemma revise_effect op p i n (u u' : Uow W) x d r next now msg :
  ScheduleRepo._schedules (schedules u) !! i = Some x → Schedule.id x = i → schedule_owned_by x p = true →
  Schedule.current_revision x = n → ended (Schedule.state x) = false → leads op x (revised x next now) →
  allowed p d → next_run ZoneInfo x (ScheduleDefinition.cadence d) now msg = Ok next →
  _revision (revised x next now) d p now = Ok r → revised_by x r next now (schedules u) (schedules u') →
  effect op p i n (schedules u) (schedules u').
Proof.
  intros Hx Hi Ho Hn He Hl Ha Hnext (_ & Hrev & Hcad & Hauth)%revision_Ok (Hruns & Hs & Hnew & Hr). split; [done|]. right.
  change (Schedule.current_revision (revised x next now)) with (Schedule.current_revision x + 1) in Hrev.
  rewrite Hn in Hrev. rewrite Hi, Hrev in *. exists x, (revised x next now). split_and!; try done. right. exists r.
  split_and!; [done..|cbn; lia|by apply Hauth|by eapply revised_fires].
Qed.
Lemma returns_revised {B} x y r next now (k : Schedule.t → M B) Q u : y = revised x next now →
  (∀ u', revised_by x r next now (schedules u) (schedules u') → returns Q (k y) u') →
  returns Q (on_schedules (ScheduleRepo.replace x y (Some r)) ≫= k) u.
Proof. intros -> Hk. apply returns_revise. intros _ _ _ _ Hnew. apply Hk. by split. Qed.
Lemma revised_by_rows x r next now s (u u' : Uow W) :
  revised_by x r next now s (schedules u) → same_rows u u' → revised_by x r next now s (schedules u').
Proof. intros ([] & ? & ? & ?) [[] []]. repeat split; congruence. Qed.
Lemma update_acts p i n d u : inv (schedules u) → returns (λ r, acts (Update d) p i n u r.1)
  (update_in ZoneInfo uuid_str revision_grant_id contains_credential limits p i n d) u.
Proof.
  intros I. unfold update_in. apply returns_read. intros x (Hx & Hid & Ho)%get_owned; [|done].
  apply returns_lift. intros t Hn%expected_Ok. destruct (ended (Schedule.state x)) eqn:He; [apply returns_raise|].
  apply returns_read. intros prior _. apply (returns_after world_only); [apply reads_started|]. intros _ u1 [E1 _].
  eapply returns_bind; [apply validate_Ok|]. intros _ u2 [[E2 _] Ha].
  apply (returns_after world_only); [apply keeps_clock|]. intros now u3 [E3 _]. apply returns_lift. intros next Hnext.
  apply returns_lift. intros r Hr. eapply returns_revised; [done|]. intros u4 Hby.
  apply (returns_settled _ (λ u', effect (Update d) p i n (schedules u) (schedules u'))); [keeps|]. intros u5 S5.
  apply (revised_by_rows _ _ _ _ _ _ _ Hby) in S5. rewrite E3, E2, E1 in S5. by eapply revise_effect.
Qed.
Lemma patch_acts p i n q key k hash u : inv (schedules u) → returns (λ r, acts (Patch q key) p i n u r.1)
  (patch_in ZoneInfo uuid_str revision_grant_id contains_credential limits p i n q k hash) u.
Proof.
  intros I. unfold patch_in. apply (returns_after world_only); [apply keeps_gets, _|]. intros existing u0 [E0 _].
  assert (∀ u', same_rows u0 u' → effect (Patch q key) p i n (schedules u) (schedules u')) as Hsame.
  { intros u' Hs. rewrite <- E0. by apply effect_same. }
  destruct existing as [record|].
  { destruct (_ || _); [apply returns_raise|]. apply (returns_settled _ (λ u', effect (Patch q key) p i n (schedules u) (schedules u'))); [|done].
    apply rows_same. keeps. }
  apply returns_read. rewrite E0. intros x (Hx & Hid & Ho)%get_owned; [|done].
  apply returns_lift. intros t Hn%expected_Ok. destruct (ended (Schedule.state x)) eqn:He; [apply returns_raise|].
  apply returns_read. intros prior _. apply (returns_after world_only); [apply reads_started|]. intros _ u1 [E1 _].
  apply returns_lift. intros before _. apply (returns_after world_only); [keeps|]. intros d u2 [E2 _].
  eapply returns_bind; [apply validate_Ok|]. intros _ u3 [[E3 _] Ha].
  apply (returns_after world_only); [apply keeps_clock|]. intros now u4 [E4 _].
  destruct (same_definition _ _).
  { apply (returns_settled _ (λ u', effect (Patch q key) p i n (schedules u) (schedules u'))); [keeps|].
    intros u' [? ?]. apply Hsame. split; by rewrite <- E1, <- E2, <- E3, <- E4. }
  apply returns_lift. intros next Hnext. apply returns_lift. intros r Hr. eapply returns_revised; [done|]. intros u5 Hby.
  apply (returns_settled _ (λ u', effect (Patch q key) p i n (schedules u) (schedules u'))); [keeps|]. intros u6 S6.
  apply (revised_by_rows _ _ _ _ _ _ _ Hby) in S6. rewrite E4, E3, E2, E1, E0 in S6. by eapply revise_effect.
Qed.

(** ** The operations *)
Lemma returns_scope {A} scope p (m : M A) Q u :
  returns Q m u → returns (λ a u', scope ∈ Principal.scopes p ∧ Q a u') (_ ← lift (require_scope p scope); m) u.
Proof.
  intros Hm. apply returns_lift. intros t [Hs%negb_false_iff%bool_decide_eq_true _]%raise_if_ok.
  intros a E. split; [done|by apply Hm].
Qed.
Definition scope_of (op : lifecycle) : string := match op with Cancel => "schedule.cancel" | _ => "schedule.write" end.
(** A conflict is answered by what is there already. *)
Lemma returns_conflict {A} (m : M A) handler (Q : A → Uow W → Prop) u :
  (∀ e u', m u = (Raise e, u') → returns Q (handler e) u') → returns Q m u → returns Q (on_conflict m handler) u.
Proof.
  unfold on_conflict, returns, wp. intros Hh Hm. destruct (m u) as [[a|e] u'] eqn:E; [done|].
  specialize (Hh e u' eq_refl). by destruct e.
Qed.
Lemma woken_raises {A} (m : M (A * bool)) u e u' : woken m u = (Raise e, u') → world_only u u'.
Proof.
  unfold woken, mbind, stateM_bind. destruct (transaction m u) as [[[a b]|e'] u1] eqn:E.
  - destruct b; cbn; [|done]. unfold _wake. by destruct wake_worker.
  - intros [= _ <-]. by apply transaction_Raise in E.
Qed.
Lemma perform_acts op p i n u : inv (schedules u) →
  returns (λ r u', scope_of op ∈ Principal.scopes p ∧ acts op p i n u r u') (perform op p i n) u.
Proof.
  intros I. destruct op as [d|q key| | |]; cbn [perform scope_of]; apply returns_scope.
  - apply returns_woken; [apply acts_world|by apply update_acts].
  - apply returns_lift. intros k _. apply returns_conflict; [|apply returns_woken; [apply acts_world|by apply patch_acts]].
    intros e u1 [E1 _]%woken_raises. apply returns_transaction.
    apply (wp_keeps world_only); [keeps|]. intros r u2 [E2 _] a _. apply effect_untouched. congruence.
  - apply returns_woken; [apply acts_world|by apply pause_acts].
  - apply returns_woken; [apply acts_world|by apply resume_acts].
  - apply returns_woken; [apply acts_world|by apply cancel_acts].
Qed.
Lemma perform_raises op p i n u e u' : perform op p i n u = (Raise e, u') → world_only u u'.
Proof.
  assert (∀ scope (m : M ScheduleRecord), (∀ e u', m u = (Raise e, u') → world_only u u') →
    (_ ← lift (require_scope p scope); m) u = (Raise e, u') → world_only u u') as Hscope.
  { intros scope m Hm. unfold mbind, stateM_bind, lift. destruct (require_scope p scope); [apply Hm|by intros [= _ <-]]. }
  destruct op as [d|q key| | |]; apply Hscope; try apply woken_raises.
  intros e1 u1. unfold mbind at 1, stateM_bind, lift at 1. destruct (_idempotency_key key); [|by intros [= _ <-]].
  unfold on_conflict. destruct (woken _ u) as [[r|e2] u2] eqn:E; [done|]. apply woken_raises in E.
  destruct e2; try (by intros [= _ <-]); intros E3%transaction_Raise; exact (transitivity E E3).
Qed.


(** ** Creating, and creating again *)
Context (dump_definition : ScheduleDefinition.t → dict).
Definition answers_key (p : Principal) (key hash : string) (i : UUID) (s : ScheduleRepo.t) : Prop :=
  ∃ record, ScheduleRepo.get_idempotency (Principal.tenant_id p) (Principal.principal_id p) key s = Some record ∧
    sir_request_hash record = hash ∧ sir_schedule_id record = i.
Definition made (p : Principal) (d : ScheduleDefinition.t) (key hash : string) (s s' : ScheduleRepo.t) (a : ScheduleRecord) : Prop :=
  let x := record_schedule a in let r := record_revision a in
  ScheduleRepo._schedules s !! Schedule.id x = None ∧
  ScheduleRepo._schedules s' = <[Schedule.id x := x]> (ScheduleRepo._schedules s) ∧
  ScheduleRepo._revisions s' = <[(Schedule.id x, 1) := r]> (ScheduleRepo._revisions s) ∧ same_runs s s' ∧
  schedule_owned_by x p = true ∧ Schedule.state x = SCHEDULE_ACTIVE ∧ Schedule.current_revision x = 1 ∧
  fires x r ∧ within_authority p r ∧ answers_key p key hash (Schedule.id x) s'.
Lemma returns_create {B} x r (k : Schedule.t → M B) Q u :
  (ScheduleRepo._schedules (schedules u) !! Schedule.id x = None →
   ∀ u', schedules u' = (schedules u)
      <| ScheduleRepo._schedules := <[Schedule.id x := x]> (ScheduleRepo._schedules (schedules u)) |>
      <| ScheduleRepo._revisions := <[(Schedule.id x, Revision.revision r) := r]> (ScheduleRepo._revisions (schedules u)) |> →
   returns Q (k x) u') →
  returns Q (on_schedules (ScheduleRepo.create x r) ≫= k) u.
Proof.
  intros Hk. apply wp_bind, wp_on_schedules. unfold ScheduleRepo.create. destruct (_ || _); [by intros ? ?|].
  case_bool_decide as E; [by intros ? ?|]. apply eq_None_not_Some in E. by apply Hk.
Qed.
Lemma create_idempotency_acts p key hash i now (u : Uow W) :
  returns (λ _ u', same_rows u u' ∧ answers_key p key hash i (schedules u')) (create_idempotency p key hash i now) u.
Proof.
  assert (returns (λ _ u', answers_key p key hash i (schedules u')) (create_idempotency p key hash i now) u) as Ha.
  { unfold create_idempotency. apply wp_bind, wp_on_schedules. unfold ScheduleRepo.create_idempotency. cbn.
    destruct (ScheduleRepo._idempotency _ !! _) as [record|] eqn:E.
    - case_bool_decide as Er; [|by intros ? ?]. apply returns_ret. exists record. subst record. done.
    - destruct (ScheduleRepo._schedules _ !! i); [|by intros ? ?]. destruct (_ && _); [|by intros ? ?]. apply returns_ret.
      eexists. split; [apply lookup_insert_eq|done]. }
  intros a E. split; [apply rows_idempotency|exact (Ha a E)].
Qed.
Lemma first_schedule_Ok i p next now x : first_schedule i p next now = Ok x →
  Schedule.id x = i ∧ Schedule.tenant_id x = Principal.tenant_id p ∧ Schedule.principal_id x = Principal.principal_id p ∧
  Schedule.state x = SCHEDULE_ACTIVE ∧ Schedule.current_revision x = 1 ∧ Schedule.next_fire_at x = Some next.
Proof.
  unfold first_schedule, Schedule.state_is_consistent. intros E. do 4 (apply raise_if_ok in E as [_ E]). by injection E as <-.
Qed.
Lemma create_acts p d key hash u :
  ScheduleRepo.get_idempotency (Principal.tenant_id p) (Principal.principal_id p) key (schedules u) = None →
  returns (λ r u', replayed r.1 = false → made p d key hash (schedules u) (schedules u') r.1)
    (create_in ZoneInfo uuid_str revision_grant_id contains_credential limits p d key hash) u.
Proof.
  intros Hnone. unfold create_in, get_idempotency. apply wp_bind, wp_gets. rewrite Hnone.
  eapply returns_bind; [apply validate_Ok|]. intros _ u1 [[E1 _] Ha].
  apply (returns_after world_only); [apply keeps_clock|]. intros now u2 [E2 _].
  apply returns_lift. intros [next|] Hnext; [|apply returns_raise].
  apply (returns_after world_only); [apply keeps_fresh|]. intros i u3 [E3 _].
  apply returns_lift. intros x (Hi & Ht & Hp & Hst & Hn & Hf)%first_schedule_Ok.
  apply returns_lift. intros r (_ & Hrev & Hcad & Hauth)%revision_Ok. apply returns_create. intros Hnew u4 E4.
  eapply returns_bind; [apply create_idempotency_acts|]. intros _ u5 [[[S1 S2] [S3 S4]] Hkey].
  apply (returns_after same_schedules); [apply same_event|]. intros _ u6 S6. apply returns_ret. intros _.
  rewrite E3, E2, E1 in *. rewrite Hn in Hrev. rewrite Hrev in *. unfold made. cbn [record_schedule record_revision fst].
  rewrite S6, S3, S4. unfold same_runs. rewrite S1, S2, E4. cbn. split_and!; try done; [| |by apply Hauth].
  - unfold schedule_owned_by, owned_by. by rewrite Ht, Hp, !bool_decide_true.
  - unfold fires. rewrite Hst, bool_decide_true by done. exists (now - 1), next. by rewrite Hcad.
Qed.
Lemma record_replayed p i b u : returns (λ a _, replayed a = b) (_record p i b : M ScheduleRecord) u.
Proof. unfold _record. apply returns_read. intros x _. apply returns_read. intros r _. by apply returns_ret. Qed.
Definition hashed (d : ScheduleDefinition.t) : string := _definition_hash sha256_json dump_definition d.
Definition create_ (p : Principal) (d : ScheduleDefinition.t) (key : string) : M ScheduleRecord :=
  create ZoneInfo uuid_str revision_grant_id contains_credential limits sha256_json dump_definition p d key.
Definition made_unless_replayed p d key (u : Uow W) (a : ScheduleRecord) (u' : Uow W) : Prop :=
  replayed a = false → made p d key (hashed d) (schedules u) (schedules u') a.
Lemma create_in_acts p d key u :
  returns (λ r, made_unless_replayed p d key u r.1)
    (create_in ZoneInfo uuid_str revision_grant_id contains_credential limits p d key (hashed d)) u.
Proof.
  destruct (ScheduleRepo.get_idempotency (Principal.tenant_id p) (Principal.principal_id p) key (schedules u)) eqn:E;
    [|by apply create_acts].
  unfold create_in, get_idempotency. apply wp_bind, wp_gets. rewrite E. destruct (negb _); [by intros ? ?|].
  eapply returns_bind; [apply record_replayed|]. intros a u1 Ha. apply returns_ret. unfold made_unless_replayed. cbn. congruence.
Qed.
Lemma create_made p d key u :
  returns (λ a u', "schedule.write" ∈ Principal.scopes p ∧ _idempotency_key key = Ok key ∧ made_unless_replayed p d key u a u')
    (create_ p d key) u.
Proof.
  unfold create_, create. apply returns_scope, returns_lift. intros k Hk.
  assert (k = key) as -> by (unfold _idempotency_key in Hk; by apply raise_if_ok in Hk as [_ [= ->]]).
  assert (∀ (m : M ScheduleRecord), returns (made_unless_replayed p d key u) m u →
    returns (λ a u', _idempotency_key key = Ok key ∧ made_unless_replayed p d key u a u') m u) as Hkey
    by (intros m Hm a E; split; [done|by apply Hm]).
  apply Hkey. cbv zeta. apply returns_conflict.
  - intros e u1 _. apply returns_transaction. unfold get_idempotency. apply wp_bind, wp_gets.
    destruct (ScheduleRepo.get_idempotency _ _ _ _); [|by intros ? ?]. destruct (String.eqb _ _); [|by intros ? ?].
    apply (wp_mono _ (λ r u', ∀ a, r = Ok a → replayed a = true)); [apply record_replayed|].
    intros r u2 Hr a E. unfold made_unless_replayed. rewrite (Hr a E). done.
  - apply returns_woken; [|apply create_in_acts]. intros a u1 u2 Hm [E _] Ha. rewrite E. by apply Hm.
Qed.
Lemma record_there p i x r b (u : Uow W) :
  ScheduleRepo._schedules (schedules u) !! i = Some x → Schedule.id x = i → schedule_owned_by x p = true →
  ScheduleRepo._revisions (schedules u) !! (i, Schedule.current_revision x) = Some r →
  _record p i b u = (Ok {| record_schedule := x; record_revision := r; replayed := b |}, u).
Proof.
  intros Hx Hi Ho Hr.
  assert (ScheduleRepo.get i p (schedules u) = Ok x) as Hg by (unfold ScheduleRepo.get; by rewrite Hx, Ho).
  assert (ScheduleRepo.get_revision i (Schedule.current_revision x) p (schedules u) = Ok r) as Hgr
    by (unfold ScheduleRepo.get_revision, mbind, result_bind; by rewrite Hg, Hr).
  unfold _record, mbind, stateM_bind, read_schedules. by rewrite Hg, Hi, Hgr.
Qed.
Lemma create_again p d key x r (u : Uow W) :
  "schedule.write" ∈ Principal.scopes p → _idempotency_key key = Ok key →
  ScheduleRepo._schedules (schedules u) !! Schedule.id x = Some x → schedule_owned_by x p = true →
  ScheduleRepo._revisions (schedules u) !! (Schedule.id x, Schedule.current_revision x) = Some r →
  answers_key p key (hashed d) (Schedule.id x) (schedules u) →
  create_ p d key u = (Ok {| record_schedule := x; record_revision := r; replayed := true |}, u).
Proof.
  intros Hs Hk Hx Ho Hr (record & Hrec & Hh & Hi). unfold create_, create, mbind at 1, stateM_bind, lift at 1.
  unfold require_scope. rewrite bool_decide_true by done. cbn [negb]. unfold mbind at 1, stateM_bind, lift at 1.
  rewrite Hk. cbv zeta. unfold on_conflict, woken, mbind at 1, stateM_bind, transaction, create_in, get_idempotency.
  unfold mbind at 1, stateM_bind, gets. rewrite Hrec, Hh. unfold hashed. rewrite String.eqb_refl. cbn [negb].
  unfold mbind at 1, stateM_bind. rewrite Hi, (record_there p (Schedule.id x) x r true u) by done. done.
Qed.
Lemma create_mismatch p d key hash i (u : Uow W) :
  "schedule.write" ∈ Principal.scopes p → _idempotency_key key = Ok key →
  answers_key p key hash i (schedules u) → hashed d ≠ hash →
  ∃ u1, create_ p d key u = (Raise idempotency_mismatch, u1) ∧ world_only u u1.
Proof.
  intros Hs Hk (record & Hrec & Hh & Hi) Hne. assert (String.eqb hash (hashed d) = false) as Hb by (apply String.eqb_neq; congruence).
  unfold hashed in Hb. unfold create_, create, mbind at 1, stateM_bind, lift at 1.
  unfold require_scope. rewrite bool_decide_true by done. cbn [negb]. unfold mbind at 1, stateM_bind, lift at 1.
  rewrite Hk. cbv zeta. unfold on_conflict, woken, mbind at 1, stateM_bind, transaction at 1, create_in, get_idempotency at 1.
  unfold mbind at 1, stateM_bind, gets at 1. rewrite Hrec, Hh, Hb. cbn [negb].
  unfold raise, idempotency_mismatch at 1, transaction, get_idempotency, mbind, stateM_bind, gets. cbn [schedules].
  cbn -[ScheduleRepo.get_idempotency]. rewrite Hrec, Hh, Hb. by eexists.
Qed.

End spec.
