(* ===== verification/ScheduleWorld.v ===== *)
(** * A world for schedules, and firings evaluated

    Runs, an authority and a scripted admission behind the ports of [Materializer]. Two
    histories show what the theorems leave open: an outage that coalesces misfires while the
    tenant is busy, and a run on request before a late firing. *)
From S2P Require Import Prelude PyDecimal EventModel RunModel Sessions Messages StateLogic Calendar Recurrence RecurrenceSpec.
From S2P Require Import RecurrenceCount RecurrenceWorld Schedules ScheduleStore ScheduleStoreSpec ProcessEvents CallPlans Materializer.
From S2P Require Import ScheduleService ScheduleServiceSpec FeedRefresh MaterializerSpec ScheduleSafety ScheduleAccounting ScheduleOutcomes.

Record Agenda := {
  ag_now : datetime;
  ag_next_id : N;
  ag_runs : gmap UUID Run;
  (** As they were launched. *)
  ag_launched : list Run;
  ag_sequence : Z;
  ag_authority : option AuthoritySnapshot;
  (** How many times admission still asks to wait. *)
  ag_busy : nat;
}.
#[export] Instance Agenda_eta : Eta Agenda := λ w,
  {| ag_now := ag_now w; ag_next_id := ag_next_id w; ag_runs := ag_runs w; ag_launched := ag_launched w; ag_sequence := ag_sequence w;
     ag_authority := ag_authority w; ag_busy := ag_busy w |}.
#[export] Instance agenda_ports : SchedulePorts Agenda := {|
  clock_now w := (ag_now w, w);
  new_id w := (ag_next_id w, w <| ag_next_id := (ag_next_id w + 1)%N |>);
  runs_get i _ w := (match ag_runs w !! i with Some r => Ok r | None => Raise (NotFoundError "run not found") end, w);
  sessions_get _ _ w := (Raise (NotFoundError "session not found"), w);
  principals_current _ _ w := (Ok (ag_authority w), w);
  agents_get_version i v w :=
    (Ok {| pinned_agent_id := i; pinned_agent_version := v; pinned_policy_profile := "default" |}, w);
  admission_check _ _ _ w := match ag_busy w with
    | O => (Ok {| admission_outcome := ADMISSION_ALLOW; admission_reason := None |}, w)
    | S n => (Ok {| admission_outcome := ADMISSION_RETRY; admission_reason := Some "schedule.concurrency_limit" |},
              w <| ag_busy := n |>)
    end;
  sessions_create _ w := (Ok tt, w);
  events_append _ w := (Ok (ag_sequence w), w <| ag_sequence := ag_sequence w + 1 |>);
  runs_create r w :=
    (Ok tt, w <| ag_runs := <[RunModel.id r := r]> (ag_runs w) |> <| ag_launched := (ag_launched w ++ [r])%list |>);
  queue_enqueue := None;
  set_seed_event_sequence _ _ w := (Ok tt, w);
  seed_checkpoint _ _ _ w := (Ok tt, w);
  notify_occurrence := None;
  notify_accounted := None;
  write_probe _ w := (Ok tt, w);
  rolled_back _ w := w;
|}.

Definition owner : Principal :=
  {| Principal.tenant_id := "home"; Principal.principal_id := "owner"; Principal.roles := ∅;
     Principal.scopes := {["chat"; "cockpit.write"]} |}.
Definition authority : AuthoritySnapshot :=
  {| authority_principal := owner; authority_version := "7"; authority_enabled := true |}.
(** Every night at half past one in New York, with a day of grace. *)
Definition report_revision : Revision.t :=
  {| Revision.schedule_id := 1; Revision.revision := 1; Revision.title := "Nightly report";
     Revision.instruction := "Write the report."; Revision.task := AgentRunTask; Revision.agent_id := 9;
     Revision.agent_version := "1"; Revision.policy_profile := "default"; Revision.requested_scopes := {["chat"]};
     Revision.browser_profile_id := None;
     Revision.limits := RunLimits_default <| max_cost := Some (Dec 1 0) |>; Revision.run_timeout_seconds := 3600;
     Revision.cadence := nightly; Revision.timezone := Some "America/New_York"; Revision.misfire_grace_seconds := 86400;
     Revision.max_consecutive_failures := 3; Revision.notify := EVERY_REPORT; Revision.created_by_principal_id := "owner";
     Revision.created_at := moment 2025 10 1 0 0; Revision.call_plan := None; Revision.mcp_servers := ∅ |}.
Definition report_schedule : Schedule.t :=
  {| Schedule.id := 1; Schedule.tenant_id := "home"; Schedule.principal_id := "owner"; Schedule.state := SCHEDULE_ACTIVE;
     Schedule.pause_reason := None; Schedule.current_revision := 1;
     Schedule.next_fire_at := Some (moment 2025 10 2 5 30); Schedule.consecutive_failures := 0;
     Schedule.created_at := moment 2025 10 1 0 0; Schedule.updated_at := moment 2025 10 1 0 0 |}.
Definition opened (now : datetime) (busy : nat) : Uow Agenda :=
  {| schedules := (ScheduleRepo.create report_schedule report_revision ScheduleRepo.init).2; process_events := ∅;
     world := {| ag_now := now; ag_next_id := 100; ag_runs := ∅; ag_launched := []; ag_sequence := 1; ag_authority := Some authority;
                 ag_busy := busy |} |}.
Definition uuid_str (i : UUID) : string := pretty.pretty i.
Definition no_step (j : json) : result CallPlanStep := Raise (ValueError "validation error for CallPlanStep").
Definition firing : stateM (Uow Agenda) (option Occurrence.t) := materialize zones uuid_str no_step 1.
Definition at_ (t : datetime) (u : Uow Agenda) : Uow Agenda := u <| world := (world u) <| ag_now := t |> |>.
Definition ended_with (i : UUID) (st : RunStatus) (u : Uow Agenda) : Uow Agenda :=
  u <| world := (world u) <| ag_runs := alter (λ r, r <| RunModel.status := st |>) i (ag_runs (world u)) |> |>.
Definition on_request (key : string) : stateM (Uow Agenda) (Occurrence.t * bool) := materialize_manual uuid_str owner 1 1 key.

(** ** The laws *)
#[export] Instance agenda_view : ScheduleView Agenda := {|
  launched := ag_launched;
  authority_of w _ _ := ag_authority w;
  run_over w i := match ag_runs w !! i with Some r => is_terminal (RunModel.status r) | None => false end;
|}.
#[export] Instance agenda_laws : ScheduleLaws Agenda.
Proof.
  split; try done.
  - intros t r now w. cbn. by destruct (ag_busy w).
  - intros i p w r w'. cbn. destruct (ag_runs w !! i); [|done]. by intros [= <- <-].
  - intros t p w a w'. cbn. by intros [= <- <-].
  - intros r w. split; [done|by right].
Qed.

(** ** The theorems at this world *)
Definition late : datetime := moment 2025 10 4 6 0.
Definition decided_at (now : datetime) : result (option Occurrence.t) * Uow Agenda :=
  transaction (materialize_at zones uuid_str no_step 1 now) (opened now 0).
Lemma opened_inv now busy : inv (schedules (opened now busy)).
Proof. exact (run_inv [Create report_schedule report_revision]). Qed.
Lemma opened_ahead now busy : ahead (schedules (opened now busy)).
Proof. intros i x t o _ _ H. by apply elem_of_nil in H. Qed.
Lemma report_on_cadence : on_cadence zones report_schedule report_revision.
Proof.
  intros t [= <-]. assert (next_after zones nightly (moment 2025 10 1 12 0) = Ok (Some (moment 2025 10 2 5 30))) as E
    by by vm_compute.
  apply (next_nearest _ every_zone) in E; [exact (proj1 E)|exact nightly_valid|exact (zones_orderly nightly)].
Qed.
Lemma late_decided : ∃ o u', decided_at late = (Ok (Some o), u') ∧ Occurrence.nominal_fire_at o = moment 2025 10 4 5 30.
Proof. eexists _, _. split; by vm_compute. Qed.
Lemma report_due now busy : moment 2025 10 2 5 30 <= now →
  ScheduleRepo.lock_due 1 now (schedules (opened now busy)) = Some report_schedule.
Proof.
  intros H. change (ScheduleRepo.lock_due 1 now (schedules (opened now busy))) with
    (if moment 2025 10 2 5 30 <=? now then Some report_schedule else None). by rewrite (proj2 (Z.leb_le _ _)).
Qed.
Lemma late_due : ScheduleRepo.lock_due 1 late (schedules (opened late 0)) = Some report_schedule.
Proof. apply report_due. by vm_compute. Qed.
Lemma scheduled_runs_authorised_witness :
  guarded (opened late 0) late (materialize_at zones uuid_str no_step 1 late (opened late 0)).2 ∧
  length (ag_launched (world (materialize_at zones uuid_str no_step 1 late (opened late 0)).2)) = 1%nat.
Proof.
  split; [|by vm_compute].
  exact (proj1 (scheduled_runs_authorised zones uuid_str no_step (opened late 0) late 1 owner 1 "a")).
Defined.

(** A night that was missed, and the same night again under another id. *)
Definition missed (id : UUID) : Occurrence.t :=
  {| Occurrence.id := id; Occurrence.schedule_id := 1; Occurrence.schedule_revision := 1;
     Occurrence.nominal_fire_at := moment 2025 10 2 5 30; Occurrence.disposition := MISSED; Occurrence.session_id := None;
     Occurrence.run_id := None; Occurrence.reason_code := Some "schedule.misfire_grace_exceeded";
     Occurrence.authority_version := None; Occurrence.materialized_at := None; Occurrence.links_erased_at := None;
     Occurrence.created_at := late; Occurrence.trigger := SCHEDULED; Occurrence.manual_request_key := None |}.
Definition history : list op := [Create report_schedule report_revision; Insert (missed 50); Insert (missed 51)].
Lemma missed_in_history : missed 50 ∈ ScheduleRepo._occurrences (run history).
Proof. change (missed 50 ∈ [missed 50]). by left. Qed.
Lemma nothing_recorded_twice_witness :
  ScheduleRepo.get_occurrence_by_nominal 1 (moment 2025 10 2 5 30) (run history) = Ok (Some (missed 50)).
Proof.
  exact (proj1 (proj2 (nothing_recorded_twice history (missed 50) (missed 50) missed_in_history missed_in_history)) eq_refl).
Defined.

(** The late run fails, and its failure is counted. *)
Definition failed_run : Uow Agenda := ended_with 102 FAILED (decided_at late).2.
Lemma failed_run_inv : inv (schedules failed_run).
Proof.
  destruct late_decided as (o & u' & E & _). unfold failed_run. rewrite E. cbn.
  pose proof (materialize_due zones uuid_str no_step every_zone 1 late (opened late 0) report_schedule report_revision
    (opened_inv late 0) (opened_ahead late 0) nightly_valid late_due eq_refl) as Hd.
  apply transaction_Ok in E. unfold returns, wp in Hd. rewrite E in Hd.
  destruct (Hd (Some o) eq_refl) as (? & ? & _ & _ & _ & _ & _ & _ & _ & _ & _ & _ & _ & I & _). exact I.
Qed.
Lemma failed_run_counted : (account uuid_str 102 failed_run).1 = Ok true ∧
  Schedule.consecutive_failures <$> ScheduleRepo._schedules (schedules (account uuid_str 102 failed_run).2) !! 1%N = Some 1.
Proof. split; by vm_compute. Qed.
Lemma outcome_counted_once_witness : ∃ u', account uuid_str 102 failed_run = (Ok true, u') ∧
  account uuid_str 102 u' = (Ok false, u').
Proof.
  pose proof (proj1 failed_run_counted) as E1. destruct (account uuid_str 102 failed_run) as [r u'] eqn:E. cbn in E1.
  subst r. exists u'. split; [reflexivity|].
  destruct (outcome_counted_once uuid_str 102 failed_run true u' failed_run_inv E) as [[Hb _]|(_ & link & _ & _ & Hagain)];
    [discriminate Hb|exact Hagain].
Defined.

(** A schedule that keeps a feed, beside the nightly report. *)
Definition feed_revision : Revision.t :=
  {| Revision.schedule_id := 2; Revision.revision := 1; Revision.title := "Feed"; Revision.instruction := "Refresh the feed.";
     Revision.task := AgentRunTask; Revision.agent_id := 9; Revision.agent_version := "1";
     Revision.policy_profile := "default"; Revision.requested_scopes := {["cockpit.write"]};
     Revision.browser_profile_id := None; Revision.limits := RunLimits_default <| max_cost := Some (Dec 1 0) |>;
     Revision.run_timeout_seconds := 600; Revision.cadence := nightly; Revision.timezone := Some "America/New_York";
     Revision.misfire_grace_seconds := 3600; Revision.max_consecutive_failures := 3; Revision.notify := ATTENTION_ONLY;
     Revision.created_by_principal_id := "owner"; Revision.created_at := moment 2025 10 1 0 0; Revision.call_plan := None;
     Revision.mcp_servers := ∅ |}.
Definition two_schedules : list op :=
  [Create report_schedule report_revision; Create (report_schedule <| Schedule.id := 2%N |>) feed_revision].
Definition cockpit : Uow Agenda := (opened late 0%nat) <| schedules := run two_schedules |>.
Lemma feeds_exact_witness : ∃ ids, _feed_schedule_ids owner cockpit = (Ok ids, cockpit) ∧ 2%N ∈ ids ∧ 1%N ∉ ids.
Proof.
  destruct (feeds_exact owner cockpit (run_inv two_schedules)) as (ids & E & _ & _ & H). exists ids.
  split; [exact E|]. split.
  - apply H. exists (report_schedule <| Schedule.id := 2%N |>), feed_revision. split_and!; reflexivity.
  - intros (x & r & Hx & _ & _ & _ & Hr & _ & Hf)%H. injection Hx as <-. injection Hr as <-. apply (bool_decide_pack _) in Hf. by vm_compute in Hf.
Defined.

(** *** The owner's own operations *)
#[export] Instance agenda_service : ServicePorts Agenda := {|
  jobs_get _ _ w := (Raise (NotFoundError "job not found"), w);
  mcp_servers_get _ _ w := (Ok None, w);
  browser_profiles_get _ _ w := (Raise (NotFoundError "browser profile not found"), w);
  wake_worker := None;
|}.
Definition writer : Principal :=
  {| Principal.tenant_id := "home"; Principal.principal_id := "owner"; Principal.roles := ∅;
     Principal.scopes := {["chat"; "schedule.write"]} |}.
Definition tenant_limits : ScheduleDefinitionLimits :=
  {| max_run_timeout_seconds := 3600; max_misfire_grace_seconds := 86400; max_steps_per_run := 50;
     max_model_calls_per_run := 50; max_tool_calls_per_run := 50; max_cost_per_run := Dec 5 0 |}.
Definition no_grant (approval revision : UUID) : UUID := approval.
Definition no_credential (s : string) : bool := false.
(** A digest of the title will do. *)
Definition titled (d : ScheduleDefinition.t) : dict := [("title", JStr (ScheduleDefinition.title d))].
Definition untitled (p : ScheduleDefinitionPatch) : dict := [].
Definition digest (j : json) : string := match j with JObj [(_, JStr s)] => s | _ => "" end.
Definition creating : stateM (Uow Agenda) ScheduleRecord :=
  create_ zones uuid_str no_grant no_credential tenant_limits digest titled writer (definition_of report_revision) "first".
Definition pausing : stateM (Uow Agenda) ScheduleRecord :=
  perform zones uuid_str no_grant no_credential tenant_limits digest untitled Pause writer 1 1.
Lemma created_new : match (creating (opened late 0)).1 with Ok a => replayed a = false | Raise _ => False end.
Proof. by vm_compute. Qed.
Lemma paused_ok : match (pausing (opened late 0)).1 with Ok _ => True | Raise _ => False end.
Proof. by vm_compute. Qed.

(** ** Two histories the theorems leave open *)
Definition answers {A} (m : stateM (Uow Agenda) A) (u : Uow Agenda) : result A := (m u).1.
Definition after_ {A} (m : stateM (Uow Agenda) A) (u : Uow Agenda) : Uow Agenda := (m u).2.
(** The tenant is busy when three nights are coalesced. Asked to wait, the firing still commits
    the event that tells of them, under a key that stays the same until the next night: every
    later attempt of that night fails on it, and only the next night's run starts. *)
Definition waiting : Uow Agenda := after_ firing (opened late 1).
Definition disposed (r : result (option Occurrence.t)) : option (datetime * OccurrenceDisposition) :=
  match r with Ok (Some o) => Some (Occurrence.nominal_fire_at o, Occurrence.disposition o) | _ => None end.
Lemma coalesced_retry_blocked :
  answers firing (opened late 1) = Ok None ∧
  answers firing waiting = Raise ProcessEventRepo.different_content ∧
  answers firing (at_ (moment 2025 10 4 23 0) waiting) = Raise ProcessEventRepo.different_content ∧
  disposed (answers firing (at_ (moment 2025 10 5 6 0) waiting)) = Some (moment 2025 10 5 5 30, MATERIALIZED).
Proof. split_and!; by vm_compute. Qed.

(** A run on request at six in the morning hides the late run of half past one: it is filed at
    the later instant. Once it is over, a second request starts a run beside the late one. *)
Definition requested : Uow Agenda := ended_with 101 COMPLETED (after_ (on_request "a") (opened late 0)).
Definition beside : Uow Agenda :=
  after_ (on_request "b") (at_ (moment 2025 10 4 6 20) (after_ firing (at_ (moment 2025 10 4 6 10) requested))).
Lemma request_hides_late_run :
  (λ r, (RunModel.id r, RunModel.status r)) <$> omap (λ r, ag_runs (world beside) !! RunModel.id r) (ag_launched (world beside)) =
    [(101, COMPLETED); (106, QUEUED); (110, QUEUED)]%N.
Proof. by vm_compute. Qed.
